(* ===== verification/_CoqProject ===== *)
-Q . S2P
Prelude.v
RustStd.v
Base64.v
BTree.v
Batches.v
SyncIndex.v
Extern.v
Net.v
Reference.v
Cose.v
CborBatches.v
SignedTypes.v
Inbox.v
InboxProps.v
WireProps.v
Transport.v
TransportProps.v
Batcher.v
BatcherProps.v
MessageQueue.v
Outbound.v
StateStore.v
Applier.v
AuditTrail.v
Validator.v
ValidatorProps.v
PriceRule.v
Replay.v
HttpFetcher.v
HttpProps.v
Cloud.v
CloudProps.v
RefStorage.v
Pipeline.v
Witnesses.v
CloudWitnesses.v
Bridge.v
Jwt.v
Stylus.v
StylusProps.v
BootClients.v
Bootstrap.v
BootProps.v
AttestProps.v
Relayer.v
RelayerProps.v
ProofService.v
ProofServiceProps.v
ValidatorMain.v
ValidatorMainProps.v
AttestWitnesses.v
RegWitnesses.v
ProofWitnesses.v
ProcessWitnesses.v
ChainMonitor.v
ChainProps.v
ParseArgs.v
ChainWitnesses.v
Market.v
MarketApp.v
MarketProps.v
MarketWitnesses.v
SeqApi.v
MessageApi.v
SequencerMain.v
SeqApiProps.v
SequencerProps.v
SequencerWitnesses.v
ClientSender.v
ClientSession.v
ClientProps.v
ClientCapture.v
ClientFfi.v
ClientFfiProps.v
ClientWitnesses.v
Harness.v
Scenarios.v
HarnessProps.v
Grammar.v
HarnessWitnesses.v
