(* ===== verification/Prelude.v ===== *)
(** * SyndDB: a verification library

    SyndDB replicates an application's SQLite database.  The _client_ captures the
    application's changes and sends changesets, snapshots and withdrawals to a
    _sequencer_, which numbers and signs each one, groups them into signed batches and
    publishes the batches to a storage layer; a _validator_ fetches them, checks every
    signature against the sequencer's key and replays them on its own replica, in
    order.  A _chain monitor_ brings deposits from a bridge contract into the
    application's database.  Sequencer and validator run in TEEs: on start the
    _bootstrap_ generates a signing key, proves with an attestation token where it runs
    (to a zkVM guest or to a Stylus contract) and registers the key on chain through a
    _relayer_.  This library models these parts from the Rust sources under [src] and
    proves them correct, function by function and end to end.

    ** How the sources are represented

    A Rust function is a Gallina function of the same name, in a [Module] named
    after the type it belongs to; a struct is a [Record t] of that module, an enum an
    [Inductive].  [Result<A, E>] is [result E A], with a third constructor [Panic]
    for reachable panics ([unwrap], [expect], slice copies); [let?] is the question
    mark operator.  A method on [&mut self] takes the state and returns the new one.
    A [u64] is a [Z] with the wrap-around of release builds written out ([u64_add],
    [as_u64]); bytes are [list byte]; a [String] is its UTF-8 bytes.  The clock, the
    timers and the HTTP attempt number are arguments, a callback's calls are
    returned as a list.

    Code that is not in the repository is a class of operations, with what the
    sources rely on as a separate class of laws: hex, k256/sha2/sha3/alloy, zstd,
    ciborium, coset and serde ([Extern]), the SQLite tables and the session
    extension ([Transport.BatchTable], [Applier.Session], [ClientSession.Capture],
    [Outbound.AppDb]), reqwest and serde_json ([Net], [HttpFetcher]), RSA and the ABI
    codec ([Jwt]), the EVM precompiles ([Stylus.Evm]), the chain
    ([BootClients.Rpc], [Relayer.RelayRpc]), the launcher's socket
    ([Bootstrap.TeeSocket]), Google's storage clients ([Cloud.ObjectStore]), SQLite
    behind the C interface ([ClientFfi.FfiLibs]) and in the harness ([Harness.Sql]), RISC
    Zero ([ProofService.Zkvm]).
    [Reference], [RefStorage], [TransportProps.ref_table] and the
    [...Witnesses] files implement the classes by executable functions and prove the
    laws; the witnesses of the theorems run on them.

    ** Files

    - [Prelude], [RustStd], [BTree]: results, machine integers, tactics; the string
      functions and ordered maps of the Rust standard library the sources use.
    - [Batches] (shared/types/batch.rs) and [SyncIndex]
      (validator/sync/batch_index.rs): batch metadata, the file-name codec, the
      index and its iterator, with the standard library's bisection.
    - [Extern], [Reference]: third-party crates as classes, and their instance.
    - [Cose] (shared/types/cbor/error, verify, cose_helpers, message.rs),
      [CborBatches] (cbor/batch.rs), [SignedTypes] (types/message.rs,
      cbor/convert.rs), properties in [WireProps].
    - [Inbox] (shared/keys.rs, sequencer/inbox.rs), properties in [InboxProps].
    - [Transport] (sequencer/transport/traits.rs, local.rs), [TransportProps].
    - [Batcher] (sequencer/batcher.rs), [BatcherProps].
    - [MessageQueue], [Outbound] (sequencer/messages/queue.rs, outbound.rs).
    - [StateStore] (validator/error.rs, state/store.rs), [Applier]
      (apply/applier.rs, rules/mod.rs, shared/types/payloads.rs), [AuditTrail]
      (apply/audit.rs), [Validator] (validator.rs, sync/verifier.rs,
      sync/fetcher.rs), properties in [ValidatorProps] and [Replay].
    - [HttpFetcher] (validator/sync/providers/http.rs), [HttpProps] (with the
      sequencer's storage routes); [RefStorage]: instances for the validator.
    - [Cloud] (synddb-storage, shared/gcs.rs, sequencer/transport/gcs.rs,
      validator/sync/providers/gcs.rs), [CloudProps], [CloudWitnesses].
    - [Pipeline]: the composition of all of them; [Witnesses]: concrete runs.
    - [Bridge] (validator/bridge/signer.rs, signature_store.rs).
    - [Base64], [Jwt] (gcp-attestation/jwt.rs, verify.rs, the guest in
      synddb-bootstrap/risc0/program), [Stylus]
      (contracts/stylus/attestation-verifier), properties in [StylusProps] and
      [AttestProps], instances in [AttestWitnesses].
    - [Net]: HTTP outcomes and JSON classes; [BootClients]
      (synddb-bootstrap/proof_client, relayer_client, submitter, drain, config,
      error.rs), [Bootstrap] (state_machine.rs, synddb-client/attestation.rs),
      [BootProps]; [Relayer] (synddb-relayer, with validator/http/signatures.rs),
      [RelayerProps]; [RegWitnesses].
    - [ProofService] (proof-service/main.rs, prover.rs, config.rs), [ProofServiceProps],
      [ProofWitnesses].
    - [ChainMonitor] (synddb-chain-monitor, synddb-client/chain_handler.rs,
      chain_monitor_integration/active.rs), [ChainProps]; [ParseArgs] (shared/parse.rs);
      [ChainWitnesses].
    - [ValidatorMain] (validator/main.rs, config.rs, http/api.rs, bridge/signer.rs),
      [ValidatorMainProps], [ProcessWitnesses].
    - [SeqApi] (sequencer/attestation, cbor_extractor, http_errors, http_api.rs and the
      batcher's handle), [MessageApi] (sequencer/messages/api.rs), [SeqApiProps];
      [SequencerMain] (sequencer/main.rs, config.rs),
      [SequencerProps], [SequencerWitnesses].
    - [ClientSender] (synddb-client/config, stats, retry, recovery, sender,
      snapshot_sender.rs), [ClientSession] (session, ddl_recovery, lib.rs), properties
      in [ClientProps] and [ClientCapture]; [ClientFfi] (ffi.rs), [ClientFfiProps];
      [ClientWitnesses].
    - [Market], [MarketApp] (examples/prediction-market), [MarketProps],
      [PriceRule] (the rule of examples/price-oracle, on binary64); [MarketWitnesses].
    - [Harness] (validator/sync/providers/mock.rs, synddb-e2e-fuzzer/harness, invariants,
      faults.rs), [Scenarios] (synddb-fuzzer/operations.rs,
      synddb-e2e-fuzzer/scenarios.rs, replay.rs), [HarnessProps], [Grammar]
      (synddb-fuzzer/grammar.rs, generators.rs), [HarnessWitnesses].

    ** What is proved

    End to end ([Pipeline]): requests sequenced by a fresh inbox, batched, published
    until shutdown and fetched, over HTTP or through a cloud bucket, reach a fresh
    validator as one message per request, in order, and both sync paths consume all of
    them and end in the same state.  The links are interfaces: [TransportPublisher]
    with [TransportLaws] (an append-only log of batches) is what the batcher's theorems
    assume and both backends of the local transport and the cloud transport are proved
    to keep; [StorageFetcher] is what the validator's theorems are stated over and the
    HTTP fetcher, on top of the storage routes, and the cloud fetcher are proved to
    serve exactly the log.

    - Messages and batches ([WireProps]): round trips from building to the
      validator's internal form; whatever the verifiers accept is authentic.
    - Inbox ([InboxProps]): numbers are distinct and gap-free under every
      interleaving of concurrent calls (a step relation); messages and receipts
      agree; bridge withdrawals are signed as the contract recovers them.
    - Batcher, queue, outbound monitor, signature store: invariants over all
      operations; every message the batcher takes is published, dropped by a flush whose
      batch cannot be published, or still pending, whatever the transport answers; what
      the thresholds allow to wait.
    - Validator ([ValidatorProps], [Replay]): progress moves only over messages whose
      signatures verify, in order, each of them applied or its changesets put aside as
      pending; a failed message leaves the replica alone; what an acceptable log
      guarantees.  The audit ([AuditTrail]) accounts for every changeset it undoes, and
      restores the database where the tables have exactly the columns their changesets
      record.
    - Batch index ([SyncIndex]): bisection equals linear search, gaps are exact, the
      iterator enumerates.
    - Client ([ClientCapture], [ClientProps]): what the application commits, captured by
      SQLite sessions and acknowledged by the sequencer, rebuilds its database when the
      validator's applier replays it, whatever the order in which the application and
      the sender threads run between attaching and shutdown; no changeset a sender takes
      disappears: it is acknowledged, in the recovery table, or still buffered; recovery
      rows read back; a shutdown forgets what was not pushed.
    - C interface ([ClientFfiProps]): every call reports an error exactly when it
      returns one; the handles of a thread share one session.
    - Sequencer API ([SeqApiProps]): nothing is numbered for a caller without a valid
      token; a refusal is a 401 and leaves counter and batcher alone.
    - Sequencer process ([SequencerProps]): handlers run in two steps, before and after
      the message is handed to the batcher, and others may run in between.  As long as
      messages are handed over in the order of their numbers, over any number of restarts
      on one database file, ended in order or not, the stored numbers increase and are
      those that were acknowledged; a handler that overtakes another breaks this, and the
      next process hands out a number again.
    - Validator process ([ValidatorMainProps]): every withdrawal it syncs has a
      signature at its endpoint; the status endpoint tells the recorded progress.
    - Prediction market ([MarketProps]): money is conserved by every sequence of
      operations with positive deposits, and a negative simulated deposit makes a balance
      negative; deposits reach the accounts once.  Price rule ([PriceRule]): when two
      prices agree, and that a changeset that breaks the rule is not applied.
    - Attestation ([StylusProps], [AttestProps]): what contract and guest accept, as
      equivalences; RS256 and base64url against their definitions; the contract's
      storage follows its log; guest, client and contract agree, and the client's proof
      is accepted.
    - Registration ([BootProps], [RelayerProps]): when the bootstrap becomes ready, that
      waiting for a transaction ends, what the relayer pays for, and that the client's
      request becomes a valid transaction.
    - Proof service ([ProofServiceProps]): a proof the client gets is of a run of the
      guest on its own inputs; which failures the client takes for final.
    - Chain monitor ([ChainProps]): splitting of log queries ends and loses nothing,
      polling reaches every event, deposits are handled once while the process runs.
      Its arguments ([ParseArgs]): an event definition stands for the hash of its
      canonical signature, and exactly which texts make the parser panic.
    - End-to-end harness ([HarnessProps]), which puts client session, inbox, fetcher and
      validator together as the repository's own fuzzer does: with faults injected the
      replica is always an earlier state of the source, the one at its recorded number,
      unless a corrupted payload comes with a signature that fits it; without faults a sync brings it level and the fuzzer's invariants hold.
      The random scenarios ([Grammar]) fit the schema they create, and generating them
      does not panic.
    - Behaviour that differs from what the code or its comments intend is stated as
      theorems too: lost batches on a failed flush, spent numbers, the message type that
      is not bound by the signature, gaps inside a batch, the signing key that is not
      bound to the token, deposits lost at a restart, changesets lost when a channel is
      full or closed, messages lost by an orderly shutdown, numbers handed out again
      over a bucket or when a request overtakes another, negative simulated deposits, a
      registered key that is not used, valid tokens refused for good
      after Google changes its key, and others.

    ** Fuel and bounds

    [SyncIndex.bisect] halves its range, so the length of the slice is enough fuel
    ([bisect_spec]); the batched sync advances one batch per turn and gets one more
    than their number ([batched_loop_complete]); [sync_loop] is called with fuel by
    its theorems, which prove that it ends once some later number has no message;
    [StorageClient.page_loop] gets one turn per page of the listing
    ([list_objects_spec]); [retry_loop] counts its attempts; [EthClient.get_logs] gets
    one level of recursion per block of the range and halves it ([get_logs_complete]);
    [confirm_loop] gets as many turns as two-second sleeps fit in its timeout, plus two
    ([confirmation_terminates]); the retries of the bootstrap count down.  The initial
    sync of the validator's process is called with fuel, like [sync_loop]; the harness
    gives it one turn more than the messages its fetcher holds ([sync_catches_up]).  Statements
    about numbers carry the bound under which [u64] does not wrap or [i64] does not
    overflow in SQLite.

    ** Not modelled

    The prover itself, command line parsing, metrics and logging,
    request ids, JSON dumps for debugging; in the modelled files, disk failures of
    the validator's own state database, spawning and joining threads other than the
    client's senders, listening sockets, waiting for signals and sleeping (a turn of a
    loop returns how long it waits), and calls of the C interface from several threads.  The benchmark (an order book driven
    by random numbers and the wall clock) and the comparison of two databases in
    synddb-fuzzer/replay.rs only exercise the modelled parts. *)
From stdpp Require Export base tactics list numbers option strings gmap sorting.
From Stdlib Require Export ZArith Lia.
From Stdlib Require Import Ascii Strings.Byte.

(** ** Results, early return and panics *)

(** A Rust computation that returns [Result<A, E>] and may panic.  [Panic]
    records the panics the source can reach ([unwrap], [expect], slice
    indexing); it propagates like an error but no [map_err] can catch it. *)
Inductive result (E A : Type) : Type :=
| Ok (a : A)
| Err (e : E)
| Panic (why : string).
Arguments Ok {E A} _.
Arguments Err {E A} _.
Arguments Panic {E A} _.

Declare Scope rust_scope.
Delimit Scope rust_scope with rust.
Open Scope rust_scope.
Open Scope Z_scope.

Definition result_bind {E A B} (c : result E A) (k : A -> result E B) : result E B :=
  match c with
  | Ok a => k a
  | Err e => Err e
  | Panic w => Panic w
  end.

(** [let? x := c in k] is Rust's [let x = c?; k]. *)
Notation "'let?' x ':=' c 'in' k" := (result_bind c (fun x => k))
  (at level 10, x name, c at level 100, k at level 200,
   format "'[v' 'let?'  x  ':='  c  'in' '/' k ']'") : rust_scope.
Notation "'let?' ' p ':=' c 'in' k" := (result_bind c (fun x => match x with p => k end))
  (at level 10, p pattern, c at level 100, k at level 200,
   format "'[v' 'let?'  ' p  ':='  c  'in' '/' k ']'") : rust_scope.

Definition map_err {E F A} (f : E -> F) (c : result E A) : result F A :=
  match c with
  | Ok a => Ok a
  | Err e => Err (f e)
  | Panic w => Panic w
  end.

(** [Option::ok_or_else]. *)
Definition ok_or {E A} (e : E) (o : option A) : result E A :=
  match o with Some a => Ok a | None => Err e end.

(** [Result::ok] on a computation that is known not to panic. *)
Definition result_ok {E A} (c : result E A) : option A :=
  match c with Ok a => Some a | _ => None end.

Definition is_ok {E A} (c : result E A) : bool :=
  match c with Ok _ => true | _ => false end.

(** [.iter().map(f).collect::<Result<Vec<_>, _>>()]: stops at the first error. *)
Fixpoint map_result {E A B} (f : A -> result E B) (l : list A) : result E (list B) :=
  match l with
  | [] => Ok []
  | x :: l' => let? y := f x in let? ys := map_result f l' in Ok (y :: ys)
  end.

(** A [for] loop whose body may return early with an error. *)
Fixpoint for_each {E A} (f : A -> result E unit) (l : list A) : result E unit :=
  match l with
  | [] => Ok tt
  | x :: l' => let? _ := f x in for_each f l'
  end.

Lemma Ok_inj {E A} (a b : A) : Ok (E := E) a = Ok b -> a = b.
Proof. by intros [= ->]. Qed.

Lemma map_err_ok {E F A} (f : E -> F) (c : result E A) a : map_err f c = Ok a <-> c = Ok a.
Proof. destruct c; cbn; split; congruence. Qed.

(** ** Tactics *)

(** Split the hypotheses that say a sequence of [let?] succeeded. *)
Ltac ok_inv :=
  repeat match goal with
  | H : result_bind ?c _ = Ok _ |- _ =>
      let E := fresh "E" in destruct c eqn:E; cbn [result_bind] in H; try discriminate H
  | H : map_err _ ?c = Ok _ |- _ =>
      let E := fresh "E" in destruct c eqn:E; cbn [map_err] in H; try discriminate H
  | H : ok_or _ ?o = Ok _ |- _ =>
      let E := fresh "E" in destruct o eqn:E; cbn [ok_or] in H; try discriminate H
  | H : (if ?b then _ else _) = Ok _ |- _ =>
      let E := fresh "E" in destruct b eqn:E; try discriminate H
  | H : Ok ?a = Ok ?b |- _ => injection H as H; try subst b; try subst a
  end.

(** Case analysis on the scrutinee of the first [match] or [if] of the goal. *)
Ltac split_match :=
  match goal with
  | |- context [match ?x with _ => _ end] =>
      lazymatch x with context [match _ with _ => _ end] => fail | _ => destruct x eqn:? end
  end.

Ltac bool_to_prop :=
  repeat match goal with
  | H : (_ && _)%bool = true |- _ => apply andb_true_iff in H as [? ?]
  | H : (_ <=? _)%Z = true |- _ => apply Z.leb_le in H
  | H : (_ <=? _)%Z = false |- _ => apply Z.leb_gt in H
  | H : (_ <? _)%Z = true |- _ => apply Z.ltb_lt in H
  | H : (_ <? _)%Z = false |- _ => apply Z.ltb_ge in H
  | H : (_ =? _)%Z = true |- _ => apply Z.eqb_eq in H
  | H : (_ =? _)%Z = false |- _ => apply Z.eqb_neq in H
  | H : (_ <=? _)%nat = true |- _ => apply Nat.leb_le in H
  | H : (_ <=? _)%nat = false |- _ => apply Nat.leb_gt in H
  | H : negb _ = true |- _ => apply negb_true_iff in H
  | H : negb _ = false |- _ => apply negb_false_iff in H
  | H : bool_decide _ = true |- _ => apply bool_decide_eq_true in H
  | H : bool_decide _ = false |- _ => apply bool_decide_eq_false in H
  end.

(** ** Machine integers: a [u64] is a [Z] in range, with the wrap written out *)

Definition is_u64 (z : Z) : Prop := 0 <= z < 2 ^ 64.
#[export] Instance is_u64_dec z : Decision (is_u64 z).
Proof. unfold is_u64. apply _. Defined.

Definition u64_max : Z := 2 ^ 64 - 1.
Definition i64_max : Z := 2 ^ 63 - 1.

(** [x as u64] for a wider integer, and the wrapping arithmetic of a release
    build (also of [AtomicU64::fetch_add]). *)
Definition as_u64 (z : Z) : Z := z mod 2 ^ 64.
Definition cast_u8 (z : Z) : Z := z mod 2 ^ 8.
Definition u64_add (a b : Z) : Z := as_u64 (a + b).
Definition u64_sub (a b : Z) : Z := as_u64 (a - b).
Definition u64_saturating_sub (a b : Z) : Z := Z.max 0 (a - b).

Lemma as_u64_range z : is_u64 (as_u64 z).
Proof. unfold is_u64, as_u64. apply Z.mod_pos_bound. lia. Qed.

Lemma as_u64_id z : is_u64 z -> as_u64 z = z.
Proof. intros H. apply Z.mod_small. exact H. Qed.

Lemma u64_add_small a b : is_u64 (a + b) -> u64_add a b = a + b.
Proof. apply as_u64_id. Qed.

Lemma u64_sub_small a b : is_u64 (a - b) -> u64_sub a b = a - b.
Proof. apply as_u64_id. Qed.

Create HintDb synddb.
Create Rewrite HintDb u64.
#[export] Hint Resolve as_u64_range : synddb.
#[export] Hint Rewrite as_u64_id u64_add_small u64_sub_small using (unfold is_u64 in *; lia) : u64.

(** ** Bytes *)

Abbreviation bytes := (list byte).

#[export] Instance byte_eq_dec : EqDecision byte := Byte.byte_eq_dec.

Definition byte_of_Z (z : Z) : byte :=
  match Byte.of_N (Z.to_N (z mod 256)) with Some b => b | None => x00 end.
Definition Z_of_byte (b : byte) : Z := Z.of_N (Byte.to_N b).

Lemma Z_of_byte_range b : 0 <= Z_of_byte b < 256.
Proof.
  unfold Z_of_byte. pose proof (Byte.to_N_bounded b). lia.
Qed.

Lemma byte_of_Z_of_byte b : byte_of_Z (Z_of_byte b) = b.
Proof. destruct b; reflexivity. Qed.

Lemma Z_of_byte_of_Z z : Z_of_byte (byte_of_Z z) = z mod 256.
Proof.
  unfold byte_of_Z, Z_of_byte.
  pose proof (Z.mod_pos_bound z 256 ltac:(lia)) as Hb.
  destruct (Byte.of_N (Z.to_N (z mod 256))) as [b|] eqn:E.
  - apply Byte.to_of_N in E. rewrite E. lia.
  - apply Byte.of_N_None_iff in E. lia.
Qed.

(** [u64::to_be_bytes], and the general big-endian encoding on [n] bytes. *)
Fixpoint to_be_bytes (n : nat) (z : Z) : bytes :=
  match n with
  | O => []
  | S n' => byte_of_Z (Z.shiftr z (8 * Z.of_nat n')) :: to_be_bytes n' z
  end.

Fixpoint from_be_bytes (acc : Z) (l : bytes) : Z :=
  match l with
  | [] => acc
  | b :: l' => from_be_bytes (256 * acc + Z_of_byte b) l'
  end.

Lemma length_to_be_bytes n z : length (to_be_bytes n z) = n.
Proof. induction n; simpl; congruence. Qed.

Lemma from_to_be_bytes_acc n acc z :
  0 <= z -> from_be_bytes acc (to_be_bytes n z) = acc * 256 ^ Z.of_nat n + z mod 256 ^ Z.of_nat n.
Proof.
  intros Hz. revert acc.
  induction n as [|n IH]; intros acc.
  - simpl. rewrite Z.mod_1_r. lia.
  - cbn [to_be_bytes from_be_bytes]. rewrite IH, Z_of_byte_of_Z.
    rewrite Z.shiftr_div_pow2 by lia.
    replace (2 ^ (8 * Z.of_nat n)) with (256 ^ Z.of_nat n)
      by (rewrite Z.pow_mul_r by lia; reflexivity).
    rewrite Nat2Z.inj_succ, Z.pow_succ_r by lia.
    rewrite (Z.mul_comm 256 (256 ^ _)), Z.rem_mul_r by lia. ring.
Qed.

Lemma from_to_be_bytes n z :
  0 <= z < 256 ^ Z.of_nat n -> from_be_bytes 0 (to_be_bytes n z) = z.
Proof. intros H. rewrite from_to_be_bytes_acc, Z.mod_small; lia. Qed.

Lemma u64_to_be_bytes_inj a b :
  is_u64 a -> is_u64 b -> to_be_bytes 8 a = to_be_bytes 8 b -> a = b.
Proof.
  unfold is_u64. intros Ha Hb H.
  rewrite <- (from_to_be_bytes 8 a), <- (from_to_be_bytes 8 b), H by (cbn; lia). done.
Qed.

(** ** Generic lemmas *)

Lemma map_result_ok {E A B} (f : A -> result E B) l ys :
  map_result f l = Ok ys <-> Forall2 (fun x y => f x = Ok y) l ys.
Proof.
  revert ys. induction l as [|x l IH]; intros ys; simpl.
  - split; [intros [= <-]; constructor | inversion 1; done].
  - split.
    + intros H. ok_inv. constructor; [done|]. by apply IH.
    + inversion 1 as [|? y ? ys' Hx Hl]; subst. rewrite Hx. cbn.
      apply IH in Hl. by rewrite Hl.
Qed.

Lemma for_each_ok {E A} (f : A -> result E unit) l :
  for_each f l = Ok tt <-> Forall (fun x => f x = Ok tt) l.
Proof.
  induction l as [|x l IH]; simpl.
  - split; [constructor | done].
  - rewrite Forall_cons, <- IH. destruct (f x) as [[]| |]; simpl; intuition congruence.
Qed.

Lemma app_inj_length {A} (l1 l1' l2 l2' : list A) :
  length l1 = length l1' -> l1 ++ l2 = l1' ++ l2' -> l1 = l1' /\ l2 = l2'.
Proof. intros Hl H. by apply app_inj_1 in H. Qed.

Lemma Forall2_head {A B} (P : A -> B -> Prop) l k :
  Forall2 P l k -> l <> [] -> exists x y, head l = Some x /\ head k = Some y /\ P x y.
Proof. destruct 1 as [|x y l k Hxy _]; [done|]. by exists x, y. Qed.

Lemma Forall2_last {A B} (P : A -> B -> Prop) l k :
  Forall2 P l k -> l <> [] -> exists x y, last l = Some x /\ last k = Some y /\ P x y.
Proof.
  intros H Hne. destruct (last l) as [x|] eqn:E; [|by apply last_None in E].
  apply last_Some in E as [l' ->]. apply Forall2_app_inv_l in H as (k1 & k2 & _ & H & ->).
  apply Forall2_cons_inv_l in H as (y & k3 & Hxy & H & ->). apply Forall2_nil_inv_l in H as ->.
  exists x, y. by rewrite last_snoc.
Qed.

Lemma app_not_nil_snoc {A} (l : list A) x : l ++ [x] <> [].
Proof. by destruct l. Qed.
