(* ===== verification/RustStd.v ===== *)
(** * The part of Rust's standard string library the sources use

    Integer [Display] and [FromStr], [strip_prefix]/[strip_suffix], [split],
    [contains], [trim] and [join].  A [String] is its sequence of UTF-8 bytes,
    so [len] is [String.length]; [trim] and [split_whitespace] are modelled on
    the ASCII white-space characters. *)
From Stdlib Require Import Ascii Strings.String Strings.Byte.
From S2P Require Import Prelude.

(** ** Integers: Display and FromStr *)

Definition digit_char (d : Z) : ascii := ascii_of_nat (48 + Z.to_nat d).

Definition digit_val (c : ascii) : option Z :=
  let n := nat_of_ascii c in
  if decide (48 <= n <= 57)%nat then Some (Z.of_nat (n - 48)) else None.

Fixpoint dec_digits (fuel : nat) (n : Z) (acc : string) : string :=
  match fuel with
  | O => acc
  | S f =>
      let acc' := String (digit_char (n mod 10)) acc in
      if n / 10 =? 0 then acc' else dec_digits f (n / 10) acc'
  end.

(** [to_string] of an integer; 40 digits cover [i128] and [u128]. *)
Definition int_to_string (z : Z) : string :=
  if z <? 0 then String "-" (dec_digits 40 (- z) EmptyString)
  else dec_digits 40 z EmptyString.

(** [ParseIntError]'s messages. *)
Definition err_empty : string := "cannot parse integer from empty string".
Definition err_digit : string := "invalid digit found in string".
Definition err_overflow : string := "number too large to fit in target type".

(** The digit loop of [from_str_radix(_, 10)]: each step is checked. *)
Fixpoint parse_digits (max acc : Z) (s : string) : result string Z :=
  match s with
  | EmptyString => Ok acc
  | String c s' =>
      match digit_val c with
      | None => Err err_digit
      | Some d => if acc * 10 + d <=? max then parse_digits max (acc * 10 + d) s'
                  else Err err_overflow
      end
  end.

(** [str::parse] at an unsigned type: one leading ['+'] is accepted. *)
Definition parse_uint (max : Z) (s : string) : result string Z :=
  match s with
  | EmptyString => Err err_empty
  | String c s' =>
      if decide (c = "+"%char) then
        match s' with EmptyString => Err err_digit | _ => parse_digits max 0 s' end
      else parse_digits max 0 s
  end.

Definition parse_u64 (s : string) : option Z := result_ok (parse_uint u64_max s).
Definition parse_u128 (s : string) : result string Z := parse_uint (2 ^ 128 - 1) s.

(** [{:0width}]: left padding with zeros up to [width] characters. *)
Fixpoint zeros (n : nat) (s : string) : string :=
  match n with O => s | S n' => String "0" (zeros n' s) end.
Definition pad_zeros (width : nat) (s : string) : string :=
  zeros (width - String.length s) s.

(** ** Substrings *)

Fixpoint strip_prefix (p s : string) : option string :=
  match p, s with
  | EmptyString, _ => Some s
  | String a p', String b s' => if decide (a = b) then strip_prefix p' s' else None
  | String _ _, EmptyString => None
  end.

Definition starts_with (p s : string) : bool :=
  match strip_prefix p s with Some _ => true | None => false end.

(** [s.strip_prefix(p).unwrap_or(s)]. *)
Definition strip_prefix_or_self (p s : string) : string :=
  match strip_prefix p s with Some s' => s' | None => s end.

Fixpoint strip_suffix (suf s : string) : option string :=
  if decide (s = suf) then Some EmptyString
  else match s with
       | EmptyString => None
       | String c s' =>
           match strip_suffix suf s' with Some r => Some (String c r) | None => None end
       end.

Fixpoint contains (p s : string) : bool :=
  starts_with p s ||
  match s with EmptyString => false | String _ s' => contains p s' end.

(** [s.split(c)] for a character: the pieces between occurrences of [c]. *)
Fixpoint split_char (c : ascii) (s : string) : list string :=
  match s with
  | EmptyString => [EmptyString]
  | String a s' =>
      if decide (a = c) then EmptyString :: split_char c s'
      else match split_char c s' with
           | [] => [String a EmptyString]
           | w :: ws => String a w :: ws
           end
  end.

(** [s.split(p)] for a non-empty pattern string; [fuel] bounds the characters. *)
Fixpoint split_str_go (fuel : nat) (p s cur : string) : list string :=
  match fuel with
  | O => [cur]
  | S f =>
      match strip_prefix p s with
      | Some rest => cur :: split_str_go f p rest EmptyString
      | None =>
          match s with
          | EmptyString => [cur]
          | String a s' => split_str_go f p s' (cur +:+ String a EmptyString)
          end
      end
  end.
Definition split_str (p s : string) : list string :=
  split_str_go (S (String.length s)) p s EmptyString.

Definition is_ws (c : ascii) : bool :=
  let n := nat_of_ascii c in
  bool_decide (n = 32%nat) || bool_decide (9 <= n <= 13)%nat.

Fixpoint trim_start (s : string) : string :=
  match s with
  | EmptyString => EmptyString
  | String c s' => if is_ws c then trim_start s' else s
  end.
Fixpoint trim_end (s : string) : string :=
  match s with
  | EmptyString => EmptyString
  | String c s' =>
      match trim_end s' with
      | EmptyString => if is_ws c then EmptyString else String c EmptyString
      | r => String c r
      end
  end.
Definition trim (s : string) : string := trim_end (trim_start s).

Fixpoint join (sep : string) (l : list string) : string :=
  match l with
  | [] => EmptyString
  | [x] => x
  | x :: l' => x +:+ sep +:+ join sep l'
  end.

(** [chars().all(|c| c.is_ascii_hexdigit())]. *)
Definition is_hexdigit (c : ascii) : bool :=
  let n := nat_of_ascii c in
  bool_decide (48 <= n <= 57)%nat || bool_decide (97 <= n <= 102)%nat
  || bool_decide (65 <= n <= 70)%nat.
Fixpoint string_all (p : ascii -> bool) (s : string) : bool :=
  match s with EmptyString => true | String c s' => p c && string_all p s' end.

(** [as_bytes]. *)
Definition as_bytes (s : string) : bytes := map byte_of_ascii (list_ascii_of_string s).

(** The string of some bytes. *)
Definition string_of_bytes (b : bytes) : string :=
  string_of_list_ascii (map ascii_of_byte b).

(** [core::str::from_utf8]: well-formed UTF-8 (Unicode, table 3-7). *)
Definition byte_in (lo hi : Z) (b : byte) : bool := (lo <=? Z_of_byte b) && (Z_of_byte b <=? hi).
Definition utf8_cont (b : byte) : bool := byte_in 128 191 b.

Fixpoint utf8_valid (l : bytes) : bool :=
  match l with
  | [] => true
  | a :: l1 =>
      if byte_in 0 127 a then utf8_valid l1 else
      match l1 with
      | [] => false
      | b :: l2 =>
          if byte_in 194 223 a then utf8_cont b && utf8_valid l2 else
          match l2 with
          | [] => false
          | c :: l3 =>
              let lo2 := if byte_in 224 224 a then 160 else if byte_in 240 240 a then 144 else 128 in
              let hi2 := if byte_in 237 237 a then 159 else if byte_in 244 244 a then 143 else 191 in
              if byte_in 224 239 a then byte_in lo2 hi2 b && utf8_cont c && utf8_valid l3 else
              match l3 with
              | [] => false
              | d :: l4 =>
                  byte_in 240 244 a && byte_in lo2 hi2 b && utf8_cont c && utf8_cont d
                  && utf8_valid l4
              end
          end
      end
  end.

Definition from_utf8 (b : bytes) : result string string :=
  if utf8_valid b then Ok (string_of_bytes b) else Err "invalid utf-8".

(** [String::from_utf8_lossy]: every maximal invalid prefix of a sequence becomes
    U+FFFD. *)
Definition replacement : bytes := [xef; xbf; xbd].
Fixpoint lossy_go (fuel : nat) (l : bytes) : bytes :=
  match fuel with
  | O => []
  | S f =>
      match l with
      | [] => []
      | a :: l1 =>
          let lo2 := if byte_in 224 224 a then 160 else if byte_in 240 240 a then 144 else 128 in
          let hi2 := if byte_in 237 237 a then 159 else if byte_in 244 244 a then 143 else 191 in
          if byte_in 0 127 a then a :: lossy_go f l1 else
          if negb (byte_in 194 244 a) then replacement ++ lossy_go f l1 else
          match l1 with
          | [] => replacement
          | b :: l2 =>
              if negb (byte_in lo2 hi2 b) then replacement ++ lossy_go f l1 else
              if byte_in 194 223 a then a :: b :: lossy_go f l2 else
              match l2 with
              | [] => replacement
              | c :: l3 =>
                  if negb (utf8_cont c) then replacement ++ lossy_go f l2 else
                  if byte_in 224 239 a then a :: b :: c :: lossy_go f l3 else
                  match l3 with
                  | [] => replacement
                  | d :: l4 =>
                      if negb (utf8_cont d) then replacement ++ lossy_go f l3
                      else a :: b :: c :: d :: lossy_go f l4
                  end
              end
          end
      end
  end.
Definition from_utf8_lossy (l : bytes) : string := string_of_bytes (lossy_go (length l) l).

(** [sort_by_key], which is stable. *)
Fixpoint insert_by {A} (key : A -> Z) (x : A) (l : list A) : list A :=
  match l with
  | [] => [x]
  | y :: l' => if key x <=? key y then x :: l else y :: insert_by key x l'
  end.
Definition sort_by_key {A} (key : A -> Z) (l : list A) : list A := foldr (insert_by key) [] l.

(** [to_lowercase], on ASCII letters. *)
Definition ascii_lower (c : ascii) : ascii :=
  let k := nat_of_ascii c in
  if Nat.leb 65 k && Nat.leb k 90 then ascii_of_nat (k + 32) else c.
Fixpoint to_lowercase (s : string) : string :=
  match s with EmptyString => EmptyString | String c s' => String (ascii_lower c) (to_lowercase s') end.

(** [is_char_boundary]: the end, or a byte that does not continue a character. *)
Definition is_char_boundary (s : string) (i : nat) : bool :=
  match as_bytes s !! i with
  | Some b => negb (utf8_cont b)
  | None => Nat.eqb i (String.length s)
  end.

(** [s.split_once(c)], and [s.splitn(n, c)]: at most [n] pieces. *)
Fixpoint split_once (c : ascii) (s : string) : option (string * string) :=
  match s with
  | EmptyString => None
  | String a s' =>
      if decide (a = c) then Some (EmptyString, s')
      else match split_once c s' with
           | Some (x, y) => Some (String a x, y)
           | None => None
           end
  end.
Fixpoint splitn_char (n : nat) (c : ascii) (s : string) : list string :=
  match n with
  | O => []
  | S O => [s]
  | S n' =>
      match split_once c s with
      | Some (x, y) => x :: splitn_char n' c y
      | None => [s]
      end
  end.

(** ** Lemmas: decimal round trip *)

Definition is_digit (c : ascii) : Prop := is_Some (digit_val c).

Lemma digit_val_char d : 0 <= d < 10 -> digit_val (digit_char d) = Some d.
Proof.
  intros H. unfold digit_val, digit_char.
  rewrite nat_ascii_embedding by lia.
  rewrite decide_True by lia. f_equal. lia.
Qed.

Lemma dec_digits_parse fuel n acc max :
  0 <= n <= max -> n < 10 ^ Z.of_nat fuel -> (fuel > 0)%nat ->
  parse_digits max 0 (dec_digits fuel n acc) = parse_digits max n acc.
Proof.
  revert n acc. induction fuel as [|f IH]; intros n acc Hn Hlt Hf; [lia|].
  pose proof (Z.mod_pos_bound n 10 ltac:(lia)) as Hm.
  pose proof (Z.div_mod n 10 ltac:(lia)) as Hdm.
  cbn [dec_digits]. rewrite Nat2Z.inj_succ, Z.pow_succ_r in Hlt by lia.
  destruct (Z.eqb_spec (n / 10) 0) as [Hz|Hz].
  - cbn [parse_digits]. rewrite digit_val_char by lia.
    rewrite (proj2 (Z.leb_le _ _)) by lia. f_equal. lia.
  - assert (0 <= n / 10) by (apply Z.div_pos; lia).
    assert (n / 10 < 10 ^ Z.of_nat f) by (apply Z.div_lt_upper_bound; lia).
    rewrite IH; [|lia|lia|destruct f; [cbn in *; lia | lia]].
    cbn [parse_digits]. rewrite digit_val_char by lia.
    rewrite (proj2 (Z.leb_le _ _)) by lia. f_equal. lia.
Qed.

Lemma parse_zeros max k s : 0 <= max -> parse_digits max 0 (zeros k s) = parse_digits max 0 s.
Proof.
  intros Hm. induction k as [|k IH]; [done|].
  cbn [zeros parse_digits]. change (digit_val "0") with (Some 0). cbv beta iota.
  change (0 * 10 + 0) with 0. by rewrite (proj2 (Z.leb_le 0 max) Hm).
Qed.

Inductive all_chars (P : ascii -> Prop) : string -> Prop :=
| all_nil : all_chars P EmptyString
| all_cons c s : P c -> all_chars P s -> all_chars P (String c s).

Lemma dec_digits_all fuel n acc :
  0 <= n -> all_chars is_digit acc -> all_chars is_digit (dec_digits fuel n acc).
Proof.
  revert n acc. induction fuel as [|f IH]; intros n acc Hn Ha; simpl; [done|].
  pose proof (Z.mod_pos_bound n 10 ltac:(lia)) as Hm.
  assert (is_digit (digit_char (n mod 10)))
    by (unfold is_digit; rewrite digit_val_char by lia; eauto).
  destruct (n / 10 =? 0); [by constructor|].
  apply IH; [apply Z.div_pos; lia | by constructor].
Qed.

Lemma dec_digits_nonempty fuel n acc :
  (fuel > 0)%nat \/ acc <> EmptyString -> dec_digits fuel n acc <> EmptyString.
Proof.
  revert n acc. induction fuel as [|f IH]; intros n acc H; simpl.
  - destruct H as [H|H]; [lia | done].
  - destruct (n / 10 =? 0); [done|]. apply IH. by right.
Qed.

Lemma zeros_all k s : all_chars is_digit s -> all_chars is_digit (zeros k s).
Proof.
  intros H. induction k as [|k IH]; simpl; [done|].
  constructor; [|done]. by exists 0.
Qed.

Lemma parse_uint_digits max s :
  all_chars is_digit s -> s <> EmptyString -> parse_uint max s = parse_digits max 0 s.
Proof.
  intros Hall Hne. destruct Hall as [|c s Hc _]; [done|]. simpl.
  rewrite decide_False; [done|]. intros ->. destruct Hc as [? Hc]. discriminate Hc.
Qed.

Definition fmt_012 (n : Z) : string := pad_zeros 12 (int_to_string n).

Lemma int_to_string_digits n : 0 <= n -> all_chars is_digit (int_to_string n).
Proof.
  intros H. unfold int_to_string. rewrite (proj2 (Z.ltb_ge n 0)) by lia.
  apply dec_digits_all; [lia | constructor].
Qed.

Lemma int_to_string_nonempty n : int_to_string n <> EmptyString.
Proof.
  unfold int_to_string. destruct (n <? 0); [done|]. apply dec_digits_nonempty. left. lia.
Qed.

Lemma parse_int_to_string max n :
  0 <= n <= max -> n < 10 ^ 40 -> parse_uint max (int_to_string n) = Ok n.
Proof.
  intros Hn Hlt. rewrite parse_uint_digits; auto using int_to_string_nonempty.
  - unfold int_to_string. rewrite (proj2 (Z.ltb_ge n 0)) by lia.
    rewrite dec_digits_parse; [done | lia | exact Hlt | lia].
  - apply int_to_string_digits. lia.
Qed.

Lemma zeros_nonempty k s : s <> EmptyString -> zeros k s <> EmptyString.
Proof. destruct k; simpl; done. Qed.

Lemma fmt_012_digits n : 0 <= n -> all_chars is_digit (fmt_012 n).
Proof. intros H. apply zeros_all, int_to_string_digits, H. Qed.

Lemma parse_fmt_012 n : is_u64 n -> parse_u64 (fmt_012 n) = Some n.
Proof.
  intros H. unfold is_u64 in H. unfold parse_u64. rewrite parse_uint_digits; unfold u64_max.
  - unfold fmt_012, pad_zeros. rewrite parse_zeros by lia.
    unfold int_to_string. rewrite (proj2 (Z.ltb_ge n 0)) by lia.
    rewrite dec_digits_parse; [done | lia | change (Z.of_nat 40) with 40; lia | lia].
  - apply fmt_012_digits. lia.
  - apply zeros_nonempty, int_to_string_nonempty.
Qed.

Lemma parse_u64_to_string n : is_u64 n -> parse_u64 (int_to_string n) = Some n.
Proof.
  unfold is_u64, parse_u64. intros H. rewrite parse_int_to_string; [done|unfold u64_max; lia|lia].
Qed.

(** ** Lemmas: affixes and splitting *)

Lemma string_app_cons x a b : String x a +:+ b = String x (a +:+ b).
Proof. done. Qed.
#[local] Ltac app_simp := repeat rewrite string_app_cons; simpl.

Lemma string_app_assoc (a b c : string) : (a +:+ b) +:+ c = a +:+ (b +:+ c).
Proof. induction a as [|x a IH]; [done|]. app_simp. by rewrite IH. Qed.

Lemma string_length_app (a b : string) :
  String.length (a +:+ b) = (String.length a + String.length b)%nat.
Proof. induction a as [|x a IH]; [done|]. app_simp. by rewrite IH. Qed.

Lemma strip_prefix_app p s : strip_prefix p (p +:+ s) = Some s.
Proof. induction p as [|a p IH]; [by destruct s|]. app_simp. by rewrite decide_True. Qed.

Lemma starts_with_app p s : starts_with p (p +:+ s) = true.
Proof. unfold starts_with. by rewrite strip_prefix_app. Qed.

Lemma strip_suffix_self suf : strip_suffix suf suf = Some EmptyString.
Proof. destruct suf; [done|]. cbn [strip_suffix]. by rewrite decide_True. Qed.

Lemma strip_suffix_app s suf : strip_suffix suf (s +:+ suf) = Some s.
Proof.
  induction s as [|c s IH]; [apply strip_suffix_self|].
  app_simp. rewrite decide_False.
  - by rewrite IH.
  - intros Heq. apply (f_equal String.length) in Heq. simpl in Heq.
    rewrite string_length_app in Heq. lia.
Qed.

Lemma split_char_none c s : all_chars (fun a => a <> c) s -> split_char c s = [s].
Proof.
  induction 1 as [|a s Ha _ IH]; simpl; [done|]. by rewrite decide_False, IH.
Qed.

Lemma split_char_app c s1 s2 :
  all_chars (fun a => a <> c) s1 ->
  split_char c (s1 +:+ String c s2) = s1 :: split_char c s2.
Proof.
  induction 1 as [|a s Ha _ IH].
  - simpl. by rewrite decide_True.
  - app_simp. by rewrite decide_False, IH.
Qed.

Lemma all_chars_impl (P Q : ascii -> Prop) s :
  (forall c, P c -> Q c) -> all_chars P s -> all_chars Q s.
Proof. intros HPQ. induction 1; constructor; auto. Qed.

Lemma contains_app_r p s t : contains p t = true -> contains p (s +:+ t) = true.
Proof.
  intros H. induction s as [|a s IH]; [done|].
  app_simp. rewrite IH. by rewrite orb_true_r.
Qed.

Lemma contains_app_l p s t : contains p s = true -> contains p (s +:+ t) = true.
Proof.
  assert (Hpre : forall p s, starts_with p s = true -> starts_with p (s +:+ t) = true).
  { intros q. induction q as [|a q IH]; intros u Hu; [done|]. destruct u as [|b u]; [done|].
    rewrite string_app_cons. unfold starts_with in *. cbn in *. destruct (decide (a = b)); [|done]. by apply IH. }
  assert (Hc : forall s, starts_with p s = true -> contains p s = true) by (intros [|a u] Hs; cbn; by rewrite Hs).
  induction s as [|a s IH]; cbn [contains].
  - rewrite orb_false_r. intros H%Hpre. by apply Hc.
  - intros [H|H]%orb_true_iff; [by apply Hc, Hpre|]. rewrite string_app_cons. cbn [contains].
    by rewrite IH, orb_true_r.
Qed.

Lemma contains_prefix p s : contains p (p +:+ s) = true.
Proof. destruct (p +:+ s) eqn:E; cbn; rewrite <- E, starts_with_app; done. Qed.

Lemma contains_app_mid p s t : contains p (s +:+ p +:+ t) = true.
Proof. apply contains_app_r, contains_prefix. Qed.

#[export] Hint Resolve parse_u64_to_string parse_fmt_012 fmt_012_digits
  contains_prefix contains_app_mid : synddb.

(** What parses is in range. *)
Lemma digit_val_range c d : digit_val c = Some d -> 0 <= d <= 9.
Proof. unfold digit_val. destruct (decide _); [|done]. intros [= <-]. lia. Qed.

Lemma parse_digits_range max s : forall acc n,
  0 <= acc <= max -> parse_digits max acc s = Ok n -> 0 <= n <= max.
Proof.
  induction s as [|c s IH]; intros acc n Ha H; cbn in H; [by apply Ok_inj in H as <-|].
  destruct (digit_val c) as [d|] eqn:Ed; [|done]. apply digit_val_range in Ed.
  destruct (acc * 10 + d <=? max) eqn:El; [|done]. bool_to_prop. apply (IH (acc * 10 + d)); [lia|done].
Qed.

Lemma parse_uint_range max s n : 0 <= max -> parse_uint max s = Ok n -> 0 <= n <= max.
Proof.
  intros Hm H. destruct s as [|c s]; [done|]. unfold parse_uint in H. destruct (decide _).
  - destruct s; [done|]. by apply parse_digits_range in H; [|lia].
  - by apply parse_digits_range in H; [|lia].
Qed.

(** ** Lemmas: bytes and strings *)

Lemma as_bytes_of_bytes b : as_bytes (string_of_bytes b) = b.
Proof.
  unfold as_bytes, string_of_bytes. rewrite list_ascii_of_string_of_list_ascii, map_map.
  rewrite (map_ext _ id); [apply map_id|]. intros x. apply byte_of_ascii_of_byte.
Qed.

Lemma string_of_as_bytes s : string_of_bytes (as_bytes s) = s.
Proof.
  unfold as_bytes, string_of_bytes. rewrite map_map, (map_ext _ id).
  - rewrite map_id. apply string_of_list_ascii_of_string.
  - intros x. apply ascii_of_byte_of_ascii.
Qed.

Lemma as_bytes_inj a b : as_bytes a = as_bytes b -> a = b.
Proof. intros H. by rewrite <- (string_of_as_bytes a), H, string_of_as_bytes. Qed.

Lemma from_utf8_inv b s : from_utf8 b = Ok s -> as_bytes s = b.
Proof. unfold from_utf8. destruct (utf8_valid b); [|done]. intros [= <-]. apply as_bytes_of_bytes. Qed.

Lemma split_once_split c s x y :
  split_once c s = Some (x, y) -> split_char c s = x :: split_char c y.
Proof.
  revert x. induction s as [|a s IH]; intros x H; [done|]. cbn in *. case_decide.
  - by simplify_eq.
  - destruct (split_once c s) as [[x' y']|] eqn:E; [|done]. simplify_eq. by rewrite (IH _ eq_refl).
Qed.

Lemma split_once_none c s : split_once c s = None -> split_char c s = [s].
Proof.
  induction s as [|a s IH]; [done|]. cbn. case_decide; [done|].
  destruct (split_once c s) as [[]|]; [done|]. intros _. by rewrite (IH eq_refl).
Qed.

(** ** Sorting *)
Section sorting.
Context {A : Type} (key : A -> Z).

Lemma insert_by_perm x l : insert_by key x l ≡ₚ x :: l.
Proof.
  induction l as [|y l IH]; cbn; [done|]. case_match; [done|]. rewrite IH. apply Permutation_swap.
Qed.
Lemma sort_by_key_perm l : sort_by_key key l ≡ₚ l.
Proof. induction l as [|x l IH]; cbn; [done|]. by rewrite insert_by_perm, IH. Qed.

Definition key_le (a b : A) : Prop := key a <= key b.
Lemma insert_by_sorted x l : StronglySorted key_le l -> StronglySorted key_le (insert_by key x l).
Proof.
  induction 1 as [|y l Hl IH Hy]; cbn; [by repeat constructor|].
  destruct (key x <=? key y) eqn:E; bool_to_prop.
  - constructor; [by constructor|]. constructor; [done|].
    eapply Forall_impl; [exact Hy|]. unfold key_le. lia.
  - constructor; [done|]. apply Forall_forall. intros z Hz. rewrite insert_by_perm in Hz.
    apply elem_of_cons in Hz as [->|Hz]; [unfold key_le; lia|]. rewrite Forall_forall in Hy. auto.
Qed.
Lemma sort_by_key_sorted l : StronglySorted key_le (sort_by_key key l).
Proof. induction l; [constructor|]. by apply insert_by_sorted. Qed.

(** Sorting restores a list with increasing keys from any order of its elements. *)
Lemma sort_by_key_unique l l' :
  l ≡ₚ l' -> StronglySorted (fun a b => key a < key b) l' -> sort_by_key key l = l'.
Proof.
  intros Hp Hs. eapply StronglySorted_unique_strong; [|apply sort_by_key_sorted| |by rewrite sort_by_key_perm].
  - intros x y Hx Hy Hxy Hyx. rewrite sort_by_key_perm, Hp in Hx.
    clear -Hs Hx Hy Hxy Hyx. unfold key_le in *.
    induction Hs as [|z l' Hs IH Hf]; [by apply not_elem_of_nil in Hx|]. rewrite Forall_forall in Hf.
    apply elem_of_cons in Hx as [->|Hx], Hy as [->|Hy]; auto;
      [specialize (Hf _ Hy) | specialize (Hf _ Hx)]; lia.
  - clear Hp. induction Hs as [|z l' Hs IH Hf]; constructor; [done|].
    eapply Forall_impl; [exact Hf|]. unfold key_le. cbn. lia.
Qed.
End sorting.
