(* ===== verification/Base64.v ===== *)
(** * Base64url decoding, three times

    The guest library (crates/gcp-attestation/src/jwt.rs), the contract
    (contracts/stylus/attestation-verifier/src/lib.rs) and the bootstrap client
    (crates/synddb-bootstrap/src/proof_client.rs) each carry their own decoder.  All
    three are modelled, proved equal, and proved to invert the unpadded base64url
    encoding of RFC 4648, section 5.  A [&str] is passed as its bytes: the decoders
    only look at single bytes, and the [char] loop copies every character but the
    two of the URL alphabet. *)
From Stdlib Require Import Strings.Byte.
From S2P Require Import Prelude RustStd.

(** [u8] shifts: bits shifted out are lost. *)
Definition u8_shl (a k : Z) : Z := Z.land (Z.shiftl a k) 255.
Definition u8_shr (a k : Z) : Z := Z.shiftr a k.

Definition b_eq : byte := "="%byte.
Definition err_b64_char : string := "Invalid base64 character".
Definition err_b64_len : string := "Invalid base64 length".

Definition DECODE_TABLE : list Z := [
  -1; -1; -1; -1; -1; -1; -1; -1; -1; -1; -1; -1; -1; -1; -1; -1; -1; -1; -1; -1; -1; -1; -1;
  -1; -1; -1; -1; -1; -1; -1; -1; -1; -1; -1; -1; -1; -1; -1; -1; -1; -1; -1; -1; 62; -1; -1;
  -1; 63; 52; 53; 54; 55; 56; 57; 58; 59; 60; 61; -1; -1; -1; -2; -1; -1; -1; 0; 1; 2; 3; 4;
  5; 6; 7; 8; 9; 10; 11; 12; 13; 14; 15; 16; 17; 18; 19; 20; 21; 22; 23; 24; 25; -1; -1; -1;
  -1; -1; -1; 26; 27; 28; 29; 30; 31; 32; 33; 34; 35; 36; 37; 38; 39; 40; 41; 42; 43; 44; 45;
  46; 47; 48; 49; 50; 51; -1; -1; -1; -1; -1].

(** [if a < 128 { TABLE[a as usize] } else { -1 }] *)
Definition decode_char (a : byte) : Z :=
  if Z_of_byte a <? 128 then nth (Z.to_nat (Z_of_byte a)) DECODE_TABLE (-1) else -1.

(** ** crates/gcp-attestation/src/jwt.rs *)
Module Gcp.

(** The [while i < input.len()] loop: four bytes per turn. *)
Fixpoint decode_loop (input : bytes) : result string bytes :=
  match input with
  | [] => Ok []
  | a :: b :: c :: d :: rest =>
      let va := decode_char a in
      let vb := decode_char b in
      let vc := decode_char c in
      let vd := decode_char d in
      if (va <? 0) || (vb <? 0) then Err err_b64_char else
      let out1 := byte_of_Z (Z.lor (u8_shl va 2) (u8_shr vb 4)) in
      if decide (c = b_eq) then let? t := decode_loop rest in Ok (out1 :: t) else
      if vc <? 0 then Err err_b64_char else
      let out2 := byte_of_Z (Z.lor (u8_shl vb 4) (u8_shr vc 2)) in
      if decide (d = b_eq) then let? t := decode_loop rest in Ok (out1 :: out2 :: t) else
      if vd <? 0 then Err err_b64_char else
      let out3 := byte_of_Z (Z.lor (u8_shl vc 6) vd) in
      let? t := decode_loop rest in Ok (out1 :: out2 :: out3 :: t)
  | _ => Panic "index out of bounds"
  end.

Definition decode_base64_standard (input : bytes) : result string bytes :=
  if negb (Nat.eqb (length input mod 4) 0) then Err err_b64_len else decode_loop input.

Definition to_standard (c : byte) : byte :=
  match c with "-"%byte => "+"%byte | "_"%byte => "/"%byte | c => c end.

Definition decode_base64url (input : bytes) : result string bytes :=
  let standard := map to_standard input in
  let standard :=
    match (length standard mod 4)%nat with
    | 2%nat => standard ++ [b_eq; b_eq]
    | 3%nat => standard ++ [b_eq]
    | _ => standard
    end in
  decode_base64_standard standard.
End Gcp.

(** ** contracts/stylus/attestation-verifier/src/lib.rs *)
Module OnChain.
Fixpoint decode_loop (input : bytes) : result string bytes :=
  match input with
  | [] => Ok []
  | a :: b :: c :: d :: rest =>
      let va := decode_char a in
      let vb := decode_char b in
      let vc := decode_char c in
      let vd := decode_char d in
      if (va <? 0) || (vb <? 0) then Err err_b64_char else
      let out1 := byte_of_Z (Z.lor (u8_shl va 2) (u8_shr vb 4)) in
      if decide (c = b_eq) then let? t := decode_loop rest in Ok (out1 :: t) else
      if vc <? 0 then Err err_b64_char else
      let out2 := byte_of_Z (Z.lor (u8_shl vb 4) (u8_shr vc 2)) in
      if decide (d = b_eq) then let? t := decode_loop rest in Ok (out1 :: out2 :: t) else
      if vd <? 0 then Err err_b64_char else
      let out3 := byte_of_Z (Z.lor (u8_shl vc 6) vd) in
      let? t := decode_loop rest in Ok (out1 :: out2 :: out3 :: t)
  | _ => Panic "index out of bounds"
  end.

Definition base64_decode (input : bytes) : result string bytes :=
  if negb (Nat.eqb (length input mod 4) 0) then Err err_b64_len else decode_loop input.

Definition to_standard (c : byte) : byte :=
  match c with "-"%byte => "+"%byte | "_"%byte => "/"%byte | c => c end.

Definition base64url_decode (input : bytes) : result string bytes :=
  let standard := map to_standard input in
  let standard :=
    match (length standard mod 4)%nat with
    | 2%nat => standard ++ [b_eq; b_eq]
    | 3%nat => standard ++ [b_eq]
    | _ => standard
    end in
  base64_decode standard.
End OnChain.

(** ** crates/synddb-bootstrap/src/proof_client.rs

    The same decoder, except that a character is looked up only when needed. *)
Module Client.
Fixpoint decode_loop (input : bytes) : result string bytes :=
  match input with
  | [] => Ok []
  | a :: b :: c :: d :: rest =>
      let va := decode_char a in
      let vb := decode_char b in
      if (va <? 0) || (vb <? 0) then Err err_b64_char else
      let out1 := byte_of_Z (Z.lor (u8_shl va 2) (u8_shr vb 4)) in
      if decide (c = b_eq) then let? t := decode_loop rest in Ok (out1 :: t) else
      let vc := decode_char c in
      if vc <? 0 then Err err_b64_char else
      let out2 := byte_of_Z (Z.lor (u8_shl vb 4) (u8_shr vc 2)) in
      if decide (d = b_eq) then let? t := decode_loop rest in Ok (out1 :: out2 :: t) else
      let vd := decode_char d in
      if vd <? 0 then Err err_b64_char else
      let out3 := byte_of_Z (Z.lor (u8_shl vc 6) vd) in
      let? t := decode_loop rest in Ok (out1 :: out2 :: out3 :: t)
  | _ => Panic "index out of bounds"
  end.

Definition base64_decode (input : bytes) : result string bytes :=
  if negb (Nat.eqb (length input mod 4) 0) then Err err_b64_len else decode_loop input.

Definition to_standard (c : byte) : byte :=
  match c with "-"%byte => "+"%byte | "_"%byte => "/"%byte | c => c end.

Definition base64url_decode (input : bytes) : result string bytes :=
  let standard := map to_standard input in
  let standard :=
    match (length standard mod 4)%nat with
    | 2%nat => standard ++ [b_eq; b_eq]
    | 3%nat => standard ++ [b_eq]
    | _ => standard
    end in
  base64_decode standard.
End Client.

(** ** The reference encoding (RFC 4648, section 5, without padding) *)

Definition URL_ALPHABET : bytes :=
  as_bytes "ABCDEFGHIJKLMNOPQRSTUVWXYZabcdefghijklmnopqrstuvwxyz0123456789-_".
Definition sextet_char (v : Z) : byte := nth (Z.to_nat v) URL_ALPHABET "A"%byte.

Fixpoint base64url_encode (b : bytes) : bytes :=
  match b with
  | [] => []
  | [x] => let n := Z_of_byte x * 16 in [sextet_char (n / 64); sextet_char (n mod 64)]
  | [x; y] =>
      let n := (Z_of_byte x * 256 + Z_of_byte y) * 4 in
      [sextet_char (n / 4096); sextet_char (n / 64 mod 64); sextet_char (n mod 64)]
  | x :: y :: z :: r =>
      let n := Z_of_byte x * 65536 + Z_of_byte y * 256 + Z_of_byte z in
      sextet_char (n / 262144) :: sextet_char (n / 4096 mod 64)
      :: sextet_char (n / 64 mod 64) :: sextet_char (n mod 64) :: base64url_encode r
  end.

(** ** Lemmas *)

#[local] Ltac Zify.zify_post_hook ::= Z.to_euclidean_division_equations.

(** Induction by groups of four and of three bytes. *)
Lemma quad_ind {A} (P : list A -> Prop) :
  P [] -> (forall a, P [a]) -> (forall a b, P [a; b]) -> (forall a b c, P [a; b; c]) ->
  (forall a b c d r, P r -> P (a :: b :: c :: d :: r)) -> forall l, P l.
Proof.
  intros H0 H1 H2 H3 H4 l.
  induction l as [l IH] using (well_founded_induction (Wf_nat.well_founded_ltof _ length)).
  destruct l as [|a [|b [|c [|d r]]]]; auto. apply H4, IH. unfold Wf_nat.ltof. cbn. lia.
Qed.

Lemma triple_ind {A} (P : list A -> Prop) :
  P [] -> (forall a, P [a]) -> (forall a b, P [a; b]) ->
  (forall a b c r, P r -> P (a :: b :: c :: r)) -> forall l, P l.
Proof.
  intros H0 H1 H2 H3 l.
  induction l as [l IH] using (well_founded_induction (Wf_nat.well_founded_ltof _ length)).
  destruct l as [|a [|b [|c r]]]; auto. apply H3, IH. unfold Wf_nat.ltof. cbn. lia.
Qed.

Lemma decode_loops_agree l :
  Gcp.decode_loop l = OnChain.decode_loop l /\ Client.decode_loop l = OnChain.decode_loop l.
Proof.
  induction l as [| | | |a b c d r [IH1 IH2]] using quad_ind; [done..|].
  cbn -[decode_char]. by rewrite IH1, IH2.
Qed.

Lemma quad_len {A} (a b c d : A) r : (length (a :: b :: c :: d :: r) mod 4 = length r mod 4)%nat.
Proof.
  replace (length (a :: b :: c :: d :: r)) with (length r + 1 * 4)%nat by (cbn; lia).
  by rewrite Nat.Div0.mod_add.
Qed.

Lemma decode_loop_no_panic l w :
  (length l mod 4 = 0)%nat -> OnChain.decode_loop l <> Panic w.
Proof.
  revert w. induction l as [| | | |a b c d r IH] using quad_ind; intros w Hl; try done.
  rewrite quad_len in Hl. cbn -[decode_char]. specialize (IH w Hl).
  repeat (destruct (_ || _) || case_decide || destruct (_ <? 0)); try done;
    destruct (OnChain.decode_loop r); cbn; congruence.
Qed.

Lemma padded_len l :
  (length l mod 4 <> 1)%nat ->
  (length (match length l mod 4 with 2 => l ++ [b_eq; b_eq] | 3 => l ++ [b_eq] | _ => l end)%nat
    mod 4 = 0)%nat.
Proof.
  intros H. pose proof (Nat.mod_upper_bound (length l) 4 ltac:(lia)) as Hb.
  pose proof (Nat.div_mod_eq (length l) 4) as Hd.
  assert (Hm : forall k, (length l mod 4 + k = 4)%nat -> ((length l + k) mod 4 = 0)%nat).
  { intros k Hk. replace (length l + k)%nat with (0 + (length l / 4 + 1) * 4)%nat by lia.
    by rewrite Nat.Div0.mod_add. }
  destruct (length l mod 4)%nat as [|[|[|[|]]]] eqn:E; try lia;
    rewrite ?length_app; cbn [length]; apply Hm; lia.
Qed.

(** Disjoint [|] is addition. *)
Lemma lor_add a b k : 0 <= k -> 0 <= b < 2 ^ k -> Z.lor (a * 2 ^ k) b = a * 2 ^ k + b.
Proof.
  intros Hk Hb. symmetry. apply Z.add_nocarry_lor. apply Z.bits_inj'. intros n Hn.
  rewrite Z.land_spec, Z.bits_0. destruct (Z.lt_ge_cases n k) as [Hlt|Hge].
  - by rewrite Z.mul_pow2_bits_low.
  - assert (2 ^ k <= 2 ^ n) by (apply Z.pow_le_mono_r; lia).
    rewrite (proj2 (Z.testbit_false b n Hn)); [by rewrite andb_false_r|].
    by rewrite Z.div_small by lia.
Qed.

Lemma sextet_decode v :
  0 <= v < 64 ->
  decode_char (OnChain.to_standard (sextet_char v)) = v /\
  OnChain.to_standard (sextet_char v) <> b_eq.
Proof.
  intros H. assert (Hall : forallb (fun n => (decode_char (OnChain.to_standard (sextet_char (Z.of_nat n))) =? Z.of_nat n)
      && negb (bool_decide (OnChain.to_standard (sextet_char (Z.of_nat n)) = b_eq))) (seq 0 64) = true)
    by (vm_compute; reflexivity).
  rewrite forallb_forall in Hall. specialize (Hall (Z.to_nat v)).
  rewrite Z2Nat.id in Hall by lia. rewrite in_seq in Hall. specialize (Hall ltac:(lia)).
  bool_to_prop. done.
Qed.

Lemma byte_of_Z_eq b z : z = Z_of_byte b -> byte_of_Z z = b.
Proof. intros ->. apply byte_of_Z_of_byte. Qed.


Lemma u8_shl_eq a k : 0 <= k -> u8_shl a k = (a * 2 ^ k) mod 256.
Proof.
  intros Hk. unfold u8_shl. rewrite Z.shiftl_mul_pow2 by done.
  change 255 with (Z.ones 8). by rewrite Z.land_ones by lia.
Qed.

Lemma out1_eq va vb : 0 <= va < 64 -> 0 <= vb < 64 ->
  Z.lor (u8_shl va 2) (u8_shr vb 4) = va * 4 + vb / 16.
Proof.
  intros Ha Hb. rewrite u8_shl_eq, Z.mod_small by lia. unfold u8_shr.
  rewrite Z.shiftr_div_pow2 by lia. apply (lor_add va (vb / 16) 2); [lia|].
  change (2 ^ 2) with 4. lia.
Qed.

Lemma out2_eq vb vc : 0 <= vb < 64 -> 0 <= vc < 64 ->
  Z.lor (u8_shl vb 4) (u8_shr vc 2) = (vb mod 16) * 16 + vc / 4.
Proof.
  intros Hb Hc. rewrite u8_shl_eq by lia. unfold u8_shr. rewrite Z.shiftr_div_pow2 by lia.
  change (2 ^ 4) with 16. change (2 ^ 2) with 4.
  replace ((vb * 16) mod 256) with ((vb mod 16) * 2 ^ 4) by (change (2 ^ 4) with 16; lia).
  rewrite lor_add by (change (2 ^ 4) with 16; lia). reflexivity.
Qed.

Lemma out3_eq vc vd : 0 <= vc < 64 -> 0 <= vd < 64 ->
  Z.lor (u8_shl vc 6) vd = (vc mod 4) * 64 + vd.
Proof.
  intros Hc Hd. rewrite u8_shl_eq by lia. change (2 ^ 6) with 64.
  replace ((vc * 64) mod 256) with ((vc mod 4) * 2 ^ 6) by (change (2 ^ 6) with 64; lia).
  rewrite lor_add by (change (2 ^ 6) with 64; lia). reflexivity.
Qed.

Definition pad (l : bytes) : bytes :=
  match (length l mod 4)%nat with 2%nat => l ++ [b_eq; b_eq] | 3%nat => l ++ [b_eq] | _ => l end.

Lemma pad_quad a b c d r : pad (a :: b :: c :: d :: r) = a :: b :: c :: d :: pad r.
Proof. unfold pad. rewrite quad_len. by destruct (length r mod 4)%nat as [|[|[|[|]]]]. Qed.

(** The sextets of a group decode to its bytes. *)
Ltac sextets :=
  repeat match goal with
  | |- context [decode_char (OnChain.to_standard (sextet_char ?v))] =>
      let H := fresh in
      assert (H : 0 <= v < 64) by lia;
      rewrite (proj1 (sextet_decode v H));
      rewrite ?(decide_False (P := OnChain.to_standard (sextet_char v) = b_eq))
        by exact (proj2 (sextet_decode v H))
  end;
  repeat match goal with
  | |- context [?v <? 0] => rewrite (proj2 (Z.ltb_ge v 0)) by lia
  end; cbn [orb].

Ltac byte_ranges :=
  repeat match goal with
  | x : byte |- _ =>
      lazymatch goal with
      | _ : 0 <= Z_of_byte x < 256 |- _ => fail
      | _ => pose proof (Z_of_byte_range x)
      end
  end.

Lemma decode_encode_loop b :
  OnChain.decode_loop (pad (map OnChain.to_standard (base64url_encode b))) = Ok b.
Proof.
  induction b as [|x|x y|x y z r IH] using triple_ind; byte_ranges; [done| | |];
    cbn [base64url_encode map].
  - cbn -[decode_char sextet_char OnChain.to_standard]. sextets.
    rewrite decide_True by done. cbn. do 2 f_equal. apply byte_of_Z_eq.
    rewrite out1_eq by lia. lia.
  - cbn -[decode_char sextet_char OnChain.to_standard]. sextets.
    rewrite decide_True by done. cbn -[Z.div Z.modulo]. do 2 f_equal; [|f_equal];
      apply byte_of_Z_eq; rewrite ?out1_eq, ?out2_eq by lia; lia.
  - rewrite pad_quad. cbn -[decode_char sextet_char OnChain.to_standard pad]. sextets.
    rewrite IH. cbn -[Z.div Z.modulo]. do 2 f_equal; [|f_equal; [|f_equal]];
      apply byte_of_Z_eq; rewrite ?out1_eq, ?out2_eq, ?out3_eq by lia; lia.
Qed.

Lemma encode_length b : (length (base64url_encode b) mod 4 <> 1)%nat.
Proof.
  induction b as [|x|x y|x y z r IH] using triple_ind; try done.
  cbn [base64url_encode]. by rewrite quad_len.
Qed.

(** A decoder around its loop. *)
Definition decode_with (loop : bytes -> result string bytes) (s : bytes) : result string bytes :=
  let l := pad (map OnChain.to_standard s) in
  if negb (Nat.eqb (length l mod 4) 0) then Err err_b64_len else loop l.

Lemma gcp_decode_onchain s : Gcp.decode_base64url s = OnChain.base64url_decode s.
Proof.
  change (decode_with Gcp.decode_loop s = decode_with OnChain.decode_loop s).
  unfold decode_with. by rewrite (proj1 (decode_loops_agree _)).
Qed.

Lemma client_decode_onchain s : Client.base64url_decode s = OnChain.base64url_decode s.
Proof.
  change (decode_with Client.decode_loop s = decode_with OnChain.decode_loop s).
  unfold decode_with. by rewrite (proj2 (decode_loops_agree _)).
Qed.

Lemma decode_no_panic s w : OnChain.base64url_decode s <> Panic w.
Proof.
  change (decode_with OnChain.decode_loop s <> Panic w). unfold decode_with. cbv zeta.
  destruct (Nat.eqb_spec (length (pad (map OnChain.to_standard s)) mod 4) 0)%nat; [|done].
  by apply decode_loop_no_panic.
Qed.

Lemma decode_encode b : OnChain.base64url_decode (base64url_encode b) = Ok b.
Proof.
  change (decode_with OnChain.decode_loop (base64url_encode b) = Ok b).
  unfold decode_with. cbv zeta. rewrite decode_encode_loop. unfold pad.
  rewrite padded_len; [done|]. rewrite length_map. apply encode_length.
Qed.

(** C32. The three base64url decoders (the guest library's, the contract's and the
    bootstrap client's) are the same function, it never panics, and it inverts the
    unpadded base64url encoding of every byte string. *)
Theorem base64url_decoders_correct (s b : bytes) :
  Gcp.decode_base64url s = OnChain.base64url_decode s /\
  Client.base64url_decode s = OnChain.base64url_decode s /\
  (forall w, OnChain.base64url_decode s <> Panic w) /\
  OnChain.base64url_decode (base64url_encode b) = Ok b.
Proof.
  split_and!; [apply gcp_decode_onchain|apply client_decode_onchain|apply decode_no_panic|apply decode_encode].
Qed.
