(* ===== verification/BTree.v ===== *)
(** * Ordered maps keyed by [u64]

    [std::collections::BTreeMap], and SQLite tables with an INTEGER PRIMARY KEY
    read in key order. *)
From S2P Require Import Prelude.

(** ** [BTreeMap<u64, A>]: the entries in ascending key order *)
Module BTreeMap.
Section ops.
Context {A : Type}.
Definition t : Type := list (Z * A).
Fixpoint get (k : Z) (m : t) : option A :=
  match m with
  | [] => None
  | (k', v) :: m' => if k =? k' then Some v else get k m'
  end.
Fixpoint insert (k : Z) (v : A) (m : t) : t :=
  match m with
  | [] => [(k, v)]
  | (k', v') :: m' =>
      if k <? k' then (k, v) :: m
      else if k =? k' then (k, v) :: m'
      else (k', v') :: insert k v m'
  end.
Definition values (m : t) : list A := map snd m.
Definition keys (m : t) : list Z := map fst m.
(** [retain] on the keys *)
Definition retain (f : Z -> bool) (m : t) : t := List.filter (fun e => f (fst e)) m.
End ops.
Arguments t : clear implicits.
End BTreeMap.

(** ** Lemmas *)
Lemma btree_insert_last {A} k (v : A) m :
  Forall (fun e => fst e < k) m -> BTreeMap.insert k v m = m ++ [(k, v)].
Proof.
  induction 1 as [|[k' v'] m Hlt _ IH]; cbn in *; [done|].
  rewrite (proj2 (Z.ltb_ge _ _)), (proj2 (Z.eqb_neq _ _)) by lia. by rewrite IH.
Qed.

Lemma btree_get_fresh {A} k (m : BTreeMap.t A) :
  Forall (fun e => fst e <> k) m -> BTreeMap.get k m = None.
Proof.
  induction 1 as [|[k' v'] m Hne _ IH]; cbn in *; [done|]. by rewrite (proj2 (Z.eqb_neq _ _)) by congruence.
Qed.

Definition key_lt {A} (a b : Z * A) : Prop := fst a < fst b.

Lemma btree_insert_Forall {A} (P : Z * A -> Prop) k v m :
  P (k, v) -> Forall P m -> Forall P (BTreeMap.insert k v m).
Proof.
  intros Hk. induction 1 as [|[k' v'] m Hm Hf IH]; cbn; [by constructor|].
  destruct (k <? k'); [by repeat constructor|]. destruct (k =? k'); by constructor.
Qed.

Lemma btree_insert_sorted {A} k (v : A) m :
  StronglySorted key_lt m -> StronglySorted key_lt (BTreeMap.insert k v m).
Proof.
  induction 1 as [|[k' v'] m Hs IH Hf]; cbn; [by repeat constructor|].
  destruct (k <? k') eqn:E1; [|destruct (k =? k') eqn:E2]; bool_to_prop.
  - constructor; [by constructor|]. constructor; [done|].
    eapply Forall_impl; [exact Hf|]. unfold key_lt. cbn. lia.
  - subst. by constructor.
  - constructor; [done|]. apply btree_insert_Forall; [unfold key_lt; cbn; lia | done].
Qed.

Lemma btree_get_insert {A} k (v : A) m k' :
  StronglySorted key_lt m ->
  BTreeMap.get k' (BTreeMap.insert k v m) = if k' =? k then Some v else BTreeMap.get k' m.
Proof.
  induction 1 as [|[k2 v2] m Hs IH Hf]; cbn; [done|].
  destruct (k <? k2) eqn:E1; [done|]. destruct (k =? k2) eqn:E2; cbn; bool_to_prop.
  - subst. by destruct (k' =? k2).
  - rewrite IH. destruct (k' =? k2) eqn:E3, (k' =? k) eqn:E4; bool_to_prop; subst; auto; lia.
Qed.

Lemma btree_retain_sorted {A} f (m : BTreeMap.t A) :
  StronglySorted key_lt m -> StronglySorted key_lt (BTreeMap.retain f m).
Proof.
  unfold BTreeMap.retain. induction 1 as [|e m Hs IH Hf]; cbn; [constructor|].
  destruct (f (fst e)); [|done]. constructor; [done|].
  apply Forall_forall. intros x Hx. apply list_elem_of_In, filter_In in Hx as [Hx _].
  rewrite Forall_forall in Hf. apply Hf. by apply list_elem_of_In.
Qed.
