(* ===== verification/Batches.v ===== *)
(** * Batch metadata (crates/synddb-shared/src/types/batch.rs)

    [BatchInfo], shared by the sequencer's transports and the validator's batch
    index, and the file-name codec [{start:012}_{end:012}.cbor.zst]. *)
From Stdlib Require Import Ascii Strings.Byte.
From S2P Require Import Prelude RustStd.

Definition zero_hash : bytes := repeat x00 32.

Definition is_zero_hash (hash : bytes) : bool := forallb (fun b => bool_decide (b = x00)) hash.

Module BatchInfo.

(** The SHA-256 content hash is [zero_hash] when it was not computed. *)
Record t := mk {
  start_sequence : Z;
  end_sequence : Z;
  path : string;
  content_hash : bytes;
}.

#[export] Instance t_eq_dec : EqDecision t.
Proof. solve_decision. Defined.

Definition new (start_sequence end_sequence : Z) (path : string) : t :=
  {| start_sequence := start_sequence; end_sequence := end_sequence;
     path := path; content_hash := zero_hash |}.

Definition with_hash (start_sequence end_sequence : Z) (path : string) (h : bytes) : t :=
  {| start_sequence := start_sequence; end_sequence := end_sequence;
     path := path; content_hash := h |}.

Definition contains (b : t) (sequence : Z) : bool :=
  (start_sequence b <=? sequence) && (sequence <=? end_sequence b).

Definition is_empty (b : t) : bool := end_sequence b <? start_sequence b.

Definition len (b : t) : Z :=
  if is_empty b then 0 else u64_add (u64_sub (end_sequence b) (start_sequence b)) 1.

Definition has_content_hash (b : t) : bool := negb (is_zero_hash (content_hash b)).

End BatchInfo.

(** [parse_batch_filename]: the pieces between underscores are read one by one
    and any third piece makes the name invalid. *)
Definition parse_batch_filename (filename : string) : option (Z * Z) :=
  match strip_suffix ".cbor.zst" filename with
  | None => None
  | Some without_ext =>
      match split_char "_" without_ext with
      | p1 :: rest =>
          match parse_u64 p1, rest with
          | Some start, p2 :: rest' =>
              match parse_u64 p2 with
              | Some e => match rest' with [] => Some (start, e) | _ => None end
              | None => None
              end
          | _, _ => None
          end
      | [] => None
      end
  end.

Definition format_batch_filename (start_sequence end_sequence : Z) : string :=
  fmt_012 start_sequence +:+ "_" +:+ fmt_012 end_sequence +:+ ".cbor.zst".

(** ** Properties *)

Lemma digits_no_underscore s :
  all_chars is_digit s -> all_chars (fun a => a <> "_"%char) s.
Proof. apply all_chars_impl. intros c [d Hd] ->. discriminate Hd. Qed.

(** File names round-trip: the name written for any pair of [u64] sequence
    numbers parses back to the same pair, for all 2^128 pairs (numbers of more
    than 12 digits included). *)
Theorem batch_filename_roundtrip (s e : Z) :
  is_u64 s -> is_u64 e -> parse_batch_filename (format_batch_filename s e) = Some (s, e).
Proof.
  intros Hs He. unfold parse_batch_filename, format_batch_filename.
  rewrite <- !string_app_assoc, strip_suffix_app, string_app_assoc.
  change ("_" +:+ fmt_012 e) with (String "_" (fmt_012 e)).
  pose proof (proj1 Hs). pose proof (proj1 He).
  rewrite split_char_app by (by apply digits_no_underscore, fmt_012_digits).
  rewrite split_char_none by (by apply digits_no_underscore, fmt_012_digits).
  by rewrite !parse_fmt_012.
Qed.

Lemma batch_filename_roundtrip_witness :
  is_u64 1 /\ is_u64 u64_max /\
  parse_batch_filename (format_batch_filename 1 u64_max) = Some (1, u64_max).
Proof.
  split; [done|]. split; [done|]. apply (batch_filename_roundtrip 1 u64_max); done.
Defined.

(** [contains] is the closed interval, and [len] counts it: no overflow except
    for the one batch that spans all of [u64]. *)
Lemma contains_spec b s :
  BatchInfo.contains b s = true <-> BatchInfo.start_sequence b <= s <= BatchInfo.end_sequence b.
Proof. unfold BatchInfo.contains. rewrite andb_true_iff, !Z.leb_le. done. Qed.

Lemma contains_false b s :
  BatchInfo.contains b s = false <-> s < BatchInfo.start_sequence b \/ BatchInfo.end_sequence b < s.
Proof. unfold BatchInfo.contains. rewrite andb_false_iff, !Z.leb_gt. done. Qed.

Lemma len_spec b :
  is_u64 (BatchInfo.start_sequence b) -> is_u64 (BatchInfo.end_sequence b) ->
  BatchInfo.end_sequence b - BatchInfo.start_sequence b < u64_max ->
  BatchInfo.len b = Z.max 0 (BatchInfo.end_sequence b - BatchInfo.start_sequence b + 1).
Proof.
  unfold BatchInfo.len, BatchInfo.is_empty, is_u64, u64_max. intros Hs He Hlt.
  destruct (Z.ltb_spec (BatchInfo.end_sequence b) (BatchInfo.start_sequence b)); [lia|].
  rewrite u64_sub_small by (unfold is_u64; lia).
  rewrite u64_add_small by (unfold is_u64; lia). lia.
Qed.
