(* ===== verification/SyncIndex.v ===== *)
(** * The validator's batch index (crates/synddb-validator/src/sync/batch_index.rs)

    [BatchIndex] caches the sorted listing of batches of a storage layer;
    [BatchIterator] walks it.  The lookups go through [slice::partition_point]
    and [binary_search_by_key], modelled by the bisection loop of the standard
    library and proved equal to a linear search on sorted, disjoint listings. *)
From S2P Require Import Prelude RustStd Batches.

(** ** Binary search of the standard library *)
Section bisection.
Context {A : Type}.

(** The loop of [slice::binary_search_by]: [size] at least halves, so [size]
    steps of fuel are enough. *)
Fixpoint bisect (f : A -> comparison) (l : list A) (fuel base size : nat) : nat :=
  match fuel with
  | O => base
  | S fuel' =>
      if (size <=? 1)%nat then base
      else
        let half := (size / 2)%nat in
        let mid := (base + half)%nat in
        let base' :=
          match l !! mid with
          | Some x => match f x with Gt => base | _ => mid end
          | None => base
          end in
        bisect f l fuel' base' (size - half)%nat
  end.

(** [Ok i]: found at [i]; [Err i]: not found, insertion point [i]. *)
Definition binary_search_by (f : A -> comparison) (l : list A) : result nat nat :=
  match l with
  | [] => Err 0%nat
  | _ =>
      let base := bisect f l (length l) 0 (length l) in
      match l !! base with
      | None => Panic "index out of bounds"
      | Some x =>
          match f x with
          | Eq => Ok base
          | Lt => Err (S base)
          | Gt => Err base
          end
      end
  end.

Definition partition_point (p : A -> bool) (l : list A) : nat :=
  match binary_search_by (fun x => if p x then Lt else Gt) l with
  | Ok i | Err i => i
  | Panic _ => 0%nat
  end.

(** [p] holds on a prefix of [l] and fails on the rest. *)
Definition partitioned (p : A -> bool) (l : list A) : Prop :=
  forall i j x y, (i < j)%nat -> l !! i = Some x -> l !! j = Some y -> p y = true -> p x = true.

Lemma bisect_spec (p : A -> bool) l fuel base size :
  partitioned p l ->
  (size <= fuel)%nat -> (1 <= size)%nat -> (base + size <= length l)%nat ->
  (base = 0%nat \/ exists x, l !! base = Some x /\ p x = true) ->
  (forall j y, (base + size <= j)%nat -> l !! j = Some y -> p y = false) ->
  let b := bisect (fun x => if p x then Lt else Gt) l fuel base size in
  (b < length l)%nat /\
  (b = 0%nat \/ exists x, l !! b = Some x /\ p x = true) /\
  (forall j y, (b < j)%nat -> l !! j = Some y -> p y = false).
Proof.
  intros Hp. revert base size.
  induction fuel as [|fuel IH]; intros base size Hf H1 Hlen Hb Hr; [lia|].
  cbn [bisect]. destruct (Nat.leb_spec size 1) as [Hs|Hs].
  - split; [lia|]. split; [done|]. intros j y Hj. apply Hr. lia.
  - assert (size / 2 < size)%nat by (apply Nat.div_lt; lia).
    assert (1 <= size / 2)%nat by (apply Nat.div_le_lower_bound; lia).
    assert (size / 2 <= size - size / 2)%nat by (pose proof (Nat.div_mod_eq size 2); lia).
    set (half := (size / 2)%nat) in *.
    destruct (lookup_lt_is_Some_2 l (base + half)%nat) as [x Hx]; [lia|]. rewrite Hx.
    destruct (p x) eqn:Ex; apply IH; try lia; eauto.
    + intros j y Hj. apply Hr. lia.
    + intros j y Hj Hy. destruct (p y) eqn:Ey; [|done].
      destruct (decide (j = base + half)%nat) as [->|]; [congruence|].
      rewrite <- Ex. symmetry. apply (Hp (base + half)%nat j x y); auto; lia.
Qed.

Lemma partition_point_spec (p : A -> bool) l :
  partitioned p l ->
  (partition_point p l <= length l)%nat /\
  (forall i x, (i < partition_point p l)%nat -> l !! i = Some x -> p x = true) /\
  (forall i x, (partition_point p l <= i)%nat -> l !! i = Some x -> p x = false).
Proof.
  intros Hp. destruct l as [|a l]; [cbn; split; [lia|]; split; intros i x Hi Hx; [lia|done]|].
  set (L := a :: l) in *.
  destruct (bisect_spec p L (length L) 0 (length L) Hp) as (Hlt & Hb & Hr); auto; try (simpl; lia).
  { intros j y Hj Hy. apply lookup_lt_Some in Hy. simpl in *. lia. }
  unfold partition_point, binary_search_by. fold L.
  change (match L with [] => Err 0%nat | _ => _ end) with
    (let base := bisect (fun x => if p x then Lt else Gt) L (length L) 0 (length L) in
     match L !! base with
     | None => Panic "index out of bounds"
     | Some x => match (if p x then Lt else Gt) with Eq => Ok base | Lt => Err (S base) | Gt => Err base end
     end : result nat nat).
  cbv zeta. set (b := bisect _ _ _ _ _) in *.
  destruct (lookup_lt_is_Some_2 L b Hlt) as [x Hx]. rewrite Hx. destruct (p x) eqn:Ex.
  - split; [lia|]. split; [|intros i y Hi; apply Hr; lia].
    intros i y Hi Hy. destruct (decide (i = b)) as [->|]; [congruence|].
    apply (Hp i b y x); auto; lia.
  - destruct Hb as [Hb0|(x' & Hx' & Ex')]; [|congruence]. rewrite Hb0 in *.
    split; [lia|]. split; [intros; lia|]. intros i y _ Hy.
    destruct i as [|i]; [congruence|]. apply (Hr (S i)); auto; lia.
Qed.

End bisection.

(** ** The index *)
Module BatchIndex.

Record t := mk { batches : list BatchInfo.t }.

(** [build] takes the listing of the fetcher as it is (no sorting). *)
Definition build {E} (listing : result E (list BatchInfo.t)) : result E t :=
  let? l := listing in Ok (mk l).

Definition empty : t := mk [].
Definition len (ix : t) : nat := length (batches ix).
Definition is_empty (ix : t) : bool := match batches ix with [] => true | _ => false end.

Definition find_batch_containing (ix : t) (sequence : Z) : option BatchInfo.t :=
  let idx := partition_point (fun b => BatchInfo.start_sequence b <=? sequence) (batches ix) in
  match idx with
  | O => None
  | S i =>
      match batches ix !! i with
      | Some batch => if BatchInfo.contains batch sequence then Some batch else None
      | None => None
      end
  end.

Definition find_first_batch_starting_at_or_after (ix : t) (sequence : Z) : option BatchInfo.t :=
  batches ix !! partition_point (fun b => BatchInfo.start_sequence b <? sequence) (batches ix).

Definition find_first_batch_after (ix : t) (sequence : Z) : option BatchInfo.t :=
  batches ix !! partition_point (fun b => BatchInfo.start_sequence b <=? sequence) (batches ix).

Definition get_batch_at_index (ix : t) (index : nat) : option BatchInfo.t := batches ix !! index.

Definition find_batch_index (ix : t) (start_sequence : Z) : option nat :=
  result_ok (binary_search_by (fun b => BatchInfo.start_sequence b ?= start_sequence) (batches ix)).

(** The loop of [detect_gaps], with its two mutable variables. *)
Fixpoint detect_gaps_loop (from expected : Z) (gaps : list (Z * Z)) (l : list BatchInfo.t)
  : list (Z * Z) :=
  match l with
  | [] => gaps
  | batch :: l' =>
      if BatchInfo.end_sequence batch <? from then detect_gaps_loop from expected gaps l'
      else
        let gaps' :=
          if expected <? BatchInfo.start_sequence batch
          then gaps ++ [(expected, BatchInfo.start_sequence batch)] else gaps in
        detect_gaps_loop from (u64_add (BatchInfo.end_sequence batch) 1) gaps' l'
  end.
Definition detect_gaps (ix : t) (from_sequence : Z) : list (Z * Z) :=
  detect_gaps_loop from_sequence from_sequence [] (batches ix).

Definition latest_sequence (ix : t) : option Z := BatchInfo.end_sequence <$> last (batches ix).
Definition earliest_sequence (ix : t) : option Z := BatchInfo.start_sequence <$> head (batches ix).

(** [refresh] replaces the listing and reports how many batches are new; on an
    error of the fetcher the old listing stays. *)
Definition refresh {E} (ix : t) (listing : result E (list BatchInfo.t)) : t * result E nat :=
  match listing with
  | Ok l => (mk l, Ok (length l - len ix)%nat)
  | Err e => (ix, Err e)
  | Panic w => (ix, Panic w)
  end.

Definition contains (ix : t) (sequence : Z) : bool :=
  match find_batch_containing ix sequence with Some _ => true | None => false end.

Definition total_messages (ix : t) : Z :=
  fold_left (fun acc b => u64_add acc (BatchInfo.len b)) (batches ix) 0.

End BatchIndex.

(** ** The iterator *)
Module BatchIterator.

Record t := mk { batch_idx : nat; message_offset : Z }.

Definition new : t := mk 0 0.

Fixpoint starting_at_loop (idx : nat) (l : list BatchInfo.t) (sequence : Z) : t :=
  match l with
  | [] => mk idx 0
  | batch :: l' =>
      if BatchInfo.contains batch sequence
      then mk idx (u64_sub sequence (BatchInfo.start_sequence batch))
      else if sequence <? BatchInfo.start_sequence batch then mk idx 0
      else starting_at_loop (S idx) l' sequence
  end.
Definition starting_at (ix : BatchIndex.t) (sequence : Z) : t :=
  starting_at_loop 0 (BatchIndex.batches ix) sequence.

Definition current_batch (it : t) (ix : BatchIndex.t) : option BatchInfo.t :=
  BatchIndex.get_batch_at_index ix (batch_idx it).

Definition current_sequence (it : t) (ix : BatchIndex.t) : option Z :=
  (fun b => u64_add (BatchInfo.start_sequence b) (message_offset it)) <$> current_batch it ix.

Definition is_exhausted (it : t) (ix : BatchIndex.t) : bool :=
  (BatchIndex.len ix <=? batch_idx it)%nat.

Definition advance (it : t) (ix : BatchIndex.t) : t * bool :=
  match current_batch it ix with
  | Some batch =>
      let off := u64_add (message_offset it) 1 in
      let it' := if BatchInfo.len batch <=? off then mk (S (batch_idx it)) 0
                 else mk (batch_idx it) off in
      (it', negb (is_exhausted it' ix))
  | None => (it, false)
  end.

Definition advance_to_next_batch (it : t) : t := mk (S (batch_idx it)) 0.
Definition reset (it : t) : t := mk 0 0.

End BatchIterator.

(** ** Well-formed listings: what [list_batches] documents *)

(** Batches sorted by start, disjoint, non-empty, and below the last [u64]
    (so [end + 1] does not wrap). *)
Definition batch_before (a b : BatchInfo.t) : Prop :=
  BatchInfo.end_sequence a < BatchInfo.start_sequence b.
Definition batch_ok (b : BatchInfo.t) : Prop :=
  0 <= BatchInfo.start_sequence b <= BatchInfo.end_sequence b /\ BatchInfo.end_sequence b < u64_max.
Definition wf_listing (l : list BatchInfo.t) : Prop :=
  Forall batch_ok l /\ StronglySorted batch_before l.

(** The sequence numbers a listing covers, in order. *)
Definition batch_sequences (b : BatchInfo.t) : list Z :=
  seqZ (BatchInfo.start_sequence b) (BatchInfo.len b).
Definition sequences (l : list BatchInfo.t) : list Z := concat (map batch_sequences l).

Lemma wf_listing_cons b l :
  wf_listing (b :: l) -> batch_ok b /\ Forall (batch_before b) l /\ wf_listing l.
Proof.
  intros [Hf Hs]. inversion Hf; inversion Hs; subst. unfold wf_listing. auto.
Qed.

Lemma wf_listing_lookup l i j a b :
  wf_listing l -> (i < j)%nat -> l !! i = Some a -> l !! j = Some b ->
  batch_ok a /\ batch_ok b /\ batch_before a b.
Proof.
  revert i j. induction l as [|x l IH]; intros i j Hwf Hij Ha Hb; [done|].
  apply wf_listing_cons in Hwf as (Hx & Hlt & Hwf).
  destruct j as [|j]; [lia|]. cbn in Hb. destruct i as [|i]; cbn in Ha.
  - injection Ha as <-. split; [done|]. pose proof (proj1 Hwf) as Hok.
    rewrite Forall_lookup in Hok, Hlt. eauto.
  - apply (IH i j); auto; lia.
Qed.

Lemma wf_batch_ok l b : wf_listing l -> b ∈ l -> batch_ok b.
Proof. intros [Hf _]. rewrite Forall_forall in Hf. apply Hf. Qed.

Lemma batch_ok_len b :
  batch_ok b -> BatchInfo.len b = BatchInfo.end_sequence b - BatchInfo.start_sequence b + 1.
Proof.
  unfold batch_ok, u64_max. intros H.
  rewrite len_spec; unfold is_u64, u64_max; lia.
Qed.

Lemma partitioned_le l s :
  wf_listing l -> partitioned (fun b => BatchInfo.start_sequence b <=? s) l.
Proof.
  intros Hwf i j x y Hij Hx Hy Hp.
  destruct (wf_listing_lookup l i j x y) as (Ha & Hb & Hlt); auto.
  unfold batch_ok, batch_before in *. bool_to_prop. apply Z.leb_le. lia.
Qed.

Lemma partitioned_lt l s :
  wf_listing l -> partitioned (fun b => BatchInfo.start_sequence b <? s) l.
Proof.
  intros Hwf i j x y Hij Hx Hy Hp.
  destruct (wf_listing_lookup l i j x y) as (Ha & Hb & Hlt); auto.
  unfold batch_ok, batch_before in *. bool_to_prop. apply Z.ltb_lt. lia.
Qed.

Lemma find_at {A} (f : A -> bool) l i x :
  l !! i = Some x -> f x = true -> (forall j y, (j < i)%nat -> l !! j = Some y -> f y = false) ->
  find f l = Some x.
Proof.
  revert i. induction l as [|a l IH]; intros i Hi Hx Hlt; [done|]. simpl.
  destruct i as [|i]; [simpl in Hi; injection Hi as ->; by rewrite Hx|].
  rewrite (Hlt 0%nat a) by (simpl; auto; lia).
  apply (IH i); auto. intros j y Hj Hy. apply (Hlt (S j)); auto; lia.
Qed.

Lemma find_none_all {A} (f : A -> bool) l :
  (forall j y, l !! j = Some y -> f y = false) -> find f l = None.
Proof.
  induction l as [|a l IH]; intros H; [done|]. simpl.
  rewrite (H 0%nat a) by done. apply IH. intros j y. apply (H (S j)).
Qed.

(** The bisection lookup is the linear one. *)
Lemma find_containing_eq_find (l : list BatchInfo.t) (s : Z) :
  wf_listing l ->
  BatchIndex.find_batch_containing (BatchIndex.mk l) s = find (fun b => BatchInfo.contains b s) l.
Proof.
  intros Hwf. unfold BatchIndex.find_batch_containing. cbn [BatchIndex.batches].
  destruct (partition_point_spec _ _ (partitioned_le l s Hwf)) as (Hle & Hlt & Hge).
  destruct (partition_point _ l) as [|i].
  - symmetry. apply find_none_all. intros j y Hy.
    pose proof (Hge j y ltac:(lia) Hy). bool_to_prop. apply contains_false. lia.
  - destruct (lookup_lt_is_Some_2 l i) as [b Hb]; [lia|]. rewrite Hb.
    pose proof (Hlt i b ltac:(lia) Hb) as Hbs. bool_to_prop.
    destruct (BatchInfo.contains b s) eqn:Ec; symmetry.
    + apply (find_at _ _ i); auto. intros j y Hj Hy.
      destruct (wf_listing_lookup l j i y b) as (_ & _ & Hbef); auto.
      unfold batch_before in Hbef. apply contains_false. lia.
    + apply find_none_all. intros j y Hy.
      destruct (Nat.lt_trichotomy j i) as [Hj|[->|Hj]]; [|congruence|].
      * destruct (wf_listing_lookup l j i y b) as (_ & _ & Hbef); auto.
        unfold batch_before in Hbef. apply contains_false. lia.
      * pose proof (Hge j y ltac:(lia) Hy). bool_to_prop. apply contains_false. lia.
Qed.

Definition demo_listing : list BatchInfo.t :=
  [BatchInfo.new 0 4 "a"; BatchInfo.new 5 5 "b"; BatchInfo.new 9 12 "c"].

Lemma demo_listing_wf : wf_listing demo_listing.
Proof.
  split; repeat constructor; unfold batch_before; vm_compute; congruence.
Qed.

Lemma find_batch_containing_sound l s b :
  BatchIndex.find_batch_containing (BatchIndex.mk l) s = Some b ->
  b ∈ l /\ BatchInfo.contains b s = true.
Proof.
  unfold BatchIndex.find_batch_containing. cbn [BatchIndex.batches].
  destruct (partition_point _ l) as [|i]; [done|].
  destruct (l !! i) as [b'|] eqn:Hb; [|done].
  destruct (BatchInfo.contains b' s) eqn:Ec; [|done]. intros [= <-].
  split; [|done]. by eapply list_elem_of_lookup_2.
Qed.

Lemma find_batch_containing_complete l s b :
  wf_listing l -> b ∈ l -> BatchInfo.contains b s = true ->
  is_Some (BatchIndex.find_batch_containing (BatchIndex.mk l) s).
Proof.
  intros Hwf Hin Hc. rewrite find_containing_eq_find by done.
  destruct (find _ l) eqn:E; [by eexists|].
  apply find_none with (x := b) in E; [congruence | by apply list_elem_of_In].
Qed.

(** [find_first_batch_starting_at_or_after] is the least batch at or after. *)
Lemma find_first_at_or_after_spec l s :
  wf_listing l ->
  match BatchIndex.find_first_batch_starting_at_or_after (BatchIndex.mk l) s with
  | Some b => b ∈ l /\ s <= BatchInfo.start_sequence b /\
      (forall b', b' ∈ l -> s <= BatchInfo.start_sequence b' ->
                  BatchInfo.start_sequence b <= BatchInfo.start_sequence b')
  | None => forall b', b' ∈ l -> BatchInfo.start_sequence b' < s
  end.
Proof.
  intros Hwf. unfold BatchIndex.find_first_batch_starting_at_or_after. cbn [BatchIndex.batches].
  destruct (partition_point_spec _ _ (partitioned_lt l s Hwf)) as (Hle & Hlt & Hge).
  set (i := partition_point _ l) in *. destruct (l !! i) as [b|] eqn:Hb.
  - split; [by eapply list_elem_of_lookup_2|]. split.
    { pose proof (Hge i b ltac:(lia) Hb). bool_to_prop. lia. }
    intros b' (j & Hj)%list_elem_of_lookup_1 Hs.
    destruct (Nat.lt_trichotomy j i) as [H|[->|H]]; [| |].
    + pose proof (Hlt j b' H Hj). bool_to_prop. lia.
    + replace b' with b by congruence. lia.
    + destruct (wf_listing_lookup l i j b b') as (Hok & _ & Hbef); auto.
      unfold batch_ok, batch_before in *. lia.
  - intros b' (j & Hj)%list_elem_of_lookup_1.
    apply lookup_ge_None in Hb. pose proof (lookup_lt_Some _ _ _ Hj).
    pose proof (Hlt j b' ltac:(lia) Hj). bool_to_prop. lia.
Qed.

(** The binary searches of the index are exact on every sorted, disjoint
    listing: [find_batch_containing] returns what a linear search for a batch
    covering the sequence returns ([None] included), [contains] decides
    coverage, and when no batch covers a sequence
    [find_first_batch_starting_at_or_after] returns the next batch, if any. *)
Theorem find_batch_containing_linear (l : list BatchInfo.t) (s : Z) :
  wf_listing l ->
  BatchIndex.find_batch_containing (BatchIndex.mk l) s = find (fun b => BatchInfo.contains b s) l /\
  (BatchIndex.contains (BatchIndex.mk l) s = true <->
     exists b, b ∈ l /\ BatchInfo.contains b s = true) /\
  (forall b, BatchIndex.find_first_batch_starting_at_or_after (BatchIndex.mk l) s = Some b ->
     b ∈ l /\ s <= BatchInfo.start_sequence b /\
     forall b', b' ∈ l -> s <= BatchInfo.start_sequence b' ->
       BatchInfo.start_sequence b <= BatchInfo.start_sequence b').
Proof.
  intros Hwf. split; [by apply find_containing_eq_find|]. split.
  - unfold BatchIndex.contains. split.
    + destruct (BatchIndex.find_batch_containing _ s) as [b|] eqn:E; [|done].
      intros _. exists b. by apply find_batch_containing_sound.
    + intros (b & Hin & Hc).
      destruct (find_batch_containing_complete l s b Hwf Hin Hc) as [b' ->]. done.
  - intros b Hb. pose proof (find_first_at_or_after_spec l s Hwf) as H. by rewrite Hb in H.
Qed.

Lemma find_batch_containing_linear_witness :
  wf_listing demo_listing /\
  BatchIndex.find_batch_containing (BatchIndex.mk demo_listing) 10
    = find (fun b => BatchInfo.contains b 10) demo_listing.
Proof.
  split; [apply demo_listing_wf|].
  apply (find_batch_containing_linear demo_listing 10 demo_listing_wf).
Defined.

(** ** Gaps *)

Definition covered (l : list BatchInfo.t) (s : Z) : Prop :=
  exists b, b ∈ l /\ BatchInfo.start_sequence b <= s <= BatchInfo.end_sequence b.
Definition before_some (l : list BatchInfo.t) (s : Z) : Prop :=
  exists b, b ∈ l /\ s < BatchInfo.start_sequence b.
Definition in_gaps (gaps : list (Z * Z)) (s : Z) : Prop :=
  exists g, g ∈ gaps /\ g.1 <= s < g.2.

Lemma covered_cons b l s :
  covered (b :: l) s <->
  BatchInfo.start_sequence b <= s <= BatchInfo.end_sequence b \/ covered l s.
Proof. unfold covered. set_solver. Qed.

Lemma before_some_cons b l s :
  before_some (b :: l) s <-> s < BatchInfo.start_sequence b \/ before_some l s.
Proof. unfold before_some. set_solver. Qed.

Lemma in_gaps_snoc gaps a b s : in_gaps (gaps ++ [(a, b)]) s <-> in_gaps gaps s \/ a <= s < b.
Proof.
  unfold in_gaps. split.
  - intros (g & [H|H%list_elem_of_singleton]%elem_of_app & Hs); subst; naive_solver.
  - intros [(g & H & Hs)|H]; [exists g; set_solver | exists (a, b); set_solver].
Qed.

(** What the loop computes from any intermediate state. *)
Lemma detect_gaps_loop_spec from l : forall expected gaps s,
  wf_listing l -> from <= expected ->
  Forall (fun b => BatchInfo.end_sequence b < from \/ expected <= BatchInfo.end_sequence b) l ->
  in_gaps (BatchIndex.detect_gaps_loop from expected gaps l) s <->
  in_gaps gaps s \/ (expected <= s /\ ~ covered l s /\ before_some l s).
Proof.
  induction l as [|b l IH]; intros expected gaps s Hwf Hfe Hexp.
  - cbn. unfold before_some. set_solver.
  - apply wf_listing_cons in Hwf as (Hb & Hlt & Hwf).
    apply Forall_cons in Hexp as [Hbe Hexp].
    unfold batch_ok, u64_max in Hb. rewrite Forall_forall in Hlt. unfold batch_before in Hlt.
    rewrite covered_cons, before_some_cons. cbn [BatchIndex.detect_gaps_loop].
    assert (Hcl : s <= BatchInfo.end_sequence b -> ~ covered l s).
    { intros Hs (b' & Hin & ?). specialize (Hlt b' Hin). lia. }
    destruct (Z.ltb_spec (BatchInfo.end_sequence b) from) as [He|He].
    + rewrite IH by auto. split; intros [H|H]; auto; right; intuition lia.
    + rewrite u64_add_small by (unfold is_u64; lia). rewrite IH; [|done|lia|].
      2:{ pose proof (proj1 Hwf) as Hok. rewrite Forall_forall in Hok |- *.
          intros b' Hin. right. specialize (Hlt b' Hin). specialize (Hok b' Hin).
          unfold batch_ok in Hok. lia. }
      assert (Hgap : in_gaps (if expected <? BatchInfo.start_sequence b
                 then gaps ++ [(expected, BatchInfo.start_sequence b)] else gaps) s <->
               in_gaps gaps s \/ expected <= s < BatchInfo.start_sequence b).
      { destruct (Z.ltb_spec expected (BatchInfo.start_sequence b)); [apply in_gaps_snoc|].
        intuition lia. }
      rewrite Hgap. destruct (decide (s <= BatchInfo.end_sequence b)) as [Hse|Hse].
      * specialize (Hcl Hse). intuition lia.
      * intuition lia.
Qed.

(** [detect_gaps from] finds exactly the missing sequence numbers: a number
    at or above [from] lies in a reported interval [(expected, actual)] iff no
    batch covers it although a later batch exists. *)
Theorem detect_gaps_exact (l : list BatchInfo.t) (from s : Z) :
  wf_listing l -> from <= s ->
  in_gaps (BatchIndex.detect_gaps (BatchIndex.mk l) from) s <-> ~ covered l s /\ before_some l s.
Proof.
  intros Hwf Hs. unfold BatchIndex.detect_gaps. cbn [BatchIndex.batches].
  rewrite detect_gaps_loop_spec; [|done|lia|].
  - unfold in_gaps. set_solver by lia.
  - apply Forall_forall. intros b _. lia.
Qed.

Lemma detect_gaps_exact_witness :
  wf_listing demo_listing /\ 3 <= 7 /\
  (in_gaps (BatchIndex.detect_gaps (BatchIndex.mk demo_listing) 3) 7 <->
   ~ covered demo_listing 7 /\ before_some demo_listing 7).
Proof.
  split; [apply demo_listing_wf|]. split; [lia|].
  apply (detect_gaps_exact demo_listing 3 7 demo_listing_wf). lia.
Defined.

(** ** The iterator enumerates the covered sequence numbers in order *)

(** The sequence numbers seen by calling [current_sequence] then [advance]. *)
Fixpoint trace (fuel : nat) (it : BatchIterator.t) (ix : BatchIndex.t) : list Z :=
  match fuel with
  | O => []
  | S f =>
      match BatchIterator.current_sequence it ix with
      | None => []
      | Some s => s :: trace f (fst (BatchIterator.advance it ix)) ix
      end
  end.

(** What is left to visit from a position. *)
Definition remaining (l : list BatchInfo.t) (it : BatchIterator.t) : list Z :=
  match drop (BatchIterator.batch_idx it) l with
  | [] => []
  | b :: post =>
      seqZ (BatchInfo.start_sequence b + BatchIterator.message_offset it)
           (BatchInfo.len b - BatchIterator.message_offset it) ++ sequences post
  end.

Definition valid_pos (l : list BatchInfo.t) (it : BatchIterator.t) : Prop :=
  match l !! BatchIterator.batch_idx it with
  | Some b => 0 <= BatchIterator.message_offset it < BatchInfo.len b
  | None => BatchIterator.message_offset it = 0
  end.

Lemma remaining_start l i : remaining l (BatchIterator.mk i 0) = sequences (drop i l).
Proof.
  unfold remaining. cbn. destruct (drop i l) as [|b post]; [done|].
  unfold sequences. cbn. unfold batch_sequences. by rewrite Z.add_0_r, Z.sub_0_r.
Qed.

Lemma valid_start l i : wf_listing l -> valid_pos l (BatchIterator.mk i 0).
Proof.
  intros Hwf. unfold valid_pos. cbn. destruct (l !! i) as [b|] eqn:Hb; [|done].
  assert (batch_ok b) by (eapply wf_batch_ok; [done | by eapply list_elem_of_lookup_2]).
  rewrite batch_ok_len by done. unfold batch_ok in *. lia.
Qed.

Lemma advance_remaining l it s :
  wf_listing l -> valid_pos l it ->
  BatchIterator.current_sequence it (BatchIndex.mk l) = Some s ->
  let it' := fst (BatchIterator.advance it (BatchIndex.mk l)) in
  valid_pos l it' /\ remaining l it = s :: remaining l it'.
Proof.
  intros Hwf Hv. destruct it as [i off].
  unfold BatchIterator.current_sequence, BatchIterator.advance, BatchIterator.current_batch,
    BatchIndex.get_batch_at_index, valid_pos in *. cbn in *.
  destruct (l !! i) as [b|] eqn:Hb; [|done]. cbn. intros [= <-].
  assert (Hok : batch_ok b) by (eapply wf_batch_ok; [done | by eapply list_elem_of_lookup_2]).
  pose proof (batch_ok_len b Hok) as Hlen. unfold batch_ok, u64_max in Hok.
  rewrite !u64_add_small by (unfold is_u64; lia).
  assert (Hr : remaining l (BatchIterator.mk i off) =
    seqZ (BatchInfo.start_sequence b + off) (BatchInfo.len b - off) ++ sequences (drop (S i) l)).
  { unfold remaining. cbn. by rewrite (drop_S _ _ _ Hb). }
  rewrite Hr, seqZ_cons by lia. cbn [app].
  destruct (Z.leb_spec (BatchInfo.len b) (off + 1)) as [Hle|Hle].
  - split; [by apply valid_start|]. rewrite remaining_start. do 2 f_equal.
    by replace (Z.pred (BatchInfo.len b - off)) with 0 by lia.
  - split; [cbn; rewrite Hb; lia|]. unfold remaining. cbn. rewrite (drop_S _ _ _ Hb).
    do 3 f_equal; lia.
Qed.

Lemma trace_remaining fuel l it :
  wf_listing l -> valid_pos l it ->
  trace fuel it (BatchIndex.mk l) = take fuel (remaining l it).
Proof.
  intros Hwf. revert it. induction fuel as [|f IH]; intros it Hv; [done|]. cbn [trace].
  destruct (BatchIterator.current_sequence it _) as [s|] eqn:Es.
  - destruct (advance_remaining l it s Hwf Hv Es) as [Hv' Hr].
    rewrite Hr, IH by done. done.
  - unfold BatchIterator.current_sequence, BatchIterator.current_batch,
      BatchIndex.get_batch_at_index in Es. cbn in Es. apply fmap_None in Es.
    unfold remaining. by rewrite drop_ge by (by apply lookup_ge_None).
Qed.

Lemma filter_all_true {A} (P : A -> Prop) `{!forall x, Decision (P x)} l :
  Forall P l -> filter P l = l.
Proof. induction 1 as [|x l Hx _ IH]; [done|]. by rewrite filter_cons_True, IH. Qed.

Lemma filter_all_false {A} (P : A -> Prop) `{!forall x, Decision (P x)} l :
  Forall (fun x => ~ P x) l -> filter P l = [].
Proof. induction 1 as [|x l Hx _ IH]; [done|]. by rewrite filter_cons_False. Qed.

Lemma sequences_bounds l s x :
  wf_listing l -> Forall (fun b => s < BatchInfo.start_sequence b) l -> x ∈ sequences l -> s < x.
Proof.
  intros Hwf Hall Hx. unfold sequences in Hx.
  apply list_elem_of_In, in_concat in Hx as (c & Hc & Hxc).
  apply in_map_iff in Hc as (b & <- & Hb%list_elem_of_In).
  apply list_elem_of_In, elem_of_seqZ in Hxc.
  rewrite Forall_forall in Hall. specialize (Hall b Hb). lia.
Qed.

Lemma starting_at_loop_spec l s : forall idx,
  wf_listing l -> 0 <= s ->
  exists k off, BatchIterator.starting_at_loop idx l s = BatchIterator.mk (idx + k) off /\
    valid_pos l (BatchIterator.mk k off) /\
    remaining l (BatchIterator.mk k off) = filter (fun x => s <= x) (sequences l).
Proof.
  induction l as [|b l IH]; intros idx Hwf Hs.
  - exists 0%nat, 0. cbn. by rewrite Nat.add_0_r.
  - pose proof Hwf as Hwf0. apply wf_listing_cons in Hwf as (Hb & Hlt & Hwf).
    pose proof (batch_ok_len b Hb) as Hlen. unfold batch_ok, u64_max in Hb.
    cbn [BatchIterator.starting_at_loop].
    assert (Hrest : s <= BatchInfo.end_sequence b ->
      filter (fun x => s <= x) (sequences l) = sequences l).
    { intros Hse. apply filter_all_true, Forall_forall. intros x Hx.
      enough (BatchInfo.end_sequence b < x) by lia. by apply (sequences_bounds l). }
    assert (Hsplit : sequences (b :: l) = batch_sequences b ++ sequences l) by done.
    destruct (BatchInfo.contains b s) eqn:Ec.
    + apply contains_spec in Ec. exists 0%nat, (s - BatchInfo.start_sequence b).
      rewrite u64_sub_small, Nat.add_0_r by (unfold is_u64; lia).
      split; [done|]. split; [unfold valid_pos; cbn; lia|].
      rewrite Hsplit, filter_app, Hrest by lia. unfold remaining, batch_sequences. cbn.
      f_equal. rewrite Hlen.
      replace (BatchInfo.end_sequence b - BatchInfo.start_sequence b + 1) with
        ((s - BatchInfo.start_sequence b) + (BatchInfo.end_sequence b - s + 1)) at 2 by lia.
      rewrite seqZ_app, filter_app, filter_all_false, filter_all_true by
        (try lia; apply Forall_forall; intros x Hx; apply elem_of_seqZ in Hx; lia).
      cbn. f_equal; lia.
    + apply contains_false in Ec. destruct (Z.ltb_spec s (BatchInfo.start_sequence b)) as [Hsb|Hsb].
      * exists 0%nat, 0. rewrite Nat.add_0_r. split; [done|]. split; [by apply valid_start|].
        rewrite remaining_start, Hsplit, filter_app, Hrest by lia. cbn [drop].
        rewrite Hsplit. f_equal. symmetry. apply filter_all_true, Forall_forall.
        unfold batch_sequences. intros x Hx%elem_of_seqZ. lia.
      * destruct (IH (S idx) Hwf Hs) as (k & off & -> & Hv & Hr).
        exists (S k), off. split; [f_equal; lia|]. split; [done|].
        rewrite Hsplit, filter_app, filter_all_false; [exact Hr|].
        unfold batch_sequences. apply Forall_forall. intros x Hx%elem_of_seqZ. lia.
Qed.

(** An iterator positioned with [starting_at s] visits, by repeated
    [current_sequence]/[advance], exactly the covered sequence numbers at or
    above [s], each once and in increasing batch order, then stops: every fuel
    at least the number of covered sequences gives the complete list. *)
Theorem iterator_enumerates (l : list BatchInfo.t) (s : Z) (fuel : nat) :
  wf_listing l -> 0 <= s -> (length (sequences l) <= fuel)%nat ->
  trace fuel (BatchIterator.starting_at (BatchIndex.mk l) s) (BatchIndex.mk l)
    = filter (fun x => s <= x) (sequences l).
Proof.
  intros Hwf Hs Hf. unfold BatchIterator.starting_at. cbn [BatchIndex.batches].
  destruct (starting_at_loop_spec l s 0 Hwf Hs) as (k & off & -> & Hv & Hr). cbn [Nat.add].
  rewrite trace_remaining, Hr by done. apply take_ge.
  etransitivity; [|exact Hf]. apply length_filter.
Qed.

Lemma iterator_enumerates_witness :
  wf_listing demo_listing /\ 0 <= 4 /\ (length (sequences demo_listing) <= 10)%nat /\
  trace 10 (BatchIterator.starting_at (BatchIndex.mk demo_listing) 4) (BatchIndex.mk demo_listing)
    = [4; 5; 9; 10; 11; 12].
Proof.
  split; [apply demo_listing_wf|]. split; [lia|]. split; [apply Nat.leb_le; reflexivity|].
  rewrite (iterator_enumerates demo_listing 4 10 demo_listing_wf ltac:(lia)
             ltac:(apply Nat.leb_le; reflexivity)). reflexivity.
Defined.
