(* ===== verification/Extern.v ===== *)
(** * The third-party crates the sources call, as interfaces

    [hex], [k256], [sha2], [sha3]/[alloy], [zstd], [ciborium] and [coset] are
    not part of the repository: they are the operations of the classes below,
    and what the sources rely on is stated as the laws classes.  Theorems that
    need a law take it as an instance argument; [Reference.v] builds an
    executable instance of every class and proves its laws. *)
From Stdlib Require Import Ascii Strings.Byte.
From S2P Require Import Prelude RustStd.

(** ** hex *)
Class Hex := {
  hex_encode : bytes -> string;
  hex_decode : string -> result string bytes;
}.

Class HexLaws `{Hex} : Prop := {
  hex_decode_encode b : hex_decode (hex_encode b) = Ok b;
  (** only lower-case hexadecimal digits are produced, two per byte *)
  hex_encode_digits b : string_all is_hexdigit (hex_encode b) = true;
  hex_encode_length b : String.length (hex_encode b) = (2 * length b)%nat;
  hex_decode_length s b : hex_decode s = Ok b -> String.length s = (2 * length b)%nat;
}.

(** ** Hashes and secp256k1 (k256, sha2, sha3, alloy) *)
Class Crypto := {
  VerifyingKey : Type;
  Signature : Type;
  EncodedPoint : Type;
  (** [alloy::primitives::keccak256] and [sha3::Keccak256] *)
  keccak256 : bytes -> bytes;
  (** [sha2::Sha256] of the concatenation of the [update] calls *)
  sha256 : bytes -> bytes;
  (** [VerifyingKey::from_sec1_bytes] *)
  vk_from_sec1_bytes : bytes -> result string VerifyingKey;
  (** [to_encoded_point(false).as_bytes()] *)
  vk_to_sec1_bytes : VerifyingKey -> bytes;
  (** [EncodedPoint::from_bytes], [VerifyingKey::from_encoded_point] *)
  encoded_point_from_bytes : bytes -> result string EncodedPoint;
  vk_from_encoded_point : EncodedPoint -> result string VerifyingKey;
  (** [Signature::from_slice], [to_bytes] *)
  sig_from_slice : bytes -> result string Signature;
  sig_to_bytes : Signature -> bytes;
  (** [verify_prehash(hash, sig)]; [verify_digest] is the same check on the
      finalised digest *)
  verify_prehash : VerifyingKey -> bytes -> Signature -> bool;
}.

Class CryptoLaws `{Crypto} : Prop := {
  keccak256_length b : length (keccak256 b) = 32%nat;
  sha256_length b : length (sha256 b) = 32%nat;
  (** an uncompressed SEC1 key re-encodes to the bytes it was read from *)
  vk_sec1_roundtrip b k :
    length b = 64%nat -> vk_from_sec1_bytes (x04 :: b) = Ok k -> vk_to_sec1_bytes k = x04 :: b;
  (** the two ways to decode a SEC1 key agree *)
  vk_point_agree b k :
    vk_from_sec1_bytes b = Ok k <->
    exists p, encoded_point_from_bytes b = Ok p /\ vk_from_encoded_point p = Ok k;
  sig_bytes_roundtrip b s : sig_from_slice b = Ok s -> sig_to_bytes s = b;
  sig_slice_length b s : sig_from_slice b = Ok s -> length b = 64%nat;
}.

(** ** alloy's local signer *)
Class Signer `{Crypto} := {
  PrivateKeySigner : Type;
  AlloySignature : Type;
  (** [public_key().0]: 64 bytes *)
  signer_public_key : PrivateKeySigner -> bytes;
  (** [address()]: 20 bytes *)
  signer_address : PrivateKeySigner -> bytes;
  sign_hash_sync : PrivateKeySigner -> bytes -> result string AlloySignature;
  (** [r().to_be_bytes::<32>()], [s().to_be_bytes::<32>()], [v()] *)
  alloy_r : AlloySignature -> bytes;
  alloy_s : AlloySignature -> bytes;
  alloy_v : AlloySignature -> bool;
}.

Class SignerLaws `{Signer} : Prop := {
  signer_public_key_length k : length (signer_public_key k) = 64%nat;
  signer_address_length k : length (signer_address k) = 20%nat;
  alloy_r_length a : length (alloy_r a) = 32%nat;
  alloy_s_length a : length (alloy_s a) = 32%nat;
  (** the public key of a signer is a curve point *)
  signer_key_valid k : exists vk, vk_from_sec1_bytes (x04 :: signer_public_key k) = Ok vk;
  (** a signature of a 32-byte hash parses and verifies under the signer's key *)
  sign_verifies k h a vk :
    length h = 32%nat -> sign_hash_sync k h = Ok a ->
    vk_from_sec1_bytes (x04 :: signer_public_key k) = Ok vk ->
    exists s, sig_from_slice (alloy_r a ++ alloy_s a) = Ok s /\ verify_prehash vk h s = true;
}.

(** ** zstd (in-memory encoder and decoder) *)
Class Zstd := {
  zstd_encode : bytes -> result string bytes;
  zstd_decode : bytes -> result string bytes;
}.

Class ZstdLaws `{Zstd} : Prop := {
  zstd_roundtrip b c : zstd_encode b = Ok c -> zstd_decode c = Ok b;
  zstd_encode_total b : exists c, zstd_encode b = Ok c;
}.

(** ** CBOR values (ciborium) and COSE structures (coset) *)

(** [ciborium::Value] *)
Inductive Value :=
| VInteger (i : Z)
| VBytes (b : bytes)
| VText (s : string)
| VBool (b : bool)
| VNull
| VArray (l : list Value)
| VMap (m : list (Value * Value))
| VOther (tag : Z) (b : bytes).   (* floats, tags and simple values *)

(** [coset::Label] *)
Inductive Label := LInt (i : Z) | LText (s : string).

(** [coset::Header]: the algorithm, the entries pushed on [rest], and the fields
    the sources leave at their default. *)
Class Cose := {
  HeaderMisc : Type;
  misc_default : HeaderMisc;
}.

Module Header.
Record t `{Cose} := mk {
  alg : option Z;
  rest : list (Label * Value);
  misc : HeaderMisc;
}.
Arguments mk {_} _ _ _.
Definition default `{Cose} : t := mk None [] misc_default.
End Header.

(** [iana::Algorithm::ES256K] *)
Definition ES256K : Z := -47.

Module CoseSign1.
(** [protected.original_data], [protected.header] and the other fields. *)
Record t `{Cose} := mk {
  original_data : option bytes;
  protected : Header.t;
  unprotected : Header.t;
  payload : option bytes;
  signature : bytes;
}.
Arguments mk {_} _ _ _ _ _.
(** [CoseSign1Builder]: a built value has no original bytes. *)
Definition build `{Cose} (p u : Header.t) (payload signature : bytes) : t :=
  mk None p u (Some payload) signature.
End CoseSign1.

Class CoseCodec `{Cose} := {
  (** [ciborium::into_writer] into a [Vec] and [ciborium::from_reader] for [Value] *)
  cbor_write : Value -> result string bytes;
  cbor_read : bytes -> result string Value;
  (** [CborSerializable] for [Header] and [CoseSign1], and [tbs_data(&[])] *)
  header_to_vec : Header.t -> result string bytes;
  cose_to_vec : CoseSign1.t -> result string bytes;
  cose_from_slice : bytes -> result string CoseSign1.t;
  tbs_data : CoseSign1.t -> bytes;
}.

Definition label_value (l : Label) : Value :=
  match l with LInt i => VInteger i | LText s => VText s end.

(** The CBOR map of a header whose other fields are at their default. *)
Definition header_entries `{Cose} (h : Header.t) : list (Value * Value) :=
  match Header.alg h with Some a => [(VInteger 1, VInteger a)] | None => [] end
  ++ map (fun e => (label_value (fst e), snd e)) (Header.rest h).

(** The to-be-signed structure of RFC 8152, section 4.4. *)
Definition sig_structure (protected payload : bytes) : Value :=
  VArray [VText "Signature1"; VBytes protected; VBytes []; VBytes payload].

(** Headers the laws speak about: default fields, private-use or text labels
    without repetition, and scalar values in CBOR's range. *)
Definition entry_ok (e : Label * Value) : bool :=
  match fst e with LInt i => (- 2 ^ 63 <=? i) && (i <? 0) | LText _ => true end &&
  match snd e with
  | VInteger i => (- 2 ^ 64 <=? i) && (i <? 2 ^ 64)
  | VBytes _ | VText _ => true
  | _ => false
  end.
Definition header_ok `{Cose} (h : Header.t) : Prop :=
  Header.misc h = misc_default /\
  Forall (fun e => entry_ok e = true) (Header.rest h) /\
  NoDup (map fst (Header.rest h)).

Class CoseLaws `{CoseCodec} : Prop := {
  sig_structure_encodes p q : exists b, cbor_write (sig_structure p q) = Ok b;
  header_encodes h : header_ok h -> exists b, header_to_vec h = Ok b;
  header_roundtrip h b :
    header_ok h -> header_to_vec h = Ok b -> cbor_read b = Ok (VMap (header_entries h));
  cose_encodes p u pl sg :
    header_ok p -> header_ok u -> exists b, cose_to_vec (CoseSign1.build p u pl sg) = Ok b;
  (** decoding a built structure gives it back, with the protected header's
      bytes remembered as they were on the wire *)
  cose_roundtrip p u pl sg b :
    header_ok p -> header_ok u -> Header.alg p <> None ->
    cose_to_vec (CoseSign1.build p u pl sg) = Ok b ->
    exists hb, header_to_vec p = Ok hb /\
    cose_from_slice b = Ok (CoseSign1.mk (Some hb) p u (Some pl) sg);
  (** [tbs_data] is the Sig_structure over the protected bytes: the original
      ones when present, else the encoding of the (non-empty) header *)
  tbs_data_spec c hb :
    match CoseSign1.original_data c with
    | Some ob => hb = ob
    | None => Header.alg (CoseSign1.protected c) <> None /\
              header_to_vec (CoseSign1.protected c) = Ok hb
    end ->
    cbor_write (sig_structure hb (default [] (CoseSign1.payload c))) = Ok (tbs_data c);
}.

(** ** serde: the CBOR encoding of a derived type *)
Class Serde (A : Type) := {
  ser : A -> result string bytes;   (* [ciborium::into_writer] *)
  de : bytes -> result string A;    (* [ciborium::from_reader] *)
}.

Class SerdeLaws (A : Type) `{Serde A} (valid : A -> Prop) : Prop := {
  de_ser a b : ser a = Ok b -> de b = Ok a;
  ser_total a : valid a -> exists b, ser a = Ok b;
}.
