(* ===== verification/Net.v ===== *)
(** * HTTP responses, JSON and small string helpers the network clients share

    reqwest's send outcome and errors, serde_json as classes, and the status and
    URL helpers. *)
From Stdlib Require Import Ascii Strings.Byte.
From S2P Require Import Prelude RustStd.

(** ** reqwest and serde_json *)
Module NetError.
Record t := mk { text : string; is_timeout : bool; is_connect : bool; is_request : bool }.
End NetError.

(** [send().await]: an error, or a status with a body still to be read. *)
Inductive SendOutcome :=
| SendError (e : NetError.t)
| Response (status : Z) (body : result NetError.t bytes).

Class Json (A : Type) := {
  to_json : A -> bytes;
  from_json : bytes -> result string A;
}.
Class JsonLaws (A : Type) `{Json A} (valid : A -> Prop) : Prop :=
  from_to_json a : valid a -> from_json (to_json a) = Ok a.

(** A type that is only read from JSON ([#[derive(Deserialize)]] and
    [serde_json::from_slice]), or only written to it. *)
Class FromJson (A : Type) := from_slice : bytes -> result string A.
Class ToJson (A : Type) := to_json_bytes : A -> bytes.

Definition is_success (status : Z) : bool := (200 <=? status) && (status <? 300).
Definition NOT_FOUND : Z := 404.

(** [trim_end_matches(c)] *)
Fixpoint trim_end_matches (c : ascii) (s : string) : string :=
  match s with
  | EmptyString => EmptyString
  | String a s' =>
      match trim_end_matches c s' with
      | EmptyString => if decide (a = c) then EmptyString else String a EmptyString
      | r => String a r
      end
  end.

(** [trim_start_matches(p)] for a pattern string: every leading occurrence goes. *)
Fixpoint trim_start_matches_go (fuel : nat) (p s : string) : string :=
  match fuel with
  | O => s
  | S f => match strip_prefix p s with Some s' => trim_start_matches_go f p s' | None => s end
  end.
Definition trim_start_matches (p s : string) : string :=
  trim_start_matches_go (String.length s) p s.

(** [HTTP/1.1] status codes the handlers use. *)
Definition OK_200 : Z := 200.
Definition ACCEPTED : Z := 202.
Definition BAD_REQUEST : Z := 400.
Definition FORBIDDEN : Z := 403.
Definition INTERNAL_SERVER_ERROR : Z := 500.
Definition SERVICE_UNAVAILABLE : Z := 503.

(** The network as the key-registration clients see it: the outcome of the [n]-th
    request of a kind is a function of its URL, headers, body and number. *)
Class HttpNet := {
  http_get : string -> list (string * string) -> nat -> SendOutcome;
  http_post : string -> list (string * string) -> bytes -> nat -> SendOutcome;
  (** [reqwest::Client::builder().build()] *)
  client_build : result string unit;
  (** [Display] of a status code, and [text()] of a body that was read *)
  status_display : Z -> string;
  body_text : bytes -> string;
}.

(** [response.text().await.unwrap_or_default()] *)
Definition text_or_default `{HttpNet} (body : result NetError.t bytes) : string :=
  match body with Ok b => body_text b | _ => ""%string end.

(** [response.json().await], with the error as text. *)
Definition response_json {A} `{FromJson A} (body : result NetError.t bytes) : result string A :=
  let? b := map_err NetError.text body in from_slice b.

(** alloy's addresses: [Display] (EIP-55) and [FromStr]. *)
Class AddressText := {
  address_display : bytes -> string;
  address_parse : string -> result string bytes;
}.
