(* ===== verification/Reference.v ===== *)
(** * An executable instance of the third-party interfaces

    Self-delimiting codecs stand for CBOR/COSE, an identity frame for zstd, the
    real hexadecimal codec for [hex], and a deterministic keyed tag for the
    hashes and signatures.  Every law of [Extern.v] is proved for it, so the
    theorems that assume the laws are about something; the witnesses run on it. *)
From Stdlib Require Import Ascii Strings.String Strings.Byte.
From S2P Require Import Prelude RustStd Extern.

(** ** Self-delimiting codecs *)
Record codec (A : Type) := Codec {
  enc : A -> bytes;
  dec : bytes -> option (A * bytes);
  dec_enc : forall a r, dec (enc a ++ r) = Some (a, r);
}.
Arguments enc {A} _ _.
Arguments dec {A} _ _.
Arguments dec_enc {A} _ _ _.

Fixpoint put (b : bytes) : bytes :=
  match b with [] => [x00] | x :: b' => x01 :: x :: put b' end.
Fixpoint get (l : bytes) : option (bytes * bytes) :=
  match l with
  | x00 :: r => Some ([], r)
  | x01 :: x :: r => match get r with Some (b, r') => Some (x :: b, r') | None => None end
  | _ => None
  end.
Lemma get_put b r : get (put b ++ r) = Some (b, r).
Proof. induction b as [|x b IH]; [done|]. cbn. by rewrite IH. Qed.
Definition bytes_codec : codec bytes := Codec _ put get get_put.

Program Definition iso_codec {A B} (c : codec A) (f : B -> A) (g : A -> option B)
    (Hgf : forall b, g (f b) = Some b) : codec B := {|
  enc b := enc c (f b);
  dec l := match dec c l with
           | Some (a, r) => match g a with Some b => Some (b, r) | None => None end
           | None => None
           end;
|}.
Next Obligation. intros. cbn. by rewrite dec_enc, Hgf. Qed.

Fixpoint pos_bytes (p : positive) : bytes :=
  match p with xH => [] | xO p' => x00 :: pos_bytes p' | xI p' => x01 :: pos_bytes p' end.
Fixpoint bytes_pos (b : bytes) : positive :=
  match b with [] => xH | x00 :: b' => xO (bytes_pos b') | _ :: b' => xI (bytes_pos b') end.
Lemma bytes_pos_bytes p : bytes_pos (pos_bytes p) = p.
Proof. induction p; cbn; congruence. Qed.

Program Definition countable_codec {A} `{Countable A} : codec A :=
  iso_codec bytes_codec (fun a => pos_bytes (encode a)) (fun b => decode (bytes_pos b)) _.
Next Obligation. intros. cbn. by rewrite bytes_pos_bytes, decode_encode. Qed.

Definition Z_codec : codec Z := countable_codec.

Program Definition string_codec : codec string :=
  iso_codec bytes_codec list_byte_of_string (fun b => Some (string_of_list_byte b)) _.
Next Obligation. intros. cbn. by rewrite string_of_list_byte_of_string. Qed.

Program Definition pair_codec {A B} (ca : codec A) (cb : codec B) : codec (A * B) := {|
  enc p := enc ca (fst p) ++ enc cb (snd p);
  dec l := match dec ca l with
           | Some (a, r) => match dec cb r with Some (b, r') => Some ((a, b), r') | None => None end
           | None => None
           end;
|}.
Next Obligation. intros ???? [a b] r. cbn. by rewrite <- app_assoc, !dec_enc. Qed.

Definition enc_sum {A B} (ca : codec A) (cb : codec B) (s : A + B) : bytes :=
  match s with inl a => x00 :: enc ca a | inr b => x01 :: enc cb b end.
Definition dec_sum {A B} (ca : codec A) (cb : codec B) (l : bytes) : option ((A + B) * bytes) :=
  match l with
  | x00 :: l' => match dec ca l' with Some (a, r) => Some (inl a, r) | None => None end
  | x01 :: l' => match dec cb l' with Some (b, r) => Some (inr b, r) | None => None end
  | _ => None
  end.
Lemma dec_enc_sum {A B} (ca : codec A) (cb : codec B) s r :
  dec_sum ca cb (enc_sum ca cb s ++ r) = Some (s, r).
Proof. destruct s as [a|b]; cbn; by rewrite dec_enc. Qed.
Definition sum_codec {A B} (ca : codec A) (cb : codec B) : codec (A + B) :=
  Codec _ (enc_sum ca cb) (dec_sum ca cb) (dec_enc_sum ca cb).

Section list_codec.
Context {A : Type} (c : codec A).
Fixpoint enc_list (l : list A) : bytes :=
  match l with [] => [x00] | a :: l' => x01 :: enc c a ++ enc_list l' end.
Fixpoint dec_list (fuel : nat) (b : bytes) : option (list A * bytes) :=
  match fuel with
  | O => None
  | S f =>
      match b with
      | x00 :: r => Some ([], r)
      | x01 :: r =>
          match dec c r with
          | Some (a, r') =>
              match dec_list f r' with Some (l, r'') => Some (a :: l, r'') | None => None end
          | None => None
          end
      | _ => None
      end
  end.
Lemma dec_enc_list l : forall fuel r,
  (length (enc_list l) <= fuel)%nat -> dec_list fuel (enc_list l ++ r) = Some (l, r).
Proof.
  induction l as [|a l IH]; intros fuel r Hf; (destruct fuel as [|f]; [cbn in Hf; lia|]); cbn; [done|].
  rewrite <- app_assoc, dec_enc, IH; [done|]. cbn in Hf. rewrite length_app in Hf. lia.
Qed.
Program Definition list_codec : codec (list A) := {|
  enc := enc_list;
  dec b := dec_list (length b) b;
|}.
Next Obligation. intros. apply dec_enc_list. rewrite length_app. lia. Qed.
End list_codec.

(** ** hex *)
Definition nibble (n : Z) : ascii :=
  ascii_of_nat (Z.to_nat (if n <? 10 then 48 + n else 87 + n)).
Definition nibble_val (c : ascii) : option Z :=
  let n := Z.of_nat (nat_of_ascii c) in
  if (48 <=? n) && (n <=? 57) then Some (n - 48)
  else if (97 <=? n) && (n <=? 102) then Some (n - 87)
  else if (65 <=? n) && (n <=? 70) then Some (n - 55)
  else None.

Fixpoint ref_hex_encode (b : bytes) : string :=
  match b with
  | [] => EmptyString
  | x :: b' => String (nibble (Z_of_byte x / 16)) (String (nibble (Z_of_byte x mod 16)) (ref_hex_encode b'))
  end.
Fixpoint ref_hex_decode (s : string) : result string bytes :=
  match s with
  | EmptyString => Ok []
  | String _ EmptyString => Err "Odd number of digits"
  | String c1 (String c2 s') =>
      match nibble_val c1, nibble_val c2 with
      | Some h, Some l => let? r := ref_hex_decode s' in Ok (byte_of_Z (16 * h + l) :: r)
      | _, _ => Err "Invalid character"
      end
  end.

#[export] Instance ref_hex : Hex := {| hex_encode := ref_hex_encode; hex_decode := ref_hex_decode |}.

Lemma nibble_byte x :
  nibble_val (nibble (Z_of_byte x / 16)) = Some (Z_of_byte x / 16) /\
  nibble_val (nibble (Z_of_byte x mod 16)) = Some (Z_of_byte x mod 16) /\
  byte_of_Z (16 * (Z_of_byte x / 16) + Z_of_byte x mod 16) = x /\
  is_hexdigit (nibble (Z_of_byte x / 16)) && is_hexdigit (nibble (Z_of_byte x mod 16)) = true.
Proof. destruct x; vm_compute; auto. Qed.

Lemma ref_hex_decode_length s : forall b,
  ref_hex_decode s = Ok b -> String.length s = (2 * length b)%nat.
Proof.
  enough (forall n s, (String.length s <= n)%nat -> forall b, ref_hex_decode s = Ok b ->
    String.length s = (2 * length b)%nat) as H by (intros; eapply H; eauto).
  clear s. induction n as [|n IH]; intros [|c1 [|c2 s]] Hn b Hb; cbn in *; try lia;
    try (by injection Hb as <-); try discriminate.
  destruct (nibble_val c1), (nibble_val c2); try discriminate.
  ok_inv. subst. rewrite (IH s ltac:(lia) _ E). cbn. lia.
Qed.

#[export] Instance ref_hex_laws : HexLaws.
Proof.
  constructor.
  - intros b. induction b as [|x b IH]; [done|]. cbn in *.
    destruct (nibble_byte x) as (-> & -> & Hx & _). rewrite IH. cbn. by rewrite Hx.
  - intros b. induction b as [|x b IH]; [done|]. cbn in *.
    destruct (nibble_byte x) as (_ & _ & _ & Hd). apply andb_true_iff in Hd as [-> ->].
    by rewrite IH.
  - intros b. induction b as [|x b IH]; [done|]. cbn in *. lia.
  - intros. by apply ref_hex_decode_length.
Qed.

(** ** Hashes, keys and signatures *)
Definition toy_hash (mult : Z) (b : bytes) : bytes :=
  to_be_bytes 32 (fold_left (fun acc x => Z.land (acc * mult + Z_of_byte x + 1) (Z.ones 256)) b 7).

(** A tag of the hash and the first half of the key. *)
Definition toy_verify (vk h s : bytes) : bool := bool_decide (s = h ++ take 32 (drop 1 vk)).

Definition toy_vk (b : bytes) : result string bytes :=
  if bool_decide (length b = 65%nat /\ head b = Some x04) then Ok b else Err "signature error".

#[export] Instance ref_crypto : Crypto := {|
  VerifyingKey := bytes;
  Signature := bytes;
  EncodedPoint := bytes;
  keccak256 := toy_hash 257;
  sha256 := toy_hash 263;
  vk_from_sec1_bytes := toy_vk;
  vk_to_sec1_bytes b := b;
  encoded_point_from_bytes b := Ok b;
  vk_from_encoded_point := toy_vk;
  sig_from_slice b := if bool_decide (length b = 64%nat) then Ok b else Err "signature error";
  sig_to_bytes b := b;
  verify_prehash := toy_verify;
|}.

#[export] Instance ref_crypto_laws : CryptoLaws.
Proof.
  constructor; intros; try apply length_to_be_bytes; cbn -[toy_vk] in *.
  - unfold toy_vk in *. by ok_inv.
  - split; [eauto|]. intros (p & [= ->] & ?). done.
  - by ok_inv.
  - ok_inv. by apply bool_decide_eq_true in E.
Qed.

Definition pad32 (l : bytes) : bytes := take 32 (l ++ repeat x00 32).
Lemma pad32_length l : length (pad32 l) = 32%nat.
Proof. unfold pad32. rewrite length_take, length_app, repeat_length. lia. Qed.
Lemma pad32_id l : length l = 32%nat -> pad32 l = l.
Proof. intros H. unfold pad32. by rewrite <- H, take_app_length. Qed.

Definition toy_half (k : Z) : bytes := to_be_bytes 32 k.
Lemma toy_half_length k : length (toy_half k) = 32%nat.
Proof. apply length_to_be_bytes. Qed.
Definition toy_pubkey (k : Z) : bytes := toy_half k ++ toy_half (k + 1).

#[export] Instance ref_signer : Signer := {|
  PrivateKeySigner := Z;
  AlloySignature := (bytes * bytes)%type;
  signer_public_key := toy_pubkey;
  signer_address k := to_be_bytes 20 k;
  sign_hash_sync k h := Ok (h, toy_half k);
  alloy_r a := pad32 (fst a);
  alloy_s a := pad32 (snd a);
  alloy_v _ := false;
|}.

Lemma toy_pubkey_length k : length (toy_pubkey k) = 64%nat.
Proof. unfold toy_pubkey. by rewrite length_app, !toy_half_length. Qed.

#[export] Instance ref_signer_laws : SignerLaws.
Proof.
  constructor; cbn -[toy_pubkey toy_half to_be_bytes]; intros.
  - apply toy_pubkey_length.
  - apply length_to_be_bytes.
  - apply pad32_length.
  - apply pad32_length.
  - exists (x04 :: toy_pubkey k). unfold toy_vk. rewrite bool_decide_true; [done|].
    cbn [length head]. by rewrite toy_pubkey_length.
  - injection H0 as <-. unfold toy_vk in H1. ok_inv. cbn [fst snd].
    exists (h ++ toy_half k). rewrite !pad32_id by (done || apply toy_half_length).
    rewrite bool_decide_true by (by rewrite length_app, H, toy_half_length).
    split; [done|]. unfold toy_verify. apply bool_decide_true. cbn [drop]. rewrite drop_0.
    apply (f_equal (app h)). unfold toy_pubkey. rewrite take_app_le by (rewrite toy_half_length; lia).
    by rewrite take_ge by (rewrite toy_half_length; lia).
Qed.

(** ** zstd: a frame with the magic number and the content *)
#[export] Instance ref_zstd : Zstd := {|
  zstd_encode b := Ok (x28 :: xb5 :: x2f :: xfd :: b);
  zstd_decode b := match b with
                   | x28 :: xb5 :: x2f :: xfd :: r => Ok r
                   | _ => Err "Unknown frame descriptor"
                   end;
|}.

#[export] Instance ref_zstd_laws : ZstdLaws.
Proof. constructor; cbn; [by intros b c [= <-] | eauto]. Qed.

(** ** CBOR and COSE *)

Definition scalar : Type := (Z + (bytes + string))%type.
Definition scalar_codec : codec scalar := sum_codec Z_codec (sum_codec bytes_codec string_codec).

Definition to_scalar (v : Value) : option scalar :=
  match v with
  | VInteger i => Some (inl i)
  | VBytes b => Some (inr (inl b))
  | VText s => Some (inr (inr s))
  | _ => None
  end.
Definition of_scalar (s : scalar) : Value :=
  match s with inl i => VInteger i | inr (inl b) => VBytes b | inr (inr s) => VText s end.

Lemma of_to_scalar v s : to_scalar v = Some s -> of_scalar s = v.
Proof. destruct v; cbn; by intros [= <-]. Qed.

Fixpoint to_scalars (l : list Value) : option (list scalar) :=
  match l with
  | [] => Some []
  | v :: l' => match to_scalar v, to_scalars l' with Some s, Some r => Some (s :: r) | _, _ => None end
  end.
Lemma of_to_scalars l r : to_scalars l = Some r -> map of_scalar r = l.
Proof.
  revert r. induction l as [|v l IH]; intros r; cbn; [by intros [= <-]|].
  destruct (to_scalar v) eqn:E, (to_scalars l) eqn:E'; try done. intros [= <-]. cbn.
  by rewrite (of_to_scalar _ _ E), (IH _ eq_refl).
Qed.

Definition flat_codec : codec (list scalar + list scalar * list scalar) :=
  sum_codec (list_codec scalar_codec)
    (pair_codec (list_codec scalar_codec) (list_codec scalar_codec)).

(** Arrays of scalars, and maps from scalars to scalars as two lists. *)
Definition ref_cbor_write (v : Value) : result string bytes :=
  match v with
  | VArray l =>
      match to_scalars l with Some r => Ok (enc flat_codec (inl r)) | None => Err "unsupported" end
  | VMap m =>
      match to_scalars (map fst m), to_scalars (map snd m) with
      | Some ks, Some vs => Ok (enc flat_codec (inr (ks, vs)))
      | _, _ => Err "unsupported"
      end
  | _ => Err "unsupported"
  end.
Definition ref_cbor_read (b : bytes) : result string Value :=
  match dec flat_codec b with
  | Some (inl r, []) => Ok (VArray (map of_scalar r))
  | Some (inr (ks, vs), []) => Ok (VMap (zip (map of_scalar ks) (map of_scalar vs)))
  | _ => Err "invalid CBOR"
  end.

Lemma dec_enc_nil {A} (c : codec A) a : dec c (enc c a) = Some (a, []).
Proof. rewrite <- (app_nil_r (enc c a)). apply dec_enc. Qed.

Lemma zip_fst_snd {A B} (m : list (A * B)) : zip (map fst m) (map snd m) = m.
Proof. induction m as [|[a b] m IH]; cbn; [done|]. by rewrite IH. Qed.

Lemma ref_map_roundtrip m b : ref_cbor_write (VMap m) = Ok b -> ref_cbor_read b = Ok (VMap m).
Proof.
  unfold ref_cbor_write, ref_cbor_read.
  destruct (to_scalars (map fst m)) as [ks|] eqn:Ek; [|done].
  destruct (to_scalars (map snd m)) as [vs|] eqn:Ev; [|done]. intros <-%Ok_inj.
  rewrite dec_enc_nil, (of_to_scalars _ _ Ek), (of_to_scalars _ _ Ev). by rewrite zip_fst_snd.
Qed.

#[export] Instance ref_cose : Cose := {| HeaderMisc := unit; misc_default := tt |}.

Definition value_label (v : Value) : option Label :=
  match v with VInteger i => Some (LInt i) | VText s => Some (LText s) | _ => None end.
Fixpoint entries_rest (m : list (Value * Value)) : option (list (Label * Value)) :=
  match m with
  | [] => Some []
  | (k, v) :: m' =>
      match value_label k, entries_rest m' with
      | Some l, Some r => Some ((l, v) :: r)
      | _, _ => None
      end
  end.
Definition entries_header (m : list (Value * Value)) : option Header.t :=
  match m with
  | (VInteger 1, VInteger a) :: m' => (fun r => Header.mk (Some a) r tt) <$> entries_rest m'
  | _ => (fun r => Header.mk None r tt) <$> entries_rest m
  end.

Definition ref_header_to_vec (h : Header.t) : result string bytes :=
  ref_cbor_write (VMap (header_entries h)).
Definition header_of_bytes (b : bytes) : option Header.t :=
  match ref_cbor_read b with Ok (VMap m) => entries_header m | _ => None end.

Lemma entries_rest_labels r :
  entries_rest (map (fun e => (label_value (fst e), snd e)) r) = Some r.
Proof. induction r as [|[[i|s] v] r IH]; cbn; [done|by rewrite IH..]. Qed.

Lemma entries_header_entries h : header_ok h -> entries_header (header_entries h) = Some h.
Proof.
  intros (Hm & Hok & _). destruct h as [[a|] r []]; unfold header_entries; cbn [Header.alg Header.rest].
  - cbn. by rewrite entries_rest_labels.
  - destruct r as [|[[i|s] v] r]; [done| |]; cbn [app map fst snd label_value].
    + apply Forall_cons in Hok as [Hi _]. unfold entry_ok in Hi. cbn [fst snd] in Hi.
      bool_to_prop. unfold entries_header.
      replace (match i with 1 => _ | _ => _ end) with
        ((fun r0 => Header.mk None r0 tt) <$>
           entries_rest ((VInteger i, v) :: map (fun e => (label_value e.1, e.2)) r));
        [|destruct i as [|[]|]; try done; lia].
      cbn. by rewrite entries_rest_labels.
    + cbn. by rewrite entries_rest_labels.
Qed.

Lemma header_of_to_bytes h b :
  header_ok h -> ref_header_to_vec h = Ok b -> header_of_bytes b = Some h.
Proof.
  intros Hok Hb. unfold header_of_bytes. apply ref_map_roundtrip in Hb. rewrite Hb.
  by apply entries_header_entries.
Qed.

Lemma to_scalars_total l :
  Forall (fun v => is_Some (to_scalar v)) l -> exists r, to_scalars l = Some r.
Proof.
  induction 1 as [|v l [s Hs] _ [r Hr]]; cbn; [eauto|]. rewrite Hs, Hr. eauto.
Qed.

Lemma ref_header_encodes h : header_ok h -> exists b, ref_header_to_vec h = Ok b.
Proof.
  intros (Hm & Hok & _). unfold ref_header_to_vec, ref_cbor_write.
  assert (Hks : Forall (fun v => is_Some (to_scalar v)) (map fst (header_entries h))).
  { unfold header_entries. rewrite map_app. apply Forall_app_2.
    - destruct (Header.alg h); repeat constructor. eauto.
    - clear. induction (Header.rest h) as [|[[i|s] v] r IH]; cbn; constructor; eauto. }
  assert (Hvs : Forall (fun v => is_Some (to_scalar v)) (map snd (header_entries h))).
  { unfold header_entries. rewrite map_app. apply Forall_app_2.
    - destruct (Header.alg h); repeat constructor. eauto.
    - induction Hok as [|[l v] r He _ IH]; cbn; constructor; [|done].
      unfold entry_ok in He. cbn [fst snd] in He. apply andb_true_iff in He as [_ He].
      destruct v; cbn in *; eauto; done. }
  destruct (to_scalars_total _ Hks) as [ks ->]. destruct (to_scalars_total _ Hvs) as [vs ->]. eauto.
Qed.

(** A structure on the wire: protected bytes, unprotected map, payload, signature. *)
Definition cose_codec : codec (bytes * (bytes * (sum unit bytes * bytes))) :=
  pair_codec bytes_codec (pair_codec bytes_codec
    (pair_codec (sum_codec countable_codec bytes_codec) bytes_codec)).

Definition protected_bytes (c : CoseSign1.t) : result string bytes :=
  match CoseSign1.original_data c with
  | Some b => Ok b
  | None => ref_header_to_vec (CoseSign1.protected c)
  end.

Definition ref_cose_to_vec (c : CoseSign1.t) : result string bytes :=
  let? hb := protected_bytes c in
  let? ub := ref_header_to_vec (CoseSign1.unprotected c) in
  Ok (enc cose_codec (hb, (ub, (match CoseSign1.payload c with Some p => inr p | None => inl tt end,
                               CoseSign1.signature c)))).
Definition ref_cose_from_slice (b : bytes) : result string CoseSign1.t :=
  match dec cose_codec b with
  | Some ((hb, (ub, (pl, sg))), []) =>
      match header_of_bytes hb, header_of_bytes ub with
      | Some p, Some u =>
          Ok (CoseSign1.mk (Some hb) p u (match pl with inr q => Some q | inl _ => None end) sg)
      | _, _ => Err "invalid header"
      end
  | _ => Err "invalid COSE_Sign1"
  end.
Definition ref_tbs_data (c : CoseSign1.t) : bytes :=
  match protected_bytes c with
  | Ok hb => match ref_cbor_write (sig_structure hb (default [] (CoseSign1.payload c))) with
             | Ok b => b
             | _ => []
             end
  | _ => []
  end.

#[export] Instance ref_cose_ops : CoseCodec := {|
  cbor_write := ref_cbor_write;
  cbor_read := ref_cbor_read;
  header_to_vec := ref_header_to_vec;
  cose_to_vec := ref_cose_to_vec;
  cose_from_slice := ref_cose_from_slice;
  tbs_data := ref_tbs_data;
|}.

#[export] Instance ref_cose_laws : CoseLaws.
Proof.
  constructor; cbn [cbor_write cbor_read header_to_vec cose_to_vec cose_from_slice tbs_data ref_cose_ops].
  - intros p q. unfold sig_structure, ref_cbor_write. cbn. eauto.
  - apply ref_header_encodes.
  - intros h b _ Hb. by apply ref_map_roundtrip.
  - intros p u pl sg Hp Hu. unfold ref_cose_to_vec, protected_bytes.
    cbn [CoseSign1.build CoseSign1.original_data CoseSign1.protected CoseSign1.unprotected].
    destruct (ref_header_encodes p Hp) as [hb ->]. destruct (ref_header_encodes u Hu) as [ub ->].
    cbn [result_bind]. eauto.
  - intros p u pl sg b Hp Hu _ Hb. unfold ref_cose_to_vec, protected_bytes in Hb.
    cbn [CoseSign1.build CoseSign1.original_data CoseSign1.protected CoseSign1.unprotected
         CoseSign1.payload CoseSign1.signature] in Hb.
    destruct (ref_header_to_vec p) as [hb| |] eqn:E; [|done..]. cbn [result_bind] in Hb.
    destruct (ref_header_to_vec u) as [ub| |] eqn:E0; [|done..]. cbn [result_bind] in Hb.
    apply Ok_inj in Hb as <-. exists hb. split; [done|]. unfold ref_cose_from_slice.
    rewrite dec_enc_nil.
    by rewrite (header_of_to_bytes _ _ Hp E), (header_of_to_bytes _ _ Hu E0).
  - intros c hb Hc. unfold ref_tbs_data, protected_bytes.
    assert (match CoseSign1.original_data c with Some b => Ok b
            | None => ref_header_to_vec (CoseSign1.protected c) end = Ok (E := string) hb) as ->.
    { destruct (CoseSign1.original_data c); [by subst | apply Hc]. }
    unfold sig_structure, ref_cbor_write. cbn. done.
Qed.
