(* ===== verification/Cose.v ===== *)
(** * COSE messages (crates/synddb-shared/src/types/cbor)

    [error.rs], [verify.rs], [cose_helpers.rs] and [message.rs]: building a
    signed [COSE_Sign1] message, parsing it, and verifying it against the
    expected key. *)
From Stdlib Require Import Ascii Strings.Byte.
From S2P Require Import Prelude RustStd Extern.

(** ** error.rs *)
Inductive CborError :=
| CborErr (s : string)
| CoseErr (s : string)
| SignatureVerification (s : string)
| InvalidMessageType (t : Z)
| MissingHeader (s : string)
| Compression (s : string)
| Signing (s : string)
| InvalidBatch (s : string).

Definition CborError_to_string (e : CborError) : string :=
  match e with
  | CborErr s => "CBOR error: " +:+ s
  | CoseErr s => "COSE error: " +:+ s
  | SignatureVerification s => "Signature verification failed: " +:+ s
  | InvalidMessageType t => "Invalid message type: " +:+ int_to_string t
  | MissingHeader s => "Missing header field: " +:+ s
  | Compression s => "Compression error: " +:+ s
  | Signing s => "Signing failed: " +:+ s
  | InvalidBatch s => "Invalid batch: " +:+ s
  end.

(** ** message.rs: message types *)
Inductive CborMessageType := Changeset | Withdrawal | Snapshot.
#[export] Instance CborMessageType_eq_dec : EqDecision CborMessageType.
Proof. solve_decision. Defined.

Definition from_u8 (value : Z) : result CborError CborMessageType :=
  if value =? 0 then Ok Changeset
  else if value =? 1 then Ok Withdrawal
  else if value =? 2 then Ok Snapshot
  else Err (InvalidMessageType value).

Definition as_u8 (t : CborMessageType) : Z :=
  match t with Changeset => 0 | Withdrawal => 1 | Snapshot => 2 end.

(** [<[u8; n]>::try_from(slice)]: only the length can fail. *)
Definition try_into_array {E} (n : nat) (e : E) (b : bytes) : result E bytes :=
  if bool_decide (length b = n) then Ok b else Err e.

Module ParsedCoseMessage.
Record t := mk {
  sequence : Z;
  timestamp : Z;
  message_type : CborMessageType;
  payload : bytes;
  signature : bytes;   (* [u8; 64] *)
  pubkey : bytes;      (* [u8; 64] *)
}.
End ParsedCoseMessage.

Section cose.
Context `{HX : Hex} `{CR : Crypto} `{CS : Cose} `{CC : !CoseCodec}.

(** ** verify.rs *)

Definition verifying_key_from_bytes (pubkey : bytes) : result CborError VerifyingKey :=
  map_err (fun e => SignatureVerification ("Invalid public key: " +:+ e))
    (vk_from_sec1_bytes (x04 :: pubkey)).

(** [bytes[1..65]] panics on a shorter encoding. *)
Definition verifying_key_to_bytes {E} (key : VerifyingKey) : result E bytes :=
  let b := vk_to_sec1_bytes key in
  if (length b <? 65)%nat then Panic "range end index 65 out of range"
  else Ok (take 64 (drop 1 b)).

Definition verify_secp256k1 (data : bytes) (signature : Signature) (key : VerifyingKey)
  : result CborError unit :=
  if verify_prehash key (keccak256 data) signature then Ok tt
  else Err (SignatureVerification "Signature verification failed").

Definition signature_from_bytes (b : bytes) : result CborError Signature :=
  map_err (fun e => SignatureVerification ("Invalid signature: " +:+ e)) (sig_from_slice b).

(** ** cose_helpers.rs *)

Definition HEADER_SEQUENCE : Z := -65537.
Definition HEADER_TIMESTAMP : Z := -65538.
Definition HEADER_MSG_TYPE : Z := -65539.

(** The two headers [build_cose_sign1] prepares. *)
Definition synddb_protected (sequence timestamp : Z) (message_type : CborMessageType) : Header.t :=
  Header.mk (Some ES256K)
    [(LInt HEADER_SEQUENCE, VInteger sequence);
     (LInt HEADER_TIMESTAMP, VInteger timestamp);
     (LInt HEADER_MSG_TYPE, VInteger (as_u8 message_type))] misc_default.
Definition synddb_unprotected (pubkey_bytes : bytes) : Header.t :=
  Header.mk None [(LText "pubkey", VBytes pubkey_bytes)] misc_default.

Definition build_cose_sign1 (sequence timestamp : Z) (message_type : CborMessageType)
    (payload : bytes) (signer_pubkey : VerifyingKey)
    (sign_fn : bytes -> result CborError Signature) : result CborError bytes :=
  let? pubkey_bytes := verifying_key_to_bytes signer_pubkey in
  let protected := synddb_protected sequence timestamp message_type in
  let unprotected := synddb_unprotected pubkey_bytes in
  let tbs := tbs_data (CoseSign1.build protected unprotected payload []) in
  let? signature := sign_fn tbs in
  map_err CoseErr
    (cose_to_vec (CoseSign1.build protected unprotected payload (sig_to_bytes signature))).

(** The first entry with this label and an integer value; [n as u64] wraps. *)
Fixpoint extract_u64_loop (rest : list (Label * Value)) (label : Z) : option Z :=
  match rest with
  | [] => None
  | (LInt l, VInteger n) :: rest' =>
      if l =? label then Some (as_u64 n) else extract_u64_loop rest' label
  | _ :: rest' => extract_u64_loop rest' label
  end.
Definition extract_u64_from_header (header : Header.t) (label : Z)
  : result CborError (option Z) := Ok (extract_u64_loop (Header.rest header) label).

Fixpoint extract_pubkey_loop (rest : list (Label * Value)) : result CborError bytes :=
  match rest with
  | [] => Err (MissingHeader "pubkey")
  | (LText s, VBytes b) :: rest' =>
      if bool_decide (s = "pubkey") then
        try_into_array 64
          (CoseErr ("Invalid public key length: expected 64, got "
                    +:+ int_to_string (Z.of_nat (length b)))) b
      else extract_pubkey_loop rest'
  | _ :: rest' => extract_pubkey_loop rest'
  end.
Definition extract_pubkey_bytes (header : Header.t) : result CborError bytes :=
  extract_pubkey_loop (Header.rest header).

Definition extract_pubkey (header : Header.t) : result CborError VerifyingKey :=
  let? b := extract_pubkey_bytes header in verifying_key_from_bytes b.

Definition invalid_signature_length (sg : bytes) : CborError :=
  CoseErr ("Invalid signature length: " +:+ int_to_string (Z.of_nat (length sg))).

(** [parse_cose_sign1]; the message type is cut to a byte by [as u8]. *)
Definition parse_cose_sign1 (b : bytes) : result CborError ParsedCoseMessage.t :=
  let? cose := map_err CoseErr (cose_from_slice b) in
  let protected := CoseSign1.protected cose in
  let? oseq := extract_u64_from_header protected HEADER_SEQUENCE in
  let? sequence := ok_or (MissingHeader "sequence") oseq in
  let? ots := extract_u64_from_header protected HEADER_TIMESTAMP in
  let? timestamp := ok_or (MissingHeader "timestamp") ots in
  let? oty := extract_u64_from_header protected HEADER_MSG_TYPE in
  let? ty := ok_or (MissingHeader "message_type") oty in
  let? message_type := from_u8 (cast_u8 ty) in
  let? pubkey := extract_pubkey_bytes (CoseSign1.unprotected cose) in
  let? signature := try_into_array 64 (invalid_signature_length (CoseSign1.signature cose))
                      (CoseSign1.signature cose) in
  Ok (ParsedCoseMessage.mk sequence timestamp message_type
        (default [] (CoseSign1.payload cose)) signature pubkey).

Definition pubkey_mismatch (expected actual : bytes) : CborError :=
  SignatureVerification ("Public key mismatch: expected 0x" +:+ hex_encode expected
                         +:+ ", got 0x" +:+ hex_encode actual).

Definition verify_and_parse_cose_sign1 (b : bytes) (expected_pubkey : VerifyingKey)
  : result CborError ParsedCoseMessage.t :=
  let? cose := map_err CoseErr (cose_from_slice b) in
  let? pubkey := extract_pubkey (CoseSign1.unprotected cose) in
  let? expected_bytes := verifying_key_to_bytes expected_pubkey in
  let? actual_bytes := verifying_key_to_bytes pubkey in
  if negb (bool_decide (actual_bytes = expected_bytes)) then
    Err (pubkey_mismatch expected_bytes actual_bytes)
  else
    let tbs := tbs_data cose in
    let? signature_bytes := try_into_array 64 (invalid_signature_length (CoseSign1.signature cose))
                              (CoseSign1.signature cose) in
    let? signature := signature_from_bytes signature_bytes in
    let? _ := verify_secp256k1 tbs signature expected_pubkey in
    parse_cose_sign1 b.

Definition extract_sequence (b : bytes) : result CborError Z :=
  let? cose := map_err CoseErr (cose_from_slice b) in
  let? o := extract_u64_from_header (CoseSign1.protected cose) HEADER_SEQUENCE in
  ok_or (MissingHeader "sequence") o.

(** The header is re-encoded, not copied from the wire. *)
Definition extract_protected_header (b : bytes) : result CborError bytes :=
  let? cose := map_err CoseErr (cose_from_slice b) in
  map_err (fun e => CoseErr ("Failed to serialize protected header: " +:+ e))
    (header_to_vec (CoseSign1.protected cose)).

(** ** message.rs: [CborSignedMessage], the raw bytes of one message *)
End cose.

Module CborSignedMessage.
Record t := from_bytes { cose_bytes : bytes }.

#[export] Instance t_eq_dec : EqDecision t.
Proof. solve_decision. Defined.

Definition as_bytes (m : t) : bytes := cose_bytes m.
Definition size (m : t) : nat := length (cose_bytes m).

Section ops.
Context `{HX : Hex} `{CR : Crypto} `{CS : Cose} `{CC : !CoseCodec}.

Definition new (sequence timestamp : Z) (message_type : CborMessageType) (payload : bytes)
    (signer_pubkey : VerifyingKey) (sign_fn : bytes -> result CborError Signature)
  : result CborError t :=
  let? b := build_cose_sign1 sequence timestamp message_type payload signer_pubkey sign_fn in
  Ok (from_bytes b).

Definition verify_and_parse (m : t) (expected : VerifyingKey)
  : result CborError ParsedCoseMessage.t := verify_and_parse_cose_sign1 (cose_bytes m) expected.

Definition parse_without_verify (m : t) : result CborError ParsedCoseMessage.t :=
  parse_cose_sign1 (cose_bytes m).

(** The key bytes of the header, through a curve-point check. *)
Definition signer_pubkey_bytes (m : t) : result CborError bytes :=
  let? parsed := parse_cose_sign1 (cose_bytes m) in
  let? key := verifying_key_from_bytes (ParsedCoseMessage.pubkey parsed) in
  verifying_key_to_bytes key.

Definition sequence (m : t) : result CborError Z := extract_sequence (cose_bytes m).

Definition protected_header (m : t) : result CborError bytes :=
  extract_protected_header (cose_bytes m).
End ops.
End CborSignedMessage.

(** ** Lemmas *)

Lemma from_u8_as_u8 t : from_u8 (as_u8 t) = Ok t.
Proof. by destruct t. Qed.

Lemma from_u8_inv v t : from_u8 v = Ok t -> v = as_u8 t.
Proof. unfold from_u8. intros H. ok_inv; bool_to_prop; subst; done. Qed.

Section cose_lemmas.
Context `{HX : Hex} `{CR : Crypto} `{CS : Cose} `{CC : !CoseCodec} {CL : CryptoLaws} {KL : CoseLaws}.

(** A key and its 64 bytes. *)
Definition key_bytes (vk : VerifyingKey) (pk : bytes) : Prop :=
  length pk = 64%nat /\ verifying_key_from_bytes pk = Ok vk.

Lemma key_bytes_to_bytes {E} vk pk : key_bytes vk pk -> verifying_key_to_bytes (E := E) vk = Ok pk.
Proof using CL.
  intros [Hl Hk]. unfold verifying_key_from_bytes in Hk. ok_inv.
  pose proof (vk_sec1_roundtrip _ _ Hl E0) as Hr.
  unfold verifying_key_to_bytes. rewrite Hr. simpl. rewrite Hl. simpl.
  by rewrite drop_0, take_ge by lia.
Qed.

Lemma try_into_array_ok {E} n (e : E) b r : try_into_array n e b = Ok r -> r = b /\ length b = n.
Proof. unfold try_into_array. case_bool_decide; intros Hr; ok_inv; done. Qed.

Lemma try_into_array_id {E} n (e : E) b : length b = n -> try_into_array n e b = Ok b.
Proof. intros H. unfold try_into_array. by rewrite bool_decide_true. Qed.

(** What the code asks of a signing closure: it succeeds, and what it returns
    round-trips through its 64 bytes and verifies under the key. *)
Definition signing_ok (vk : VerifyingKey) (sign_fn : bytes -> result CborError Signature) : Prop :=
  forall data, exists s, sign_fn data = Ok s /\ sig_from_slice (sig_to_bytes s) = Ok s /\
    verify_prehash vk (keccak256 data) s = true.

Lemma synddb_protected_ok sequence timestamp ty :
  is_u64 sequence -> is_u64 timestamp -> header_ok (synddb_protected sequence timestamp ty).
Proof.
  unfold is_u64. intros Hs Ht. split; [done|]. split.
  - repeat apply Forall_cons_2; [| | |constructor]; unfold entry_ok; cbn [fst snd];
      rewrite ?(proj2 (Z.leb_le _ _)), ?(proj2 (Z.ltb_lt _ _)); try done;
      destruct ty; cbn; lia.
  - cbn. repeat (apply NoDup_cons_2; [set_solver|]). constructor.
Qed.

Lemma synddb_unprotected_ok pk : header_ok (synddb_unprotected pk).
Proof.
  split; [done|]. split; [by repeat constructor|]. cbn. apply NoDup_singleton.
Qed.

(** The wire form of a built message and what decoding it gives. *)
Lemma build_cose_sign1_spec sequence timestamp ty payload vk pk sign_fn :
  is_u64 sequence -> is_u64 timestamp -> key_bytes vk pk -> signing_ok vk sign_fn ->
  exists b hb s,
    build_cose_sign1 sequence timestamp ty payload vk sign_fn = Ok b /\
    header_to_vec (synddb_protected sequence timestamp ty) = Ok hb /\
    cose_from_slice b = Ok (CoseSign1.mk (Some hb) (synddb_protected sequence timestamp ty)
                              (synddb_unprotected pk) (Some payload) (sig_to_bytes s)) /\
    sig_from_slice (sig_to_bytes s) = Ok s /\
    (forall tbs, cbor_write (sig_structure hb payload) = Ok tbs ->
                 verify_prehash vk (keccak256 tbs) s = true).
Proof using CL KL.
  intros Hs Ht Hk Hsign. set (p := synddb_protected sequence timestamp ty).
  set (u := synddb_unprotected pk).
  assert (Hp : header_ok p) by (by apply synddb_protected_ok).
  assert (Hu : header_ok u) by apply synddb_unprotected_ok.
  destruct (Hsign (tbs_data (CoseSign1.build p u payload []))) as (s & Hsg & Hrt & Hv).
  destruct (cose_encodes p u payload (sig_to_bytes s) Hp Hu) as [b Hb].
  destruct (cose_roundtrip p u payload (sig_to_bytes s) b Hp Hu) as (hb & Hh & Hfrom); [done..|].
  exists b, hb, s. split_and!; auto.
  - unfold build_cose_sign1. rewrite (key_bytes_to_bytes _ _ Hk). cbn [result_bind].
    fold p u. rewrite Hsg. cbn [result_bind]. by rewrite Hb.
  - intros tbs Htbs.
    assert (Ht' : cbor_write (sig_structure hb payload)
                  = Ok (tbs_data (CoseSign1.build p u payload []))).
    { by apply (tbs_data_spec (CoseSign1.build p u payload []) hb). }
    rewrite Htbs in Ht'. injection Ht' as ->. exact Hv.
Qed.

Lemma parse_built b hb sequence timestamp ty pk payload sg :
  is_u64 sequence -> is_u64 timestamp -> length pk = 64%nat -> length sg = 64%nat ->
  cose_from_slice b = Ok (CoseSign1.mk (Some hb) (synddb_protected sequence timestamp ty)
                            (synddb_unprotected pk) (Some payload) sg) ->
  parse_cose_sign1 b = Ok (ParsedCoseMessage.mk sequence timestamp ty payload sg pk).
Proof.
  intros Hs Ht Hpk Hsg Hb. unfold parse_cose_sign1. rewrite Hb. cbn -[as_u64].
  rewrite (as_u64_id sequence), (as_u64_id timestamp) by done.
  replace (cast_u8 (as_u64 (as_u8 ty))) with (as_u8 ty) by (by destruct ty).
  rewrite from_u8_as_u8. cbn. unfold extract_pubkey_bytes. cbn.
  rewrite !try_into_array_id by done. done.
Qed.
End cose_lemmas.
