(* ===== verification/CborBatches.v ===== *)
(** * CBOR batches (crates/synddb-shared/src/types/cbor/batch.rs)

    The container the sequencer publishes: the signed messages, the sequence
    range, the content hash and the batch signature. *)
From Stdlib Require Import Ascii Strings.Byte.
From S2P Require Import Prelude RustStd Extern Cose.

Definition BATCH_VERSION : Z := 1.

(** The serialised form; [ByteBuf] and [serde_bytes] fields are byte strings. *)
Module CborBatchWire.
Record t := mk {
  version : Z;
  start_sequence : Z;
  end_sequence : Z;
  created_at : Z;
  content_hash : bytes;
  messages : list bytes;
  batch_signature : bytes;
  pubkey : bytes;
}.
(** The Rust field types. *)
Definition valid (w : t) : Prop :=
  0 <= version w < 256 /\ is_u64 (start_sequence w) /\ is_u64 (end_sequence w) /\
  is_u64 (created_at w).
End CborBatchWire.

Module CborBatch.
Record t := mk {
  version : Z;
  start_sequence : Z;
  end_sequence : Z;
  created_at : Z;
  content_hash : bytes;                     (* [u8; 32] *)
  messages : list CborSignedMessage.t;
  batch_signature : bytes;                  (* [u8; 64] *)
  pubkey : bytes;                           (* [u8; 64] *)
}.

Section ops.
Context `{HX : Hex} `{CR : Crypto} `{CS : Cose} `{CC : !CoseCodec} `{ZS : Zstd}.
Context `{SW : Serde CborBatchWire.t}.

(** SHA-256 fed with every message in turn. *)
Definition compute_content_hash (messages : list CborSignedMessage.t) : bytes :=
  sha256 (concat (map CborSignedMessage.as_bytes messages)).

Definition signing_preimage (start_sequence end_sequence : Z) (content_hash : bytes) : bytes :=
  to_be_bytes 8 start_sequence ++ to_be_bytes 8 end_sequence ++ content_hash.
Definition compute_signing_payload (start_sequence end_sequence : Z) (content_hash : bytes) : bytes :=
  keccak256 (signing_preimage start_sequence end_sequence content_hash).

(** [messages.first().map(|m| m.sequence()).transpose()?.ok_or_else(..)?] *)
Definition sequence_of (m : option CborSignedMessage.t) : result CborError Z :=
  match m with
  | Some m => CborSignedMessage.sequence m
  | None => Err (InvalidBatch "Cannot get sequence from message")
  end.

Definition new (messages : list CborSignedMessage.t) (created_at : Z) (signer_pubkey : bytes)
    (sign_fn : bytes -> result CborError Signature) : result CborError t :=
  match messages with
  | [] => Err (InvalidBatch "Batch cannot be empty")
  | _ =>
      let? start_sequence := sequence_of (head messages) in
      let? end_sequence := sequence_of (last messages) in
      let content_hash := compute_content_hash messages in
      let? signature := sign_fn (compute_signing_payload start_sequence end_sequence content_hash) in
      Ok (mk BATCH_VERSION start_sequence end_sequence created_at content_hash messages
             (sig_to_bytes signature) signer_pubkey)
  end.

Definition to_wire (b : t) : CborBatchWire.t :=
  CborBatchWire.mk (version b) (start_sequence b) (end_sequence b) (created_at b) (content_hash b)
    (map CborSignedMessage.as_bytes (messages b)) (batch_signature b) (pubkey b).

Definition to_cbor (b : t) : result CborError bytes := map_err CborErr (ser (to_wire b)).

Definition to_cbor_zstd (b : t) : result CborError bytes :=
  let? cbor := to_cbor b in map_err Compression (zstd_encode cbor).

Definition from_wire (w : CborBatchWire.t) : result CborError t :=
  let? content_hash := try_into_array 32 (InvalidBatch "Invalid content hash length")
                         (CborBatchWire.content_hash w) in
  let? batch_signature := try_into_array 64 (InvalidBatch "Invalid batch signature length")
                            (CborBatchWire.batch_signature w) in
  let? pubkey := try_into_array 64 (InvalidBatch "Invalid public key length: expected 64 bytes")
                   (CborBatchWire.pubkey w) in
  Ok (mk (CborBatchWire.version w) (CborBatchWire.start_sequence w) (CborBatchWire.end_sequence w)
         (CborBatchWire.created_at w) content_hash
         (map CborSignedMessage.from_bytes (CborBatchWire.messages w)) batch_signature pubkey).

Definition from_cbor (b : bytes) : result CborError t :=
  let? wire := map_err CborErr (de b) in from_wire wire.

Definition from_cbor_zstd (b : bytes) : result CborError t :=
  let? cbor := map_err Compression (zstd_decode b) in from_cbor cbor.

Definition verify_batch_signature (b : t) : result CborError unit :=
  let computed_hash := compute_content_hash (messages b) in
  if negb (bool_decide (computed_hash = content_hash b)) then
    Err (SignatureVerification "Content hash mismatch")
  else
    let payload := compute_signing_payload (start_sequence b) (end_sequence b) (content_hash b) in
    let message_hash := keccak256 payload in
    let? encoded_point := map_err (fun e => SignatureVerification ("Invalid public key: " +:+ e))
                            (encoded_point_from_bytes (x04 :: pubkey b)) in
    let? verifying_key := map_err (fun e => SignatureVerification ("Invalid public key: " +:+ e))
                            (vk_from_encoded_point encoded_point) in
    let? sig := map_err (fun e => SignatureVerification ("Invalid signature: " +:+ e))
                  (sig_from_slice (batch_signature b)) in
    if verify_prehash verifying_key message_hash sig then Ok tt
    else Err (SignatureVerification "Batch signature verification failed").

(** Each message is checked against the key of the batch; the error names the
    position of the first bad one. *)
Fixpoint verify_messages (i : nat) (key : VerifyingKey) (l : list CborSignedMessage.t)
  : result CborError unit :=
  match l with
  | [] => Ok tt
  | msg :: l' =>
      let? _ := map_err (fun e => SignatureVerification
                  ("Message " +:+ int_to_string (Z.of_nat i) +:+ " verification failed: "
                   +:+ CborError_to_string e))
                  (CborSignedMessage.verify_and_parse msg key) in
      verify_messages (S i) key l'
  end.

Definition verify_all_signatures (b : t) : result CborError unit :=
  let? _ := verify_batch_signature b in
  let? verifying_key := verifying_key_from_bytes (pubkey b) in
  verify_messages 0 verifying_key (messages b).

Definition content_hash_hex (b : t) : string := "0x" +:+ hex_encode (content_hash b).
Definition total_message_bytes (b : t) : nat := sum_list (map CborSignedMessage.size (messages b)).
Definition message_count (b : t) : nat := length (messages b).
End ops.
End CborBatch.

(** ** Lemmas *)
Section batch_lemmas.
Context `{HX : Hex} `{CR : Crypto} `{CS : Cose} `{CC : !CoseCodec} `{ZS : Zstd}.
Context `{SW : Serde CborBatchWire.t}.
Context {CL : CryptoLaws} {ZL : ZstdLaws} {SL : SerdeLaws CborBatchWire.t CborBatchWire.valid}.

(** The array types of the fields. *)
Definition batch_wf (b : CborBatch.t) : Prop :=
  length (CborBatch.content_hash b) = 32%nat /\
  length (CborBatch.batch_signature b) = 64%nat /\
  length (CborBatch.pubkey b) = 64%nat /\
  CborBatchWire.valid (CborBatch.to_wire b).

Lemma from_to_wire b : batch_wf b -> CborBatch.from_wire (CborBatch.to_wire b) = Ok b.
Proof.
  intros (Hc & Hs & Hp & _). unfold CborBatch.from_wire. cbn.
  rewrite !try_into_array_id by done. cbn.
  rewrite map_map. replace (map _ (CborBatch.messages b)) with (CborBatch.messages b).
  - by destruct b.
  - symmetry. rewrite <- (map_id (CborBatch.messages b)) at 2. apply map_ext. by intros [].
Qed.

Lemma zstd_batch_roundtrip b :
  batch_wf b ->
  exists z, CborBatch.to_cbor_zstd b = Ok z /\ CborBatch.from_cbor_zstd z = Ok b.
Proof using ZL SL.
  intros Hwf. destruct (ser_total (valid := CborBatchWire.valid) (CborBatch.to_wire b)) as [c Hc];
    [apply Hwf|].
  destruct (zstd_encode_total c) as [z Hz]. exists z.
  unfold CborBatch.to_cbor_zstd, CborBatch.from_cbor_zstd, CborBatch.to_cbor, CborBatch.from_cbor.
  rewrite Hc. cbn. rewrite Hz. cbn. split; [done|].
  rewrite (zstd_roundtrip _ _ Hz). cbn. rewrite (de_ser (valid := CborBatchWire.valid) _ _ Hc). cbn.
  by apply from_to_wire.
Qed.

Lemma verify_messages_ok i key l :
  CborBatch.verify_messages i key l = Ok tt <->
  Forall (fun m => exists p, CborSignedMessage.verify_and_parse m key = Ok p) l.
Proof.
  revert i. induction l as [|m l IH]; intros i; cbn [CborBatch.verify_messages].
  - split; [constructor | done].
  - rewrite Forall_cons, <- (IH (S i)).
    destruct (CborSignedMessage.verify_and_parse m key) as [p|e|w]; cbn.
    + split; [eauto | by intros [_ ?]].
    + split; [done | by intros [[? ?] _]].
    + split; [done | by intros [[? ?] _]].
Qed.

(** The signed bytes determine the range and the hash. *)
Lemma signing_preimage_inj s e h s' e' h' :
  is_u64 s -> is_u64 e -> is_u64 s' -> is_u64 e' ->
  CborBatch.signing_preimage s e h = CborBatch.signing_preimage s' e' h' ->
  s = s' /\ e = e' /\ h = h'.
Proof.
  unfold CborBatch.signing_preimage. intros Hs He Hs' He' H.
  apply app_inj_length in H as [H1 H]; [|by rewrite !length_to_be_bytes].
  apply app_inj_length in H as [H2 H3]; [|by rewrite !length_to_be_bytes].
  auto using u64_to_be_bytes_inj.
Qed.
End batch_lemmas.
