(* ===== verification/SignedTypes.v ===== *)
(** * Internal signed messages and batches
    (crates/synddb-shared/src/types/message.rs and types/cbor/convert.rs)

    [SignedMessage] and [SignedBatch] are what the validator works with after
    parsing CBOR/COSE; they are verified again from their own fields. *)
From Stdlib Require Import Ascii Strings.Byte.
From S2P Require Import Prelude RustStd Extern Cose CborBatches.

(** ** message.rs *)
Inductive VerificationError :=
| InvalidSignature (s : string)
| InvalidPublicKey (s : string)
| InvalidHash (s : string)
| VerificationFailed (s : string)
| PublicKeyMismatch (expected actual : string)
| SerializationFailed (s : string)
| HeaderMismatch (field outer header : string)
| ProtectedHeaderParse (s : string).

Definition VerificationError_to_string (e : VerificationError) : string :=
  match e with
  | InvalidSignature s => "Invalid signature format: " +:+ s
  | InvalidPublicKey s => "Invalid public key format: " +:+ s
  | InvalidHash s => "Invalid message hash format: " +:+ s
  | VerificationFailed s => "Signature verification failed: " +:+ s
  | PublicKeyMismatch x a => "Public key mismatch: expected " +:+ x +:+ ", got " +:+ a
  | SerializationFailed s => "Serialization failed: " +:+ s
  | HeaderMismatch f o h =>
      "Header mismatch: " +:+ f +:+ " in message (" +:+ o +:+ ") differs from protected header ("
      +:+ h +:+ ")"
  | ProtectedHeaderParse s => "Protected header parse error: " +:+ s
  end.

(** [MessageType], with the constructors of [CborMessageType] in its own name
    space, and the two conversions. *)
Module MessageType.
Inductive t := Changeset | Withdrawal | Snapshot.
#[global] Instance t_eq_dec : EqDecision t.
Proof. solve_decision. Defined.
Definition from_cbor (c : CborMessageType) : t :=
  match c with
  | Cose.Changeset => Changeset
  | Cose.Withdrawal => Withdrawal
  | Cose.Snapshot => Snapshot
  end.
Definition to_cbor (m : t) : CborMessageType :=
  match m with
  | Changeset => Cose.Changeset
  | Withdrawal => Cose.Withdrawal
  | Snapshot => Cose.Snapshot
  end.
End MessageType.

Module SignedMessage.
Record t := mk {
  sequence : Z;
  timestamp : Z;
  message_type : MessageType.t;
  payload : bytes;
  message_hash : string;
  signature : string;
  signer : string;
  cose_protected_header : bytes;
}.
(** Struct update [{ message_type, ..m }]. *)
Definition set_message_type (m : t) (ty : MessageType.t) : t :=
  mk (sequence m) (timestamp m) ty (payload m) (message_hash m) (signature m) (signer m)
     (cose_protected_header m).
End SignedMessage.

Module SignedBatch.
Record t := mk {
  start_sequence : Z;
  end_sequence : Z;
  messages : list SignedMessage.t;
  batch_signature : string;
  signer : string;
  created_at : Z;
  content_hash : bytes;   (* [u8; 32] *)
}.
End SignedBatch.

Section signed.
Context `{HX : Hex} `{CR : Crypto} `{CS : Cose} `{CC : !CoseCodec}.

(** [expect("CBOR serialization should not fail")]. *)
Definition build_cose_sig_structure {E} (protected_header payload : bytes) : result E bytes :=
  match cbor_write (sig_structure protected_header payload) with
  | Ok buf => Ok buf
  | _ => Panic "CBOR serialization should not fail"
  end.

(** The loop over the map entries: the last integer under each label wins. *)
Fixpoint header_fields_loop (sequence timestamp : option Z) (map : list (Value * Value))
  : option Z * option Z :=
  match map with
  | [] => (sequence, timestamp)
  | (VInteger label, value) :: map' =>
      if label =? HEADER_SEQUENCE then
        header_fields_loop (match value with VInteger v => Some (as_u64 v) | _ => sequence end)
          timestamp map'
      else if label =? HEADER_TIMESTAMP then
        header_fields_loop sequence
          (match value with VInteger v => Some (as_u64 v) | _ => timestamp end) map'
      else header_fields_loop sequence timestamp map'
  | _ :: map' => header_fields_loop sequence timestamp map'
  end.

Definition parse_cose_protected_header_fields (protected_header : bytes)
  : result VerificationError (Z * Z) :=
  let? header := map_err (fun e => ProtectedHeaderParse ("CBOR parse error: " +:+ e))
                   (cbor_read protected_header) in
  match header with
  | VMap m =>
      let '(sequence, timestamp) := header_fields_loop None None m in
      let? s := ok_or (ProtectedHeaderParse "Missing sequence in protected header") sequence in
      let? t := ok_or (ProtectedHeaderParse "Missing timestamp in protected header") timestamp in
      Ok (s, t)
  | _ => Err (ProtectedHeaderParse "Protected header is not a CBOR map")
  end.

(** Hex fields: optional [0x], decode, then a length check. *)
Definition decode_hex_field (mk_err : string -> VerificationError) (what : string) (s : string)
  : result VerificationError bytes :=
  let? b := map_err (fun e => mk_err ("Invalid hex: " +:+ e))
              (hex_decode (strip_prefix_or_self "0x" s)) in
  if negb (bool_decide (length b = 64%nat)) then
    Err (mk_err (what +:+ " must be 64 bytes, got " +:+ int_to_string (Z.of_nat (length b))))
  else Ok b.

Definition signature_of (b : bytes) : result VerificationError Signature :=
  map_err (fun e => InvalidSignature (CborError_to_string e)) (signature_from_bytes b).
Definition key_of (b : bytes) : result VerificationError VerifyingKey :=
  map_err (fun e => InvalidPublicKey (CborError_to_string e)) (verifying_key_from_bytes b).
Definition check_signature (data : bytes) (sg : Signature) (vk : VerifyingKey)
  : result VerificationError unit :=
  map_err (fun e => VerificationFailed (CborError_to_string e)) (verify_secp256k1 data sg vk).

Definition verify_signature (m : SignedMessage.t) : result VerificationError unit :=
  let? '(header_sequence, header_timestamp) :=
    parse_cose_protected_header_fields (SignedMessage.cose_protected_header m) in
  if negb (SignedMessage.sequence m =? header_sequence) then
    Err (HeaderMismatch "sequence" (int_to_string (SignedMessage.sequence m))
           (int_to_string header_sequence))
  else if negb (SignedMessage.timestamp m =? header_timestamp) then
    Err (HeaderMismatch "timestamp" (int_to_string (SignedMessage.timestamp m))
           (int_to_string header_timestamp))
  else
    let? sig_structure := build_cose_sig_structure (SignedMessage.cose_protected_header m)
                            (SignedMessage.payload m) in
    let? sig_bytes := decode_hex_field InvalidSignature "COSE signature" (SignedMessage.signature m) in
    let? pubkey_bytes := decode_hex_field InvalidPublicKey "Public key" (SignedMessage.signer m) in
    let? signature := signature_of sig_bytes in
    let? verifying_key := key_of pubkey_bytes in
    check_signature sig_structure signature verifying_key.

(** [SignedBatch::verify_batch_signature]: the range and the hash are signed,
    twice hashed; the messages are not re-hashed here. *)
Definition verify_batch_signature (b : SignedBatch.t) : result VerificationError unit :=
  let? pubkey_bytes := decode_hex_field InvalidPublicKey "Public key" (SignedBatch.signer b) in
  let signing_payload := keccak256 (CborBatch.signing_preimage (SignedBatch.start_sequence b)
                           (SignedBatch.end_sequence b) (SignedBatch.content_hash b)) in
  let? sig_bytes := decode_hex_field InvalidSignature "Batch signature"
                      (SignedBatch.batch_signature b) in
  let? signature := signature_of sig_bytes in
  let? verifying_key := key_of pubkey_bytes in
  check_signature signing_payload signature verifying_key.

Definition verify_all_signatures (b : SignedBatch.t) : result VerificationError unit :=
  let? _ := verify_batch_signature b in
  for_each verify_signature (SignedBatch.messages b).

(** ** convert.rs *)

Definition hex0x (b : bytes) : string := "0x" +:+ hex_encode b.

Definition compute_message_hash (payload : bytes) : bytes := keccak256 payload.

(** The conversion once the message is parsed, shared by both variants. *)
Definition signed_message_of (parsed : ParsedCoseMessage.t) (header : bytes) : SignedMessage.t :=
  SignedMessage.mk (ParsedCoseMessage.sequence parsed) (ParsedCoseMessage.timestamp parsed)
    (MessageType.from_cbor (ParsedCoseMessage.message_type parsed))
    (ParsedCoseMessage.payload parsed)
    (hex0x (compute_message_hash (ParsedCoseMessage.payload parsed)))
    (hex0x (ParsedCoseMessage.signature parsed)) (hex0x (ParsedCoseMessage.pubkey parsed)) header.

Definition to_signed_message (m : CborSignedMessage.t) (expected_pubkey : VerifyingKey)
  : result CborError SignedMessage.t :=
  let? parsed := CborSignedMessage.verify_and_parse m expected_pubkey in
  let? header := CborSignedMessage.protected_header m in
  Ok (signed_message_of parsed header).

Definition to_signed_message_unchecked (m : CborSignedMessage.t)
  : result CborError SignedMessage.t :=
  let? parsed := CborSignedMessage.parse_without_verify m in
  let? header := CborSignedMessage.protected_header m in
  Ok (signed_message_of parsed header).

Definition signed_batch_of (b : CborBatch.t) (messages : list SignedMessage.t) : SignedBatch.t :=
  SignedBatch.mk (CborBatch.start_sequence b) (CborBatch.end_sequence b) messages
    (hex0x (CborBatch.batch_signature b)) (hex0x (CborBatch.pubkey b)) (CborBatch.created_at b)
    (CborBatch.content_hash b).

Definition to_signed_batch (b : CborBatch.t) : result CborError SignedBatch.t :=
  let? _ := CborBatch.verify_batch_signature b in
  let? verifying_key := verifying_key_from_bytes (CborBatch.pubkey b) in
  let? messages := map_result (fun m => to_signed_message m verifying_key) (CborBatch.messages b) in
  Ok (signed_batch_of b messages).

Definition to_signed_batch_unchecked (b : CborBatch.t) : result CborError SignedBatch.t :=
  let? messages := map_result to_signed_message_unchecked (CborBatch.messages b) in
  Ok (signed_batch_of b messages).

End signed.

(** ** Lemmas *)
Section signed_lemmas.
Context `{HX : Hex} `{CR : Crypto} `{CS : Cose} `{CC : !CoseCodec}.
Context {HL : HexLaws} {CL : CryptoLaws} {KL : CoseLaws}.

Lemma hex0x_strip b : strip_prefix_or_self "0x" (hex0x b) = hex_encode b.
Proof. unfold strip_prefix_or_self, hex0x. by rewrite strip_prefix_app. Qed.

Lemma decode_hex0x mk_err what b :
  length b = 64%nat -> decode_hex_field mk_err what (hex0x b) = Ok b.
Proof using HL.
  intros Hl. unfold decode_hex_field. rewrite hex0x_strip, hex_decode_encode. cbn.
  by rewrite bool_decide_true.
Qed.

Lemma decode_hex_field_ok mk_err what s b :
  decode_hex_field mk_err what s = Ok b ->
  hex_decode (strip_prefix_or_self "0x" s) = Ok b /\ length b = 64%nat.
Proof.
  unfold decode_hex_field. intros H. ok_inv. bool_to_prop. subst. auto.
Qed.

Lemma header_fields_built sequence timestamp ty hb :
  is_u64 sequence -> is_u64 timestamp ->
  header_to_vec (synddb_protected sequence timestamp ty) = Ok hb ->
  parse_cose_protected_header_fields hb = Ok (sequence, timestamp).
Proof using CL KL.
  intros Hs Ht Hb. unfold parse_cose_protected_header_fields.
  rewrite (header_roundtrip _ _ (synddb_protected_ok _ _ ty Hs Ht) Hb). cbn -[as_u64].
  by rewrite !as_u64_id.
Qed.

Lemma sig_structure_total {E} hb payload :
  exists tbs, cbor_write (sig_structure hb payload) = Ok tbs /\
              build_cose_sig_structure (E := E) hb payload = Ok tbs.
Proof using KL.
  destruct (sig_structure_encodes hb payload) as [tbs Ht]. exists tbs.
  unfold build_cose_sig_structure. by rewrite Ht.
Qed.

(** A message whose COSE form verifies also verifies in its internal form. *)
Lemma converted_verifies sequence timestamp ty payload pk vk sg s hb :
  is_u64 sequence -> is_u64 timestamp -> key_bytes vk pk ->
  header_to_vec (synddb_protected sequence timestamp ty) = Ok hb ->
  sig_from_slice sg = Ok s ->
  (forall tbs, cbor_write (sig_structure hb payload) = Ok tbs ->
               verify_prehash vk (keccak256 tbs) s = true) ->
  verify_signature
    (signed_message_of (ParsedCoseMessage.mk sequence timestamp ty payload sg pk) hb) = Ok tt.
Proof using HL CL KL.
  intros Hs Ht [Hpk Hk] Hb Hsg Hv. unfold verify_signature.
  cbn [signed_message_of SignedMessage.cose_protected_header SignedMessage.sequence
       SignedMessage.timestamp SignedMessage.payload SignedMessage.signature SignedMessage.signer
       ParsedCoseMessage.sequence ParsedCoseMessage.timestamp ParsedCoseMessage.payload
       ParsedCoseMessage.signature ParsedCoseMessage.pubkey].
  rewrite (header_fields_built _ _ _ _ Hs Ht Hb). cbn [result_bind]. rewrite !Z.eqb_refl. cbn [negb].
  destruct (sig_structure_total (E := VerificationError) hb payload) as (tbs & Htbs & ->).
  cbn [result_bind].
  rewrite !decode_hex0x by (done || by eapply sig_slice_length). cbn [result_bind].
  unfold signature_of, key_of, check_signature, signature_from_bytes, verify_secp256k1.
  rewrite Hsg, Hk. cbn. by rewrite (Hv _ Htbs).
Qed.

(** A built message: its bytes, what every reader of it gets. *)
Lemma built_message_spec sequence timestamp ty payload vk pk sign_fn :
  is_u64 sequence -> is_u64 timestamp -> key_bytes vk pk -> signing_ok vk sign_fn ->
  exists m sg hb,
    CborSignedMessage.new sequence timestamp ty payload vk sign_fn = Ok m /\
    CborSignedMessage.sequence m = Ok sequence /\
    CborSignedMessage.parse_without_verify m
      = Ok (ParsedCoseMessage.mk sequence timestamp ty payload sg pk) /\
    CborSignedMessage.verify_and_parse m vk
      = Ok (ParsedCoseMessage.mk sequence timestamp ty payload sg pk) /\
    CborSignedMessage.protected_header m = Ok hb /\
    verify_signature
      (signed_message_of (ParsedCoseMessage.mk sequence timestamp ty payload sg pk) hb) = Ok tt.
Proof using HL CL KL.
  intros Hs Ht Hk Hsign.
  destruct (build_cose_sign1_spec sequence timestamp ty payload vk pk sign_fn)
    as (b & hb & s & Hb & Hh & Hfrom & Hsg & Hv); [done..|].
  pose proof (sig_slice_length _ _ Hsg) as Hlen. pose proof Hk as [Hpk Hvk].
  assert (Hparse : parse_cose_sign1 b
            = Ok (ParsedCoseMessage.mk sequence timestamp ty payload (sig_to_bytes s) pk))
    by (by eapply parse_built).
  exists (CborSignedMessage.from_bytes b), (sig_to_bytes s), hb. split_and!.
  - unfold CborSignedMessage.new. by rewrite Hb.
  - unfold CborSignedMessage.sequence, extract_sequence. cbn. rewrite Hfrom. cbn -[as_u64].
    by rewrite as_u64_id.
  - exact Hparse.
  - unfold CborSignedMessage.verify_and_parse, verify_and_parse_cose_sign1. cbn [CborSignedMessage.cose_bytes].
    rewrite Hfrom. cbn [map_err result_bind CoseSign1.unprotected CoseSign1.signature].
    unfold extract_pubkey, extract_pubkey_bytes. cbn [synddb_unprotected Header.rest extract_pubkey_loop].
    rewrite bool_decide_true, try_into_array_id by done. cbn [result_bind].
    rewrite Hvk. cbn [result_bind]. rewrite !(key_bytes_to_bytes vk pk Hk). cbn [result_bind].
    rewrite bool_decide_true by done. cbn [negb]. rewrite try_into_array_id by done. cbn [result_bind].
    unfold signature_from_bytes, verify_secp256k1. rewrite Hsg. cbn [map_err result_bind].
    set (cose := CoseSign1.mk (Some hb) _ _ _ _).
    rewrite (Hv (tbs_data cose)); [done|]. by apply (tbs_data_spec cose hb).
  - unfold CborSignedMessage.protected_header, extract_protected_header. cbn.
    rewrite Hfrom. cbn. by rewrite Hh.
  - by eapply converted_verifies.
Qed.
End signed_lemmas.
