(* ===== verification/Inbox.v ===== *)
(** * Key manager and inbox
    (crates/synddb-shared/src/keys.rs and crates/synddb-sequencer/src/inbox.rs)

    The inbox assigns sequence numbers from an atomic counter, compresses and
    signs each message, and signs withdrawals for the Bridge contract. *)
From Stdlib Require Import Ascii Strings.Byte.
From S2P Require Import Prelude RustStd Extern Cose CborBatches SignedTypes.

(** ** keys.rs *)
Module EvmKeyManager.
Section ops.
Context `{CR : Crypto} `{SG : !Signer}.

Record t := mk { signer : PrivateKeySigner }.

(** [generate] draws [random] from the operating system. *)
Definition generate (random : PrivateKeySigner) : t := mk random.
Definition address (km : t) : bytes := signer_address (signer km).
Definition public_key (km : t) : bytes := signer_public_key (signer km).

(** [KeyError::SigningFailed], by its text. *)
Definition sign_hash_sync (km : t) (hash : bytes) : result string AlloySignature :=
  map_err (fun e => "Signing failed: " +:+ e) (Extern.sign_hash_sync (signer km) hash).
Definition sign_raw_sync (km : t) (hash : bytes) : result string AlloySignature :=
  sign_hash_sync km hash.
Definition compute_content_hash (data : bytes) : bytes := sha256 data.
End ops.
End EvmKeyManager.

(** ** inbox.rs *)
Inductive InboxError :=
| InboxSigning (s : string)
| InboxCbor (e : CborError)
| InboxInvalidPublicKey (s : string).

Module SequenceReceipt.
Record t := mk {
  sequence : Z;
  timestamp : Z;
  message_hash : string;
  signature : string;
  signer : string;
}.
End SequenceReceipt.

Module BridgeSignature.
Record t := mk {
  message_id : string;
  message_hash : string;
  signature : string;
  signer : string;
}.
End BridgeSignature.

Module Inbox.
Section ops.
Context `{HX : Hex} `{CR : Crypto} `{SG : !Signer} `{CS : Cose} `{CC : !CoseCodec} `{ZS : Zstd}.

(** The counter holds the next number to assign. *)
Record t := mk { sequence : Z; key_manager : EvmKeyManager.t }.

Definition with_start_sequence (km : EvmKeyManager.t) (start_sequence : Z) : t :=
  mk start_sequence km.
Definition new (km : EvmKeyManager.t) : t := with_start_sequence km 0.
Definition current_sequence (ib : t) : Z := sequence ib.
Definition signer_address (ib : t) : bytes := EvmKeyManager.address (key_manager ib).

(** [expect] on every step of the encoder. *)
Definition compress_payload {E} (data : bytes) : result E bytes :=
  match zstd_encode data with Ok c => Ok c | _ => Panic "Failed to finish compression" end.

(** r || s, 32 bytes each. *)
Definition sign_cose (km : EvmKeyManager.t) (data : bytes) : result CborError Signature :=
  let hash := keccak256 data in
  let? alloy_sig := map_err Signing (EvmKeyManager.sign_raw_sync km hash) in
  signature_from_bytes (alloy_r alloy_sig ++ alloy_s alloy_sig).

(** [sequence_message] after the counter was advanced: [sequence] is the number
    taken, [timestamp] the clock. *)
Definition sign_sequenced (km : EvmKeyManager.t) (sequence timestamp : Z)
    (message_type : CborMessageType) (payload : bytes)
  : result InboxError (CborSignedMessage.t * SequenceReceipt.t) :=
  let? compressed_payload := compress_payload payload in
  let message_hash := keccak256 compressed_payload in
  let pubkey_bytes := EvmKeyManager.public_key km in
  let? verifying_key := map_err (fun e => InboxInvalidPublicKey (CborError_to_string e))
                          (verifying_key_from_bytes pubkey_bytes) in
  let? cbor_message := map_err InboxCbor
      (CborSignedMessage.new sequence timestamp message_type compressed_payload verifying_key
         (sign_cose km)) in
  let? parsed := map_err InboxCbor (CborSignedMessage.parse_without_verify cbor_message) in
  Ok (cbor_message,
      SequenceReceipt.mk sequence timestamp (hex0x message_hash)
        (hex0x (ParsedCoseMessage.signature parsed)) (hex0x pubkey_bytes)).

(** [sequence_message]: [fetch_add] first, so the number is consumed whatever
    happens next. *)
Definition sequence_message (ib : t) (now : Z) (message_type : CborMessageType) (payload : bytes)
  : t * result InboxError (CborSignedMessage.t * SequenceReceipt.t) :=
  let seq := sequence ib in
  let ib' := mk (u64_add seq 1) (key_manager ib) in
  (ib', sign_sequenced (key_manager ib) seq now message_type payload).

(** The three cases of the message id: 32 bytes of hex, other hex (decoded, then
    left-padded or cut to 32 bytes), anything else (hashed). *)
Definition parse_message_id (message_id : string) : result InboxError bytes :=
  let message_id_hex := strip_prefix_or_self "0x" message_id in
  let decode := map_err (fun e => InboxSigning ("Invalid message_id hex: " +:+ e))
                  (hex_decode message_id_hex) in
  if bool_decide (String.length message_id_hex = 64%nat) && string_all is_hexdigit message_id_hex then
    let? b := decode in
    if bool_decide (length b = 32%nat) then Ok b else Panic "B256::from_slice length"
  else if string_all is_hexdigit message_id_hex
          && negb (bool_decide (message_id_hex = EmptyString)) then
    let? b := decode in
    Ok (repeat x00 (32 - Nat.min (length b) 32) ++ take (Nat.min (length b) 32) b)
  else Ok (keccak256 (as_bytes message_id)).

Definition parse_target (target_address : string) : result InboxError bytes :=
  let? b := map_err (fun e => InboxSigning ("Invalid target address hex: " +:+ e))
              (hex_decode (strip_prefix_or_self "0x" target_address)) in
  if negb (bool_decide (length b = 20%nat)) then
    Err (InboxSigning ("Invalid target address length: expected 20 bytes, got "
                       +:+ int_to_string (Z.of_nat (length b))))
  else Ok b.

(** [abi.encodePacked(messageId, targetAddress, keccak256(payload), amount)] *)
Definition bridge_packed (id target payload_hash : bytes) (amount : Z) : bytes :=
  id ++ target ++ payload_hash ++ to_be_bytes 32 amount.

(** EIP-191: the 28-byte prefix before a 32-byte hash. *)
Definition eip191_prefix : bytes := x19 :: as_bytes "Ethereum Signed Message:" ++ [x0a; x33; x32].
Definition eth_signed_hash (h : bytes) : bytes := keccak256 (eip191_prefix ++ h).

Definition sign_bridge_withdrawal (ib : t) (message_id target_address : string) (payload : bytes)
    (native_token_amount : string) : result InboxError BridgeSignature.t :=
  let? message_id_b256 := parse_message_id message_id in
  let? target_address_bytes := parse_target target_address in
  let? amount := map_err (fun e => InboxSigning ("Invalid amount: " +:+ e))
                   (parse_u128 native_token_amount) in
  let payload_hash := keccak256 payload in
  let bridge_message_hash :=
    keccak256 (bridge_packed message_id_b256 target_address_bytes payload_hash amount) in
  let? alloy_sig := map_err InboxSigning
      (EvmKeyManager.sign_raw_sync (key_manager ib) (eth_signed_hash bridge_message_hash)) in
  let sig_bytes := alloy_r alloy_sig ++ alloy_s alloy_sig
                   ++ [if alloy_v alloy_sig then x1c else x1b] in
  Ok (BridgeSignature.mk (hex0x message_id_b256) (hex0x bridge_message_hash) (hex0x sig_bytes)
        (hex0x (EvmKeyManager.address (key_manager ib)))).

Definition verify_receipt_signer (receipt : SequenceReceipt.t) (expected_pubkey : bytes) : bool :=
  match hex_decode (strip_prefix_or_self "0x" (SequenceReceipt.signer receipt)) with
  | Ok b => bool_decide (b = expected_pubkey)
  | _ => false
  end.
End ops.
Arguments t {_ _}.
End Inbox.
Arguments EvmKeyManager.t {_ _}.

(** ** Lemmas *)
Section inbox_lemmas.
Context `{HX : Hex} `{CR : Crypto} `{SG : !Signer} `{CS : Cose} `{CC : !CoseCodec} `{ZS : Zstd}.
Context {HL : HexLaws} {CL : CryptoLaws} {GL : SignerLaws} {KL : CoseLaws} {ZL : ZstdLaws}.

(** The signer answers: the case where the source returns without a signing error. *)
Definition signer_available (km : EvmKeyManager.t) : Prop :=
  forall h, length h = 32%nat -> exists a, Extern.sign_hash_sync (EvmKeyManager.signer km) h = Ok a.

Lemma manager_key km : exists vk, key_bytes vk (EvmKeyManager.public_key km).
Proof using GL.
  destruct (signer_key_valid (EvmKeyManager.signer km)) as [vk Hvk]. exists vk.
  split; [apply signer_public_key_length|]. unfold verifying_key_from_bytes, EvmKeyManager.public_key.
  by rewrite Hvk.
Qed.

Lemma sign_cose_ok km vk :
  signer_available km -> key_bytes vk (EvmKeyManager.public_key km) ->
  signing_ok vk (Inbox.sign_cose km).
Proof using CL GL.
  intros Hav [_ Hk] data. unfold verifying_key_from_bytes, EvmKeyManager.public_key in Hk.
  destruct (vk_from_sec1_bytes _) as [vk'| |] eqn:Ev in Hk; [|done..]. apply Ok_inj in Hk as ->.
  destruct (Hav (keccak256 data) (keccak256_length _)) as [sg Hsg].
  destruct (sign_verifies _ _ _ _ (keccak256_length data) Hsg Ev) as (s & Hs & Hv).
  exists s. unfold Inbox.sign_cose, EvmKeyManager.sign_raw_sync, EvmKeyManager.sign_hash_sync.
  rewrite Hsg. cbn. unfold signature_from_bytes. rewrite Hs. cbn.
  split; [done|]. split; [|done]. by rewrite (sig_bytes_roundtrip _ _ Hs).
Qed.

(** Sequencing succeeds, and the message and its receipt say the same thing. *)
Lemma sign_sequenced_spec km sequence now ty payload vk :
  is_u64 sequence -> is_u64 now -> signer_available km ->
  key_bytes vk (EvmKeyManager.public_key km) ->
  exists m sg c hb,
    zstd_encode payload = Ok c /\ zstd_decode c = Ok payload /\
    Inbox.sign_sequenced km sequence now ty payload
      = Ok (m, SequenceReceipt.mk sequence now (hex0x (keccak256 c)) (hex0x sg)
                 (hex0x (EvmKeyManager.public_key km))) /\
    CborSignedMessage.sequence m = Ok sequence /\
    CborSignedMessage.parse_without_verify m
      = Ok (ParsedCoseMessage.mk sequence now ty c sg (EvmKeyManager.public_key km)) /\
    CborSignedMessage.verify_and_parse m vk
      = Ok (ParsedCoseMessage.mk sequence now ty c sg (EvmKeyManager.public_key km)) /\
    CborSignedMessage.protected_header m = Ok hb /\
    verify_signature (signed_message_of
      (ParsedCoseMessage.mk sequence now ty c sg (EvmKeyManager.public_key km)) hb) = Ok tt.
Proof using HL CL GL KL ZL.
  intros Hs Hn Hav Hk. destruct (zstd_encode_total payload) as [c Hc].
  destruct (built_message_spec sequence now ty c vk (EvmKeyManager.public_key km)
              (Inbox.sign_cose km)) as (m & sg & hb & Hm & Hseq & Hp & Hv & Hh & Hsm);
    auto using sign_cose_ok.
  exists m, sg, c, hb. split_and!; auto; [by eapply zstd_roundtrip|].
  unfold Inbox.sign_sequenced, Inbox.compress_payload. rewrite Hc. cbn [result_bind].
  rewrite (proj2 Hk). cbn [map_err result_bind]. rewrite Hm. cbn [map_err result_bind].
  rewrite Hp. done.
Qed.
End inbox_lemmas.
