(* ===== verification/InboxProps.v ===== *)
(** * Properties of the inbox
    (crates/synddb-sequencer/src/inbox.rs, called concurrently by the HTTP handlers)

    [Calls] models any number of concurrent [sequence_message] calls as a step
    relation: the atomic [fetch_add], and the rest of the call, interleaved freely. *)
From Stdlib Require Import Ascii Strings.Byte.
From stdpp Require Import relations.
From S2P Require Import Prelude RustStd Extern Reference Cose CborBatches SignedTypes Inbox.

Module Calls.
Section calls.
Context `{HX : Hex} `{CR : Crypto} `{SG : !Signer} `{CS : Cose} `{CC : !CoseCodec} `{ZS : Zstd}.

Definition request : Type := CborMessageType * bytes.
Definition outcome : Type := result InboxError (CborSignedMessage.t * SequenceReceipt.t).

Inductive progress :=
| Waiting
| Holding (sequence : Z)
| Finished (sequence now : Z) (r : outcome).

(** The shared inbox and one entry per call. *)
Record system := mk { inbox : Inbox.t; calls : list (request * progress) }.

Definition start (km : EvmKeyManager.t) (n : Z) (rs : list request) : system :=
  mk (Inbox.with_start_sequence km n) (map (fun r => (r, Waiting)) rs).

(** The atomic increment, and the rest of the call at clock [now]. *)
Definition fetch_add (ib : Inbox.t) : Inbox.t * Z :=
  (Inbox.mk (u64_add (Inbox.sequence ib) 1) (Inbox.key_manager ib), Inbox.sequence ib).
Definition finish (ib : Inbox.t) (n now : Z) (rq : request) : outcome :=
  Inbox.sign_sequenced (Inbox.key_manager ib) n now (fst rq) (snd rq).

Inductive step : system -> system -> Prop :=
| step_fetch s i rq :
    calls s !! i = Some (rq, Waiting) ->
    step s (mk (fst (fetch_add (inbox s))) (<[i := (rq, Holding (snd (fetch_add (inbox s))))]> (calls s)))
| step_finish s i rq n now :
    calls s !! i = Some (rq, Holding n) ->
    step s (mk (inbox s) (<[i := (rq, Finished n now (finish (inbox s) n now rq))]> (calls s))).

(** A call that runs alone takes both steps: the function of the source. *)
Lemma sequence_message_steps ib now rq :
  Inbox.sequence_message ib now (fst rq) (snd rq)
  = (fst (fetch_add ib), finish (fst (fetch_add ib)) (snd (fetch_add ib)) now rq).
Proof. done. Qed.

(** The number a call has taken, if any. *)
Definition taken1 (c : request * progress) : option Z :=
  match snd c with Waiting => None | Holding n => Some n | Finished n _ _ => Some n end.
Definition taken (s : system) : list Z := omap taken1 (calls s).

Definition finished_ok (km : EvmKeyManager.t) (c : request * progress) : Prop :=
  match snd c with
  | Finished n now r => r = Inbox.sign_sequenced km n now (fst (fst c)) (snd (fst c))
  | _ => True
  end.

Definition inv (km : EvmKeyManager.t) (n : Z) (len : nat) (s : system) : Prop :=
  length (calls s) = len /\ Inbox.key_manager (inbox s) = km /\
  Inbox.sequence (inbox s) = n + Z.of_nat (length (taken s)) /\
  taken s ≡ₚ seqZ n (Z.of_nat (length (taken s))) /\
  Forall (finished_ok km) (calls s).

Lemma taken_insert i x y l :
  l !! i = Some x ->
  omap taken1 (<[i := y]> l) = omap taken1 (take i l) ++ omap taken1 [y] ++ omap taken1 (drop (S i) l)
  /\ omap taken1 l = omap taken1 (take i l) ++ omap taken1 [x] ++ omap taken1 (drop (S i) l).
Proof.
  intros Hi. pose proof (lookup_lt_Some _ _ _ Hi) as Hlt.
  rewrite insert_take_drop by done. split; [|rewrite <- (take_drop_middle l i x Hi) at 1];
    rewrite <- (app_nil_l (drop _ _)), app_comm_cons; by rewrite !omap_app.
Qed.

Lemma taken_le l : (length (omap taken1 l) <= length l)%nat.
Proof. induction l as [|c l IH]; [done|]. cbn. destruct (taken1 c); cbn; lia. Qed.

Lemma inv_start km n rs : inv km n (length rs) (start km n rs).
Proof.
  assert (Ht : taken (start km n rs) = []).
  { unfold taken. cbn. induction rs as [|r rs IH]; [done|]. exact IH. }
  unfold inv. rewrite Ht. cbn. rewrite length_map. split_and!; try done; [lia|].
  apply Forall_fmap, Forall_true. done.
Qed.

Lemma inv_step km n len s s' :
  0 <= n -> n + Z.of_nat len < 2 ^ 64 -> inv km n len s -> step s s' -> inv km n len s'.
Proof.
  intros Hn Hb (Hlen & Hkm & Hseq & Hperm & Hfin) Hstep.
  destruct Hstep as [s i rq Hi | s i rq m now Hi]; unfold inv; cbn [inbox calls];
    rewrite length_insert.
  - destruct (taken_insert i _ (rq, Holding (Inbox.sequence (inbox s))) _ Hi) as [Hnew Hold].
    cbn in Hnew, Hold. fold (taken s) in Hold.
    assert (Hp : taken (mk (fst (fetch_add (inbox s)))
                   (<[i:=(rq, Holding (snd (fetch_add (inbox s))))]> (calls s)))
                 ≡ₚ taken s ++ [n + Z.of_nat (length (taken s))]).
    { unfold taken at 1. cbn [calls snd fetch_add]. rewrite Hnew, <- Hseq, Hold.
      rewrite <- !app_assoc. apply Permutation_app_head. apply Permutation_cons_append. }
    rewrite (Permutation_length Hp), length_app. cbn [length fetch_add fst Inbox.key_manager Inbox.sequence].
    split_and!; auto.
    + rewrite u64_add_small; [lia|]. unfold is_u64.
      pose proof (taken_le (take i (calls s))). pose proof (taken_le (drop (S i) (calls s))).
      pose proof (lookup_lt_Some _ _ _ Hi).
      assert (length (taken s) < length (calls s))%nat; [|lia].
      rewrite Hold, length_app. rewrite length_take in *. rewrite length_drop in *. lia.
    + rewrite Hp, Nat2Z.inj_add, seqZ_app by lia. rewrite Hperm at 1. done.
    + by apply Forall_insert.
  - destruct (taken_insert i _ (rq, Finished m now (finish (inbox s) m now rq)) _ Hi) as [Hnew Hold].
    cbn in Hnew, Hold.
    assert (Ht : taken (mk (inbox s) (<[i:=(rq, Finished m now (finish (inbox s) m now rq))]> (calls s)))
                 = taken s) by (unfold taken; cbn [calls]; by rewrite Hnew, Hold).
    rewrite Ht. split_and!; auto.
    apply Forall_insert; [done|]. cbn. unfold finish. by rewrite Hkm.
Qed.

Lemma inv_reachable km n rs s :
  0 <= n -> n + Z.of_nat (length rs) < 2 ^ 64 -> rtc step (start km n rs) s ->
  inv km n (length rs) s.
Proof.
  intros Hn Hb Hr. revert s Hr. apply rtc_ind_r; [apply inv_start|].
  intros y z _ Hyz Hy. by eapply inv_step.
Qed.

Definition is_finished (c : request * progress) : bool :=
  match snd c with Finished _ _ _ => true | _ => false end.

Lemma taken_all_finished l :
  Forall (fun c => is_finished c = true) l -> length (omap taken1 l) = length l.
Proof. induction 1 as [|[rq []] l Hc _ IH]; cbn in *; congruence. Qed.

(** C3. However concurrent [sequence_message] calls interleave, the sequence
    numbers they hold are pairwise distinct and are exactly the numbers between
    the start sequence and the counter, so none is skipped; every finished call
    returned what the source computes for the number it took; and once all calls
    have finished, [n] requests hold the [n] numbers from the start sequence. *)
Theorem concurrent_sequences_gap_free km n rs s :
  0 <= n -> n + Z.of_nat (length rs) < 2 ^ 64 ->
  rtc step (start km n rs) s ->
  NoDup (taken s) /\
  taken s ≡ₚ seqZ n (Inbox.current_sequence (inbox s) - n) /\
  Forall (finished_ok km) (calls s) /\
  (Forall (fun c => is_finished c = true) (calls s) ->
   taken s ≡ₚ seqZ n (Z.of_nat (length rs))).
Proof.
  intros Hn Hb Hr. destruct (inv_reachable km n rs s Hn Hb Hr) as (Hl & _ & Hseq & Hp & Hf).
  split_and!; auto.
  - rewrite Hp. apply NoDup_seqZ.
  - unfold Inbox.current_sequence. rewrite Hseq. replace (_ - n) with (Z.of_nat (length (taken s))) by lia. done.
  - intros Hall. rewrite <- Hl, <- (taken_all_finished _ Hall). exact Hp.
Qed.
End calls.
End Calls.

(** Two calls on the reference instance: the second takes its number first and
    finishes while the first still holds its own. *)
Definition demo_requests : list Calls.request := [(Changeset, [x01]); (Snapshot, [x02; x03])].
Definition demo_km : EvmKeyManager.t := EvmKeyManager.mk 5.

Lemma demo_run :
  exists s, rtc Calls.step (Calls.start demo_km 7 demo_requests) s /\
    Inbox.current_sequence (Calls.inbox s) = 9 /\ Calls.taken s = [8; 7].
Proof.
  eexists. split.
  - eapply rtc_l; [eapply (Calls.step_fetch _ 1%nat); reflexivity|].
    eapply rtc_l; [eapply (Calls.step_fetch _ 0%nat); reflexivity|].
    eapply rtc_l; [eapply (Calls.step_finish _ 1%nat _ _ 100); reflexivity|].
    apply rtc_refl.
  - split; reflexivity.
Defined.

Lemma concurrent_sequences_gap_free_witness :
  exists s, Calls.taken s = [8; 7] /\ Calls.taken s ≡ₚ seqZ 7 2 /\ NoDup (Calls.taken s).
Proof.
  destruct demo_run as (s & Hs & Hc & Ht). exists s. split; [done|].
  destruct (Calls.concurrent_sequences_gap_free demo_km 7 demo_requests s) as (Hnd & Hp & _);
    [lia | cbn; lia | exact Hs |].
  rewrite Hc in Hp. auto.
Defined.

(** ** One call *)
Section one_call.
Context `{HX : Hex} `{CR : Crypto} `{SG : !Signer} `{CS : Cose} `{CC : !CoseCodec} `{ZS : Zstd}.
Context {HL : HexLaws} {CL : CryptoLaws} {GL : SignerLaws} {KL : CoseLaws} {ZL : ZstdLaws}.

(** [sequence_message] advances the counter by one and, when the signer
    answers, returns a message and a receipt that agree: the message carries the
    number taken, the clock, the type and a payload that decompresses to the
    caller's bytes; it verifies under the inbox's key; and the receipt holds the
    same number and time, the hash of that compressed payload, the message's own
    signature and the inbox's key, which [verify_receipt_signer] accepts. *)
Theorem sequence_message_correct ib now ty payload :
  is_u64 (Inbox.current_sequence ib) -> is_u64 now -> signer_available (Inbox.key_manager ib) ->
  exists m sg c vk,
    let pk := EvmKeyManager.public_key (Inbox.key_manager ib) in
    let n := Inbox.current_sequence ib in
    let receipt := SequenceReceipt.mk n now (hex0x (keccak256 c)) (hex0x sg) (hex0x pk) in
    Inbox.sequence_message ib now ty payload
      = (Inbox.mk (u64_add n 1) (Inbox.key_manager ib), Ok (m, receipt)) /\
    zstd_decode c = Ok payload /\
    verifying_key_from_bytes pk = Ok vk /\
    CborSignedMessage.verify_and_parse m vk = Ok (ParsedCoseMessage.mk n now ty c sg pk) /\
    Inbox.verify_receipt_signer receipt pk = true.
Proof using HL CL GL KL ZL.
  intros Hn Hnow Hav. destruct (manager_key (Inbox.key_manager ib)) as [vk Hk].
  destruct (sign_sequenced_spec (Inbox.key_manager ib) (Inbox.current_sequence ib) now ty payload vk)
    as (m & sg & c & hb & Hc & Hd & Hs & _ & _ & Hv & _); [done..|].
  exists m, sg, c, vk. cbv zeta. split_and!; auto.
  - unfold Inbox.sequence_message. unfold Inbox.current_sequence in Hs. by rewrite Hs.
  - apply Hk.
  - unfold Inbox.verify_receipt_signer. cbn [SequenceReceipt.signer].
    rewrite hex0x_strip, hex_decode_encode. by apply bool_decide_true.
Qed.

(** A message whose signing fails returns the signing error, yet its
    sequence number is spent: the next message gets the number after it, so the
    published sequence has a gap.  (The doc of [sequence_message] says the
    assignment and the signature are one atomic operation.) *)
Theorem failed_signing_burns_sequence ib now ty payload e :
  is_u64 (Inbox.current_sequence ib) -> is_u64 now ->
  (forall h, EvmKeyManager.sign_raw_sync (Inbox.key_manager ib) h = Err e) ->
  Inbox.sequence_message ib now ty payload
    = (Inbox.mk (u64_add (Inbox.current_sequence ib) 1) (Inbox.key_manager ib),
       Err (InboxCbor (Signing e))).
Proof using CL GL ZL.
  intros Hn Hnow He. destruct (manager_key (Inbox.key_manager ib)) as [vk Hk].
  destruct (zstd_encode_total payload) as [c Hc].
  unfold Inbox.sequence_message, Inbox.sign_sequenced, Inbox.compress_payload.
  rewrite Hc. cbn [result_bind]. rewrite (proj2 Hk). cbn [map_err result_bind].
  unfold CborSignedMessage.new, build_cose_sign1. rewrite (key_bytes_to_bytes _ _ Hk).
  cbn [result_bind]. unfold Inbox.sign_cose at 1. rewrite He. done.
Qed.

(** ** Withdrawals for the Bridge contract *)

Lemma parse_message_id_length s b : Inbox.parse_message_id s = Ok b -> length b = 32%nat.
Proof using CL.
  unfold Inbox.parse_message_id. intros H.
  destruct (bool_decide (String.length _ = 64%nat) && _); [|destruct (_ && _) eqn:E].
  - destruct (map_err _ _) as [b'| |]; cbn [result_bind] in H; [|done..].
    case_bool_decide; [|done]. by apply Ok_inj in H as <-.
  - destruct (map_err _ _) as [b'| |]; cbn [result_bind] in H; [|done..]. apply Ok_inj in H as <-.
    rewrite length_app, repeat_length, length_take. lia.
  - apply Ok_inj in H as <-. apply keccak256_length.
Qed.

Lemma parse_target_length s b : Inbox.parse_target s = Ok b -> length b = 20%nat.
Proof. unfold Inbox.parse_target. intros H. ok_inv. by bool_to_prop. Qed.

(** For an id, a target and an amount that parse, [sign_bridge_withdrawal]
    succeeds when the signer answers.  The signature is the 65 bytes
    [r || s || v] with [v] 27 or 28, its first 64 bytes verify under the inbox's
    key over the EIP-191 hash of [keccak256(id || target || keccak256(payload) ||
    amount)], that hash is the reported message hash, and the packed bytes
    determine the id, the target, the payload hash and the amount. *)
Theorem bridge_withdrawal_correct ib message_id target_address payload amount_text id target amount :
  signer_available (Inbox.key_manager ib) ->
  Inbox.parse_message_id message_id = Ok id ->
  Inbox.parse_target target_address = Ok target ->
  parse_u128 amount_text = Ok amount ->
  exists rs v vk s,
    let h := keccak256 (Inbox.bridge_packed id target (keccak256 payload) amount) in
    Inbox.sign_bridge_withdrawal ib message_id target_address payload amount_text
      = Ok (BridgeSignature.mk (hex0x id) (hex0x h) (hex0x (rs ++ [v]))
              (hex0x (Inbox.signer_address ib))) /\
    length rs = 64%nat /\ (v = x1b \/ v = x1c) /\
    verifying_key_from_bytes (EvmKeyManager.public_key (Inbox.key_manager ib)) = Ok vk /\
    sig_from_slice rs = Ok s /\ verify_prehash vk (Inbox.eth_signed_hash h) s = true /\
    (forall id' target' ph' amount',
       length id' = 32%nat -> length target' = 20%nat -> length ph' = 32%nat ->
       0 <= amount' < 2 ^ 128 ->
       Inbox.bridge_packed id target (keccak256 payload) amount
         = Inbox.bridge_packed id' target' ph' amount' ->
       id = id' /\ target = target' /\ keccak256 payload = ph' /\ amount = amount').
Proof using CL GL.
  intros Hav Hid Htg Ham. destruct (signer_key_valid (EvmKeyManager.signer (Inbox.key_manager ib)))
    as [vk Hvk].
  set (h := keccak256 (Inbox.bridge_packed id target (keccak256 payload) amount)).
  destruct (Hav (Inbox.eth_signed_hash h) (keccak256_length _)) as [a Ha].
  destruct (sign_verifies _ _ _ _ (keccak256_length _) Ha Hvk) as (s & Hs & Hv).
  exists (alloy_r a ++ alloy_s a), (if alloy_v a then x1c else x1b), vk, s. cbv zeta. split_and!; auto.
  - unfold Inbox.sign_bridge_withdrawal. rewrite Hid, Htg, Ham. cbn [map_err result_bind].
    fold h. unfold EvmKeyManager.sign_raw_sync, EvmKeyManager.sign_hash_sync. rewrite Ha.
    cbn [map_err result_bind]. by rewrite <- app_assoc.
  - by rewrite length_app, alloy_r_length, alloy_s_length.
  - destruct (alloy_v a); auto.
  - unfold verifying_key_from_bytes, EvmKeyManager.public_key. by rewrite Hvk.
  - intros id' target' ph' amount' Hi' Ht' Hp' Hr' H.
    apply parse_uint_range in Ham as Hr; [|lia]. unfold Inbox.bridge_packed in H.
    apply app_inj_length in H as [H1 H]; [|by rewrite Hi', (parse_message_id_length _ _ Hid)].
    apply app_inj_length in H as [H2 H]; [|by rewrite Ht', (parse_target_length _ _ Htg)].
    apply app_inj_length in H as [H3 H]; [|by rewrite Hp', keccak256_length].
    split_and!; auto. rewrite <- (from_to_be_bytes 32 amount), <- (from_to_be_bytes 32 amount'), H;
      [done | cbn; lia | cbn; lia].
Qed.

(** A hexadecimal message id of more than 32 bytes is cut to its first 32
    bytes, so two ids that differ only later are signed as the same message id
    (the comment in the source describes this branch as a shorter id that is
    padded). *)
Theorem long_message_id_truncated b :
  (32 < length b)%nat -> Inbox.parse_message_id (hex0x b) = Ok (take 32 b).
Proof using HL.
  intros Hl. unfold Inbox.parse_message_id. rewrite hex0x_strip, hex_decode_encode, hex_encode_length.
  rewrite bool_decide_false by lia. cbn [andb]. rewrite hex_encode_digits, bool_decide_false.
  - cbn [negb andb map_err result_bind]. rewrite Nat.min_r by lia. done.
  - intros H. apply (f_equal String.length) in H. rewrite hex_encode_length in H. cbn in H. lia.
Qed.
End one_call.

(** ** Witnesses on the reference instance *)

Lemma ref_signer_available km : signer_available km.
Proof. intros h _. by eexists. Qed.

Lemma sequence_message_correct_witness :
  exists m r, Inbox.sequence_message (Inbox.with_start_sequence demo_km 41) 1700 Snapshot [x61; x62]
              = (Inbox.with_start_sequence demo_km 42, Ok (m, r)) /\ SequenceReceipt.sequence r = 41.
Proof.
  destruct (sequence_message_correct (Inbox.with_start_sequence demo_km 41) 1700 Snapshot [x61; x62])
    as (m & sg & c & vk & H & _); [done | done | apply ref_signer_available |].
  exists m. eexists. split; [exact H|]. reflexivity.
Defined.

(** A signer that always fails. *)
Definition broken_signer : Signer := {|
  PrivateKeySigner := unit;
  AlloySignature := Empty_set;
  Extern.signer_public_key _ := toy_pubkey 5;
  Extern.signer_address _ := to_be_bytes 20 5;
  Extern.sign_hash_sync _ _ := Err "device lost";
  alloy_r a := match a with end;
  alloy_s a := match a with end;
  alloy_v a := match a with end;
|}.

Lemma broken_signer_laws : @SignerLaws _ broken_signer.
Proof.
  constructor; cbn -[toy_pubkey to_be_bytes]; try done.
  intros _. eexists. unfold toy_vk. rewrite bool_decide_true; [reflexivity|].
  cbn [length head]. by rewrite toy_pubkey_length.
Qed.

Definition broken_inbox (n : Z) : @Inbox.t _ broken_signer :=
  Inbox.with_start_sequence (@EvmKeyManager.mk _ broken_signer tt) n.

Lemma failed_signing_burns_sequence_witness :
  Inbox.sequence_message (broken_inbox 3) 10 Changeset []
  = (broken_inbox 4, Err (InboxCbor (Signing "Signing failed: device lost"))).
Proof.
  apply (failed_signing_burns_sequence (GL := broken_signer_laws) (broken_inbox 3));
    done.
Defined.

Definition demo_target : string := "0x00112233445566778899aabbccddeeff00112233".

Lemma bridge_withdrawal_correct_witness :
  exists sg, Inbox.sign_bridge_withdrawal (Inbox.new demo_km) "0xabcd" demo_target [x01] "1000" = Ok sg.
Proof.
  destruct (bridge_withdrawal_correct (Inbox.new demo_km) "0xabcd" demo_target [x01] "1000"
              (repeat x00 30 ++ [xab; xcd])
              (take 20 [x00; x11; x22; x33; x44; x55; x66; x77; x88; x99; xaa; xbb; xcc; xdd; xee; xff;
                        x00; x11; x22; x33]) 1000)
    as (rs & v & vk & s & H & _);
    [apply ref_signer_available | reflexivity | reflexivity | reflexivity |].
  eexists. exact H.
Defined.

Lemma long_message_id_truncated_witness :
  Inbox.parse_message_id (hex0x (repeat x07 32 ++ [x01])) = Ok (repeat x07 32) /\
  Inbox.parse_message_id (hex0x (repeat x07 32 ++ [x02; x03])) = Ok (repeat x07 32).
Proof.
  split.
  - apply (long_message_id_truncated (repeat x07 32 ++ [x01])). cbn. lia.
  - apply (long_message_id_truncated (repeat x07 32 ++ [x02; x03])). cbn. lia.
Defined.
