(* ===== verification/WireProps.v ===== *)
(** * Properties of signed messages and batches
    (crates/synddb-shared/src/types/cbor and types/message.rs)

    Round trips, authenticity of what the readers accept, and the whole path of a
    batch from its signed messages to the validator's internal form. *)
From Stdlib Require Import Ascii Strings.Byte.
From S2P Require Import Prelude RustStd Extern Reference Cose CborBatches SignedTypes.

(** ** Shared lemmas *)
Section lemmas.
Context `{HX : Hex} `{CR : Crypto} `{CS : Cose} `{CC : !CoseCodec} `{ZS : Zstd}.
Context `{SW : Serde CborBatchWire.t}.
Context {HL : HexLaws} {CL : CryptoLaws} {KL : CoseLaws} {ZL : ZstdLaws}.
Context {SL : SerdeLaws CborBatchWire.t CborBatchWire.valid}.

(** A message of the sequencer with key [vk], and the internal form every reader
    gives it. *)
Definition message_ok (vk : VerifyingKey) (m : CborSignedMessage.t) (sm : SignedMessage.t) : Prop :=
  is_u64 (SignedMessage.sequence sm) /\
  CborSignedMessage.sequence m = Ok (SignedMessage.sequence sm) /\
  (exists p, CborSignedMessage.verify_and_parse m vk = Ok p) /\
  to_signed_message m vk = Ok sm /\
  to_signed_message_unchecked m = Ok sm /\
  verify_signature sm = Ok tt /\
  (exists pk, key_bytes vk pk /\ SignedMessage.signer sm = hex0x pk).

Lemma built_message_ok sequence timestamp ty payload vk pk sign_fn :
  is_u64 sequence -> is_u64 timestamp -> key_bytes vk pk -> signing_ok vk sign_fn ->
  exists m sm,
    CborSignedMessage.new sequence timestamp ty payload vk sign_fn = Ok m /\ message_ok vk m sm /\
    SignedMessage.sequence sm = sequence /\ SignedMessage.timestamp sm = timestamp /\
    SignedMessage.message_type sm = MessageType.from_cbor ty /\ SignedMessage.payload sm = payload.
Proof using HL CL KL.
  intros Hs Ht Hk Hsign.
  destruct (built_message_spec sequence timestamp ty payload vk pk sign_fn)
    as (m & sg & hb & Hm & Hseq & Hp & Hv & Hh & Hsm); [done..|].
  exists m. exists (signed_message_of (ParsedCoseMessage.mk sequence timestamp ty payload sg pk) hb). split; [exact Hm|].
  split; [|by split_and!].
  split_and!; [exact Hs | exact Hseq | eauto | | | exact Hsm | by exists pk].
  - unfold to_signed_message. rewrite Hv. cbn [result_bind]. by rewrite Hh.
  - unfold to_signed_message_unchecked. rewrite Hp. cbn [result_bind]. by rewrite Hh.
Qed.

Lemma verify_batch_signature_ok b vk s :
  CborBatch.compute_content_hash (CborBatch.messages b) = CborBatch.content_hash b ->
  key_bytes vk (CborBatch.pubkey b) -> sig_from_slice (CborBatch.batch_signature b) = Ok s ->
  verify_prehash vk (keccak256 (CborBatch.compute_signing_payload (CborBatch.start_sequence b)
    (CborBatch.end_sequence b) (CborBatch.content_hash b))) s = true ->
  CborBatch.verify_batch_signature b = Ok tt.
Proof using CL.
  intros Hh [_ Hk] Hs Hv. unfold CborBatch.verify_batch_signature.
  rewrite bool_decide_true by done. cbn [negb].
  unfold verifying_key_from_bytes in Hk.
  destruct (vk_from_sec1_bytes _) as [vk'| |] eqn:E in Hk; [|done..]. apply Ok_inj in Hk as ->.
  apply vk_point_agree in E as (p & Hp & Hvk). rewrite Hp. cbn [map_err result_bind].
  rewrite Hvk. cbn [map_err result_bind]. rewrite Hs. cbn [map_err result_bind]. by rewrite Hv.
Qed.

Lemma signed_batch_signature_ok b sms vk s :
  key_bytes vk (CborBatch.pubkey b) -> sig_from_slice (CborBatch.batch_signature b) = Ok s ->
  verify_prehash vk (keccak256 (CborBatch.compute_signing_payload (CborBatch.start_sequence b)
    (CborBatch.end_sequence b) (CborBatch.content_hash b))) s = true ->
  verify_batch_signature (signed_batch_of b sms) = Ok tt.
Proof using HL CL.
  intros [Hpk Hk] Hs Hv. unfold verify_batch_signature.
  cbn [signed_batch_of SignedBatch.signer SignedBatch.batch_signature SignedBatch.start_sequence
       SignedBatch.end_sequence SignedBatch.content_hash].
  rewrite !decode_hex0x by (done || by eapply sig_slice_length). cbn [result_bind].
  unfold signature_of, key_of, check_signature, signature_from_bytes, verify_secp256k1.
  rewrite Hs, Hk. cbn [map_err result_bind].
  unfold CborBatch.compute_signing_payload in Hv. by rewrite Hv.
Qed.

(** The whole path of a batch. *)
Lemma batch_path vk pk sign_fn created_at ms sms :
  ms <> [] -> Forall2 (message_ok vk) ms sms -> key_bytes vk pk -> signing_ok vk sign_fn ->
  is_u64 created_at ->
  exists b z,
    CborBatch.new ms created_at pk sign_fn = Ok b /\ CborBatch.messages b = ms /\ batch_wf b /\
    CborBatch.to_cbor_zstd b = Ok z /\ CborBatch.from_cbor_zstd z = Ok b /\
    CborBatch.verify_all_signatures b = Ok tt /\
    to_signed_batch b = Ok (signed_batch_of b sms) /\
    to_signed_batch_unchecked b = Ok (signed_batch_of b sms) /\
    verify_all_signatures (signed_batch_of b sms) = Ok tt /\
    SignedMessage.sequence <$> head sms = Some (CborBatch.start_sequence b) /\
    SignedMessage.sequence <$> last sms = Some (CborBatch.end_sequence b).
Proof using HL CL KL ZL SL.
  intros Hne Hms Hk Hsign Hca.
  destruct (Forall2_head _ _ _ Hms Hne) as (m1 & sm1 & Hm1 & Hsm1 & Hok1).
  destruct (Forall2_last _ _ _ Hms Hne) as (m2 & sm2 & Hm2 & Hsm2 & Hok2).
  set (h := CborBatch.compute_content_hash ms).
  destruct (Hsign (CborBatch.compute_signing_payload (SignedMessage.sequence sm1)
                     (SignedMessage.sequence sm2) h)) as (s & Hs & Hrt & Hv).
  pose (b := CborBatch.mk BATCH_VERSION (SignedMessage.sequence sm1) (SignedMessage.sequence sm2)
               created_at h ms (sig_to_bytes s) pk).
  assert (Hnew : CborBatch.new ms created_at pk sign_fn = Ok b).
  { unfold CborBatch.new. destruct ms as [|m ms]; [done|]. rewrite Hm1, Hm2. cbn [CborBatch.sequence_of].
    destruct Hok1 as (_ & -> & _), Hok2 as (_ & -> & _). cbn [result_bind]. fold h. by rewrite Hs. }
  assert (Hbwf : batch_wf b).
  { split_and!; [apply sha256_length | by eapply sig_slice_length | apply Hk |].
    split_and!; try done; cbn; [apply Hok1 | apply Hok2]. }
  destruct (zstd_batch_roundtrip b Hbwf) as (z & Hz & Hz').
  assert (Hbs : CborBatch.verify_batch_signature b = Ok tt) by (by eapply verify_batch_signature_ok).
  exists b, z. split_and!; auto.
  - unfold CborBatch.verify_all_signatures. rewrite Hbs. cbn [result_bind b CborBatch.pubkey].
    rewrite (proj2 Hk). cbn [result_bind]. apply verify_messages_ok. cbn [CborBatch.messages].
    clear -Hms. induction Hms as [|m sm ms sms Hm _ IH]; constructor; [apply Hm | exact IH].
  - unfold to_signed_batch. rewrite Hbs. cbn [result_bind b CborBatch.pubkey CborBatch.messages].
    rewrite (proj2 Hk). cbn [result_bind]. rewrite (proj2 (map_result_ok _ ms sms)); [done|].
    eapply Forall2_impl; [exact Hms|]. intros ?? Hm. apply Hm.
  - unfold to_signed_batch_unchecked. cbn [b CborBatch.messages].
    rewrite (proj2 (map_result_ok _ ms sms)); [done|].
    eapply Forall2_impl; [exact Hms|]. intros ?? Hm. apply Hm.
  - unfold verify_all_signatures. rewrite (signed_batch_signature_ok b sms vk s) by done.
    cbn [result_bind]. apply for_each_ok. cbn [signed_batch_of SignedBatch.messages].
    clear -Hms. induction Hms as [|m sm ms sms Hm _ IH]; constructor; [apply Hm | exact IH].
  - by rewrite Hsm1.
  - by rewrite Hsm2.
Qed.

Lemma extract_pubkey_bytes_length h pk : extract_pubkey_bytes h = Ok pk -> length pk = 64%nat.
Proof.
  unfold extract_pubkey_bytes. induction (Header.rest h) as [|[l v] r IH]; cbn; [done|].
  destruct l as [i|s]; [done|]. destruct v; try done. case_bool_decide; [|done].
  by intros [-> Hl]%try_into_array_ok.
Qed.

(** Reading one field of a successful parse. *)
Lemma parse_cose_sign1_inv b p :
  parse_cose_sign1 b = Ok p ->
  exists cose n, cose_from_slice b = Ok cose /\
    extract_u64_loop (Header.rest (CoseSign1.protected cose)) HEADER_SEQUENCE
      = Some (ParsedCoseMessage.sequence p) /\
    extract_u64_loop (Header.rest (CoseSign1.protected cose)) HEADER_TIMESTAMP
      = Some (ParsedCoseMessage.timestamp p) /\
    extract_u64_loop (Header.rest (CoseSign1.protected cose)) HEADER_MSG_TYPE = Some n /\
    as_u8 (ParsedCoseMessage.message_type p) = n mod 256 /\
    default [] (CoseSign1.payload cose) = ParsedCoseMessage.payload p /\
    CoseSign1.signature cose = ParsedCoseMessage.signature p /\
    extract_pubkey_bytes (CoseSign1.unprotected cose) = Ok (ParsedCoseMessage.pubkey p).
Proof.
  unfold parse_cose_sign1, extract_u64_from_header. intros H.
  destruct (cose_from_slice b) as [cose| |] eqn:Ec; cbn [map_err result_bind] in H; [|done..].
  destruct (extract_u64_loop _ HEADER_SEQUENCE) as [sq|] eqn:E1; cbn [ok_or result_bind] in H; [|done].
  destruct (extract_u64_loop _ HEADER_TIMESTAMP) as [ts|] eqn:E2; cbn [ok_or result_bind] in H; [|done].
  destruct (extract_u64_loop _ HEADER_MSG_TYPE) as [n|] eqn:E3; cbn [ok_or result_bind] in H; [|done].
  destruct (from_u8 _) as [ty| |] eqn:E4; cbn [result_bind] in H; [|done..].
  destruct (extract_pubkey_bytes _) as [pk| |] eqn:E5; cbn [result_bind] in H; [|done..].
  destruct (try_into_array _ _ _) as [sg| |] eqn:E6; cbn [result_bind] in H; [|done..].
  apply Ok_inj in H as <-. apply try_into_array_ok in E6 as [-> _]. apply from_u8_inv in E4.
  exists cose, n. by split_and!.
Qed.
End lemmas.

(** ** Claims *)
Section claims.
Context `{HX : Hex} `{CR : Crypto} `{CS : Cose} `{CC : !CoseCodec} `{ZS : Zstd}.
Context `{SW : Serde CborBatchWire.t}.
Context {HL : HexLaws} {CL : CryptoLaws} {KL : CoseLaws} {ZL : ZstdLaws}.
Context {SL : SerdeLaws CborBatchWire.t CborBatchWire.valid}.

(** Message round trip: a message built by [CborSignedMessage::new] verifies
    against the signer's key and parses back to the sequence number, timestamp,
    type and payload it was built from, with the signer's key; its internal form
    [SignedMessage] carries the same fields and verifies on its own. *)
Theorem message_roundtrip sequence timestamp ty payload vk pk sign_fn :
  is_u64 sequence -> is_u64 timestamp -> key_bytes vk pk -> signing_ok vk sign_fn ->
  exists m sg sm,
    CborSignedMessage.new sequence timestamp ty payload vk sign_fn = Ok m /\
    CborSignedMessage.verify_and_parse m vk
      = Ok (ParsedCoseMessage.mk sequence timestamp ty payload sg pk) /\
    to_signed_message m vk = Ok sm /\ verify_signature sm = Ok tt /\
    SignedMessage.sequence sm = sequence /\ SignedMessage.timestamp sm = timestamp /\
    SignedMessage.message_type sm = MessageType.from_cbor ty /\ SignedMessage.payload sm = payload.
Proof using HL CL KL.
  intros Hs Ht Hk Hsign.
  destruct (built_message_spec sequence timestamp ty payload vk pk sign_fn)
    as (m & sg & hb & Hm & _ & _ & Hv & _); [done..|].
  destruct (built_message_ok sequence timestamp ty payload vk pk sign_fn)
    as (m' & sm & Hm' & Hok & Hf); [done..|].
  rewrite Hm in Hm'. apply Ok_inj in Hm' as <-.
  exists m, sg, sm. split_and!; [done | done | apply Hok | apply Hok | apply Hf..].
Qed.

(** C9. Authenticity: whatever bytes [verify_and_parse] accepts carry a
    signature that verifies under the expected key over the COSE to-be-signed
    structure; the sequence number, timestamp and type returned are read from the
    protected (signed) header, the payload and the signature are those of the
    structure, and the embedded key is the expected one. *)
Theorem verify_and_parse_authentic m vk p :
  CborSignedMessage.verify_and_parse m vk = Ok p ->
  exists cose s n,
    cose_from_slice (CborSignedMessage.as_bytes m) = Ok cose /\
    sig_from_slice (ParsedCoseMessage.signature p) = Ok s /\
    verify_prehash vk (keccak256 (tbs_data cose)) s = true /\
    extract_u64_loop (Header.rest (CoseSign1.protected cose)) HEADER_SEQUENCE
      = Some (ParsedCoseMessage.sequence p) /\
    extract_u64_loop (Header.rest (CoseSign1.protected cose)) HEADER_TIMESTAMP
      = Some (ParsedCoseMessage.timestamp p) /\
    extract_u64_loop (Header.rest (CoseSign1.protected cose)) HEADER_MSG_TYPE = Some n /\
    as_u8 (ParsedCoseMessage.message_type p) = n mod 256 /\
    default [] (CoseSign1.payload cose) = ParsedCoseMessage.payload p /\
    verifying_key_to_bytes (E := CborError) vk = Ok (ParsedCoseMessage.pubkey p).
Proof using CL.
  unfold CborSignedMessage.verify_and_parse, verify_and_parse_cose_sign1. intros H.
  destruct (cose_from_slice _) as [cose| |] eqn:Ec; cbn [map_err result_bind] in H; [|done..].
  unfold extract_pubkey in H.
  destruct (extract_pubkey_bytes _) as [pk| |] eqn:Epk; cbn [result_bind] in H; [|done..].
  destruct (verifying_key_from_bytes pk) as [vk'| |] eqn:Evk; cbn [result_bind] in H; [|done..].
  destruct (verifying_key_to_bytes vk) as [eb| |] eqn:Eb; cbn [result_bind] in H; [|done..].
  assert (Hkb : key_bytes vk' pk) by (split; [by eapply extract_pubkey_bytes_length|done]).
  rewrite (key_bytes_to_bytes _ _ Hkb) in H. cbn [result_bind] in H.
  case_bool_decide as Heq; cbn [negb] in H; [|done]. subst eb.
  destruct (try_into_array _ _ _) as [sg| |] eqn:Es; cbn [result_bind] in H; [|done..].
  unfold signature_from_bytes, verify_secp256k1 in H.
  destruct (sig_from_slice sg) as [s| |] eqn:Esg; cbn [map_err result_bind] in H; [|done..].
  destruct (verify_prehash _ _ _) eqn:Ev; cbn [result_bind] in H; [|done].
  apply try_into_array_ok in Es as [-> _].
  destruct (parse_cose_sign1_inv _ _ H) as (cose' & n & Hc & H1 & H2 & H3 & H4 & H5 & H6 & H7).
  rewrite Ec in Hc. apply Ok_inj in Hc as <-. rewrite Epk in H7. apply Ok_inj in H7 as ->.
  exists cose, s, n. split_and!; auto. by rewrite <- H6.
Qed.

(** The internal form binds what it was signed for: if
    [SignedMessage::verify_signature] accepts, the sequence number and timestamp
    equal the ones in the signed header bytes and the signature verifies, under
    the message's own key, over those header bytes and the payload; so changing
    only the sequence number (or only the timestamp) makes it a header mismatch. *)
Theorem verify_signature_binds m :
  verify_signature m = Ok tt ->
  parse_cose_protected_header_fields (SignedMessage.cose_protected_header m)
    = Ok (SignedMessage.sequence m, SignedMessage.timestamp m) /\
  (exists tbs sgb pkb s vk,
     cbor_write (sig_structure (SignedMessage.cose_protected_header m) (SignedMessage.payload m))
       = Ok tbs /\
     hex_decode (strip_prefix_or_self "0x" (SignedMessage.signature m)) = Ok sgb /\
     hex_decode (strip_prefix_or_self "0x" (SignedMessage.signer m)) = Ok pkb /\
     sig_from_slice sgb = Ok s /\ key_bytes vk pkb /\ verify_prehash vk (keccak256 tbs) s = true) /\
  (forall m', SignedMessage.cose_protected_header m' = SignedMessage.cose_protected_header m ->
     SignedMessage.sequence m' <> SignedMessage.sequence m \/
     SignedMessage.timestamp m' <> SignedMessage.timestamp m ->
     exists field outer header, verify_signature m' = Err (HeaderMismatch field outer header)).
Proof.
  unfold verify_signature. intros H.
  destruct (parse_cose_protected_header_fields _) as [[hs ht]| |] eqn:Eh; cbn [result_bind] in H; [|done..].
  destruct (SignedMessage.sequence m =? hs) eqn:E1; cbn [negb] in H; [|done].
  destruct (SignedMessage.timestamp m =? ht) eqn:E2; cbn [negb] in H; [|done]. bool_to_prop. subst hs ht.
  unfold build_cose_sig_structure in H.
  destruct (cbor_write _) as [tbs| |] eqn:Et; cbn [result_bind] in H; [|done..].
  destruct (decode_hex_field InvalidSignature _ _) as [sgb| |] eqn:E3; cbn [result_bind] in H; [|done..].
  destruct (decode_hex_field InvalidPublicKey _ _) as [pkb| |] eqn:E4; cbn [result_bind] in H; [|done..].
  unfold signature_of, key_of, check_signature, signature_from_bytes, verify_secp256k1 in H.
  destruct (sig_from_slice sgb) as [s| |] eqn:E5; cbn [map_err result_bind] in H; [|done..].
  destruct (verifying_key_from_bytes pkb) as [vk| |] eqn:E6; cbn [map_err result_bind] in H; [|done..].
  destruct (verify_prehash _ _ _) eqn:E7; [|done].
  apply decode_hex_field_ok in E3 as [E3 _]. apply decode_hex_field_ok in E4 as [E4 Hl].
  split; [done|]. split; [by exists tbs, sgb, pkb, s, vk|].
  intros m' Hm' Hne. rewrite Hm', Eh. cbn [result_bind].
  destruct (SignedMessage.sequence m' =? _) eqn:E8; cbn [negb]; [|by eauto].
  destruct (SignedMessage.timestamp m' =? _) eqn:E9; cbn [negb]; [|by eauto].
  bool_to_prop. by destruct Hne.
Qed.

(** The message type is not bound by the internal check: a correctly built
    and signed message still verifies after it is relabelled with any other type
    (a changeset as a withdrawal, say), although the signed header names the type
    it was built with. *)
Theorem message_type_not_bound sequence timestamp ty ty' payload vk pk sign_fn :
  is_u64 sequence -> is_u64 timestamp -> key_bytes vk pk -> signing_ok vk sign_fn ->
  exists m p sm,
    CborSignedMessage.new sequence timestamp ty payload vk sign_fn = Ok m /\
    CborSignedMessage.verify_and_parse m vk = Ok p /\ ParsedCoseMessage.message_type p = ty /\
    to_signed_message m vk = Ok sm /\
    verify_signature (SignedMessage.set_message_type sm ty') = Ok tt.
Proof using HL CL KL.
  intros Hs Ht Hk Hsign.
  destruct (built_message_spec sequence timestamp ty payload vk pk sign_fn)
    as (m & sg & hb & Hm & _ & _ & Hv & Hh & Hsm); [done..|].
  eexists m, _, _. split_and!; [exact Hm | exact Hv | done | | exact Hsm].
  unfold to_signed_message. rewrite Hv. cbn [result_bind]. by rewrite Hh.
Qed.

(** The message type is read modulo 256: a header whose type entry is any
    integer congruent to a type's code (258 for a snapshot) parses as that type,
    where an unknown type should be [InvalidMessageType]. *)
Theorem message_type_truncated b ob sequence timestamp n ty pk payload sg :
  is_u64 sequence -> is_u64 timestamp -> is_u64 n -> length pk = 64%nat -> length sg = 64%nat ->
  n mod 256 = as_u8 ty ->
  cose_from_slice b
    = Ok (CoseSign1.mk ob
            (Header.mk (Some ES256K)
               [(LInt HEADER_SEQUENCE, VInteger sequence); (LInt HEADER_TIMESTAMP, VInteger timestamp);
                (LInt HEADER_MSG_TYPE, VInteger n)] misc_default)
            (synddb_unprotected pk) (Some payload) sg) ->
  parse_cose_sign1 b = Ok (ParsedCoseMessage.mk sequence timestamp ty payload sg pk).
Proof.
  intros Hs Ht Hn Hpk Hsg Hty Hb. unfold parse_cose_sign1. rewrite Hb. cbn -[as_u64].
  rewrite (as_u64_id sequence), (as_u64_id timestamp), (as_u64_id n) by done.
  unfold cast_u8. change (2 ^ 8) with 256. rewrite Hty, from_u8_as_u8. cbn.
  unfold extract_pubkey_bytes. cbn. by rewrite !try_into_array_id.
Qed.

(** C10. Batch authenticity: if [verify_all_signatures] accepts a batch, its
    content hash is the SHA-256 of its messages, the batch signature verifies
    under the batch's key over the range and that hash, and every message
    verifies against the same key; the signed bytes determine the range and the
    hash, so a batch with another range or hash needs another signature. *)
Theorem batch_authentic b :
  CborBatch.verify_all_signatures b = Ok tt ->
  exists vk s,
    verifying_key_from_bytes (CborBatch.pubkey b) = Ok vk /\
    CborBatch.content_hash b = CborBatch.compute_content_hash (CborBatch.messages b) /\
    sig_from_slice (CborBatch.batch_signature b) = Ok s /\
    verify_prehash vk (keccak256 (keccak256 (CborBatch.signing_preimage (CborBatch.start_sequence b)
      (CborBatch.end_sequence b) (CborBatch.content_hash b)))) s = true /\
    Forall (fun m => exists p, CborSignedMessage.verify_and_parse m vk = Ok p) (CborBatch.messages b) /\
    (forall s' e' h', is_u64 (CborBatch.start_sequence b) -> is_u64 (CborBatch.end_sequence b) ->
       is_u64 s' -> is_u64 e' ->
       CborBatch.signing_preimage s' e' h'
         = CborBatch.signing_preimage (CborBatch.start_sequence b) (CborBatch.end_sequence b)
             (CborBatch.content_hash b) ->
       s' = CborBatch.start_sequence b /\ e' = CborBatch.end_sequence b /\
       h' = CborBatch.content_hash b).
Proof using CL.
  unfold CborBatch.verify_all_signatures, CborBatch.verify_batch_signature. intros H.
  case_bool_decide as Hh; cbn [negb] in H; [|done].
  destruct (encoded_point_from_bytes _) as [pt| |] eqn:E1; cbn [map_err result_bind] in H; [|done..].
  destruct (vk_from_encoded_point pt) as [vk| |] eqn:E2; cbn [map_err result_bind] in H; [|done..].
  destruct (sig_from_slice _) as [s| |] eqn:E3; cbn [map_err result_bind] in H; [|done..].
  destruct (verify_prehash _ _ _) eqn:E4; cbn [result_bind] in H; [|done].
  assert (Hvk : verifying_key_from_bytes (CborBatch.pubkey b) = Ok vk).
  { unfold verifying_key_from_bytes. by rewrite (proj2 (vk_point_agree _ vk)) by eauto. }
  rewrite Hvk in H. cbn [result_bind] in H. apply verify_messages_ok in H.
  exists vk, s. split_and!; auto. intros. by apply signing_preimage_inj.
Qed.

(** The whole path of a batch: from messages of one signer, [CborBatch::new]
    succeeds; the compressed CBOR it is published as decodes to the same batch;
    every signature in it verifies; and both conversions give the validator the
    same [SignedBatch], which holds the messages in order, the first and last
    sequence numbers as its range, and verifies on its own. *)
Theorem batch_pipeline vk pk sign_fn created_at ms sms :
  ms <> [] -> Forall2 (message_ok vk) ms sms -> key_bytes vk pk -> signing_ok vk sign_fn ->
  is_u64 created_at ->
  exists b z sb,
    CborBatch.new ms created_at pk sign_fn = Ok b /\
    CborBatch.to_cbor_zstd b = Ok z /\ CborBatch.from_cbor_zstd z = Ok b /\
    CborBatch.verify_all_signatures b = Ok tt /\
    to_signed_batch b = Ok sb /\ to_signed_batch_unchecked b = Ok sb /\
    verify_all_signatures sb = Ok tt /\
    SignedBatch.messages sb = sms /\
    SignedMessage.sequence <$> head sms = Some (SignedBatch.start_sequence sb) /\
    SignedMessage.sequence <$> last sms = Some (SignedBatch.end_sequence sb).
Proof using HL CL KL ZL SL.
  intros Hne Hms Hk Hsign Hca.
  destruct (batch_path vk pk sign_fn created_at ms sms Hne Hms Hk Hsign Hca) as (b & z & Hb).
  exists b, z, (signed_batch_of b sms). by destruct_and! Hb; split_and!.
Qed.
End claims.

(** ** Reference codec for batches, and witnesses *)
Definition wire_tuple (w : CborBatchWire.t) : Z * (Z * (Z * (Z * (bytes * (list bytes * (bytes * bytes)))))) :=
  (CborBatchWire.version w, (CborBatchWire.start_sequence w, (CborBatchWire.end_sequence w,
   (CborBatchWire.created_at w, (CborBatchWire.content_hash w, (CborBatchWire.messages w,
   (CborBatchWire.batch_signature w, CborBatchWire.pubkey w))))))).
Definition tuple_wire (t : Z * (Z * (Z * (Z * (bytes * (list bytes * (bytes * bytes))))))) : CborBatchWire.t :=
  let '(v, (s, (e, (c, (h, (m, (g, p))))))) := t in CborBatchWire.mk v s e c h m g p.
Definition wire_codec : codec (Z * (Z * (Z * (Z * (bytes * (list bytes * (bytes * bytes))))))) :=
  pair_codec Z_codec (pair_codec Z_codec (pair_codec Z_codec (pair_codec Z_codec
    (pair_codec bytes_codec (pair_codec (list_codec bytes_codec)
      (pair_codec bytes_codec bytes_codec)))))).

#[export] Instance ref_wire : Serde CborBatchWire.t := {|
  ser w := Ok (enc wire_codec (wire_tuple w));
  de b := match dec wire_codec b with
          | Some (t, []) => Ok (tuple_wire t)
          | _ => Err "invalid CBOR"
          end;
|}.

#[export] Instance ref_wire_laws : SerdeLaws CborBatchWire.t CborBatchWire.valid.
Proof.
  constructor; [|intros a _; by eexists].
  intros a b. unfold ser, de, ref_wire. intros <-%Ok_inj. rewrite dec_enc_nil. by destruct a.
Qed.

Definition demo_vk : VerifyingKey := x04 :: toy_pubkey 5.
Definition demo_sign (data : bytes) : result CborError Signature := Ok (toy_hash 257 data ++ toy_half 5).

Lemma demo_key_bytes : key_bytes demo_vk (toy_pubkey 5).
Proof. split; [apply toy_pubkey_length|]. vm_compute. reflexivity. Qed.

Lemma demo_signing_ok : signing_ok demo_vk demo_sign.
Proof.
  intros data. eexists. split; [reflexivity|]. split.
  - cbn [sig_from_slice sig_to_bytes ref_crypto]. rewrite bool_decide_true; [done|].
    pose proof (keccak256_length data) as Hk. cbn [keccak256 ref_crypto] in Hk.
    rewrite length_app, toy_half_length. by rewrite Hk.
  - cbn [verify_prehash ref_crypto keccak256]. unfold toy_verify. apply bool_decide_true.
    f_equal.
Qed.

Lemma message_roundtrip_witness :
  exists m sg, CborSignedMessage.new 7 1700 Withdrawal [x01; x02] demo_vk demo_sign = Ok m /\
    CborSignedMessage.verify_and_parse m demo_vk
      = Ok (ParsedCoseMessage.mk 7 1700 Withdrawal [x01; x02] sg (toy_pubkey 5)).
Proof.
  destruct (message_roundtrip 7 1700 Withdrawal [x01; x02] demo_vk (toy_pubkey 5) demo_sign)
    as (m & sg & sm & Hm & Hv & _);
    [done | done | apply demo_key_bytes | apply demo_signing_ok | eauto].
Defined.

Definition demo_message : CborSignedMessage.t :=
  match CborSignedMessage.new 7 1700 Withdrawal [x01; x02] demo_vk demo_sign with
  | Ok m => m
  | _ => CborSignedMessage.from_bytes []
  end.

Lemma demo_verified : exists p, CborSignedMessage.verify_and_parse demo_message demo_vk = Ok p.
Proof. eexists. vm_compute. reflexivity. Qed.

Lemma verify_and_parse_authentic_witness :
  exists p cose s, CborSignedMessage.verify_and_parse demo_message demo_vk = Ok p /\
    verify_prehash demo_vk (keccak256 (tbs_data cose)) s = true.
Proof.
  destruct demo_verified as [p E].
  destruct (verify_and_parse_authentic demo_message demo_vk p E) as (cose & s & n & _ & _ & H & _).
  exists p, cose, s. split; [exact E | exact H].
Defined.

Definition demo_signed : SignedMessage.t :=
  match to_signed_message demo_message demo_vk with
  | Ok m => m
  | _ => SignedMessage.mk 0 0 MessageType.Changeset [] "" "" "" []
  end.

Lemma demo_signed_verifies : verify_signature demo_signed = Ok tt.
Proof. vm_compute. reflexivity. Qed.

Lemma verify_signature_binds_witness :
  verify_signature demo_signed = Ok tt /\
  parse_cose_protected_header_fields (SignedMessage.cose_protected_header demo_signed)
  = Ok (SignedMessage.sequence demo_signed, SignedMessage.timestamp demo_signed).
Proof.
  split; [exact demo_signed_verifies|].
  apply (verify_signature_binds demo_signed demo_signed_verifies).
Defined.

Lemma message_type_not_bound_witness :
  exists sm, verify_signature (SignedMessage.set_message_type sm MessageType.Withdrawal) = Ok tt.
Proof.
  destruct (message_type_not_bound 7 1700 Changeset MessageType.Withdrawal [x01] demo_vk
              (toy_pubkey 5) demo_sign) as (m & p & sm & _ & _ & _ & _ & H);
    [done | done | apply demo_key_bytes | apply demo_signing_ok | eauto].
Defined.

(** A signed structure whose header says type 258. *)
Definition odd_header : Header.t :=
  Header.mk (Some ES256K)
    [(LInt HEADER_SEQUENCE, VInteger 1); (LInt HEADER_TIMESTAMP, VInteger 2);
     (LInt HEADER_MSG_TYPE, VInteger 258)] tt.
Definition odd_bytes : bytes :=
  match cose_to_vec (CoseSign1.build odd_header (synddb_unprotected (toy_pubkey 5)) [x01] (toy_pubkey 5)) with
  | Ok b => b
  | _ => []
  end.

Lemma message_type_truncated_witness :
  parse_cose_sign1 odd_bytes
  = Ok (ParsedCoseMessage.mk 1 2 Snapshot [x01] (toy_pubkey 5) (toy_pubkey 5)).
Proof.
  eapply (message_type_truncated odd_bytes _ 1 2 258);
    [done | done | done | done | done | done | vm_compute; reflexivity].
Defined.

Definition demo_batch : CborBatch.t :=
  match CborBatch.new [demo_message] 1800 (toy_pubkey 5) demo_sign with
  | Ok b => b
  | _ => CborBatch.mk 0 0 0 0 [] [] [] []
  end.

Lemma batch_authentic_witness :
  CborBatch.verify_all_signatures demo_batch = Ok tt /\
  exists vk, Forall (fun m => exists p, CborSignedMessage.verify_and_parse m vk = Ok p) [demo_message].
Proof.
  assert (H : CborBatch.verify_all_signatures demo_batch = Ok tt) by (vm_compute; reflexivity).
  split; [exact H|].
  destruct (batch_authentic demo_batch H) as (vk & s & _ & _ & _ & _ & Hm & _). exists vk. exact Hm.
Defined.

Lemma demo_message_ok : message_ok demo_vk demo_message demo_signed.
Proof.
  split; [vm_compute; split; [discriminate | reflexivity]|].
  split; [vm_compute; reflexivity|]. split; [eexists; vm_compute; reflexivity|].
  split; [vm_compute; reflexivity|]. split; [vm_compute; reflexivity|].
  split; [vm_compute; reflexivity|]. exists (toy_pubkey 5). split; [apply demo_key_bytes|].
  vm_compute. reflexivity.
Qed.

Lemma batch_pipeline_witness :
  exists b z, CborBatch.new [demo_message] 1800 (toy_pubkey 5) demo_sign = Ok b /\
    CborBatch.to_cbor_zstd b = Ok z /\ CborBatch.from_cbor_zstd z = Ok b.
Proof.
  destruct (batch_pipeline demo_vk (toy_pubkey 5) demo_sign 1800 [demo_message] [demo_signed])
    as (b & z & sb & H1 & H2 & H3 & _);
    [discriminate | | apply demo_key_bytes | apply demo_signing_ok | done | eauto].
  constructor; [apply demo_message_ok | constructor].
Defined.
