(* ===== verification/Transport.v ===== *)
(** * Transports (crates/synddb-sequencer/src/transport)

    [TransportPublisher] is the interface of [traits.rs], as a class, with the
    promise the batcher and the validator rely on: an append-only log of batches.
    [Local] is [local.rs] with its two backends, the in-memory B-tree and the
    SQLite table; SQLite itself is the class [BatchTable].  Both backends are
    proved to keep the promise. *)
From Stdlib Require Import Ascii Strings.Byte.
From S2P Require Import Prelude RustStd BTree Batches Extern Cose CborBatches SignedTypes.
From S2P Require Import SyncIndex.

(** ** traits.rs *)
Module PublishMetadata.
Record t := mk {
  reference : string;
  content_hash : bytes;
  compressed_bytes : Z;
  uncompressed_bytes : Z;
}.
End PublishMetadata.

Inductive TransportError :=
| Storage (s : string)
| Serialization (s : string)
| Network (s : string)
| NotFound (s : string)
| Config (s : string)
| TransportSignatureVerification (s : string).

(** [From<CborError>], applied by [?]. *)
Definition transport_of_cbor {A} (c : result CborError A) : result TransportError A :=
  map_err (fun e => Serialization (CborError_to_string e)) c.

(** The trait: a transport is shared behind an [Arc], [publish] changes what it
    holds. *)
Class TransportPublisher (T : Type) := {
  publish : T -> CborBatch.t -> T * result TransportError PublishMetadata.t;
  fetch : T -> Z -> result TransportError (option CborBatch.t);
  list_batches : T -> result TransportError (list BatchInfo.t);
  get_latest_sequence : T -> result TransportError (option Z);
  get_message : T -> Z -> result TransportError (option CborSignedMessage.t);
}.

(** *** The promise: an append-only log of batches *)

(** A batch a transport must take: its fields have their Rust types, its range
    is not empty and fits SQLite's integers. *)
Definition publishable (b : CborBatch.t) : Prop :=
  batch_wf b /\ CborBatch.start_sequence b <= CborBatch.end_sequence b <= i64_max.

(** Batches in order and disjoint. *)
Definition before (a b : CborBatch.t) : Prop :=
  CborBatch.end_sequence a < CborBatch.start_sequence b.
Definition wf_log (bs : list CborBatch.t) : Prop :=
  Forall publishable bs /\ StronglySorted before bs.

Definition batch_contains (s : Z) (b : CborBatch.t) : bool :=
  (CborBatch.start_sequence b <=? s) && (s <=? CborBatch.end_sequence b).

Section promise.
Context `{HX : Hex} `{CR : Crypto} `{CS : Cose} `{CC : !CoseCodec}.

(** The message with this number in a batch. *)
Definition has_sequence (s : Z) (m : CborSignedMessage.t) : bool :=
  bool_decide (result_ok (CborSignedMessage.sequence m) = Some s).
Definition message_in (s : Z) (b : CborBatch.t) : option CborSignedMessage.t :=
  find (has_sequence s) (CborBatch.messages b).

(** The entry of a batch in a listing; its path is the transport's own. *)
Definition lists (b : CborBatch.t) (info : BatchInfo.t) : Prop :=
  BatchInfo.start_sequence info = CborBatch.start_sequence b /\
  BatchInfo.end_sequence info = CborBatch.end_sequence b.

(** [log t bs]: the transport [t] holds exactly the batches [bs], in order. *)
Class TransportLaws (T : Type) `{TransportPublisher T} (log : T -> list CborBatch.t -> Prop) : Prop := {
  log_wf t bs : log t bs -> wf_log bs;
  publish_appends t bs b :
    log t bs -> publishable b -> Forall (fun a => before a b) bs ->
    exists t' md, publish t b = (t', Ok md) /\ log t' (bs ++ [b]) /\
      PublishMetadata.content_hash md = CborBatch.content_hash b;
  fetch_spec t bs s :
    log t bs -> fetch t s = Ok (find (fun b => CborBatch.start_sequence b =? s) bs);
  list_spec t bs :
    log t bs -> exists infos, list_batches t = Ok infos /\ Forall2 lists bs infos;
  latest_spec t bs :
    log t bs -> get_latest_sequence t = Ok (CborBatch.end_sequence <$> last bs);
  get_message_spec t bs s :
    log t bs -> get_message t s
    = Ok (match find (batch_contains s) bs with Some b => message_in s b | None => None end);
}.
End promise.

(** ** local.rs *)
Module StoredBatch.
Record t := mk {
  compressed_data : bytes;
  uncompressed_size : Z;
  content_hash : bytes;   (* [u8; 32] *)
  start_sequence : Z;
  end_sequence : Z;
}.
Definition contains (s : Z) (b : t) : bool := (start_sequence b <=? s) && (s <=? end_sequence b).
End StoredBatch.

(** *** The SQLite table [batches] behind rusqlite *)

(** How [execute] of the INSERT ends: done, a primary-key violation, another
    SQLite failure, or an error raised before SQLite is reached (a [u64] that
    does not fit an [i64]). *)
Inductive SqlOutcome :=
| SqlDone
| SqlConstraint
| SqlFailure (e : string)
| SqlConversion (e : string).

Class BatchTable := {
  Conn : Type;
  (** a fresh database after [SQLITE_SCHEMA] *)
  sql_open : Conn;
  sql_insert : Conn -> StoredBatch.t -> Conn * SqlOutcome;
  (** [SELECT compressed_data ... WHERE start_sequence = ?1], [.ok()] *)
  sql_data_at : Conn -> Z -> option bytes;
  (** [SELECT start_sequence, end_sequence, content_hash ... ORDER BY start_sequence] *)
  sql_list : Conn -> list (Z * Z * bytes);
  (** [SELECT MAX(end_sequence)] *)
  sql_max_end : Conn -> option Z;
  (** [SELECT compressed_data ... WHERE start_sequence <= ?1 AND end_sequence >= ?1], first row *)
  sql_data_containing : Conn -> Z -> option bytes;
}.

(** The rows in ascending [start_sequence], and what each statement does. *)
Class BatchTableLaws `{BatchTable} (rows : Conn -> BTreeMap.t StoredBatch.t) : Prop := {
  sql_open_empty : rows sql_open = [];
  sql_insert_new c r :
    0 <= StoredBatch.start_sequence r <= i64_max -> 0 <= StoredBatch.end_sequence r <= i64_max ->
    BTreeMap.get (StoredBatch.start_sequence r) (rows c) = None ->
    exists c', sql_insert c r = (c', SqlDone) /\
      rows c' = BTreeMap.insert (StoredBatch.start_sequence r) r (rows c);
  sql_insert_duplicate c r old :
    0 <= StoredBatch.start_sequence r <= i64_max -> 0 <= StoredBatch.end_sequence r <= i64_max ->
    BTreeMap.get (StoredBatch.start_sequence r) (rows c) = Some old ->
    sql_insert c r = (c, SqlConstraint);
  sql_insert_too_big c r :
    i64_max < StoredBatch.start_sequence r \/ i64_max < StoredBatch.end_sequence r ->
    exists e, sql_insert c r = (c, SqlConversion e);
  sql_data_at_spec c s :
    sql_data_at c s = StoredBatch.compressed_data <$> BTreeMap.get s (rows c);
  sql_list_spec c :
    sql_list c = map (fun r => (StoredBatch.start_sequence r, StoredBatch.end_sequence r,
                                StoredBatch.content_hash r)) (BTreeMap.values (rows c));
  sql_max_end_spec c :
    sql_max_end c = match map StoredBatch.end_sequence (BTreeMap.values (rows c)) with
                    | [] => None
                    | x :: l => Some (fold_left Z.max l x)
                    end;
  (** some row of the range when there is one; which one is unspecified *)
  sql_data_containing_none c s :
    sql_data_containing c s = None <->
    Forall (fun r => StoredBatch.contains s r = false) (BTreeMap.values (rows c));
  sql_data_containing_some c s d :
    sql_data_containing c s = Some d ->
    exists r, r ∈ BTreeMap.values (rows c) /\ StoredBatch.contains s r = true /\
              StoredBatch.compressed_data r = d;
}.

Module Local.
Section ops.
Context `{HX : Hex} `{CR : Crypto} `{CS : Cose} `{CC : !CoseCodec} `{ZS : Zstd}.
Context `{SW : Serde CborBatchWire.t} `{BT : BatchTable}.

Inductive LocalStorageBackend := InMemory | SqliteFile (path : string).

Inductive StorageInner :=
| Memory (batches : BTreeMap.t StoredBatch.t)
| Sqlite (conn : Conn).

(** [LocalTransport], the storage behind its lock; a file that cannot be opened
    panics in the source and is not modelled. *)
Definition t : Type := StorageInner.
Definition new (backend : LocalStorageBackend) : t :=
  match backend with InMemory => Memory [] | SqliteFile _ => Sqlite sql_open end.
Definition in_memory : t := new InMemory.

Definition get_batch_compressed (tr : t) (start_sequence : Z) : option bytes :=
  match tr with
  | Memory m => StoredBatch.compressed_data <$> BTreeMap.get start_sequence m
  | Sqlite c => sql_data_at c start_sequence
  end.

Definition get_batch (tr : t) (start_sequence : Z) : option CborBatch.t :=
  match get_batch_compressed tr start_sequence with
  | Some data => result_ok (CborBatch.from_cbor_zstd data)
  | None => None
  end.

Definition local_path (start : Z) : string := "local://" +:+ int_to_string start.

(** [copy_from_slice] panics on a hash that is not 32 bytes. *)
Definition row_info {E} (row : Z * Z * bytes) : result E BatchInfo.t :=
  let '(s, e, h) := row in
  if bool_decide (length h = 32%nat) then Ok (BatchInfo.with_hash s e (local_path s) h)
  else Panic "copy_from_slice: source slice length does not match".

Definition list_batch_info {E} (tr : t) : result E (list BatchInfo.t) :=
  match tr with
  | Memory m =>
      Ok (map (fun st => BatchInfo.with_hash (StoredBatch.start_sequence st)
                           (StoredBatch.end_sequence st) (local_path (StoredBatch.start_sequence st))
                           (StoredBatch.content_hash st)) (BTreeMap.values m))
  | Sqlite c => map_result row_info (sql_list c)
  end.

(** [Iterator::max] *)
Definition iter_max (l : list Z) : option Z :=
  match l with [] => None | x :: l' => Some (fold_left Z.max l' x) end.

Definition latest_sequence (tr : t) : option Z :=
  match tr with
  | Memory m => iter_max (map StoredBatch.end_sequence (BTreeMap.values m))
  | Sqlite c => sql_max_end c
  end.

(** The lookup shared by [get_signed_message] and [get_message]. *)
Definition data_containing (tr : t) (sequence : Z) : option bytes :=
  match tr with
  | Memory m =>
      StoredBatch.compressed_data <$> find (StoredBatch.contains sequence) (BTreeMap.values m)
  | Sqlite c => sql_data_containing c sequence
  end.

(** The loop skips a message that does not convert. *)
Fixpoint find_signed (sequence : Z) (l : list CborSignedMessage.t) : option SignedMessage.t :=
  match l with
  | [] => None
  | msg :: l' =>
      if has_sequence sequence msg then
        match to_signed_message_unchecked msg with
        | Ok sm => Some sm
        | _ => find_signed sequence l'
        end
      else find_signed sequence l'
  end.
Definition get_signed_message (tr : t) (sequence : Z) : option SignedMessage.t :=
  match data_containing tr sequence with
  | None => None
  | Some data =>
      match CborBatch.from_cbor_zstd data with
      | Ok batch => find_signed sequence (CborBatch.messages batch)
      | _ => None
      end
  end.

Definition stored_of (b : CborBatch.t) (uncompressed compressed : bytes) : StoredBatch.t :=
  StoredBatch.mk compressed (Z.of_nat (length uncompressed)) (CborBatch.content_hash b)
    (CborBatch.start_sequence b) (CborBatch.end_sequence b).

(** In memory a second batch with the same start replaces the first; in SQLite it
    is dropped and reported as published, and so is one whose numbers do not fit
    ([if let Err(SqliteFailure)] does not match the conversion error). *)
Definition publish (tr : t) (b : CborBatch.t) : t * result TransportError PublishMetadata.t :=
  match transport_of_cbor (CborBatch.to_cbor b) with
  | Err e => (tr, Err e)
  | Panic w => (tr, Panic w)
  | Ok uncompressed =>
      match transport_of_cbor (CborBatch.to_cbor_zstd b) with
      | Err e => (tr, Err e)
      | Panic w => (tr, Panic w)
      | Ok compressed =>
          let stored := stored_of b uncompressed compressed in
          let md := PublishMetadata.mk (local_path (CborBatch.start_sequence b))
                      (CborBatch.content_hash b) (Z.of_nat (length compressed))
                      (Z.of_nat (length uncompressed)) in
          match tr with
          | Memory m => (Memory (BTreeMap.insert (CborBatch.start_sequence b) stored m), Ok md)
          | Sqlite c =>
              match sql_insert c stored with
              | (c', SqlFailure e) => (Sqlite c', Err (Storage ("SQLite insert failed: " +:+ e)))
              | (c', _) => (Sqlite c', Ok md)
              end
          end
      end
  end.

Definition fetch (tr : t) (start_sequence : Z) : result TransportError (option CborBatch.t) :=
  match get_batch_compressed tr start_sequence with
  | None => Ok None
  | Some data => let? batch := transport_of_cbor (CborBatch.from_cbor_zstd data) in Ok (Some batch)
  end.

Definition get_message (tr : t) (sequence : Z) : result TransportError (option CborSignedMessage.t) :=
  match data_containing tr sequence with
  | None => Ok None
  | Some data =>
      let? batch := transport_of_cbor (CborBatch.from_cbor_zstd data) in
      Ok (find (has_sequence sequence) (CborBatch.messages batch))
  end.

#[global] Instance transport : TransportPublisher t := {|
  Transport.publish := publish;
  Transport.fetch := fetch;
  list_batches tr := list_batch_info tr;
  get_latest_sequence tr := Ok (latest_sequence tr);
  Transport.get_message := get_message;
|}.

(** *** HTTP handlers of the storage router: status and body *)
Definition list_batches_handler (tr : t) : result TransportError (list (Z * Z)) :=
  let? l := list_batch_info tr in
  Ok (map (fun b => (BatchInfo.start_sequence b, BatchInfo.end_sequence b)) l).
Definition get_batch_cbor (tr : t) (start : Z) : Z * bytes :=
  match get_batch_compressed tr start with Some data => (200, data) | None => (404, []) end.
Definition get_message_handler (tr : t) (sequence : Z) : Z * option SignedMessage.t :=
  match get_signed_message tr sequence with Some m => (200, Some m) | None => (404, None) end.
Definition get_latest (tr : t) : option Z := latest_sequence tr.
End ops.
Arguments t {_}.
End Local.

(** ** Lemmas *)
Lemma wf_log_snoc bs b :
  wf_log bs -> publishable b -> Forall (fun a => before a b) bs -> wf_log (bs ++ [b]).
Proof.
  intros [Hp Hs] Hb Hf. split; [by apply Forall_app_2; [|apply Forall_singleton]|].
  apply StronglySorted_app_2; [|done|by repeat constructor].
  intros a c Ha Hc. apply list_elem_of_singleton in Hc as ->. rewrite Forall_forall in Hf. auto.
Qed.

(** In a well-formed log at most one batch holds a number. *)
Lemma wf_log_unique bs s a b :
  wf_log bs -> a ∈ bs -> b ∈ bs -> batch_contains s a = true -> batch_contains s b = true -> a = b.
Proof.
  intros [_ Hs] Ha Hb Hca Hcb. unfold batch_contains in *. bool_to_prop.
  induction Hs as [|x l Hs IH Hf]; [by apply not_elem_of_nil in Ha|].
  rewrite Forall_forall in Hf. unfold before in Hf.
  apply elem_of_cons in Ha as [->|Ha], Hb as [->|Hb]; auto.
  - specialize (Hf _ Hb). lia.
  - specialize (Hf _ Ha). lia.
Qed.

Lemma find_unique {A} (f : A -> bool) l x :
  x ∈ l -> f x = true -> (forall y, y ∈ l -> f y = true -> y = x) -> find f l = Some x.
Proof.
  induction l as [|y l IH]; intros Hx Hf Hu; [by apply not_elem_of_nil in Hx|]. cbn.
  destruct (f y) eqn:E; [by rewrite (Hu y) by (done || by apply list_elem_of_here)|].
  apply elem_of_cons in Hx as [->|Hx]; [congruence|]. apply IH; auto. intros; apply Hu; auto.
  by apply list_elem_of_further.
Qed.

Lemma list_last_cons {A} (l : list A) : forall x d, List.last (x :: l) d = List.last l x.
Proof.
  induction l as [|y l IH]; intros x d; [done|].
  transitivity (List.last (y :: l) d); [done|]. by rewrite !IH.
Qed.

Lemma fold_max_sorted x l :
  StronglySorted Z.lt (x :: l) -> fold_left Z.max l x = List.last l x.
Proof.
  revert x. induction l as [|y l IH]; intros x Hs; [done|]. cbn [fold_left].
  apply StronglySorted_inv in Hs as [Hs Hf]. apply Forall_cons in Hf as [Hxy _].
  rewrite Z.max_r by lia. by rewrite IH, list_last_cons.
Qed.

(** ** Both backends keep the promise *)
Section local_laws.
Context `{HX : Hex} `{CR : Crypto} `{CS : Cose} `{CC : !CoseCodec} `{ZS : Zstd}.
Context `{SW : Serde CborBatchWire.t} `{BT : BatchTable} {rows : Conn -> BTreeMap.t StoredBatch.t}.
Context {ZL : ZstdLaws} {SL : SerdeLaws CborBatchWire.t CborBatchWire.valid}.
Context {TL : BatchTableLaws rows}.

Definition entries (tr : Local.t) : BTreeMap.t StoredBatch.t :=
  match tr with Local.Memory m => m | Local.Sqlite c => rows c end.

(** A stored entry stands for a batch. *)
Definition stored_as (e : Z * StoredBatch.t) (b : CborBatch.t) : Prop :=
  fst e = CborBatch.start_sequence b /\
  StoredBatch.start_sequence (snd e) = CborBatch.start_sequence b /\
  StoredBatch.end_sequence (snd e) = CborBatch.end_sequence b /\
  StoredBatch.content_hash (snd e) = CborBatch.content_hash b /\
  CborBatch.from_cbor_zstd (StoredBatch.compressed_data (snd e)) = Ok b.

Definition local_log (tr : Local.t) (bs : list CborBatch.t) : Prop :=
  wf_log bs /\ Forall2 stored_as (entries tr) bs.

Lemma stored_get s m bs :
  Forall2 stored_as m bs ->
  match BTreeMap.get s m, find (fun b => CborBatch.start_sequence b =? s) bs with
  | Some st, Some b => CborBatch.from_cbor_zstd (StoredBatch.compressed_data st) = Ok b
  | None, None => True
  | _, _ => False
  end.
Proof.
  induction 1 as [|[k st] b m bs (Hk & _ & _ & _ & Hd) _ IH]; cbn in *; [done|]. subst k.
  rewrite (Z.eqb_sym s). by destruct (_ =? s).
Qed.

Lemma stored_contains s e b : stored_as e b -> StoredBatch.contains s (snd e) = batch_contains s b.
Proof. intros (_ & Hs & He & _). unfold StoredBatch.contains, batch_contains. by rewrite Hs, He. Qed.

Lemma stored_find s m bs :
  Forall2 stored_as m bs ->
  match find (StoredBatch.contains s) (BTreeMap.values m), find (batch_contains s) bs with
  | Some st, Some b => CborBatch.from_cbor_zstd (StoredBatch.compressed_data st) = Ok b
  | None, None => True
  | _, _ => False
  end.
Proof.
  induction 1 as [|e b m bs He _ IH]; cbn in *; [done|]. rewrite (stored_contains s _ _ He).
  destruct (batch_contains s b); [apply He | exact IH].
Qed.

(** What [data_containing] finds, in either backend. *)
Lemma data_containing_spec s tr bs :
  local_log tr bs ->
  match Local.data_containing tr s, find (batch_contains s) bs with
  | Some d, Some b => CborBatch.from_cbor_zstd d = Ok b
  | None, None => True
  | _, _ => False
  end.
Proof using TL.
  intros [Hwf Hf]. pose proof (stored_find s _ _ Hf) as Hfind. destruct tr as [m|c]; cbn in *.
  - by destruct (find (StoredBatch.contains s) _).
  - destruct (sql_data_containing c s) as [d|] eqn:E.
    + apply sql_data_containing_some in E as (r & Hr & Hc & <-).
      apply list_elem_of_fmap in Hr as (e & -> & He).
      apply list_elem_of_lookup in He as [i Hi].
      destruct (Forall2_lookup_l _ _ _ _ _ Hf Hi) as (b & Hb & Hst).
      rewrite (find_unique _ bs b); [apply Hst | by eapply list_elem_of_lookup_2 | |].
      * by rewrite <- (stored_contains s _ _ Hst).
      * intros y Hy Hcy. eapply wf_log_unique; eauto using list_elem_of_lookup_2.
        by rewrite <- (stored_contains s _ _ Hst).
    + apply sql_data_containing_none in E.
      destruct (find (StoredBatch.contains s) _) as [st|] eqn:Es; [|done].
      apply find_some in Es as [Hin Hc]. rewrite Forall_forall in E.
      specialize (E st). rewrite list_elem_of_In in E. rewrite E in Hc by done. done.
Qed.

Lemma stored_ends m bs :
  Forall2 stored_as m bs ->
  map StoredBatch.end_sequence (BTreeMap.values m) = map CborBatch.end_sequence bs.
Proof.
  unfold BTreeMap.values.
  induction 1 as [|e b m bs (_ & _ & He & _) _ IH]; cbn; [done|]. by rewrite He, IH.
Qed.

Lemma iter_max_log bs :
  wf_log bs -> Local.iter_max (map CborBatch.end_sequence bs) = CborBatch.end_sequence <$> last bs.
Proof.
  intros [Hp Hs]. destruct bs as [|b bs]; [done|]. cbn [map Local.iter_max].
  rewrite fold_max_sorted.
  - clear Hp Hs. rewrite <- fmap_last. cbn [fmap list_fmap].
    change (CborBatch.end_sequence <$> bs) with (map CborBatch.end_sequence bs).
    generalize (CborBatch.end_sequence b). induction (map CborBatch.end_sequence bs) as [|x l IH];
      intros z; [done|]. by rewrite last_cons_cons, <- IH, list_last_cons.
  - clear -Hp Hs. change (_ :: _) with (map CborBatch.end_sequence (b :: bs)).
    induction Hs as [|a l Hs IH Hf]; cbn; constructor.
    + apply IH. by apply Forall_cons in Hp as [_ ?].
    + apply Forall_fmap. apply Forall_cons in Hp as [_ Hp].
      eapply Forall_impl; [apply Forall_and; split; [exact Hf | exact Hp]|].
      intros x [Hx Hpx]. unfold before, publishable in *. cbn. lia.
Qed.

Lemma publish_local tr bs b :
  local_log tr bs -> publishable b -> Forall (fun a => before a b) bs ->
  exists tr' md, Local.publish tr b = (tr', Ok md) /\ local_log tr' (bs ++ [b]) /\
    PublishMetadata.content_hash md = CborBatch.content_hash b.
Proof using ZL SL TL.
  intros [Hwf Hf] Hb Hbefore. pose proof Hb as [Hbwf Hrange].
  destruct (zstd_batch_roundtrip b Hbwf) as (z & Hz & Hz').
  assert (exists u, CborBatch.to_cbor b = Ok u) as [u Hu].
  { unfold CborBatch.to_cbor_zstd in Hz. destruct (CborBatch.to_cbor b); [eauto|done..]. }
  assert (Hkeys : Forall (fun e : Z * StoredBatch.t => fst e < CborBatch.start_sequence b) (entries tr)).
  { destruct Hwf as [Hp _]. clear -Hf Hbefore Hp. induction Hf as [|e a m bs He _ IH]; constructor.
    - apply Forall_cons in Hbefore as [Ha _], Hp as [Hp _]. destruct He as [-> _].
      unfold before, publishable in *. lia.
    - apply Forall_cons in Hbefore as [_ ?], Hp as [_ ?]. auto. }
  set (st := Local.stored_of b u z).
  assert (Hnew : Forall2 stored_as (BTreeMap.insert (CborBatch.start_sequence b) st (entries tr)) (bs ++ [b])).
  { rewrite btree_insert_last by done. apply Forall2_app; [done|]. by repeat constructor. }
  unfold Local.publish, transport_of_cbor. rewrite Hu, Hz. cbn [map_err]. fold st.
  destruct tr as [m|c]; cbn [entries] in *.
  - eexists _, _. split; [reflexivity|]. split; [|done]. split; [by apply wf_log_snoc | exact Hnew].
  - destruct Hbwf as (_ & _ & _ & _ & Hs64 & He64 & _). cbn in Hs64, He64. unfold is_u64 in *.
    destruct (sql_insert_new c st) as (c' & Hins & Hrows); [cbn; lia | cbn; lia | |].
    { apply btree_get_fresh. eapply Forall_impl; [exact Hkeys|]. cbn. lia. }
    rewrite Hins. eexists _, _. split; [reflexivity|]. split; [|done].
    split; [by apply wf_log_snoc|]. cbn [entries]. rewrite Hrows. exact Hnew.
Qed.

Definition info_of (b : CborBatch.t) : BatchInfo.t :=
  BatchInfo.with_hash (CborBatch.start_sequence b) (CborBatch.end_sequence b)
    (Local.local_path (CborBatch.start_sequence b)) (CborBatch.content_hash b).

Lemma local_list {E} tr bs : local_log tr bs -> Local.list_batch_info (E := E) tr = Ok (map info_of bs).
Proof using TL.
  intros [Hwf Hf]. destruct tr as [m|c]; cbn [Local.list_batch_info entries] in *.
  - f_equal. clear Hwf. unfold info_of. induction Hf as [|e b m bs (_ & Hs & He & Hh & _) _ IH]; cbn; [done|].
    by rewrite Hs, He, Hh, <- IH.
  - rewrite (sql_list_spec (rows := rows)). unfold BTreeMap.values. destruct Hwf as [Hp _].
    induction Hf as [|e b m bs (_ & Hs & He & Hh & _) _ IH]; cbn; [done|].
    apply Forall_cons in Hp as [[[Hl _] _] Hp]. rewrite Hs, He, Hh, bool_decide_true by done. cbn.
    by rewrite IH.
Qed.

#[export] Instance local_transport_laws : TransportLaws Local.t local_log.
Proof using ZL SL TL.
  constructor.
  - by intros tr bs [? _].
  - apply publish_local.
  - intros tr bs s [_ Hf]. pose proof (stored_get s _ _ Hf) as Hg. unfold fetch, Local.transport, Local.fetch.
    assert (Local.get_batch_compressed tr s = StoredBatch.compressed_data <$> BTreeMap.get s (entries tr))
      as -> by (destruct tr; [done | apply (sql_data_at_spec (rows := rows))]).
    destruct (BTreeMap.get s _) as [st|], (find _ bs); cbn; try done. by rewrite Hg.
  - intros tr bs Hlog. eexists. split; [by apply local_list|]. apply Forall2_fmap_r, Forall_Forall2_diag.
    by apply Forall_forall.
  - intros tr bs [Hwf Hf]. cbn. f_equal. rewrite <- (iter_max_log bs Hwf), <- (stored_ends _ _ Hf).
    destruct tr; [done|]. cbn. apply (sql_max_end_spec (rows := rows)).
  - intros tr bs s Hlog. pose proof (data_containing_spec s tr bs Hlog) as Hd.
    cbn. unfold Local.get_message.
    destruct (Local.data_containing tr s) as [d|], (find _ bs); try done. by rewrite Hd.
Qed.
End local_laws.
