(* ===== verification/TransportProps.v ===== *)
(** * Properties of the local transport (crates/synddb-sequencer/src/transport/local.rs) *)
From Stdlib Require Import Ascii Strings.Byte.
From S2P Require Import Prelude RustStd BTree Batches Extern Reference Cose CborBatches.
From S2P Require Import SignedTypes SyncIndex WireProps Transport.

(** Publishing batches one after the other. *)
Fixpoint publish_all {T} `{TransportPublisher T} (tr : T) (bs : list CborBatch.t)
  : T * result TransportError unit :=
  match bs with
  | [] => (tr, Ok tt)
  | b :: bs' =>
      match publish tr b with
      | (tr', Ok _) => publish_all tr' bs'
      | (tr', Err e) => (tr', Err e)
      | (tr', Panic w) => (tr', Panic w)
      end
  end.

Section publish_all.
Context `{HX : Hex} `{CR : Crypto} `{CS : Cose} `{CC : !CoseCodec}.
Context {T : Type} `{TP : TransportPublisher T} {log : T -> list CborBatch.t -> Prop}.
Context {L : TransportLaws T log}.

Lemma publish_all_log tr bs0 bs :
  log tr bs0 -> wf_log (bs0 ++ bs) ->
  exists tr', publish_all tr bs = (tr', Ok tt) /\ log tr' (bs0 ++ bs).
Proof using L.
  revert tr bs0. induction bs as [|b bs IH]; intros tr bs0 Hlog Hwf; cbn [publish_all].
  - exists tr. by rewrite app_nil_r.
  - destruct Hwf as [Hp Hs]. apply Forall_app in Hp as [Hp0 Hp]. pose proof Hp as Hpb.
    apply Forall_cons in Hpb as [Hb _].
    assert (Hbef : Forall (fun a => before a b) bs0).
    { apply Forall_forall. intros a Ha. eapply StronglySorted_app_1_elem_of; eauto.
      apply list_elem_of_here. }
    destruct (publish_appends tr bs0 b) as (tr1 & md & -> & Hlog1 & _); [done..|].
    replace (bs0 ++ b :: bs) with ((bs0 ++ [b]) ++ bs) by (by rewrite <- app_assoc).
    apply IH; [done|]. rewrite <- app_assoc. by split; [apply Forall_app_2|].
Qed.

(** A log is a well-formed listing for the validator's index. *)
Lemma listing_wf info bs : (forall b, lists b (info b)) -> wf_log bs -> wf_listing (map info bs).
Proof.
  intros Hi [Hp Hs]. split.
  - apply Forall_fmap. eapply Forall_impl; [exact Hp|]. intros b [(_ & _ & _ & _ & Hb & _) Hr].
    destruct (Hi b) as [Hi1 Hi2]. unfold batch_ok, u64_max, i64_max, is_u64 in *. cbn in *. lia.
  - clear Hp. induction Hs as [|b bs Hs IH Hf]; cbn; constructor; [done|].
    apply Forall_fmap. eapply Forall_impl; [exact Hf|]. intros a Ha. unfold before in Ha. cbn.
    destruct (Hi a) as [Ha1 _], (Hi b) as [_ Hb2]. unfold batch_before. lia.
Qed.

(** The batch with a given start is found by it. *)
Lemma find_start bs b :
  wf_log bs -> b ∈ bs ->
  find (fun x => CborBatch.start_sequence x =? CborBatch.start_sequence b) bs = Some b.
Proof.
  intros [Hp Hs] Hb. apply find_unique; [done|by apply Z.eqb_eq|]. intros y Hy Hey. bool_to_prop.
  pose proof Hp as Hp'. rewrite Forall_forall in Hp'.
  destruct (Hp' _ Hy) as [_ Hry], (Hp' _ Hb) as [_ Hrb].
  eapply (wf_log_unique bs (CborBatch.start_sequence b)); [by split|done|done| |];
    unfold batch_contains; apply andb_true_iff; split; apply Z.leb_le; lia.
Qed.
End publish_all.

Section local_claims.
Context `{HX : Hex} `{CR : Crypto} `{CS : Cose} `{CC : !CoseCodec} `{ZS : Zstd}.
Context `{SW : Serde CborBatchWire.t} `{BT : BatchTable} {rows : Conn -> BTreeMap.t StoredBatch.t}.
Context {ZL : ZstdLaws} {SL : SerdeLaws CborBatchWire.t CborBatchWire.valid}.
Context {TL : BatchTableLaws rows}.

(** C11. Either backend implements an append-only log: publishing in-order,
    disjoint batches to a new local transport succeeds, and then [fetch] by start
    sequence, the sorted listing, the latest sequence and the lookup of a single
    message all answer as the list of published batches says; the listing is
    well-formed for the validator's batch index. *)
Theorem local_transport_implements_log backend bs :
  wf_log bs ->
  exists tr, publish_all (Local.new backend) bs = (tr, Ok tt) /\
    (forall s, fetch tr s = Ok (find (fun b => CborBatch.start_sequence b =? s) bs)) /\
    list_batches tr = Ok (map info_of bs) /\ wf_listing (map info_of bs) /\
    get_latest_sequence tr = Ok (CborBatch.end_sequence <$> last bs) /\
    (forall s, get_message tr s
       = Ok (match find (batch_contains s) bs with Some b => message_in s b | None => None end)).
Proof using ZL SL TL.
  intros Hwf. assert (Hnew : local_log (rows := rows) (Local.new backend) []).
  { split; [by split; constructor|]. destruct backend; cbn; [constructor|].
    rewrite sql_open_empty. constructor. }
  destruct (publish_all_log (L := local_transport_laws) _ [] bs Hnew Hwf) as (tr & Htr & Hlog).
  exists tr. pose proof (local_transport_laws (rows := rows)) as HL.
  split_and!; [done | intros; by apply fetch_spec | by apply (local_list (rows := rows)) | by apply listing_wf
              | by apply latest_spec | intros; by apply get_message_spec].
Qed.

Lemma stored_roundtrip (b : CborBatch.t) :
  batch_wf b -> exists u z, CborBatch.to_cbor b = Ok u /\ CborBatch.to_cbor_zstd b = Ok z /\
    CborBatch.from_cbor_zstd z = Ok b.
Proof using ZL SL.
  intros Hb. destruct (zstd_batch_roundtrip b Hb) as (z & Hz & Hz').
  pose proof Hz as Hz2. unfold CborBatch.to_cbor_zstd in Hz2.
  destruct (CborBatch.to_cbor b) as [u| |]; [|done..]. eauto.
Qed.

(** The backends disagree on a repeated start sequence: both report the
    second batch as published, but the in-memory transport then serves the second
    one and the SQLite transport still serves the first. *)
Theorem republish_differs_by_backend (b1 b2 : CborBatch.t) :
  publishable b1 -> publishable b2 ->
  CborBatch.start_sequence b1 = CborBatch.start_sequence b2 ->
  exists m c, publish_all (Local.new Local.InMemory) [b1; b2] = (m, Ok tt) /\
    publish_all (Local.new (Local.SqliteFile "batches.db")) [b1; b2] = (c, Ok tt) /\
    Local.get_batch m (CborBatch.start_sequence b1) = Some b2 /\
    Local.get_batch c (CborBatch.start_sequence b1) = Some b1.
Proof using ZL SL TL.
  intros [Hw1 Hr1] [Hw2 Hr2] Heq.
  destruct (stored_roundtrip b1 Hw1) as (u1 & z1 & Hu1 & Hz1 & Hd1).
  destruct (stored_roundtrip b2 Hw2) as (u2 & z2 & Hu2 & Hz2 & Hd2).
  destruct Hw1 as (_ & _ & _ & _ & Hs1 & _), Hw2 as (_ & _ & _ & _ & Hs2 & _).
  unfold is_u64 in Hs1, Hs2. cbn in Hs1, Hs2.
  destruct (sql_insert_new sql_open (Local.stored_of b1 u1 z1)) as (c & Hc & Hrc);
    [cbn; lia | cbn; lia | by rewrite sql_open_empty |].
  rewrite sql_open_empty in Hrc. cbn in Hrc.
  assert (Hdup : sql_insert c (Local.stored_of b2 u2 z2) = (c, SqlConstraint)).
  { eapply (sql_insert_duplicate (rows := rows)); [cbn; lia | cbn; lia |].
    rewrite Hrc. cbn. by rewrite <- Heq, Z.eqb_refl. }
  eexists _, (Local.Sqlite c). split_and!; cbn [publish_all publish Local.transport];
    unfold Local.publish, transport_of_cbor; rewrite ?Hu1, ?Hz1, ?Hu2, ?Hz2;
    cbn [map_err Local.new]; rewrite ?Hu2, ?Hz2; cbn [map_err].
  - reflexivity.
  - rewrite Hc. cbn. rewrite Hdup. reflexivity.
  - cbn. rewrite <- Heq, Z.ltb_irrefl, Z.eqb_refl.
    unfold Local.get_batch. cbn. rewrite Z.eqb_refl. cbn. by rewrite Hd2.
  - unfold Local.get_batch. cbn. rewrite (sql_data_at_spec (rows := rows)), Hrc. cbn.
    rewrite Z.eqb_refl. cbn. by rewrite Hd1.
Qed.

(** A batch whose sequence numbers exceed [i64::MAX] is reported as published
    by the SQLite backend although nothing is stored: the insert fails with an
    error that is not an [SqliteFailure], which the code lets pass. *)
Lemma sqlite_accepts_unstorable (c : Conn) (b : CborBatch.t) :
  batch_wf b -> i64_max < CborBatch.end_sequence b ->
  exists md, publish (Local.Sqlite c) b = (Local.Sqlite c, Ok md) /\
    PublishMetadata.content_hash md = CborBatch.content_hash b.
Proof using ZL SL TL.
  intros Hw Hbig. destruct (stored_roundtrip b Hw) as (u & z & Hu & Hz & _).
  destruct (sql_insert_too_big c (Local.stored_of b u z)) as [e He]; [cbn; auto|].
  cbn [publish Local.transport]. unfold Local.publish, transport_of_cbor. rewrite Hu, Hz.
  cbn [map_err]. rewrite He. eexists. by split.
Qed.
End local_claims.

(** ** A reference table and the witnesses *)
Definition in_i64 (z : Z) : bool := (0 <=? z) && (z <=? i64_max).

#[export] Instance ref_table : BatchTable := {|
  Conn := BTreeMap.t StoredBatch.t;
  sql_open := [];
  sql_insert c r :=
    if in_i64 (StoredBatch.start_sequence r) && in_i64 (StoredBatch.end_sequence r) then
      match BTreeMap.get (StoredBatch.start_sequence r) c with
      | Some _ => (c, SqlConstraint)
      | None => (BTreeMap.insert (StoredBatch.start_sequence r) r c, SqlDone)
      end
    else (c, SqlConversion "out of range integral type conversion attempted");
  sql_data_at c s := StoredBatch.compressed_data <$> BTreeMap.get s c;
  sql_list c := map (fun r => (StoredBatch.start_sequence r, StoredBatch.end_sequence r,
                               StoredBatch.content_hash r)) (BTreeMap.values c);
  sql_max_end c := Local.iter_max (map StoredBatch.end_sequence (BTreeMap.values c));
  sql_data_containing c s :=
    StoredBatch.compressed_data <$> find (StoredBatch.contains s) (BTreeMap.values c);
|}.

Lemma in_i64_true z : 0 <= z <= i64_max -> in_i64 z = true.
Proof. intros H. unfold in_i64. rewrite !(proj2 (Z.leb_le _ _)) by lia. done. Qed.

Definition ref_rows : @Conn ref_table -> BTreeMap.t StoredBatch.t := fun c => c.

#[export] Instance ref_table_laws : BatchTableLaws ref_rows.
Proof.
  unfold ref_rows.
  constructor; cbn [sql_open sql_insert sql_data_at sql_list sql_max_end sql_data_containing ref_table].
  - done.
  - intros c r Hs He Hg. rewrite !in_i64_true, Hg by done. by eexists.
  - intros c r old Hs He Hg. by rewrite !in_i64_true, Hg by done.
  - intros c r Hbig. unfold in_i64. rewrite !andb_assoc.
    destruct Hbig as [H|H]; rewrite (proj2 (Z.leb_gt _ _) H), ?andb_false_r; cbn; eauto.
  - done.
  - done.
  - done.
  - intros c s. destruct (find _ _) as [r|] eqn:E; cbn; split; try done.
    + intros Hf. apply find_some in E as [Hin Hc]. rewrite Forall_forall in Hf.
      apply list_elem_of_In in Hin. rewrite (Hf _ Hin) in Hc. done.
    + intros _. apply Forall_forall. intros r Hr. apply list_elem_of_In in Hr.
      by eapply find_none.
  - intros c s d H. destruct (find _ _) as [r|] eqn:E; cbn in H; [|done]. injection H as <-.
    apply find_some in E as [Hin Hc]. apply list_elem_of_In in Hin. by exists r.
Qed.

(** Three small batches. *)
Definition toy_batch (s e : Z) : CborBatch.t :=
  CborBatch.mk BATCH_VERSION s e 1800 (to_be_bytes 32 s) [] (to_be_bytes 64 7) (toy_pubkey 5).

Lemma toy_batch_publishable s e : 0 <= s <= e -> e <= i64_max -> publishable (toy_batch s e).
Proof.
  intros Hs He. split; [|cbn; lia].
  split; [apply length_to_be_bytes|]. split; [apply length_to_be_bytes|].
  split; [apply toy_pubkey_length|]. 
  unfold CborBatchWire.valid, is_u64, i64_max, toy_batch, BATCH_VERSION in *.
  cbn [CborBatch.to_wire CborBatchWire.version CborBatchWire.start_sequence CborBatchWire.end_sequence
       CborBatchWire.created_at CborBatch.version CborBatch.start_sequence CborBatch.end_sequence
       CborBatch.created_at]. lia.
Qed.

Lemma toy_log : wf_log [toy_batch 0 4; toy_batch 5 5; toy_batch 6 9].
Proof.
  split.
  - repeat apply Forall_cons_2; [apply toy_batch_publishable; unfold i64_max; lia..|constructor].
  - repeat constructor; cbn; lia.
Qed.

Lemma local_transport_implements_log_witness :
  exists tr, publish_all (Local.new (Local.SqliteFile "x.db")) [toy_batch 0 4; toy_batch 5 5; toy_batch 6 9]
             = (tr, Ok tt) /\ get_latest_sequence tr = Ok (Some 9).
Proof.
  destruct (local_transport_implements_log (rows := ref_rows)
              (Local.SqliteFile "x.db") _ toy_log) as (tr & H & _ & _ & _ & Hl & _).
  exists tr. split; [exact H | exact Hl].
Defined.

Lemma republish_differs_by_backend_witness :
  exists m c : Local.t, Local.get_batch m 3 = Some (toy_batch 3 9) /\ Local.get_batch c 3 = Some (toy_batch 3 4).
Proof.
  destruct (republish_differs_by_backend (rows := ref_rows)
              (toy_batch 3 4) (toy_batch 3 9)) as (m & c & _ & _ & Hm & Hc);
    [apply toy_batch_publishable; unfold i64_max; lia..|reflexivity|].
  exists m, c. split; [exact Hm | exact Hc].
Defined.

Lemma sqlite_accepts_unstorable_witness :
  exists md, publish (Local.Sqlite []) (toy_batch 1 (2 ^ 63)) = (Local.Sqlite [], Ok md).
Proof.
  destruct (sqlite_accepts_unstorable (rows := ref_rows)
              [] (toy_batch 1 (2 ^ 63))) as (md & H & _); [|unfold i64_max; cbn; lia|by exists md].
  split; [apply length_to_be_bytes|]. split; [apply length_to_be_bytes|].
  split; [apply toy_pubkey_length|]. by vm_compute.
Defined.
