(* ===== verification/Batcher.v ===== *)
(** * The batcher (crates/synddb-sequencer/src/batcher.rs)

    A single task that owns the pending messages and serves commands and timer
    ticks one at a time; [step] is one turn of its [select!] loop.  The transport
    is any instance of [TransportPublisher]; the theorems use only its promise. *)
From Stdlib Require Import Ascii Strings.Byte.
From S2P Require Import Prelude RustStd Batches Extern Cose CborBatches SignedTypes SyncIndex.
From S2P Require Import Inbox WireProps Transport.

Module BatchConfig.
Record t := mk {
  max_messages : Z;      (* usize *)
  max_batch_bytes : Z;   (* usize *)
  flush_interval : Z;    (* milliseconds *)
}.
Definition default : t := mk 50 1048576 5000.
End BatchConfig.

Module BatchStats.
Record t := mk {
  batches_published : Z;
  messages_published : Z;
  bytes_published : Z;
  bytes_uncompressed : Z;
  pending_messages : Z;
  pending_bytes : Z;
  last_flush_timestamp : Z;
}.
Definition default : t := mk 0 0 0 0 0 0 0.
(** [compression_ratio] as the fraction uncompressed / compressed. *)
Definition compression_ratio (s : t) : Z * Z :=
  if bytes_published s =? 0 then (1, 1) else (bytes_uncompressed s, bytes_published s).
End BatchStats.

Module PendingMessage.
Record t := mk { message : CborSignedMessage.t; size : Z }.
End PendingMessage.

Inductive BatcherError :=
| BatcherTransport (e : TransportError)
| BatcherCbor (e : CborError)
| ChannelClosed
| BatcherSigning (s : string).

Inductive BatcherCommand :=
| AddMessage (message : CborSignedMessage.t)
| Flush
| GetStats
| Shutdown.

(** What a turn of the loop is woken by, with the clocks it reads: seconds since
    the epoch and a monotonic instant in milliseconds. *)
Inductive BatcherEvent :=
| Recv (cmd : BatcherCommand) (created_at instant : Z)
| Tick (created_at instant : Z).

(** What is sent back on the command's [oneshot] channel. *)
Inductive BatcherResponse :=
| RespAdd (r : result BatcherError unit)
| RespFlush (r : result BatcherError (option PublishMetadata.t))
| RespStats (s : BatchStats.t)
| RespNone.

Module Batcher.
Section ops.
Context `{HX : Hex} `{CR : Crypto} `{SG : !Signer} `{CS : Cose} `{CC : !CoseCodec}.
Context {T : Type} `{TP : TransportPublisher T}.

Record t := mk {
  config : BatchConfig.t;
  transport : T;
  key_manager : EvmKeyManager.t;
  pending : list PendingMessage.t;
  pending_bytes : Z;   (* usize *)
  stats : BatchStats.t;
  last_flush : Z;
}.

Definition spawn (config : BatchConfig.t) (transport : T) (key_manager : EvmKeyManager.t)
    (instant : Z) : t :=
  mk config transport key_manager [] 0 BatchStats.default instant.

(** The same bytes are signed as [Inbox::sign_cose] signs. *)
Definition sign_batch_data (b : t) (data : bytes) : result CborError Signature :=
  let hash := keccak256 data in
  let? sig := map_err Signing (EvmKeyManager.sign_raw_sync (key_manager b) hash) in
  signature_from_bytes (alloy_r sig ++ alloy_s sig).

Definition with_pending (b : t) (p : list PendingMessage.t) (n : Z) : t :=
  mk (config b) (transport b) (key_manager b) p n (stats b) (last_flush b).
Definition with_transport (b : t) (tr : T) : t :=
  mk (config b) tr (key_manager b) (pending b) (pending_bytes b) (stats b) (last_flush b).
Definition with_stats (b : t) (s : BatchStats.t) (instant : Z) : t :=
  mk (config b) (transport b) (key_manager b) (pending b) (pending_bytes b) s instant.

Definition stats_published (s : BatchStats.t) (message_count : Z) (md : PublishMetadata.t)
    (created_at : Z) : BatchStats.t :=
  BatchStats.mk (u64_add (BatchStats.batches_published s) 1)
    (u64_add (BatchStats.messages_published s) message_count)
    (u64_add (BatchStats.bytes_published s) (PublishMetadata.compressed_bytes md))
    (u64_add (BatchStats.bytes_uncompressed s) (PublishMetadata.uncompressed_bytes md))
    (BatchStats.pending_messages s) (BatchStats.pending_bytes s) created_at.

(** [flush_batch]: the pending messages are drained first, so an error from
    [CborBatch::new] or [publish] leaves them nowhere. *)
Definition flush_batch (b : t) (created_at instant : Z)
  : t * result BatcherError (option PublishMetadata.t) :=
  match pending b with
  | [] => (b, Ok None)
  | _ =>
      let messages := map PendingMessage.message (pending b) in
      let message_count := Z.of_nat (length messages) in
      let b1 := with_pending b [] 0 in
      match CborBatch.new messages created_at (EvmKeyManager.public_key (key_manager b))
              (sign_batch_data b1) with
      | Err e => (b1, Err (BatcherCbor e))
      | Panic w => (b1, Panic w)
      | Ok batch =>
          match publish (transport b1) batch with
          | (tr, Err e) => (with_transport b1 tr, Err (BatcherTransport e))
          | (tr, Panic w) => (with_transport b1 tr, Panic w)
          | (tr, Ok md) =>
              let b2 := with_transport b1 tr in
              (with_stats b2 (stats_published (stats b2) message_count md created_at) instant,
               Ok (Some md))
          end
      end
  end.

Definition should_flush (b : t) : bool :=
  (BatchConfig.max_messages (config b) <=? Z.of_nat (length (pending b)))
  || (BatchConfig.max_batch_bytes (config b) <=? pending_bytes b).

Definition handle_add_message (b : t) (message : CborSignedMessage.t) (created_at instant : Z)
  : t * result BatcherError unit :=
  let size := Z.of_nat (CborSignedMessage.size message) in
  let b1 := with_pending b (pending b ++ [PendingMessage.mk message size])
              (u64_add (pending_bytes b) size) in
  if should_flush b1 then
    match flush_batch b1 created_at instant with
    | (b2, Ok _) => (b2, Ok tt)
    | (b2, Err e) => (b2, Err e)
    | (b2, Panic w) => (b2, Panic w)
    end
  else (b1, Ok tt).

(** [last_flush.elapsed()] saturates at zero. *)
Definition elapsed (b : t) (instant : Z) : Z := Z.max 0 (instant - last_flush b).

(** One turn of [run]: the new state, the response, and whether the loop goes on. *)
Definition step (b : t) (ev : BatcherEvent) : t * BatcherResponse * bool :=
  match ev with
  | Recv (AddMessage m) created_at instant =>
      let '(b', r) := handle_add_message b m created_at instant in (b', RespAdd r, true)
  | Recv Flush created_at instant =>
      let '(b', r) := flush_batch b created_at instant in (b', RespFlush r, true)
  | Recv GetStats _ _ =>
      let s := stats b in
      let s' := BatchStats.mk (BatchStats.batches_published s) (BatchStats.messages_published s)
                  (BatchStats.bytes_published s) (BatchStats.bytes_uncompressed s)
                  (Z.of_nat (length (pending b))) (pending_bytes b)
                  (BatchStats.last_flush_timestamp s) in
      (with_stats b s' (last_flush b), RespStats s', true)
  | Recv Shutdown created_at instant =>
      match pending b with
      | [] => (b, RespNone, false)
      | _ => let '(b', _) := flush_batch b created_at instant in (b', RespNone, false)
      end
  | Tick created_at instant =>
      if negb (bool_decide (pending b = [])) && (BatchConfig.flush_interval (config b) <=? elapsed b instant)
      then let '(b', _) := flush_batch b created_at instant in (b', RespNone, true)
      else (b, RespNone, true)
  end.

(** [run] on the events it receives, up to a shutdown. *)
Fixpoint run (b : t) (evs : list BatcherEvent) : t * list BatcherResponse :=
  match evs with
  | [] => (b, [])
  | ev :: evs' =>
      let '(b', resp, continue) := step b ev in
      if continue then let '(b'', rs) := run b' evs' in (b'', resp :: rs) else (b', [resp])
  end.

End ops.
Arguments t {_ _} T.
End Batcher.

(** ** Invariant: published messages followed by pending ones are what was added *)
Section batcher_inv.
Context `{HX : Hex} `{CR : Crypto} `{SG : !Signer} `{CS : Cose} `{CC : !CoseCodec} `{ZS : Zstd}.
Context `{SW : Serde CborBatchWire.t}.
Context {T : Type} `{TP : TransportPublisher T} {log : T -> list CborBatch.t -> Prop}.
Context {HL : HexLaws} {CL : CryptoLaws} {GL : SignerLaws} {KL : CoseLaws} {ZL : ZstdLaws}.
Context {SL : SerdeLaws CborBatchWire.t CborBatchWire.valid} {L : TransportLaws T log}.

Definition seq_of (m : CborSignedMessage.t) : Z := default 0 (result_ok (CborSignedMessage.sequence m)).

(** The messages of one inbox, in the order of their numbers. *)
Definition good_messages (vk : VerifyingKey) (ms : list CborSignedMessage.t) : Prop :=
  Forall (fun m => exists sm, message_ok vk m sm /\ SignedMessage.sequence sm <= i64_max) ms /\
  StronglySorted (fun a b => seq_of a < seq_of b) ms.

(** The messages come after the batches [bs0] that the transport already held. *)
Definition good_after (bs0 : list CborBatch.t) (vk : VerifyingKey) (ms : list CborSignedMessage.t) : Prop :=
  good_messages vk ms /\ Forall (fun a => Forall (fun m => CborBatch.end_sequence a < seq_of m) ms) bs0.

(** The range of a batch is that of its messages. *)
Definition range_ok (b : CborBatch.t) : Prop :=
  seq_of <$> head (CborBatch.messages b) = Some (CborBatch.start_sequence b) /\
  seq_of <$> last (CborBatch.messages b) = Some (CborBatch.end_sequence b).

(** A published batch is read back by the validator as its messages. *)
Definition converts (vk : VerifyingKey) (b : CborBatch.t) : Prop :=
  exists sms, Forall2 (message_ok vk) (CborBatch.messages b) sms /\
    to_signed_batch b = Ok (signed_batch_of b sms) /\
    verify_batch_signature (signed_batch_of b sms) = Ok tt.

Definition published (bs : list CborBatch.t) : list CborSignedMessage.t :=
  concat (map CborBatch.messages bs).
Definition pending_messages (b : Batcher.t T) : list CborSignedMessage.t :=
  map PendingMessage.message (Batcher.pending b).

(** Over a transport that held [bs0] when the batcher was spawned. *)
Definition batcher_inv (bs0 : list CborBatch.t) (km : EvmKeyManager.t) (vk : VerifyingKey) (b : Batcher.t T)
    (added : list CborSignedMessage.t) : Prop :=
  Batcher.key_manager b = km /\
  exists bs, log (Batcher.transport b) (bs0 ++ bs) /\ Forall range_ok bs /\ Forall (converts vk) bs /\
    published bs ++ pending_messages b = added.

Lemma message_ok_seq vk m sm : message_ok vk m sm -> seq_of m = SignedMessage.sequence sm.
Proof. intros (_ & H & _). unfold seq_of. by rewrite H. Qed.

Lemma good_messages_app_r vk a b : good_messages vk (a ++ b) -> good_messages vk b.
Proof.
  intros [Hf Hs]. apply Forall_app in Hf as [_ Hf]. split; [done|].
  by eapply StronglySorted_app_1_r.
Qed.
Lemma good_messages_app_l vk a b : good_messages vk (a ++ b) -> good_messages vk a.
Proof.
  intros [Hf Hs]. apply Forall_app in Hf as [Hf _]. split; [done|].
  by eapply StronglySorted_app_1_l.
Qed.

Lemma good_after_app_l bs0 vk a b : good_after bs0 vk (a ++ b) -> good_after bs0 vk a.
Proof.
  intros [Hg Hf]. split; [by eapply good_messages_app_l|]. eapply Forall_impl; [exact Hf|].
  cbn. intros x Hx. by apply Forall_app in Hx as [Hx _].
Qed.
Lemma good_after_nil vk ms : good_messages vk ms -> good_after [] vk ms.
Proof. by split. Qed.

(** A batch of some of these messages comes after the batches held before. *)
Lemma follows_base bs0 vk ms b :
  good_after bs0 vk ms -> range_ok b -> CborBatch.messages b ⊆ ms -> Forall (fun a => before a b) bs0.
Proof.
  intros [_ Hf] [Hh _] Hsub. destruct (head (CborBatch.messages b)) as [m|] eqn:E; [|done]. injection Hh as Hh.
  eapply Forall_impl; [exact Hf|]. intros a Ha. unfold before. rewrite <- Hh. rewrite Forall_forall in Ha.
  by apply Ha, Hsub, head_Some_elem_of.
Qed.

Lemma good_internal vk ms : good_messages vk ms -> exists sms, Forall2 (message_ok vk) ms sms.
Proof.
  intros [Hf _]. induction Hf as [|m ms (sm & Hm & _) _ [sms IH]]; [by exists []|].
  exists (sm :: sms). by constructor.
Qed.

Lemma sorted_head_last vk ms m1 m2 :
  good_messages vk ms -> head ms = Some m1 -> last ms = Some m2 -> seq_of m1 <= seq_of m2.
Proof.
  intros [_ Hs] H1 H2. destruct ms as [|m ms]; [done|]. injection H1 as ->.
  destruct ms as [|m' ms]; [by injection H2 as ->|]. rewrite last_cons_cons in H2.
  apply StronglySorted_inv in Hs as [_ Hf]. rewrite Forall_forall in Hf.
  apply last_Some_elem_of in H2. specialize (Hf _ H2). lia.
Qed.

(** What the inbox signs is a message every reader accepts. *)
Lemma sequenced_message_ok km vk n now ty payload :
  is_u64 n -> is_u64 now -> signer_available km -> key_bytes vk (EvmKeyManager.public_key km) ->
  exists m r c sm,
    Inbox.sign_sequenced km n now ty payload = Ok (m, r) /\ message_ok vk m sm /\
    SignedMessage.sequence sm = n /\ SignedMessage.timestamp sm = now /\
    SignedMessage.message_type sm = MessageType.from_cbor ty /\
    SignedMessage.payload sm = c /\ zstd_decode c = Ok payload.
Proof using HL CL GL KL ZL.
  intros Hn Hnow Hav Hk. destruct (sign_sequenced_spec km n now ty payload vk)
    as (m & sg & c & hb & _ & Hd & Hm & Hseq & Hp & Hv & Hh & Hs); [done..|].
  eexists m, _, c, (signed_message_of (ParsedCoseMessage.mk n now ty c sg (EvmKeyManager.public_key km)) hb).
  split; [exact Hm|]. split; [|by split_and!].
  split_and!; [exact Hn | exact Hseq | by eexists | | | exact Hs | by eexists].
  - unfold to_signed_message. rewrite Hv. cbn [result_bind]. by rewrite Hh.
  - unfold to_signed_message_unchecked. rewrite Hp. cbn [result_bind]. by rewrite Hh.
Qed.

(** The batch made of the pending messages can be appended to the log. *)
Lemma batch_of_pending vk pk sign_fn created_at bs ms :
  ms <> [] -> good_messages vk (published bs ++ ms) -> Forall range_ok bs ->
  key_bytes vk pk -> signing_ok vk sign_fn -> is_u64 created_at ->
  exists b, CborBatch.new ms created_at pk sign_fn = Ok b /\ CborBatch.messages b = ms /\
    publishable b /\ range_ok b /\ converts vk b /\ Forall (fun a => before a b) bs.
Proof using HL CL KL ZL SL.
  intros Hne Hgood Hranges Hk Hsign Hca. pose proof (good_messages_app_r _ _ _ Hgood) as Hms.
  destruct (good_internal vk ms Hms) as [sms Hsms].
  destruct (batch_path vk pk sign_fn created_at ms sms Hne Hsms Hk Hsign Hca)
    as (b & z & Hnew & Hbm & Hwf & _ & _ & _ & Hto & _ & Hver & Hst & Hen).
  destruct (Forall2_head _ _ _ Hsms Hne) as (m1 & sm1 & Hm1 & Hsm1 & Hok1).
  destruct (Forall2_last _ _ _ Hsms Hne) as (m2 & sm2 & Hm2 & Hsm2 & Hok2).
  rewrite Hsm1 in Hst. injection Hst as Hst. rewrite Hsm2 in Hen. injection Hen as Hen.
  rewrite <- (message_ok_seq _ _ _ Hok1) in Hst. rewrite <- (message_ok_seq _ _ _ Hok2) in Hen.
  exists b. split; [done|]. split; [done|]. split; [|split; [|split]].
  - split; [done|]. rewrite <- Hst, <- Hen. split; [by eapply sorted_head_last|].
    destruct Hms as [Hf _]. rewrite Forall_forall in Hf. apply last_Some_elem_of in Hm2.
    destruct (Hf _ Hm2) as (sm & Hok & Hle). by rewrite (message_ok_seq _ _ _ Hok).
  - unfold range_ok. rewrite Hbm, Hm1, Hm2. cbn. by rewrite Hst, Hen.
  - exists sms. rewrite Hbm. split_and!; auto.
    unfold verify_all_signatures in Hver. by destruct (verify_batch_signature _) as [[]| |].
  - apply Forall_forall. intros a Ha. unfold before. rewrite <- Hst.
    rewrite Forall_forall in Hranges. destruct (Hranges a Ha) as [_ Hlast].
    destruct (last (CborBatch.messages a)) as [ma|] eqn:Ela; [|done]. injection Hlast as <-.
    destruct Hgood as [_ Hs]. eapply (StronglySorted_app_1_elem_of _ _ _ _ _ Hs).
    + apply list_elem_of_In, in_concat. exists (CborBatch.messages a).
      split; apply list_elem_of_In; [by apply list_elem_of_fmap_2 | by apply last_Some_elem_of].
    + by apply head_Some_elem_of.
Qed.

Lemma flush_batch_inv bs0 km b added vk created_at instant :
  batcher_inv bs0 km vk b added -> good_after bs0 vk added ->
  key_bytes vk (EvmKeyManager.public_key km) -> signer_available km -> is_u64 created_at ->
  exists b' r, Batcher.flush_batch b created_at instant = (b', Ok r) /\ batcher_inv bs0 km vk b' added /\
    Batcher.pending b' = [] /\ Batcher.config b' = Batcher.config b.
Proof using HL CL GL KL ZL SL L.
  intros (Hkm & bs & Hlog & Hr & Hcv & Hadd) Hgood Hk Hav Hca. unfold Batcher.flush_batch.
  destruct (Batcher.pending b) as [|pm p] eqn:Ep.
  - exists b, None. split_and!; auto. split; [done|]. by exists bs.
  - rewrite <- Ep. fold (pending_messages b).
    destruct (batch_of_pending vk (EvmKeyManager.public_key km)
                (Batcher.sign_batch_data (Batcher.with_pending b [] 0)) created_at bs (pending_messages b))
      as (batch & Hnew & Hbm & Hpub & Hrb & Hcb & Hbef);
      [unfold pending_messages; by rewrite Ep | rewrite Hadd; apply Hgood | done | done | | done |].
    { unfold Batcher.sign_batch_data. cbn. rewrite Hkm. by apply (sign_cose_ok km). }
    rewrite Hkm, Hnew. cbn [Batcher.transport Batcher.with_pending].
    assert (Hbase : Forall (fun a => before a batch) bs0).
    { eapply follows_base; [exact Hgood | done | rewrite Hbm, <- Hadd; set_solver]. }
    destruct (publish_appends _ (bs0 ++ bs) batch Hlog Hpub) as (tr & md & -> & Hlog' & _);
      [by apply Forall_app_2|].
    eexists _, _. split; [reflexivity|]. split_and!; auto. split; [done|].
    exists (bs ++ [batch]). cbn. rewrite app_assoc. split_and!; auto.
    + apply Forall_app_2; [done | by apply Forall_singleton].
    + apply Forall_app_2; [done | by apply Forall_singleton].
    + unfold published, pending_messages. cbn. rewrite map_app, concat_app. cbn.
      by rewrite Hbm, !app_nil_r.
Qed.

Lemma add_message_inv bs0 km b added vk m created_at instant :
  batcher_inv bs0 km vk b added -> good_after bs0 vk (added ++ [m]) ->
  key_bytes vk (EvmKeyManager.public_key km) -> signer_available km -> is_u64 created_at ->
  exists b', Batcher.handle_add_message b m created_at instant = (b', Ok tt) /\
    batcher_inv bs0 km vk b' (added ++ [m]).
Proof using HL CL GL KL ZL SL L.
  intros (Hkm & bs & Hlog & Hr & Hcv & Hadd) Hgood Hk Hav Hca. unfold Batcher.handle_add_message.
  set (b1 := Batcher.with_pending b _ _).
  assert (Hinv : batcher_inv bs0 km vk b1 (added ++ [m])).
  { split; [done|]. exists bs. split_and!; auto. unfold pending_messages. cbn.
    rewrite map_app, app_assoc. cbn. by rewrite <- Hadd. }
  destruct (Batcher.should_flush b1); [|by exists b1].
  destruct (flush_batch_inv bs0 km b1 (added ++ [m]) vk created_at instant) as (b2 & r & -> & Hb2 & _); auto.
  by exists b2.
Qed.
End batcher_inv.
