(* ===== verification/BatcherProps.v ===== *)
(** * Properties of the batcher (crates/synddb-sequencer/src/batcher.rs) *)
From Stdlib Require Import Ascii Strings.Byte.
From S2P Require Import Prelude RustStd Batches Extern Reference Cose CborBatches SignedTypes.
From S2P Require Import SyncIndex Inbox InboxProps WireProps Transport TransportProps Batcher.

Definition event_messages (ev : BatcherEvent) : list CborSignedMessage.t :=
  match ev with Recv (AddMessage m) _ _ => [m] | _ => [] end.
Definition event_clock (ev : BatcherEvent) : Z :=
  match ev with Recv _ c _ | Tick c _ => c end.
Definition is_shutdown (ev : BatcherEvent) : bool :=
  match ev with Recv Shutdown _ _ => true | _ => false end.
Definition response_ok (r : BatcherResponse) : bool :=
  match r with RespAdd r => is_ok r | RespFlush r => is_ok r | _ => true end.

Section claims.
Context `{HX : Hex} `{CR : Crypto} `{SG : !Signer} `{CS : Cose} `{CC : !CoseCodec} `{ZS : Zstd}.
Context `{SW : Serde CborBatchWire.t}.
Context {T : Type} `{TP : TransportPublisher T}.

Section conservation.
Context {log : T -> list CborBatch.t -> Prop}.
Context {HL : HexLaws} {CL : CryptoLaws} {GL : SignerLaws} {KL : CoseLaws} {ZL : ZstdLaws}.
Context {SL : SerdeLaws CborBatchWire.t CborBatchWire.valid} {L : TransportLaws T log}.
Context (km : EvmKeyManager.t) (vk : VerifyingKey).
Context (Hk : key_bytes vk (EvmKeyManager.public_key km)) (Hav : signer_available km).

Lemma step_inv bs0 b added ev :
  batcher_inv (log := log) bs0 km vk b added -> good_after bs0 vk (added ++ event_messages ev) ->
  is_u64 (event_clock ev) ->
  exists b' resp, Batcher.step b ev = (b', resp, negb (is_shutdown ev)) /\ response_ok resp = true /\
    batcher_inv (log := log) bs0 km vk b' (added ++ event_messages ev) /\
    (is_shutdown ev = true -> Batcher.pending b' = []).
Proof using HL CL GL KL ZL SL L Hk Hav.
  intros Hinv Hgood Hc.
  destruct ev as [[m| | |] ca inst | ca inst]; cbn in *; rewrite ?app_nil_r in *.
  - destruct (add_message_inv bs0 km b added vk m ca inst) as (b' & -> & Hb'); auto.
    eexists _, _. by split_and!.
  - destruct (flush_batch_inv bs0 km b added vk ca inst) as (b' & r & -> & Hb' & _); auto.
    eexists _, _. by split_and!.
  - eexists _, _. by split_and!.
  - destruct (Batcher.pending b) eqn:Ep; [eexists _, _; by split_and!|].
    destruct (flush_batch_inv bs0 km b added vk ca inst) as (b' & r & -> & Hb' & Hp & _); auto.
    eexists _, _. by split_and!.
  - destruct (negb _ && _); [|eexists _, _; by split_and!].
    destruct (flush_batch_inv bs0 km b added vk ca inst) as (b' & r & -> & Hb' & _); auto.
    eexists _, _. by split_and!.
Qed.

Lemma run_inv bs0 evs : forall b added,
  batcher_inv (log := log) bs0 km vk b added ->
  good_after bs0 vk (added ++ concat (map event_messages evs)) ->
  Forall (fun ev => is_u64 (event_clock ev) /\ is_shutdown ev = false) evs ->
  exists b' rs, Batcher.run b evs = (b', rs) /\ Forall (fun r => response_ok r = true) rs /\
    batcher_inv (log := log) bs0 km vk b' (added ++ concat (map event_messages evs)).
Proof using HL CL GL KL ZL SL L Hk Hav.
  induction evs as [|ev evs IH]; intros b added Hinv Hgood Hevs; cbn [Batcher.run map concat] in *.
  - exists b, []. rewrite app_nil_r. auto.
  - apply Forall_cons in Hevs as [[Hc Hs] Hevs]. rewrite app_assoc in *.
    destruct (step_inv bs0 b added ev) as (b1 & resp & -> & Hresp & Hb1 & _);
      [done | by eapply good_after_app_l | done |]. rewrite Hs. cbn [negb].
    destruct (IH b1 _ Hb1 Hgood Hevs) as (b2 & rs & -> & Hrs & Hb2).
    exists b2, (resp :: rs). auto.
Qed.

Lemma run_snoc evs ev : forall b b1 rs,
  Batcher.run b evs = (b1, rs) -> Forall (fun e => is_shutdown e = false) evs ->
  (forall b e, is_shutdown e = false -> snd (Batcher.step b e) = true) ->
  fst (Batcher.run b (evs ++ [ev])) = fst (fst (Batcher.step b1 ev)).
Proof.
  induction evs as [|e evs IH]; intros b b1 rs Hrun Hsh Hc; cbn [Batcher.run app] in *.
  - injection Hrun as <- _. destruct (Batcher.step b ev) as [[b' r] c]. by destruct c.
  - apply Forall_cons in Hsh as [He Hsh]. pose proof (Hc b e He) as Hce.
    destruct (Batcher.step b e) as [[b' r] c]. cbn in Hce. subst c.
    destruct (Batcher.run b' evs) as [b2 rs2] eqn:E. injection Hrun as -> _.
    specialize (IH _ _ _ E Hsh Hc). destruct (Batcher.run b' (evs ++ [ev])). exact IH.
Qed.

Lemma step_continues (b : Batcher.t T) ev : is_shutdown ev = false -> snd (Batcher.step b ev) = true.
Proof.
  destruct ev as [[m| | |] ca inst | ca inst]; cbn; intros He; try done.
  - by destruct (Batcher.handle_add_message _ _ _ _).
  - by destruct (Batcher.flush_batch _ _ _).
  - destruct (negb _ && _); [|done]. by destruct (Batcher.flush_batch _ _ _).
Qed.

Lemma run_from_start config tr0 instant0 evs :
  log tr0 [] -> good_messages vk (concat (map event_messages evs)) ->
  Forall (fun ev => is_u64 (event_clock ev) /\ is_shutdown ev = false) evs ->
  exists b rs, Batcher.run (Batcher.spawn config tr0 km instant0) evs = (b, rs) /\
    Forall (fun r => response_ok r = true) rs /\
    batcher_inv (log := log) [] km vk b (concat (map event_messages evs)).
Proof using HL CL GL KL ZL SL L Hk Hav.
  intros Hlog Hgood Hevs.
  assert (Hinv : batcher_inv (log := log) [] km vk (Batcher.spawn config tr0 km instant0) []).
  { split; [done|]. exists []. by split_and!. }
  destruct (run_inv [] evs _ [] Hinv (good_after_nil _ _ Hgood) Hevs) as (b & rs & Hrun & Hrs & Hb). by exists b, rs.
Qed.

(** After a shutdown the log alone holds what was added. *)
Lemma shutdown_log config tr0 instant0 evs created_at instant :
  log tr0 [] -> good_messages vk (concat (map event_messages evs)) ->
  Forall (fun ev => is_u64 (event_clock ev) /\ is_shutdown ev = false) evs -> is_u64 created_at ->
  exists bs, log (Batcher.transport (fst (Batcher.run (Batcher.spawn config tr0 km instant0)
                                            (evs ++ [Recv Shutdown created_at instant])))) bs /\
    Forall range_ok bs /\ Forall (converts vk) bs /\ published bs = concat (map event_messages evs).
Proof using HL CL GL KL ZL SL L Hk Hav.
  intros Hlog Hgood Hevs Hca.
  destruct (run_from_start config tr0 instant0 evs Hlog Hgood Hevs) as (b & rs & Hrun & _ & Hb).
  rewrite (run_snoc evs _ _ _ _ Hrun); [|eapply Forall_impl; [exact Hevs|by intros ? []] |
    apply step_continues].
  destruct (step_inv [] b (concat (map event_messages evs)) (Recv Shutdown created_at instant))
    as (b' & resp & -> & _ & (_ & bs & Hl & Hr & Hcv & Ha) & Hp); [done | rewrite app_nil_r; by apply good_after_nil | done |].
  exists bs. split_and!; auto. cbn in Ha. rewrite app_nil_r in Ha.
  unfold pending_messages in Ha. rewrite Hp in Ha by done. cbn in Ha. by rewrite app_nil_r in Ha.
Qed.

End conservation.

(** *** Accounting, whatever the transport and the signer answer *)

(** The events the loop serves: up to the first shutdown. *)
Fixpoint taken_events (evs : list BatcherEvent) : list BatcherEvent :=
  match evs with
  | [] => []
  | ev :: evs' => ev :: (if is_shutdown ev then [] else taken_events evs')
  end.

(** The messages the loop was given. *)
Definition added_messages (evs : list BatcherEvent) : list CborSignedMessage.t :=
  concat (map event_messages (taken_events evs)).

(** The groups of messages the flushes drained, in order, each with whether it
    was published, between two states of the transport: a group became one batch
    of exactly its messages that [publish] took or refused, or no batch could be
    made of it and the transport was not called. *)
Inductive flushed (pk : bytes) (sign_fn : bytes -> result CborError Signature) (tr : T)
  : list (list CborSignedMessage.t * bool) -> T -> Prop :=
| flushed_none : flushed pk sign_fn tr [] tr
| flushed_batch gs tr1 tr2 ms created_at batch r :
    flushed pk sign_fn tr gs tr1 ->
    CborBatch.new ms created_at pk sign_fn = Ok batch ->
    CborBatch.messages batch = ms -> range_ok batch ->
    publish tr1 batch = (tr2, r) -> flushed pk sign_fn tr (gs ++ [(ms, is_ok r)]) tr2
| flushed_unbuilt gs tr1 ms created_at :
    flushed pk sign_fn tr gs tr1 -> is_ok (CborBatch.new ms created_at pk sign_fn) = false ->
    flushed pk sign_fn tr (gs ++ [(ms, false)]) tr1.

(** Since the batcher was in the state [b0], with the key it signs with. *)
Definition history (b0 : Batcher.t T) : list (list CborSignedMessage.t * bool) -> T -> Prop :=
  flushed (EvmKeyManager.public_key (Batcher.key_manager b0)) (Batcher.sign_batch_data b0) (Batcher.transport b0).

(** Everything given to the batcher is in a flushed group or pending, and a flush
    that published leaves nothing unaccounted: [ok] says that every group so far
    was published. *)
Definition accounted (b0 : Batcher.t T) (given : list CborSignedMessage.t) (ok : bool) (b : Batcher.t T) : Prop :=
  Batcher.key_manager b = Batcher.key_manager b0 /\
  exists gs, history b0 gs (Batcher.transport b) /\ concat gs.*1 ++ pending_messages b = given /\
    forallb snd gs = ok.

Lemma new_range ms created_at pk sign_fn batch :
  CborBatch.new ms created_at pk sign_fn = Ok batch -> CborBatch.messages batch = ms /\ range_ok batch.
Proof.
  unfold CborBatch.new, range_ok, seq_of. destruct ms as [|m ms]; [done|].
  set (l := m :: ms). intros H. ok_inv. cbn. split; [done|].
  unfold CborBatch.sequence_of in *. destruct (last l) as [m'|]; [|done]. cbn in *. by rewrite E, E0.
Qed.

Lemma sign_batch_data_key (b b' : Batcher.t T) :
  Batcher.key_manager b = Batcher.key_manager b' -> Batcher.sign_batch_data b = Batcher.sign_batch_data b'.
Proof. intros H. unfold Batcher.sign_batch_data. by rewrite H. Qed.

(** A flush that drains the pending messages adds them as one more group. *)
Lemma accounted_group b0 given ok r b b' :
  accounted b0 given ok b -> Batcher.key_manager b' = Batcher.key_manager b -> Batcher.pending b' = [] ->
  (forall gs, history b0 gs (Batcher.transport b) ->
   history b0 (gs ++ [(pending_messages b, r)]) (Batcher.transport b')) ->
  accounted b0 given (ok && r) b'.
Proof.
  intros (Hkm & gs & Hgs & Hall & Hok) Hk Hp Hstep. split; [congruence|].
  exists (gs ++ [(pending_messages b, r)]). split_and!; [by apply Hstep | |].
  - unfold pending_messages at 2. by rewrite Hp, fmap_app, concat_app, <- Hall; cbn; rewrite !app_nil_r.
  - by rewrite forallb_app, Hok; cbn; rewrite andb_true_r.
Qed.

Lemma flush_empties (b : Batcher.t T) ca inst : Batcher.pending (fst (Batcher.flush_batch b ca inst)) = [].
Proof.
  unfold Batcher.flush_batch. destruct (Batcher.pending b) eqn:Ep; [done|].
  destruct (CborBatch.new _ _ _ _); [|done..]. by destruct (publish _ _) as [tr []].
Qed.

Lemma flush_accounted b0 given ok b ca inst :
  accounted b0 given ok b ->
  accounted b0 given (ok && is_ok (snd (Batcher.flush_batch b ca inst))) (fst (Batcher.flush_batch b ca inst)).
Proof.
  intros Hacc. pose proof (proj1 Hacc) as Hkm. unfold Batcher.flush_batch.
  destruct (Batcher.pending b) as [|pm p] eqn:Ep; [by rewrite andb_true_r|].
  rewrite <- Ep. fold (pending_messages b). rewrite Hkm.
  rewrite (sign_batch_data_key (Batcher.with_pending b [] 0) b0 Hkm).
  destruct (CborBatch.new _ _ _ _) as [batch|e|w] eqn:Enew.
  - destruct (new_range _ _ _ _ _ Enew) as [Hms Hr]. cbn [Batcher.transport Batcher.with_pending].
    destruct (publish (Batcher.transport b) batch) as [tr r] eqn:Epub.
    assert (Hstep : forall gs, history b0 gs (Batcher.transport b) ->
              history b0 (gs ++ [(pending_messages b, is_ok r)]) tr) by (intros; by eapply flushed_batch).
    destruct r; by apply (accounted_group b0 given ok _ b).
  - apply (accounted_group b0 given ok false b); [done..|].
    intros gs Hgs. eapply flushed_unbuilt; [done|]. by rewrite Enew.
  - apply (accounted_group b0 given ok false b); [done..|].
    intros gs Hgs. eapply flushed_unbuilt; [done|]. by rewrite Enew.
Qed.

(** One event: its message is accounted for; an answer that is an error was a
    group that was not published. *)
Lemma step_accounted b0 given ok b ev :
  accounted b0 given ok b ->
  exists ok', accounted b0 (given ++ event_messages ev) (ok && ok') (fst (fst (Batcher.step b ev))) /\
    (ok' = true -> response_ok (snd (fst (Batcher.step b ev))) = true) /\
    snd (Batcher.step b ev) = negb (is_shutdown ev) /\
    (is_shutdown ev = true -> Batcher.pending (fst (fst (Batcher.step b ev))) = []).
Proof.
  intros Hacc. destruct ev as [[m| | |] ca inst | ca inst]; cbn [Batcher.step event_messages is_shutdown];
    rewrite ?app_nil_r; try (pose proof (flush_accounted b0 given ok b ca inst Hacc) as Hf;
      destruct (Batcher.flush_batch b ca inst) as [b' r] eqn:Ef; cbn in Hf).
  - unfold Batcher.handle_add_message. set (b1 := Batcher.with_pending b _ _).
    assert (H1 : accounted b0 (given ++ [m]) ok b1).
    { destruct Hacc as (Hkm & gs & Hgs & Hall & Hok). split; [done|]. exists gs. split_and!; [done| |done].
      unfold pending_messages. cbn. by rewrite map_app, app_assoc; cbn; rewrite <- Hall. }
    destruct (Batcher.should_flush b1); [|exists true; by rewrite andb_true_r].
    pose proof (flush_accounted b0 _ ok b1 ca inst H1) as H2.
    destruct (Batcher.flush_batch b1 ca inst) as [b2 r2]. exists (is_ok r2). by destruct r2.
  - exists (is_ok r). by split_and!.
  - exists true. rewrite andb_true_r. by split_and!.
  - destruct (Batcher.pending b) eqn:Ep; [exists true; rewrite andb_true_r; by split_and!|].
    exists (is_ok r). split_and!; [done..|]. intros _.
    pose proof (flush_empties b ca inst) as Hp. by rewrite Ef in Hp.
  - destruct (negb _ && _); [|exists true; rewrite andb_true_r; by split_and!].
    exists (is_ok r). by split_and!.
Qed.

Lemma run_accounted b0 evs : forall given ok b,
  accounted b0 given ok b ->
  exists ok', accounted b0 (given ++ added_messages evs) (ok && ok') (fst (Batcher.run b evs)) /\
    (ok' = true -> Forall (fun r => response_ok r = true) (snd (Batcher.run b evs))) /\
    (existsb is_shutdown evs = true -> Batcher.pending (fst (Batcher.run b evs)) = []).
Proof.
  unfold added_messages. induction evs as [|ev evs IH]; intros given ok b Hacc; cbn [Batcher.run taken_events map concat existsb].
  { exists true. rewrite app_nil_r, andb_true_r. by split_and!. }
  destruct (step_accounted b0 given ok b ev Hacc) as (ok1 & Hacc1 & Hr & Hc & Hp).
  destruct (Batcher.step b ev) as [[b1 r1] c1]. cbn in *. subst c1.
  destruct (is_shutdown ev); cbn.
  - exists ok1. rewrite app_nil_r. split_and!; auto.
  - destruct (IH _ _ b1 Hacc1) as (ok2 & Hacc2 & Hrs & Hp2).
    destruct (Batcher.run b1 evs) as [b2 rs]. exists (ok1 && ok2). cbn in *.
    rewrite app_assoc, andb_assoc. split_and!; [done | | done].
    intros [H1 H2]%andb_true_iff. auto.
Qed.

(** C4. Accounting and conservation of messages.  Whatever commands and ticks the
    batcher is sent, in whatever order the messages come, and whatever the
    transport and the signer answer: the messages it was given up to a shutdown
    are, in the order they were given, the groups its flushes drained followed by
    the pending ones, so none is repeated, reordered or forgotten; each group was
    made into one batch of exactly its messages, numbered from the first to the
    last of them, and offered to the transport once, or no batch could be built of
    it; an answer that is an error means that some group was not published; and a
    shutdown leaves nothing pending.  Over a transport that keeps its promise and
    starts empty, with a signer that answers, and when the messages are the
    inbox's in the order of their numbers (which the concurrent handlers do not
    guarantee), every command succeeds and the log itself followed by the pending
    messages is what was added. *)
Theorem batcher_conserves_messages config tr0 km instant0 evs :
  (exists gs ok b rs, Batcher.run (Batcher.spawn config tr0 km instant0) evs = (b, rs) /\
    history (Batcher.spawn config tr0 km instant0) gs (Batcher.transport b) /\
    concat gs.*1 ++ pending_messages b = added_messages evs /\ forallb snd gs = ok /\
    (ok = true -> Forall (fun r => response_ok r = true) rs) /\
    (existsb is_shutdown evs = true -> Batcher.pending b = [])) /\
  (forall (log : T -> list CborBatch.t -> Prop) (HL : HexLaws) (CL : CryptoLaws) (GL : SignerLaws)
      (KL : CoseLaws) (ZL : ZstdLaws) (SL : SerdeLaws CborBatchWire.t CborBatchWire.valid)
      (L : TransportLaws T log) vk,
    key_bytes vk (EvmKeyManager.public_key km) -> signer_available km ->
    log tr0 [] -> good_messages vk (concat (map event_messages evs)) ->
    Forall (fun ev => is_u64 (event_clock ev) /\ is_shutdown ev = false) evs ->
    exists b rs bs, Batcher.run (Batcher.spawn config tr0 km instant0) evs = (b, rs) /\
      Forall (fun r => response_ok r = true) rs /\ log (Batcher.transport b) bs /\
      Forall range_ok bs /\ published bs ++ pending_messages b = concat (map event_messages evs)).
Proof.
  split.
  - set (b0 := Batcher.spawn config tr0 km instant0).
    assert (H0 : accounted b0 [] true b0) by (split; [done|]; exists []; split_and!; by try constructor).
    destruct (run_accounted b0 evs [] true b0 H0) as (ok & (_ & gs & Hgs & Hall & Hok) & Hrs & Hp).
    destruct (Batcher.run b0 evs) as [b rs]. cbn in *. by exists gs, ok, b, rs.
  - intros log HL CL GL KL ZL SL L vk Hk Hav Hlog Hgood Hevs.
    destruct (run_from_start (log := log) km vk Hk Hav config tr0 instant0 evs Hlog Hgood Hevs)
      as (b & rs & Hrun & Hrs & (_ & bs & Hl & Hr & _ & Ha)). by exists b, rs, bs.
Qed.

(** *** Thresholds *)

Definition size_of (m : CborSignedMessage.t) : Z := Z.of_nat (CborSignedMessage.size m).
Definition total_size (ms : list CborSignedMessage.t) : Z := foldr Z.add 0 (map size_of ms).

(** A message that the byte counter, a [usize], can take on top of a full batch. *)
Definition countable (cfg : BatchConfig.t) (m : CborSignedMessage.t) : Prop :=
  size_of m + BatchConfig.max_batch_bytes cfg < 2 ^ 64.

(** Between two events: below both thresholds, and the counter is the size. *)
Definition within (cfg : BatchConfig.t) (b : Batcher.t T) : Prop :=
  Batcher.config b = cfg /\
  Z.of_nat (length (pending_messages b)) < BatchConfig.max_messages cfg /\
  total_size (pending_messages b) < BatchConfig.max_batch_bytes cfg /\
  Batcher.pending_bytes b = total_size (pending_messages b).

Lemma total_size_app l1 l2 : total_size (l1 ++ l2) = total_size l1 + total_size l2.
Proof.
  unfold total_size. rewrite map_app. induction (map size_of l1) as [|x l IH]; cbn in *; lia.
Qed.

Lemma total_size_nonneg l : 0 <= total_size l.
Proof. unfold total_size, size_of. induction l; cbn in *; lia. Qed.

Lemma pending_nil (b : Batcher.t T) : pending_messages b = [] <-> Batcher.pending b = [].
Proof. unfold pending_messages. by destruct (Batcher.pending b). Qed.

Lemma flush_config (b : Batcher.t T) ca inst : Batcher.config (fst (Batcher.flush_batch b ca inst)) = Batcher.config b.
Proof.
  unfold Batcher.flush_batch. destruct (Batcher.pending b); [done|].
  destruct (CborBatch.new _ _ _ _); [|done..]. by destruct (publish _ _) as [tr []].
Qed.

Lemma flush_bytes (b : Batcher.t T) ca inst :
  Batcher.pending b <> [] -> Batcher.pending_bytes (fst (Batcher.flush_batch b ca inst)) = 0.
Proof.
  unfold Batcher.flush_batch. destruct (Batcher.pending b); [done|].
  destruct (CborBatch.new _ _ _ _); [|done..]. by destruct (publish _ _) as [tr []].
Qed.

Lemma flush_within cfg b ca inst :
  0 < BatchConfig.max_messages cfg -> 0 < BatchConfig.max_batch_bytes cfg ->
  Batcher.config b = cfg -> Batcher.pending b <> [] -> within cfg (fst (Batcher.flush_batch b ca inst)).
Proof.
  intros Hm Hb Hc Hne. split; [by rewrite flush_config|].
  rewrite (proj2 (pending_nil _) (flush_empties b ca inst)), flush_bytes by done. by split_and!.
Qed.

(** An added message is kept when both thresholds stay unreached, and flushed
    with the pending ones otherwise. *)
Lemma add_thresholds cfg b m ca inst :
  within cfg b -> countable cfg m ->
  0 < BatchConfig.max_messages cfg -> 0 < BatchConfig.max_batch_bytes cfg ->
  within cfg (fst (Batcher.handle_add_message b m ca inst)) /\
  let b' := fst (Batcher.handle_add_message b m ca inst) in
  let ms := pending_messages b ++ [m] in
  if decide (Z.of_nat (length ms) < BatchConfig.max_messages cfg /\
             total_size ms < BatchConfig.max_batch_bytes cfg)
  then pending_messages b' = ms /\ Batcher.transport b' = Batcher.transport b
  else pending_messages b' = [].
Proof.
  intros (Hc & Hn & Hs & Hb) Hm H1 H2. unfold Batcher.handle_add_message.
  set (b1 := Batcher.with_pending b _ _). cbn zeta.
  assert (Hp : pending_messages b1 = pending_messages b ++ [m]) by (unfold pending_messages; cbn; apply map_app).
  assert (Hsz : total_size (pending_messages b ++ [m]) = total_size (pending_messages b) + size_of m)
    by (rewrite total_size_app; unfold total_size at 2; cbn; lia).
  pose proof (total_size_nonneg (pending_messages b)).
  assert (Hb1 : Batcher.pending_bytes b1 = total_size (pending_messages b ++ [m])).
  { cbn. rewrite Hb, Hsz. unfold u64_add, as_u64, countable in *. fold (size_of m).
    apply Z.mod_small. unfold size_of in *. lia. }
  assert (Hlen : length (Batcher.pending b1) = length (pending_messages b ++ [m]))
    by (rewrite <- Hp; unfold pending_messages; by rewrite length_map).
  assert (Hne : Batcher.pending b1 <> []) by (cbn; apply app_not_nil_snoc).
  unfold Batcher.should_flush. rewrite Hlen, Hb1, (eq_refl : Batcher.config b1 = Batcher.config b), Hc.
  pose proof (flush_within cfg b1 ca inst H1 H2 Hc Hne) as Hw.
  pose proof (proj2 (pending_nil _) (flush_empties b1 ca inst)) as He.
  destruct (decide _) as [[Hl Ht]|Hno].
  - rewrite !(proj2 (Z.leb_gt _ _)) by done. cbn [orb fst]. unfold within. rewrite Hp. by split_and!.
  - replace (_ || _) with true by (symmetry; apply orb_true_iff; rewrite !Z.leb_le; lia).
    by destruct (Batcher.flush_batch b1 ca inst) as [b2 []].
Qed.

Lemma step_within cfg b ev :
  0 < BatchConfig.max_messages cfg -> 0 < BatchConfig.max_batch_bytes cfg ->
  Forall (countable cfg) (event_messages ev) ->
  within cfg b -> within cfg (fst (fst (Batcher.step b ev))).
Proof.
  intros H1 H2 Hm Hw.
  assert (Hf : forall ca inst, within cfg (fst (Batcher.flush_batch b ca inst))).
  { intros ca inst. destruct (decide (Batcher.pending b = [])) as [E|E].
    - unfold Batcher.flush_batch. by rewrite E.
    - by apply flush_within; [.. | apply Hw | ]. }
  destruct ev as [[m| | |] ca inst | ca inst]; cbn [Batcher.step]; try specialize (Hf ca inst).
  - cbn in Hm. apply Forall_cons_1 in Hm as [Hm _]. pose proof (proj1 (add_thresholds cfg b m ca inst Hw Hm H1 H2)) as Ha.
    by destruct (Batcher.handle_add_message b m ca inst).
  - by destruct (Batcher.flush_batch b ca inst).
  - done.
  - destruct (Batcher.pending b); [done|]. by destruct (Batcher.flush_batch b ca inst).
  - destruct (negb _ && _); [|done]. by destruct (Batcher.flush_batch b ca inst).
Qed.

Lemma run_within cfg evs : 
  0 < BatchConfig.max_messages cfg -> 0 < BatchConfig.max_batch_bytes cfg ->
  forall b, Forall (countable cfg) (concat (map event_messages evs)) -> within cfg b ->
  within cfg (fst (Batcher.run b evs)).
Proof.
  intros H1 H2. induction evs as [|ev evs IH]; intros b Hms Hw; cbn [Batcher.run map concat] in *; [done|].
  apply Forall_app in Hms as [Hm Hms]. pose proof (step_within cfg b ev H1 H2 Hm Hw) as Hs.
  destruct (Batcher.step b ev) as [[b1 r1] []]; [|done]. cbn in Hs.
  specialize (IH b1 Hms Hs). by destruct (Batcher.run b1 evs).
Qed.

(** C37. The thresholds, from the start of the task and after any commands and
    ticks, whatever the transport and the signer do: with positive [max_messages]
    and [max_batch_bytes], and messages whose size the [usize] counter can take on
    top of a full batch, fewer than [max_messages] messages of fewer than
    [max_batch_bytes] bytes in all stay pending and [pending_bytes] is their size;
    and the next message is kept pending exactly when it leaves both thresholds
    unreached: otherwise it is flushed at once with the others. *)
Theorem batcher_thresholds cfg tr0 km instant0 evs :
  0 < BatchConfig.max_messages cfg -> 0 < BatchConfig.max_batch_bytes cfg ->
  Forall (countable cfg) (concat (map event_messages evs)) ->
  let b := fst (Batcher.run (Batcher.spawn cfg tr0 km instant0) evs) in
  Z.of_nat (length (pending_messages b)) < BatchConfig.max_messages cfg /\
  total_size (pending_messages b) < BatchConfig.max_batch_bytes cfg /\
  Batcher.pending_bytes b = total_size (pending_messages b) /\
  forall m ca inst, countable cfg m ->
    let b' := fst (Batcher.handle_add_message b m ca inst) in
    let ms := pending_messages b ++ [m] in
    if decide (Z.of_nat (length ms) < BatchConfig.max_messages cfg /\
               total_size ms < BatchConfig.max_batch_bytes cfg)
    then pending_messages b' = ms /\ Batcher.transport b' = Batcher.transport b
    else pending_messages b' = [].
Proof.
  intros H1 H2 Hms b. assert (Hw : within cfg b) by (apply run_within; [done..|]; by split_and!).
  pose proof Hw as (_ & Hn & Hs & Hb). split_and!; [done..|].
  intros m ca inst Hm. exact (proj2 (add_thresholds cfg b m ca inst Hw Hm H1 H2)).
Qed.

(** Messages are lost when a flush fails: if building the batch or publishing
    it returns an error, the caller gets that error, the pending messages are gone
    from the batcher, and the transport is as [publish] left it, so no later flush
    can publish them.  (The module promises that pending messages are published at
    the latest on shutdown.) *)
Theorem failed_flush_drops_pending b created_at instant batch tr e :
  Batcher.pending b <> [] ->
  CborBatch.new (pending_messages b) created_at (EvmKeyManager.public_key (Batcher.key_manager b))
    (Batcher.sign_batch_data b) = Ok batch ->
  publish (Batcher.transport b) batch = (tr, Err e) ->
  exists b', Batcher.flush_batch b created_at instant = (b', Err (BatcherTransport e)) /\
    Batcher.pending b' = [] /\ Batcher.pending_bytes b' = 0 /\ Batcher.transport b' = tr /\
    (forall ca inst, fst (Batcher.flush_batch b' ca inst) = b').
Proof.
  intros Hp Hnew Hpub. eexists. split.
  - unfold Batcher.flush_batch. destruct (Batcher.pending b) eqn:Ep; [done|]. rewrite <- Ep.
    fold (pending_messages b).
    change (Batcher.sign_batch_data (Batcher.with_pending b [] 0)) with (Batcher.sign_batch_data b).
    rewrite Hnew. cbn [Batcher.transport Batcher.with_pending]. rewrite Hpub. reflexivity.
  - by split_and!.
Qed.
End claims.

(** ** Witnesses on the reference instances *)

Definition demo_config : BatchConfig.t := BatchConfig.mk 2 100000 5000.
Definition demo_batcher : Batcher.t Local.t :=
  Batcher.spawn demo_config (Local.new Local.InMemory) demo_km 0.
Definition no_message : CborSignedMessage.t := CborSignedMessage.from_bytes [].
Definition demo_msg (n : Z) : CborSignedMessage.t :=
  match Inbox.sign_sequenced demo_km n 1700 Changeset [x61] with Ok (m, _) => m | _ => no_message end.

Lemma demo_msg_ok n :
  is_u64 n -> exists sm, message_ok demo_vk (demo_msg n) sm /\ SignedMessage.sequence sm = n.
Proof.
  intros Hn. destruct (sequenced_message_ok demo_km demo_vk n 1700 Changeset [x61])
    as (m & r & c & sm & Hm & Hok & Hs & _);
    [done | done | apply ref_signer_available | apply demo_key_bytes |].
  exists sm. unfold demo_msg. by rewrite Hm.
Qed.

Lemma demo_messages_good : good_messages demo_vk [demo_msg 0; demo_msg 1; demo_msg 2].
Proof.
  assert (Hseq : forall n, is_u64 n -> seq_of (demo_msg n) = n).
  { intros n Hn. destruct (demo_msg_ok n Hn) as (sm & Hok & <-). by eapply message_ok_seq. }
  split.
  - repeat apply Forall_cons_2; [| | |constructor];
      match goal with |- exists _, message_ok _ (demo_msg ?n) _ /\ _ =>
        destruct (demo_msg_ok n) as (sm & Hok & Hn); [done|]; exists sm; split; [exact Hok|];
        rewrite Hn; unfold i64_max; lia end.
  - repeat (constructor; [|repeat apply Forall_cons_2; try constructor; rewrite !Hseq by done; lia]).
    constructor.
Qed.

Definition demo_events : list BatcherEvent :=
  [Recv (AddMessage (demo_msg 0)) 1800 10; Recv (AddMessage (demo_msg 1)) 1801 20;
   Tick 1802 4000; Recv (AddMessage (demo_msg 2)) 1803 4100].

Lemma batcher_conserves_messages_witness :
  exists b rs bs, Batcher.run demo_batcher demo_events = (b, rs) /\
    local_log (rows := ref_rows) (Batcher.transport b) bs /\
    published bs ++ pending_messages b = [demo_msg 0; demo_msg 1; demo_msg 2].
Proof.
  destruct (proj2 (batcher_conserves_messages demo_config (Local.new Local.InMemory) demo_km 0 demo_events)
              (local_log (rows := ref_rows)) _ _ _ _ _ _ _ demo_vk demo_key_bytes (ref_signer_available demo_km))
    as (b & rs & bs & Hrun & _ & Hlog & _ & Hall).
  - split; [by split; constructor | constructor].
  - exact demo_messages_good.
  - repeat (apply Forall_cons_2; [done|]). constructor.
  - exists b, rs, bs. split; [exact Hrun|]. split; [exact Hlog | exact Hall].
Defined.

Lemma batcher_thresholds_witness :
  Z.of_nat (length (pending_messages (fst (Batcher.run demo_batcher
    [Recv (AddMessage no_message) 5 5; Recv (AddMessage no_message) 6 6; Tick 7 7;
     Recv (AddMessage no_message) 8 8])))) < 2.
Proof.
  refine (proj1 (batcher_thresholds demo_config (Local.new Local.InMemory) demo_km 0 _ _ _ _));
    [reflexivity | reflexivity |].
  repeat (apply Forall_cons_2; [reflexivity|]). constructor.
Defined.

(** A transport that is unreachable. *)
Definition down : TransportPublisher unit := {|
  publish tr _ := (tr, Err (Network "connection refused"));
  fetch _ _ := Err (Network "connection refused");
  list_batches _ := Err (Network "connection refused");
  get_latest_sequence _ := Err (Network "connection refused");
  get_message _ _ := Err (Network "connection refused");
|}.

Definition stuck_batcher : Batcher.t unit :=
  Batcher.mk demo_config tt demo_km [PendingMessage.mk demo_message 10] 10 BatchStats.default 0.

Lemma failed_flush_drops_pending_witness :
  exists b', @Batcher.flush_batch _ _ _ _ _ down stuck_batcher 1800 9
             = (b', Err (BatcherTransport (Network "connection refused"))) /\ Batcher.pending b' = [].
Proof.
  destruct (failed_flush_drops_pending (TP := down) stuck_batcher 1800 9
              (match CborBatch.new [demo_message] 1800 (toy_pubkey 5) demo_sign with
               | Ok b => b | _ => CborBatch.mk 0 0 0 0 [] [] [] [] end) tt (Network "connection refused"))
    as (b' & H & Hp & _); [discriminate | vm_compute; reflexivity | reflexivity |].
  exists b'. split; [exact H | exact Hp].
Defined.
