(* ===== verification/MessageQueue.v ===== *)
(** * The inbound message queue (crates/synddb-sequencer/src/messages/queue.rs)

    A bounded FIFO of blockchain messages with acknowledgement, a retention
    policy and cursor-based reads.  The clock is the argument [now]. *)
From S2P Require Import Prelude RustStd.

Module MessageQueueConfig.
Record t := mk { max_size : nat; retention_secs : Z }.
Definition default : t := mk (Z.to_nat 10000) (24 * 60 * 60).
End MessageQueueConfig.

Module InboundMessage.
Record t := mk {
  id : Z;
  message_id : string;
  message_type : string;
  payload : string;
  sender : string;
  tx_hash : string;
  block_number : Z;
  confirmations : Z;
  timestamp : Z;
  acknowledged : bool;
  acknowledged_at : option Z;
}.
Definition set_acknowledged (m : t) (now : Z) : t :=
  mk (id m) (message_id m) (message_type m) (payload m) (sender m) (tx_hash m) (block_number m)
     (confirmations m) (timestamp m) true (Some now).
End InboundMessage.

Module QueueStats.
Record t := mk { total : nat; pending : nat; acknowledged : nat; max_size : nat }.
End QueueStats.

Module MessageQueue.
Record t := mk {
  config : MessageQueueConfig.t;
  messages : list InboundMessage.t;   (* front first *)
  next_id : Z;
}.

Definition with_config (config : MessageQueueConfig.t) : t := mk config [] 1.
Definition new : t := with_config MessageQueueConfig.default.

(** [while len > max_size { pop_front }] *)
Fixpoint trim (max_size : nat) (l : list InboundMessage.t) : list InboundMessage.t :=
  if (length l <=? max_size)%nat then l
  else match l with [] => [] | _ :: l' => trim max_size l' end.

(** The loop stops at the first message that is pending or recent. *)
Fixpoint drop_expired (cutoff : Z) (l : list InboundMessage.t) : list InboundMessage.t :=
  match l with
  | front :: l' =>
      if InboundMessage.acknowledged front && (InboundMessage.timestamp front <? cutoff)
      then drop_expired cutoff l'
      else l
  | [] => []
  end.
Definition cleanup_expired (q : t) (now : Z) : t :=
  let cutoff := u64_saturating_sub now (MessageQueueConfig.retention_secs (config q)) in
  mk (config q) (drop_expired cutoff (messages q)) (next_id q).

Definition add_message (q : t) (now : Z) (message_id message_type payload sender tx_hash : string)
    (block_number confirmations : Z) : t * Z :=
  let id := next_id q in
  let message := InboundMessage.mk id message_id message_type payload sender tx_hash block_number
                   confirmations now false None in
  let q1 := mk (config q)
              (trim (MessageQueueConfig.max_size (config q)) (messages q ++ [message]))
              (u64_add id 1) in
  (cleanup_expired q1 now, id).

Definition get_messages_after (q : t) (after_id : Z) (limit : nat) : list InboundMessage.t :=
  take limit (List.filter (fun m => after_id <? InboundMessage.id m) (messages q)).
Definition get_pending_messages (q : t) (limit : nat) : list InboundMessage.t :=
  take limit (List.filter (fun m => negb (InboundMessage.acknowledged m)) (messages q)).
Definition get_pending_by_type (q : t) (message_type : string) (limit : nat) : list InboundMessage.t :=
  take limit (List.filter (fun m => negb (InboundMessage.acknowledged m)
                                    && bool_decide (InboundMessage.message_type m = message_type))
                (messages q)).

(** [iter_mut().find]: only the first message with the id is looked at. *)
Fixpoint acknowledge_loop (id now : Z) (l : list InboundMessage.t) : list InboundMessage.t * bool :=
  match l with
  | [] => ([], false)
  | m :: l' =>
      if InboundMessage.id m =? id then
        if InboundMessage.acknowledged m then (l, false)
        else (InboundMessage.set_acknowledged m now :: l', true)
      else let '(r, b) := acknowledge_loop id now l' in (m :: r, b)
  end.
Definition acknowledge (q : t) (id now : Z) : t * bool :=
  let '(l, b) := acknowledge_loop id now (messages q) in (mk (config q) l (next_id q), b).

Definition get_by_id (q : t) (id : Z) : option InboundMessage.t :=
  find (fun m => InboundMessage.id m =? id) (messages q).
Definition latest_id (q : t) : Z :=
  match last (messages q) with Some m => InboundMessage.id m | None => 0 end.

Definition stats (q : t) : QueueStats.t :=
  let total := length (messages q) in
  let pending := length (List.filter (fun m => negb (InboundMessage.acknowledged m)) (messages q)) in
  QueueStats.mk total pending (total - pending) (MessageQueueConfig.max_size (config q)).
End MessageQueue.

(** ** Invariant: ascending ids below the counter, bounded length *)
Definition id_lt (a b : InboundMessage.t) : Prop := InboundMessage.id a < InboundMessage.id b.
Definition queue_inv (q : MessageQueue.t) : Prop :=
  StronglySorted id_lt (MessageQueue.messages q) /\
  Forall (fun m => 0 < InboundMessage.id m < MessageQueue.next_id q) (MessageQueue.messages q) /\
  (length (MessageQueue.messages q) <= MessageQueueConfig.max_size (MessageQueue.config q))%nat /\
  0 < MessageQueue.next_id q <= u64_max.

Lemma trim_drop n l : exists k, MessageQueue.trim n l = drop k l /\
  (length (MessageQueue.trim n l) <= n)%nat /\ k = (length l - n)%nat.
Proof.
  induction l as [|m l IH]; cbn [MessageQueue.trim].
  - exists 0%nat. split_and!; cbn; [by destruct n | destruct n; cbn; lia | lia].
  - destruct (length (m :: l) <=? n)%nat eqn:E.
    + apply Nat.leb_le in E. exists 0%nat. split_and!; [done | done | lia].
    + apply Nat.leb_gt in E. cbn [length] in E. destruct IH as (k & Hk & Hl & ->).
      exists (S (length l - n)). split_and!; [done | done | cbn [length]; lia].
Qed.

Lemma drop_expired_suffix c l :
  exists pre, l = pre ++ MessageQueue.drop_expired c l /\
    Forall (fun m => InboundMessage.acknowledged m = true /\ InboundMessage.timestamp m < c) pre.
Proof.
  induction l as [|m l (pre & Heq & Hp)]; cbn; [by exists []|].
  destruct (InboundMessage.acknowledged m && _) eqn:E; [|by exists []]. bool_to_prop.
  exists (m :: pre). cbn. split; [by rewrite <- Heq | by constructor].
Qed.

Lemma queue_inv_suffix q l pre :
  queue_inv q -> MessageQueue.messages q = pre ++ l ->
  queue_inv (MessageQueue.mk (MessageQueue.config q) l (MessageQueue.next_id q)).
Proof.
  intros (Hs & Hf & Hl & Hn) Heq. rewrite Heq in Hs, Hf, Hl. apply Forall_app in Hf as [_ Hf].
  apply StronglySorted_app_1_r in Hs. rewrite length_app in Hl. unfold queue_inv. cbn. split_and!; auto; lia.
Qed.

Lemma acknowledge_loop_ids id now l :
  map InboundMessage.id (fst (MessageQueue.acknowledge_loop id now l)) = map InboundMessage.id l.
Proof.
  induction l as [|m l IH]; cbn; [done|]. destruct (_ =? id); [by destruct (InboundMessage.acknowledged m)|].
  destruct (MessageQueue.acknowledge_loop id now l). cbn in *. by rewrite IH.
Qed.

Lemma sorted_ids l k :
  map InboundMessage.id l = map InboundMessage.id k -> StronglySorted id_lt l -> StronglySorted id_lt k.
Proof.
  revert k. induction l as [|m l IH]; intros [|m' k] Heq Hs; try done.
  cbn in Heq. injection Heq as Hid Heq. apply StronglySorted_inv in Hs as [Hs Hf]. constructor; [auto|].
  clear -Hid Heq Hf. revert k Heq. induction Hf as [|x l Hx _ IH]; intros [|y k] Heq; try done.
  cbn in Heq. injection Heq as Hxy Heq. constructor; [unfold id_lt in *; lia | auto].
Qed.

Lemma filter_above_suffix a l :
  StronglySorted id_lt l ->
  exists pre, l = pre ++ List.filter (fun m => a <? InboundMessage.id m) l /\
    Forall (fun m => InboundMessage.id m <= a) pre.
Proof.
  induction 1 as [|m l Hs (pre & Heq & Hp) Hf]; cbn; [by exists []|].
  destruct (a <? InboundMessage.id m) eqn:E; bool_to_prop.
  - exists []. split; [|done]. cbn. f_equal.
    clear -E Hf. induction Hf as [|x l Hx _ IH]; [done|]. cbn. unfold id_lt in Hx.
    rewrite (proj2 (Z.ltb_lt _ _)) by lia. by rewrite <- IH.
  - exists (m :: pre). cbn. split; [by rewrite <- Heq | by constructor].
Qed.

Lemma filter_all {A} (f : A -> bool) (b : bool) l :
  Forall (fun x => f x = b) l -> List.filter f l = if b then l else [].
Proof.
  induction 1 as [|x l Hx _ IH]; cbn; [by destruct b|]. rewrite Hx, IH. by destruct b.
Qed.

Lemma filter_after_sorted l1 m l2 :
  StronglySorted id_lt (l1 ++ m :: l2) ->
  List.filter (fun x => InboundMessage.id m <? InboundMessage.id x) (l1 ++ m :: l2) = l2.
Proof.
  intros (Hlt & _ & Hs)%StronglySorted_app. apply StronglySorted_inv in Hs as [_ Hgt].
  rewrite List.filter_app. cbn. rewrite Z.ltb_irrefl.
  rewrite (filter_all _ false l1), (filter_all _ true l2); [done| |].
  - eapply Forall_impl; [exact Hgt|]. intros x Hx. by apply Z.ltb_lt.
  - apply Forall_forall. intros x Hx. apply Z.ltb_ge.
    specialize (Hlt x m Hx (list_elem_of_here _ _)). unfold id_lt in Hlt. lia.
Qed.

Lemma queue_inv_sweep q c :
  queue_inv q -> queue_inv (MessageQueue.mk (MessageQueue.config q)
    (MessageQueue.drop_expired c (MessageQueue.messages q)) (MessageQueue.next_id q)).
Proof.
  intros Hp. destruct (drop_expired_suffix c (MessageQueue.messages q)) as (pre & Heq & _).
  by eapply queue_inv_suffix.
Qed.

Lemma queue_inv_push q m :
  queue_inv q -> MessageQueue.next_id q < u64_max -> InboundMessage.id m = MessageQueue.next_id q ->
  queue_inv (MessageQueue.mk (MessageQueue.config q)
    (MessageQueue.trim (MessageQueueConfig.max_size (MessageQueue.config q)) (MessageQueue.messages q ++ [m]))
    (u64_add (MessageQueue.next_id q) 1)).
Proof.
  intros (Hs & Hf & _ & Hn) Hmax Hid. unfold u64_max in *.
  destruct (trim_drop (MessageQueueConfig.max_size (MessageQueue.config q)) (MessageQueue.messages q ++ [m]))
    as (k & Hk & Hlen & _). rewrite u64_add_small by (unfold is_u64; lia).
  unfold queue_inv. cbn [MessageQueue.config MessageQueue.messages MessageQueue.next_id].
  split_and!; auto; unfold u64_max; try lia; rewrite Hk.
  - apply (StronglySorted_app_1_r _ (take k (MessageQueue.messages q ++ [m]))).
    rewrite take_drop. apply StronglySorted_app_2; [|exact Hs|by repeat constructor].
    intros x y Hx Hy. apply list_elem_of_singleton in Hy as ->. rewrite Forall_forall in Hf.
    unfold id_lt. apply Hf in Hx. lia.
  - apply Forall_drop, Forall_app_2.
    + eapply Forall_impl; [exact Hf|]. cbn. lia.
    + apply Forall_singleton. lia.
Qed.

Lemma queue_inv_acknowledge q id now :
  queue_inv q -> queue_inv (fst (MessageQueue.acknowledge q id now)).
Proof.
  intros (Hs & Hf & Hl & Hn). unfold MessageQueue.acknowledge.
  pose proof (acknowledge_loop_ids id now (MessageQueue.messages q)) as Hids.
  destruct (MessageQueue.acknowledge_loop id now (MessageQueue.messages q)) as [l b].
  unfold queue_inv. cbn in *. split_and!; try lia.
  - by eapply sorted_ids.
  - apply (List.Forall_map InboundMessage.id (fun i => 0 < i < MessageQueue.next_id q)).
    rewrite Hids. by apply List.Forall_map.
  - apply (f_equal length) in Hids. rewrite !length_map in Hids. lia.
Qed.

(** The queue's invariant: ids are strictly ascending, below the counter, and
    there are at most [max_size] messages; a new queue has it, and adding (until
    the counter would wrap), acknowledging and the expiry sweep keep it. *)
Theorem queue_invariant_preserved q now id message_id message_type payload sender tx_hash block conf :
  queue_inv q -> MessageQueue.next_id q < u64_max ->
  let '(q', new_id) :=
    MessageQueue.add_message q now message_id message_type payload sender tx_hash block conf in
  queue_inv q' /\ new_id = MessageQueue.next_id q /\ MessageQueue.next_id q' = new_id + 1 /\
  queue_inv (fst (MessageQueue.acknowledge q id now)) /\
  queue_inv (MessageQueue.cleanup_expired q now) /\
  queue_inv (MessageQueue.with_config (MessageQueue.config q)).
Proof.
  intros Hq Hmax. unfold MessageQueue.add_message.
  set (m := InboundMessage.mk _ _ _ _ _ _ _ _ _ _ _).
  pose proof (queue_inv_push q m Hq Hmax eq_refl) as Hpush. destruct Hq as (Hs & Hf & Hl & Hn).
  unfold u64_max in *. split_and!.
  - by apply (queue_inv_sweep (MessageQueue.mk _ _ _)).
  - done.
  - cbn. apply u64_add_small. unfold is_u64. lia.
  - by apply queue_inv_acknowledge.
  - by apply queue_inv_sweep.
  - unfold queue_inv, u64_max. cbn. split_and!; auto; try constructor; lia.
Qed.

(** Reading with a cursor misses and repeats nothing: a page of messages
    after an id, followed by everything after the last id of that page, is
    everything after the first id, in queue order. *)
Theorem cursor_reads_complete q after limit page m :
  queue_inv q -> MessageQueue.get_messages_after q after limit = page -> last page = Some m ->
  page ++ MessageQueue.get_messages_after q (InboundMessage.id m) (length (MessageQueue.messages q))
  = MessageQueue.get_messages_after q after (length (MessageQueue.messages q)).
Proof.
  intros (Hs & _) Hpage Hlast. unfold MessageQueue.get_messages_after in *.
  destruct (filter_above_suffix after _ Hs) as (pre & Heq & _).
  rewrite !(take_ge _ (length _)) by apply filter_length_le.
  set (rest := List.filter (fun m => after <? InboundMessage.id m) _) in *.
  apply last_Some in Hlast as [page' Hp]. subst page.
  assert (Hall : MessageQueue.messages q = (pre ++ page') ++ m :: drop limit rest).
  { rewrite Heq at 1. rewrite <- (take_drop limit rest) at 1. by rewrite Hp, <- !app_assoc. }
  rewrite Hall in Hs. rewrite Hp, Hall, (filter_after_sorted _ m _ Hs).
  rewrite <- (take_drop limit rest) at 2. by rewrite Hp.
Qed.

(** The expiry sweep only removes acknowledged messages older than the
    retention period, and keeps every pending message and the order. *)
Theorem cleanup_keeps_pending q now :
  let q' := MessageQueue.cleanup_expired q now in
  exists removed,
    MessageQueue.messages q = removed ++ MessageQueue.messages q' /\
    Forall (fun m => InboundMessage.acknowledged m = true /\
              (0 <= InboundMessage.timestamp m ->
               InboundMessage.timestamp m + MessageQueueConfig.retention_secs (MessageQueue.config q) < now))
      removed /\
    MessageQueue.get_pending_messages q' (length (MessageQueue.messages q))
      = MessageQueue.get_pending_messages q (length (MessageQueue.messages q)).
Proof.
  cbn zeta. destruct (drop_expired_suffix (u64_saturating_sub now
    (MessageQueueConfig.retention_secs (MessageQueue.config q))) (MessageQueue.messages q)) as (pre & Heq & Hp).
  exists pre. cbn [MessageQueue.cleanup_expired MessageQueue.messages]. split; [done|]. split.
  - eapply Forall_impl; [exact Hp|]. intros m [Ha Ht]. unfold u64_saturating_sub in Ht.
    split; [done | lia].
  - unfold MessageQueue.get_pending_messages. cbn [MessageQueue.messages MessageQueue.cleanup_expired].
    f_equal. rewrite Heq at 2. rewrite List.filter_app.
    replace (List.filter _ pre) with (@nil InboundMessage.t); [done|].
    clear Heq. induction Hp as [|m l [Ha _] _ IH]; cbn; [done|]. by rewrite Ha.
Qed.

(** A full queue evicts its oldest message even when it is still pending: it
    is then never delivered and cannot be acknowledged.  (The comment on the
    sweep says pending messages are not to be lost.) *)
Theorem full_queue_evicts_pending q front rest now message_id message_type payload sender tx_hash
    block conf :
  queue_inv q -> MessageQueue.next_id q < u64_max ->
  MessageQueue.messages q = front :: rest -> InboundMessage.acknowledged front = false ->
  length (MessageQueue.messages q) = MessageQueueConfig.max_size (MessageQueue.config q) ->
  let q' := fst (MessageQueue.add_message q now message_id message_type payload sender tx_hash
                    block conf) in
  MessageQueue.get_by_id q (InboundMessage.id front) = Some front /\
  MessageQueue.get_by_id q' (InboundMessage.id front) = None /\
  snd (MessageQueue.acknowledge q' (InboundMessage.id front) now) = false.
Proof.
  intros (Hs & Hf & _ & Hn) Hmax Hq Hack Hfull. cbn zeta.
  set (q' := fst _). split; [unfold MessageQueue.get_by_id; rewrite Hq; cbn; by rewrite Z.eqb_refl|].
  assert (Hne : Forall (fun m => InboundMessage.id m <> InboundMessage.id front) (MessageQueue.messages q')).
  { unfold q', MessageQueue.add_message. cbn [fst MessageQueue.cleanup_expired MessageQueue.messages].
    match goal with |- context [MessageQueue.drop_expired ?c ?l] =>
      destruct (drop_expired_suffix c l) as (pre & Heq & _) end.
    set (m := InboundMessage.mk _ _ _ _ _ _ _ _ _ _ _) in *.
    destruct (trim_drop (MessageQueueConfig.max_size (MessageQueue.config q)) (MessageQueue.messages q ++ [m]))
      as (k & Hk & _ & Hkn).
    assert (k = 1%nat) as -> by (rewrite length_app in Hkn; cbn in Hkn; lia).
    replace (drop 1 (MessageQueue.messages q ++ [m])) with (rest ++ [m]) in Hk by (by rewrite Hq).
    assert (Hall : Forall (fun m => InboundMessage.id m <> InboundMessage.id front) (rest ++ [m])).
    { rewrite Hq in Hs, Hf. apply StronglySorted_inv in Hs as [_ Hlt]. apply Forall_cons in Hf as [Hfr _].
      apply Forall_app_2; [eapply Forall_impl; [exact Hlt|]; unfold id_lt; cbn; lia|].
      apply Forall_singleton. cbn. lia. }
    rewrite <- Hk, Heq in Hall. by apply Forall_app in Hall as [_ ?]. }
  split.
  - unfold MessageQueue.get_by_id. clear -Hne. induction Hne as [|m l Hm _ IH]; cbn; [done|].
    by rewrite (proj2 (Z.eqb_neq _ _)).
  - unfold MessageQueue.acknowledge.
    assert (snd (MessageQueue.acknowledge_loop (InboundMessage.id front) now (MessageQueue.messages q')) = false)
      as Hb.
    { clear -Hne. induction Hne as [|m l Hm _ IH]; cbn; [done|]. rewrite (proj2 (Z.eqb_neq _ _)) by done.
      by destruct (MessageQueue.acknowledge_loop _ now l). }
    by destruct (MessageQueue.acknowledge_loop _ now _).
Qed.

(** ** Witnesses *)
Definition small_queue : MessageQueue.t :=
  let q0 := MessageQueue.with_config (MessageQueueConfig.mk 2 100) in
  let q1 := fst (MessageQueue.add_message q0 1000 "a" "deposit" "{}" "0x1" "0x2" 7 1) in
  fst (MessageQueue.add_message q1 1001 "b" "deposit" "{}" "0x1" "0x3" 8 1).

Lemma small_queue_inv : queue_inv small_queue.
Proof.
  split; [repeat constructor; cbn; lia|]. split; [repeat constructor; cbn; lia|].
  split; [vm_compute; lia|]. vm_compute. split; [reflexivity | discriminate].
Qed.

Lemma queue_invariant_preserved_witness :
  queue_inv (fst (MessageQueue.acknowledge small_queue 2 1002)).
Proof.
  destruct (queue_invariant_preserved small_queue 1002 2 "c" "c" "c" "c" "c" 9 1 small_queue_inv) as (_ & _ & _ & H & _);
    [reflexivity | exact H].
Defined.

Lemma cursor_reads_complete_witness :
  MessageQueue.get_messages_after small_queue 0 1 ++ MessageQueue.get_messages_after small_queue 1 2
  = MessageQueue.get_messages_after small_queue 0 2.
Proof.
  exact (cursor_reads_complete small_queue 0 1 _ _ small_queue_inv eq_refl
           (eq_refl (last (MessageQueue.get_messages_after small_queue 0 1)))).
Defined.

Lemma full_queue_evicts_pending_witness :
  MessageQueue.get_by_id (fst (MessageQueue.add_message small_queue 1003 "c" "c" "c" "c" "c" 9 1)) 1 = None.
Proof.
  destruct (full_queue_evicts_pending small_queue _ _ 1003 "c" "c" "c" "c" "c" 9 1 small_queue_inv eq_refl
              (eq_refl (MessageQueue.messages small_queue)) eq_refl eq_refl) as (_ & H & _).
  exact H.
Defined.
