(* ===== verification/Outbound.v ===== *)
(** * The outbound monitor (crates/synddb-sequencer/src/messages/outbound.rs)

    Polls the application's [message_log] table and tracks the status of each
    outbound message; the SQLite connection is the class [AppDb]. *)
From S2P Require Import Prelude RustStd.

Inductive OutboundStatus := Pending | Queued | Submitting | Submitted | Confirmed | Failed.
#[export] Instance OutboundStatus_eq_dec : EqDecision OutboundStatus.
Proof. solve_decision. Defined.

Definition OutboundStatus_to_string (s : OutboundStatus) : string :=
  match s with
  | Pending => "pending" | Queued => "queued" | Submitting => "submitting"
  | Submitted => "submitted" | Confirmed => "confirmed" | Failed => "failed"
  end.

Module OutboundMonitorConfig.
Record t := mk { db_path : string; poll_interval : Z; batch_size : Z }.
Definition default : t := mk "" 1000 100.
End OutboundMonitorConfig.

Module TrackedOutboundMessage.
Record t := mk {
  id : Z;
  message_type : string;
  payload : string;
  status : OutboundStatus;
  tx_hash : option string;
  confirmations : option Z;
  error : option string;
  first_seen_at : Z;
  updated_at : Z;
}.
End TrackedOutboundMessage.

Module OutboundStats.
Record t := mk { total : Z; pending : Z; queued : Z; submitting : Z; submitted : Z; confirmed : Z; failed : Z }.
Definition default : t := mk 0 0 0 0 0 0 0.
End OutboundStats.

Module OutboundTracker.
Import TrackedOutboundMessage.

(** The map behind the lock. *)
Abbreviation t := (gmap Z TrackedOutboundMessage.t).
Definition new : t := ∅.

(** [entry(id).or_insert_with]: an id already tracked keeps its state. *)
Definition track_message (tr : t) (now id : Z) (message_type payload : string) : t :=
  match tr !! id with
  | Some _ => tr
  | None => <[id := mk id message_type payload Queued None None None now now]> tr
  end.

Definition update_status (tr : t) (now id : Z) (status : OutboundStatus) : t :=
  alter (fun m => mk (TrackedOutboundMessage.id m) (message_type m) (payload m) status (tx_hash m)
                    (confirmations m) (error m) (first_seen_at m) now) id tr.
Definition set_tx_hash (tr : t) (now id : Z) (hash : string) : t :=
  alter (fun m => mk (TrackedOutboundMessage.id m) (message_type m) (payload m) Submitted (Some hash)
                    (confirmations m) (error m) (first_seen_at m) now) id tr.
Definition set_confirmations (tr : t) (now id n : Z) : t :=
  alter (fun m => mk (TrackedOutboundMessage.id m) (message_type m) (payload m) (status m) (tx_hash m)
                    (Some n) (error m) (first_seen_at m) now) id tr.
Definition mark_confirmed (tr : t) (now id : Z) : t := update_status tr now id Confirmed.
Definition mark_failed (tr : t) (now id : Z) (e : string) : t :=
  alter (fun m => mk (TrackedOutboundMessage.id m) (message_type m) (payload m) Failed (tx_hash m)
                    (confirmations m) (Some e) (first_seen_at m) now) id tr.

Definition get_status (tr : t) (id : Z) : option TrackedOutboundMessage.t := tr !! id.
(** [values()]: in an unspecified order. *)
Definition get_all (tr : t) : list TrackedOutboundMessage.t := map snd (map_to_list tr).

Definition count1 (s : OutboundStats.t) (m : TrackedOutboundMessage.t) : OutboundStats.t :=
  let '(OutboundStats.mk t0 p q sg sd c f) := s in
  match status m with
  | Pending => OutboundStats.mk (t0 + 1) (p + 1) q sg sd c f
  | Queued => OutboundStats.mk (t0 + 1) p (q + 1) sg sd c f
  | Submitting => OutboundStats.mk (t0 + 1) p q (sg + 1) sd c f
  | Submitted => OutboundStats.mk (t0 + 1) p q sg (sd + 1) c f
  | Confirmed => OutboundStats.mk (t0 + 1) p q sg sd (c + 1) f
  | Failed => OutboundStats.mk (t0 + 1) p q sg sd c (f + 1)
  end.
Definition stats (tr : t) : OutboundStats.t := fold_left count1 (get_all tr) OutboundStats.default.

Definition terminal (s : OutboundStatus) : bool :=
  match s with Confirmed | Failed => true | _ => false end.
Definition retained (cutoff : Z) (m : TrackedOutboundMessage.t) : bool :=
  negb (terminal (status m)) || (cutoff <? updated_at m).
Definition cleanup_old_messages (tr : t) (now max_age_secs : Z) : t :=
  let cutoff := u64_saturating_sub now max_age_secs in
  filter (fun kv => retained cutoff (snd kv) = true) tr.
End OutboundTracker.

(** The application's database, opened read-only: open, the [sqlite_master]
    probe (false on an error), [prepare], and the rows of
    [SELECT ... WHERE status = 'pending' AND id > ? ORDER BY id ASC LIMIT ?] that
    convert. *)
Class AppDb := {
  AppConn : Type;
  app_open : string -> result string AppConn;
  app_has_message_log : AppConn -> bool;
  app_prepare : AppConn -> result string unit;
  app_pending_after : AppConn -> Z -> Z -> result string (list (Z * string * string));
}.

(** [x as i64] *)
Definition as_i64 (z : Z) : Z := if as_u64 z <? 2 ^ 63 then as_u64 z else as_u64 z - 2 ^ 64.

Module OutboundMonitor.
Section ops.
Context `{DB : AppDb}.
Record t := mk {
  config : OutboundMonitorConfig.t;
  tracker : OutboundTracker.t;
  last_seen_id : Z;
}.
Definition new (config : OutboundMonitorConfig.t) : t := mk config OutboundTracker.new 0.

(** The loop over the rows. *)
Definition track_row (now : Z) (m : t) (row : Z * string * string) : t :=
  let '(id, msg_type, payload) := row in
  mk (config m) (OutboundTracker.track_message (tracker m) now id msg_type payload)
     (Z.max (last_seen_id m) id).

Definition poll_once (m : t) (now : Z) : t * result string Z :=
  if bool_decide (OutboundMonitorConfig.db_path (config m) = "") then (m, Ok 0)
  else
    match map_err (fun e => "Failed to open database: " +:+ e)
            (app_open (OutboundMonitorConfig.db_path (config m))) with
    | Err e => (m, Err e)
    | Panic w => (m, Panic w)
    | Ok conn =>
        if negb (app_has_message_log conn) then (m, Ok 0)
        else
          match map_err (fun e => "Failed to prepare statement: " +:+ e) (app_prepare conn) with
          | Err e => (m, Err e)
          | Panic w => (m, Panic w)
          | Ok _ =>
              match map_err (fun e => "Failed to query messages: " +:+ e)
                      (app_pending_after conn (as_i64 (last_seen_id m))
                         (as_i64 (OutboundMonitorConfig.batch_size (config m)))) with
              | Err e => (m, Err e)
              | Panic w => (m, Panic w)
              | Ok rows => (fold_left (track_row now) rows m, Ok (Z.of_nat (length rows)))
              end
          end
    end.

(** One turn of [run]: a tick polls (an error is only logged) and sweeps. *)
Definition tick (m : t) (now : Z) : t :=
  let m' := fst (poll_once m now) in
  mk (config m') (OutboundTracker.cleanup_old_messages (tracker m') now 3600) (last_seen_id m').
End ops.
End OutboundMonitor.

(** ** Properties *)
Definition stats_consistent (s : OutboundStats.t) (n : Z) : Prop :=
  OutboundStats.total s = n /\
  OutboundStats.pending s + OutboundStats.queued s + OutboundStats.submitting s
  + OutboundStats.submitted s + OutboundStats.confirmed s + OutboundStats.failed s = n.

Lemma count_consistent l : forall s n,
  stats_consistent s n ->
  stats_consistent (fold_left OutboundTracker.count1 l s) (n + Z.of_nat (length l)).
Proof.
  induction l as [|m l IH]; intros s n Hs; cbn [fold_left length].
  - by rewrite Z.add_0_r.
  - replace (n + Z.of_nat (S (length l))) with ((n + 1) + Z.of_nat (length l)) by lia.
    apply IH. unfold stats_consistent in *.
    destruct s, (TrackedOutboundMessage.status m) eqn:E; unfold OutboundTracker.count1; rewrite E; cbn in *; lia.
Qed.

Section outbound.
Context `{DB : AppDb}.

(** A message as it is first tracked. *)
Definition queued_row (now : Z) (row : Z * string * string) : TrackedOutboundMessage.t :=
  let '(id, ty, pl) := row in TrackedOutboundMessage.mk id ty pl Queued None None None now now.
Definition row_has_id (k : Z) (row : Z * string * string) : bool := fst (fst row) =? k.

Lemma track_rows_spec now rows : forall m,
  let m' := fold_left (OutboundMonitor.track_row now) rows m in
  (forall k, OutboundMonitor.tracker m' !! k
     = match OutboundMonitor.tracker m !! k with
       | Some v => Some v
       | None => queued_row now <$> find (row_has_id k) rows
       end) /\
  OutboundMonitor.last_seen_id m'
    = fold_left Z.max (map (fun row => fst (fst row)) rows) (OutboundMonitor.last_seen_id m) /\
  OutboundMonitor.config m' = OutboundMonitor.config m.
Proof.
  induction rows as [|[[id ty] pl] rows IH]; intros m; cbn [fold_left]; cbn zeta.
  - split_and!; auto. intros k. by destruct (_ !! k).
  - destruct (IH (OutboundMonitor.track_row now m (id, ty, pl))) as (Hk & Hl & Hc).
    split_and!; [|exact Hl | exact Hc]. intros k. rewrite Hk. cbn [OutboundMonitor.track_row OutboundMonitor.tracker].
    unfold OutboundTracker.track_message, row_has_id at 2. cbn [find fst].
    destruct (Z.eqb_spec id k) as [->|Hne].
    + destruct (OutboundMonitor.tracker m !! k) eqn:E; [by rewrite E | by rewrite lookup_insert_eq].
    + destruct (OutboundMonitor.tracker m !! id); [done | by rewrite lookup_insert_ne].
Qed.

(** The rows the application's database answered a poll with. *)
Definition answers (m : OutboundMonitor.t) (rows : list (Z * string * string)) : Prop :=
  OutboundMonitorConfig.db_path (OutboundMonitor.config m) <> "" /\
  exists conn, app_open (OutboundMonitorConfig.db_path (OutboundMonitor.config m)) = Ok conn /\
    app_has_message_log conn = true /\
    app_pending_after conn (as_i64 (OutboundMonitor.last_seen_id m))
      (as_i64 (OutboundMonitorConfig.batch_size (OutboundMonitor.config m))) = Ok rows.

Lemma poll_once_cases m now :
  (exists r, OutboundMonitor.poll_once m now = (m, r) /\ (forall n, r = Ok n -> n = 0)) \/
  (exists rows, answers m rows /\ OutboundMonitor.poll_once m now
     = (fold_left (OutboundMonitor.track_row now) rows m, Ok (Z.of_nat (length rows)))).
Proof.
  assert (H0 : forall (r : result string Z), (forall n, r = Ok n -> n = 0) ->
    exists r', (m, r) = (m, r') /\ (forall n, r' = Ok n -> n = 0)) by eauto.
  unfold OutboundMonitor.poll_once, answers.
  case_bool_decide; [left; apply H0; by intros n [= <-]|].
  destruct (app_open _) as [conn| |] eqn:Eo; cbn [map_err]; [|left; by apply H0..].
  destruct (app_has_message_log conn) eqn:Eh; cbn [negb]; [|left; apply H0; by intros n [= <-]].
  destruct (app_prepare conn) as [[]| |]; cbn [map_err]; [|left; by apply H0..].
  destruct (app_pending_after _ _ _) as [rows| |] eqn:Er; cbn [map_err]; [|left; by apply H0..].
  right. exists rows. split; [|done]. split; [done|]. by exists conn.
Qed.

Lemma tracker_stats_consistent (tr : OutboundTracker.t) :
  stats_consistent (OutboundTracker.stats tr) (Z.of_nat (size tr)).
Proof.
  unfold OutboundTracker.stats, OutboundTracker.get_all.
  rewrite <- (length_map_to_list tr), <- (length_map snd). by apply (count_consistent _ _ 0).
Qed.

(** A poll tracks exactly what the application's database answered: either
    nothing changes (no database, no table, or an error, and the count is 0 when
    it is reported), or the database answered [rows], all of them are reported,
    an id tracked before keeps its exact state, an id not tracked before is tracked
    as queued with the type and payload of its row and no other id appears, and
    the cursor is the maximum of its old value and the ids read; the statistics
    always add up to the number tracked. *)
Theorem poll_once_tracks (m : OutboundMonitor.t) now :
  let '(m', r) := OutboundMonitor.poll_once m now in
  stats_consistent (OutboundTracker.stats (OutboundMonitor.tracker m'))
    (Z.of_nat (size (OutboundMonitor.tracker m'))) /\
  ((m' = m /\ forall n, r = Ok n -> n = 0) \/
   exists rows, answers m rows /\ r = Ok (Z.of_nat (length rows)) /\
     (forall k, OutboundTracker.get_status (OutboundMonitor.tracker m') k
        = match OutboundTracker.get_status (OutboundMonitor.tracker m) k with
          | Some v => Some v
          | None => queued_row now <$> find (row_has_id k) rows
          end) /\
     OutboundMonitor.last_seen_id m'
       = fold_left Z.max (map (fun row => fst (fst row)) rows) (OutboundMonitor.last_seen_id m)).
Proof.
  destruct (poll_once_cases m now) as [(r & -> & Hr) | (rows & Ha & ->)];
    (split; [apply tracker_stats_consistent|]); [by left|].
  right. exists rows. destruct (track_rows_spec now rows m) as (Hk & Hl & _). split_and!; auto.
Qed.
End outbound.
