(* ===== verification/StateStore.v ===== *)
(** * Validator errors and sync state
    (crates/synddb-validator/src/error.rs and state/store.rs)

    The state database is its two [validator_state] values, kept as text, and the
    [sequence_gaps] rows; disk failures of SQLite itself are not modelled. *)
From S2P Require Import Prelude RustStd.

(** ** error.rs *)
Inductive ValidatorError :=
| PayloadHashMismatch (expected computed : string)
| SignerMismatch (expected actual : string)
| VSignatureVerification (s : string)
| VInvalidSignature (s : string)
| FetchError (sequence : Z) (reason : string)
| MessageNotFound (sequence : Z)
| SequenceGap (expected actual : Z)
| DecompressionError (s : string)
| ParseError (s : string)
| ChangesetApplyError (sequence : Z) (reason : string)
| ChangesetConflict (s : string)
| DatabaseError (s : string)
| StatePersistenceError (s : string)
| ConfigError (s : string)
| ValidationRuleFailed (rule : string) (sequence : Z) (reason : string).

Definition ValidatorError_to_string (e : ValidatorError) : string :=
  match e with
  | PayloadHashMismatch x c => "Payload hash mismatch: expected " +:+ x +:+ ", computed " +:+ c
  | SignerMismatch x a => "Signer mismatch: expected " +:+ x +:+ ", got " +:+ a
  | VSignatureVerification s => "Signature verification failed: " +:+ s
  | VInvalidSignature s => "Invalid signature format: " +:+ s
  | FetchError n r => "Fetch error for sequence " +:+ int_to_string n +:+ ": " +:+ r
  | MessageNotFound n => "Message not found: sequence " +:+ int_to_string n
  | SequenceGap x a =>
      "Sequence gap detected: expected " +:+ int_to_string x +:+ ", got " +:+ int_to_string a
  | DecompressionError s => "Decompression error: " +:+ s
  | ParseError s => "Parse error: " +:+ s
  | ChangesetApplyError n r =>
      "Changeset application failed at sequence " +:+ int_to_string n +:+ ": " +:+ r
  | ChangesetConflict s => "Changeset conflict: " +:+ s
  | DatabaseError s => "Database error: " +:+ s
  | StatePersistenceError s => "State persistence error: " +:+ s
  | ConfigError s => "Configuration error: " +:+ s
  | ValidationRuleFailed rule n reason =>
      "Validation rule '" +:+ rule +:+ "' failed at sequence " +:+ int_to_string n +:+ ": " +:+ reason
  end.

(** [anyhow::Error]: a wrapped [ValidatorError] or a message; [to_string] shows
    the outermost context only. *)
Inductive AnyError := Typed (e : ValidatorError) | Msg (s : string).
Definition AnyError_to_string (e : AnyError) : string :=
  match e with Typed e => ValidatorError_to_string e | Msg s => s end.

(** [.context(msg)] *)
Definition context {E A} (msg : string) (c : result E A) : result AnyError A :=
  map_err (fun _ => Msg msg) c.

(** ** state/store.rs *)
Module StateStore.
Record t := mk {
  last_sequence_value : string;
  last_sync_time_value : string;
  gaps : list (Z * Z * Z);
}.

(** A fresh database after the schema's [INSERT OR IGNORE]. *)
Definition in_memory : t := mk "-1" "0" [].

Definition parse_value (msg : string) (value : string) : result AnyError Z :=
  context msg (parse_uint u64_max value).

Definition last_sequence (st : t) : result AnyError (option Z) :=
  let value := last_sequence_value st in
  if bool_decide (value = "") || bool_decide (value = "-1") then Ok None
  else let? n := parse_value "Invalid last_sequence value" value in Ok (Some n).

Definition next_sequence (st : t) : result AnyError Z :=
  let? o := last_sequence st in
  Ok (match o with Some seq => u64_add seq 1 | None => 0 end).

Definition set_last_sequence (st : t) (sequence : Z) : t :=
  mk (int_to_string sequence) (last_sync_time_value st) (gaps st).

Definition last_sync_time (st : t) : result AnyError Z :=
  parse_value "Invalid last_sync_time value" (last_sync_time_value st).
Definition set_last_sync_time (st : t) (timestamp : Z) : t :=
  mk (last_sequence_value st) (int_to_string timestamp) (gaps st).

Definition record_sync (st : t) (now sequence : Z) : t :=
  set_last_sync_time (set_last_sequence st sequence) now.

(** The three [u64] parameters must fit SQLite's integers. *)
Definition record_gap (st : t) (now gap_start gap_end : Z) : t * result AnyError unit :=
  if (gap_start <=? i64_max) && (gap_end <=? i64_max) && (now <=? i64_max) then
    (mk (last_sequence_value st) (last_sync_time_value st) (gaps st ++ [(gap_start, gap_end, now)]), Ok tt)
  else (st, Err (Msg "Failed to record gap")).
Definition get_gaps (st : t) : list (Z * Z * Z) := gaps st.
Definition has_gaps (st : t) : bool := match gaps st with [] => false | _ => true end.
End StateStore.

(** ** Lemmas *)

(** The store holds the number [n] as last processed. *)
Definition synced_to (st : StateStore.t) (last : option Z) : Prop :=
  StateStore.last_sequence st = Ok last.

Lemma number_not_marker n : 0 <= n ->
  int_to_string n <> "" /\ int_to_string n <> "-1".
Proof.
  intros Hn. split; [apply int_to_string_nonempty|]. intros H.
  pose proof (int_to_string_digits n Hn) as Hd. rewrite H in Hd. inversion Hd as [|c s [d Hc] _]; subst. vm_compute in Hc. discriminate Hc.
Qed.

Lemma record_sync_last st now n : is_u64 n -> synced_to (StateStore.record_sync st now n) (Some n).
Proof.
  intros Hn. pose proof Hn as Hr. unfold is_u64 in Hr. unfold synced_to, StateStore.last_sequence. cbn.
  destruct (number_not_marker n) as [H1 H2]; [lia|]. rewrite !bool_decide_false by done. cbn [orb].
  unfold StateStore.parse_value, context. rewrite parse_int_to_string; [done | unfold u64_max; lia | lia].
Qed.

Lemma next_of_synced st n :
  synced_to st (Some n) -> StateStore.next_sequence st = Ok (u64_add n 1).
Proof. unfold synced_to, StateStore.next_sequence. by intros ->. Qed.

(** Sync progress survives a restart: after [record_sync n] the store reads
    back [n] as the last sequence and the time as the last sync time, the next
    sequence to fetch is [n + 1], and earlier gap records are untouched; a fresh
    store starts at 0. *)
Theorem record_sync_roundtrip st now n :
  is_u64 now -> 0 <= n < u64_max ->
  let st' := StateStore.record_sync st now n in
  StateStore.last_sequence st' = Ok (Some n) /\ StateStore.next_sequence st' = Ok (n + 1) /\
  StateStore.last_sync_time st' = Ok now /\ StateStore.get_gaps st' = StateStore.get_gaps st /\
  StateStore.next_sequence StateStore.in_memory = Ok 0.
Proof.
  unfold u64_max. intros Hnow Hn. cbn zeta.
  assert (Hu : is_u64 n) by (unfold is_u64; lia). pose proof (record_sync_last st now n Hu) as Hl.
  split_and!; auto.
  - rewrite (next_of_synced _ _ Hl), u64_add_small; [done|]. unfold is_u64. lia.
  - unfold StateStore.last_sync_time, StateStore.parse_value, context. cbn.
    unfold is_u64 in Hnow. rewrite parse_int_to_string; [done | unfold u64_max; lia | lia].
Qed.

Lemma record_sync_roundtrip_witness :
  StateStore.next_sequence (StateStore.record_sync StateStore.in_memory 1700000000 41) = Ok 42.
Proof.
  apply (record_sync_roundtrip StateStore.in_memory 1700000000 41); [done | unfold u64_max; lia].
Defined.
