(* ===== verification/Applier.v ===== *)
(** * Applying messages to the replica
    (crates/synddb-validator/src/apply/applier.rs, rules/mod.rs and the payload
    types of crates/synddb-shared/src/types/payloads.rs)

    SQLite and its session extension are the class [Session]: the database is a
    value, and a statement that fails leaves it unchanged (SQLite rolls a failed
    [sqlite3changeset_apply] back to its savepoint, and a dropped transaction to
    its start). *)
From S2P Require Import Prelude RustStd Extern SignedTypes StateStore.

(** ** Payloads *)
Module ChangesetData.
Record t := mk { data : bytes; sequence : Z; timestamp : Z }.
End ChangesetData.
Module ChangesetBatchRequest.
Record t := mk { batch_id : string; changesets : list ChangesetData.t; attestation_token : option string }.
End ChangesetBatchRequest.
Module WithdrawalRequest.
Record t := mk { request_id : string; recipient : string; amount : string; data : bytes }.
End WithdrawalRequest.
Module SnapshotData.
Record t := mk { data : bytes; timestamp : Z; sequence : Z }.
End SnapshotData.
Module SnapshotRequest.
Record t := mk { snapshot : SnapshotData.t; message_id : string; attestation_token : option string }.
End SnapshotRequest.

(** ** SQLite sessions *)
Inductive ConflictType :=
  CONFLICT_DATA | CONFLICT_NOTFOUND | CONFLICT_CONFLICT | CONFLICT_CONSTRAINT | CONFLICT_FOREIGN_KEY.
Inductive ConflictAction := OMIT | REPLACE | ABORT.

(** What the changeset iterator yields: an operation on a table with a number of
    columns (or an error reading the operation), or an error reading the item. *)
Inductive ChangesetItem :=
| Item (op : result string (string * Z))
| ItemError (e : string).

Class Session := {
  Db : Type;
  (** [ChangesetIter::start_strm] and the items up to the first error *)
  start_strm : bytes -> result string (list ChangesetItem);
  (** [SELECT COUNT( * ) FROM pragma_table_info(?)], [.ok()] *)
  table_info : Db -> string -> option Z;
  (** [apply_strm] with a conflict handler *)
  apply_strm : Db -> bytes -> (ConflictType -> ConflictAction) -> result string Db;
  (** [session::invert_strm] *)
  invert_strm : bytes -> result string bytes;
  (** [transaction()] and [commit()] *)
  begin_tx : Db -> result string unit;
  commit_tx : Db -> result string unit;
  (** temporary file, open, probe and backup: the error is the context text *)
  restore_backup : Db -> bytes -> result string Db;
  (** the WAL pragmas of a file database *)
  set_pragmas : Db -> result string unit;
}.

(** ** rules/mod.rs *)
Inductive ValidationResult := Pass | Fail (reason : string) | NotApplicable.

Module ValidationRule.
Record t `{Session} := mk {
  name : string;
  validate : Db -> Z -> result string ValidationResult;
  is_enabled : bool;
}.
End ValidationRule.

Module RuleRegistry.
Section ops.
Context `{SE : Session}.
Definition t : Type := list ValidationRule.t.
Definition new : t := [].
Definition register (r : t) (rule : ValidationRule.t) : t := r ++ [rule].
Definition len (r : t) : nat := length r.
Definition is_empty (r : t) : bool := match r with [] => true | _ => false end.

Fixpoint validate_all (rules : t) (conn : Db) (sequence : Z) : result ValidatorError unit :=
  match rules with
  | [] => Ok tt
  | rule :: rules' =>
      if negb (ValidationRule.is_enabled rule) then validate_all rules' conn sequence
      else
        match ValidationRule.validate rule conn sequence with
        | Ok Pass | Ok NotApplicable => validate_all rules' conn sequence
        | Ok (Fail reason) =>
            Err (ValidationRuleFailed (ValidationRule.name rule) sequence reason)
        | Err e =>
            Err (ValidationRuleFailed (ValidationRule.name rule) sequence ("Rule error: " +:+ e))
        | Panic w => Panic w
        end
  end.
End ops.
End RuleRegistry.

(** ** apply/applier.rs *)
Inductive DatabaseType := File (path : string) | InMemoryDb.

Module ChangesetApplier.
Section ops.
Context `{ZS : Zstd} `{SE : Session}.
Context `{SC : Serde ChangesetBatchRequest.t} `{SN : Serde SnapshotRequest.t} `{SWd : Serde WithdrawalRequest.t}.

Record t := mk { conn : Db; db_type : DatabaseType }.
Definition with_conn (a : t) (db : Db) : t := mk db (db_type a).

(** The zstd decoder either fails to be created or to read; both contexts hide
    the cause. *)
Definition decompress (data : bytes) : result AnyError bytes := context "Failed to decompress" (zstd_decode data).

Definition decompress_and_parse {A} `{Serde A} (message : SignedMessage.t) (type_name : string)
  : result AnyError A :=
  let at_seq := type_name +:+ " at sequence " +:+ int_to_string (SignedMessage.sequence message)
                +:+ ": " in
  let? decompressed := map_err (fun e => Typed (DecompressionError
                         ("Failed to decompress " +:+ at_seq +:+ AnyError_to_string e)))
                         (decompress (SignedMessage.payload message)) in
  map_err (fun e => Typed (ParseError ("Failed to parse " +:+ at_seq +:+ e))) (de decompressed).

(** The loop over the items; each insert into the [HashMap] overwrites. *)
Fixpoint table_columns_loop (m : gmap string Z) (items : list ChangesetItem)
  : result AnyError (gmap string Z) :=
  match items with
  | [] => Ok m
  | Item (Ok (table_name, col_count)) :: items' =>
      table_columns_loop (<[table_name := col_count]> m) items'
  | Item (Err e) :: _ => Err (Msg ("Failed to get changeset operation: " +:+ e))
  | Item (Panic w) :: _ => Panic w
  | ItemError e :: _ => Err (Msg ("Failed to read changeset item: " +:+ e))
  end.

(** The second loop, in the map's (unspecified) iteration order. *)
Fixpoint check_tables (conn : Db) (tables : list (string * Z)) : list string * list string :=
  match tables with
  | [] => ([], [])
  | (table, expected_cols) :: tables' =>
      let '(missing, mismatches) := check_tables conn tables' in
      match table_info conn table with
      | None | Some 0 => (table :: missing, mismatches)
      | Some actual_cols =>
          if negb (actual_cols =? expected_cols) then
            (missing, (table +:+ " (changeset has " +:+ int_to_string expected_cols
                       +:+ " columns, target has " +:+ int_to_string actual_cols +:+ ")") :: mismatches)
          else (missing, mismatches)
      end
  end.

Definition missing_tables_error (missing : list string) : string :=
  "Changeset references tables that don't exist: " +:+ join ", " missing
  +:+ ". A snapshot is required to sync schema first.".
Definition column_mismatch_error (mismatches : list string) : string :=
  "Schema mismatch - column counts don't match: " +:+ join "; " mismatches
  +:+ ". A snapshot is required to sync schema first.".

Definition validate_changeset_schema (conn : Db) (data : bytes) : result AnyError unit :=
  let? items := map_err (fun e => Msg ("Failed to start changeset iterator: " +:+ e)) (start_strm data) in
  let? table_columns := table_columns_loop ∅ items in
  let '(missing_tables, column_mismatches) := check_tables conn (map_to_list table_columns) in
  match missing_tables, column_mismatches with
  | _ :: _, _ => Err (Msg (missing_tables_error missing_tables))
  | [], _ :: _ => Err (Msg (column_mismatch_error column_mismatches))
  | [], [] => Ok tt
  end.

(** Only an INSERT on an existing row is skipped. *)
Definition conflict_handler (c : ConflictType) : ConflictAction :=
  match c with CONFLICT_CONFLICT => OMIT | _ => ABORT end.

Definition apply_single_changeset (conn : Db) (data : bytes) : result AnyError Db :=
  let? _ := validate_changeset_schema conn data in
  map_err (fun e => Msg ("Failed to apply changeset: " +:+ e)) (apply_strm conn data conflict_handler).

(** The loop inside the transaction; an empty changeset is skipped. *)
Fixpoint apply_changesets (sequence : Z) (batch_id : string) (i : nat) (tx : Db)
    (changesets : list ChangesetData.t) : result AnyError Db :=
  match changesets with
  | [] => Ok tx
  | c :: changesets' =>
      match ChangesetData.data c with
      | [] => apply_changesets sequence batch_id (S i) tx changesets'
      | _ =>
          let? tx' := map_err (fun e => Typed (ChangesetApplyError sequence
                        ("Changeset " +:+ int_to_string (Z.of_nat i) +:+ " in batch " +:+ batch_id
                         +:+ ": " +:+ AnyError_to_string e)))
                        (apply_single_changeset tx (ChangesetData.data c)) in
          apply_changesets sequence batch_id (S i) tx' changesets'
      end
  end.

(** An error before the commit drops the transaction: the database is as before. *)
Definition apply_changeset_message_with_rules (a : t) (message : SignedMessage.t)
    (rules : option RuleRegistry.t) : t * result AnyError unit :=
  let body :=
    let? batch := decompress_and_parse (A := ChangesetBatchRequest.t) message "changeset batch" in
    let? _ := map_err (fun e => Typed (DatabaseError ("Failed to begin transaction: " +:+ e)))
                (begin_tx (conn a)) in
    let? tx := apply_changesets (SignedMessage.sequence message) (ChangesetBatchRequest.batch_id batch) 0
                 (conn a) (ChangesetBatchRequest.changesets batch) in
    let? _ := match rules with
              | Some registry =>
                  map_err Typed (RuleRegistry.validate_all registry tx (SignedMessage.sequence message))
              | None => Ok tt
              end in
    let? _ := map_err (fun e => Typed (DatabaseError ("Failed to commit transaction: " +:+ e)))
                (commit_tx tx) in
    Ok tx in
  match body with
  | Ok tx => (with_conn a tx, Ok tt)
  | Err e => (a, Err e)
  | Panic w => (a, Panic w)
  end.

Definition restore_snapshot (a : t) (snapshot_data : bytes) : t * result AnyError unit :=
  match restore_backup (conn a) snapshot_data with
  | Err e => (a, Err (Msg e))
  | Panic w => (a, Panic w)
  | Ok db =>
      let a' := with_conn a db in
      match db_type a with
      | File _ => (a', context "Failed to re-apply pragmas after snapshot restore" (set_pragmas db))
      | InMemoryDb => (a', Ok tt)
      end
  end.

Definition apply_snapshot_message (a : t) (message : SignedMessage.t) : t * result AnyError unit :=
  match decompress_and_parse (A := SnapshotRequest.t) message "snapshot" with
  | Err e => (a, Err e)
  | Panic w => (a, Panic w)
  | Ok request => restore_snapshot a (SnapshotData.data (SnapshotRequest.snapshot request))
  end.

Definition apply_message_with_rules (a : t) (message : SignedMessage.t) (rules : option RuleRegistry.t)
  : t * result AnyError unit :=
  match SignedMessage.message_type message with
  | MessageType.Changeset => apply_changeset_message_with_rules a message rules
  | MessageType.Snapshot => apply_snapshot_message a message
  | MessageType.Withdrawal => (a, Ok tt)
  end.
Definition apply_message (a : t) (message : SignedMessage.t) : t * result AnyError unit :=
  apply_message_with_rules a message None.

Definition extract_snapshot (message : SignedMessage.t) : result AnyError (option SnapshotRequest.t) :=
  match SignedMessage.message_type message with
  | MessageType.Snapshot =>
      let? decompressed := decompress (SignedMessage.payload message) in
      let? request := context "Failed to parse snapshot request" (de decompressed) in
      Ok (Some request)
  | _ => Ok None
  end.

Definition extract_withdrawal (message : SignedMessage.t) : result AnyError (option WithdrawalRequest.t) :=
  match SignedMessage.message_type message with
  | MessageType.Withdrawal =>
      let? decompressed := decompress (SignedMessage.payload message) in
      let? request := context "Failed to parse withdrawal request" (de decompressed) in
      Ok (Some request)
  | _ => Ok None
  end.
End ops.
Arguments t {_}.
End ChangesetApplier.
