(* ===== verification/AuditTrail.v ===== *)
(** * The audit trail (crates/synddb-validator/src/apply/audit.rs)

    Changesets that could not be applied are stored and, when a snapshot arrives,
    verified by walking the database back with their inverses. *)
From Stdlib Require Import Ascii.
From S2P Require Import Prelude RustStd BTree Extern SignedTypes StateStore Applier.

Inductive DeferralReason :=
| MissingTable (table : string)
| ColumnMismatch (table : string) (expected actual : Z).

Module PendingChangeset.
Record t := mk { sequence : Z; data : bytes; reason : DeferralReason }.
End PendingChangeset.

Module AuditFailure.
Record t := mk { sequence : Z; reason : string }.
End AuditFailure.
Module AuditResult.
Record t := mk { verified : list Z; failed : list AuditFailure.t }.
End AuditResult.

(** ** [PendingChangesetStore]: the table [pending_changesets] by primary key *)

(** A double quote. *)
Definition dq : string := String (ascii_of_nat 34) EmptyString.
Definition quoted (s : string) : string := dq +:+ s +:+ dq.

Definition reason_json (r : DeferralReason) : string :=
  match r with
  | MissingTable table =>
      "{" +:+ quoted "type" +:+ ":" +:+ quoted "missing_table" +:+ "," +:+ quoted "table" +:+ ":"
      +:+ quoted table +:+ "}"
  | ColumnMismatch table expected actual =>
      "{" +:+ quoted "type" +:+ ":" +:+ quoted "column_mismatch" +:+ "," +:+ quoted "table" +:+ ":"
      +:+ quoted table +:+ "," +:+ quoted "expected" +:+ ":" +:+ int_to_string expected +:+ ","
      +:+ quoted "actual" +:+ ":" +:+ int_to_string actual +:+ "}"
  end.

(** The reader recognises one kind of reason and splits on the quotes. *)
Definition parse_reason (json : string) : DeferralReason :=
  if contains "missing_table" json then
    MissingTable
      match split_str (quoted "table" +:+ ":" +:+ dq) json with
      | _ :: s :: _ =>
          match split_char (ascii_of_nat 34) s with table :: _ => table | [] => "unknown" end
      | _ => "unknown"
      end
  else MissingTable "unknown".

Module PendingChangesetStore.
Definition t : Type := BTreeMap.t (bytes * string).
Definition new : t := [].

(** [INSERT OR REPLACE]; a sequence above [i64::MAX] does not convert. *)
Definition store (s : t) (c : PendingChangeset.t) : t * result AnyError unit :=
  if PendingChangeset.sequence c <=? i64_max then
    (BTreeMap.insert (PendingChangeset.sequence c)
       (PendingChangeset.data c, reason_json (PendingChangeset.reason c)) s, Ok tt)
  else (s, Err (Msg "Failed to store pending changeset")).

Definition row_changeset (row : Z * (bytes * string)) : PendingChangeset.t :=
  let '(sequence, (data, json)) := row in PendingChangeset.mk sequence data (parse_reason json).
Definition get_all (s : t) : list PendingChangeset.t := map row_changeset s.
(** Both bounds must fit SQLite's integers. *)
Definition get_range (s : t) (start last : Z) : result AnyError (list PendingChangeset.t) :=
  if (start <=? i64_max) && (last <=? i64_max) then
    Ok (map row_changeset (BTreeMap.retain (fun k => (start <=? k) && (k <=? last)) s))
  else Err (Msg "out of range integral type conversion attempted").

Definition clear_up_to (s : t) (sequence : Z) : t * result AnyError Z :=
  if sequence <=? i64_max then
    let s' := BTreeMap.retain (fun k => negb (k <=? sequence)) s in
    (s', Ok (Z.of_nat (length s - length s')))
  else (s, Err (Msg "Failed to clear pending changesets")).

Definition count (s : t) : Z := Z.of_nat (length s).
Definition sequence_range (s : t) : option (Z * Z) :=
  match head s, last s with Some a, Some b => Some (fst a, fst b) | _, _ => None end.
End PendingChangesetStore.

(** ** [verify_changeset_chain] *)
Section chain.
Context `{SE : Session}.

Definition invert_changeset (changeset : bytes) : result AnyError bytes :=
  map_err (fun e => Msg ("Failed to invert: " +:+ e)) (invert_strm changeset).

(** [sort_by(|a, b| b.sequence.cmp(&a.sequence))], stable *)
Fixpoint insert_desc (c : PendingChangeset.t) (l : list PendingChangeset.t) : list PendingChangeset.t :=
  match l with
  | [] => [c]
  | c' :: l' =>
      if PendingChangeset.sequence c' <? PendingChangeset.sequence c then c :: l
      else c' :: insert_desc c l'
  end.
Definition sort_desc (l : list PendingChangeset.t) : list PendingChangeset.t :=
  fold_left (fun acc c => insert_desc c acc) l [].

Definition abort_all (_ : ConflictType) : ConflictAction := ABORT.

(** The changesets after the failing one: [sorted.iter().skip(applied + 1)]. *)
Definition chain_broken (sorted : list PendingChangeset.t) (applied : nat) : list AuditFailure.t :=
  map (fun c => AuditFailure.mk (PendingChangeset.sequence c) "Chain broken by earlier failure")
      (drop (applied + 1) sorted).

(** The backward walk: the database, the sequences verified, the failures and the
    changesets whose inverse was applied, in walking order.  (The session calls return errors and do not
    panic; a panic would be reported the same way.) *)
Fixpoint walk_back (sorted : list PendingChangeset.t) (db : Db) (verified : list Z)
    (applied : list PendingChangeset.t) (todo : list PendingChangeset.t)
  : Db * list Z * list AuditFailure.t * list PendingChangeset.t :=
  match todo with
  | [] => (db, verified, [], applied)
  | c :: todo' =>
      let seq := PendingChangeset.sequence c in
      match invert_changeset (PendingChangeset.data c) with
      | Ok inverted =>
          match apply_strm db inverted abort_all with
          | Ok db' => walk_back sorted db' (verified ++ [seq]) (applied ++ [c]) todo'
          | Err e | Panic e =>
              (db, verified,
               AuditFailure.mk seq ("Inverted changeset failed to apply: " +:+ e)
                 :: chain_broken sorted (length applied), applied)
          end
      | Err e =>
          (db, verified,
           AuditFailure.mk seq ("Failed to invert: " +:+ AnyError_to_string e)
             :: chain_broken sorted (length applied), applied)
      | Panic e =>
          (db, verified, AuditFailure.mk seq ("Failed to invert: " +:+ e)
                           :: chain_broken sorted (length applied), applied)
      end
  end.

(** Forward again, oldest first; a failure is only logged. *)
Fixpoint replay (db : Db) (l : list PendingChangeset.t) : Db :=
  match l with
  | [] => db
  | c :: l' =>
      match apply_strm db (PendingChangeset.data c) abort_all with
      | Ok db' => replay db' l'
      | _ => replay db l'
      end
  end.

Definition verify_changeset_chain (db : Db) (pending : list PendingChangeset.t) : Db * AuditResult.t :=
  match pending with
  | [] => (db, AuditResult.mk [] [])
  | _ =>
      let sorted := sort_desc pending in
      let '(db1, verified, failed, applied) := walk_back sorted db [] [] sorted in
      (replay db1 (rev applied), AuditResult.mk verified failed)
  end.
End chain.

(** ** Properties *)

(** The tables of a changeset have, in this database, exactly the columns it records. *)
Definition exact_columns `{Session} (db : Db) (c : bytes) : Prop :=
  exists items, start_strm c = Ok items /\
    Forall (fun it => exists table cols, it = Item (Ok (table, cols)) /\ table_info db table = Some cols) items.

(** What SQLite documents of changesets, for databases without triggers: applying one
    changes rows, neither tables nor triggers; and after the inverse of a changeset
    applied without conflict, the changeset applies and leads back, when the tables have
    exactly the columns it records.  (In a table with more columns the inverse deletes
    rows whatever the further columns hold, and inserting them again fills these with
    their defaults.) *)
Class SessionLaws `{Session} (no_triggers : Db -> Prop) : Prop := {
  apply_schema db db' c h table : apply_strm db c h = Ok db' -> table_info db' table = table_info db table;
  apply_triggers db db' c h : apply_strm db c h = Ok db' -> no_triggers db -> no_triggers db';
  apply_invert db db' c inv :
    no_triggers db -> exact_columns db c ->
    invert_strm c = Ok inv -> apply_strm db inv abort_all = Ok db' ->
    apply_strm db' c abort_all = Ok db;
}.

Lemma insert_desc_perm c l : insert_desc c l ≡ₚ c :: l.
Proof.
  induction l as [|c' l IH]; cbn; [done|]. destruct (_ <? _); [done|]. rewrite IH. apply Permutation_swap.
Qed.

Lemma sort_desc_perm l : sort_desc l ≡ₚ l.
Proof.
  unfold sort_desc. enough (forall acc, fold_left (fun a c => insert_desc c a) l acc ≡ₚ acc ++ l) by auto.
  induction l as [|c l IH]; intros acc; cbn; [by rewrite app_nil_r|].
  rewrite IH, insert_desc_perm. cbn. by rewrite Permutation_middle.
Qed.

Definition seq_desc (a b : PendingChangeset.t) : Prop :=
  PendingChangeset.sequence b <= PendingChangeset.sequence a.

Lemma sort_desc_sorted l : StronglySorted seq_desc (sort_desc l).
Proof.
  unfold sort_desc. enough (forall acc, StronglySorted seq_desc acc ->
    StronglySorted seq_desc (fold_left (fun a c => insert_desc c a) l acc)) as H by (apply H; constructor).
  induction l as [|c l IH]; intros acc Hacc; cbn; [done|]. apply IH. clear IH.
  induction Hacc as [|x acc Hs IH Hf]; cbn; [by repeat constructor|].
  destruct (_ <? _) eqn:E; bool_to_prop.
  - constructor; [by constructor|]. constructor; [unfold seq_desc; lia|].
    eapply Forall_impl; [exact Hf|]. unfold seq_desc. lia.
  - constructor; [done|]. rewrite insert_desc_perm. constructor; [unfold seq_desc; lia | done].
Qed.

Section chain_claim.
Context `{SE : Session}.

Lemma broken_rest (sorted acc : list PendingChangeset.t) c todo :
  sorted = acc ++ c :: todo ->
  map AuditFailure.sequence (chain_broken sorted (length acc)) = map PendingChangeset.sequence todo.
Proof.
  intros ->. unfold chain_broken. rewrite map_map. cbn.
  replace (length acc + 1)%nat with (length (acc ++ [c])) by (rewrite length_app; done).
  replace (acc ++ c :: todo) with ((acc ++ [c]) ++ todo) by (by rewrite <- app_assoc).
  by rewrite drop_app_length.
Qed.

Lemma replay_app l1 l2 : forall db, replay db (l1 ++ l2) = replay (replay db l1) l2.
Proof.
  induction l1 as [|c l1 IH]; intros db; cbn; [done|]. by destruct (apply_strm _ _ _); rewrite IH.
Qed.

(** The inverses of these changesets apply one after the other. *)
Fixpoint undone (db : Db) (l : list PendingChangeset.t) (db' : Db) : Prop :=
  match l with
  | [] => db' = db
  | c :: l' => exists inv db1, invert_strm (PendingChangeset.data c) = Ok inv /\
      apply_strm db inv abort_all = Ok db1 /\ undone db1 l' db'
  end.

Lemma walk_back_spec sorted todo : forall db ver acc db1 ver' failed acc',
  sorted = acc ++ todo ->
  walk_back sorted db ver acc todo = (db1, ver', failed, acc') ->
  exists k rest, acc' = acc ++ k /\ todo = k ++ rest /\ ver' = ver ++ map PendingChangeset.sequence k /\
    undone db k db1 /\ map AuditFailure.sequence failed = map PendingChangeset.sequence rest.
Proof.
  induction todo as [|c todo IH]; intros db ver acc db1 ver' failed acc' Hs H; cbn [walk_back] in H.
  - injection H as <- <- <- <-. exists [], []. rewrite !app_nil_r. by split_and!.
  - assert (Hfail : forall why, map AuditFailure.sequence
        (AuditFailure.mk (PendingChangeset.sequence c) why :: chain_broken sorted (length acc))
        = map PendingChangeset.sequence (c :: todo)).
    { intros why. cbn. f_equal. by apply (broken_rest _ _ c). }
    unfold invert_changeset in H.
    destruct (invert_strm (PendingChangeset.data c)) as [inv| |] eqn:Ei; cbn [map_err] in H;
      [|injection H as <- <- <- <-; exists [], (c :: todo); rewrite !app_nil_r; split_and!; [done..|apply Hfail]..].
    destruct (apply_strm db inv abort_all) as [db'| |] eqn:Ea;
      [|injection H as <- <- <- <-; exists [], (c :: todo); rewrite !app_nil_r; split_and!; [done..|apply Hfail]..].
    assert (Hs' : sorted = (acc ++ [c]) ++ todo) by (by rewrite <- app_assoc).
    destruct (IH db' _ _ _ _ _ _ Hs' H) as (k & rest & -> & -> & -> & Hu & Hm).
    exists (c :: k), rest. rewrite <- !app_assoc. split_and!; auto. cbn. eauto.
Qed.

(** Replaying leads back over inverses that applied. *)
Lemma replay_undone {no_triggers} {SL : SessionLaws no_triggers} k : forall db db1,
  no_triggers db -> Forall (fun c => exact_columns db (PendingChangeset.data c)) k ->
  undone db k db1 -> replay db1 (rev k) = db.
Proof.
  induction k as [|c k IH]; intros db db1 Hnt Hex Hu; cbn in Hu; [done|].
  destruct Hu as (inv & db' & Hi & Ha & Hu). apply Forall_cons in Hex as [Hc Hk]. cbn [rev].
  rewrite replay_app, (IH db' db1); [|by eapply apply_triggers| |done].
  - cbn. by rewrite (apply_invert _ _ _ _ Hnt Hc Hi Ha).
  - eapply Forall_impl; [exact Hk|]. intros x (items & Hit & Hf). exists items. split; [done|].
    eapply Forall_impl; [exact Hf|]. intros it (t & n & -> & Ht). exists t, n. split; [done|].
    by rewrite (apply_schema _ _ _ _ _ Ha).
Qed.

(** C36. Chain verification accounts for every pending changeset: the verified sequences
    followed by the failed ones are all the pending sequences, from the latest down; the
    inverses of exactly the verified ones applied one after the other, each to what the
    one before left, so they are the unbroken end of the chain.  And it is read-only in
    effect when the database has no triggers and its tables have exactly the columns the
    pending changesets record: the database afterwards is the database before, the
    inverses being undone by the replay. *)
Theorem verify_chain_restores db pending :
  let '(db', res) := verify_changeset_chain db pending in
  (exists verified rest db1, sort_desc pending = verified ++ rest /\
     AuditResult.verified res = map PendingChangeset.sequence verified /\
     map AuditFailure.sequence (AuditResult.failed res) = map PendingChangeset.sequence rest /\
     undone db verified db1 /\ db' = replay db1 (rev verified)) /\
  sort_desc pending ≡ₚ pending /\ StronglySorted seq_desc (sort_desc pending) /\
  (forall no_triggers (SL : SessionLaws no_triggers), no_triggers db ->
     Forall (fun c => exact_columns db (PendingChangeset.data c)) pending -> db' = db).
Proof.
  unfold verify_changeset_chain. destruct pending as [|p ps].
  { split_and!; [by exists [], [], db|done|constructor|done]. }
  destruct (walk_back _ _ _ _ _) as [[[db1 ver] failed] app] eqn:E.
  destruct (walk_back_spec (sort_desc (p :: ps)) _ db [] [] db1 ver failed app eq_refl E)
    as (k & rest & -> & Hs & -> & Hu & Hm). cbn [List.app].
  split_and!; auto using sort_desc_perm, sort_desc_sorted; [by exists k, rest, db1|].
  intros nt SL Hnt Hex. eapply replay_undone; [exact Hnt| |exact Hu].
  rewrite <- (sort_desc_perm (p :: ps)), Hs in Hex. by apply Forall_app in Hex as [Hex _].
Qed.
End chain_claim.
