(* ===== verification/Validator.v ===== *)
(** * The validator (crates/synddb-validator/src/validator.rs, sync/fetcher.rs and
    sync/verifier.rs)

    The validator fetches messages, verifies them against the sequencer's key,
    applies them to its replica and records progress.  The fetcher is the class
    [StorageFetcher]; what a callback is called with is returned as a list; the
    clock is the argument [now]. *)
From Stdlib Require Import Ascii Strings.Byte.
From S2P Require Import Prelude RustStd BTree Batches Extern Cose SignedTypes SyncIndex.
From S2P Require Import StateStore Applier AuditTrail.

(** ** sync/fetcher.rs *)
Class StorageFetcher (F : Type) := {
  supports_batches : F -> bool;
  fetch_message : F -> Z -> result AnyError (option SignedMessage.t);   (* [get] *)
  fetch_latest : F -> result AnyError (option Z);                       (* [get_latest_sequence] *)
  fetch_list : F -> result AnyError (list BatchInfo.t);                 (* [list_batches] *)
  fetch_batch : F -> Z -> result AnyError (option SignedBatch.t);       (* [get_batch] *)
  fetch_batch_by_path : F -> string -> result AnyError (option SignedBatch.t);
}.

(** ** sync/verifier.rs *)
Module SignatureVerifier.
Section ops.
Context `{HX : Hex} `{CR : Crypto} `{CS : Cose} `{CC : !CoseCodec}.
Record t := new { expected_pubkey : bytes }.   (* [u8; 64] *)

Definition hex_key (what : string) (bad_hex : string) (s : string) : result AnyError bytes :=
  let hex_str := strip_prefix_or_self "0x" s in
  if negb (bool_decide (String.length hex_str = 128%nat)) then
    Err (Typed (VInvalidSignature (what +:+ " length: expected 128 hex chars, got "
                                   +:+ int_to_string (Z.of_nat (String.length hex_str)))))
  else map_err (fun e => Typed (VInvalidSignature (bad_hex +:+ e))) (hex_decode hex_str).

(** [copy_from_slice] panics unless 64 bytes were decoded. *)
Definition from_hex (hex_pubkey : string) : result AnyError t :=
  let? b := hex_key "Invalid public key" "Invalid public key hex: " hex_pubkey in
  if bool_decide (length b = 64%nat) then Ok (new b)
  else Panic "copy_from_slice: source slice length does not match".

Definition verify (v : t) (message : SignedMessage.t) : result AnyError unit :=
  let? _ := map_err (fun e => Typed (VSignatureVerification
              ("Signature verification failed: " +:+ VerificationError_to_string e)))
              (verify_signature message) in
  let? claimed_pubkey := hex_key "Invalid signer public key" "Invalid signer public key hex: "
                           (SignedMessage.signer message) in
  if negb (bool_decide (claimed_pubkey = expected_pubkey v)) then
    Err (Typed (SignerMismatch (hex0x (expected_pubkey v)) (hex0x claimed_pubkey)))
  else Ok tt.
Definition expected_pubkey_hex (v : t) : string := hex0x (expected_pubkey v).
End ops.
End SignatureVerifier.

(** ** validator.rs *)
Inductive ApplyResult := Applied | StoredAsPending.

Module Validator.
Section ops.
Context `{HX : Hex} `{CR : Crypto} `{CS : Cose} `{CC : !CoseCodec} `{ZS : Zstd} `{SE : Session}.
Context `{SC : Serde ChangesetBatchRequest.t} `{SN : Serde SnapshotRequest.t} `{SWd : Serde WithdrawalRequest.t}.

Record t := mk {
  verifier : SignatureVerifier.t;
  applier : ChangesetApplier.t;
  state : StateStore.t;
  pending_store : PendingChangesetStore.t;
  gap_retry_count : Z;
  gap_skip_on_failure : bool;
  batch_sync_enabled : bool;
  rules : option RuleRegistry.t;
}.

Definition with_applier (v : t) (a : ChangesetApplier.t) : t :=
  mk (verifier v) a (state v) (pending_store v) (gap_retry_count v) (gap_skip_on_failure v)
     (batch_sync_enabled v) (rules v).
Definition with_state (v : t) (s : StateStore.t) : t :=
  mk (verifier v) (applier v) s (pending_store v) (gap_retry_count v) (gap_skip_on_failure v)
     (batch_sync_enabled v) (rules v).
Definition with_pending_store (v : t) (p : PendingChangesetStore.t) : t :=
  mk (verifier v) (applier v) (state v) p (gap_retry_count v) (gap_skip_on_failure v)
     (batch_sync_enabled v) (rules v).

Definition in_memory (sequencer_pubkey : bytes) (empty_db : Db) : t :=
  mk (SignatureVerifier.new sequencer_pubkey) (ChangesetApplier.mk empty_db InMemoryDb)
     StateStore.in_memory PendingChangesetStore.new 3 false true None.
Definition set_rules (v : t) (rules : RuleRegistry.t) : t :=
  mk (verifier v) (applier v) (state v) (pending_store v) (gap_retry_count v) (gap_skip_on_failure v)
     (batch_sync_enabled v) (Some rules).
Definition last_sequence (v : t) : result AnyError (option Z) := StateStore.last_sequence (state v).
Definition pending_changeset_count (v : t) : Z := PendingChangesetStore.count (pending_store v).

(** *** [verify_pending_changesets_after_snapshot] *)
Definition verify_pending_changesets_after_snapshot (v : t) (snapshot_sequence : Z)
  : t * result AnyError unit :=
  if PendingChangesetStore.count (pending_store v) =? 0 then (v, Ok tt)
  else
    let pending := PendingChangesetStore.get_all (pending_store v) in
    let relevant := List.filter (fun p => PendingChangeset.sequence p <? snapshot_sequence) pending in
    match relevant with
    | [] => (v, Ok tt)
    | _ =>
        let '(db, _) := verify_changeset_chain (ChangesetApplier.conn (applier v)) relevant in
        let v1 := with_applier v (ChangesetApplier.with_conn (applier v) db) in
        match PendingChangesetStore.clear_up_to (pending_store v1) snapshot_sequence with
        | (p, Ok _) => (with_pending_store v1 p, Ok tt)
        | (p, Err e) => (with_pending_store v1 p, Err e)
        | (p, Panic w) => (with_pending_store v1 p, Panic w)
        end
    end.

(** *** [apply_message_with_audit] *)

(** The error is classified by its text. *)
Definition is_schema_mismatch (error_msg : string) : bool :=
  contains "Schema mismatch" error_msg || contains "don't exist" error_msg || contains "column" error_msg.

(** [error_msg.split(':').next_back()] always exists. *)
Definition deferral_reason (error_msg : string) : DeferralReason :=
  if contains "don't exist" error_msg then
    MissingTable (trim (default "unknown" (list.last (split_char ":" error_msg))))
  else ColumnMismatch "unknown" 0 0.

Definition apply_message_with_audit (v : t) (message : SignedMessage.t) : t * result AnyError ApplyResult :=
  match ChangesetApplier.apply_message_with_rules (applier v) message (rules v) with
  | (a, Ok _) =>
      let v1 := with_applier v a in
      match SignedMessage.message_type message with
      | MessageType.Snapshot =>
          match verify_pending_changesets_after_snapshot v1 (SignedMessage.sequence message) with
          | (v2, Ok _) => (v2, Ok Applied)
          | (v2, Err e) => (v2, Err e)
          | (v2, Panic w) => (v2, Panic w)
          end
      | _ => (v1, Ok Applied)
      end
  | (a, Err e) =>
      let v1 := with_applier v a in
      let error_msg := AnyError_to_string e in
      if is_schema_mismatch error_msg
         && bool_decide (SignedMessage.message_type message = MessageType.Changeset) then
        let pending := PendingChangeset.mk (SignedMessage.sequence message) (SignedMessage.payload message)
                         (deferral_reason error_msg) in
        match PendingChangesetStore.store (pending_store v1) pending with
        | (p, Ok _) => (with_pending_store v1 p, Ok StoredAsPending)
        | (p, Err e') => (with_pending_store v1 p, Err e')
        | (p, Panic w) => (with_pending_store v1 p, Panic w)
        end
      else (v1, Err e)
  | (a, Panic w) => (with_applier v a, Panic w)
  end.

(** The part shared by the three sync paths once a message is verified and its
    withdrawal reported: apply, then record progress (also when stored as
    pending). *)
Definition apply_and_record (v : t) (now : Z) (message : SignedMessage.t) : t * result AnyError unit :=
  match apply_message_with_audit v message with
  | (v1, Ok _) =>
      (with_state v1 (StateStore.record_sync (state v1) now (SignedMessage.sequence message)), Ok tt)
  | (v1, Err e) => (v1, Err e)
  | (v1, Panic w) => (v1, Panic w)
  end.

Definition withdrawals_of (o : option WithdrawalRequest.t) : list WithdrawalRequest.t :=
  match o with Some w => [w] | None => [] end.

(** *** Single-message sync *)
Section single.
Context {F : Type} `{SF : StorageFetcher F}.

Definition check_message (v : t) (message : SignedMessage.t) (sequence : Z) : result AnyError (option WithdrawalRequest.t) :=
  if negb (SignedMessage.sequence message =? sequence) then
    Err (Typed (SequenceGap sequence (SignedMessage.sequence message)))
  else
    let? _ := map_err (fun e => Typed (VSignatureVerification (AnyError_to_string e)))
                (SignatureVerifier.verify (verifier v) message) in
    ChangesetApplier.extract_withdrawal message.

Definition sync_one_with_callback (v : t) (fetcher : F) (now sequence : Z)
  : t * list WithdrawalRequest.t * result AnyError bool :=
  match fetch_message fetcher sequence with
  | Err e => (v, [], Err e)
  | Panic w => (v, [], Panic w)
  | Ok None => (v, [], Ok false)
  | Ok (Some message) =>
      match check_message v message sequence with
      | Err e => (v, [], Err e)
      | Panic w => (v, [], Panic w)
      | Ok withdrawal =>
          match apply_and_record v now message with
          | (v1, Ok _) => (v1, withdrawals_of withdrawal, Ok true)
          | (v1, Err e) => (v1, withdrawals_of withdrawal, Err e)
          | (v1, Panic w) => (v1, withdrawals_of withdrawal, Panic w)
          end
      end
  end.
Definition sync_one (v : t) (fetcher : F) (now sequence : Z) : t * result AnyError bool :=
  let '(v', _, r) := sync_one_with_callback v fetcher now sequence in (v', r).

(** [sync_to_head]: the loop, with fuel; [None] when it runs out. *)
Fixpoint sync_loop (fuel : nat) (v : t) (fetcher : F) (now next_sequence synced : Z)
  : t * option (result AnyError Z) :=
  match fuel with
  | O => (v, None)
  | S f =>
      match sync_one v fetcher now next_sequence with
      | (v1, Ok true) => sync_loop f v1 fetcher now (u64_add next_sequence 1) (synced + 1)
      | (v1, Ok false) | (v1, Err _) => (v1, Some (Ok synced))
      | (v1, Panic w) => (v1, Some (Panic w))
      end
  end.
Definition sync_to_head (fuel : nat) (v : t) (fetcher : F) (now : Z) : t * option (result AnyError Z) :=
  match StateStore.next_sequence (state v) with
  | Err e => (v, Some (Err e))
  | Panic w => (v, Some (Panic w))
  | Ok next_sequence => sync_loop fuel v fetcher now next_sequence 0
  end.

(** *** [detect_gap] *)
Fixpoint probe (fetcher : F) (expected_sequence : Z) (offsets : list Z) : option Z :=
  match offsets with
  | [] => None
  | offset :: offsets' =>
      let check_seq := u64_add expected_sequence offset in
      match fetch_message fetcher check_seq with
      | Ok (Some _) => Some check_seq
      | _ => probe fetcher expected_sequence offsets'
      end
  end.
Definition detect_gap (fetcher : F) (expected_sequence : Z) : option Z :=
  match probe fetcher expected_sequence (seqZ 1 10) with
  | Some s => Some s
  | None =>
      match fetch_latest fetcher with
      | Ok (Some latest) =>
          if expected_sequence <? latest then Some (u64_add expected_sequence 1) else None
      | _ => None
      end
  end.

(** *** One turn of [run_with_callbacks] *)
Record loop_state := mk_loop { next : Z; not_found_count : Z }.

(** What the turn ends with: go on at once, wait (gap delay or sync interval),
    or stop with an error; and what was passed to [on_sync]. *)
Inductive turn := Continue | WaitGapDelay | WaitSyncInterval | Stop (e : AnyError).

Definition wait (not_found : Z) : turn := if 0 <? not_found then WaitGapDelay else WaitSyncInterval.

Definition run_turn (v : t) (fetcher : F) (now : Z) (ls : loop_state)
  : t * loop_state * list WithdrawalRequest.t * list Z * turn :=
  match sync_one_with_callback v fetcher now (next ls) with
  | (v1, ws, Ok true) => (v1, mk_loop (u64_add (next ls) 1) 0, ws, [next ls], Continue)
  | (v1, ws, Ok false) =>
      let n := (not_found_count ls + 1) mod 2 ^ 32 in
      if gap_retry_count v <=? n then
        match detect_gap fetcher (next ls) with
        | Some available_seq =>
            if negb (gap_skip_on_failure v) then
              (v1, mk_loop (next ls) n, ws, [], Stop (Typed (SequenceGap (next ls) available_seq)))
            else
              let '(st, _) := StateStore.record_gap (state v1) now (next ls) available_seq in
              (with_state v1 st, mk_loop available_seq 0, ws, [], Continue)
        | None => (v1, mk_loop (next ls) 0, ws, [], wait 0)
        end
      else (v1, mk_loop (next ls) n, ws, [], wait n)
  | (v1, ws, _) => (v1, ls, ws, [], wait (not_found_count ls))
  end.
End single.

(** *** Batch sync *)

(** The loop of [sync_batch]: messages below the first number are skipped, the
    others verified, reported and applied in batch order. *)
Fixpoint sync_messages (v : t) (now next_sequence : Z) (messages : list SignedMessage.t)
  : t * list WithdrawalRequest.t * result AnyError Z :=
  match messages with
  | [] => (v, [], Ok 0)
  | message :: messages' =>
      if SignedMessage.sequence message <? next_sequence then sync_messages v now next_sequence messages'
      else
        match map_err (fun e => Typed (VSignatureVerification (AnyError_to_string e)))
                (SignatureVerifier.verify (verifier v) message) with
        | Err e => (v, [], Err e)
        | Panic w => (v, [], Panic w)
        | Ok _ =>
            match ChangesetApplier.extract_withdrawal message with
            | Err e => (v, [], Err e)
            | Panic w => (v, [], Panic w)
            | Ok withdrawal =>
                match apply_and_record v now message with
                | (v1, Err e) => (v1, withdrawals_of withdrawal, Err e)
                | (v1, Panic w) => (v1, withdrawals_of withdrawal, Panic w)
                | (v1, Ok _) =>
                    let '(v2, ws, r) := sync_messages v1 now next_sequence messages' in
                    (v2, withdrawals_of withdrawal ++ ws,
                     match r with Ok n => Ok (n + 1) | Err e => Err e | Panic w => Panic w end)
                end
            end
        end
  end.

Definition verify_batch (batch : SignedBatch.t) : result AnyError unit :=
  map_err (fun e => Typed (VSignatureVerification
             ("Batch signature verification failed: " +:+ VerificationError_to_string e)))
    (verify_batch_signature batch).

Definition sync_batch (v : t) (now : Z) (batch : SignedBatch.t)
  : t * list WithdrawalRequest.t * result AnyError Z :=
  match verify_batch batch with
  | Err e => (v, [], Err e)
  | Panic w => (v, [], Panic w)
  | Ok _ =>
      match StateStore.next_sequence (state v) with
      | Err e => (v, [], Err e)
      | Panic w => (v, [], Panic w)
      | Ok next_sequence => sync_messages v now next_sequence (SignedBatch.messages batch)
      end
  end.

Section batched.
Context {F : Type} `{SF : StorageFetcher F}.

(** The [while !iter.is_exhausted] loop; each turn moves to the next batch, so the
    number of indexed batches is enough fuel. *)
Fixpoint batched_loop (fuel : nat) (v : t) (fetcher : F) (now : Z) (ix : BatchIndex.t)
    (it : BatchIterator.t) (total : Z) : t * result AnyError Z :=
  match fuel with
  | O => (v, Ok total)
  | S f =>
      if BatchIterator.is_exhausted it ix then (v, Ok total)
      else
        match BatchIterator.current_batch it ix with
        | None => (v, Ok total)
        | Some info =>
            match fetch_batch_by_path fetcher (BatchInfo.path info) with
            | Err e => (v, Err e)
            | Panic w => (v, Panic w)
            | Ok None => batched_loop f v fetcher now ix (BatchIterator.advance_to_next_batch it) total
            | Ok (Some batch) =>
                match sync_batch v now batch with
                | (v1, _, Err e) => (v1, Err e)
                | (v1, _, Panic w) => (v1, Panic w)
                | (v1, _, Ok n) =>
                    batched_loop f v1 fetcher now ix (BatchIterator.advance_to_next_batch it) (total + n)
                end
            end
        end
  end.

Definition sync_to_head_batched (fuel : nat) (v : t) (fetcher : F) (now : Z)
  : t * option (result AnyError Z) :=
  if negb (supports_batches fetcher) then sync_to_head fuel v fetcher now
  else
    match BatchIndex.build (fetch_list fetcher) with
    | Err e => (v, Some (Err e))
    | Panic w => (v, Some (Panic w))
    | Ok index =>
        match StateStore.next_sequence (state v) with
        | Err e => (v, Some (Err e))
        | Panic w => (v, Some (Panic w))
        | Ok next_sequence =>
            let '(v', r) := batched_loop (S (BatchIndex.len index)) v fetcher now index
                              (BatchIterator.starting_at index next_sequence) 0 in
            (v', Some r)
        end
    end.

(** *** One turn of [run_batched] *)

(** Otherwise [run_with_callbacks] runs. *)
Definition use_batch_mode (v : t) (fetcher : F) : bool := batch_sync_enabled v && supports_batches fetcher.

Record batch_state := mk_batch { index : BatchIndex.t; bnext : Z; caught_up : bool }.

(** The loop over the messages of a fetched batch: as [sync_messages], but the
    next number follows each message, an unreadable withdrawal is ignored, and
    [on_sync] gets each number. *)
Fixpoint run_messages (v : t) (now next_sequence : Z) (messages : list SignedMessage.t)
  : t * Z * list WithdrawalRequest.t * list Z * result AnyError unit :=
  match messages with
  | [] => (v, next_sequence, [], [], Ok tt)
  | message :: messages' =>
      if SignedMessage.sequence message <? next_sequence then run_messages v now next_sequence messages'
      else
        match SignatureVerifier.verify (verifier v) message with
        | Err e => (v, next_sequence, [], [], Err (Typed (VSignatureVerification (AnyError_to_string e))))
        | Panic w => (v, next_sequence, [], [], Panic w)
        | Ok _ =>
            let ws := match ChangesetApplier.extract_withdrawal message with
                      | Ok o => withdrawals_of o
                      | _ => []
                      end in
            match apply_and_record v now message with
            | (v1, Err e) => (v1, next_sequence, ws, [], Err e)
            | (v1, Panic w) => (v1, next_sequence, ws, [], Panic w)
            | (v1, Ok _) =>
                let seq := SignedMessage.sequence message in
                let '(v2, next2, ws2, synced, r) := run_messages v1 now (u64_add seq 1) messages' in
                (v2, next2, ws ++ ws2, seq :: synced, r)
            end
        end
  end.

(** [refresh_due]: the refresh interval elapsed. *)
Definition run_batched_turn (v : t) (fetcher : F) (now : Z) (refresh_due : bool) (bs : batch_state)
  : t * batch_state * list WithdrawalRequest.t * list Z * turn :=
  let bs1 :=
    if refresh_due || caught_up bs then
      match BatchIndex.refresh (index bs) (fetch_list fetcher) with
      | (ix, Ok new_batches) =>
          mk_batch ix (bnext bs) (if (0 <? new_batches)%nat then false else caught_up bs)
      | (ix, _) => mk_batch ix (bnext bs) (caught_up bs)
      end
    else bs in
  let wait_turn (caught : bool) := if caught then WaitSyncInterval else WaitGapDelay in
  match BatchIndex.find_batch_containing (index bs1) (bnext bs1) with
  | Some info =>
      match fetch_batch_by_path fetcher (BatchInfo.path info) with
      | Ok (Some batch) =>
          match verify_batch batch with
          | Ok _ =>
              match run_messages v now (bnext bs1) (SignedBatch.messages batch) with
              | (v1, next1, ws, synced, Ok _) =>
                  (v1, mk_batch (index bs1) next1 (caught_up bs1), ws, synced, Continue)
              | (v1, next1, ws, synced, Err e) =>
                  (v1, mk_batch (index bs1) next1 (caught_up bs1), ws, synced, Stop e)
              | (v1, next1, ws, synced, Panic w) =>
                  (v1, mk_batch (index bs1) next1 (caught_up bs1), ws, synced, Stop (Msg w))
              end
          | Err e => (v, bs1, [], [], Stop e)
          | Panic w => (v, bs1, [], [], Stop (Msg w))
          end
      | _ => (v, bs1, [], [], wait_turn (caught_up bs1))
      end
  | None =>
      match BatchIndex.find_first_batch_starting_at_or_after (index bs1) (bnext bs1) with
      | Some next_batch =>
          let gap_end := BatchInfo.start_sequence next_batch in
          if negb (gap_skip_on_failure v) then
            (v, bs1, [], [], Stop (Typed (SequenceGap (bnext bs1) gap_end)))
          else
            match StateStore.record_gap (state v) now (bnext bs1) gap_end with
            | (st, Ok _) =>
                (with_state v st, mk_batch (index bs1) gap_end (caught_up bs1), [], [], Continue)
            | (st, Err e) => (with_state v st, bs1, [], [], Stop e)
            | (st, Panic w) => (with_state v st, bs1, [], [], Stop (Msg w))
            end
      | None => (v, mk_batch (index bs1) (bnext bs1) true, [], [], WaitSyncInterval)
      end
  end.
End batched.
End ops.
Arguments t {_}.
End Validator.
