(* ===== verification/ValidatorProps.v ===== *)
(** * Properties of the validator (crates/synddb-validator/src/validator.rs) *)
From Stdlib Require Import Ascii Strings.Byte.
From S2P Require Import Prelude RustStd BTree Batches Extern Cose SignedTypes SyncIndex.
From S2P Require Import StateStore Applier AuditTrail Validator.

Section lemmas.
Context `{HX : Hex} `{CR : Crypto} `{CS : Cose} `{CC : !CoseCodec} `{ZS : Zstd} `{SE : Session}.
Context `{SC : Serde ChangesetBatchRequest.t} `{SN : Serde SnapshotRequest.t} `{SWd : Serde WithdrawalRequest.t}.
Implicit Types (v : Validator.t) (m : SignedMessage.t).

(** Only the replica, the progress and the pending changesets ever change. *)
Definition same_setup v v' : Prop :=
  Validator.verifier v' = Validator.verifier v /\ Validator.rules v' = Validator.rules v /\
  Validator.gap_retry_count v' = Validator.gap_retry_count v /\
  Validator.gap_skip_on_failure v' = Validator.gap_skip_on_failure v /\
  Validator.batch_sync_enabled v' = Validator.batch_sync_enabled v.

Lemma audit_frame v m :
  same_setup v (fst (Validator.apply_message_with_audit v m)) /\
  Validator.state (fst (Validator.apply_message_with_audit v m)) = Validator.state v.
Proof.
  unfold Validator.apply_message_with_audit.
  destruct (ChangesetApplier.apply_message_with_rules _ _ _) as [a [[]|e|w]]; [| |done].
  - destruct (SignedMessage.message_type m); [done|done|].
    unfold Validator.verify_pending_changesets_after_snapshot.
    destruct (_ =? 0); [done|]. destruct (List.filter _ _); [done|].
    destruct (verify_changeset_chain _ _). cbn zeta.
    by destruct (PendingChangesetStore.clear_up_to _ _) as [? [| |]].
  - destruct (_ && _); [|done]. by destruct (PendingChangesetStore.store _ _) as [? [| |]].
Qed.

Lemma apply_and_record_frame v now m : same_setup v (fst (Validator.apply_and_record v now m)).
Proof.
  unfold Validator.apply_and_record. destruct (audit_frame v m) as [Hs _].
  by destruct (Validator.apply_message_with_audit v m) as [v1 [| |]].
Qed.

Lemma apply_and_record_state v now m :
  Validator.state (fst (Validator.apply_and_record v now m))
  = match snd (Validator.apply_and_record v now m) with
    | Ok _ => StateStore.record_sync (Validator.state v) now (SignedMessage.sequence m)
    | _ => Validator.state v
    end.
Proof.
  unfold Validator.apply_and_record. destruct (audit_frame v m) as [_ Hs].
  destruct (Validator.apply_message_with_audit v m) as [v1 [| |]]; cbn in *; congruence.
Qed.

(** An error on a message that is not a snapshot leaves the replica alone. *)
Lemma failed_apply_keeps_db v now m :
  SignedMessage.message_type m <> MessageType.Snapshot ->
  is_ok (snd (Validator.apply_and_record v now m)) = false ->
  Validator.applier (fst (Validator.apply_and_record v now m)) = Validator.applier v.
Proof.
  intros Hty. unfold Validator.apply_and_record, Validator.apply_message_with_audit,
    ChangesetApplier.apply_message_with_rules.
  destruct (SignedMessage.message_type m); [|done|done].
  unfold ChangesetApplier.apply_changeset_message_with_rules.
  match goal with |- context [match ?body with Ok tx => _ | Err e => _ | Panic w => _ end] =>
    destruct body as [tx|e|w] end; [done| |done].
  destruct (_ && _); [|done]. by destruct (PendingChangesetStore.store _ _) as [? [| |]].
Qed.

(** *** What an accepted message does *)

(** The changeset is applied: each of its parts applies to what the one before left, in
    one transaction that the rules let pass, and the replica is the committed result. *)
Definition applied v m v' : Prop :=
  exists batch tx,
    ChangesetApplier.decompress_and_parse (A := ChangesetBatchRequest.t) m "changeset batch" = Ok batch /\
    begin_tx (ChangesetApplier.conn (Validator.applier v)) = Ok tt /\
    ChangesetApplier.apply_changesets (SignedMessage.sequence m) (ChangesetBatchRequest.batch_id batch) 0
      (ChangesetApplier.conn (Validator.applier v)) (ChangesetBatchRequest.changesets batch) = Ok tx /\
    (forall registry, Validator.rules v = Some registry ->
       RuleRegistry.validate_all registry tx (SignedMessage.sequence m) = Ok tt) /\
    commit_tx tx = Ok tt /\ Validator.applier v' = ChangesetApplier.with_conn (Validator.applier v) tx /\
    Validator.pending_store v' = Validator.pending_store v.

(** The changeset is deferred: applying it failed with an error whose text reads like a
    schema mismatch; the replica is untouched and the payload is kept as pending. *)
Definition deferred v m v' : Prop :=
  exists e, snd (ChangesetApplier.apply_changeset_message_with_rules (Validator.applier v) m (Validator.rules v)) = Err e /\
    Validator.is_schema_mismatch (AnyError_to_string e) = true /\ SignedMessage.sequence m <= i64_max /\
    Validator.applier v' = Validator.applier v /\
    Validator.pending_store v' =
      BTreeMap.insert (SignedMessage.sequence m)
        (SignedMessage.payload m, reason_json (Validator.deferral_reason (AnyError_to_string e)))
        (Validator.pending_store v).

(** The snapshot replaces the replica; the pending changesets older than it are checked
    against it and dropped, with every one up to its number. *)
Definition restored v m v' : Prop :=
  exists request db,
    ChangesetApplier.decompress_and_parse (A := SnapshotRequest.t) m "snapshot" = Ok request /\
    restore_backup (ChangesetApplier.conn (Validator.applier v)) (SnapshotData.data (SnapshotRequest.snapshot request)) = Ok db /\
    let older := List.filter (fun p => PendingChangeset.sequence p <? SignedMessage.sequence m)
                   (PendingChangesetStore.get_all (Validator.pending_store v)) in
    (older = [] -> ChangesetApplier.conn (Validator.applier v') = db /\
                   Validator.pending_store v' = Validator.pending_store v) /\
    (older <> [] -> ChangesetApplier.conn (Validator.applier v') = fst (verify_changeset_chain db older) /\
                    Validator.pending_store v' =
                      BTreeMap.retain (fun k => negb (k <=? SignedMessage.sequence m)) (Validator.pending_store v)).

Definition effect v m v' : Prop :=
  match SignedMessage.message_type m with
  | MessageType.Changeset => applied v m v' \/ deferred v m v'
  | MessageType.Withdrawal => Validator.applier v' = Validator.applier v /\ Validator.pending_store v' = Validator.pending_store v
  | MessageType.Snapshot => restored v m v'
  end.

Lemma changeset_effect v m v' r :
  SignedMessage.message_type m = MessageType.Changeset ->
  Validator.apply_message_with_audit v m = (v', Ok r) -> effect v m v'.
Proof.
  unfold effect, Validator.apply_message_with_audit, ChangesetApplier.apply_message_with_rules. intros Hty. rewrite Hty.
  destruct (ChangesetApplier.apply_changeset_message_with_rules _ _ _) as [a [[]|e|w]] eqn:Ea; intros H; [| |done].
  - left. injection H as <- _. unfold ChangesetApplier.apply_changeset_message_with_rules in Ea.
    match type of Ea with match ?body with Ok _ => _ | Err _ => _ | Panic _ => _ end = _ =>
      destruct body as [tx|e|w] eqn:Eb end; [|done..].
    injection Ea as <-. destruct (ChangesetApplier.decompress_and_parse _ _) as [batch| |] eqn:Ep; [|done..].
    cbn [result_bind] in Eb. destruct (begin_tx _) as [[]| |] eqn:Et; [|done..]. cbn [map_err result_bind] in Eb.
    destruct (ChangesetApplier.apply_changesets _ _ _ _ _) as [tx'| |] eqn:Ec; [|done..]. cbn [result_bind] in Eb.
    exists batch, tx'. destruct (Validator.rules v) as [reg|]; cbn [result_bind] in Eb.
    + destruct (RuleRegistry.validate_all reg tx' _) as [[]| |] eqn:Er; [|done..]. cbn [map_err result_bind] in Eb.
      destruct (commit_tx tx') as [[]| |]; [|done..]. injection Eb as <-. split_and!; try done. by intros ? [= <-].
    + destruct (commit_tx tx') as [[]| |]; [|done..]. injection Eb as <-. by split_and!.
  - right. exists e. destruct (Validator.is_schema_mismatch _) eqn:Em; [|done].
    rewrite bool_decide_true in H by done. cbn [andb] in H. unfold PendingChangesetStore.store in H.
    cbn [PendingChangeset.sequence PendingChangeset.data PendingChangeset.reason] in H.
    destruct (_ <=? i64_max) eqn:El; [|done]. injection H as <- _. bool_to_prop.
    assert (a = Validator.applier v) as ->; [|by rewrite Ea; split_and!].
    unfold ChangesetApplier.apply_changeset_message_with_rules in Ea.
    match type of Ea with match ?body with Ok _ => _ | Err _ => _ | Panic _ => _ end = _ => destruct body end; congruence.
Qed.

Lemma snapshot_effect v m v' r :
  SignedMessage.message_type m = MessageType.Snapshot ->
  Validator.apply_message_with_audit v m = (v', Ok r) -> effect v m v'.
Proof.
  unfold effect, Validator.apply_message_with_audit, ChangesetApplier.apply_message_with_rules,
    ChangesetApplier.apply_snapshot_message, restored. intros Hty. rewrite Hty.
  rewrite (bool_decide_false (MessageType.Snapshot = MessageType.Changeset)) by done.
  destruct (ChangesetApplier.decompress_and_parse m _) as [request| |] eqn:Ep; [|by rewrite ?andb_false_r..].
  unfold ChangesetApplier.restore_snapshot.
  destruct (restore_backup _ _) as [db| |] eqn:Er; [|by rewrite ?andb_false_r..].
  intros H. exists request, db. split; [done|]. split; [done|].
  assert (Hv : exists v2, Validator.verify_pending_changesets_after_snapshot
      (Validator.with_applier v (ChangesetApplier.with_conn (Validator.applier v) db)) (SignedMessage.sequence m) = (v2, Ok tt)
      /\ v2 = v').
  { destruct (ChangesetApplier.db_type _); [destruct (set_pragmas db); [|by rewrite ?andb_false_r in H..]|];
      destruct (Validator.verify_pending_changesets_after_snapshot _ _) as [v2 [[]| |]];
      cbn in H; try done; injection H as <- _; eauto. }
  destruct Hv as (v2 & Hv & ->). unfold Validator.verify_pending_changesets_after_snapshot in Hv.
  cbn [Validator.pending_store Validator.with_applier Validator.applier ChangesetApplier.conn ChangesetApplier.with_conn] in Hv.
  cbv zeta. destruct (_ =? 0) eqn:E0.
  { injection Hv as <-. unfold PendingChangesetStore.count in E0. bool_to_prop.
    destruct (Validator.pending_store v) eqn:Ep0; [|cbn in E0; lia]. cbn. rewrite Ep0. by split. }
  destruct (List.filter _ _) as [|p ps] eqn:Eo; [by injection Hv as <-|].
  destruct (verify_changeset_chain db (p :: ps)) as [db' res]. cbn zeta in Hv.
  unfold PendingChangesetStore.clear_up_to in Hv. destruct (_ <=? i64_max); [|done]. by injection Hv as <-.
Qed.

(** A message that was taken: its effect, and the progress recorded. *)
Lemma apply_and_record_effect v now m v' :
  Validator.apply_and_record v now m = (v', Ok tt) ->
  effect v m v' /\ Validator.state v' = StateStore.record_sync (Validator.state v) now (SignedMessage.sequence m).
Proof.
  intros H. pose proof (apply_and_record_state v now m) as Hst. rewrite H in Hst. split; [|done].
  unfold Validator.apply_and_record in H.
  destruct (Validator.apply_message_with_audit v m) as [v1 [r| |]] eqn:Ea; [|done..]. injection H as <-.
  assert (He : effect v m v1).
  { destruct (SignedMessage.message_type m) eqn:Hty; [by eapply changeset_effect| |by eapply snapshot_effect].
    unfold effect. rewrite Hty. unfold Validator.apply_message_with_audit, ChangesetApplier.apply_message_with_rules in Ea.
    rewrite Hty in Ea. by injection Ea as <- _. }
  unfold effect, applied, deferred, restored in *. by destruct (SignedMessage.message_type m).
Qed.

(** *** The verifier *)

Lemma verifier_ok vf m :
  SignatureVerifier.verify vf m = Ok tt ->
  verify_signature m = Ok tt /\
  hex_decode (strip_prefix_or_self "0x" (SignedMessage.signer m)) = Ok (SignatureVerifier.expected_pubkey vf).
Proof.
  unfold SignatureVerifier.verify, SignatureVerifier.hex_key. intros H.
  destruct (verify_signature m) as [[]| |]; cbn [map_err result_bind] in H; [|done..]. split; [done|].
  case_bool_decide; cbn [negb result_bind] in H; [|done].
  destruct (hex_decode _) as [b| |]; cbn [map_err result_bind] in H; [|done..].
  case_bool_decide as Heq; cbn [negb] in H; [|done]. by rewrite Heq.
Qed.

Lemma verifier_complete `{HL : !HexLaws} vf m :
  verify_signature m = Ok tt ->
  hex_decode (strip_prefix_or_self "0x" (SignedMessage.signer m)) = Ok (SignatureVerifier.expected_pubkey vf) ->
  length (SignatureVerifier.expected_pubkey vf) = 64%nat ->
  SignatureVerifier.verify vf m = Ok tt.
Proof.
  intros Hs Hk Hl. unfold SignatureVerifier.verify, SignatureVerifier.hex_key.
  rewrite Hs. cbn [map_err result_bind]. pose proof (hex_decode_length _ _ Hk) as Hlen.
  rewrite Hl in Hlen. rewrite bool_decide_true by done. cbn [negb]. rewrite Hk. cbn [map_err result_bind].
  by rewrite bool_decide_true.
Qed.

(** A message accepted under number [s]: the sequencer signed it for that number. *)
Definition authentic v m : Prop :=
  verify_signature m = Ok tt /\
  hex_decode (strip_prefix_or_self "0x" (SignedMessage.signer m))
    = Ok (SignatureVerifier.expected_pubkey (Validator.verifier v)).

Lemma check_message_ok v m s w :
  Validator.check_message v m s = Ok w ->
  SignedMessage.sequence m = s /\ authentic v m /\ ChangesetApplier.extract_withdrawal m = Ok w.
Proof.
  unfold Validator.check_message. destruct (_ =? s) eqn:E; cbn [negb]; [|done]. bool_to_prop. intros H.
  destruct (SignatureVerifier.verify _ m) as [[]| |] eqn:Ev; cbn [map_err result_bind] in H; [|done..].
  apply verifier_ok in Ev. done.
Qed.

Section fetching.
Context {F : Type} `{SF : StorageFetcher F}.

Lemma sync_one_ok v (f : F) now s v' ws :
  Validator.sync_one_with_callback v f now s = (v', ws, Ok true) ->
  exists m w, fetch_message f s = Ok (Some m) /\ SignedMessage.sequence m = s /\ authentic v m /\
    ChangesetApplier.extract_withdrawal m = Ok w /\ ws = Validator.withdrawals_of w /\
    Validator.apply_and_record v now m = (v', Ok tt).
Proof.
  unfold Validator.sync_one_with_callback. intros H.
  destruct (fetch_message f s) as [[m|]| |]; [|done..].
  destruct (Validator.check_message v m s) as [w| |] eqn:Ec; [|done..].
  apply check_message_ok in Ec as (Hs & Ha & Hw).
  destruct (Validator.apply_and_record v now m) as [v1 [[]| |]] eqn:Ea; [|done..].
  injection H as <- <-. by exists m, w.
Qed.

(** What one call did, whatever it answers. *)
Lemma sync_one_spec v (f : F) now s v' ws r :
  is_u64 s ->
  Validator.sync_one_with_callback v f now s = (v', ws, r) ->
  same_setup v v' /\
  match r with
  | Ok true => exists m w,
      fetch_message f s = Ok (Some m) /\ SignedMessage.sequence m = s /\ authentic v m /\
      ChangesetApplier.extract_withdrawal m = Ok w /\ ws = Validator.withdrawals_of w /\
      Validator.apply_and_record v now m = (v', Ok tt)
  | Ok false => fetch_message f s = Ok None /\ v' = v /\ ws = []
  | _ => Validator.state v' = Validator.state v /\
      (forall m, fetch_message f s = Ok (Some m) -> SignedMessage.message_type m <> MessageType.Snapshot ->
         Validator.applier v' = Validator.applier v)
  end.
Proof.
  intros Hs H. destruct r as [[|]|e|w].
  - destruct (sync_one_ok _ _ _ _ _ _ H) as (m & w & Hf & Hm & Ha & Hw & Hws & Hap).
    pose proof (apply_and_record_frame v now m) as Hfr. rewrite Hap in Hfr. split; [done|]. by exists m, w.
  - unfold Validator.sync_one_with_callback in H.
    destruct (fetch_message f s) as [[m|]| |]; [|by injection H as <- <-|done..].
    destruct (Validator.check_message v m s); [|done..]. by destruct (Validator.apply_and_record _ _ _) as [? [| |]].
  - unfold Validator.sync_one_with_callback in H.
    destruct (fetch_message f s) as [[m|]| |]; [|done|by injection H as <- <-|done].
    destruct (Validator.check_message v m s); [|by injection H as <- <-|done].
    pose proof (apply_and_record_frame v now m) as Hfr. pose proof (apply_and_record_state v now m) as Hst.
    pose proof (failed_apply_keeps_db v now m) as Hdb.
    destruct (Validator.apply_and_record v now m) as [v1 [|e'|]]; [done| |done].
    injection H as <- _ _. cbn in *. split_and!; auto. intros m' [= <-] ?. auto.
  - unfold Validator.sync_one_with_callback in H.
    destruct (fetch_message f s) as [[m|]| |]; [|done|done|by injection H as <- <-].
    destruct (Validator.check_message v m s); [|done|by injection H as <- <-].
    pose proof (apply_and_record_frame v now m) as Hfr. pose proof (apply_and_record_state v now m) as Hst.
    pose proof (failed_apply_keeps_db v now m) as Hdb.
    destruct (Validator.apply_and_record v now m) as [v1 [|e'|]]; [done|done|].
    injection H as <- _ _. cbn in *. split_and!; auto. intros m' [= <-] ?. auto.
Qed.

(** C6. [sync_one] advances only on success, and only over an authentic message.
    If it reports a message synced, the fetcher returned a message that carries
    exactly the requested number, whose signature verifies and whose key is the
    configured sequencer key; its withdrawal (if it is one) was reported; the
    recorded progress is that number; and the message had its effect: a changeset
    either applied, part by part and past every rule, in a committed transaction, or
    was deferred, its payload kept as pending and the replica untouched, because
    applying it failed with an error that reads like a schema mismatch; a snapshot
    replaced the replica and settled the pending changesets older than it; a
    withdrawal changed neither.  Otherwise the recorded progress is unchanged; "not
    available" changes nothing at all, and an error on a message that is not a
    snapshot leaves the replica as it was. *)
Theorem sync_one_correct v (f : F) now s v' ws r :
  is_u64 s ->
  Validator.sync_one_with_callback v f now s = (v', ws, r) ->
  same_setup v v' /\
  match r with
  | Ok true => exists m w,
      fetch_message f s = Ok (Some m) /\ SignedMessage.sequence m = s /\ authentic v m /\
      ChangesetApplier.extract_withdrawal m = Ok w /\ ws = Validator.withdrawals_of w /\
      effect v m v' /\ Validator.state v' = StateStore.record_sync (Validator.state v) now s /\
      Validator.last_sequence v' = Ok (Some s)
  | Ok false => fetch_message f s = Ok None /\ v' = v /\ ws = []
  | _ => Validator.state v' = Validator.state v /\
      (forall m, fetch_message f s = Ok (Some m) -> SignedMessage.message_type m <> MessageType.Snapshot ->
         Validator.applier v' = Validator.applier v)
  end.
Proof.
  intros Hs H. destruct (sync_one_spec v f now s v' ws r Hs H) as [Hsetup Hr]. split; [done|].
  destruct r as [[|]|e|w]; [|done..]. destruct Hr as (m & w & Hf & Hm & Ha & Hw & Hws & Hap).
  destruct (apply_and_record_effect _ _ _ _ Hap) as [Heff Hst]. rewrite Hm in Hst.
  exists m, w. split_and!; auto. unfold Validator.last_sequence. rewrite Hst. by apply record_sync_last.
Qed.

(** *** [sync_to_head] *)

(** The messages of [ms] applied one after the other, all successfully. *)
Fixpoint process v now (ms : list SignedMessage.t) : option Validator.t :=
  match ms with
  | [] => Some v
  | m :: ms' =>
      match Validator.apply_and_record v now m with
      | (v', Ok _) => process v' now ms'
      | _ => None
      end
  end.

Lemma process_setup now ms : forall v v', process v now ms = Some v' -> same_setup v v'.
Proof.
  induction ms as [|m ms IH]; intros v v' H; cbn in H; [by injection H as <-|].
  pose proof (apply_and_record_frame v now m) as Hf.
  destruct (Validator.apply_and_record v now m) as [v1 [[]| |]]; [|done..].
  specialize (IH _ _ H). cbn in Hf. unfold same_setup in *. intuition congruence.
Qed.

Lemma process_progress now ms : forall v v',
  process v now ms = Some v' ->
  StateStore.gaps (Validator.state v') = StateStore.gaps (Validator.state v) /\
  match last ms with
  | Some m => is_u64 (SignedMessage.sequence m) ->
              Validator.last_sequence v' = Ok (Some (SignedMessage.sequence m))
  | None => v' = v
  end.
Proof.
  induction ms as [|m ms IH]; intros v v' H; cbn [process] in H; [by injection H as <-|].
  pose proof (apply_and_record_state v now m) as Hs.
  destruct (Validator.apply_and_record v now m) as [v1 [[]| |]]; [|done..]. cbn in Hs.
  destruct (IH _ _ H) as [Hg Hl]. split; [by rewrite Hg, Hs|].
  destruct ms as [|m' ms]; [|rewrite last_cons_cons; destruct (last (m' :: ms)) eqn:El; [done|by apply last_None in El]].
  cbn in *. injection H as <-. intros Hu. unfold Validator.last_sequence. rewrite Hs.
  by apply record_sync_last.
Qed.

Lemma authentic_setup v v' m : same_setup v v' -> authentic v' m -> authentic v m.
Proof. intros [Hv _]. unfold authentic. by rewrite Hv. Qed.

(** The fetcher serves [ms] at the numbers from [s] on, and each is authentic. *)
Definition served v (f : F) (s : Z) (ms : list SignedMessage.t) : Prop :=
  forall i m, ms !! i = Some m ->
    fetch_message f (s + Z.of_nat i) = Ok (Some m) /\
    SignedMessage.sequence m = s + Z.of_nat i /\ authentic v m.

Lemma sync_loop_spec (f : F) now fuel : forall v s k v' n,
  is_u64 s -> s + Z.of_nat fuel < 2 ^ 64 ->
  Validator.sync_loop fuel v f now s k = (v', Some (Ok n)) ->
  exists ms v1, (length ms < fuel)%nat /\ n = k + Z.of_nat (length ms) /\ served v f s ms /\ process v now ms = Some v1 /\
    fst (Validator.sync_one v1 f now (s + Z.of_nat (length ms))) = v' /\
    snd (Validator.sync_one v1 f now (s + Z.of_nat (length ms))) <> Ok true.
Proof.
  unfold is_u64. induction fuel as [|fuel IH]; intros v s k v' n Hs Hb H; cbn [Validator.sync_loop] in H; [done|].
  destruct (Validator.sync_one v f now s) as [v1 r] eqn:E.
  destruct r as [[|]|e|w]; [|exists [], v..|done].
  - unfold Validator.sync_one in E.
    destruct (Validator.sync_one_with_callback v f now s) as [[v2 ws] r] eqn:E2. injection E as -> ->.
    destruct (sync_one_ok _ _ _ _ _ _ E2) as (m & w & Hf & Hm & Ha & _ & _ & Hap).
    rewrite u64_add_small in H by (unfold is_u64; lia).
    destruct (IH v1 (s + 1) (k + 1) v' n) as (ms & v3 & Hl & Hn & Hserved & Hp & Hlast); [lia | lia | done |].
    pose proof (apply_and_record_frame v now m) as Hsetup. rewrite Hap in Hsetup. cbn in Hsetup.
    exists (m :: ms), v3. cbn [length process]. rewrite Hap.
    replace (s + Z.of_nat (S (length ms))) with (s + 1 + Z.of_nat (length ms)) by lia.
    split_and!; [lia | lia | | done | apply Hlast | apply Hlast].
    intros [|i] m'; cbn.
    + intros [= <-]. by rewrite Z.add_0_r.
    + intros Hi. destruct (Hserved i m' Hi) as (H1 & H2 & H3).
      replace (s + Z.of_nat (S i)) with (s + 1 + Z.of_nat i) by lia.
      split_and!; [done | done | by eapply authentic_setup].
  - injection H as <- <-. cbn [length]. rewrite !Z.add_0_r, E. split_and!; try done. lia.
  - injection H as <- <-. cbn [length]. rewrite !Z.add_0_r, E. split_and!; try done. lia.
Qed.

Lemma sync_loop_terminates (f : F) now fuel : forall v s k last,
  0 <= s <= last -> last < 2 ^ 64 -> fetch_message f last = Ok None ->
  last - s < Z.of_nat fuel -> exists v' r, Validator.sync_loop fuel v f now s k = (v', Some r).
Proof.
  induction fuel as [|fuel IH]; intros v s k last Hs Hb Hf Hfuel; [lia|]. cbn [Validator.sync_loop].
  destruct (Validator.sync_one v f now s) as [v1 r] eqn:E. destruct r as [[|]|e|w]; [|by eauto..].
  destruct (decide (s = last)) as [->|Hne].
  - unfold Validator.sync_one, Validator.sync_one_with_callback in E. rewrite Hf in E. done.
  - rewrite u64_add_small by (unfold is_u64; lia). apply (IH _ _ _ last); auto; lia.
Qed.

(** C7. [sync_to_head] replays the log without a gap and stops.  When it returns
    [n], there are [n] messages, at the consecutive numbers from the recorded
    progress on, each served under its number and signed by the sequencer, that
    were applied in that order; the recorded progress is the last of them (no gap
    is recorded), and the attempt at the following number did not succeed.  It
    does return when the fetcher has no message at some later number, with fuel
    for the numbers up to it. *)
Theorem sync_to_head_replays v (f : F) now fuel s last :
  StateStore.next_sequence (Validator.state v) = Ok s -> is_u64 s -> s + Z.of_nat fuel < 2 ^ 64 ->
  s <= last -> fetch_message f last = Ok None -> last - s < Z.of_nat fuel ->
  (exists v' r, Validator.sync_to_head fuel v f now = (v', Some r)) /\
  (forall v' n, Validator.sync_to_head fuel v f now = (v', Some (Ok n)) ->
   exists ms v1, n = Z.of_nat (length ms) /\ served v f s ms /\ process v now ms = Some v1 /\
     fst (Validator.sync_one v1 f now (s + n)) = v' /\ snd (Validator.sync_one v1 f now (s + n)) <> Ok true /\
     StateStore.gaps (Validator.state v1) = StateStore.gaps (Validator.state v) /\
     (0 < n -> Validator.last_sequence v1 = Ok (Some (s + n - 1)))).
Proof.
  intros Hnext Hs Hb Hle Hnone Hfuel. unfold Validator.sync_to_head. rewrite Hnext. unfold is_u64 in Hs. split.
  - apply (sync_loop_terminates f now fuel v s 0 last); auto; lia.
  - intros v' n H. destruct (sync_loop_spec f now fuel v s 0 v' n Hs Hb H)
      as (ms & v1 & Hlf & Hn & Hserved & Hp & Hv' & Hr). rewrite Z.add_0_l in Hn. subst n.
    destruct (process_progress now ms v v1 Hp) as [Hg Hl].
    exists ms, v1. split_and!; auto. intros Hpos.
    destruct (list.last ms) as [m|] eqn:El; [|apply last_None in El; subst; cbn in Hpos; lia].
    assert (Hi : ms !! pred (length ms) = Some m) by (by rewrite <- last_lookup).
    destruct (Hserved _ _ Hi) as (_ & Hseq & _). pose proof (lookup_lt_Some _ _ _ Hi).
    assert (Hpred : Z.of_nat (pred (length ms)) = Z.of_nat (length ms) - 1) by lia.
    rewrite Hseq, Hpred in Hl. rewrite Hl; [by replace (s + Z.of_nat (length ms) - 1) with (s + (Z.of_nat (length ms) - 1)) by lia|].
    unfold is_u64. lia.
Qed.

(** [detect_gap] may point at a number that does not exist: when nothing is
    served at the ten numbers after the expected one but the latest number is
    higher still, it answers the number right after the expected one, which it has
    just found to be missing.  With gap skipping on, the validator then creeps
    over the gap one number at a time and records a gap for each; with skipping
    off, the reported "available" number is wrong. *)
Theorem detect_gap_reports_missing (f : F) expected latest :
  0 <= expected -> expected + 10 < 2 ^ 64 ->
  (forall k, expected < k <= expected + 10 -> fetch_message f k = Ok None) ->
  fetch_latest f = Ok (Some latest) -> expected < latest ->
  Validator.detect_gap f expected = Some (expected + 1) /\ fetch_message f (expected + 1) = Ok None.
Proof.
  intros H0 Hb Hnone Hl Hlt. split; [|apply Hnone; lia]. unfold Validator.detect_gap.
  assert (Hp : forall l, Forall (fun o => 1 <= o <= 10) l -> Validator.probe f expected l = None).
  { induction 1 as [|o l Ho _ IH]; cbn; [done|].
    rewrite u64_add_small by (unfold is_u64; lia). by rewrite Hnone by lia. }
  rewrite Hp by (repeat (apply Forall_cons_2; [lia|]); constructor).
  rewrite Hl, (proj2 (Z.ltb_lt _ _)) by done. f_equal. apply u64_add_small. unfold is_u64. lia.
Qed.
End fetching.

(** *** Batches *)

Definition relevant (s : Z) (ms : list SignedMessage.t) : list SignedMessage.t :=
  List.filter (fun m => negb (SignedMessage.sequence m <? s)) ms.

Lemma verify_wrapped v m :
  map_err (fun e => Typed (VSignatureVerification (AnyError_to_string e)))
    (SignatureVerifier.verify (Validator.verifier v) m) = Ok tt -> authentic v m.
Proof.
  destruct (SignatureVerifier.verify _ m) as [[]| |] eqn:E; [|done..]. intros _. by apply verifier_ok.
Qed.

(** What the batch loop did: it went through a prefix of the relevant messages,
    all of it when it succeeded. *)
Lemma sync_messages_spec now s ms : forall v v' ws r,
  Validator.sync_messages v now s ms = (v', ws, r) ->
  exists done rest v1, relevant s ms = done ++ rest /\ Forall (authentic v) done /\
    process v now done = Some v1 /\ Validator.state v' = Validator.state v1 /\
    (forall n, r = Ok n -> rest = [] /\ v' = v1 /\ n = Z.of_nat (length done)).
Proof.
  induction ms as [|m ms IH]; intros v v' ws r H; cbn [Validator.sync_messages] in H.
  - injection H as <- <- <-. exists [], [], v. split_and!; auto. by intros n [= <-].
  - unfold relevant in *. cbn [List.filter]. destruct (SignedMessage.sequence m <? s) eqn:Es; cbn [negb].
    { by apply IH in H. }
    destruct (map_err _ (SignatureVerifier.verify _ m)) as [[]|e|w] eqn:Ev;
      [|injection H as <- <- <-; exists [], (m :: relevant s ms), v; by split_and!..].
    apply verify_wrapped in Ev.
    destruct (ChangesetApplier.extract_withdrawal m) as [wd|e|w];
      [|injection H as <- <- <-; exists [], (m :: relevant s ms), v; by split_and!..].
    pose proof (apply_and_record_frame v now m) as Hfr. pose proof (apply_and_record_state v now m) as Hst.
    destruct (Validator.apply_and_record v now m) as [v1 [[]|e|w]] eqn:Ea; cbn in Hfr, Hst;
      [|injection H as <- <- <-; exists [], (m :: relevant s ms), v; by split_and!..].
    destruct (Validator.sync_messages v1 now s ms) as [[v2 ws2] r2] eqn:E2.
    injection H as <- <- <-. destruct (IH _ _ _ _ E2) as (dn & rest & v3 & Hrel & Hau & Hp & Hs & Hok).
    exists (m :: dn), rest, v3. cbn [process]. rewrite Ea. split_and!; auto.
    + cbn. by rewrite <- Hrel.
    + constructor; [done|]. eapply Forall_impl; [exact Hau|]. intros x. by apply authentic_setup.
    + intros n Hn. destruct r2 as [n2| |]; [|done..]. apply Ok_inj in Hn as <-.
      destruct (Hok n2 eq_refl) as (-> & -> & ->). split_and!; auto. cbn. lia.
Qed.

(** The effects of these messages, one after the other, each with its progress. *)
Fixpoint effects v now (ms : list SignedMessage.t) v' : Prop :=
  match ms with
  | [] => v' = v
  | m :: ms' => exists v1, same_setup v v1 /\ effect v m v1 /\
      Validator.state v1 = StateStore.record_sync (Validator.state v) now (SignedMessage.sequence m) /\
      effects v1 now ms' v'
  end.

Lemma process_effects now ms : forall v v', process v now ms = Some v' -> effects v now ms v'.
Proof.
  induction ms as [|m ms IH]; intros v v' H; cbn in *; [by injection H|].
  pose proof (apply_and_record_frame v now m) as Hf.
  destruct (Validator.apply_and_record v now m) as [v1 [[]| |]] eqn:Ea; [|done..].
  destruct (apply_and_record_effect _ _ _ _ Ea) as [He Hs]. exists v1. auto.
Qed.

(** C8. [sync_batch] takes exactly the new messages of a signed batch, in order.  If it
    returns [n], the batch signature verified under the key the batch itself names, the
    messages numbered below the recorded progress were skipped, and the [n] others, each
    signed by the configured sequencer, were taken in batch order, each with its effect (a
    changeset applied, or deferred as pending; a snapshot restored) and its progress;
    progress ends at the last of them.  If it stops early, what was recorded is that of
    the messages taken before the failure, so the next run resumes there. *)
Theorem sync_batch_correct v now batch s v' ws r :
  StateStore.next_sequence (Validator.state v) = Ok s ->
  Validator.sync_batch v now batch = (v', ws, r) ->
  exists taken rest v1,
    effects v now taken v1 /\ Forall (authentic v) taken /\
    Validator.state v' = Validator.state v1 /\
    (forall m, last taken = Some m -> is_u64 (SignedMessage.sequence m) ->
       Validator.last_sequence v1 = Ok (Some (SignedMessage.sequence m))) /\
    (taken <> [] -> verify_batch_signature batch = Ok tt /\
                    relevant s (SignedBatch.messages batch) = taken ++ rest) /\
    (forall n, r = Ok n ->
       verify_batch_signature batch = Ok tt /\ taken = relevant s (SignedBatch.messages batch) /\
       v' = v1 /\ n = Z.of_nat (length taken)).
Proof.
  intros Hn H. unfold Validator.sync_batch, Validator.verify_batch in H.
  destruct (verify_batch_signature batch) as [[]| |] eqn:Eb; cbn [map_err] in H;
    [|injection H as <- <- <-; exists [], [], v; by split_and!..].
  rewrite Hn in H. destruct (sync_messages_spec _ _ _ _ _ _ _ H) as (dn & rest & v1 & Hrel & Hau & Hp & Hs & Hok).
  exists dn, rest, v1. split_and!; auto using process_effects.
  - intros m Hm. destruct (process_progress now dn v v1 Hp) as [_ Hl]. by rewrite Hm in Hl.
  - intros n Hr. destruct (Hok n Hr) as (-> & -> & ->). rewrite app_nil_r in Hrel. auto.
Qed.

(** A gap inside a batch goes unnoticed: when the messages of a batch skip a
    number (here: [s] is followed by a number above [s + 1]), [sync_batch] still
    succeeds, progress jumps over the missing number, and no gap is recorded,
    whether or not the validator is configured to skip gaps. *)
Theorem batch_inner_gap_unnoticed v now batch s m1 m2 v' ws n :
  StateStore.next_sequence (Validator.state v) = Ok s ->
  SignedBatch.messages batch = [m1; m2] -> SignedMessage.sequence m1 = s ->
  s + 1 < SignedMessage.sequence m2 < u64_max ->
  Validator.sync_batch v now batch = (v', ws, Ok n) ->
  n = 2 /\ StateStore.next_sequence (Validator.state v') = Ok (SignedMessage.sequence m2 + 1) /\
  StateStore.has_gaps (Validator.state v') = StateStore.has_gaps (Validator.state v).
Proof.
  unfold u64_max. intros Hn Hms H1 H2 H. unfold Validator.sync_batch in H.
  destruct (Validator.verify_batch batch); [|done..]. rewrite Hn, Hms in H.
  destruct (sync_messages_spec _ _ _ _ _ _ _ H) as (dn & rest & v1 & Hrel & _ & Hp & _ & Hok).
  destruct (Hok n eq_refl) as (-> & -> & ->). rewrite app_nil_r in Hrel.
  assert (relevant s [m1; m2] = [m1; m2]) as Hr.
  { unfold relevant. cbn. rewrite !(proj2 (Z.ltb_ge _ _)) by lia. done. }
  rewrite Hr in Hrel. subst dn. destruct (process_progress now _ _ _ Hp) as [Hg Hl]. cbn [last] in Hl.
  assert (0 <= s).
  { unfold StateStore.next_sequence in Hn. destruct (StateStore.last_sequence _) as [[x|]| |];
      cbn in Hn; [|apply Ok_inj in Hn; lia|done..].
    apply Ok_inj in Hn as <-. apply as_u64_range. }
  assert (Hu : is_u64 (SignedMessage.sequence m2)) by (unfold is_u64; lia).
  split_and!; [done| |unfold StateStore.has_gaps; by rewrite Hg].
  rewrite (next_of_synced _ _ (Hl Hu)). by rewrite u64_add_small by (unfold is_u64; lia).
Qed.

(** *** The audit trail *)

(** A broken rule can be waved through: if the rules reject a changeset with
    a reason that contains the word "column" (as does any rule about a column),
    the text of the error makes the validator take it for a schema mismatch: the
    message is stored as pending, progress moves past it and syncing goes on,
    where a changeset that breaks a rule should be rejected like any other invalid
    one (a rule whose reason lacks these words does stop the sync). *)
Theorem rule_failure_taken_for_schema_mismatch v now m batch tx registry rule n reason :
  SignedMessage.message_type m = MessageType.Changeset ->
  0 <= SignedMessage.sequence m <= i64_max ->
  ChangesetApplier.decompress_and_parse (A := ChangesetBatchRequest.t) m "changeset batch" = Ok batch ->
  begin_tx (ChangesetApplier.conn (Validator.applier v)) = Ok tt ->
  ChangesetApplier.apply_changesets (SignedMessage.sequence m) (ChangesetBatchRequest.batch_id batch) 0
    (ChangesetApplier.conn (Validator.applier v)) (ChangesetBatchRequest.changesets batch) = Ok tx ->
  Validator.rules v = Some registry ->
  RuleRegistry.validate_all registry tx (SignedMessage.sequence m) = Err (ValidationRuleFailed rule n reason) ->
  contains "column" reason = true ->
  exists v', Validator.apply_and_record v now m = (v', Ok tt) /\
    Validator.applier v' = Validator.applier v /\
    Validator.last_sequence v' = Ok (Some (SignedMessage.sequence m)) /\
    is_Some (BTreeMap.get (SignedMessage.sequence m) (Validator.pending_store v')).
Proof.
  unfold i64_max. intros Hty Hseq Hparse Hbegin Happly Hrules Hfail Hcol.
  unfold Validator.apply_and_record, Validator.apply_message_with_audit,
    ChangesetApplier.apply_message_with_rules, ChangesetApplier.apply_changeset_message_with_rules.
  rewrite Hty, Hparse. cbn [result_bind]. rewrite Hbegin. cbn [map_err result_bind]. rewrite Happly.
  cbn [result_bind]. rewrite Hrules, Hfail. cbn [map_err result_bind AnyError_to_string].
  assert (Hmis : Validator.is_schema_mismatch (ValidatorError_to_string (ValidationRuleFailed rule n reason)) = true).
  { unfold Validator.is_schema_mismatch. apply orb_true_iff. right. cbn [ValidatorError_to_string].
    by repeat apply contains_app_r. }
  rewrite Hmis, bool_decide_true by done. cbn [andb].
  unfold PendingChangesetStore.store, i64_max. cbn [PendingChangeset.sequence].
  rewrite (proj2 (Z.leb_le _ _)) by lia. eexists. split; [reflexivity|]. cbn. split_and!.
  - by destruct v as [? [] ? ? ? ? ? ?].
  - apply record_sync_last. unfold is_u64. lia.
  - clear. induction (Validator.pending_store v) as [|[k x] p IH]; cbn.
    + rewrite Z.eqb_refl. eauto.
    + destruct (_ <? k); cbn; [rewrite Z.eqb_refl; eauto|].
      destruct (_ =? k) eqn:E; cbn; [rewrite Z.eqb_refl; eauto|]. by rewrite E.
Qed.

(** A snapshot erases the audit trail even when the audit fails: once at
    least one older changeset is pending, every pending changeset up to and
    including the snapshot's number is deleted, whatever the verification found,
    so the failures survive only in the log output ("clear verified changesets"
    is the comment). *)
Theorem failed_audit_cleared v snapshot_sequence verified failed :
  let pending := PendingChangesetStore.get_all (Validator.pending_store v) in
  let older := List.filter (fun p => PendingChangeset.sequence p <? snapshot_sequence) pending in
  older <> [] -> snapshot_sequence <= i64_max ->
  snd (verify_changeset_chain (ChangesetApplier.conn (Validator.applier v)) older)
    = AuditResult.mk verified failed -> failed <> [] ->
  exists v', Validator.verify_pending_changesets_after_snapshot v snapshot_sequence = (v', Ok tt) /\
    Forall (fun p => snapshot_sequence < PendingChangeset.sequence p)
      (PendingChangesetStore.get_all (Validator.pending_store v')).
Proof.
  cbn zeta. intros Holder Hmax _ _. unfold Validator.verify_pending_changesets_after_snapshot.
  destruct (_ =? 0) eqn:E0.
  { unfold PendingChangesetStore.count in E0. bool_to_prop. destruct (Validator.pending_store v); [done|].
    cbn in E0. lia. }
  destruct (List.filter _ _) as [|p ps]; [done|].
  destruct (verify_changeset_chain _ _) as [db res]. cbn zeta.
  unfold PendingChangesetStore.clear_up_to. rewrite (proj2 (Z.leb_le _ _)) by done.
  eexists. split; [reflexivity|]. cbn. unfold PendingChangesetStore.get_all, BTreeMap.retain.
  clear. induction (Validator.pending_store v) as [|[k [d j]] l IH]; cbn; [constructor|].
  destruct (k <=? snapshot_sequence) eqn:E; cbn; [done|]. bool_to_prop. by constructor.
Qed.
End lemmas.
