(* ===== verification/PriceRule.v ===== *)
(** * The price oracle's validation rule
    (examples/price-oracle/validator/src: rules/price_consistency.rs, main.rs)

    A rule for the validator's registry: the latest prices of an asset from its two
    sources may differ by a number of basis points.  [f64] is the Standard Library's
    binary floating point with the format's precision, so the rule is computed as the
    code computes it.  What the rule reads of the database is a class: the table's rows
    in order of their ids, if the table exists. *)
From Stdlib Require Import Ascii Strings.Byte Floats.SpecFloat.
From S2P Require Import Prelude RustStd Extern Cose SignedTypes StateStore Applier AuditTrail Validator ValidatorProps BTree SyncIndex.

(** ** [f64] *)
Definition f64 : Type := spec_float.
Definition f64_add : f64 -> f64 -> f64 := SFadd 53 1024.
Definition f64_sub : f64 -> f64 -> f64 := SFsub 53 1024.
Definition f64_mul : f64 -> f64 -> f64 := SFmul 53 1024.
Definition f64_div : f64 -> f64 -> f64 := SFdiv 53 1024.
Definition f64_of_Z (z : Z) : f64 := binary_normalize 53 1024 z 0 false.
Definition u32_max : Z := 2 ^ 32 - 1.
(** [x as u32]: towards zero, saturating, and 0 for NaN. *)
Definition f64_as_u32 (x : f64) : Z :=
  match x with
  | S754_nan | S754_zero _ => 0
  | S754_infinity s => if s then 0 else u32_max
  | S754_finite s m e =>
      if s then 0 else Z.min u32_max (if 0 <=? e then Z.pos m * 2 ^ e else Z.pos m / 2 ^ (- e))
  end.

Module PriceRow.
Record t := mk { asset : string; source : string; price : f64; timestamp : Z }.
End PriceRow.

Class PriceDb `{SE : Session} := {
  prices : Db -> option (list PriceRow.t);
  (** [{:.4}] *)
  fmt_4 : f64 -> string;
}.

Module PriceConsistencyRule.
Record t := mk { max_difference_bps : Z; enabled : bool }.
Definition new (max_difference_bps : Z) : t := mk max_difference_bps true.
Definition set_enabled (r : t) (enabled : bool) : t := mk (max_difference_bps r) enabled.

Definition calculate_difference_bps (price1 price2 : f64) : Z :=
  if SFeqb price1 (S754_zero false) || SFeqb price2 (S754_zero false) then u32_max
  else
    let avg := f64_div (f64_add price1 price2) (f64_of_Z 2) in
    let diff := SFabs (f64_sub price1 price2) in
    f64_as_u32 (f64_mul (f64_div diff avg) (f64_of_Z 10000)).

(** [SELECT DISTINCT], in order of first occurrence. *)
Fixpoint distinct (seen : list string) (l : list string) : list string :=
  match l with
  | [] => []
  | x :: l => if bool_decide (x ∈ seen) then distinct seen l else x :: distinct (x :: seen) l
  end.
Definition several_sources (rows : list PriceRow.t) (p1 : PriceRow.t) : bool :=
  existsb (fun p2 => bool_decide (PriceRow.asset p2 = PriceRow.asset p1)
                     && negb (bool_decide (PriceRow.source p2 = PriceRow.source p1))) rows.
Definition assets_of (rows : list PriceRow.t) : list string :=
  distinct [] (map PriceRow.asset (List.filter (several_sources rows) rows)).

(** The loop over the prices of an asset, latest first, with its early exit. *)
Fixpoint latest_prices (cg cmc : option f64) (l : list PriceRow.t) : option f64 * option f64 :=
  match l with
  | [] => (cg, cmc)
  | r :: l =>
      let '(cg, cmc) :=
        if bool_decide (PriceRow.source r = "coingecko"%string) && bool_decide (cg = None) then (Some (PriceRow.price r), cmc)
        else if bool_decide (PriceRow.source r = "coinmarketcap"%string) && bool_decide (cmc = None) then (cg, Some (PriceRow.price r))
        else (cg, cmc) in
      match cg, cmc with
      | Some _, Some _ => (cg, cmc)
      | _, _ => latest_prices cg cmc l
      end
  end.
Definition asset_prices (rows : list PriceRow.t) (asset : string) : option f64 * option f64 :=
  latest_prices None None
    (sort_by_key (fun r => - PriceRow.timestamp r)
       (List.filter (fun r => bool_decide (PriceRow.asset r = asset)) rows)).

Section rule.
Context `{PD : PriceDb}.
Definition fail_reason (r : t) (asset : string) (cg cmc : f64) (diff_bps : Z) : string :=
  "Price difference for " +:+ asset +:+ " exceeds threshold: CoinGecko=$" +:+ fmt_4 cg +:+ ", CoinMarketCap=$" +:+ fmt_4 cmc
  +:+ ", difference=" +:+ int_to_string diff_bps +:+ "bps (max allowed=" +:+ int_to_string (max_difference_bps r) +:+ "bps)".
Fixpoint check_assets (r : t) (rows : list PriceRow.t) (assets : list string) : ValidationResult :=
  match assets with
  | [] => Pass
  | asset :: assets =>
      match asset_prices rows asset with
      | (Some cg, Some cmc) =>
          let diff_bps := calculate_difference_bps cg cmc in
          if max_difference_bps r <? diff_bps then Fail (fail_reason r asset cg cmc diff_bps)
          else check_assets r rows assets
      | _ => check_assets r rows assets
      end
  end.
Definition validate (r : t) (conn : Db) (sequence : Z) : ValidationResult :=
  match prices conn with
  | None => NotApplicable
  | Some rows =>
      match assets_of rows with
      | [] => NotApplicable
      | assets => check_assets r rows assets
      end
  end.

(** [impl ValidationRule for PriceConsistencyRule] *)
Definition rule (r : t) : ValidationRule.t :=
  ValidationRule.mk _ "price_consistency" (fun conn sequence => Ok (validate r conn sequence)) (enabled r).

(** main.rs: the registry of the price oracle's validator. *)
Definition oracle_rules (max_price_difference_bps : Z) (disable_price_check : bool) : RuleRegistry.t :=
  let price_rule := new max_price_difference_bps in
  let price_rule := if disable_price_check then set_enabled price_rule false else price_rule in
  RuleRegistry.register RuleRegistry.new (rule price_rule).
End rule.
End PriceConsistencyRule.

(** ** What the rule decides *)
Import PriceConsistencyRule.

Lemma latest_prices_find l : forall cg cmc, cg = None \/ cmc = None ->
  latest_prices cg cmc l
  = (match cg with Some _ => cg | None => PriceRow.price <$> List.find (fun r => bool_decide (PriceRow.source r = "coingecko"%string)) l end,
     match cmc with Some _ => cmc | None => PriceRow.price <$> List.find (fun r => bool_decide (PriceRow.source r = "coinmarketcap"%string)) l end).
Proof.
  induction l as [|r l IH]; intros cg cmc Hn; cbn [latest_prices List.find].
  - by destruct cg, cmc.
  - destruct cg as [x|], cmc as [y|]; [by destruct Hn| | |]; repeat (case_bool_decide; try congruence); cbn [andb];
      rewrite ?IH by auto; done || congruence.
Qed.

(** The rows of one source of an asset, and a latest one of them. *)
Definition quotes (rows : list PriceRow.t) (asset source : string) (r : PriceRow.t) : Prop :=
  r ∈ rows /\ PriceRow.asset r = asset /\ PriceRow.source r = source.
Definition latest_quote (rows : list PriceRow.t) (asset source : string) (price : f64) : Prop :=
  exists r, quotes rows asset source r /\ PriceRow.price r = price /\
    forall r', quotes rows asset source r' -> PriceRow.timestamp r' <= PriceRow.timestamp r.

Lemma find_latest rows asset source :
  let l := sort_by_key (fun r => - PriceRow.timestamp r) (List.filter (fun r => bool_decide (PriceRow.asset r = asset)) rows) in
  match List.find (fun r => bool_decide (PriceRow.source r = source)) l with
  | Some r => latest_quote rows asset source (PriceRow.price r)
  | None => forall r, ~ quotes rows asset source r
  end.
Proof.
  intros l.
  assert (Hl : forall r, r ∈ l <-> r ∈ rows /\ PriceRow.asset r = asset).
  { intros r. unfold l. rewrite sort_by_key_perm, list_elem_of_In, List.filter_In, bool_decide_eq_true, <- list_elem_of_In. done. }
  pose proof (sort_by_key_sorted (fun r => - PriceRow.timestamp r) (List.filter (fun r => bool_decide (PriceRow.asset r = asset)) rows)) as Hs.
  fold l in Hs. destruct (List.find _ l) as [r|] eqn:E.
  - apply List.find_some in E as Hf. destruct Hf as [Hin%list_elem_of_In Hsrc%bool_decide_eq_true]. apply Hl in Hin as Hin'.
    exists r. split_and!; [by split_and!; destruct Hin'|done|]. intros r' (Hr' & Ha & Hsrc').
    assert (Hin2 : r' ∈ l) by (by apply Hl). clear -E Hs Hin2 Hsrc'. induction Hs as [|x l Hs IH Hf]; [done|].
    cbn [List.find] in E. destruct (bool_decide (PriceRow.source x = source)) eqn:Ex.
    + injection E as ->. apply elem_of_cons in Hin2 as [->|Hin2]; [done|]. rewrite Forall_forall in Hf.
      specialize (Hf r' Hin2). unfold key_le in Hf. lia.
    + apply elem_of_cons in Hin2 as [->|Hin2]; [by rewrite bool_decide_true in Ex|]. by apply IH.
  - intros r (Hr & Ha & Hsrc). assert (Hin : r ∈ l) by (by apply Hl).
    apply list_elem_of_In in Hin. pose proof (List.find_none _ _ E r Hin) as Hc. by apply bool_decide_eq_false in Hc.
Qed.

Lemma asset_prices_latest rows asset cg cmc :
  asset_prices rows asset = (Some cg, Some cmc) ->
  latest_quote rows asset "coingecko" cg /\ latest_quote rows asset "coinmarketcap" cmc.
Proof.
  unfold asset_prices. rewrite latest_prices_find by auto. intros [= H1 H2].
  pose proof (find_latest rows asset "coingecko") as Hg. pose proof (find_latest rows asset "coinmarketcap") as Hm.
  cbn zeta in Hg, Hm. destruct (List.find _ _); [|done]. destruct (List.find _ _) in Hm, H2; [|done].
  injection H1 as <-. injection H2 as <-. by split.
Qed.
Lemma asset_prices_none rows asset :
  (forall cg cmc, asset_prices rows asset <> (Some cg, Some cmc)) ->
  (forall r, ~ quotes rows asset "coingecko" r) \/ (forall r, ~ quotes rows asset "coinmarketcap" r).
Proof.
  unfold asset_prices. rewrite latest_prices_find by auto. intros H.
  pose proof (find_latest rows asset "coingecko") as Hg. pose proof (find_latest rows asset "coinmarketcap") as Hm.
  cbn zeta in Hg, Hm. destruct (List.find _ _) as [r1|]; [|by left]. destruct (List.find _ _) as [r2|] in Hm, H; [|by right].
  by destruct (H (PriceRow.price r1) (PriceRow.price r2)).
Qed.

Lemma distinct_elem l : forall seen x, x ∈ distinct seen l <-> x ∈ l /\ x ∉ seen.
Proof.
  induction l as [|y l IH]; intros seen x; cbn [distinct].
  - rewrite !elem_of_nil. tauto.
  - case_bool_decide as Hy; rewrite ?elem_of_cons, IH, ?elem_of_cons; [naive_solver|].
    destruct (decide (x = y)) as [->|]; naive_solver.
Qed.
Lemma assets_elem rows asset : asset ∈ assets_of rows <->
  exists r1 r2, r1 ∈ rows /\ r2 ∈ rows /\ PriceRow.asset r1 = asset /\ PriceRow.asset r2 = asset /\ PriceRow.source r2 <> PriceRow.source r1.
Proof.
  unfold assets_of. rewrite distinct_elem. split.
  - intros [(r & -> & Hr)%list_elem_of_fmap _]. apply list_elem_of_In, List.filter_In in Hr as [Hr Hs].
    apply List.existsb_exists in Hs as (r2 & Hr2 & Hc). apply andb_true_iff in Hc as [Ha%bool_decide_eq_true Hb].
    apply negb_true_iff, bool_decide_eq_false in Hb. exists r, r2. by rewrite !list_elem_of_In.
  - intros (r1 & r2 & H1 & H2 & Ha1 & Ha2 & Hne). split; [|apply not_elem_of_nil]. apply list_elem_of_fmap. exists r1. split; [done|].
    apply list_elem_of_In, List.filter_In. split; [by apply list_elem_of_In|]. apply List.existsb_exists. exists r2.
    split; [by apply list_elem_of_In|]. rewrite bool_decide_true by congruence. by rewrite bool_decide_false.
Qed.

Section exact.
Context `{PD : PriceDb}.

Lemma check_assets_spec r rows assets :
  match check_assets r rows assets with
  | Fail reason => exists asset cg cmc, asset ∈ assets /\ asset_prices rows asset = (Some cg, Some cmc) /\
      max_difference_bps r < calculate_difference_bps cg cmc /\
      reason = fail_reason r asset cg cmc (calculate_difference_bps cg cmc)
  | Pass => forall asset cg cmc, asset ∈ assets -> asset_prices rows asset = (Some cg, Some cmc) ->
      calculate_difference_bps cg cmc <= max_difference_bps r
  | NotApplicable => False
  end.
Proof.
  induction assets as [|a assets IH]; cbn [check_assets]; [by intros asset cg cmc ?%not_elem_of_nil|].
  assert (Hskip : (forall cg cmc, asset_prices rows a = (Some cg, Some cmc) -> calculate_difference_bps cg cmc <= max_difference_bps r) ->
    match check_assets r rows assets with
    | Fail reason => exists asset cg cmc, asset ∈ a :: assets /\ asset_prices rows asset = (Some cg, Some cmc) /\
        max_difference_bps r < calculate_difference_bps cg cmc /\
        reason = fail_reason r asset cg cmc (calculate_difference_bps cg cmc)
    | Pass => forall asset cg cmc, asset ∈ a :: assets -> asset_prices rows asset = (Some cg, Some cmc) ->
        calculate_difference_bps cg cmc <= max_difference_bps r
    | NotApplicable => False
    end).
  { intros Ha. destruct (check_assets r rows assets) as [|reason|]; [| |done].
    - intros asset cg cmc [->|Hin]%elem_of_cons; [apply Ha|by apply IH].
    - destruct IH as (asset & cg & cmc & Hin & Hrest). exists asset, cg, cmc. split; [by right|done]. }
  destruct (asset_prices rows a) as [[cg|] [cmc|]] eqn:E; try (apply Hskip; by intros).
  destruct (Z.ltb_spec (max_difference_bps r) (calculate_difference_bps cg cmc)) as [Hlt|Hge].
  - exists a, cg, cmc. split_and!; [by left|done..].
  - apply Hskip. intros cg' cmc' [= <- <-]. lia.
Qed.

(** The price rule decides what it documents: it fails exactly with an asset whose
    latest CoinGecko and CoinMarketCap prices differ by more than the tolerance, naming
    them; it passes only if for every asset both sources quote, latest prices are within
    the tolerance; and it does not apply exactly when there is no table or no asset has
    prices of two sources. *)
Theorem price_rule_exact r conn sequence :
  match validate r conn sequence with
  | Fail reason => exists rows asset cg cmc, prices conn = Some rows /\
      latest_quote rows asset "coingecko" cg /\ latest_quote rows asset "coinmarketcap" cmc /\
      max_difference_bps r < calculate_difference_bps cg cmc /\
      reason = fail_reason r asset cg cmc (calculate_difference_bps cg cmc)
  | Pass => exists rows, prices conn = Some rows /\ assets_of rows <> [] /\
      forall asset r1 r2, quotes rows asset "coingecko" r1 -> quotes rows asset "coinmarketcap" r2 ->
      exists cg cmc, latest_quote rows asset "coingecko" cg /\ latest_quote rows asset "coinmarketcap" cmc /\
        calculate_difference_bps cg cmc <= max_difference_bps r
  | NotApplicable => forall rows, prices conn = Some rows ->
      forall r1 r2, r1 ∈ rows -> r2 ∈ rows -> PriceRow.asset r1 = PriceRow.asset r2 -> PriceRow.source r1 = PriceRow.source r2
  end.
Proof.
  unfold validate. destruct (prices conn) as [rows|]; [|done].
  assert (Hc := check_assets_spec r rows (assets_of rows)).
  destruct (assets_of rows) as [|a l] eqn:Ea.
  - intros rows' [= <-] r1 r2 H1 H2 Ha. destruct (decide (PriceRow.source r2 = PriceRow.source r1)) as [->|Hne]; [done|].
    assert (Hin : PriceRow.asset r1 ∈ assets_of rows) by (apply assets_elem; exists r1, r2; by split_and!).
    rewrite Ea in Hin. by apply not_elem_of_nil in Hin.
  - rewrite <- Ea in Hc |- *. destruct (check_assets r rows (assets_of rows)) as [|reason|]; [| |done].
    + exists rows. split_and!; [done|by rewrite Ea|]. intros asset r1 r2 Hq1 Hq2.
      destruct (asset_prices rows asset) as [[cg|] [cmc|]] eqn:E.
      1: { destruct (asset_prices_latest _ _ _ _ E). exists cg, cmc. split_and!; [done..|]. eapply Hc; [|exact E].
           apply assets_elem. exists r1, r2. destruct Hq1 as (? & ? & Hs1), Hq2 as (? & ? & Hs2). split_and!; [done..|].
           by rewrite Hs1, Hs2. }
      all: destruct (asset_prices_none rows asset) as [Hn|Hn]; [by rewrite E | by destruct (Hn r1) | by destruct (Hn r2)].
    + destruct Hc as (asset & cg & cmc & _ & E & Hlt & ->). destruct (asset_prices_latest _ _ _ _ E).
      by exists rows, asset, cg, cmc.
Qed.
End exact.

(** ** Prices the rule does not see as different *)
Definition has_sign (b : bool) (x : f64) : Prop :=
  match x with S754_nan => True | S754_zero s | S754_infinity s | S754_finite s _ _ => s = b end.

Lemma round_sign s m e l : has_sign s (binary_round_aux 53 1024 s m e l).
Proof.
  unfold binary_round_aux. destruct (shr_fexp 53 1024 m e l) as [mrs e']. destruct (shr_fexp 53 1024 _ _ _) as [mrs'' e''].
  destruct (shr_m mrs''); try done. by destruct (_ <=? _).
Qed.
Lemma normalize_sign m e : m < 0 -> has_sign true (binary_normalize 53 1024 m e false).
Proof.
  intros H. destruct m; [lia..|]. cbn [binary_normalize]. unfold binary_round.
  destruct (shl_align _ _ _). apply round_sign.
Qed.
Lemma div_sign b x y : has_sign false x -> has_sign b y -> has_sign b (f64_div x y).
Proof.
  intros Hx Hy. destruct x as [sx|sx| |sx mx ex], y as [sy|sy| |sy my ey]; cbn in Hx, Hy; subst; try done.
  unfold f64_div, SFdiv. destruct (SFdiv_core_binary _ _ _ _ _ _) as [[q e'] l]. apply round_sign.
Qed.
Lemma mul_sign b x y : has_sign b x -> has_sign false y -> has_sign b (f64_mul x y).
Proof.
  intros Hx Hy. destruct x as [sx|sx| |sx mx ex], y as [sy|sy| |sy my ey]; cbn in Hx, Hy; subst; cbn; rewrite ?xorb_false_r; try done.
  apply round_sign.
Qed.
Lemma as_u32_negative x : has_sign true x -> f64_as_u32 x = 0.
Proof. destruct x as [s|s| |s m e]; cbn; intros H; by subst. Qed.

(** Two negative prices always agree, however far apart: their average is negative, the
    quotient too, and the conversion to [u32] saturates at zero. *)
Theorem negative_prices_agree m1 e1 m2 e2 :
  calculate_difference_bps (S754_finite true m1 e1) (S754_finite true m2 e2) = 0.
Proof.
  unfold calculate_difference_bps. cbn [SFeqb SFcompare orb].
  set (diff := SFabs _). set (avg := f64_div _ _). apply as_u32_negative.
  assert (Hten : has_sign false (f64_of_Z 10000)) by (vm_compute; reflexivity).
  assert (Htwo : f64_of_Z 2 = S754_finite false 4503599627370496 (-51)) by (vm_compute; reflexivity).
  apply mul_sign; [|exact Hten]. apply div_sign.
  - unfold diff. destruct (f64_sub _ _); done.
  - unfold avg. rewrite Htwo.
    assert (Hsum : has_sign true (f64_add (S754_finite true m1 e1) (S754_finite true m2 e2))).
    { unfold f64_add, SFadd. apply normalize_sign. unfold cond_Zopp. lia. }
    destruct (f64_add _ _) as [s|s| |s ms es]; cbn in Hsum; subst; try done.
    unfold f64_div, SFdiv. destruct (SFdiv_core_binary _ _ _ _ _ _) as [[q e'] l]. apply round_sign.
Qed.
(** And an infinite price agrees with every finite one. *)
Theorem infinite_price_agrees s m e : calculate_difference_bps (S754_infinity s) (S754_finite false m e) = 0.
Proof. by destruct s. Qed.

(** ** In the validator *)
Section oracle.
Context `{HX : Hex} `{CR : Crypto} `{CS : Cose} `{CC : !CoseCodec} `{ZS : Zstd} `{PD : PriceDb}.
Context `{SC : Serde ChangesetBatchRequest.t} `{SN : Serde SnapshotRequest.t} `{SWd : Serde WithdrawalRequest.t}.
Implicit Types (v : Validator.t) (m : SignedMessage.t).

Lemma oracle_rules_fail max tx n reason :
  validate (new max) tx n = Fail reason ->
  RuleRegistry.validate_all (oracle_rules max false) tx n = Err (ValidationRuleFailed "price_consistency" n reason).
Proof. intros H. unfold oracle_rules, RuleRegistry.register, RuleRegistry.new. cbn. by rewrite H. Qed.

(** A changeset that leaves the sources in disagreement never reaches the replica of
    the price oracle's validator: syncing stops at it with progress unchanged, unless the
    text of the failure reads like a schema mismatch; and the asset's name is part of that
    text, so for an asset named with the word column the rejected changeset is filed as
    pending and syncing goes on past it. *)
Theorem oracle_rejects_disagreement v now m batch tx max reason :
  SignedMessage.message_type m = MessageType.Changeset -> 0 <= SignedMessage.sequence m <= i64_max ->
  ChangesetApplier.decompress_and_parse (A := ChangesetBatchRequest.t) m "changeset batch" = Ok batch ->
  begin_tx (ChangesetApplier.conn (Validator.applier v)) = Ok tt ->
  ChangesetApplier.apply_changesets (SignedMessage.sequence m) (ChangesetBatchRequest.batch_id batch) 0
    (ChangesetApplier.conn (Validator.applier v)) (ChangesetBatchRequest.changesets batch) = Ok tx ->
  Validator.rules v = Some (oracle_rules max false) ->
  validate (new max) tx (SignedMessage.sequence m) = Fail reason ->
  let text := ValidatorError_to_string (ValidationRuleFailed "price_consistency" (SignedMessage.sequence m) reason) in
  let '(v', r) := Validator.apply_and_record v now m in
  Validator.applier v' = Validator.applier v /\
  (Validator.is_schema_mismatch text = false -> is_ok r = false /\ Validator.state v' = Validator.state v) /\
  (forall asset cg cmc n, reason = fail_reason (new max) asset cg cmc n -> contains "column" asset = true ->
     r = Ok tt /\ Validator.last_sequence v' = Ok (Some (SignedMessage.sequence m)) /\
     is_Some (BTreeMap.get (SignedMessage.sequence m) (Validator.pending_store v'))).
Proof.
  intros Hty Hseq Hparse Hbegin Happly Hrules Hfail text. apply oracle_rules_fail in Hfail.
  pose proof (rule_failure_taken_for_schema_mismatch v now m batch tx _ _ _ reason Hty Hseq Hparse Hbegin Happly Hrules Hfail) as Hby.
  pose proof (failed_apply_keeps_db v now m ltac:(by rewrite Hty)) as Hkeep.
  pose proof (apply_and_record_state v now m) as Hstate.
  assert (Herr : Validator.is_schema_mismatch text = false -> is_ok (snd (Validator.apply_and_record v now m)) = false).
  { intros Hmis. unfold Validator.apply_and_record, Validator.apply_message_with_audit,
      ChangesetApplier.apply_message_with_rules, ChangesetApplier.apply_changeset_message_with_rules.
    rewrite Hty, Hparse. cbn [result_bind]. rewrite Hbegin. cbn [map_err result_bind]. rewrite Happly.
    cbn [result_bind]. rewrite Hrules, Hfail. cbn [map_err result_bind AnyError_to_string]. fold text. by rewrite Hmis. }
  assert (Happ : Validator.applier (fst (Validator.apply_and_record v now m)) = Validator.applier v).
  { destruct (is_ok (snd (Validator.apply_and_record v now m))) eqn:E; [|by apply Hkeep].
    destruct (Validator.is_schema_mismatch text) eqn:Em; [|by specialize (Herr eq_refl)].
    unfold Validator.apply_and_record, Validator.apply_message_with_audit,
      ChangesetApplier.apply_message_with_rules, ChangesetApplier.apply_changeset_message_with_rules.
    rewrite Hty, Hparse. cbn [result_bind]. rewrite Hbegin. cbn [map_err result_bind]. rewrite Happly.
    cbn [result_bind]. rewrite Hrules, Hfail. cbn [map_err result_bind AnyError_to_string]. fold text. rewrite Em, bool_decide_true by done.
    cbn [andb]. destruct (PendingChangesetStore.store _ _) as [p [| |]]; by destruct v as [? [] ? ? ? ? ? ?]. }
  destruct (Validator.apply_and_record v now m) as [v' r]. cbn [fst snd] in *. split_and!; [done| |].
  - intros Hmis. specialize (Herr Hmis). split; [done|]. by destruct r.
  - intros asset cg cmc n -> Hcol. destruct Hby as (v'' & Heq & _ & Hl & Hp);
      [unfold fail_reason; by apply contains_app_r, contains_app_l|]. injection Heq as -> ->. done.
Qed.
End oracle.

(** The differences of the rule's own tests. *)
Example difference_tests :
  calculate_difference_bps (f64_of_Z 100) (f64_of_Z 101) = 99 /\
  calculate_difference_bps (f64_of_Z 100) (f64_of_Z 100) = 0 /\
  calculate_difference_bps (f64_of_Z 100) (f64_of_Z 110) = 952 /\
  calculate_difference_bps (f64_of_Z 0) (f64_of_Z 100) = u32_max.
Proof. vm_compute. by split_and!. Qed.
