(* ===== verification/Replay.v ===== *)
(** * Complete replay: what the validator does with a log it can accept
    (crates/synddb-validator/src/validator.rs)

    The converses of the safety theorems of [ValidatorProps]: when every message
    is signed by the sequencer, readable and applicable, both sync paths consume
    all of them and end in the same state. *)
From Stdlib Require Import Ascii Strings.Byte.
From S2P Require Import Prelude RustStd BTree Batches Extern Cose SignedTypes SyncIndex.
From S2P Require Import StateStore Applier AuditTrail Validator ValidatorProps.

Section replay.
Context `{HX : Hex} `{CR : Crypto} `{CS : Cose} `{CC : !CoseCodec} `{ZS : Zstd} `{SE : Session}.
Context `{SC : Serde ChangesetBatchRequest.t} `{SN : Serde SnapshotRequest.t} `{SWd : Serde WithdrawalRequest.t}.
Implicit Types (v : Validator.t) (m : SignedMessage.t) (sb : SignedBatch.t).

(** A message the validator accepts: signed by its sequencer, its withdrawal (if
    it is one) readable, its number below the last [u64]. *)
Definition acceptable v m : Prop :=
  SignatureVerifier.verify (Validator.verifier v) m = Ok tt /\
  is_ok (ChangesetApplier.extract_withdrawal m) = true /\
  0 <= SignedMessage.sequence m < u64_max.

Definition increasing (ms : list SignedMessage.t) : Prop :=
  StronglySorted (fun a b => SignedMessage.sequence a < SignedMessage.sequence b) ms.

Lemma acceptable_setup v v' m : same_setup v v' -> acceptable v m -> acceptable v' m.
Proof. intros [Hv _]. unfold acceptable. by rewrite Hv. Qed.

Lemma process_app now ms1 : forall ms2 v,
  process v now (ms1 ++ ms2)
  = match process v now ms1 with Some v' => process v' now ms2 | None => None end.
Proof.
  induction ms1 as [|m ms1 IH]; intros ms2 v; cbn; [done|].
  by destruct (Validator.apply_and_record v now m) as [v' [| |]].
Qed.

(** *** Batches *)
Lemma sync_messages_complete now s ms : forall v v1,
  Forall (acceptable v) ms -> Forall (fun m => s <= SignedMessage.sequence m) ms ->
  process v now ms = Some v1 ->
  exists ws, Validator.sync_messages v now s ms = (v1, ws, Ok (Z.of_nat (length ms))).
Proof.
  induction ms as [|m ms IH]; intros v v1 Hacc Hs Hp; cbn [Validator.sync_messages process] in *.
  - injection Hp as <-. by eexists.
  - apply Forall_cons in Hacc as [(Hv & Hw & _) Hacc], Hs as [Hm Hs].
    rewrite (proj2 (Z.ltb_ge _ _)) by done. rewrite Hv. cbn [map_err].
    destruct (ChangesetApplier.extract_withdrawal m) as [w| |]; [|done..].
    pose proof (apply_and_record_frame v now m) as Hf.
    destruct (Validator.apply_and_record v now m) as [v' [[]| |]]; [|done..]. cbn in Hf.
    destruct (IH v' v1) as [ws ->]; [|done|done|].
    { eapply Forall_impl; [exact Hacc|]. intros x. by apply acceptable_setup. }
    eexists. do 2 f_equal. cbn [length]. lia.
Qed.

Lemma sync_batch_complete now v sb s v1 :
  verify_batch_signature sb = Ok tt -> StateStore.next_sequence (Validator.state v) = Ok s ->
  Forall (acceptable v) (SignedBatch.messages sb) ->
  Forall (fun m => s <= SignedMessage.sequence m) (SignedBatch.messages sb) ->
  process v now (SignedBatch.messages sb) = Some v1 ->
  exists ws, Validator.sync_batch v now sb = (v1, ws, Ok (Z.of_nat (length (SignedBatch.messages sb)))).
Proof.
  intros Hv Hn Hacc Hs Hp. unfold Validator.sync_batch, Validator.verify_batch.
  rewrite Hv. cbn [map_err]. rewrite Hn. by apply sync_messages_complete.
Qed.

(** After a non-empty run of messages the next number is above all of them. *)
Lemma process_next now v v1 ms later :
  ms <> [] -> Forall (acceptable v) ms -> increasing (ms ++ later) -> process v now ms = Some v1 ->
  exists s, StateStore.next_sequence (Validator.state v1) = Ok s /\
    Forall (fun m => s <= SignedMessage.sequence m) later.
Proof.
  intros Hne Hacc Hinc Hp.
  destruct (last ms) as [m|] eqn:El; [|by apply last_None in El].
  pose proof (process_progress now ms v v1 Hp) as [_ Hl]. rewrite El in Hl.
  apply last_Some_elem_of in El. rewrite Forall_forall in Hacc.
  destruct (Hacc _ El) as (_ & _ & Hu). unfold u64_max in Hu.
  exists (SignedMessage.sequence m + 1). split.
  - rewrite (next_of_synced _ (SignedMessage.sequence m)) by (apply Hl; unfold is_u64; lia).
    by rewrite u64_add_small by (unfold is_u64; lia).
  - apply Forall_forall. intros x Hx.
    pose proof (StronglySorted_app_1_elem_of _ _ _ _ _ Hinc El Hx) as Hlt. cbn in Hlt. lia.
Qed.

Section fetching.
Context {F : Type} `{SF : StorageFetcher F}.

(** The fetcher gives [sb] under the path of the listed [info]. *)
Definition fetches (f : F) (e : BatchInfo.t * SignedBatch.t) : Prop :=
  fetch_batch_by_path f (BatchInfo.path (fst e)) = Ok (Some (snd e)) /\
  verify_batch_signature (snd e) = Ok tt /\ SignedBatch.messages (snd e) <> [].

Definition log_messages (log : list (BatchInfo.t * SignedBatch.t)) : list SignedMessage.t :=
  concat (map (fun e => SignedBatch.messages (snd e)) log).

Lemma batched_loop_complete (f : F) now log rest : forall fuel done v v1 s total,
  log = done ++ rest -> (length rest < fuel)%nat -> Forall (fetches f) rest ->
  Forall (acceptable v) (log_messages rest) -> increasing (log_messages rest) ->
  StateStore.next_sequence (Validator.state v) = Ok s ->
  Forall (fun m => s <= SignedMessage.sequence m) (log_messages rest) ->
  process v now (log_messages rest) = Some v1 ->
  Validator.batched_loop fuel v f now (BatchIndex.mk (map fst log)) (BatchIterator.mk (length done) 0) total
  = (v1, Ok (total + Z.of_nat (length (log_messages rest)))).
Proof.
  induction rest as [|[info sb] rest IH]; intros fuel dn v v1 s total Hlog Hfuel Hf Hacc Hinc Hn Hs Hp;
    (destruct fuel as [|fuel]; [lia|]); cbn [Validator.batched_loop];
    unfold BatchIterator.is_exhausted, BatchIterator.current_batch, BatchIndex.get_batch_at_index,
      BatchIndex.len; cbn [BatchIterator.batch_idx BatchIndex.batches]; rewrite Hlog, map_app, length_app, !length_map.
  - cbn in Hp |- *. injection Hp as <-. rewrite (proj2 (Nat.leb_le _ _)) by lia. do 2 f_equal. lia.
  - cbn [map fst length]. rewrite (proj2 (Nat.leb_gt _ _)) by lia.
    rewrite lookup_app_r by (by rewrite length_map). rewrite length_map, Nat.sub_diag. cbn [lookup list_lookup].
    apply Forall_cons in Hf as [(Hfe & Hver & Hne) Hf]. cbn [fst snd] in *. rewrite Hfe.
    unfold log_messages in *. cbn [map concat snd] in *.
    apply Forall_app in Hacc as [Hacc1 Hacc2], Hs as [Hs1 Hs2].
    rewrite process_app in Hp. destruct (process v now (SignedBatch.messages sb)) as [v'|] eqn:Ep; [|done].
    destruct (sync_batch_complete now v sb s v' Hver Hn Hacc1 Hs1 Ep) as [ws ->].
    destruct (process_next now v v' _ _ Hne Hacc1 Hinc Ep) as (s' & Hn' & Hs').
    pose proof (process_setup now _ _ _ Ep) as Hsetup.
    specialize (IH fuel (dn ++ [(info, sb)]) v' v1 s' (total + Z.of_nat (length (SignedBatch.messages sb)))).
    rewrite length_app in IH. cbn [length] in IH. unfold BatchIterator.advance_to_next_batch.
    cbn [BatchIterator.batch_idx]. replace (S (length dn)) with (length dn + 1)%nat by lia.
    assert (Hinc2 : increasing (concat (map (fun e => SignedBatch.messages (snd e)) rest)))
      by (by eapply StronglySorted_app_1_r).
    replace (map fst dn ++ info :: map fst rest) with (map fst log) by (by rewrite Hlog, map_app).
    rewrite IH; auto.
    + do 2 f_equal. rewrite length_app. lia.
    + rewrite Hlog. by rewrite <- app_assoc.
    + cbn in Hfuel. lia.
    + eapply Forall_impl; [exact Hacc2|]. intros x. by apply acceptable_setup.
Qed.

(** Batch sync from an empty replica's starting point over a whole listing. *)
Lemma sync_to_head_batched_complete (f : F) now log v v1 s fuel :
  supports_batches f = true -> fetch_list f = Ok (map fst log) -> Forall (fetches f) log ->
  Forall (acceptable v) (log_messages log) -> increasing (log_messages log) ->
  StateStore.next_sequence (Validator.state v) = Ok s ->
  match head (map fst log) with
  | Some info => s <= BatchInfo.start_sequence info <= BatchInfo.end_sequence info
  | None => True
  end ->
  Forall (fun m => s <= SignedMessage.sequence m) (log_messages log) ->
  process v now (log_messages log) = Some v1 ->
  Validator.sync_to_head_batched fuel v f now
  = (v1, Some (Ok (Z.of_nat (length (log_messages log))))).
Proof.
  intros Hsup Hlist Hf Hacc Hinc Hn Hstart Hs Hp. unfold Validator.sync_to_head_batched.
  rewrite Hsup, Hlist. cbn [negb BatchIndex.build result_bind]. rewrite Hn.
  assert (Hit : BatchIterator.batch_idx (BatchIterator.starting_at (BatchIndex.mk (map fst log)) s) = 0%nat).
  { unfold BatchIterator.starting_at. cbn [BatchIndex.batches].
    destruct (map fst log) as [|info l]; [done|]. cbn in Hstart |- *.
    unfold BatchInfo.contains. destruct (Z.leb_spec (BatchInfo.start_sequence info) s); cbn [andb].
    - by rewrite (proj2 (Z.leb_le _ _)) by lia.
    - by rewrite (proj2 (Z.ltb_lt _ _)) by lia. }
  assert (Hloop : forall it, BatchIterator.batch_idx it = 0%nat ->
    Validator.batched_loop (S (BatchIndex.len (BatchIndex.mk (map fst log)))) v f now
      (BatchIndex.mk (map fst log)) it 0 = (v1, Ok (Z.of_nat (length (log_messages log))))).
  { intros [i o] Hi. cbn in Hi. subst i.
    transitivity (Validator.batched_loop (S (BatchIndex.len (BatchIndex.mk (map fst log)))) v f now
      (BatchIndex.mk (map fst log)) (BatchIterator.mk 0 0) 0); [done|].
    apply (batched_loop_complete f now log log _ [] v v1 s 0); auto.
    unfold BatchIndex.len. cbn. rewrite length_map. lia. }
  by rewrite Hloop.
Qed.

(** *** Single messages *)
Lemma sync_loop_complete (f : F) now ms : forall fuel v v1 s k,
  (length ms < fuel)%nat -> 0 <= s -> s + Z.of_nat (length ms) < 2 ^ 64 ->
  Forall (acceptable v) ms ->
  (forall i m, ms !! i = Some m -> SignedMessage.sequence m = s + Z.of_nat i /\
     fetch_message f (s + Z.of_nat i) = Ok (Some m)) ->
  fetch_message f (s + Z.of_nat (length ms)) = Ok None ->
  process v now ms = Some v1 ->
  Validator.sync_loop fuel v f now s k = (v1, Some (Ok (k + Z.of_nat (length ms)))).
Proof.
  induction ms as [|m ms IH]; intros fuel v v1 s k Hfuel H0 Hb Hacc Hserved Hnone Hp;
    (destruct fuel as [|fuel]; [lia|]); cbn [Validator.sync_loop process length] in *;
    unfold Validator.sync_one, Validator.sync_one_with_callback.
  - rewrite Z.add_0_r in Hnone. rewrite Hnone. injection Hp as <-. by rewrite Z.add_0_r.
  - destruct (Hserved 0%nat m eq_refl) as [Hm Hfm]. cbn in Hm, Hfm. rewrite Z.add_0_r in *. rewrite Hfm.
    apply Forall_cons in Hacc as [(Hv & Hw & _) Hacc].
    unfold Validator.check_message. rewrite Hm, Z.eqb_refl. cbn [negb]. rewrite Hv. cbn [map_err result_bind].
    destruct (ChangesetApplier.extract_withdrawal m) as [w| |]; [|done..].
    pose proof (apply_and_record_frame v now m) as Hfr.
    destruct (Validator.apply_and_record v now m) as [v' [[]| |]]; [|done..]. cbn in Hfr.
    rewrite u64_add_small by (unfold is_u64; lia).
    rewrite (IH fuel v' v1 (s + 1) (k + 1)); [do 3 f_equal; lia | lia | lia | lia | | | | done].
    + eapply Forall_impl; [exact Hacc|]. intros x. by apply acceptable_setup.
    + intros i x Hi. destruct (Hserved (S i) x Hi) as [H1 H2].
      replace (s + 1 + Z.of_nat i) with (s + Z.of_nat (S i)) by lia. done.
    + rewrite <- Hnone. f_equal. lia.
Qed.
End fetching.
End replay.
