(* ===== verification/HttpFetcher.v ===== *)
(** * The HTTP fetcher of the validator
    (crates/synddb-validator/src/sync/providers/http.rs) and the storage routes it
    talks to (crates/synddb-sequencer/src/transport/local.rs, [routes])

    reqwest with the network behind it is the class [HttpClient], JSON the class
    [Json].  An operation may send its request several times; the outcome of each
    attempt is a function of the URL and the attempt's number, so the theorems hold
    for every pattern of failures.  The storage does not change while a fetcher is
    used. *)
From Stdlib Require Import Ascii Strings.Byte.
From S2P Require Import Prelude RustStd BTree Batches Extern Net Cose CborBatches SignedTypes.
From S2P Require Import SyncIndex StateStore Transport Applier Validator.

(** ** reqwest *)
Class HttpClient := {
  Client : Type;
  (** the outcome of a GET of this URL at attempt [n] of an operation *)
  client_get : Client -> string -> nat -> SendOutcome;
  (** [Display] of a status code, and [text()] of a body that was read *)
  status_to_string : Z -> string;
  decode_text : bytes -> string;
}.

Module LatestSequenceResponse.
Record t := mk { sequence : option Z }.
End LatestSequenceResponse.
Module BatchInfoResponse.
Record t := mk { start_sequence : Z; end_sequence : Z }.
Definition valid (r : t) : Prop := is_u64 (start_sequence r) /\ is_u64 (end_sequence r).
End BatchInfoResponse.

(** ** [execute_with_retry] *)

(** The error of an attempt, and whether the [reqwest::Error] inside it (if any)
    is transient. *)
Definition AttemptError : Type := AnyError * bool.

Section retry.
Context {A : Type}.

(** The loop from [attempt] on with [todo] attempts left: the delays slept, in
    milliseconds, and the result.  An error that is not transient (and any error of
    the last attempt) is followed by the next attempt at once. *)
Fixpoint retry_loop (max_retries : nat) (f : nat -> result AttemptError A) (todo attempt : nat)
    (delay : Z) (last_error : option AnyError) : list Z * result AnyError A :=
  match todo with
  | O =>
      ([], match last_error with
           | Some e => Err e
           | None => Panic "called `Option::unwrap()` on a `None` value"
           end)
  | S todo' =>
      match f attempt with
      | Ok r => ([], Ok r)
      | Panic w => ([], Panic w)
      | Err (e, transient) =>
          let should_retry := (attempt <? max_retries)%nat && transient in
          if should_retry then
            let '(ds, r) := retry_loop max_retries f todo' (S attempt) (Z.min (delay * 2) 10000) (Some e) in
            (delay :: ds, r)
          else retry_loop max_retries f todo' (S attempt) delay (Some e)
      end
  end.
Definition execute_with_retry (max_retries : nat) (f : nat -> result AttemptError A)
  : list Z * result AnyError A :=
  retry_loop max_retries f (S max_retries) 0 100 None.
End retry.

(** ** The fetcher *)
Module HttpFetcher.
Section ops.
Context `{HX : Hex} `{CR : Crypto} `{CS : Cose} `{CC : !CoseCodec} `{ZS : Zstd}.
Context `{SW : Serde CborBatchWire.t} `{HC : HttpClient}.
Context `{JM : Json SignedMessage.t} `{JL : Json LatestSequenceResponse.t} `{JB : Json (list BatchInfoResponse.t)}.

Definition DEFAULT_TIMEOUT : Z := 30.
Definition DEFAULT_MAX_RETRIES : nat := 3.

Record t := mk { client : Client; base_url : string; max_retries : nat }.

(** The client, with its timeout, is built by reqwest. *)
Definition with_config (base_url : string) (client : Client) (max_retries : nat) : t :=
  mk client (trim_end_matches "/" base_url) max_retries.
Definition new (base_url : string) (client : Client) : t := with_config base_url client DEFAULT_MAX_RETRIES.

Definition is_retryable_error (e : NetError.t) : bool :=
  NetError.is_timeout e || NetError.is_connect e || NetError.is_request e.

Definition message_url (h : t) (sequence : Z) : string :=
  base_url h +:+ "/storage/messages/" +:+ int_to_string sequence.
Definition latest_url (h : t) : string := base_url h +:+ "/storage/latest".
Definition batches_url (h : t) : string := base_url h +:+ "/storage/batches".
Definition batch_url (h : t) (start_sequence : Z) : string :=
  base_url h +:+ "/storage/batches/" +:+ int_to_string start_sequence.

(** [send().await.with_context(..)?] *)
Definition send (h : t) (url msg : string) (attempt : nat)
  : result AttemptError (Z * result NetError.t bytes) :=
  match client_get (client h) url attempt with
  | SendError e => Err (Msg msg, is_retryable_error e)
  | Response status body => Ok (status, body)
  end.
(** [bytes().await.with_context(..)?] and [json().await.context(..)?] *)
Definition read_bytes (msg : string) (body : result NetError.t bytes) : result AttemptError bytes :=
  map_err (fun e => (Msg msg, is_retryable_error e)) body.
Definition read_json {B} `{Json B} (msg : string) (body : result NetError.t bytes) : result AttemptError B :=
  let? b := read_bytes msg body in map_err (fun _ => (Msg msg, false)) (from_json b).
(** [anyhow!("HTTP error {status} {what}: {body}")] *)
Definition http_error {B} (status : Z) (what : string) (body : result NetError.t bytes) : result AttemptError B :=
  Err (Msg ("HTTP error " +:+ status_to_string status +:+ " " +:+ what +:+ ": "
            +:+ match body with Ok b => decode_text b | _ => "" end), false).

Definition get_attempt (h : t) (sequence : Z) (attempt : nat) : result AttemptError (option SignedMessage.t) :=
  let url := message_url h sequence in
  let? '(status, body) := send h url ("Failed to fetch message " +:+ int_to_string sequence
                                      +:+ " from " +:+ url) attempt in
  if is_success status then
    let? message := read_json ("Failed to parse message " +:+ int_to_string sequence) body in
    Ok (Some message)
  else if status =? NOT_FOUND then Ok None
  else http_error status ("fetching message " +:+ int_to_string sequence) body.
Definition get (h : t) (sequence : Z) : list Z * result AnyError (option SignedMessage.t) :=
  execute_with_retry (max_retries h) (get_attempt h sequence).

Definition latest_attempt (h : t) (attempt : nat) : result AttemptError (option Z) :=
  let url := latest_url h in
  let? '(status, body) := send h url ("Failed to fetch latest sequence from " +:+ url) attempt in
  if negb (is_success status) then http_error status "fetching latest sequence" body
  else
    let? latest := read_json "Failed to parse latest sequence response" body in
    Ok (LatestSequenceResponse.sequence latest).
Definition get_latest_sequence (h : t) : list Z * result AnyError (option Z) :=
  execute_with_retry (max_retries h) (latest_attempt h).

(** The path of a batch is its start sequence. *)
Definition response_info (b : BatchInfoResponse.t) : BatchInfo.t :=
  BatchInfo.new (BatchInfoResponse.start_sequence b) (BatchInfoResponse.end_sequence b)
    (int_to_string (BatchInfoResponse.start_sequence b)).
Definition list_attempt (h : t) (attempt : nat) : result AttemptError (list BatchInfo.t) :=
  let url := batches_url h in
  let? '(status, body) := send h url ("Failed to list batches from " +:+ url) attempt in
  if negb (is_success status) then http_error status "listing batches" body
  else
    let? batches := read_json (B := list BatchInfoResponse.t) "Failed to parse batches list response" body in
    Ok (map response_info batches).
Definition list_batches (h : t) : list Z * result AnyError (list BatchInfo.t) :=
  execute_with_retry (max_retries h) (list_attempt h).

Definition batch_attempt (h : t) (start_sequence : Z) (attempt : nat)
  : result AttemptError (option SignedBatch.t) :=
  let url := batch_url h start_sequence in
  let n := int_to_string start_sequence in
  let? '(status, body) := send h url ("Failed to fetch batch " +:+ n +:+ " from " +:+ url) attempt in
  if is_success status then
    let? data := read_bytes ("Failed to read batch " +:+ n +:+ " body") body in
    let? cbor_batch := map_err (fun _ => (Msg ("Failed to parse CBOR batch " +:+ n), false))
                         (CborBatch.from_cbor_zstd data) in
    let? batch := map_err (fun _ => (Msg ("Failed to convert CBOR batch " +:+ n), false))
                    (to_signed_batch cbor_batch) in
    Ok (Some batch)
  else if status =? NOT_FOUND then Ok None
  else http_error status ("fetching batch " +:+ n) body.
Definition get_batch (h : t) (start_sequence : Z) : list Z * result AnyError (option SignedBatch.t) :=
  execute_with_retry (max_retries h) (batch_attempt h start_sequence).

Definition get_batch_by_path (h : t) (path : string) : list Z * result AnyError (option SignedBatch.t) :=
  match parse_u64 path with
  | None => ([], Err (Msg ("Invalid batch path: " +:+ path)))
  | Some start_sequence => get_batch h start_sequence
  end.

(** The trait implementation, without the delays. *)
#[global] Instance fetcher : StorageFetcher t := {|
  supports_batches _ := true;
  fetch_message h s := snd (get h s);
  fetch_latest h := snd (get_latest_sequence h);
  fetch_list h := snd (list_batches h);
  fetch_batch h s := snd (get_batch h s);
  fetch_batch_by_path h p := snd (get_batch_by_path h p);
|}.
End ops.
Arguments t {_}.
End HttpFetcher.
