(* ===== verification/HttpProps.v ===== *)
(** * Properties of the HTTP fetcher
    (crates/synddb-validator/src/sync/providers/http.rs over the storage routes of
    crates/synddb-sequencer/src/transport/local.rs) *)
From Stdlib Require Import Ascii Strings.Byte.
From S2P Require Import Prelude RustStd BTree Batches Extern Cose CborBatches SignedTypes.
From S2P Require Import SyncIndex WireProps StateStore Transport TransportProps Inbox Batcher.
From S2P Require Import Applier Validator Net HttpFetcher.

(** ** Retries *)
Section retry_lemmas.
Context {A : Type} (max : nat) (f : nat -> result AttemptError A).

Lemma retry_first_ok k r : forall todo attempt delay last,
  (attempt <= k < attempt + todo)%nat -> f k = Ok r ->
  (forall i, (attempt <= i < k)%nat -> exists e, f i = Err e) ->
  snd (retry_loop max f todo attempt delay last) = Ok r.
Proof.
  induction todo as [|todo IH]; intros attempt delay last Hk Hr Herr; [lia|]. cbn [retry_loop].
  destruct (decide (k = attempt)) as [->|Hne]; [by rewrite Hr|].
  destruct (Herr attempt) as [[e tr] ->]; [lia|].
  assert (Hnext : forall d l, snd (retry_loop max f todo (S attempt) d l) = Ok r)
    by (intros; apply IH; [lia | done | intros; apply Herr; lia]).
  destruct (_ && tr); [|apply Hnext].
  specialize (Hnext (Z.min (delay * 2) 10000) (Some e)). by destruct (retry_loop _ _ _ _ _ _).
Qed.

Lemma retry_all_fail : forall todo attempt delay last,
  (forall i, (attempt <= i < attempt + todo)%nat -> exists e, f i = Err e) ->
  snd (retry_loop max f todo attempt delay last)
  = match todo, last with
    | O, None => Panic "called `Option::unwrap()` on a `None` value"
    | O, Some e => Err e
    | S n, _ => match f (attempt + n)%nat with Err (e, _) => Err e | Ok r => Ok r | Panic w => Panic w end
    end.
Proof.
  induction todo as [|todo IH]; intros attempt delay last Herr; [done|]. cbn [retry_loop].
  destruct (Herr attempt) as [[e tr] He]; [lia|]. rewrite He.
  assert (Hnext : forall d, snd (retry_loop max f todo (S attempt) d (Some e))
    = match f (attempt + todo)%nat with Err (e', _) => Err e' | Ok r => Ok r | Panic w => Panic w end).
  { intros d. rewrite IH by (intros; apply Herr; lia). destruct todo as [|n]; [by rewrite Nat.add_0_r, He|].
    by rewrite Nat.add_succ_r. }
  destruct (_ && tr); [|apply Hnext].
  specialize (Hnext (Z.min (delay * 2) 10000)). by destruct (retry_loop _ _ _ _ _ _).
Qed.

Lemma retry_delays : forall todo attempt delay last,
  100 <= delay <= 10000 ->
  Forall (fun d => 100 <= d <= 10000) (fst (retry_loop max f todo attempt delay last)) /\
  (length (fst (retry_loop max f todo attempt delay last)) <= max - attempt)%nat.
Proof.
  induction todo as [|todo IH]; intros attempt delay last Hd; cbn [retry_loop]; [by split; [constructor|cbn; lia]|].
  destruct (f attempt) as [r|[e tr]|w]; [by split; [constructor|cbn; lia]| |by split; [constructor|cbn; lia]].
  destruct (attempt <? max)%nat eqn:Ea; cbn [andb].
  - apply Nat.ltb_lt in Ea. destruct tr.
    + destruct (IH (S attempt) (Z.min (delay * 2) 10000) (Some e)) as [H1 H2]; [lia|].
      destruct (retry_loop _ _ _ _ _ _). cbn in *. split; [by constructor|lia].
    + destruct (IH (S attempt) delay (Some e) Hd) as [H1 H2]. split; [done|lia].
  - destruct (IH (S attempt) delay (Some e) Hd) as [H1 H2]. split; [done|lia].
Qed.
End retry_lemmas.

(** Retrying: [execute_with_retry] makes at most [max_retries + 1] attempts;
    it returns the first success among them, whatever errors came before
    (transient or not), and if all of them fail it returns the error of the last
    one and never reaches its [unwrap] without one; it sleeps at most
    [max_retries] times, between 100 ms and 10 s each. *)
Theorem execute_with_retry_spec {A} (max_retries : nat) (f : nat -> result AttemptError A) :
  (forall k r, (k <= max_retries)%nat -> f k = Ok r -> (forall i, (i < k)%nat -> exists e, f i = Err e) ->
     snd (execute_with_retry max_retries f) = Ok r) /\
  (forall e tr, (forall i, (i <= max_retries)%nat -> exists e', f i = Err e') -> f max_retries = Err (e, tr) ->
     snd (execute_with_retry max_retries f) = Err e) /\
  Forall (fun d => 100 <= d <= 10000) (fst (execute_with_retry max_retries f)) /\
  (length (fst (execute_with_retry max_retries f)) <= max_retries)%nat.
Proof.
  unfold execute_with_retry. split_and!.
  - intros k r Hk Hr Herr. eapply (retry_first_ok _ _ k); [lia | done | intros; apply Herr; lia].
  - intros e tr Hall Hlast. rewrite retry_all_fail by (intros; apply Hall; lia). cbn. by rewrite Hlast.
  - apply retry_delays. lia.
  - pose proof (proj2 (retry_delays max_retries f (S max_retries) 0 100 None ltac:(lia))). lia.
Qed.

(** ** The routes of [LocalTransport::routes], mounted under [/storage] *)
Section routes.
Context `{HX : Hex} `{CR : Crypto} `{CS : Cose} `{CC : !CoseCodec} `{ZS : Zstd}.
Context `{SW : Serde CborBatchWire.t} `{BT : BatchTable}.
Context `{JM : Json SignedMessage.t} `{JL : Json LatestSequenceResponse.t} `{JB : Json (list BatchInfoResponse.t)}.

(** Status and body; [None] where axum answers by itself (no such route, or a
    segment that is not a [u64]). *)
Definition routes (tr : Local.t) (path : string) : option (result TransportError (Z * bytes)) :=
  if bool_decide (path = "/storage/batches") then
    Some (let? items := Local.list_batches_handler tr in
          Ok (200, to_json (map (fun i => BatchInfoResponse.mk (fst i) (snd i)) items)))
  else if bool_decide (path = "/storage/latest") then
    Some (Ok (200, to_json (LatestSequenceResponse.mk (Local.get_latest tr))))
  else
    match strip_prefix "/storage/batches/" path with
    | Some start => (fun n => Ok (Local.get_batch_cbor tr n)) <$> parse_u64 start
    | None =>
        match strip_prefix "/storage/messages/" path with
        | Some sequence =>
            (fun n => Ok (match Local.get_message_handler tr n with
                          | (status, Some m) => (status, to_json m)
                          | (status, None) => (status, [])
                          end)) <$> parse_u64 sequence
        | None => None
        end
    end.

Lemma routes_batch tr n :
  is_u64 n -> routes tr ("/storage/batches/" +:+ int_to_string n) = Some (Ok (Local.get_batch_cbor tr n)).
Proof.
  intros Hn. unfold routes. rewrite !bool_decide_false by (cbn; discriminate).
  by rewrite strip_prefix_app, parse_u64_to_string.
Qed.
Lemma routes_message tr n :
  is_u64 n -> routes tr ("/storage/messages/" +:+ int_to_string n)
  = Some (Ok (match Local.get_message_handler tr n with
              | (status, Some m) => (status, to_json m)
              | (status, None) => (status, [])
              end)).
Proof.
  intros Hn. unfold routes. rewrite !bool_decide_false by (cbn; discriminate).
  change (strip_prefix "/storage/batches/" _) with (@None string).
  cbv iota. by rewrite strip_prefix_app, parse_u64_to_string.
Qed.
End routes.

(** A request reaches its answer within [max] retries. *)
Definition reaches `{HttpClient} (c : Client) (url : string) (max : nat) (answer : Z * bytes) : Prop :=
  exists k, (k <= max)%nat /\ (forall i, (i < k)%nat -> exists e, client_get c url i = SendError e) /\
    client_get c url k = Response (fst answer) (Ok (snd answer)).

(** The fetcher talks to a sequencer that serves this transport. *)
Definition serves `{HX : Hex} `{CR : Crypto} `{CS : Cose} `{CC : !CoseCodec} `{ZS : Zstd}
    `{SW : Serde CborBatchWire.t} `{BT : BatchTable} `{HC : HttpClient}
    `{JM : Json SignedMessage.t} `{JL : Json LatestSequenceResponse.t} `{JB : Json (list BatchInfoResponse.t)}
    (h : HttpFetcher.t) (tr : Local.t) : Prop :=
  forall path answer, routes tr path = Some (Ok answer) ->
    reaches (HttpFetcher.client h) (HttpFetcher.base_url h +:+ path) (HttpFetcher.max_retries h) answer.

(** What [list_batches] gives for a batch of the log. *)
Definition http_info (b : CborBatch.t) : BatchInfo.t :=
  BatchInfo.new (CborBatch.start_sequence b) (CborBatch.end_sequence b)
    (int_to_string (CborBatch.start_sequence b)).

(** Values a [SignedMessage] of the source can hold. *)
Definition message_valid (m : SignedMessage.t) : Prop :=
  is_u64 (SignedMessage.sequence m) /\ is_u64 (SignedMessage.timestamp m).

(** ** The fetcher over the routes *)
Section fetcher_lemmas.
Context `{HX : Hex} `{CR : Crypto} `{SG : !Signer} `{CS : Cose} `{CC : !CoseCodec} `{ZS : Zstd}.
Context `{SW : Serde CborBatchWire.t} `{BT : BatchTable} {rows : Conn -> BTreeMap.t StoredBatch.t}.
Context `{HC : HttpClient}.
Context `{JM : Json SignedMessage.t} `{JL : Json LatestSequenceResponse.t} `{JB : Json (list BatchInfoResponse.t)}.
Context {ZL : ZstdLaws} {SL : SerdeLaws CborBatchWire.t CborBatchWire.valid}.
Context {TL : BatchTableLaws rows}.
Context {JML : JsonLaws SignedMessage.t message_valid}.
Context {JLL : JsonLaws LatestSequenceResponse.t (fun r => forall n, LatestSequenceResponse.sequence r = Some n -> is_u64 n)}.
Context {JBL : JsonLaws (list BatchInfoResponse.t) (Forall BatchInfoResponse.valid)}.
Implicit Types (h : HttpFetcher.t) (tr : Local.t).

(** An operation whose answer decodes returns what the answer says. *)
Lemma reaches_result {A} h url msg answer (attempt : nat -> result AttemptError A) k r :
  reaches (HttpFetcher.client h) url (HttpFetcher.max_retries h) answer ->
  (forall i, attempt i = result_bind (HttpFetcher.send h url msg i) k) ->
  k (fst answer, Ok (snd answer)) = Ok r ->
  snd (execute_with_retry (HttpFetcher.max_retries h) attempt) = Ok r.
Proof.
  intros (n & Hn & Herr & Hok) Hat Hk. unfold execute_with_retry.
  apply (retry_first_ok _ _ n); [lia| |].
  - rewrite Hat. unfold HttpFetcher.send. rewrite Hok. exact Hk.
  - intros i Hi. destruct (Herr i) as [e He]; [lia|]. rewrite Hat. unfold HttpFetcher.send.
    rewrite He. cbn. eauto.
Qed.

Lemma fetch_list_served h tr bs :
  local_log (rows := rows) tr bs -> serves h tr -> fetch_list h = Ok (map http_info bs).
Proof using ZL SL TL JBL.
  intros Hlog Hs. pose proof (local_transport_laws (rows := rows)) as L.
  pose proof (local_list (E := TransportError) tr bs Hlog) as Hl.
  set (items := map (fun b => BatchInfoResponse.mk (CborBatch.start_sequence b) (CborBatch.end_sequence b)) bs).
  assert (Hr : routes tr "/storage/batches" = Some (Ok (200, to_json items))).
  { unfold routes. rewrite bool_decide_true by done. unfold Local.list_batches_handler.
    rewrite Hl. cbn [result_bind]. by rewrite !map_map. }
  eapply (reaches_result h _ _ _ _ (fun '(status, body) => _)); [apply (Hs _ _ Hr) | intros; reflexivity |].
  cbn [fst snd is_success]. change (is_success 200) with true. cbn [negb].
  unfold HttpFetcher.read_json, HttpFetcher.read_bytes. cbn [map_err result_bind].
  rewrite from_to_json.
  - cbn [map_err result_bind]. unfold items. rewrite map_map. done.
  - apply Forall_fmap. eapply Forall_impl; [exact (proj1 (log_wf _ _ Hlog))|].
    intros b [(_ & _ & _ & _ & Hb & He & _) _]. by split.
Qed.

Lemma get_batch_compressed_log tr bs b :
  local_log (rows := rows) tr bs -> b ∈ bs ->
  exists d, Local.get_batch_compressed tr (CborBatch.start_sequence b) = Some d /\
    CborBatch.from_cbor_zstd d = Ok b.
Proof using TL.
  intros [Hwf Hf] Hb. pose proof (stored_get (CborBatch.start_sequence b) _ _ Hf) as Hg.
  assert (Local.get_batch_compressed tr (CborBatch.start_sequence b)
          = StoredBatch.compressed_data <$> BTreeMap.get (CborBatch.start_sequence b) (entries (rows := rows) tr))
    as -> by (destruct tr; [done | apply (sql_data_at_spec (rows := rows))]).
  rewrite find_start in Hg by done. destruct (BTreeMap.get _ _) as [st|]; [|done].
  exists (StoredBatch.compressed_data st). by split.
Qed.

Lemma fetch_batch_served h tr bs b sb :
  local_log (rows := rows) tr bs -> serves h tr -> b ∈ bs -> to_signed_batch b = Ok sb ->
  fetch_batch_by_path h (BatchInfo.path (http_info b)) = Ok (Some sb).
Proof using TL.
  intros Hlog Hs Hb Hsb. destruct (get_batch_compressed_log tr bs b Hlog Hb) as (d & Hd & Hdb).
  assert (Hn : is_u64 (CborBatch.start_sequence b)).
  { destruct Hlog as [[Hp _] _]. rewrite Forall_forall in Hp. by destruct (Hp _ Hb) as [(_ & _ & _ & _ & Hu & _) _]. }
  cbn [fetch_batch_by_path HttpFetcher.fetcher]. unfold HttpFetcher.get_batch_by_path.
  cbn [http_info BatchInfo.new BatchInfo.path]. rewrite parse_u64_to_string by done.
  unfold HttpFetcher.get_batch.
  eapply (reaches_result h _ _ _ _ (fun '(status, body) => _));
    [apply (Hs _ _ (routes_batch tr _ Hn)) | intros; reflexivity |].
  unfold Local.get_batch_cbor. rewrite Hd. cbn [fst snd].
  change (is_success 200) with true. cbv iota. unfold HttpFetcher.read_bytes. cbn [map_err result_bind].
  rewrite Hdb. cbn [map_err result_bind]. by rewrite Hsb.
Qed.

Lemma fetch_latest_served h tr bs :
  local_log (rows := rows) tr bs -> serves h tr -> fetch_latest h = Ok (CborBatch.end_sequence <$> last bs).
Proof using ZL SL TL JLL.
  intros Hlog Hs. pose proof (local_transport_laws (rows := rows)) as L.
  pose proof (latest_spec tr bs Hlog) as Hl. cbn in Hl. apply Ok_inj in Hl.
  assert (Hr : routes tr "/storage/latest"
               = Some (Ok (200, to_json (LatestSequenceResponse.mk (CborBatch.end_sequence <$> last bs))))).
  { unfold routes. rewrite bool_decide_false, bool_decide_true by done. unfold Local.get_latest. by rewrite Hl. }
  eapply (reaches_result h _ _ _ _ (fun '(status, body) => _)); [apply (Hs _ _ Hr) | intros; reflexivity |].
  cbn [fst snd]. change (is_success 200) with true. cbn [negb].
  unfold HttpFetcher.read_json, HttpFetcher.read_bytes. cbn [map_err result_bind].
  rewrite from_to_json; [done|]. cbn. intros n Hn. destruct (last bs) as [b|] eqn:El; [|done].
  injection Hn as <-. apply last_Some_elem_of in El. pose proof (proj1 (log_wf _ _ Hlog)) as Hp.
  rewrite Forall_forall in Hp. by destruct (Hp _ El) as [(_ & _ & _ & _ & _ & He & _) _].
Qed.

(** *** Single messages *)
Lemma find_signed_app s l1 l2 :
  Local.find_signed s (l1 ++ l2)
  = match Local.find_signed s l1 with Some x => Some x | None => Local.find_signed s l2 end.
Proof.
  induction l1 as [|m l1 IH]; cbn; [done|]. destruct (has_sequence s m); [|done].
  by destruct (to_signed_message_unchecked m).
Qed.

Lemma find_signed_none s l :
  Forall (fun m => seq_of m <> s) l -> Local.find_signed s l = None.
Proof.
  induction 1 as [|m l Hm _ IH]; cbn; [done|]. destruct (has_sequence s m) eqn:E; [|done].
  exfalso. apply Hm. unfold has_sequence in E. bool_to_prop. unfold seq_of. by rewrite E.
Qed.

Lemma find_signed_ok vk s ms sms :
  Forall2 (message_ok vk) ms sms ->
  Local.find_signed s ms = find (fun sm => SignedMessage.sequence sm =? s) sms.
Proof.
  induction 1 as [|m sm ms sms Hm _ IH]; cbn; [done|].
  destruct Hm as (_ & Hseq & _ & _ & Hun & _). unfold has_sequence. rewrite Hseq. cbn.
  destruct (SignedMessage.sequence sm =? s) eqn:E; bool_to_prop.
  - rewrite bool_decide_true by congruence. by rewrite Hun.
  - rewrite bool_decide_false by congruence. exact IH.
Qed.

Lemma range_bounds b m :
  range_ok b -> StronglySorted (fun x y => seq_of x < seq_of y) (CborBatch.messages b) ->
  m ∈ CborBatch.messages b -> CborBatch.start_sequence b <= seq_of m <= CborBatch.end_sequence b.
Proof.
  intros [Hh Hl] Hs Hm. destruct (CborBatch.messages b) as [|m1 l]; [by apply not_elem_of_nil in Hm|].
  cbn in Hh. injection Hh as <-. destruct (last (m1 :: l)) as [m2|] eqn:El; [|done]. injection Hl as <-.
  split.
  - apply elem_of_cons in Hm as [->|Hm]; [lia|]. apply StronglySorted_inv in Hs as [_ Hf].
    rewrite Forall_forall in Hf. specialize (Hf _ Hm). lia.
  - apply last_Some in El as [l' El]. rewrite El in Hm, Hs. apply elem_of_app in Hm as [Hm|Hm].
    + assert (seq_of m < seq_of m2); [|lia]. apply (StronglySorted_app_1_elem_of _ _ _ _ _ Hs Hm).
      by apply list_elem_of_here.
    + apply list_elem_of_singleton in Hm as ->. lia.
Qed.

(** Looking a number up in the batch that covers it is looking it up in the log. *)
Lemma find_signed_published s bs :
  Forall publishable bs -> Forall range_ok bs ->
  StronglySorted (fun x y => seq_of x < seq_of y) (published bs) ->
  Local.find_signed s (published bs)
  = match find (batch_contains s) bs with
    | Some b => Local.find_signed s (CborBatch.messages b)
    | None => None
    end.
Proof.
  induction bs as [|b bs IH]; intros Hp Hr Hs; [done|].
  apply Forall_cons in Hp as [Hpb Hp], Hr as [Hrb Hr].
  unfold published in *. cbn [map concat find] in *. rewrite find_signed_app.
  pose proof (range_bounds b) as Hbounds.
  assert (Hsb : StronglySorted (fun x y => seq_of x < seq_of y) (CborBatch.messages b))
    by (by eapply StronglySorted_app_1_l).
  assert (Hsr : StronglySorted (fun x y => seq_of x < seq_of y) (concat (map CborBatch.messages bs)))
    by (by eapply StronglySorted_app_1_r).
  unfold batch_contains at 1. destruct (_ && _) eqn:Ec.
  - bool_to_prop. destruct (Local.find_signed s (CborBatch.messages b)) eqn:E; [done|].
    apply find_signed_none, Forall_forall. intros m Hm.
    destruct Hrb as [_ Hl]. destruct (last (CborBatch.messages b)) as [m2|] eqn:El; [|done].
    injection Hl as Hl. apply last_Some_elem_of in El.
    pose proof (StronglySorted_app_1_elem_of _ _ _ _ _ Hs El Hm) as Hlt. cbn in Hlt. lia.
  - rewrite find_signed_none; [by apply IH|]. apply Forall_forall. intros m Hm Heq.
    specialize (Hbounds m Hrb Hsb Hm). apply andb_false_iff in Ec. rewrite !Z.leb_gt in Ec. lia.
Qed.

Lemma extract_u64_range rest label n : extract_u64_loop rest label = Some n -> is_u64 n.
Proof.
  induction rest as [|[[l|s] [i| | | | | | |]] rest IH]; cbn; try done.
  destruct (l =? label); [|done]. intros [= <-]. apply as_u64_range.
Qed.

Lemma message_ok_valid vk m sm : message_ok vk m sm -> message_valid sm.
Proof.
  intros (Hs & _ & _ & _ & Hun & _). split; [done|]. unfold to_signed_message_unchecked in Hun.
  destruct (CborSignedMessage.parse_without_verify m) as [p| |] eqn:Ep; cbn [result_bind] in Hun; [|done..].
  destruct (CborSignedMessage.protected_header m); cbn [result_bind] in Hun; [|done..].
  apply Ok_inj in Hun as <-. cbn. apply parse_cose_sign1_inv in Ep as (c & n & _ & _ & Ht & _).
  by eapply extract_u64_range.
Qed.

Lemma fetch_message_served h tr bs vk sms s :
  local_log (rows := rows) tr bs -> serves h tr -> Forall range_ok bs ->
  good_messages vk (published bs) -> Forall2 (message_ok vk) (published bs) sms -> is_u64 s ->
  fetch_message h s = Ok (find (fun sm => SignedMessage.sequence sm =? s) sms).
Proof using TL JML.
  intros Hlog Hs Hr [_ Hsorted] Hms Hu. pose proof Hlog as [[Hp _] _].
  rewrite <- (find_signed_ok vk s _ _ Hms).
  assert (Hg : Local.get_signed_message tr s = Local.find_signed s (published bs)).
  { rewrite find_signed_published by done. unfold Local.get_signed_message.
    pose proof (data_containing_spec s tr bs Hlog) as Hd.
    destruct (Local.data_containing tr s), (find (batch_contains s) bs); try done. by rewrite Hd. }
  assert (Hv : forall m, Local.find_signed s (published bs) = Some m -> message_valid m).
  { rewrite (find_signed_ok vk s _ _ Hms). intros m Hm. apply find_some in Hm as [Hm _].
    apply list_elem_of_In, list_elem_of_lookup in Hm as [i Hi].
    destruct (Forall2_lookup_r _ _ _ _ _ Hms Hi) as (x & _ & Hx). by eapply message_ok_valid. }
  cbn [fetch_message HttpFetcher.fetcher]. unfold HttpFetcher.get.
  eapply (reaches_result h _ _ _ _ (fun '(status, body) => _));
    [apply (Hs _ _ (routes_message tr _ Hu)) | intros; reflexivity |].
  unfold Local.get_message_handler. rewrite Hg.
  destruct (Local.find_signed s (published bs)) as [m|]; cbn [fst snd].
  - change (is_success 200) with true. cbv iota. unfold HttpFetcher.read_json, HttpFetcher.read_bytes.
    cbn [map_err result_bind]. rewrite from_to_json by auto. done.
  - done.
Qed.

(** C12. Over HTTP the validator sees exactly the sequencer's log: against a
    sequencer whose local transport holds the batches [bs] (each with the range of
    its messages, all of one signer, in order), and as long as every request gets
    through within the retry budget, the listing is that of [bs] with each start
    number as path, the latest number is the last end, every listed path gives the
    batch's internal form, and every number gives the message with that number if
    the log has one and "not found" otherwise. *)
Theorem http_fetcher_serves_log h tr bs vk sms :
  local_log (rows := rows) tr bs -> serves h tr -> Forall range_ok bs -> Forall (converts vk) bs ->
  good_messages vk (published bs) -> Forall2 (message_ok vk) (published bs) sms ->
  fetch_list h = Ok (map http_info bs) /\
  fetch_latest h = Ok (CborBatch.end_sequence <$> last bs) /\
  (forall b, b ∈ bs -> exists msgs,
     Forall2 (message_ok vk) (CborBatch.messages b) msgs /\
     fetch_batch_by_path h (BatchInfo.path (http_info b)) = Ok (Some (signed_batch_of b msgs))) /\
  (forall s, is_u64 s -> fetch_message h s = Ok (find (fun sm => SignedMessage.sequence sm =? s) sms)).
Proof using ZL SL TL JML JLL JBL.
  intros Hlog Hs Hr Hcv Hg Hms. split_and!.
  - by eapply fetch_list_served.
  - by eapply fetch_latest_served.
  - intros b Hb. rewrite Forall_forall in Hcv. destruct (Hcv _ Hb) as (msgs & Hm & Hto & _).
    exists msgs. split; [done|]. by eapply fetch_batch_served.
  - intros. by eapply fetch_message_served.
Qed.
End fetcher_lemmas.
