(* ===== verification/Cloud.v ===== *)
(** * Cloud storage (crates/synddb-storage, crates/synddb-shared/src/gcs.rs,
    crates/synddb-sequencer/src/transport/gcs.rs,
    crates/synddb-validator/src/sync/providers/gcs.rs)

    The storage client over Google's libraries and, for an emulator, over its REST
    interface, the sequencer's transport and the validator's fetcher on top of it.
    Google's clients and the bucket behind them are the class [ObjectStore]. *)
From Stdlib Require Import Ascii Strings.Byte.
From S2P Require Import Prelude RustStd Batches Extern Net Cose CborBatches SignedTypes.
From S2P Require Import StateStore Transport Validator.

(** ** synddb-shared/src/gcs.rs *)
Module GcsConfig.
Record t := mk { bucket : string; prefix : string; emulator_host : option string }.

Definition new (bucket : string) : t := mk bucket "sequencer" None.
Definition with_prefix (prefix : string) (c : t) : t := mk (bucket c) prefix (emulator_host c).
Definition with_emulator_host (host : string) (c : t) : t :=
  mk (bucket c) (prefix c) (if bool_decide (host = ""%string) then None else Some host).
Definition is_emulator (c : t) : bool := bool_decide (is_Some (emulator_host c)).
Definition batch_path (c : t) (filename : string) : string := prefix c +:+ "/batches/" +:+ filename.
End GcsConfig.

(** ** synddb-storage/src/config.rs and error.rs *)
Module StorageConfig.
Inductive t := Gcs (config : GcsConfig.t).

Definition gcs (bucket prefix : string) : t := Gcs (GcsConfig.with_prefix prefix (GcsConfig.new bucket)).
Definition with_emulator (host : string) (c : t) : t :=
  match c with Gcs config => Gcs (GcsConfig.with_emulator_host host config) end.
Definition is_emulator (c : t) : bool := match c with Gcs config => GcsConfig.is_emulator config end.
Definition bucket (c : t) : string := match c with Gcs config => GcsConfig.bucket config end.
Definition prefix (c : t) : string := match c with Gcs config => GcsConfig.prefix config end.
Definition emulator_host (c : t) : option string :=
  match c with Gcs config => GcsConfig.emulator_host config end.
End StorageConfig.

Module StorageError.
Inductive t :=
| Config (s : string)
| Read (s : string)
| Write (s : string)
| List (s : string)
| NotFound (s : string)
| Http (e : NetError.t).

Definition to_string (e : t) : string :=
  match e with
  | Config s => "Configuration error: " +:+ s
  | Read s => "Read error: " +:+ s
  | Write s => "Write error: " +:+ s
  | List s => "List error: " +:+ s
  | NotFound s => "Object not found: " +:+ s
  | Http e => "HTTP error: " +:+ NetError.text e
  end.
End StorageError.

(** [serde_json::Value], with the accessors the client uses. *)
Module JsonValue.
Inductive t :=
| Null
| Bool (b : bool)
| Number (text : string)
| String (s : string)
| Array (l : list t)
| Object (fields : list (string * t)).

Definition get (key : string) (v : t) : option t :=
  match v with
  | Object fields => snd <$> find (fun kv => bool_decide (fst kv = key)) fields
  | _ => None
  end.
Definition as_array (v : t) : option (list t) := match v with Array l => Some l | _ => None end.
Definition as_str (v : t) : option string := match v with String s => Some s | _ => None end.
End JsonValue.

(** ** Google's clients, reqwest and the bucket behind them *)
Class ObjectStore := {
  Store : Type;
  (** [Storage::builder()...build()] and [StorageControl::builder()...build()] for an endpoint *)
  storage_build : option string -> result string unit;
  control_build : option string -> result string unit;
  write_object : Store -> string -> string -> bytes -> Store * result string unit;
  (** the chunks of the object, each of which may fail to arrive *)
  read_object : Store -> string -> string -> result string (list (result string bytes));
  (** one page of names and the token of the next one, empty at the end *)
  list_objects : Store -> string -> string -> option string -> result string (list string * string);
  (** how many pages the listing of a prefix has: the turns of the listing loop *)
  page_count : Store -> string -> string -> nat;
  (** a GET request to the emulator *)
  rest_get : Store -> string -> SendOutcome;
  rest_status_display : Z -> string;
  rest_body_text : bytes -> string;
  (** percent_encoding's [utf8_percent_encode(_, NON_ALPHANUMERIC)] *)
  percent_encode : string -> string;
}.

Module ObjectInfo.
Record t := mk { name : string }.
End ObjectInfo.

(** ** synddb-storage/src/client.rs *)
Module StorageClient.
Section ops.
Context `{OS : ObjectStore} `{JV : FromJson JsonValue.t}.

(** [emulator_client] is its presence. *)
Record t := mk { config : StorageConfig.t; emulator_client : bool }.

Definition build_error {A} (what : string) (c : result string A) : result StorageError.t A :=
  map_err (fun e => StorageError.Config ("Failed to create " +:+ what +:+ " client: " +:+ e)) c.

Definition new_gcs (config : StorageConfig.t) (gcs_config : GcsConfig.t)
    : result StorageError.t t :=
  let endpoint := GcsConfig.emulator_host gcs_config in
  let? _ := build_error "Storage" (storage_build endpoint) in
  let? _ := build_error "StorageControl" (control_build endpoint) in
  Ok (mk config (bool_decide (is_Some endpoint))).
Definition new (config : StorageConfig.t) : result StorageError.t t :=
  match config with StorageConfig.Gcs gcs_config => new_gcs config gcs_config end.

Definition prefix (c : t) : string := StorageConfig.prefix (config c).
Definition bucket (c : t) : string := StorageConfig.bucket (config c).
Definition bucket_path (c : t) : string := "projects/_/buckets/" +:+ bucket c.

Definition write (c : t) (st : Store) (path : string) (data : bytes) : Store * result StorageError.t unit :=
  let '(st', r) := write_object st (bucket_path c) path data in
  (st', map_err (fun e => StorageError.Write ("Failed to write to " +:+ path +:+ ": " +:+ e)) r).

(** An error whose text looks like one of these means that there is no such object. *)
Definition looks_missing (error_str : string) : bool :=
  contains "404" error_str || contains "No such object" error_str || contains "not found" error_str.

Fixpoint read_chunks (chunks : list (result string bytes)) (data : bytes) : result StorageError.t bytes :=
  match chunks with
  | [] => Ok data
  | c :: chunks' =>
      let? chunk := map_err (fun e => StorageError.Read ("Failed to read chunk: " +:+ e)) c in
      read_chunks chunks' (data ++ chunk)
  end.

Definition read (c : t) (st : Store) (path : string) : result StorageError.t (option bytes) :=
  match read_object st (bucket_path c) path with
  | Err e =>
      if looks_missing e then Ok None
      else Err (StorageError.Read ("Failed to read " +:+ path +:+ ": " +:+ e))
  | Panic w => Panic w
  | Ok chunks => let? data := read_chunks chunks [] in Ok (Some data)
  end.

(** The [loop] of [list] and of [list_emulator]: pages are appended until one comes
    without a token, in the model for as many turns as the listing has pages. *)
Fixpoint page_loop (fuel : nat) (page : option string -> result StorageError.t (list string * string))
    (objects : list ObjectInfo.t) (page_token : option string) : result StorageError.t (list ObjectInfo.t) :=
  match fuel with
  | O => Panic "more pages than are followed"
  | S fuel' =>
      let? '(names, next_page_token) := page page_token in
      let objects' := objects ++ map ObjectInfo.mk names in
      if bool_decide (next_page_token = ""%string) then Ok objects'
      else page_loop fuel' page objects' (Some next_page_token)
  end.

Definition list_error {A} (c : result string A) : result StorageError.t A :=
  map_err (fun e => StorageError.List ("Failed to list objects: " +:+ e)) c.

(** The emulator's answers. *)
Definition list_url (host : string) (c : t) (prefix : string) : string :=
  host +:+ "/storage/v1/b/" +:+ bucket c +:+ "/o?prefix=" +:+ percent_encode prefix.
Definition page_url (host : string) (c : t) (prefix : string) (page_token : option string) : string :=
  list_url host c prefix
  +:+ match page_token with Some token => "&pageToken=" +:+ percent_encode token | None => "" end.

Definition rest_json (st : Store) (url : string) : result StorageError.t JsonValue.t :=
  match rest_get st url with
  | SendError e => Err (StorageError.Http e)
  | Response status body =>
      if negb (is_success status) then
        Err (StorageError.List ("Emulator list failed: " +:+ rest_status_display status +:+ " - "
               +:+ match body with Ok b => rest_body_text b | _ => "" end))
      else map_err (fun e => StorageError.List ("Failed to parse response: " +:+ e)) (response_json body)
  end.

Definition item_name (item : JsonValue.t) : option string :=
  JsonValue.get "name" item ≫= JsonValue.as_str.
Definition item_names (body : JsonValue.t) : list string :=
  match JsonValue.get "items" body ≫= JsonValue.as_array with
  | Some items => omap item_name items
  | None => []
  end.
Definition emulator_page (st : Store) (host : string) (c : t) (prefix : string) (page_token : option string)
    : result StorageError.t (list string * string) :=
  let? body := rest_json st (page_url host c prefix page_token) in
  Ok (item_names body, default ""%string (JsonValue.get "nextPageToken" body ≫= JsonValue.as_str)).

(** [.expect(..)] on the emulator's host. *)
Definition emulator_host (c : t) : result StorageError.t string :=
  match StorageConfig.emulator_host (config c) with
  | Some host => Ok host
  | None => Panic "emulator_client exists only when emulator_host is set"
  end.

Definition list_emulator (c : t) (st : Store) (prefix : string) : result StorageError.t (list ObjectInfo.t) :=
  let? host := emulator_host c in
  page_loop (page_count st (bucket_path c) prefix) (emulator_page st host c prefix) [] None.

Definition list (c : t) (st : Store) (prefix : string) : result StorageError.t (list ObjectInfo.t) :=
  if emulator_client c then list_emulator c st prefix
  else page_loop (page_count st (bucket_path c) prefix)
         (fun token => list_error (list_objects st (bucket_path c) prefix token)) [] None.

Definition list_one_emulator (c : t) (st : Store) (prefix : string)
    : result StorageError.t (option ObjectInfo.t) :=
  let? host := emulator_host c in
  let? body := rest_json st (list_url host c prefix +:+ "&maxResults=1") in
  Ok (ObjectInfo.mk <$> (items ← JsonValue.get "items" body; l ← JsonValue.as_array items;
                         item ← head l; item_name item)).

(** Only the first page is asked for. *)
Definition list_one (c : t) (st : Store) (prefix : string) : result StorageError.t (option ObjectInfo.t) :=
  if emulator_client c then list_one_emulator c st prefix
  else
    let? '(names, _) := list_error (list_objects st (bucket_path c) prefix None) in
    Ok (ObjectInfo.mk <$> head names).
End ops.
End StorageClient.

(** ** Helpers of both users of the client *)

(** [rsplit(c).next()]: what follows the last separator; there always is one piece. *)
Definition rsplit_next (c : ascii) (s : string) : option string := last (split_char c s).

(** The loop over the listed objects: those whose file name is that of a batch. *)
Definition batch_files (objects : list ObjectInfo.t) : list (Z * Z * string) :=
  omap (fun obj =>
          filename ← rsplit_next "/" (ObjectInfo.name obj);
          '(start, end_) ← parse_batch_filename filename;
          Some (start, end_, ObjectInfo.name obj)) objects.

(** ** synddb-sequencer/src/transport/gcs.rs *)
Module GcsTransport.
Section ops.
Context `{HX : Hex} `{CR : Crypto} `{CS : Cose} `{CC : !CoseCodec} `{ZS : Zstd}.
Context `{SW : Serde CborBatchWire.t} `{OS : ObjectStore} `{JV : FromJson JsonValue.t}.

(** The transport with the store its client talks to. *)
Record t := mk { client : StorageClient.t; store : Store }.

Definition new (config : GcsConfig.t) (st : Store) : result TransportError t :=
  let? c := map_err (fun e => Config (StorageError.to_string e))
              (StorageClient.new (StorageConfig.Gcs config)) in
  Ok (mk c st).

Definition batch_path (tr : t) (start_sequence end_sequence : Z) : string :=
  StorageClient.prefix (client tr) +:+ "/batches/" +:+ format_batch_filename start_sequence end_sequence.

Definition storage_error {A} (c : result StorageError.t A) : result TransportError A :=
  map_err (fun e => Storage (StorageError.to_string e)) c.

Definition upload (tr : t) (path : string) (data : bytes) : t * result TransportError unit :=
  let '(st', r) := StorageClient.write (client tr) (store tr) path data in
  (mk (client tr) st', storage_error r).
Definition download (tr : t) (path : string) : result TransportError (option bytes) :=
  storage_error (StorageClient.read (client tr) (store tr) path).

Definition list_batch_files (tr : t) : result TransportError (list (Z * Z * string)) :=
  let prefix := StorageClient.prefix (client tr) +:+ "/batches/" in
  let? objects := storage_error (StorageClient.list (client tr) (store tr) prefix) in
  Ok (sort_by_key (fun '(start, _, _) => start) (batch_files objects)).

Definition find_batch_containing (tr : t) (sequence : Z) : result TransportError (option string) :=
  let? batches := list_batch_files tr in
  Ok (snd <$> find (fun '(start, end_, _) => (start <=? sequence) && (sequence <=? end_)) batches).

Definition reference (tr : t) (path : string) : string :=
  "gs://" +:+ StorageClient.bucket (client tr) +:+ "/" +:+ path.

Definition publish (tr : t) (batch : CborBatch.t) : t * result TransportError PublishMetadata.t :=
  let path := batch_path tr (CborBatch.start_sequence batch) (CborBatch.end_sequence batch) in
  match transport_of_cbor (CborBatch.to_cbor batch) with
  | Err e => (tr, Err e)
  | Panic w => (tr, Panic w)
  | Ok uncompressed =>
      match transport_of_cbor (CborBatch.to_cbor_zstd batch) with
      | Err e => (tr, Err e)
      | Panic w => (tr, Panic w)
      | Ok compressed =>
          let '(tr', r) := upload tr path compressed in
          (tr', let? _ := r in
                Ok (PublishMetadata.mk (reference tr path) (CborBatch.content_hash batch)
                      (Z.of_nat (length compressed)) (Z.of_nat (length uncompressed))))
      end
  end.

Definition fetch (tr : t) (start_sequence : Z) : result TransportError (option CborBatch.t) :=
  let? batches := list_batch_files tr in
  match snd <$> find (fun '(start, _, _) => start =? start_sequence) batches with
  | None => Ok None
  | Some path =>
      let? data := download tr path in
      match data with
      | None => Ok None
      | Some data => let? batch := transport_of_cbor (CborBatch.from_cbor_zstd data) in Ok (Some batch)
      end
  end.

Definition list_batches (tr : t) : result TransportError (list BatchInfo.t) :=
  let? batch_files := list_batch_files tr in
  Ok (map (fun '(start, end_, path) => BatchInfo.new start end_ (reference tr path)) batch_files).

Definition get_latest_sequence (tr : t) : result TransportError (option Z) :=
  let? batches := list_batch_files tr in
  Ok (Local.iter_max (map (fun '(_, end_, _) => end_) batches)).

Definition get_message (tr : t) (sequence : Z) : result TransportError (option CborSignedMessage.t) :=
  let? path := find_batch_containing tr sequence in
  match path with
  | None => Ok None
  | Some path =>
      let? data := download tr path in
      match data with
      | None => Ok None
      | Some data =>
          let? batch := transport_of_cbor (CborBatch.from_cbor_zstd data) in
          Ok (find (has_sequence sequence) (CborBatch.messages batch))
      end
  end.

#[global] Instance transport : TransportPublisher t := {|
  Transport.publish := publish;
  Transport.fetch := fetch;
  Transport.list_batches := list_batches;
  Transport.get_latest_sequence := get_latest_sequence;
  Transport.get_message := get_message;
|}.
End ops.
Arguments t {_}.
End GcsTransport.

(** ** synddb-validator/src/sync/providers/gcs.rs *)
Module GcsFetcher.
Section ops.
Context `{HX : Hex} `{CR : Crypto} `{CS : Cose} `{CC : !CoseCodec} `{ZS : Zstd}.
Context `{SW : Serde CborBatchWire.t} `{OS : ObjectStore} `{JV : FromJson JsonValue.t}.

(** The fetcher with the store its client talks to. *)
Record t := mk { client : StorageClient.t; store : Store }.

Definition from_config (config : GcsConfig.t) (st : Store) : result AnyError t :=
  let? c := context "Failed to create storage client"
              (StorageClient.new (StorageConfig.Gcs config)) in
  Ok (mk c st).
Definition new (bucket prefix : string) (emulator_host : option string) (st : Store)
    : result AnyError t :=
  let config := GcsConfig.with_prefix prefix (GcsConfig.new bucket) in
  from_config
    (match emulator_host with Some host => GcsConfig.with_emulator_host host config | None => config end) st.

Definition download (h : t) (path : string) : result AnyError (option bytes) :=
  context "Failed to download from GCS" (StorageClient.read (client h) (store h) path).

Definition list_batches (h : t) : result AnyError (list BatchInfo.t) :=
  let prefix := StorageClient.prefix (client h) +:+ "/batches/" in
  let? objects := context "Failed to list batch objects" (StorageClient.list (client h) (store h) prefix) in
  Ok (sort_by_key BatchInfo.start_sequence
        (map (fun '(start, end_, name) => BatchInfo.new start end_ name) (batch_files objects))).

Definition get_batch_by_path (h : t) (path : string) : result AnyError (option SignedBatch.t) :=
  let? data := download h path in
  match data with
  | None => Ok None
  | Some data =>
      let? cbor_batch := context ("Failed to decompress/parse CBOR batch at " +:+ path)
                           (CborBatch.from_cbor_zstd data) in
      let? batch := context ("Failed to convert CBOR batch at " +:+ path) (to_signed_batch cbor_batch) in
      Ok (Some batch)
  end.

(** [list_one] with the digits of the start: whatever object comes first is read. *)
Definition get_batch (h : t) (start_sequence : Z) : result AnyError (option SignedBatch.t) :=
  let prefix := StorageClient.prefix (client h) +:+ "/batches/" +:+ fmt_012 start_sequence +:+ "_" in
  let? obj_info := context "Failed to list batch objects" (StorageClient.list_one (client h) (store h) prefix) in
  match obj_info with
  | Some info => get_batch_by_path h (ObjectInfo.name info)
  | None => Ok None
  end.

Definition find_batch_containing (h : t) (sequence : Z) : result AnyError (option SignedBatch.t) :=
  let? batches := list_batches h in
  match find (fun info => BatchInfo.contains info sequence) batches with
  | Some info => get_batch_by_path h (BatchInfo.path info)
  | None => Ok None
  end.

Definition get (h : t) (sequence : Z) : result AnyError (option SignedMessage.t) :=
  let? batch := find_batch_containing h sequence in
  Ok (batch ← batch; find (fun m => SignedMessage.sequence m =? sequence) (SignedBatch.messages batch)).

Definition get_latest_sequence (h : t) : result AnyError (option Z) :=
  let? batches := list_batches h in
  Ok (Local.iter_max (map BatchInfo.end_sequence batches)).

#[global] Instance fetcher : StorageFetcher t := {|
  supports_batches _ := true;
  fetch_message := get;
  fetch_latest := get_latest_sequence;
  fetch_list := list_batches;
  fetch_batch := get_batch;
  Validator.fetch_batch_by_path := get_batch_by_path;
|}.
End ops.
Arguments t {_}.
End GcsFetcher.
