(* ===== verification/CloudProps.v ===== *)
(** * Properties of the cloud transport and fetcher

    Over a bucket that keeps what is written to it and lists it page by page, the
    sequencer's transport is an append-only log and the validator's fetcher serves
    exactly that log. *)
From Stdlib Require Import Ascii Strings.Byte.
From S2P Require Import Prelude RustStd Batches Extern Net Cose CborBatches SignedTypes.
From S2P Require Import SyncIndex WireProps StateStore Transport TransportProps Inbox Batcher.
From S2P Require Import Validator HttpProps Cloud.

(** ** What the sources rely on of the object store *)

(** Following the tokens from [tok] gives [names], on [n] pages. *)
Inductive Pages (page : option string -> list string * string) : option string -> list string -> nat -> Prop :=
| pages_last tok names : page tok = (names, ""%string) -> Pages page tok names 1
| pages_more tok names next rest n :
    page tok = (names, next) -> next <> ""%string -> Pages page (Some next) rest n ->
    Pages page tok (names ++ rest) (S n).

(** The JSON of a page: [items] is absent when there are none, the token at the end. *)
Definition describes (v : JsonValue.t) (names : list string) (next : string) : Prop :=
  (names = [] /\ JsonValue.get "items" v = None \/
   exists items, JsonValue.get "items" v = Some (JsonValue.Array items) /\
     Forall2 (fun name item => JsonValue.get "name" item = Some (JsonValue.String name)) names items) /\
  (next = ""%string /\ JsonValue.get "nextPageToken" v = None \/
   JsonValue.get "nextPageToken" v = Some (JsonValue.String next)).

(** The bucket as a finite map from names to contents, strongly consistent, listed by
    prefix in pages of which the first is empty only if there is nothing to list. *)
Class ObjectStoreLaws `{ObjectStore} (bucket : string) (objects : Store -> gmap string bytes)
    (page : Store -> string -> option string -> list string * string) : Prop := {
  store_write st path d :
    exists st', write_object st ("projects/_/buckets/" +:+ bucket) path d = (st', Ok tt) /\
      objects st' = <[path := d]> (objects st);
  store_read st path d :
    objects st !! path = Some d ->
    exists chunks, read_object st ("projects/_/buckets/" +:+ bucket) path = Ok (map Ok chunks) /\
      concat chunks = d;
  store_missing st path :
    objects st !! path = None ->
    exists e, read_object st ("projects/_/buckets/" +:+ bucket) path = Err e /\
      contains "404" e = true;
  store_list st prefix tok :
    list_objects st ("projects/_/buckets/" +:+ bucket) prefix tok = Ok (page st prefix tok);
  store_pages st prefix :
    exists names,
      Pages (page st prefix) None names (page_count st ("projects/_/buckets/" +:+ bucket) prefix) /\
      NoDup names /\ forall name, name ∈ names <-> is_Some (objects st !! name) /\ starts_with prefix name = true;
  store_first st prefix name :
    is_Some (objects st !! name) -> starts_with prefix name = true -> fst (page st prefix None) <> [];
}.

(** The REST interface of the emulator at [host] shows the same pages. *)
Class EmulatorLaws `{ObjectStore} `{FromJson JsonValue.t} (bucket host : string)
    (page : Store -> string -> option string -> list string * string) : Prop := {
  rest_page st prefix tok :
    exists status body v,
      rest_get st (host +:+ "/storage/v1/b/" +:+ bucket +:+ "/o?prefix=" +:+ percent_encode prefix
                   +:+ match tok with Some t => "&pageToken=" +:+ percent_encode t | None => "" end)
      = Response status (Ok body) /\ is_success status = true /\ from_slice body = Ok v /\
      describes v (fst (page st prefix tok)) (snd (page st prefix tok));
  rest_first st prefix :
    exists status body v next,
      rest_get st (host +:+ "/storage/v1/b/" +:+ bucket +:+ "/o?prefix=" +:+ percent_encode prefix
                   +:+ "&maxResults=1")
      = Response status (Ok body) /\ is_success status = true /\ from_slice body = Ok v /\
      describes v (take 1 (fst (page st prefix None))) next;
}.

(** ** Strings and sorting *)
Lemma split_char_nonempty c s : split_char c s <> [].
Proof. destruct s as [|a s]; cbn; [done|]. case_decide; [done|]. by destruct (split_char c s). Qed.

Lemma split_char_sep c a b :
  exists w l, split_char c (a +:+ String c b) = w :: l ++ split_char c b.
Proof.
  induction a as [|x a (w & l & IH)].
  - exists ""%string, []. simpl. by rewrite decide_True.
  - rewrite string_app_cons. simpl. rewrite IH.
    case_decide; [by exists ""%string, (w :: l) | by eexists _, _].
Qed.

Lemma rsplit_next_app c a b :
  all_chars (fun x => x <> c) b -> rsplit_next c (a +:+ String c b) = Some b.
Proof.
  intros Hb. unfold rsplit_next. destruct (split_char_sep c a b) as (w & l & ->).
  rewrite split_char_none, app_comm_cons by done. apply last_snoc.
Qed.

Lemma all_chars_app P a b : all_chars P a -> all_chars P b -> all_chars P (a +:+ b).
Proof. intros Ha Hb. induction Ha as [|x s Hx _ IH]; [done|]. rewrite string_app_cons. by constructor. Qed.

Lemma digits_no_slash s : all_chars is_digit s -> all_chars (fun a => a <> "/"%char) s.
Proof. apply all_chars_impl. intros c [d Hd] ->. discriminate Hd. Qed.

Lemma filename_no_slash s e :
  0 <= s -> 0 <= e -> all_chars (fun a => a <> "/"%char) (format_batch_filename s e).
Proof.
  intros Hs He. unfold format_batch_filename.
  repeat apply all_chars_app; try (apply digits_no_slash, fmt_012_digits; lia);
    by repeat constructor.
Qed.

(** ** The storage client *)
Section client.
Context `{OS : ObjectStore} `{JV : FromJson JsonValue.t}.
Context {bucket : string} {objects : Store -> gmap string bytes}.
Context {page : Store -> string -> option string -> list string * string}.
Context {OL : ObjectStoreLaws bucket objects page}.
Implicit Types (c : StorageClient.t) (st : Store).

(** A client of this bucket, of Google's service or of an emulator of it. *)
Definition reaches_store c : Prop :=
  StorageClient.bucket c = bucket /\
  (StorageClient.emulator_client c = true -> exists host,
     StorageConfig.emulator_host (StorageClient.config c) = Some host /\ EmulatorLaws bucket host page).

Lemma page_loop_pages (f : option string -> result StorageError.t (list string * string)) p n tok names :
  Pages p tok names n -> (forall t, f t = Ok (p t)) ->
  forall objs, StorageClient.page_loop n f objs tok = Ok (objs ++ map ObjectInfo.mk names).
Proof.
  intros Hp Hf. induction Hp as [tok names H1|tok names next rest n H1 Hne _ IH]; intros objs;
    cbn [StorageClient.page_loop]; rewrite Hf, H1; cbn [result_bind].
  - by rewrite bool_decide_true.
  - rewrite bool_decide_false, IH by done. by rewrite map_app, app_assoc.
Qed.

Lemma item_names_described v names next :
  describes v names next -> StorageClient.item_names v = names /\
  default ""%string (JsonValue.get "nextPageToken" v ≫= JsonValue.as_str) = next.
Proof.
  intros [Hi Hn]. split.
  - unfold StorageClient.item_names. destruct Hi as [[-> ->]|(items & -> & Hi)]; [done|]. cbn.
    induction Hi as [|name item names items Hx _ IH]; [done|]. cbn. unfold StorageClient.item_name at 1.
    rewrite Hx. cbn. by rewrite IH.
  - by destruct Hn as [[-> ->]| ->].
Qed.

Lemma emulator_page_spec c st host prefix tok :
  StorageClient.bucket c = bucket -> EmulatorLaws bucket host page ->
  StorageClient.emulator_page st host c prefix tok = Ok (page st prefix tok).
Proof.
  intros Hb E. destruct (rest_page (page := page) st prefix tok) as (status & body & v & Hg & Hs & Hj & Hd).
  unfold StorageClient.emulator_page, StorageClient.rest_json, StorageClient.page_url, StorageClient.list_url.
  rewrite Hb, !string_app_assoc, Hg, Hs. cbn [negb]. unfold response_json. cbn [map_err result_bind].
  rewrite Hj. cbn [map_err result_bind]. destruct (item_names_described _ _ _ Hd) as [-> ->].
  by destruct (page st prefix tok).
Qed.

Lemma list_objects_spec c st prefix :
  reaches_store c ->
  exists names, StorageClient.list c st prefix = Ok (map ObjectInfo.mk names) /\ NoDup names /\
    forall name, name ∈ names <-> is_Some (objects st !! name) /\ starts_with prefix name = true.
Proof using OL.
  intros [Hb He]. destruct (store_pages st prefix) as (names & Hp & Hn & Hin). exists names.
  split; [|done]. unfold StorageClient.list, StorageClient.list_emulator, StorageClient.emulator_host.
  unfold StorageClient.bucket_path in *. rewrite Hb. destruct (StorageClient.emulator_client c).
  - destruct (He eq_refl) as (host & -> & E). cbn [result_bind].
    apply (page_loop_pages _ _ _ _ _ Hp). intros t. by apply emulator_page_spec.
  - apply (page_loop_pages _ _ _ _ _ Hp). intros t. by rewrite store_list.
Qed.

Lemma pages_first p n tok names : Pages p tok names n -> fst (p tok) ⊆ names.
Proof. destruct 1 as [? ? ->|? ? ? ? ? -> _ _]; cbn; set_solver. Qed.

Lemma list_one_spec c st prefix :
  reaches_store c ->
  exists o, StorageClient.list_one c st prefix = Ok o /\
    match o with
    | Some info => is_Some (objects st !! ObjectInfo.name info) /\
                   starts_with prefix (ObjectInfo.name info) = true
    | None => forall name, is_Some (objects st !! name) -> starts_with prefix name = false
    end.
Proof using OL.
  intros [Hb He]. set (names := fst (page st prefix None)).
  assert (Hl : StorageClient.list_one c st prefix = Ok (ObjectInfo.mk <$> head names)).
  { unfold StorageClient.list_one, StorageClient.list_one_emulator, StorageClient.emulator_host,
      StorageClient.bucket_path.
    destruct (StorageClient.emulator_client c).
    - destruct (He eq_refl) as (host & -> & E). cbn [result_bind].
      destruct (rest_first (page := page) st prefix) as (status & body & v & next & Hg & Hs & Hj & [Hd _]).
      unfold StorageClient.rest_json, StorageClient.list_url.
      rewrite Hb, !string_app_assoc, Hg, Hs. cbn [negb]. unfold response_json. cbn [map_err result_bind].
      rewrite Hj. cbn [map_err result_bind]. do 2 f_equal. fold names in Hd.
      destruct Hd as [[Hd ->]|(items & -> & Hd)]; cbn; [by destruct names|].
      destruct names as [|x l]; cbn in Hd |- *; [by apply Forall2_nil_inv_l in Hd as ->|].
      apply Forall2_cons_inv_l in Hd as (it & l' & Hit & _ & ->). cbn. unfold StorageClient.item_name.
      by rewrite Hit.
    - rewrite Hb, store_list. unfold names. cbn [StorageClient.list_error map_err result_bind].
      by destruct (page st prefix None). }
  eexists. split; [exact Hl|]. destruct (head names) as [x|] eqn:Eh; cbn.
  - destruct (store_pages st prefix) as (all & Hp & _ & Hin). apply Hin.
    apply (pages_first _ _ _ _ Hp). by apply head_Some_elem_of.
  - intros name Hn. destruct (starts_with prefix name) eqn:E; [|done].
    destruct (store_first st prefix name Hn E). by apply head_None in Eh.
Qed.

Lemma read_chunks_ok chunks : forall data,
  StorageClient.read_chunks (map Ok chunks) data = Ok (data ++ concat chunks).
Proof.
  induction chunks as [|x l IH]; intros data; cbn; [by rewrite app_nil_r|]. by rewrite IH, <- app_assoc.
Qed.

Lemma read_spec c st path :
  reaches_store c -> StorageClient.read c st path = Ok (objects st !! path).
Proof using OL.
  intros [Hb _]. unfold StorageClient.read, StorageClient.bucket_path. rewrite Hb.
  destruct (objects st !! path) as [d|] eqn:E.
  - destruct (store_read st path d E) as (chunks & -> & <-). by rewrite read_chunks_ok.
  - destruct (store_missing st path E) as (e & -> & He). unfold StorageClient.looks_missing. by rewrite He.
Qed.

Lemma write_spec c st path d :
  reaches_store c ->
  exists st', StorageClient.write c st path d = (st', Ok tt) /\ objects st' = <[path := d]> (objects st).
Proof using OL.
  intros [Hb _]. destruct (store_write st path d) as (st' & Hw & Ho). exists st'.
  unfold StorageClient.write, StorageClient.bucket_path. by rewrite Hb, Hw.
Qed.
End client.

(** ** Batch files *)
Definition batches_dir (prefix : string) : string := prefix +:+ "/batches/".
Definition path_of (prefix : string) (b : CborBatch.t) : string :=
  batches_dir prefix +:+ format_batch_filename (CborBatch.start_sequence b) (CborBatch.end_sequence b).
Definition file_of (prefix : string) (b : CborBatch.t) : Z * Z * string :=
  (CborBatch.start_sequence b, CborBatch.end_sequence b, path_of prefix b).

Lemma publishable_u64 b :
  publishable b -> is_u64 (CborBatch.start_sequence b) /\ is_u64 (CborBatch.end_sequence b).
Proof. by intros [(_ & _ & _ & _ & ? & ? & _) _]. Qed.

Lemma rsplit_path prefix s e :
  0 <= s -> 0 <= e ->
  rsplit_next "/" (batches_dir prefix +:+ format_batch_filename s e) = Some (format_batch_filename s e).
Proof.
  intros Hs He. unfold batches_dir. change "/batches/" with ("/batches" +:+ "/")%string.
  rewrite <- !string_app_assoc, string_app_assoc. apply rsplit_next_app, filename_no_slash; done.
Qed.

Lemma batch_files_paths prefix bs :
  Forall publishable bs -> batch_files (map ObjectInfo.mk (map (path_of prefix) bs)) = map (file_of prefix) bs.
Proof.
  induction 1 as [|b bs Hb _ IH]; [done|]. destruct (publishable_u64 b Hb) as [Hs He].
  assert (Hr : rsplit_next "/" (path_of prefix b)
               = Some (format_batch_filename (CborBatch.start_sequence b) (CborBatch.end_sequence b)))
    by (apply rsplit_path; unfold is_u64 in *; lia).
  unfold batch_files in *. cbn. unfold rsplit_next in Hr at 1. rewrite Hr. cbn. rewrite batch_filename_roundtrip by done.
  cbn. by f_equal.
Qed.

Lemma path_of_inj prefix a b :
  publishable a -> publishable b -> path_of prefix a = path_of prefix b ->
  CborBatch.start_sequence a = CborBatch.start_sequence b /\ CborBatch.end_sequence a = CborBatch.end_sequence b.
Proof.
  intros Ha Hb Hp. destruct (publishable_u64 a Ha) as [Hsa Hea], (publishable_u64 b Hb) as [Hsb Heb].
  apply (f_equal (rsplit_next "/")) in Hp. unfold path_of in Hp.
  rewrite !rsplit_path in Hp by (unfold is_u64 in *; lia). injection Hp as Hp.
  apply (f_equal parse_batch_filename) in Hp. rewrite !batch_filename_roundtrip in Hp by done.
  by injection Hp.
Qed.

Lemma path_of_log_inj prefix bs a b :
  wf_log bs -> a ∈ bs -> b ∈ bs -> path_of prefix a = path_of prefix b -> a = b.
Proof.
  intros Hwf Ha Hb Hp. pose proof Hwf as [Hpub _]. rewrite Forall_forall in Hpub.
  destruct (path_of_inj prefix a b) as [Hs He]; auto.
  destruct (Hpub _ Ha) as [_ Hra], (Hpub _ Hb) as [_ Hrb].
  eapply (wf_log_unique bs (CborBatch.start_sequence a)); [done..| |];
    unfold batch_contains; apply andb_true_iff; split; apply Z.leb_le; lia.
Qed.

Lemma starts_with_spec p s : starts_with p s = true <-> exists r, s = p +:+ r.
Proof.
  split; [|intros [r ->]; apply starts_with_app]. unfold starts_with. revert s.
  induction p as [|x p IH]; intros s; [by exists s|]. destruct s as [|y s]; simpl; [done|].
  case_decide; [|done]. subst. intros H. destruct (IH s H) as [r ->]. by exists r.
Qed.

(** The name prefix of a start number selects the batch with that start. *)
Lemma starts_with_start prefix s b :
  is_u64 s -> publishable b ->
  starts_with (prefix +:+ "/batches/" +:+ fmt_012 s +:+ "_") (path_of prefix b) = true ->
  CborBatch.start_sequence b = s.
Proof.
  intros Hs Hb Hw. destruct (publishable_u64 b Hb) as [Hsb _].
  apply starts_with_spec in Hw as [r Hp].
  unfold path_of, batches_dir, format_batch_filename in Hp.
  rewrite !string_app_assoc in Hp.
  apply (inj (String.append _)), (inj (String.append _)) in Hp.
  apply (f_equal (fun x => head (split_char "_" x))) in Hp.
  change ("_" +:+ ?x) with (String "_" x) in Hp.
  rewrite !split_char_app in Hp by (apply digits_no_underscore, fmt_012_digits; unfold is_u64 in *; lia).
  injection Hp as Hp. apply (f_equal parse_u64) in Hp. rewrite !parse_fmt_012 in Hp by done.
  by injection Hp.
Qed.

(** ** The log in a bucket *)
Section cloud_log.
Context `{HX : Hex} `{CR : Crypto} `{SG : !Signer} `{CS : Cose} `{CC : !CoseCodec} `{ZS : Zstd}.
Context `{SW : Serde CborBatchWire.t} `{OS : ObjectStore} `{JV : FromJson JsonValue.t}.
Context {ZL : ZstdLaws} {SL : SerdeLaws CborBatchWire.t CborBatchWire.valid}.
Context {bucket : string} {objects : Store -> gmap string bytes}.
Context {page : Store -> string -> option string -> list string * string}.
Context {OL : ObjectStoreLaws bucket objects page}.
Implicit Types (c : StorageClient.t) (st : Store) (tr : GcsTransport.t) (h : GcsFetcher.t).

(** Under the prefix the bucket holds one file per batch of [bs] and nothing else;
    elsewhere it may hold anything. *)
Definition bucket_log (prefix : string) st (bs : list CborBatch.t) : Prop :=
  wf_log bs /\
  (forall b, b ∈ bs -> exists d, objects st !! path_of prefix b = Some d /\ CborBatch.from_cbor_zstd d = Ok b) /\
  (forall name, is_Some (objects st !! name) -> starts_with (batches_dir prefix) name = true ->
     exists b, b ∈ bs /\ name = path_of prefix b).

Lemma log_files c st bs :
  reaches_store (page := page) (bucket := bucket) c -> bucket_log (StorageClient.prefix c) st bs ->
  exists objs, StorageClient.list c st (batches_dir (StorageClient.prefix c)) = Ok objs /\
    batch_files objs ≡ₚ map (file_of (StorageClient.prefix c)) bs.
Proof using OL.
  intros Hc (Hwf & Hin & Hout). set (p := StorageClient.prefix c) in *.
  destruct (list_objects_spec (OL := OL) c st (batches_dir p) Hc) as (names & Hl & Hn & Hnames).
  exists (map ObjectInfo.mk names). split; [done|]. rewrite <- batch_files_paths by apply Hwf.
  apply omap_Permutation, Permutation_map. apply NoDup_Permutation; [done| |].
  - apply NoDup_fmap_2_strong; [intros; by eapply path_of_log_inj|].
    destruct Hwf as [Hp Hs]. clear -Hp Hs. induction Hs as [|b bs _ IH Hf]; constructor;
      apply Forall_cons in Hp as [[_ Hb] Hp]; auto.
    intros Hin. rewrite Forall_forall in Hf. specialize (Hf _ Hin). unfold before in Hf. lia.
  - intros name. rewrite Hnames, list_elem_of_fmap. split.
    + intros [Hs Hw]. destruct (Hout name Hs Hw) as (b & Hb & ->). eauto.
    + intros (b & -> & Hb). destruct (Hin b Hb) as (d & Hd & _). rewrite Hd. split; [done|].
      apply starts_with_app.
Qed.

Lemma files_sorted prefix bs :
  wf_log bs ->
  StronglySorted (fun x y => (fun '(s, _, _) => s) x < (fun '(s, _, _) => s) y) (map (file_of prefix) bs).
Proof.
  intros [Hp Hs]. induction Hs as [|b bs _ IH Hf]; constructor; apply Forall_cons in Hp as [[_ Hb] Hp]; auto.
  apply Forall_fmap. eapply Forall_impl; [exact Hf|]. unfold before. cbn. lia.
Qed.

(** *** The transport *)
Definition cloud_log c tr (bs : list CborBatch.t) : Prop :=
  GcsTransport.client tr = c /\ bucket_log (StorageClient.prefix c) (GcsTransport.store tr) bs.

Lemma list_batch_files_log c tr bs :
  reaches_store (page := page) (bucket := bucket) c -> cloud_log c tr bs ->
  GcsTransport.list_batch_files tr = Ok (map (file_of (StorageClient.prefix c)) bs).
Proof using OL.
  intros Hc [<- Hlog]. destruct (log_files _ _ _ Hc Hlog) as (objs & Hl & Hp).
  unfold GcsTransport.list_batch_files. unfold batches_dir in Hl. rewrite Hl. cbn.
  f_equal. apply sort_by_key_unique; [done|]. apply files_sorted, Hlog.
Qed.

Lemma download_log c tr bs b :
  reaches_store (page := page) (bucket := bucket) c -> cloud_log c tr bs -> b ∈ bs ->
  exists d, GcsTransport.download tr (path_of (StorageClient.prefix c) b) = Ok (Some d) /\
    CborBatch.from_cbor_zstd d = Ok b.
Proof using OL.
  intros Hc [<- (_ & Hin & _)] Hb. destruct (Hin b Hb) as (d & Hd & Hdb). exists d. split; [|done].
  unfold GcsTransport.download. by rewrite (read_spec (OL := OL)), Hd.
Qed.

Lemma find_file (f : Z * Z * string -> bool) prefix bs :
  snd <$> find f (map (file_of prefix) bs) = path_of prefix <$> find (fun b => f (file_of prefix b)) bs.
Proof. induction bs as [|b bs IH]; [done|]. cbn. by destruct (f _). Qed.

Lemma publish_cloud c tr bs b :
  reaches_store (page := page) (bucket := bucket) c ->
  cloud_log c tr bs -> publishable b -> Forall (fun a => before a b) bs ->
  exists tr' md, GcsTransport.publish tr b = (tr', Ok md) /\ cloud_log c tr' (bs ++ [b]) /\
    PublishMetadata.content_hash md = CborBatch.content_hash b.
Proof using ZL SL OL.
  intros Hc [Htr (Hwf & Hin & Hout)] Hb Hbef. pose proof Hb as [Hbwf _].
  destruct (stored_roundtrip b Hbwf) as (u & z & Hu & Hz & Hd).
  pose proof (wf_log_snoc bs b Hwf Hb Hbef) as Hwf'. set (p := StorageClient.prefix c) in *.
  destruct (write_spec (OL := OL) c (GcsTransport.store tr) (path_of p b) z Hc) as (st' & Hw & Ho).
  eexists (GcsTransport.mk c st'), (PublishMetadata.mk _ (CborBatch.content_hash b) _ _).
  split; [|split]; [| |reflexivity].
  - unfold GcsTransport.publish, transport_of_cbor, GcsTransport.upload, GcsTransport.batch_path.
    rewrite Hu, Hz, Htr. cbn [map_err]. fold p. unfold path_of, batches_dir in Hw.
    rewrite string_app_assoc in Hw. rewrite Hw. cbn. reflexivity.
  - split; [done|]. split; [done|]. cbn [GcsTransport.store]. rewrite Ho. split.
    + intros a [Ha|Ha%list_elem_of_singleton]%elem_of_app; [|subst a; rewrite lookup_insert_eq; eauto].
      rewrite lookup_insert_ne; [by apply Hin|]. intros Heq.
      assert (b = a) as -> by (eapply (path_of_log_inj p); [exact Hwf'|set_solver..|done]).
      rewrite Forall_forall in Hbef. specialize (Hbef _ Ha). destruct Hb as [_ Hr]. unfold before in Hbef. lia.
    + intros name Hs Hw'. destruct (decide (name = path_of p b)) as [->|Hne]; [exists b; set_solver|].
      rewrite lookup_insert_ne in Hs by done. destruct (Hout name Hs Hw') as (a & Ha & ->).
      exists a. set_solver.
Qed.

(** The transport of a client of this bucket keeps the promise of [TransportLaws]. *)
Lemma cloud_transport_laws c :
  reaches_store (page := page) (bucket := bucket) c -> TransportLaws GcsTransport.t (cloud_log c).
Proof using ZL SL OL.
  intros Hc. constructor.
  - by intros tr bs [_ [? _]].
  - intros tr bs b. by apply publish_cloud.
  - intros tr bs s Hlog. cbn. unfold GcsTransport.fetch. rewrite (list_batch_files_log c tr bs) by done.
    cbn [result_bind]. rewrite find_file. cbn [file_of].
    destruct (find _ bs) as [b|] eqn:E; [|done]. apply find_some in E as [Hin%list_elem_of_In _].
    destruct (download_log c tr bs b Hc Hlog Hin) as (d & Hd & Hdb). cbn [fmap option_fmap option_map].
    rewrite Hd. cbn [result_bind]. by rewrite Hdb.
  - intros tr bs Hlog. cbn. unfold GcsTransport.list_batches. rewrite (list_batch_files_log c tr bs) by done.
    eexists. split; [reflexivity|]. rewrite map_map. apply Forall2_fmap_r, Forall_Forall2_diag, Forall_forall.
    done.
  - intros tr bs Hlog. cbn. unfold GcsTransport.get_latest_sequence.
    rewrite (list_batch_files_log c tr bs) by done. cbn [result_bind]. rewrite map_map. cbn.
    f_equal. apply iter_max_log. apply Hlog.
  - intros tr bs s Hlog. cbn. unfold GcsTransport.get_message, GcsTransport.find_batch_containing.
    rewrite (list_batch_files_log c tr bs) by done. cbn [result_bind]. rewrite find_file. cbn [file_of].
    unfold batch_contains. destruct (find _ bs) as [b|] eqn:E; [|done].
    apply find_some in E as [Hin%list_elem_of_In _].
    destruct (download_log c tr bs b Hc Hlog Hin) as (d & Hd & Hdb). cbn [fmap option_fmap option_map].
    rewrite Hd. cbn [result_bind]. by rewrite Hdb.
Qed.

(** *** The fetcher *)

(** A fetcher of this bucket and prefix, reading the store [st]. *)
Definition reads_bucket h (prefix : string) st : Prop :=
  reaches_store (page := page) (bucket := bucket) (GcsFetcher.client h) /\
  StorageClient.prefix (GcsFetcher.client h) = prefix /\ GcsFetcher.store h = st.

Definition cloud_info (prefix : string) (b : CborBatch.t) : BatchInfo.t :=
  BatchInfo.new (CborBatch.start_sequence b) (CborBatch.end_sequence b) (path_of prefix b).

Lemma cloud_list h prefix st bs :
  reads_bucket h prefix st -> bucket_log prefix st bs -> fetch_list h = Ok (map (cloud_info prefix) bs).
Proof using OL.
  intros (Hc & Hp & Hs) Hlog. rewrite <- Hp, <- Hs in *.
  destruct (log_files _ _ _ Hc Hlog) as (objs & Hl & Hperm).
  cbn [fetch_list GcsFetcher.fetcher]. unfold GcsFetcher.list_batches, context.
  unfold batches_dir in Hl. rewrite Hl. cbn [map_err result_bind]. f_equal. apply sort_by_key_unique.
  - rewrite Hperm, map_map. done.
  - destruct Hlog as [[Hpub Hsort] _]. clear -Hpub Hsort.
    induction Hsort as [|b bs _ IH Hf]; constructor; apply Forall_cons in Hpub as [[_ Hb] Hpub]; auto.
    apply Forall_fmap. eapply Forall_impl; [exact Hf|]. unfold before. cbn. lia.
Qed.

Lemma cloud_batch_by_path h prefix st bs b sb :
  reads_bucket h prefix st -> bucket_log prefix st bs -> b ∈ bs -> to_signed_batch b = Ok sb ->
  fetch_batch_by_path h (path_of prefix b) = Ok (Some sb).
Proof using OL.
  intros (Hc & Hp & Hs) (_ & Hin & _) Hb Hsb. destruct (Hin b Hb) as (d & Hd & Hdb).
  cbn [fetch_batch_by_path GcsFetcher.fetcher]. unfold GcsFetcher.get_batch_by_path, GcsFetcher.download.
  rewrite Hs, (read_spec (OL := OL)), Hd by done. cbn [context map_err result_bind].
  rewrite Hdb. cbn [context map_err result_bind]. by rewrite Hsb.
Qed.

Lemma cloud_latest h prefix st bs :
  reads_bucket h prefix st -> bucket_log prefix st bs ->
  fetch_latest h = Ok (CborBatch.end_sequence <$> last bs).
Proof using OL.
  intros Hr Hlog. cbn [fetch_latest GcsFetcher.fetcher]. unfold GcsFetcher.get_latest_sequence.
  pose proof (cloud_list h prefix st bs Hr Hlog) as Hl. cbn [fetch_list GcsFetcher.fetcher] in Hl.
  rewrite Hl. cbn [result_bind]. rewrite map_map. cbn. f_equal. apply iter_max_log, Hlog.
Qed.

Lemma cloud_batch h prefix st bs s :
  reads_bucket h prefix st -> bucket_log prefix st bs -> is_u64 s ->
  fetch_batch h s = match find (fun b => CborBatch.start_sequence b =? s) bs with
                    | Some b => fetch_batch_by_path h (path_of prefix b)
                    | None => Ok None
                    end.
Proof using OL.
  intros (Hc & Hp & Hs) (Hwf & Hin & Hout) Hu. pose proof Hwf as [Hpub _]. rewrite Forall_forall in Hpub.
  cbn [fetch_batch fetch_batch_by_path GcsFetcher.fetcher]. unfold GcsFetcher.get_batch. rewrite Hp, Hs.
  set (q := prefix +:+ "/batches/" +:+ fmt_012 s +:+ "_").
  assert (Hq : forall b, b ∈ bs -> starts_with q (path_of prefix b) = true <-> CborBatch.start_sequence b = s).
  { intros b Hb. split; [by apply starts_with_start; auto|]. intros <-. apply starts_with_spec.
    eexists. unfold q, path_of, batches_dir, format_batch_filename. by rewrite !string_app_assoc. }
  destruct (list_one_spec (OL := OL) (GcsFetcher.client h) st q Hc) as (o & -> & Ho).
  cbn [context map_err result_bind]. destruct o as [[name]|]; cbn [ObjectInfo.name] in *.
  - destruct Ho as [Hsome Hw]. destruct (Hout name Hsome) as (b & Hb & ->).
    { apply starts_with_spec in Hw as [r ->]. apply starts_with_spec. eexists. unfold q, batches_dir.
      by rewrite !string_app_assoc. }
    apply (Hq b Hb) in Hw as <-. by rewrite find_start.
  - destruct (find _ bs) as [b|] eqn:E; [|done]. apply find_some in E as [Hb%list_elem_of_In Hs'].
    apply Z.eqb_eq, (Hq b Hb) in Hs'. destruct (Hin b Hb) as (d & Hd & _).
    by rewrite (Ho (path_of prefix b)) in Hs' by (by rewrite Hd).
Qed.

Lemma cloud_message h prefix st bs vk sms s :
  reads_bucket h prefix st -> bucket_log prefix st bs -> Forall range_ok bs -> Forall (converts vk) bs ->
  good_messages vk (published bs) -> Forall2 (message_ok vk) (published bs) sms ->
  fetch_message h s = Ok (find (fun sm => SignedMessage.sequence sm =? s) sms).
Proof using OL.
  intros Hr Hlog Hrange Hcv [_ Hsorted] Hms. pose proof Hlog as [[Hpub _] _].
  rewrite <- (find_signed_ok vk s _ _ Hms), find_signed_published by done.
  pose proof (cloud_list h prefix st bs Hr Hlog) as Hl. cbn [fetch_list GcsFetcher.fetcher] in Hl.
  cbn [fetch_message GcsFetcher.fetcher]. unfold GcsFetcher.get, GcsFetcher.find_batch_containing.
  rewrite Hl. cbn [result_bind].
  assert (Hf : find (fun info => BatchInfo.contains info s) (map (cloud_info prefix) bs)
               = cloud_info prefix <$> find (batch_contains s) bs).
  { clear. induction bs as [|b bs IH]; [done|]. cbn. change (BatchInfo.contains (cloud_info prefix b) s)
      with (batch_contains s b). by destruct (batch_contains s b). }
  rewrite Hf. destruct (find (batch_contains s) bs) as [b|] eqn:E; [|done].
  apply find_some in E as [Hb%list_elem_of_In _].
  rewrite Forall_forall in Hcv. destruct (Hcv _ Hb) as (msgs & Hm & Hto & _).
  pose proof (cloud_batch_by_path h prefix st bs b _ Hr Hlog Hb Hto) as Hg.
  cbn [fetch_batch_by_path GcsFetcher.fetcher] in Hg. cbn [fmap option_fmap option_map cloud_info BatchInfo.path BatchInfo.new].
  rewrite Hg. cbn [result_bind mbind option_bind signed_batch_of SignedBatch.messages].
  by rewrite (find_signed_ok vk s _ _ Hm).
Qed.

(** C13. Through a bucket the validator sees exactly the sequencer's log: publishing
    in-order, disjoint batches with the cloud transport into an empty directory of a
    bucket succeeds, and then any fetcher of the same bucket and prefix, over Google's
    client or over an emulator's REST interface, lists exactly these batches in order,
    gives the last end as latest number, each batch by its path and by its start (and
    "not found" for every other start), and each message by its number. *)
Theorem cloud_storage_serves_log c h tr bs vk sms :
  reaches_store (page := page) (bucket := bucket) c -> GcsTransport.client tr = c ->
  bucket_log (StorageClient.prefix c) (GcsTransport.store tr) [] ->
  wf_log bs -> Forall range_ok bs -> Forall (converts vk) bs ->
  good_messages vk (published bs) -> Forall2 (message_ok vk) (published bs) sms ->
  exists tr', publish_all tr bs = (tr', Ok tt) /\
    (reads_bucket h (StorageClient.prefix c) (GcsTransport.store tr') ->
     fetch_list h = Ok (map (cloud_info (StorageClient.prefix c)) bs) /\
     wf_listing (map (cloud_info (StorageClient.prefix c)) bs) /\
     fetch_latest h = Ok (CborBatch.end_sequence <$> last bs) /\
     (forall b, b ∈ bs -> exists msgs, Forall2 (message_ok vk) (CborBatch.messages b) msgs /\
        fetch_batch_by_path h (path_of (StorageClient.prefix c) b) = Ok (Some (signed_batch_of b msgs)) /\
        fetch_batch h (CborBatch.start_sequence b) = Ok (Some (signed_batch_of b msgs))) /\
     (forall s, is_u64 s -> Forall (fun b => CborBatch.start_sequence b <> s) bs -> fetch_batch h s = Ok None) /\
     (forall s, fetch_message h s = Ok (find (fun sm => SignedMessage.sequence sm =? s) sms))).
Proof using ZL SL OL.
  intros Hc Htr Hempty Hwf Hr Hcv Hg Hms. set (p := StorageClient.prefix c) in *.
  destruct (publish_all_log (L := cloud_transport_laws c Hc) tr [] bs) as (tr' & Hpub & Hcl & Hlog);
    [by split | done |].
  exists tr'. split; [done|]. intros Hh. cbn [app] in Hlog. fold p in Hlog.
  split_and!; [by eapply cloud_list | | by eapply cloud_latest | | | intros; by eapply cloud_message].
  - by apply listing_wf.
  - intros b Hb. rewrite Forall_forall in Hcv. destruct (Hcv _ Hb) as (msgs & Hm & Hto & _). exists msgs.
    pose proof (cloud_batch_by_path h p _ bs b _ Hh Hlog Hb Hto) as Hpath. split_and!; [done..|].
    pose proof Hwf as [Hpb _]. rewrite Forall_forall in Hpb. destruct (publishable_u64 b (Hpb _ Hb)) as [Hs _].
    rewrite (cloud_batch h p _ bs) by done. by rewrite (find_start bs b).
  - intros s Hs Hnone. rewrite (cloud_batch h p _ bs) by done.
    destruct (find _ bs) as [b|] eqn:E; [|done]. apply find_some in E as [Hb%list_elem_of_In Heq].
    rewrite Forall_forall in Hnone. destruct (Hnone b Hb). by apply Z.eqb_eq.
Qed.

(** Not every failure is reported: an error whose text contains the digits 404, as one
    that names the file of a batch with 404 in a number does, is taken for a missing
    object, and the listed batch for one that does not exist. *)
Lemma failed_read_taken_for_missing h path e :
  read_object (GcsFetcher.store h) (StorageClient.bucket_path (GcsFetcher.client h)) path = Err e ->
  contains "404" e = true -> fetch_batch_by_path h path = Ok None.
Proof.
  intros He H4. cbn [fetch_batch_by_path GcsFetcher.fetcher].
  unfold GcsFetcher.get_batch_by_path, GcsFetcher.download, StorageClient.read, StorageClient.looks_missing.
  by rewrite He, H4.
Qed.
End cloud_log.
