(* ===== verification/RefStorage.v ===== *)
(** * Executable instances of the validator's third-party interfaces

    A toy SQLite session (the database is the list of the applied changesets, the
    inverse of a changeset is the changeset behind a zero byte), codecs for the
    payloads and JSON bodies, and an HTTP client wired to the routes of a local
    transport that fails a given number of times first.  The laws the theorems
    assume are proved for them. *)
From Stdlib Require Import Ascii Strings.String Strings.Byte.
From S2P Require Import Prelude RustStd BTree Batches Extern Reference Cose CborBatches.
From S2P Require Import SignedTypes SyncIndex WireProps Transport TransportProps StateStore.
From S2P Require Import Applier AuditTrail Validator Net HttpFetcher HttpProps.

(** ** SQLite sessions *)
Definition toy_apply (db : list bytes) (c : bytes) (_ : ConflictType -> ConflictAction)
  : result string (list bytes) :=
  match c with
  | x00 :: c' =>
      if bool_decide (last db = Some c') then Ok (removelast db) else Err "callback requested query abort"
  | _ => Ok (db ++ [c])
  end.
Definition toy_invert (c : bytes) : result string bytes :=
  match c with
  | x00 :: x00 :: _ => Err "database disk image is malformed"
  | x00 :: c' => Ok c'
  | _ => Ok (x00 :: c)
  end.

#[export] Instance ref_session : Session := {|
  Db := list bytes;
  start_strm _ := Ok [Item (Ok ("accounts", 2))];
  table_info _ _ := Some 2;
  apply_strm := toy_apply;
  invert_strm := toy_invert;
  begin_tx _ := Ok tt;
  commit_tx _ := Ok tt;
  restore_backup _ b := Ok [b];
  set_pragmas _ := Ok tt;
|}.

Lemma removelast_last {A} (l : list A) x : last l = Some x -> removelast l ++ [x] = l.
Proof. intros Hl. apply last_Some in Hl as [l' ->]. by rewrite removelast_last. Qed.

Lemma toy_apply_plain db c h : head c <> Some x00 -> toy_apply db c h = Ok (db ++ [c]).
Proof. destruct c as [|[] c]; done. Qed.
Lemma toy_invert_plain c : head c <> Some x00 -> toy_invert c = Ok (x00 :: c).
Proof. destruct c as [|[] c]; done. Qed.
Lemma toy_invert_zero c : head c <> Some x00 -> toy_invert (x00 :: c) = Ok c.
Proof. destruct c as [|[] c]; done. Qed.

#[export] Instance ref_session_laws : SessionLaws (fun _ => True).
Proof.
  constructor; [done|done|]. intros db db' c inv _ _ Hi Ha. cbn [invert_strm apply_strm ref_session] in *.
  destruct (decide (head c = Some x00)) as [Hz|Hz].
  - destruct c as [|x c]; [done|]. injection Hz as ->.
    destruct (decide (head c = Some x00)) as [Hz'|Hz'].
    + destruct c as [|y c]; [done|]. injection Hz' as ->. done.
    + rewrite toy_invert_zero in Hi by done. apply Ok_inj in Hi as <-.
      rewrite toy_apply_plain in Ha by done. apply Ok_inj in Ha as <-. cbn.
      rewrite last_snoc, bool_decide_true by done. f_equal. apply List.removelast_last.
  - rewrite toy_invert_plain in Hi by done. apply Ok_inj in Hi as <-. cbn in Ha.
    case_bool_decide as Hl; [|done]. apply Ok_inj in Ha as <-.
    rewrite toy_apply_plain by done. by rewrite removelast_last.
Qed.

(** ** Payload codecs *)
Definition option_codec {A} (c : codec A) : codec (option A) :=
  iso_codec (sum_codec countable_codec c)
    (fun o => match o with Some a => inr a | None => inl tt end)
    (fun s => match s with inr a => Some (Some a) | inl _ => Some None end)
    ltac:(by intros [a|]).

Definition codec_ser {A} (c : codec A) (a : A) : result string bytes := Ok (enc c a).
Definition codec_de {A} (c : codec A) (b : bytes) : result string A :=
  match dec c b with Some (a, []) => Ok a | _ => Err "invalid data" end.

Definition changeset_codec : codec ChangesetData.t :=
  iso_codec (pair_codec bytes_codec (pair_codec Z_codec Z_codec))
    (fun c => (ChangesetData.data c, (ChangesetData.sequence c, ChangesetData.timestamp c)))
    (fun '(d, (s, t)) => Some (ChangesetData.mk d s t)) ltac:(by intros []).
Definition changeset_batch_codec : codec ChangesetBatchRequest.t :=
  iso_codec (pair_codec string_codec (pair_codec (list_codec changeset_codec) (option_codec string_codec)))
    (fun r => (ChangesetBatchRequest.batch_id r,
               (ChangesetBatchRequest.changesets r, ChangesetBatchRequest.attestation_token r)))
    (fun '(b, (c, a)) => Some (ChangesetBatchRequest.mk b c a)) ltac:(by intros []).
Definition withdrawal_codec : codec WithdrawalRequest.t :=
  iso_codec (pair_codec string_codec (pair_codec string_codec (pair_codec string_codec bytes_codec)))
    (fun r => (WithdrawalRequest.request_id r, (WithdrawalRequest.recipient r,
               (WithdrawalRequest.amount r, WithdrawalRequest.data r))))
    (fun '(i, (r, (a, d))) => Some (WithdrawalRequest.mk i r a d)) ltac:(by intros []).
Definition snapshot_codec : codec SnapshotRequest.t :=
  iso_codec (pair_codec (pair_codec bytes_codec (pair_codec Z_codec Z_codec))
               (pair_codec string_codec (option_codec string_codec)))
    (fun r => ((SnapshotData.data (SnapshotRequest.snapshot r), (SnapshotData.timestamp (SnapshotRequest.snapshot r),
                 SnapshotData.sequence (SnapshotRequest.snapshot r))),
               (SnapshotRequest.message_id r, SnapshotRequest.attestation_token r)))
    (fun '((d, (t, s)), (m, a)) => Some (SnapshotRequest.mk (SnapshotData.mk d t s) m a))
    ltac:(by intros [[] ? ?]).

#[export] Instance ref_changesets : Serde ChangesetBatchRequest.t :=
  {| ser := codec_ser changeset_batch_codec; de := codec_de changeset_batch_codec |}.
#[export] Instance ref_withdrawal : Serde WithdrawalRequest.t :=
  {| ser := codec_ser withdrawal_codec; de := codec_de withdrawal_codec |}.
#[export] Instance ref_snapshot : Serde SnapshotRequest.t :=
  {| ser := codec_ser snapshot_codec; de := codec_de snapshot_codec |}.

Lemma codec_de_ser {A} (c : codec A) a : codec_de c (enc c a) = Ok a.
Proof. unfold codec_de. by rewrite dec_enc_nil. Qed.

(** ** JSON bodies *)
Definition type_code (t : MessageType.t) : Z :=
  match t with MessageType.Changeset => 0 | MessageType.Withdrawal => 1 | MessageType.Snapshot => 2 end.
Definition code_type (n : Z) : option MessageType.t :=
  match n with
  | 0 => Some MessageType.Changeset
  | 1 => Some MessageType.Withdrawal
  | 2 => Some MessageType.Snapshot
  | _ => None
  end.
Definition type_codec : codec MessageType.t := iso_codec Z_codec type_code code_type ltac:(by intros []).

Definition message_codec : codec SignedMessage.t :=
  iso_codec (pair_codec Z_codec (pair_codec Z_codec (pair_codec type_codec (pair_codec bytes_codec
              (pair_codec string_codec (pair_codec string_codec (pair_codec string_codec bytes_codec)))))))
    (fun m => (SignedMessage.sequence m, (SignedMessage.timestamp m, (SignedMessage.message_type m,
               (SignedMessage.payload m, (SignedMessage.message_hash m, (SignedMessage.signature m,
               (SignedMessage.signer m, SignedMessage.cose_protected_header m))))))))
    (fun '(s, (t, (ty, (p, (h, (g, (k, c))))))) => Some (SignedMessage.mk s t ty p h g k c))
    ltac:(by intros []).
Definition info_codec : codec BatchInfoResponse.t :=
  iso_codec (pair_codec Z_codec Z_codec)
    (fun r => (BatchInfoResponse.start_sequence r, BatchInfoResponse.end_sequence r))
    (fun '(s, e) => Some (BatchInfoResponse.mk s e)) ltac:(by intros []).
Definition latest_codec : codec LatestSequenceResponse.t :=
  iso_codec (option_codec Z_codec) LatestSequenceResponse.sequence
    (fun o => Some (LatestSequenceResponse.mk o)) ltac:(by intros []).

Definition codec_json {A} (c : codec A) : Json A := {| to_json := enc c; from_json := codec_de c |}.
#[export] Instance ref_json_message : Json SignedMessage.t := codec_json message_codec.
#[export] Instance ref_json_latest : Json LatestSequenceResponse.t := codec_json latest_codec.
#[export] Instance ref_json_batches : Json (list BatchInfoResponse.t) := codec_json (list_codec info_codec).

#[export] Instance ref_json_message_laws : JsonLaws SignedMessage.t message_valid.
Proof. intros a _. apply codec_de_ser. Qed.
#[export] Instance ref_json_latest_laws :
  JsonLaws LatestSequenceResponse.t (fun r => forall n, LatestSequenceResponse.sequence r = Some n -> is_u64 n).
Proof. intros a _. apply codec_de_ser. Qed.
#[export] Instance ref_json_batches_laws : JsonLaws (list BatchInfoResponse.t) (Forall BatchInfoResponse.valid).
Proof. intros a _. apply codec_de_ser. Qed.

(** ** An HTTP client in front of a transport *)
Definition ref_host : string := "http://sequencer:8433".
Definition timed_out : NetError.t := NetError.mk "operation timed out" true false false.

(** The first [fails] attempts of every operation time out. *)
Definition ref_get (c : Local.t * nat) (url : string) (attempt : nat) : SendOutcome :=
  if (attempt <? snd c)%nat then SendError timed_out
  else
    match strip_prefix ref_host url with
    | Some path =>
        match routes (fst c) path with
        | Some (Ok (status, body)) => Response status (Ok body)
        | Some _ => SendError (NetError.mk "connection closed" false false true)
        | None => Response 404 (Ok [])
        end
    | None => SendError (NetError.mk "dns error" false true false)
    end.

#[export] Instance ref_http : HttpClient := {|
  Client := (Local.t * nat)%type;
  client_get := ref_get;
  status_to_string := int_to_string;
  decode_text b := string_of_list_ascii (map ascii_of_byte b);
|}.

Definition ref_fetcher (tr : Local.t) (fails : nat) : HttpFetcher.t :=
  HttpFetcher.new "http://sequencer:8433/" (tr, fails).

Lemma ref_serves tr fails : (fails <= 3)%nat -> serves (ref_fetcher tr fails) tr.
Proof.
  intros Hf path answer Hr. exists fails. split; [exact Hf|].
  change (HttpFetcher.base_url (ref_fetcher tr fails)) with ref_host.
  cbn [HttpFetcher.client ref_fetcher HttpFetcher.new HttpFetcher.with_config client_get ref_http].
  unfold ref_get. cbn [fst snd]. split.
  - intros i Hi. rewrite (proj2 (Nat.ltb_lt _ _)) by done. eauto.
  - rewrite (proj2 (Nat.ltb_ge _ _)) by done. rewrite strip_prefix_app, Hr. by destruct answer.
Qed.
