(* ===== verification/Pipeline.v ===== *)
(** * The whole pipeline: from requests to the replica

    Requests are numbered and signed by the inbox (sequencer/src/inbox.rs), added to
    the batcher (batcher.rs), published to a transport, fetched, verified and applied
    by the validator (validator.rs): over HTTP from the local transport
    (transport/local.rs, sync/providers/http.rs) and through a cloud bucket
    (transport/gcs.rs, sync/providers/gcs.rs). *)
From Stdlib Require Import Ascii Strings.Byte.
From S2P Require Import Prelude RustStd BTree Batches Extern Reference Cose CborBatches.
From S2P Require Import SignedTypes SyncIndex Inbox InboxProps WireProps Transport.
From S2P Require Import TransportProps Batcher BatcherProps StateStore Applier AuditTrail.
From S2P Require Import Validator ValidatorProps Replay Net HttpFetcher HttpProps Cloud CloudProps.

(** ** Sequencing a list of requests, one call after the other *)
Module Request.
Record t := mk { now : Z; message_type : CborMessageType; payload : bytes }.
End Request.

Section sequencing.
Context `{HX : Hex} `{CR : Crypto} `{SG : !Signer} `{CS : Cose} `{CC : !CoseCodec} `{ZS : Zstd}.

(** The messages of the calls that succeed. *)
Fixpoint sequence_all (ib : Inbox.t) (rqs : list Request.t) : Inbox.t * list CborSignedMessage.t :=
  match rqs with
  | [] => (ib, [])
  | rq :: rqs' =>
      let '(ib1, r) := Inbox.sequence_message ib (Request.now rq) (Request.message_type rq) (Request.payload rq) in
      let '(ib2, ms) := sequence_all ib1 rqs' in
      (ib2, match r with Ok (m, _) => m :: ms | _ => ms end)
  end.

(** The internal message a request becomes under number [n]. *)
Definition carries (n : Z) (rq : Request.t) (sm : SignedMessage.t) : Prop :=
  SignedMessage.sequence sm = n /\ SignedMessage.timestamp sm = Request.now rq /\
  SignedMessage.message_type sm = MessageType.from_cbor (Request.message_type rq) /\
  zstd_decode (SignedMessage.payload sm) = Ok (Request.payload rq).

Context {HL : HexLaws} {CL : CryptoLaws} {GL : SignerLaws} {KL : CoseLaws} {ZL : ZstdLaws}.
Context (km : EvmKeyManager.t) (vk : VerifyingKey).
Context (Hk : key_bytes vk (EvmKeyManager.public_key km)) (Hav : signer_available km).

Lemma sequence_all_spec rqs : forall n,
  0 <= n -> n + Z.of_nat (length rqs) < 2 ^ 64 -> Forall (fun rq => is_u64 (Request.now rq)) rqs ->
  exists sms, length sms = length rqs /\
    Forall2 (message_ok vk) (snd (sequence_all (Inbox.with_start_sequence km n) rqs)) sms /\
    (forall i rq, rqs !! i = Some rq -> exists sm, sms !! i = Some sm /\ carries (n + Z.of_nat i) rq sm).
Proof using HL CL GL KL ZL Hk Hav.
  induction rqs as [|rq rqs IH]; intros n Hn Hb Hnow; cbn [length sequence_all] in *.
  - exists []. split_and!; [done | constructor | by intros i rq Hi].
  - apply Forall_cons in Hnow as [Hrq Hnow].
    assert (Hun : is_u64 n) by (unfold is_u64; lia).
    destruct (sequenced_message_ok km vk n (Request.now rq) (Request.message_type rq) (Request.payload rq))
      as (m & r & c & sm & Hm & Hok & Hs & Ht & Hty & Hp & Hz); [done..|].
    unfold Inbox.sequence_message. cbn [Inbox.with_start_sequence Inbox.sequence Inbox.key_manager].
    rewrite u64_add_small by (unfold is_u64; lia). rewrite Hm.
    destruct (IH (n + 1)) as (sms & Hlen & Hf & Hc); [lia | lia | done |].
    unfold Inbox.with_start_sequence in Hf. destruct (sequence_all _ rqs) as [ib2 ms].
    exists (sm :: sms). split_and!; [cbn; by rewrite Hlen | by constructor |].
    intros [|i] rq' Hi; cbn in Hi |- *.
    + injection Hi as <-. exists sm. split; [done|]. rewrite Z.add_0_r. split_and!; auto. by rewrite Hp.
    + destruct (Hc i rq' Hi) as (sm' & Hsm & Hcar). exists sm'. split; [done|].
      by replace (n + Z.of_nat (S i)) with (n + 1 + Z.of_nat i) by lia.
Qed.

(** Numbers that count up from [n]. *)
Definition counts_from (n : Z) (sms : list SignedMessage.t) : Prop :=
  forall i sm, sms !! i = Some sm -> SignedMessage.sequence sm = n + Z.of_nat i.

Lemma counts_increasing n sms : counts_from n sms -> increasing sms.
Proof.
  revert n. induction sms as [|sm sms IH]; intros n Hc; [constructor|]. constructor.
  - apply (IH (n + 1)). intros i x Hi. rewrite (Hc (S i) x Hi). lia.
  - apply Forall_forall. intros x Hx. apply list_elem_of_lookup in Hx as [i Hi].
    rewrite (Hc 0%nat sm eq_refl), (Hc (S i) x Hi). lia.
Qed.

Lemma good_of_increasing ms sms :
  Forall2 (message_ok vk) ms sms -> increasing sms ->
  Forall (fun sm => SignedMessage.sequence sm <= i64_max) sms -> good_messages vk ms.
Proof.
  intros Hf Hi Hb. split.
  - clear Hi. induction Hf as [|m sm ms sms Hm _ IH]; constructor; apply Forall_cons in Hb as [? Hb]; eauto.
  - clear Hb. induction Hf as [|m sm ms sms Hm Hf IH]; constructor.
    + apply IH. by apply StronglySorted_inv in Hi as [? _].
    + apply StronglySorted_inv in Hi as [_ Hi]. clear IH.
      induction Hf as [|m' sm' ms sms Hm' _ IH]; constructor; apply Forall_cons in Hi as [Hlt Hi]; auto.
      by rewrite (message_ok_seq _ _ _ Hm), (message_ok_seq _ _ _ Hm').
Qed.

Lemma message_ok_fun m sm1 sm2 : message_ok vk m sm1 -> message_ok vk m sm2 -> sm1 = sm2.
Proof. intros (_ & _ & _ & H1 & _) (_ & _ & _ & H2 & _). rewrite H1 in H2. by apply Ok_inj in H2. Qed.
End sequencing.

(** ** The pipeline, over any transport and fetcher *)
Section pipeline.
Context `{HX : Hex} `{CR : Crypto} `{SG : !Signer} `{CS : Cose} `{CC : !CoseCodec} `{ZS : Zstd} `{SE : Session}.
Context `{SW : Serde CborBatchWire.t}.
Context `{SC : Serde ChangesetBatchRequest.t} `{SN : Serde SnapshotRequest.t} `{SWd : Serde WithdrawalRequest.t}.
Context {HL : HexLaws} {CL : CryptoLaws} {GL : SignerLaws} {KL : CoseLaws} {ZL : ZstdLaws}.
Context {SL : SerdeLaws CborBatchWire.t CborBatchWire.valid}.
Context (km : EvmKeyManager.t) (vk : VerifyingKey).
Context (Hk : key_bytes vk (EvmKeyManager.public_key km)) (Hav : signer_available km).
Implicit Types (v : Validator.t).

(** The sequencer's messages as its own validator receives them. *)
Definition request_ok (rq : Request.t) : Prop :=
  is_u64 (Request.now rq) /\
  (Request.message_type rq = Withdrawal -> is_ok (de (A := WithdrawalRequest.t) (Request.payload rq)) = true).

Lemma carried_acceptable v m sm n rq :
  Validator.verifier v = SignatureVerifier.new (EvmKeyManager.public_key km) ->
  message_ok vk m sm -> carries n rq sm -> request_ok rq -> 0 <= n < u64_max -> acceptable v sm.
Proof using HL CL Hk.
  intros Hv (_ & _ & _ & _ & _ & Hsig & pk & Hpk & Hsigner) (Hn & _ & Hty & Hz) [_ Hw] Hb.
  split; [|split; [|by rewrite Hn]].
  - assert (pk = EvmKeyManager.public_key km) as ->.
    { pose proof (key_bytes_to_bytes (E := CborError) _ _ Hpk) as H1.
      rewrite (key_bytes_to_bytes (E := CborError) _ _ Hk) in H1. by apply Ok_inj in H1. }
    apply verifier_complete; [done| |]; rewrite Hv; [|apply Hk]. cbn.
    rewrite Hsigner, hex0x_strip. apply hex_decode_encode.
  - unfold ChangesetApplier.extract_withdrawal. rewrite Hty.
    destruct (Request.message_type rq); cbn [MessageType.from_cbor]; [done| |done].
    unfold ChangesetApplier.decompress, context. rewrite Hz. cbn [map_err result_bind].
    specialize (Hw eq_refl). by destruct (de (Request.payload rq)).
Qed.

(** What a fetcher shows of a log: its listing in order, every listed batch by its
    path, and every message by its number. *)
Context {F : Type} `{SF : StorageFetcher F}.
Implicit Types (h : F).

Definition mirrors h (bs : list CborBatch.t) (sms : list SignedMessage.t) : Prop :=
  supports_batches h = true /\
  (exists info, (forall b, lists b (info b)) /\ fetch_list h = Ok (map info bs) /\
     forall b sb, b ∈ bs -> to_signed_batch b = Ok sb ->
       fetch_batch_by_path h (BatchInfo.path (info b)) = Ok (Some sb)) /\
  (forall s, is_u64 s -> fetch_message h s = Ok (find (fun sm => SignedMessage.sequence sm =? s) sms)).

(** The batches behind a listing, as the validator's fetcher gives them. *)
Lemma fetched_log h info bs : forall sms,
  (forall b sb, b ∈ bs -> to_signed_batch b = Ok sb ->
     fetch_batch_by_path h (BatchInfo.path (info b)) = Ok (Some sb)) ->
  Forall range_ok bs -> Forall (converts vk) bs -> Forall2 (message_ok vk) (published bs) sms ->
  exists log, map fst log = map info bs /\ Forall (fetches h) log /\ log_messages log = sms.
Proof using.
  induction bs as [|b bs IH]; intros sms Hget Hr Hcv Hms; unfold published in Hms; cbn [map concat] in Hms.
  - apply Forall2_nil_inv_l in Hms as ->. by exists [].
  - apply Forall_cons in Hr as [[Hh _] Hr], Hcv as [(msgs & Hm & Hto & Hver) Hcv].
    apply Forall2_app_inv_l in Hms as (s1 & s2 & H1 & H2 & ->).
    destruct (IH s2) as (log & Hfst & Hf & Hmsg);
      [by intros b' sb' Hb'; apply Hget, list_elem_of_further | done.. |].
    assert (msgs = s1) as <-.
    { clear -Hm H1. revert s1 H1. induction Hm as [|x y xs ys Hxy _ IH]; intros s1 H1.
      - by apply Forall2_nil_inv_l in H1.
      - apply Forall2_cons_inv_l in H1 as (z & zs & Hz & Hzs & ->).
        by rewrite (message_ok_fun vk x y z Hxy Hz), (IH _ Hzs). }
    exists ((info b, signed_batch_of b msgs) :: log). split_and!.
    + cbn. by rewrite Hfst.
    + constructor; [|done]. split_and!; [by apply Hget; [apply list_elem_of_here|] | done |].
      cbn. destruct Hm; [done|discriminate].
    + unfold log_messages in *. cbn. by rewrite Hmsg.
Qed.

(** The messages [sms] of the log [bs] are within reach of the validator [v]. *)
Definition delivered h v bs (sms : list SignedMessage.t) : Prop :=
  wf_log bs /\ mirrors h bs sms /\ Forall range_ok bs /\ Forall (converts vk) bs /\
  Forall2 (message_ok vk) (published bs) sms /\
  counts_from 0 sms /\ Forall (acceptable v) sms /\ Z.of_nat (length sms) <= i64_max.

Lemma counts_bound sms :
  counts_from 0 sms -> Forall (fun sm => 0 <= SignedMessage.sequence sm < Z.of_nat (length sms)) sms.
Proof.
  intros Hc. apply Forall_lookup. intros i sm Hi. rewrite (Hc i sm Hi). apply lookup_lt_Some in Hi. lia.
Qed.

Lemma delivered_batched h v bs sms now v1 fuel :
  delivered h v bs sms -> StateStore.next_sequence (Validator.state v) = Ok 0 ->
  process v now sms = Some v1 ->
  Validator.sync_to_head_batched fuel v h now = (v1, Some (Ok (Z.of_nat (length sms)))).
Proof using.
  intros ([Hpb _] & (Hsup & (info & Hi & Hlist & Hget) & _) & Hr & Hcv & Hms & Hc & Hacc & _) Hnext Hp.
  pose proof (counts_bound _ Hc) as Hb.
  destruct (fetched_log h info bs sms) as (log & Hfst & Hf & <-); [done..|].
  apply (sync_to_head_batched_complete h now log v v1 0 fuel); auto.
  - by rewrite Hfst.
  - by eapply counts_increasing.
  - rewrite Hfst. destruct bs as [|b bs]; [done|]. cbn. destruct (Hi b) as [-> ->].
    apply Forall_cons in Hpb as [[(_ & _ & _ & _ & Hu & _) Hrange] _]. cbn in Hu. unfold is_u64 in Hu. lia.
  - eapply Forall_impl; [exact Hb|]. cbn. lia.
Qed.

Lemma delivered_fetch h v bs sms n :
  delivered h v bs sms -> (n <= length sms)%nat -> fetch_message h (Z.of_nat n) = Ok (sms !! n).
Proof using.
  intros (_ & (_ & _ & Hmsg) & _ & _ & _ & Hc & _ & Hlen) Hn. unfold i64_max in Hlen.
  rewrite Hmsg by (unfold is_u64; lia). f_equal. destruct (sms !! n) as [m|] eqn:E.
  - apply (find_at _ _ n); [done | rewrite (Hc _ _ E); apply Z.eqb_eq; lia |].
    intros j y Hj Hy. rewrite (Hc _ _ Hy). apply Z.eqb_neq. lia.
  - apply find_none_all. intros j y Hy. rewrite (Hc _ _ Hy). apply lookup_ge_None in E.
    apply lookup_lt_Some in Hy. apply Z.eqb_neq. lia.
Qed.

Lemma delivered_single h v bs sms now v1 fuel :
  delivered h v bs sms -> StateStore.next_sequence (Validator.state v) = Ok 0 ->
  process v now sms = Some v1 -> (length sms < fuel)%nat ->
  Validator.sync_to_head fuel v h now = (v1, Some (Ok (Z.of_nat (length sms)))).
Proof using.
  intros Hd Hnext Hp Hfuel. pose proof Hd as (_ & _ & _ & _ & _ & Hc & Hacc & Hlen).
  unfold i64_max in Hlen. unfold Validator.sync_to_head. rewrite Hnext.
  apply (sync_loop_complete h now sms); [lia | lia | lia | done | | | done].
  - intros i m Hi. split; [by apply Hc|]. rewrite Z.add_0_l. pose proof (lookup_lt_Some _ _ _ Hi).
    rewrite (delivered_fetch h v bs sms i Hd) by lia. by rewrite Hi.
  - rewrite Z.add_0_l, (delivered_fetch h v bs sms _ Hd) by lia. f_equal. by apply lookup_ge_None.
Qed.

Lemma delivered_progress h v bs sms now v1 :
  delivered h v bs sms -> process v now sms = Some v1 -> sms <> [] ->
  Validator.last_sequence v1 = Ok (Some (Z.of_nat (length sms) - 1)).
Proof.
  intros (_ & _ & _ & _ & _ & Hc & _ & Hlen) Hp Hne. unfold i64_max in Hlen.
  destruct (process_progress now sms v v1 Hp) as [_ Hl].
  assert (Hpos : (length sms <> 0)%nat) by (by destruct sms).
  destruct (last sms) as [m|] eqn:El; [|apply last_None in El; subst; done].
  rewrite last_lookup in El. rewrite (Hc _ _ El) in Hl.
  replace (0 + Z.of_nat (pred (length sms))) with (Z.of_nat (length sms) - 1) in Hl by lia.
  apply Hl. unfold is_u64. lia.
Qed.

(** *** Any transport that keeps a log, any fetcher that mirrors it *)
Context {T : Type} `{TP : TransportPublisher T} {log : T -> list CborBatch.t -> Prop}.
Context {L : TransportLaws T log}.

(** The transport after a run of the batcher that ends in a shutdown. *)
Definition after_shutdown config (tr : T) instant0 evs created_at instant : T :=
  Batcher.transport (fst (Batcher.run (Batcher.spawn config tr km instant0)
                            (evs ++ [Recv Shutdown created_at instant]))).

(** [h] mirrors every log the transport [tr] may hold. *)
Definition mirrors_transport h (tr : T) : Prop :=
  forall bs sms, log tr bs -> Forall range_ok bs -> Forall (converts vk) bs ->
    good_messages vk (published bs) -> Forall2 (message_ok vk) (published bs) sms -> mirrors h bs sms.

(** What the sequencer leaves behind after a shutdown. *)
Lemma sequencer_delivers config tr0 instant0 rqs evs created_at instant h v sms :
  log tr0 [] ->
  Z.of_nat (length sms) <= i64_max -> counts_from 0 sms -> Forall (acceptable v) sms ->
  concat (map event_messages evs) = snd (sequence_all (Inbox.new km) rqs) ->
  Forall2 (message_ok vk) (snd (sequence_all (Inbox.new km) rqs)) sms ->
  Forall (fun ev => is_u64 (event_clock ev) /\ is_shutdown ev = false) evs -> is_u64 created_at ->
  mirrors_transport h (after_shutdown config tr0 instant0 evs created_at instant) ->
  exists bs, delivered h v bs sms.
Proof using HL CL GL KL ZL SL L Hk Hav.
  intros Hnew Hlen Hc Hacc Hevs Hms Hclock Hca Hmirror.
  assert (Hgood : good_messages vk (concat (map event_messages evs))).
  { rewrite Hevs. eapply good_of_increasing; [exact Hms | by eapply counts_increasing |].
    eapply Forall_impl; [exact (counts_bound _ Hc)|]. cbn. lia. }
  destruct (shutdown_log (L := L) km vk Hk Hav config tr0
              instant0 evs created_at instant Hnew Hgood Hclock Hca) as (bs & Hlog & Hr & Hcv & Hpub).
  exists bs. rewrite <- Hpub in Hgood. rewrite <- Hevs, <- Hpub in Hms.
  split; [by eapply log_wf|]. split; [by apply Hmirror|]. by split_and!.
Qed.

(** The requests [rqs] reach the validator [v] through the fetcher [h]. *)
Definition reach_replica (rqs : list Request.t) h v now : Prop :=
  exists sms, length sms = length rqs /\
    (forall i rq, rqs !! i = Some rq -> exists sm, sms !! i = Some sm /\ carries (Z.of_nat i) rq sm) /\
    (forall v1, process v now sms = Some v1 ->
       (forall fuel, Validator.sync_to_head_batched fuel v h now
                     = (v1, Some (Ok (Z.of_nat (length rqs))))) /\
       (forall fuel, (length rqs < fuel)%nat ->
          Validator.sync_to_head fuel v h now = (v1, Some (Ok (Z.of_nat (length rqs))))) /\
       (rqs <> [] -> Validator.last_sequence v1 = Ok (Some (Z.of_nat (length rqs) - 1)))).

Lemma requests_delivered config tr0 instant0 rqs evs created_at instant h v now :
  log tr0 [] -> Z.of_nat (length rqs) <= i64_max -> Forall request_ok rqs ->
  concat (map event_messages evs) = snd (sequence_all (Inbox.new km) rqs) ->
  Forall (fun ev => is_u64 (event_clock ev) /\ is_shutdown ev = false) evs -> is_u64 created_at ->
  mirrors_transport h (after_shutdown config tr0 instant0 evs created_at instant) ->
  Validator.verifier v = SignatureVerifier.new (EvmKeyManager.public_key km) ->
  StateStore.next_sequence (Validator.state v) = Ok 0 ->
  reach_replica rqs h v now.
Proof using HL CL GL KL ZL SL L Hk Hav.
  intros Hnew Hlen Hrq Hevs Hclock Hca Hmirror Hvk Hnext. pose proof Hlen as Hlen'. unfold i64_max in Hlen'.
  destruct (sequence_all_spec km vk Hk Hav rqs 0) as (sms & Hls & Hms & Hcar);
    [lia | lia | eapply Forall_impl; [exact Hrq | by intros ? []] |].
  cbn [Z.add] in Hcar. exists sms. split; [done|]. split; [done|].
  assert (Hinv : forall i sm, sms !! i = Some sm -> exists rq, rqs !! i = Some rq /\ carries (Z.of_nat i) rq sm).
  { intros i sm Hi. destruct (lookup_lt_is_Some_2 rqs i) as [rq Hr].
    { rewrite <- Hls. by eapply lookup_lt_Some. }
    destruct (Hcar i rq Hr) as (sm' & Hsm' & Hc). exists rq. rewrite Hi in Hsm'. by injection Hsm' as <-. }
  assert (Hcount : counts_from 0 sms) by (intros i sm Hi; destruct (Hinv i sm Hi) as (rq & _ & Hc & _); exact Hc).
  assert (Hacc : Forall (acceptable v) sms).
  { apply Forall_lookup. intros i sm Hi. destruct (Hinv i sm Hi) as (rq & Hri & Hc).
    destruct (Forall2_lookup_r _ _ _ _ _ Hms Hi) as (m & _ & Hm). apply lookup_lt_Some in Hi as Hlt.
    rewrite Forall_lookup in Hrq. eapply carried_acceptable; eauto. unfold u64_max. lia. }
  rewrite <- Hls in Hlen |- *.
  destruct (sequencer_delivers config tr0 instant0 rqs evs created_at instant h v sms)
    as [bs Hd]; auto.
  intros v1 Hp. split_and!.
  - intros fuel. by eapply delivered_batched.
  - intros fuel Hfuel. by eapply delivered_single.
  - intros Hne. eapply delivered_progress; [done..|]. intros ->. by destruct rqs.
Qed.
End pipeline.

(** ** Over HTTP from the sequencer's local transport *)
Section over_http.
Context `{HX : Hex} `{CR : Crypto} `{SG : !Signer} `{CS : Cose} `{CC : !CoseCodec} `{ZS : Zstd} `{SE : Session}.
Context `{SW : Serde CborBatchWire.t} `{BT : BatchTable} {rows : Conn -> BTreeMap.t StoredBatch.t}.
Context `{SC : Serde ChangesetBatchRequest.t} `{SN : Serde SnapshotRequest.t} `{SWd : Serde WithdrawalRequest.t}.
Context `{HC : HttpClient}.
Context `{JM : Json SignedMessage.t} `{JL : Json LatestSequenceResponse.t} `{JB : Json (list BatchInfoResponse.t)}.
Context {HL : HexLaws} {CL : CryptoLaws} {GL : SignerLaws} {KL : CoseLaws} {ZL : ZstdLaws}.
Context {SL : SerdeLaws CborBatchWire.t CborBatchWire.valid} {TL : BatchTableLaws rows}.
Context {JML : JsonLaws SignedMessage.t message_valid}.
Context {JBL : JsonLaws (list BatchInfoResponse.t) (Forall BatchInfoResponse.valid)}.
Context (km : EvmKeyManager.t) (vk : VerifyingKey).
Context (Hk : key_bytes vk (EvmKeyManager.public_key km)) (Hav : signer_available km).
Implicit Types (v : Validator.t) (h : HttpFetcher.t).

(** C1. End to end: requests numbered and signed by a fresh inbox, added to a
    fresh batcher in that order (with any flushes and ticks in between), published
    to a local transport of either kind until shutdown, and fetched over HTTP with
    transient failures within the retry budget, arrive at a fresh validator
    configured with the sequencer's key as exactly one message per request, number
    [i] for the [i]-th, with its timestamp, type and payload; and if those messages
    apply in that order, then batch sync and single-message sync both return the
    number of requests, both end in the state that applying them in order gives,
    and the recorded progress is the last number: none is lost, repeated,
    reordered, altered or rejected on the way. *)
Theorem requests_reach_replica config backend instant0 rqs evs created_at instant h v now :
  Z.of_nat (length rqs) <= i64_max -> Forall request_ok rqs ->
  concat (map event_messages evs) = snd (sequence_all (Inbox.new km) rqs) ->
  Forall (fun ev => is_u64 (event_clock ev) /\ is_shutdown ev = false) evs -> is_u64 created_at ->
  serves h (Batcher.transport (fst (Batcher.run (Batcher.spawn config (Local.new backend) km instant0)
                                      (evs ++ [Recv Shutdown created_at instant])))) ->
  Validator.verifier v = SignatureVerifier.new (EvmKeyManager.public_key km) ->
  StateStore.next_sequence (Validator.state v) = Ok 0 ->
  reach_replica rqs h v now.
Proof using HL CL GL KL ZL SL TL JML JBL Hk Hav.
  intros Hlen Hrq Hevs Hclock Hca Hserves Hvk Hnext.
  apply (requests_delivered (L := local_transport_laws (rows := rows)) km vk Hk Hav
           config (Local.new backend) instant0 rqs evs created_at instant); try done.
  - split; [by split; constructor|]. destruct backend; cbn; [constructor|]. rewrite sql_open_empty. constructor.
  - intros bs sms Hlog Hr Hcv Hg Hms. split; [done|]. split.
    + exists http_info. split_and!; [done | by eapply fetch_list_served |].
      intros. by eapply fetch_batch_served.
    + intros. by eapply fetch_message_served.
Qed.
End over_http.

(** ** Through a cloud bucket *)
Section over_cloud.
Context `{HX : Hex} `{CR : Crypto} `{SG : !Signer} `{CS : Cose} `{CC : !CoseCodec} `{ZS : Zstd} `{SE : Session}.
Context `{SW : Serde CborBatchWire.t}.
Context `{SC : Serde ChangesetBatchRequest.t} `{SN : Serde SnapshotRequest.t} `{SWd : Serde WithdrawalRequest.t}.
Context `{OS : ObjectStore} `{JV : FromJson JsonValue.t}.
Context {HL : HexLaws} {CL : CryptoLaws} {GL : SignerLaws} {KL : CoseLaws} {ZL : ZstdLaws}.
Context {SL : SerdeLaws CborBatchWire.t CborBatchWire.valid}.
Context {bucket : string} {objects : Store -> gmap string bytes}.
Context {page : Store -> string -> option string -> list string * string}.
Context {OL : ObjectStoreLaws bucket objects page}.
Context (km : EvmKeyManager.t) (vk : VerifyingKey).
Context (Hk : key_bytes vk (EvmKeyManager.public_key km)) (Hav : signer_available km).
Implicit Types (v : Validator.t) (h : GcsFetcher.t) (c : StorageClient.t).

(** C2. End to end through cloud storage: the same requests, published by the cloud
    transport into an empty directory of a bucket until shutdown and read back by a
    fetcher of that bucket and directory, reach a fresh validator as one message per
    request in order, and both sync paths consume all of them and end in the same
    state. *)
Theorem requests_reach_replica_cloud config c tr0 instant0 rqs evs created_at instant h v now :
  reaches_store (page := page) (bucket := bucket) c ->
  cloud_log (objects := objects) c tr0 [] ->
  Z.of_nat (length rqs) <= i64_max -> Forall request_ok rqs ->
  concat (map event_messages evs) = snd (sequence_all (Inbox.new km) rqs) ->
  Forall (fun ev => is_u64 (event_clock ev) /\ is_shutdown ev = false) evs -> is_u64 created_at ->
  reads_bucket (page := page) (bucket := bucket) h (StorageClient.prefix c)
    (GcsTransport.store (after_shutdown km config tr0 instant0 evs created_at instant)) ->
  Validator.verifier v = SignatureVerifier.new (EvmKeyManager.public_key km) ->
  StateStore.next_sequence (Validator.state v) = Ok 0 ->
  reach_replica rqs h v now.
Proof using HL CL GL KL ZL SL OL Hk Hav.
  intros Hc Hnew Hlen Hrq Hevs Hclock Hca Hh Hvk Hnext.
  apply (requests_delivered (L := cloud_transport_laws c Hc) km vk Hk Hav
           config tr0 instant0 rqs evs created_at instant); try done.
  intros bs sms [_ Hlog] Hr Hcv Hg Hms. split; [done|]. split.
  - exists (cloud_info (StorageClient.prefix c)). split_and!; [done | by eapply cloud_list |].
    intros. by eapply cloud_batch_by_path.
  - intros. by eapply cloud_message.
Qed.
End over_cloud.
