(* ===== verification/Witnesses.v ===== *)
(** * Witnesses on the reference instances

    The theorems about the audit trail, the validator, the HTTP fetcher and the
    whole pipeline, applied to concrete inputs: a sequencer with a toy key, its
    changesets, and the executable instances of [Reference] and [RefStorage]. *)
From Stdlib Require Import Ascii Strings.String Strings.Byte.
From S2P Require Import Prelude RustStd BTree Batches Extern Reference Cose CborBatches.
From S2P Require Import SignedTypes SyncIndex Inbox InboxProps WireProps Transport.
From S2P Require Import TransportProps Batcher BatcherProps StateStore Applier AuditTrail.
From S2P Require Import Validator ValidatorProps Replay Net HttpFetcher HttpProps RefStorage.
From S2P Require Import Pipeline.

(** ** A sequencer's messages *)
Definition demo_changes : ChangesetBatchRequest.t :=
  ChangesetBatchRequest.mk "batch-1" [ChangesetData.mk [x61; x62] 0 1690] None.
Definition demo_payload : bytes := enc changeset_batch_codec demo_changes.

Definition no_signed : SignedMessage.t := SignedMessage.mk 0 0 MessageType.Changeset [] "" "" "" [].
Definition change (n : Z) : CborSignedMessage.t :=
  match Inbox.sign_sequenced demo_km n 1700 Changeset demo_payload with Ok (m, _) => m | _ => no_message end.
Definition change_signed (n : Z) : SignedMessage.t :=
  match to_signed_message (change n) demo_vk with Ok m => m | _ => no_signed end.

(** A fetcher over a list of messages, one at a time. *)
#[export] Instance list_fetcher : StorageFetcher (list SignedMessage.t) := {|
  supports_batches _ := false;
  fetch_message l s := Ok (find (fun m => SignedMessage.sequence m =? s) l);
  fetch_latest l := Ok (SignedMessage.sequence <$> last l);
  fetch_list _ := Err (Msg "Batch operations not supported");
  fetch_batch _ _ := Err (Msg "Batch operations not supported");
  fetch_batch_by_path _ _ := Err (Msg "Batch operations not supported");
|}.

Definition demo_validator : Validator.t := Validator.in_memory (toy_pubkey 5) [].

(** ** The audit trail *)
Definition demo_pending : list PendingChangeset.t :=
  [PendingChangeset.mk 1 [x61] (MissingTable "t"); PendingChangeset.mk 2 [x62] (MissingTable "t")].

Lemma verify_chain_restores_witness :
  let '(db', res) := verify_changeset_chain (SE := ref_session) [[x61]; [x62]] demo_pending in
  db' = [[x61]; [x62]] /\ AuditResult.verified res ++ map AuditFailure.sequence (AuditResult.failed res) = [2; 1].
Proof.
  pose proof (verify_chain_restores [[x61]; [x62]] demo_pending) as H.
  destruct (verify_changeset_chain _ _) as [db' res].
  destruct H as ((k & rest & db1 & Hs & Hv & Hf & _) & _ & _ & Hdb). split.
  - apply (Hdb _ ref_session_laws I).
    repeat (apply Forall_cons_2; [by eexists; split; [reflexivity|]; repeat constructor; eexists _, _|]). constructor.
  - rewrite Hv, Hf, <- map_app, <- Hs. reflexivity.
Defined.

(** ** Single-message sync *)
Lemma demo_sync_result :
  snd (Validator.sync_one_with_callback demo_validator [change_signed 0] 1800 0) = Ok true.
Proof. vm_compute. reflexivity. Qed.

Lemma sync_one_correct_witness :
  exists v' ws, Validator.sync_one_with_callback demo_validator [change_signed 0] 1800 0 = (v', ws, Ok true) /\
    Validator.last_sequence v' = Ok (Some 0).
Proof.
  pose proof demo_sync_result as Hr.
  destruct (Validator.sync_one_with_callback demo_validator [change_signed 0] 1800 0) as [[v' ws] r] eqn:E.
  cbn in Hr. subst r. exists v', ws. split; [reflexivity|].
  destruct (sync_one_correct demo_validator [change_signed 0] 1800 0 v' ws (Ok true)) as [_ (m & w & H)];
    [unfold is_u64; lia | exact E |]. exact (proj2 (proj2 (proj2 (proj2 (proj2 (proj2 (proj2 H))))))).
Defined.

Lemma sync_to_head_replays_witness :
  exists v' r, Validator.sync_to_head 9 demo_validator [change_signed 0; change_signed 1] 1800 = (v', Some r).
Proof.
  apply (sync_to_head_replays demo_validator [change_signed 0; change_signed 1] 1800 9 0 2);
    [reflexivity | unfold is_u64; lia | lia | lia | vm_compute; reflexivity | lia].
Defined.

Lemma change_20 : SignedMessage.sequence (change_signed 20) = 20.
Proof. vm_compute. reflexivity. Qed.

Lemma detect_gap_reports_missing_witness :
  Validator.detect_gap [change_signed 20] 3 = Some 4 /\ fetch_message [change_signed 20] 4 = Ok None.
Proof.
  apply (detect_gap_reports_missing [change_signed 20] 3 20); [lia | lia | | | lia].
  - intros k Hk. cbn [fetch_message list_fetcher find]. rewrite change_20.
    destruct (Z.eqb_spec 20 k); [lia | reflexivity].
  - cbn [fetch_latest list_fetcher last fmap option_fmap option_map]. by rewrite change_20.
Defined.

(** ** Batch sync *)
Definition batch_of (ms : list CborSignedMessage.t) : SignedBatch.t :=
  match CborBatch.new ms 1800 (toy_pubkey 5) demo_sign with
  | Ok b => match to_signed_batch b with Ok sb => sb | _ => SignedBatch.mk 0 0 [] "" "" 0 [] end
  | _ => SignedBatch.mk 0 0 [] "" "" 0 []
  end.

Lemma demo_batch_result :
  snd (Validator.sync_batch demo_validator 1900 (batch_of [change 0; change 5])) = Ok 2.
Proof. vm_compute. reflexivity. Qed.

Lemma sync_batch_correct_witness :
  exists applied v1, effects demo_validator 1900 applied v1 /\
    applied = relevant 0 (SignedBatch.messages (batch_of [change 0; change 5])) /\
    2 = Z.of_nat (List.length applied).
Proof.
  pose proof demo_batch_result as Hr.
  destruct (Validator.sync_batch demo_validator 1900 (batch_of [change 0; change 5])) as [[v' ws] r] eqn:E.
  cbn in Hr. subst r.
  destruct (sync_batch_correct demo_validator 1900 _ 0 v' ws (Ok 2) eq_refl E)
    as (taken & rest & v1 & Hp & _ & _ & _ & _ & Hn).
  destruct (Hn 2 eq_refl) as (_ & Ha & _ & Hl). exists taken, v1. auto.
Defined.

Lemma demo_gap_messages :
  SignedBatch.messages (batch_of [change 0; change 5]) = [change_signed 0; change_signed 5].
Proof. vm_compute. reflexivity. Qed.
Lemma change_0 : SignedMessage.sequence (change_signed 0) = 0.
Proof. vm_compute. reflexivity. Qed.
Lemma change_5 : SignedMessage.sequence (change_signed 5) = 5.
Proof. vm_compute. reflexivity. Qed.

Lemma batch_inner_gap_unnoticed_witness :
  exists v', StateStore.next_sequence (Validator.state v') = Ok 6 /\
    StateStore.has_gaps (Validator.state v') = false.
Proof.
  pose proof demo_batch_result as Hr.
  destruct (Validator.sync_batch demo_validator 1900 (batch_of [change 0; change 5])) as [[v' ws] r] eqn:E.
  cbn in Hr. subst r. exists v'.
  destruct (batch_inner_gap_unnoticed demo_validator 1900 _ 0 (change_signed 0) (change_signed 5) v' ws 2
              eq_refl demo_gap_messages change_0) as (_ & Hnext & Hgap); [ | exact E |].
  - rewrite change_5. unfold u64_max. lia.
  - rewrite change_5 in Hnext. split; [exact Hnext | exact Hgap].
Defined.

(** ** Rules and audits *)
Definition balance_rule : ValidationRule.t :=
  ValidationRule.mk _ "non_negative" (fun _ _ => Ok (Fail "column balance is negative")) true.
Definition strict_validator : Validator.t := Validator.set_rules demo_validator [balance_rule].

Lemma demo_parse :
  ChangesetApplier.decompress_and_parse (A := ChangesetBatchRequest.t) (change_signed 0) "changeset batch"
  = Ok demo_changes.
Proof. vm_compute. reflexivity. Qed.
Lemma change_type : SignedMessage.message_type (change_signed 0) = MessageType.Changeset.
Proof. vm_compute. reflexivity. Qed.

Lemma rule_failure_taken_for_schema_mismatch_witness :
  exists v', Validator.apply_and_record strict_validator 1900 (change_signed 0) = (v', Ok tt) /\
    Validator.applier v' = Validator.applier strict_validator /\
    Validator.last_sequence v' = Ok (Some (SignedMessage.sequence (change_signed 0))).
Proof.
  destruct (rule_failure_taken_for_schema_mismatch strict_validator 1900 (change_signed 0) demo_changes
              [[x61; x62]] [balance_rule] "non_negative" (SignedMessage.sequence (change_signed 0))
              "column balance is negative")
    as (v' & H1 & H2 & H3 & _);
    [exact change_type | rewrite change_0; unfold i64_max; lia | exact demo_parse | reflexivity
     | reflexivity | reflexivity | reflexivity | reflexivity |].
  exists v'. auto.
Defined.

(** A validator with one changeset pending that cannot be inverted. *)
Definition auditing_validator : Validator.t :=
  Validator.with_pending_store demo_validator [(3, ([x00; x00], reason_json (MissingTable "t")))].

Lemma failed_audit_cleared_witness :
  exists v', Validator.verify_pending_changesets_after_snapshot auditing_validator 10 = (v', Ok tt).
Proof.
  destruct (failed_audit_cleared auditing_validator 10 []
              [AuditFailure.mk 3 "Failed to invert: Failed to invert: database disk image is malformed"])
    as (v' & H & _); [discriminate | unfold i64_max; lia | vm_compute; reflexivity | discriminate |].
  exists v'. exact H.
Defined.

(** ** HTTP and the pipeline *)
Definition demo_transport : Local.t :=
  Batcher.transport (fst (Batcher.run demo_batcher (demo_events ++ [Recv Shutdown 1805 4200]))).

Lemma execute_with_retry_spec_witness :
  snd (execute_with_retry 3 (fun i => if (i <? 2)%nat then Err (Msg "HTTP error 503", false) else Ok 7)) = Ok 7.
Proof.
  destruct (execute_with_retry_spec 3
              (fun i => if (i <? 2)%nat then Err (Msg "HTTP error 503", false) else Ok 7)) as [H _].
  apply (H 2%nat 7); [lia | reflexivity |]. intros [|[|i]] Hi; [eexists; reflexivity.. | lia].
Defined.

Lemma http_fetcher_serves_log_witness :
  exists bs, published bs = [demo_msg 0; demo_msg 1; demo_msg 2] /\
    fetch_list (ref_fetcher demo_transport 2) = Ok (map http_info bs).
Proof.
  destruct (shutdown_log (L := local_transport_laws (rows := ref_rows)) demo_km demo_vk demo_key_bytes
              (ref_signer_available demo_km) demo_config (Local.new Local.InMemory) 0 demo_events 1805 4200)
    as (bs & Hlog & Hr & Hcv & Hpub).
  - split; [by split; constructor | constructor].
  - exact demo_messages_good.
  - repeat (apply Forall_cons_2; [done|]). constructor.
  - vm_compute; split; [discriminate | reflexivity].
  - change (concat (map event_messages demo_events)) with [demo_msg 0; demo_msg 1; demo_msg 2] in Hpub.
    assert (Hg : good_messages demo_vk (published bs)) by (rewrite Hpub; exact demo_messages_good).
    destruct (good_internal demo_vk _ Hg) as [sms Hms]. exists bs. split; [exact Hpub|].
    apply (http_fetcher_serves_log (ref_fetcher demo_transport 2) demo_transport bs demo_vk sms Hlog
             (ref_serves demo_transport 2 ltac:(lia)) Hr Hcv Hg Hms).
Defined.

(** A changeset and a withdrawal. *)
Definition demo_withdrawal : WithdrawalRequest.t := WithdrawalRequest.mk "w-1" "0xabc" "100" [].
Definition demo_requests : list Request.t :=
  [Request.mk 1700 Changeset demo_payload;
   Request.mk 1701 Withdrawal (enc withdrawal_codec demo_withdrawal)].
Definition request_events : list BatcherEvent :=
  Recv (GetStats) 1750 5
  :: map (fun m => Recv (AddMessage m) 1800 10) (snd (sequence_all (Inbox.new demo_km) demo_requests)).

Lemma request_events_messages :
  concat (map event_messages request_events) = snd (sequence_all (Inbox.new demo_km) demo_requests).
Proof.
  unfold request_events. cbn [map concat event_messages app].
  induction (snd (sequence_all (Inbox.new demo_km) demo_requests)) as [|m ms IH]; [done|]. cbn. by rewrite IH.
Qed.
Lemma request_events_ok :
  Forall (fun ev => is_u64 (event_clock ev) /\ is_shutdown ev = false) request_events.
Proof. constructor; [done|]. apply Forall_fmap, Forall_true. done. Qed.
Lemma demo_requests_ok : Forall request_ok demo_requests.
Proof. repeat constructor; try done; vm_compute; (discriminate || reflexivity). Qed.

(** The changeset of the first request applies to any replica without rules, the
    withdrawal changes nothing. *)
Lemma demo_change_applies v now sm n :
  Validator.rules v = None -> carries n (Request.mk 1700 Changeset demo_payload) sm ->
  exists v1, Validator.apply_and_record v now sm = (v1, Ok tt) /\ Validator.rules v1 = None.
Proof.
  intros Hr (_ & _ & Hty & Hz). cbn [Request.message_type Request.payload MessageType.from_cbor] in Hty, Hz.
  assert (Hp : ChangesetApplier.decompress_and_parse (A := ChangesetBatchRequest.t) sm "changeset batch" = Ok demo_changes).
  { unfold ChangesetApplier.decompress_and_parse, ChangesetApplier.decompress, context. rewrite Hz.
    cbn [map_err result_bind de ref_changesets]. unfold demo_payload.
    by rewrite (codec_de_ser changeset_batch_codec). }
  unfold Validator.apply_and_record, Validator.apply_message_with_audit, ChangesetApplier.apply_message_with_rules,
    ChangesetApplier.apply_changeset_message_with_rules. rewrite Hty, Hp, Hr. cbn [result_bind].
  eexists. split; [reflexivity|]. exact Hr.
Qed.
Lemma demo_withdrawal_applies v now sm n :
  carries n (Request.mk 1701 Withdrawal (enc withdrawal_codec demo_withdrawal)) sm ->
  exists v1, Validator.apply_and_record v now sm = (v1, Ok tt).
Proof.
  intros (_ & _ & Hty & _). unfold Validator.apply_and_record, Validator.apply_message_with_audit,
    ChangesetApplier.apply_message_with_rules. rewrite Hty. cbn. by eexists.
Qed.

Abbreviation request_transport :=
  (Batcher.transport (fst (Batcher.run (Batcher.spawn demo_config (Local.new Local.InMemory) demo_km 0)
                             (request_events ++ [Recv Shutdown 1805 4200])))).

Lemma requests_reach_replica_witness :
  exists v1, Validator.sync_to_head_batched 0 demo_validator (ref_fetcher request_transport 1) 1900
             = (v1, Some (Ok 2)) /\ Validator.last_sequence v1 = Ok (Some 1).
Proof.
  destruct (requests_reach_replica (rows := ref_rows) demo_km demo_vk demo_key_bytes (ref_signer_available demo_km)
              demo_config Local.InMemory 0 demo_requests request_events 1805 4200
              (ref_fetcher request_transport 1) demo_validator 1900)
    as (sms & Hlen & Hcar & H);
    [cbn; unfold i64_max; lia | exact demo_requests_ok | exact request_events_messages | exact request_events_ok
     | unfold is_u64; lia | exact (ref_serves request_transport 1 ltac:(lia)) | reflexivity | reflexivity |].
  destruct sms as [|m1 [|m2 [|]]]; try discriminate Hlen.
  destruct (Hcar 0%nat _ eq_refl) as (? & [= <-] & Hc1). destruct (Hcar 1%nat _ eq_refl) as (? & [= <-] & Hc2).
  destruct (demo_change_applies demo_validator 1900 m1 _ eq_refl Hc1) as (va & Ha & _).
  destruct (demo_withdrawal_applies va 1900 m2 _ Hc2) as (vb & Hb).
  destruct (H vb) as (Hbatch & _ & Hlast); [cbn; rewrite Ha, Hb; reflexivity|].
  exists vb. split; [exact (Hbatch 0%nat) | exact (Hlast ltac:(discriminate))].
Defined.
