(* ===== verification/CloudWitnesses.v ===== *)
(** * A reference bucket, and the cloud theorems on it

    An executable object store: a finite map listed one name per page, with its REST
    interface behind percent-encoded URLs.  The laws of [CloudProps] hold of it, and the
    witnesses run the sequencer's transport and the validator's fetcher over it. *)
From Stdlib Require Import Ascii Strings.String Strings.Byte.
From S2P Require Import Prelude RustStd BTree Batches Extern Reference Cose CborBatches.
From S2P Require Import SignedTypes SyncIndex Inbox InboxProps WireProps Transport.
From S2P Require Import TransportProps Batcher BatcherProps StateStore Applier AuditTrail.
From S2P Require Import Validator ValidatorProps Replay Net HttpFetcher HttpProps RefStorage.
From S2P Require Import Cloud CloudProps Pipeline Witnesses.

(** ** Percent encoding *)
Definition hex_digit (n : nat) : ascii := ascii_of_nat (if (n <? 10)%nat then 48 + n else 55 + n).
Definition hex_value (c : ascii) : nat :=
  let n := nat_of_ascii c in if (n <? 58)%nat then n - 48 else n - 55.
Definition is_alphanumeric (c : ascii) : bool :=
  let n := nat_of_ascii c in
  ((48 <=? n) && (n <=? 57) || (65 <=? n) && (n <=? 90) || (97 <=? n) && (n <=? 122))%nat.

Fixpoint ref_encode (s : string) : string :=
  match s with
  | EmptyString => EmptyString
  | String c s' =>
      if is_alphanumeric c then String c (ref_encode s')
      else String "%" (String (hex_digit (nat_of_ascii c / 16))
                         (String (hex_digit (nat_of_ascii c mod 16)) (ref_encode s')))
  end.
Fixpoint ref_decode (s : string) : string :=
  match s with
  | EmptyString => EmptyString
  | String "%" (String h (String l s')) => String (ascii_of_nat (16 * hex_value h + hex_value l)) (ref_decode s')
  | String c s' => String c (ref_decode s')
  end.

Lemma decode_encode_char c : is_alphanumeric c = false ->
  ascii_of_nat (16 * hex_value (hex_digit (nat_of_ascii c / 16)) + hex_value (hex_digit (nat_of_ascii c mod 16))) = c.
Proof. by destruct c as [[] [] [] [] [] [] [] []]. Qed.
Lemma alphanumeric_decode c s : is_alphanumeric c = true -> ref_decode (String c s) = String c (ref_decode s).
Proof. by destruct c as [[] [] [] [] [] [] [] []]. Qed.

Lemma ref_decode_encode s : ref_decode (ref_encode s) = s.
Proof.
  induction s as [|c s IH]; [done|]. cbn [ref_encode]. destruct (is_alphanumeric c) eqn:E.
  - by rewrite alphanumeric_decode, IH.
  - cbn [ref_decode]. by rewrite decode_encode_char, IH.
Qed.

Lemma ref_encode_plain s : all_chars (fun a => a <> "&"%char) (ref_encode s).
Proof.
  induction s as [|c s IH]; cbn [ref_encode]; [constructor|]. destruct (is_alphanumeric c) eqn:E.
  - constructor; [|done]. by intros ->.
  - clear -IH. repeat constructor; auto; by destruct c as [[] [] [] [] [] [] [] []].
Qed.

Lemma split_once_plain c s t : all_chars (fun a => a <> c) s -> split_once c (s +:+ String c t) = Some (s, t).
Proof.
  induction 1 as [|a s Ha _ IH]; [simpl; by rewrite decide_True|].
  rewrite string_app_cons. simpl. by rewrite decide_False, IH.
Qed.
Lemma split_once_all c s : all_chars (fun a => a <> c) s -> split_once c s = None.
Proof. induction 1 as [|a s Ha _ IH]; simpl; [done|]. by rewrite decide_False, IH. Qed.

(** ** The bucket *)
Definition ref_names (st : gmap string bytes) (prefix : string) : list string :=
  filter (fun name => starts_with prefix name = true) (map fst (map_to_list st)).

(** One name per page; the token is as long as the names already listed are many. *)
Definition ref_index (tok : option string) : nat :=
  match tok with Some t => String.length t | None => 0 end.
Definition ref_page (st : gmap string bytes) (prefix : string) (tok : option string) : list string * string :=
  let names := ref_names st prefix in
  let i := ref_index tok in
  (take 1 (drop i names), if (S i <? length names)%nat then zeros (S i) "" else ""%string).

Definition names_codec : codec (list string * string) := pair_codec (list_codec string_codec) string_codec.
Definition page_json (p : list string * string) : JsonValue.t :=
  JsonValue.Object [("items", JsonValue.Array (map (fun n => JsonValue.Object [("name", JsonValue.String n)]) p.1));
                    ("nextPageToken", JsonValue.String p.2)]%string.
#[export] Instance ref_json_value : FromJson JsonValue.t := fun body =>
  match dec names_codec body with
  | Some (p, []) => Ok (page_json p)
  | _ => Err "not a page"%string
  end.

Definition ref_bucket : string := "demo-bucket".
Definition ref_host : string := "http://localhost:4443".
Definition ref_base : string := ref_host +:+ "/storage/v1/b/" +:+ ref_bucket +:+ "/o?prefix=".

Definition ref_rest (st : gmap string bytes) (url : string) : SendOutcome :=
  match strip_prefix ref_base url with
  | None => Response 404 (Ok [])
  | Some rest =>
      let '(prefix, tok) :=
        match split_once "&" rest with
        | None => (rest, None)
        | Some (p, q) => (p, ref_decode <$> strip_prefix "pageToken=" q)
        end in
      Response 200 (Ok (enc names_codec (ref_page st (ref_decode prefix) tok)))
  end.

#[export] Instance ref_store : ObjectStore := {|
  Store := gmap string bytes;
  storage_build _ := Ok tt;
  control_build _ := Ok tt;
  write_object st _ path d := (<[path := d]> st, Ok tt);
  read_object st _ path :=
    match st !! path with Some d => Ok [Ok (take 7 d); Ok (drop 7 d)] | None => Err "404 No such object"%string end;
  list_objects st _ prefix tok := Ok (ref_page st prefix tok);
  page_count st _ prefix := Nat.max 1 (length (ref_names st prefix));
  rest_get := ref_rest;
  rest_status_display := int_to_string;
  rest_body_text := string_of_bytes;
  percent_encode := ref_encode;
|}.

Lemma zeros_length n : String.length (zeros n "") = n.
Proof. induction n as [|n IH]; [done|]. simpl. by rewrite IH. Qed.

Lemma ref_pages_from st prefix k : forall tok,
  length (ref_names st prefix) = (ref_index tok + S k)%nat ->
  Pages (ref_page st prefix) tok (drop (ref_index tok) (ref_names st prefix)) (S k).
Proof.
  induction k as [|k IH]; intros tok Hlen.
  - replace (drop (ref_index tok) (ref_names st prefix))
      with (take 1 (drop (ref_index tok) (ref_names st prefix))) by (apply take_ge; rewrite length_drop; lia).
    apply pages_last. unfold ref_page. by rewrite (proj2 (Nat.ltb_ge _ _)) by lia.
  - specialize (IH (Some (zeros (S (ref_index tok)) ""))). cbn [ref_index] in IH.
    rewrite zeros_length in IH.
    replace (drop (ref_index tok) (ref_names st prefix))
      with (take 1 (drop (ref_index tok) (ref_names st prefix)) ++ drop (S (ref_index tok)) (ref_names st prefix))
      by (rewrite <- (take_drop 1 (drop (ref_index tok) (ref_names st prefix))) at 2; f_equal;
          rewrite drop_drop; f_equal; lia).
    apply (pages_more _ _ _ (zeros (S (ref_index tok)) "")); [|done|apply IH; lia].
    unfold ref_page. by rewrite (proj2 (Nat.ltb_lt _ _)) by lia.
Qed.

Lemma elem_of_ref_names st prefix name :
  name ∈ ref_names st prefix <-> is_Some (st !! name) /\ starts_with prefix name = true.
Proof.
  unfold ref_names. rewrite list_elem_of_filter, list_elem_of_fmap. split.
  - intros [Hs ([n d] & -> & H)]. apply elem_of_map_to_list in H. cbn in *. by rewrite H.
  - intros [[d Hd] Hs]. split; [done|]. exists (name, d). split; [done|]. by apply elem_of_map_to_list.
Qed.

#[export] Instance ref_store_laws :
  ObjectStoreLaws (H := ref_store) ref_bucket (fun st : @Store ref_store => st) ref_page.
Proof.
  constructor.
  - intros st path d. by eexists.
  - intros st path d Hd. exists [take 7 d; drop 7 d]. cbn in *. rewrite Hd. split; [done|].
    by rewrite app_nil_r, take_drop.
  - intros st path Hd. cbn in *. rewrite Hd. by eexists.
  - done.
  - intros st prefix. exists (ref_names st prefix). split; [|split].
    + cbn. destruct (ref_names st prefix) as [|x l] eqn:E; [apply pages_last; unfold ref_page; by rewrite E|].
      rewrite <- E. change (ref_names st prefix) with (drop (ref_index None) (ref_names st prefix)) at 1.
      replace (Nat.max 1 (length (ref_names st prefix))) with (S (length l)) by (rewrite E; cbn; lia).
      apply ref_pages_from. by rewrite E.
    + apply NoDup_filter, NoDup_fst_map_to_list.
    + apply elem_of_ref_names.
  - intros st prefix name Hs Hw. unfold ref_page. cbn [ref_index fst drop].
    pose proof (proj2 (elem_of_ref_names st prefix name) (conj Hs Hw)) as Hin.
    destruct (ref_names st prefix); [by apply not_elem_of_nil in Hin | done].
Qed.

Lemma page_json_describes p : describes (page_json p) p.1 p.2.
Proof.
  split; right; [|done]. eexists. split; [reflexivity|]. apply Forall2_fmap_r, Forall_Forall2_diag.
  by apply Forall_forall.
Qed.

Lemma ref_base_app : ref_base = ref_host +:+ "/storage/v1/b/" +:+ ref_bucket +:+ "/o?prefix=".
Proof. done. Qed.

Lemma ref_rest_page st prefix suffix tok :
  match split_once "&" (ref_encode prefix +:+ suffix) with
  | None => (ref_encode prefix +:+ suffix, None)
  | Some (p, q) => (p, ref_decode <$> strip_prefix "pageToken=" q)
  end = (ref_encode prefix, tok) ->
  ref_rest st (ref_base +:+ ref_encode prefix +:+ suffix)
  = Response 200 (Ok (enc names_codec (ref_page st prefix tok))).
Proof.
  intros H. unfold ref_rest. rewrite strip_prefix_app, H. by rewrite ref_decode_encode.
Qed.

Lemma ref_from_page p : from_slice (A := JsonValue.t) (enc names_codec p) = Ok (page_json p).
Proof.
  unfold from_slice, ref_json_value. rewrite <- (app_nil_r (enc names_codec p)). by rewrite dec_enc.
Qed.

Lemma string_app_empty s : s +:+ "" = s.
Proof. induction s as [|a s IH]; [done|]. by rewrite string_app_cons, IH. Qed.

#[export] Instance ref_emulator_laws : EmulatorLaws (H := ref_store) ref_bucket ref_host ref_page.
Proof.
  assert (Hb : forall x, ref_host +:+ "/storage/v1/b/" +:+ ref_bucket +:+ "/o?prefix=" +:+ x = ref_base +:+ x)
    by (intros x; by rewrite ref_base_app, !string_app_assoc).
  constructor.
  - intros st prefix tok. exists 200, (enc names_codec (ref_page st prefix tok)), (page_json (ref_page st prefix tok)).
    split_and!; [|done|apply ref_from_page|apply page_json_describes].
    cbn [rest_get percent_encode ref_store]. rewrite Hb. apply ref_rest_page. destruct tok as [t|].
    + change ("&pageToken=" +:+ ref_encode t) with (String "&" ("pageToken=" +:+ ref_encode t)).
      rewrite split_once_plain by apply ref_encode_plain. rewrite strip_prefix_app. cbn.
      by rewrite ref_decode_encode.
    + by rewrite string_app_empty, split_once_all by apply ref_encode_plain.
  - intros st prefix. exists 200, (enc names_codec (ref_page st prefix None)), (page_json (ref_page st prefix None)).
    eexists (snd (ref_page st prefix None)). split_and!; [|done|apply ref_from_page|].
    + cbn [rest_get percent_encode ref_store]. rewrite Hb. apply ref_rest_page.
      by rewrite (split_once_plain "&" _ "maxResults=1") by apply ref_encode_plain.
    + assert (Ht : take 1 (ref_page st prefix None).1 = (ref_page st prefix None).1)
        by (unfold ref_page; cbn; by destruct (ref_names st prefix)).
      rewrite Ht. apply page_json_describes.
Qed.

(** ** The theorems on it *)

(** The sequencer uses Google's client, the validator the emulator's interface; the
    bucket holds an unrelated object. *)
Definition seq_client : StorageClient.t := StorageClient.mk (StorageConfig.gcs ref_bucket "prod/v1") false.
Definition val_client : StorageClient.t :=
  StorageClient.mk (StorageConfig.with_emulator ref_host (StorageConfig.gcs ref_bucket "prod/v1")) true.
Definition start_map : gmap string bytes := {[ "backups/db.sqlite"%string := [x01; x02] ]}.
Definition start_store : @Store ref_store := start_map.
Definition start_cloud : GcsTransport.t := GcsTransport.mk seq_client start_store.

Lemma seq_client_reaches : reaches_store (page := ref_page) (bucket := ref_bucket) seq_client.
Proof. by split. Qed.
Lemma val_client_reaches : reaches_store (page := ref_page) (bucket := ref_bucket) val_client.
Proof. split; [done|]. intros _. exists ref_host. split; [done|]. exact ref_emulator_laws. Qed.

Lemma start_bucket_log :
  bucket_log (objects := fun st : @Store ref_store => st) "prod/v1" start_store [].
Proof.
  split; [by split; constructor|]. split; [by intros b Hb%not_elem_of_nil|].
  intros name [d Hd] Hw. change (start_map !! name = Some d) in Hd.
  unfold start_map in Hd. apply lookup_singleton_Some in Hd as [<- _].
  by vm_compute in Hw.
Qed.
Lemma start_cloud_log : cloud_log (objects := fun st : @Store ref_store => st) seq_client start_cloud [].
Proof. split; [done|]. exact start_bucket_log. Qed.

Lemma cloud_storage_serves_log_witness :
  exists bs tr', published bs = [demo_msg 0; demo_msg 1; demo_msg 2] /\
    publish_all start_cloud bs = (tr', Ok tt) /\
    fetch_list (GcsFetcher.mk val_client (GcsTransport.store tr')) = Ok (map (cloud_info "prod/v1") bs).
Proof.
  destruct (shutdown_log (L := local_transport_laws (rows := ref_rows)) demo_km demo_vk demo_key_bytes
              (ref_signer_available demo_km) demo_config (Local.new Local.InMemory) 0 demo_events 1805 4200)
    as (bs & [Hwf _] & Hr & Hcv & Hpub).
  - split; [by split; constructor | constructor].
  - exact demo_messages_good.
  - repeat (apply Forall_cons_2; [done|]). constructor.
  - vm_compute; split; [discriminate | reflexivity].
  - change (concat (map event_messages demo_events)) with [demo_msg 0; demo_msg 1; demo_msg 2] in Hpub.
    assert (Hg : good_messages demo_vk (published bs)) by (rewrite Hpub; exact demo_messages_good).
    destruct (good_internal demo_vk _ Hg) as [sms Hms]. exists bs.
    set (tr' := fst (publish_all start_cloud bs)).
    destruct (cloud_storage_serves_log (OL := ref_store_laws) seq_client
                (GcsFetcher.mk val_client (GcsTransport.store tr')) start_cloud bs demo_vk sms
                seq_client_reaches eq_refl start_bucket_log Hwf Hr Hcv Hg Hms) as (tr1 & Hp & H).
    assert (tr' = tr1) as -> by (unfold tr'; rewrite Hp; reflexivity).
    exists tr1. split; [exact Hpub|]. split; [exact Hp|].
    apply H. split; [exact val_client_reaches | split; reflexivity].
Defined.

Abbreviation cloud_after :=
  (after_shutdown demo_km demo_config start_cloud 0 request_events 1805 4200).

Lemma requests_reach_replica_cloud_witness :
  exists v1, Validator.sync_to_head_batched 0 demo_validator
               (GcsFetcher.mk val_client (GcsTransport.store cloud_after)) 1900 = (v1, Some (Ok 2)) /\
    Validator.last_sequence v1 = Ok (Some 1).
Proof.
  destruct (requests_reach_replica_cloud (OL := ref_store_laws) demo_km demo_vk demo_key_bytes
              (ref_signer_available demo_km) demo_config seq_client start_cloud 0 demo_requests request_events
              1805 4200 (GcsFetcher.mk val_client (GcsTransport.store cloud_after)) demo_validator 1900)
    as (sms & Hlen & Hcar & H);
    [exact seq_client_reaches | exact start_cloud_log | cbn; unfold i64_max; lia | exact demo_requests_ok
     | exact request_events_messages | exact request_events_ok | unfold is_u64; lia
     | split; [exact val_client_reaches | split; reflexivity] | reflexivity | reflexivity |].
  destruct sms as [|m1 [|m2 [|]]]; try discriminate Hlen.
  destruct (Hcar 0%nat _ eq_refl) as (? & [= <-] & Hc1). destruct (Hcar 1%nat _ eq_refl) as (? & [= <-] & Hc2).
  destruct (demo_change_applies demo_validator 1900 m1 _ eq_refl Hc1) as (va & Ha & _).
  destruct (demo_withdrawal_applies va 1900 m2 _ Hc2) as (vb & Hb).
  destruct (H vb) as (Hbatch & _ & Hlast); [cbn; rewrite Ha, Hb; reflexivity|].
  exists vb. split; [exact (Hbatch 0%nat) | exact (Hlast ltac:(discriminate))].
Defined.
