(* ===== verification/Bridge.v ===== *)
(** * Bridge signatures of the validator
    (crates/synddb-validator/src/bridge/signer.rs and bridge/signature_store.rs)

    The signer attests message ids for the Bridge contract; the store keeps the
    signatures until a relayer has submitted them. *)
From Stdlib Require Import Ascii Strings.Byte.
From S2P Require Import Prelude RustStd Extern Reference Cose SignedTypes StateStore Inbox.
From S2P Require Import InboxProps.

(** ** signer.rs *)
Module MessageSignature.
Record t := mk { message_id : string; signature : bytes; signer : bytes; signed_at : Z }.
End MessageSignature.

Module BridgeSigner.
Section ops.
Context `{HX : Hex} `{CR : Crypto} `{SG : !Signer}.
Record t := mk {
  key_manager : EvmKeyManager.t;
  bridge_contract : bytes;
  chain_id : Z;
}.
Definition address (s : t) : bytes := EvmKeyManager.address (key_manager s).

Definition eth_signed_message_hash (message : bytes) : bytes :=
  keccak256 (Inbox.eip191_prefix ++ message).

Definition create_message_signature (s : t) (now : Z) (message_id : bytes) (signature : AlloySignature)
  : MessageSignature.t :=
  MessageSignature.mk (hex0x message_id)
    (alloy_r signature ++ alloy_s signature ++ [if alloy_v signature then x1c else x1b])
    (address s) now.

Definition sign_message_sync (s : t) (now : Z) (message_id : bytes) : result AnyError MessageSignature.t :=
  let? signature := context "Failed to sign message"
      (EvmKeyManager.sign_hash_sync (key_manager s) (eth_signed_message_hash message_id)) in
  Ok (create_message_signature s now message_id signature).
End ops.
End BridgeSigner.

(** ** signature_store.rs: the data behind the lock *)
Module SignatureStore.
Record t := mk { signatures : gmap string MessageSignature.t; pending : list string }.
Definition new : t := mk ∅ [].

Definition store (s : t) (signature : MessageSignature.t) : t :=
  let message_id := MessageSignature.message_id signature in
  let is_new := negb (bool_decide (is_Some (signatures s !! message_id))) in
  mk (<[message_id := signature]> (signatures s))
     (if is_new then pending s ++ [message_id] else pending s).

Definition get (s : t) (message_id : string) : option MessageSignature.t := signatures s !! message_id.
Definition pending_ids (s : t) : list string := pending s.
Definition pending_signatures (s : t) : list MessageSignature.t :=
  omap (fun id => signatures s !! id) (pending s).

(** [retain(|id| id != message_id)] *)
Definition retain_other (message_id : string) (l : list string) : list string :=
  List.filter (fun id => negb (bool_decide (id = message_id))) l.
Definition mark_submitted (s : t) (message_id : string) : t :=
  mk (signatures s) (retain_other message_id (pending s)).
Definition remove (s : t) (message_id : string) : t * option MessageSignature.t :=
  (mk (delete message_id (signatures s)) (retain_other message_id (pending s)),
   signatures s !! message_id).
Definition len (s : t) : nat := size (signatures s).
Definition is_empty (s : t) : bool := bool_decide (len s = 0%nat).
Definition pending_count (s : t) : nat := length (pending s).

(** The operations that change the store, as one type, to speak of any history. *)
Inductive op := Store (m : MessageSignature.t) | Submitted (id : string) | Remove (id : string).
Definition apply_op (s : t) (o : op) : t :=
  match o with
  | Store m => store s m
  | Submitted id => mark_submitted s id
  | Remove id => fst (remove s id)
  end.
Definition run (s : t) (ops : list op) : t := fold_left apply_op ops s.
End SignatureStore.

(** ** Properties *)

(** Pending ids are distinct and every one has its signature, stored under its
    own id. *)
Definition store_inv (s : SignatureStore.t) : Prop :=
  NoDup (SignatureStore.pending s) /\
  Forall (fun id => is_Some (SignatureStore.signatures s !! id)) (SignatureStore.pending s) /\
  (forall id m, SignatureStore.signatures s !! id = Some m -> MessageSignature.message_id m = id).

Lemma retain_other_spec id x l :
  x ∈ SignatureStore.retain_other id l <-> x ∈ l /\ x <> id.
Proof.
  unfold SignatureStore.retain_other. rewrite !list_elem_of_In, filter_In. cbn beta.
  case_bool_decide; cbn; intuition congruence.
Qed.

Lemma retain_other_NoDup id l : NoDup l -> NoDup (SignatureStore.retain_other id l).
Proof.
  induction 1 as [|x l Hx _ IH]; cbn; [constructor|]. case_bool_decide; cbn; [done|].
  constructor; [|done]. by intros [? _]%retain_other_spec.
Qed.

Lemma store_inv_op s o : store_inv s -> store_inv (SignatureStore.apply_op s o).
Proof.
  intros (Hnd & Hall & Hid). destruct o as [m|id|id]; cbn.
  - set (k := MessageSignature.message_id m). unfold SignatureStore.store. fold k.
    assert (Hkeep : forall x, is_Some (SignatureStore.signatures s !! x) ->
              is_Some (<[k := m]> (SignatureStore.signatures s) !! x)).
    { intros x Hx. destruct (decide (k = x)) as [->|Hne]; [rewrite lookup_insert_eq; eauto|].
      by rewrite lookup_insert_ne. }
    assert (Hids : forall x y, <[k := m]> (SignatureStore.signatures s) !! x = Some y ->
              MessageSignature.message_id y = x).
    { intros x y. destruct (decide (k = x)) as [<-|Hne]; [rewrite lookup_insert_eq; by intros [= <-]|].
      rewrite lookup_insert_ne by done. apply Hid. }
    assert (Hall' : Forall (fun id => is_Some (<[k := m]> (SignatureStore.signatures s) !! id))
              (SignatureStore.pending s)) by (eapply Forall_impl; [exact Hall | exact Hkeep]).
    case_bool_decide as Hnew; cbn; split_and!; auto.
    + apply NoDup_app. split_and!; [done| |apply NoDup_singleton].
      intros x Hx Hk. apply list_elem_of_singleton in Hk as ->. rewrite Forall_forall in Hall. auto.
    + apply Forall_app_2; [exact Hall' | apply Forall_singleton].
      exists m. apply lookup_insert_eq.
  - split_and!; [by apply retain_other_NoDup| |done]. apply Forall_forall.
    intros x [Hx _]%retain_other_spec. rewrite Forall_forall in Hall. auto.
  - split_and!; [by apply retain_other_NoDup| |].
    + apply Forall_forall. intros x [Hx Hne]%retain_other_spec. rewrite Forall_forall in Hall. cbn.
      rewrite lookup_delete_ne by done. auto.
    + cbn. intros x y [_ Hx]%lookup_delete_Some. auto.
Qed.

Lemma pending_signatures_ids s :
  store_inv s ->
  map MessageSignature.message_id (SignatureStore.pending_signatures s) = SignatureStore.pending_ids s.
Proof.
  intros (_ & Hall & Hid). unfold SignatureStore.pending_signatures, SignatureStore.pending_ids.
  induction Hall as [|x l [m Hm] _ IH]; cbn; [done|]. rewrite Hm. cbn. by rewrite (Hid _ _ Hm), IH.
Qed.

(** Whatever the validator and the relayers do, the pending list names each
    message at most once and every pending message has its signature, so
    [pending_signatures] returns one signature per pending id, in order; storing a
    signature makes it readable, and it is pending exactly if it was pending
    before or is new. *)
Theorem signature_store_consistent (ops : list SignatureStore.op) (m : MessageSignature.t) :
  let s := SignatureStore.run SignatureStore.new ops in
  let id := MessageSignature.message_id m in
  store_inv s /\
  map MessageSignature.message_id (SignatureStore.pending_signatures s) = SignatureStore.pending_ids s /\
  SignatureStore.get (SignatureStore.store s m) id = Some m /\
  (id ∈ SignatureStore.pending_ids (SignatureStore.store s m) <->
   id ∈ SignatureStore.pending_ids s \/ SignatureStore.get s id = None) /\
  ~ (id ∈ SignatureStore.pending_ids (SignatureStore.mark_submitted s id)) /\
  SignatureStore.get (SignatureStore.mark_submitted s id) id = SignatureStore.get s id.
Proof.
  cbn zeta. set (s := SignatureStore.run SignatureStore.new ops).
  assert (Hinv : store_inv s).
  { unfold s, SignatureStore.run. assert (H0 : store_inv SignatureStore.new) by (by repeat constructor).
    revert H0. generalize SignatureStore.new. induction ops as [|o ops IH]; intros s0 H0; cbn; [done|].
    apply IH. by apply store_inv_op. }
  split; [done|]. split; [by apply pending_signatures_ids|]. split_and!.
  - apply lookup_insert_eq.
  - unfold SignatureStore.pending_ids, SignatureStore.get, SignatureStore.store. cbn.
    case_bool_decide as Hn; cbn.
    + split; [auto|]. intros [H|H]; [done|]. rewrite H in Hn. by destruct Hn.
    + split; [|intros _; rewrite elem_of_app; right; by apply list_elem_of_singleton].
      intros _. right. by apply eq_None_not_Some.
  - by intros [_ ?]%retain_other_spec.
  - done.
Qed.

Section signer.
Context `{HX : Hex} `{CR : Crypto} `{SG : !Signer}.
Context {HL : HexLaws} {CL : CryptoLaws} {GL : SignerLaws}.

(** [sign_message] produces what the Bridge contract recovers: 65 bytes
    [r || s || v] with [v] 27 or 28 whose first 64 bytes verify, under the
    validator's key, over the EIP-191 hash of the message id, filed under that id. *)
Theorem bridge_message_signed s now message_id :
  signer_available (BridgeSigner.key_manager s) ->
  exists rs v vk sg,
    BridgeSigner.sign_message_sync s now message_id
      = Ok (MessageSignature.mk (hex0x message_id) (rs ++ [v]) (BridgeSigner.address s) now) /\
    length rs = 64%nat /\ (v = x1b \/ v = x1c) /\
    verifying_key_from_bytes (EvmKeyManager.public_key (BridgeSigner.key_manager s)) = Ok vk /\
    sig_from_slice rs = Ok sg /\
    verify_prehash vk (keccak256 (Inbox.eip191_prefix ++ message_id)) sg = true.
Proof using CL GL.
  intros Hav. destruct (signer_key_valid (EvmKeyManager.signer (BridgeSigner.key_manager s))) as [vk Hvk].
  set (h := BridgeSigner.eth_signed_message_hash message_id).
  destruct (Hav h (keccak256_length _)) as [a Ha].
  destruct (sign_verifies _ _ _ _ (keccak256_length _) Ha Hvk) as (sg & Hs & Hv).
  exists (alloy_r a ++ alloy_s a), (if alloy_v a then x1c else x1b), vk, sg. split_and!; auto.
  - unfold BridgeSigner.sign_message_sync, EvmKeyManager.sign_hash_sync, context. fold h. rewrite Ha.
    cbn [map_err result_bind]. unfold BridgeSigner.create_message_signature. by rewrite <- app_assoc.
  - by rewrite length_app, alloy_r_length, alloy_s_length.
  - destruct (alloy_v a); auto.
  - unfold verifying_key_from_bytes, EvmKeyManager.public_key. by rewrite Hvk.
Qed.
End signer.

Lemma bridge_message_signed_witness :
  exists sg, BridgeSigner.sign_message_sync (BridgeSigner.mk demo_km (to_be_bytes 20 9) 31337) 1700
               (to_be_bytes 32 77) = Ok sg.
Proof.
  destruct (bridge_message_signed (BridgeSigner.mk demo_km (to_be_bytes 20 9) 31337) 1700 (to_be_bytes 32 77))
    as (rs & v & vk & sg & H & _); [apply ref_signer_available|]. eexists. exact H.
Defined.
