(* ===== verification/Jwt.v ===== *)
(** * Verification of a Confidential Space attestation token
    (crates/gcp-attestation/src/jwt.rs and verify.rs) and the zkVM guest program
    around it (crates/synddb-bootstrap/risc0/program/src/main.rs)

    serde_json and the rsa crate are parameters.  The guest reads its inputs from
    the host and commits the ABI encoding of the attested values; the encoding
    itself (alloy's [sol!]) is the class [PublicValuesAbi]. *)
From Stdlib Require Import Ascii Strings.Byte.
From S2P Require Import Prelude RustStd Base64 Extern Net.

(** ** crates/gcp-attestation/src/jwt.rs *)

Module JwtHeader.
Record t := mk { alg : string; kid : string; typ : option string }.
End JwtHeader.

Module ContainerInfo.
Record t := mk { image_digest : option string; image_reference : option string }.
End ContainerInfo.

Module SubMods.
Record t := mk { container : option ContainerInfo.t }.
End SubMods.

Module GcpCsClaims.
Record t := mk {
  iss : string;
  sub : string;
  aud : string;
  exp : Z;
  iat : Z;
  nbf : Z;
  secboot : bool;
  hwmodel : option string;
  swname : option string;
  dbgstat : option string;
  eat_nonce : option string;
  submods : option SubMods.t;
}.

Definition image_digest (c : t) : option string :=
  s ← submods c; ct ← SubMods.container s; ContainerInfo.image_digest ct.

Definition is_debug_disabled (c : t) : bool :=
  bool_decide (dbgstat c = Some "disabled-since-boot"%string).
End GcpCsClaims.

Module JwkKey.
Record t := mk {
  alg : option string;
  kid : string;
  kty : string;
  n : string;
  e : string;
  use_ : option string;
}.
End JwkKey.

Module ParsedJwt.
Record t := mk {
  header : JwtHeader.t;
  claims : GcpCsClaims.t;
  signature : bytes;
  signing_input : bytes;
}.
End ParsedJwt.

Definition b_dot : byte := "."%byte.

(** ** The rsa crate with SHA-256 *)
Class Rsa := {
  RsaPublicKey : Type;
  RsaSignature : Type;
  (** [RsaPublicKey::new(n, e)] *)
  rsa_public_key_new : Z -> Z -> result string RsaPublicKey;
  (** [pkcs1v15::Signature::try_from], [VerifyingKey::<Sha256>::verify] *)
  rsa_sig_try_from : bytes -> result string RsaSignature;
  rsa_verify : RsaPublicKey -> bytes -> RsaSignature -> result string unit;
}.

(** ** crates/gcp-attestation/src/verify.rs: data *)

Inductive VerificationError :=
| JwtParseError (why : string)
| UnsupportedAlgorithm (alg : string)
| KeyNotFound (kid : string)
| InvalidKeyType (kty : string)
| KeyDecodeError (what : string)
| RsaKeyError (why : string)
| SignatureVerificationFailed (why : string)
| InvalidIssuer (iss : string)
| InvalidSwname (swname : string)
| InvalidAudience (expected actual : string)
| TokenExpired (exp : Z)
| TokenNotYetValid (nbf : Z).

Module ValidationResult.
Record t := mk {
  signing_key_id : string;
  validity_window_start : Z;
  validity_window_end : Z;
  image_digest : string;
  secboot : bool;
  audience : string;
  nonce : option string;
  dbgstat : string;
  hwmodel : string;
}.
End ValidationResult.

(** The one-field header [extract_kid_from_jwt] reads. *)
Module MinimalHeader.
Record t := mk { kid : string }.
End MinimalHeader.

Definition ISSUER : string := "https://confidentialcomputing.googleapis.com".

Section verify.
Context `{JH : FromJson JwtHeader.t} `{JC : FromJson GcpCsClaims.t} `{JM : FromJson MinimalHeader.t}.
Context `{RS : Rsa}.

Definition parse_jwt (token : bytes) : result string ParsedJwt.t :=
  let? token_str := map_err (fun _ => "Invalid UTF-8 in JWT"%string) (from_utf8 token) in
  match split_char "." token_str with
  | [header_b64; payload_b64; signature_b64] =>
      let? header_bytes := Gcp.decode_base64url (as_bytes header_b64) in
      let? header := map_err (fun _ => "Failed to parse JWT header"%string)
                             (from_slice (A := JwtHeader.t) header_bytes) in
      let? payload_bytes := Gcp.decode_base64url (as_bytes payload_b64) in
      let? claims := map_err (fun _ => "Failed to parse JWT claims"%string)
                             (from_slice (A := GcpCsClaims.t) payload_bytes) in
      let? signature := Gcp.decode_base64url (as_bytes signature_b64) in
      let signing_input := as_bytes header_b64 ++ [b_dot] ++ as_bytes payload_b64 in
      Ok (ParsedJwt.mk header claims signature signing_input)
  | _ => Err "JWT must have 3 parts"%string
  end.

Definition verify_rs256_signature (parsed : ParsedJwt.t) (jwk : JwkKey.t)
    : result VerificationError unit :=
  if decide (JwkKey.kty jwk = "RSA"%string) then
    let? n_bytes := map_err (fun _ => KeyDecodeError "modulus")
                            (Gcp.decode_base64url (as_bytes (JwkKey.n jwk))) in
    let? e_bytes := map_err (fun _ => KeyDecodeError "exponent")
                            (Gcp.decode_base64url (as_bytes (JwkKey.e jwk))) in
    let n := from_be_bytes 0 n_bytes in
    let e := from_be_bytes 0 e_bytes in
    let? public_key := map_err RsaKeyError (rsa_public_key_new n e) in
    let? signature := map_err SignatureVerificationFailed
                              (rsa_sig_try_from (ParsedJwt.signature parsed)) in
    map_err SignatureVerificationFailed
            (rsa_verify public_key (ParsedJwt.signing_input parsed) signature)
  else Err (InvalidKeyType (JwkKey.kty jwk)).

(** The checks on the claims after the signature. *)
Definition check_swname (c : GcpCsClaims.t) : result VerificationError unit :=
  match GcpCsClaims.swname c with
  | Some swname => if decide (swname = "CONFIDENTIAL_SPACE"%string) then Ok tt
                   else Err (InvalidSwname swname)
  | None => Ok tt
  end.

Definition check_audience (c : GcpCsClaims.t) (expected : option string)
    : result VerificationError unit :=
  match expected with
  | Some aud => if decide (GcpCsClaims.aud c = aud) then Ok tt
                else Err (InvalidAudience aud (GcpCsClaims.aud c))
  | None => Ok tt
  end.

Definition check_time (c : GcpCsClaims.t) (current_time : option Z)
    : result VerificationError unit :=
  match current_time with
  | Some now =>
      if GcpCsClaims.exp c <=? now then Err (TokenExpired (GcpCsClaims.exp c))
      else if (0 <? GcpCsClaims.nbf c) && (now <? GcpCsClaims.nbf c)
      then Err (TokenNotYetValid (GcpCsClaims.nbf c))
      else Ok tt
  | None => Ok tt
  end.

Definition unwrap_or_default (o : option string) : string := default ""%string o.

Definition verify_attestation (jwt_bytes : bytes) (jwk : JwkKey.t)
    (expected_audience : option string) (current_time : option Z)
    : result VerificationError ValidationResult.t :=
  let? parsed := map_err JwtParseError (parse_jwt jwt_bytes) in
  let header := ParsedJwt.header parsed in
  let claims := ParsedJwt.claims parsed in
  if negb (bool_decide (JwtHeader.alg header = "RS256"%string))
  then Err (UnsupportedAlgorithm (JwtHeader.alg header)) else
  if negb (bool_decide (JwtHeader.kid header = JwkKey.kid jwk))
  then Err (KeyNotFound (JwtHeader.kid header)) else
  let? _ := verify_rs256_signature parsed jwk in
  if negb (bool_decide (GcpCsClaims.iss claims = ISSUER))
  then Err (InvalidIssuer (GcpCsClaims.iss claims)) else
  let? _ := check_swname claims in
  let? _ := check_audience claims expected_audience in
  let? _ := check_time claims current_time in
  Ok (ValidationResult.mk (JwtHeader.kid header) (GcpCsClaims.iat claims)
        (GcpCsClaims.exp claims) (unwrap_or_default (GcpCsClaims.image_digest claims))
        (GcpCsClaims.secboot claims) (GcpCsClaims.aud claims) (GcpCsClaims.eat_nonce claims)
        (unwrap_or_default (GcpCsClaims.dbgstat claims))
        (unwrap_or_default (GcpCsClaims.hwmodel claims))).

Definition find_jwk_by_kid (keys : list JwkKey.t) (kid : string) : option JwkKey.t :=
  snd <$> list_find (fun k => JwkKey.kid k = kid) keys.

Definition extract_kid_from_jwt (jwt_bytes : bytes) : result string string :=
  let? token_str := map_err (fun _ => "Invalid UTF-8 in JWT"%string) (from_utf8 jwt_bytes) in
  let? '(header_b64, _) := ok_or "Invalid JWT format"%string (split_once "." token_str) in
  let? header_bytes := Gcp.decode_base64url (as_bytes header_b64) in
  let? header := map_err (fun _ => "Failed to parse JWT header"%string)
                         (from_slice (A := MinimalHeader.t) header_bytes) in
  Ok (MinimalHeader.kid header).
End verify.

(** ** The values committed for the chain
    (crates/synddb-bootstrap/risc0/program/src/types.rs, [PublicValuesStruct]) *)
Module PublicValues.
Record t := mk {
  jwk_key_hash : bytes;            (* bytes32 *)
  validity_window_start : Z;       (* uint64 *)
  validity_window_end : Z;
  image_digest_hash : bytes;
  tee_signing_key : bytes;         (* address *)
  secboot : bool;
  dbgstat_disabled : bool;
  audience_hash : bytes;
  image_signature_v : Z;           (* uint8 *)
  image_signature_r : bytes;
  image_signature_s : bytes;
}.

Definition valid (v : t) : Prop :=
  length (jwk_key_hash v) = 32%nat /\ is_u64 (validity_window_start v) /\
  is_u64 (validity_window_end v) /\ length (image_digest_hash v) = 32%nat /\
  length (tee_signing_key v) = 20%nat /\ length (audience_hash v) = 32%nat /\
  0 <= image_signature_v v < 256 /\ length (image_signature_r v) = 32%nat /\
  length (image_signature_s v) = 32%nat.
End PublicValues.

(** The ABI encoding of a struct of static fields: one 32-byte slot each, shorter
    values right-aligned (Solidity ABI specification). *)
Definition abi_bool (b : bool) : Z := if b then 1 else 0.
Definition abi_slots (v : PublicValues.t) : bytes :=
  PublicValues.jwk_key_hash v
  ++ to_be_bytes 32 (PublicValues.validity_window_start v)
  ++ to_be_bytes 32 (PublicValues.validity_window_end v)
  ++ PublicValues.image_digest_hash v
  ++ replicate 12 x00 ++ PublicValues.tee_signing_key v
  ++ to_be_bytes 32 (abi_bool (PublicValues.secboot v))
  ++ to_be_bytes 32 (abi_bool (PublicValues.dbgstat_disabled v))
  ++ PublicValues.audience_hash v
  ++ to_be_bytes 32 (PublicValues.image_signature_v v)
  ++ PublicValues.image_signature_r v
  ++ PublicValues.image_signature_s v.

(** alloy's [SolValue::abi_encode] and [abi_decode] at this type. *)
Class PublicValuesAbi := {
  abi_encode : PublicValues.t -> bytes;
  abi_decode : bytes -> option PublicValues.t;
}.
Class PublicValuesAbiLaws `{PublicValuesAbi} : Prop := {
  abi_encode_slots v : PublicValues.valid v -> abi_encode v = abi_slots v;
  abi_decode_encode v : PublicValues.valid v -> abi_decode (abi_encode v) = Some v;
  abi_decode_valid b v : abi_decode b = Some v -> PublicValues.valid v;
}.

(** ** crates/synddb-bootstrap/risc0/program/src/main.rs *)

(** [keccak256(pubkey)[12..]]: an Ethereum address. *)
Definition evm_address `{Crypto} (public_key : bytes) : bytes := drop 12 (keccak256 public_key).

(** [assert!] failures and the [expect] abort the guest: no journal. *)
Definition parse_image_signature (sig : bytes) : result VerificationError (Z * bytes * bytes) :=
  if negb (Nat.eqb (length sig) 65)
  then Panic "Image signature must be exactly 65 bytes (r || s || v)" else
  Ok (Z_of_byte (nth 64 sig x00), take 32 sig, take 32 (drop 32 sig)).

Section guest.
Context `{JH : FromJson JwtHeader.t} `{JC : FromJson GcpCsClaims.t}.
Context `{RS : Rsa} `{CR : Crypto} `{AB : PublicValuesAbi}.

Definition guest_main (jwt_bytes : bytes) (jwk : JwkKey.t) (expected_audience : string)
    (evm_public_key : bytes) (image_signature : bytes) : result VerificationError bytes :=
  if negb (Nat.eqb (length evm_public_key) 64)
  then Panic "EVM public key must be exactly 64 bytes" else
  let? result :=
    match verify_attestation jwt_bytes jwk (Some expected_audience) None with
    | Err _ => Panic "Invalid GCP Confidential Space attestation"
    | r => r
    end in
  let? '(sig_v, sig_r, sig_s) := parse_image_signature image_signature in
  Ok (abi_encode
    (PublicValues.mk (keccak256 (as_bytes (ValidationResult.signing_key_id result)))
       (ValidationResult.validity_window_start result)
       (ValidationResult.validity_window_end result)
       (keccak256 (as_bytes (ValidationResult.image_digest result)))
       (evm_address evm_public_key)
       (ValidationResult.secboot result)
       (bool_decide (ValidationResult.dbgstat result = "disabled-since-boot"%string))
       (keccak256 (as_bytes (ValidationResult.audience result)))
       sig_v sig_r sig_s)).
End guest.
