(* ===== verification/Stylus.v ===== *)
(** * The on-chain attestation verifier
    (contracts/stylus/attestation-verifier/src/lib.rs)

    The contract's storage is a record, a call takes the sender and returns the new
    storage with the events it logs; the EVM precompiles are the class [Evm], the
    ABI codecs of alloy the classes [PublicValuesAbi] (shared with the guest) and
    [ProofDataAbi].  A call that returns an error is reverted by the VM. *)
From Stdlib Require Import Ascii Strings.Byte.
From S2P Require Import Prelude RustStd Base64 Extern Net Jwt.

#[export] Instance byte_countable : Countable byte.
Proof.
  refine (inj_countable' Byte.to_nat (fun n => default x00 (Byte.of_nat n)) _).
  intros b. by rewrite Byte.of_to_nat.
Defined.

(** ** Minimal JSON extraction: positions in the byte slice *)

Definition is_json_whitespace (b : byte) : bool :=
  bool_decide (b = x20) || bool_decide (b = x09) || bool_decide (b = x0a) || bool_decide (b = x0d).

(** [haystack.windows(needle.len()).position(|w| w == needle)] *)
Fixpoint window_position (needle haystack : bytes) : option nat :=
  if Nat.ltb (length haystack) (length needle) then None else
  if decide (take (length needle) haystack = needle) then Some 0%nat else
  match haystack with
  | [] => None
  | _ :: h => S <$> window_position needle h
  end.

Definition find_subsequence (haystack needle : bytes) : option nat :=
  if Nat.ltb (length haystack) (length needle) then None else window_position needle haystack.

(** [while i < json.len() && p(json[i]) { i += 1 }] *)
Fixpoint count_while (p : byte -> bool) (l : bytes) : nat :=
  match l with b :: l' => if p b then S (count_while p l') else 0%nat | [] => 0%nat end.
Definition skip_while (p : byte -> bool) (json : bytes) (i : nat) : nat :=
  (i + count_while p (drop i json))%nat.

Definition b_quote : byte := x22.
Definition b_colon : byte := ":"%byte.
Definition b_backslash : byte := x5c.

Definition key_pattern (key : bytes) : bytes := [b_quote] ++ key ++ [b_quote].

(** The [loop] of [json_find_key]; every turn moves [search_start] forward, so one
    more turn than there are bytes is enough. *)
Fixpoint find_key_loop (fuel : nat) (json pattern : bytes) (search_start : nat) : option nat :=
  match fuel with
  | O => None
  | S f =>
      match find_subsequence (drop search_start json) pattern with
      | None => None
      | Some pos =>
          let abs_pos := (search_start + pos)%nat in
          let after_pattern := (abs_pos + length pattern)%nat in
          let i := skip_while is_json_whitespace json after_pattern in
          if decide (json !! i = Some b_colon) then Some (i + 1)%nat else
          let search_start := (abs_pos + 1)%nat in
          if Nat.leb (length json) search_start then None
          else find_key_loop f json pattern search_start
      end
  end.

Definition json_find_key (json key : bytes) : option nat :=
  find_key_loop (S (length json)) json (key_pattern key) 0.

(** The scan for the closing quote from [i]; [start] is after the opening one. *)
Fixpoint closing_quote_loop (fuel : nat) (json : bytes) (start i : nat) : option bytes :=
  match fuel with
  | O => None
  | S f =>
      match json !! i with
      | None => None
      | Some b =>
          let backslash_count :=
            count_while (fun c => bool_decide (c = b_backslash))
                        (rev (take (i - start) (drop start json))) in
          if bool_decide (b = b_quote) && Nat.even backslash_count
          then Some (take (i - start) (drop start json))
          else closing_quote_loop f json start (i + 1)
      end
  end.

Definition json_get_string (json key : bytes) : option bytes :=
  after_colon ← json_find_key json key;
  let i := skip_while is_json_whitespace json after_colon in
  if decide (json !! i = Some b_quote)
  then closing_quote_loop (S (length json)) json (i + 1) (i + 1)
  else None.

Definition is_ascii_digit (b : byte) : bool := byte_in 48 57 b.

(** [checked_mul(10)?.checked_add(digit)?] *)
Definition push_digit (acc : Z) (b : byte) : option Z :=
  let m := acc * 10 in
  if u64_max <? m then None else
  let s := m + (Z_of_byte b - 48) in
  if u64_max <? s then None else Some s.

Fixpoint u64_digits (l : bytes) (acc : Z) (found : bool) : option (Z * bool) :=
  match l with
  | b :: l' =>
      if is_ascii_digit b then acc' ← push_digit acc b; u64_digits l' acc' true
      else Some (acc, found)
  | [] => Some (acc, found)
  end.

Definition json_get_u64 (json key : bytes) : option Z :=
  after_colon ← json_find_key json key;
  let i := skip_while is_json_whitespace json after_colon in
  '(result, found) ← u64_digits (drop i json) 0 false;
  if (found : bool) then Some result else None.

Definition json_get_bool (json key : bytes) : option bool :=
  after_colon ← json_find_key json key;
  let i := skip_while is_json_whitespace json after_colon in
  if decide (take 4 (drop i json) = as_bytes "true") then Some true
  else if decide (take 5 (drop i json) = as_bytes "false") then Some false
  else None.

(** ** JWT parsing *)
Module StylusJwt.
Record t := mk {
  header_json : bytes;
  payload_json : bytes;
  signature : bytes;
  signing_input : bytes;
}.
End StylusJwt.

Definition stylus_parse_jwt (jwt_bytes : bytes) : result string StylusJwt.t :=
  let? jwt_str := map_err (fun _ => "Invalid UTF-8"%string) (from_utf8 jwt_bytes) in
  let parts := splitn_char 3 "." jwt_str in
  let? header_b64 := ok_or "Missing header"%string (parts !! 0%nat) in
  let? payload_b64 := ok_or "Missing payload"%string (parts !! 1%nat) in
  let? signature_b64 := ok_or "Missing signature"%string (parts !! 2%nat) in
  let? header_json := OnChain.base64url_decode (as_bytes header_b64) in
  let? payload_json := OnChain.base64url_decode (as_bytes payload_b64) in
  let? signature := OnChain.base64url_decode (as_bytes signature_b64) in
  let signing_input := as_bytes header_b64 ++ [b_dot] ++ as_bytes payload_b64 in
  Ok (StylusJwt.mk header_json payload_json signature signing_input).

(** ** PKCS#1 v1.5 *)

Definition PKCS1_SHA256_DIGEST_INFO : bytes := [
  x30; x31; x30; x0d; x06; x09; x60; x86; x48; x01; x65; x03; x04; x02; x01; x05; x00; x04; x20].

(** The [for] loop from index [i] on: [inl] is the early [return false], [inr] the
    separator position after the loop. *)
Fixpoint find_separator (l : bytes) (i : nat) : unit + option nat :=
  match l with
  | [] => inr None
  | b :: l' =>
      if decide (b = x00) then inr (Some i)
      else if decide (b = xff) then find_separator l' (S i)
      else inl tt
  end.

Definition verify_pkcs1v15_sha256 (decrypted expected_hash : bytes) : bool :=
  let len := length decrypted in
  if Nat.ltb len 62 then false else
  if negb (bool_decide (decrypted !! 0%nat = Some x00) && bool_decide (decrypted !! 1%nat = Some x01))
  then false else
  match find_separator (drop 2 decrypted) 2 with
  | inl _ | inr None => false
  | inr (Some separator_pos) =>
      if Nat.ltb separator_pos 10 then false else
      let digest_start := (separator_pos + 1)%nat in
      if negb (Nat.eqb (len - digest_start) (length PKCS1_SHA256_DIGEST_INFO + 32)) then false else
      if negb (bool_decide (take 19 (drop digest_start decrypted) = PKCS1_SHA256_DIGEST_INFO))
      then false else
      let hash_start := (digest_start + 19)%nat in
      bool_decide (take 32 (drop hash_start decrypted) = expected_hash)
  end.

(** ** Errors, events, storage *)
Module VerifierError.
Inductive t :=
| NotOwner (caller : bytes)
| AlreadyInitialized
| InvalidJwt
| UnsupportedAlgorithm
| UntrustedJwk (kid_hash : bytes)
| JwkKeyMaterialMismatch (kid_hash : bytes)
| RsaVerificationFailed
| InvalidIssuer
| ValidityWindowNotStarted (start current : Z)
| ValidityWindowExpired (end_ current : Z)
| ClaimsMismatch
| SecureBootRequired
| DebugModeNotAllowed
| UntrustedImageDigest (digest_hash : bytes)
| UntrustedImageSigner (signer : bytes)
| ImageSignatureInvalid
| EcrecoverFailed
| InvalidProofData
| InvalidPublicValues
| PrecompileFailed
| ZeroAddress
| ToleranceExceedsOneDay.
End VerifierError.

Inductive Event :=
| TrustedJwkAdded (kid_hash key_material_hash : bytes)
| TrustedJwkRemoved (kid_hash : bytes)
| AllowedImageDigestHashAdded (digest_hash : bytes)
| AllowedImageDigestHashRemoved (digest_hash : bytes)
| TrustedImageSignerAdded (signer : bytes)
| TrustedImageSignerRemoved (signer : bytes)
| OwnershipTransferred (previous_owner new_owner : bytes).

Module StylusProofData.
Record t := mk { jwt : bytes; jwk_modulus : bytes; jwk_exponent : bytes }.
End StylusProofData.

Class ProofDataAbi := {
  proof_data_encode : StylusProofData.t -> bytes;
  proof_data_decode : bytes -> option StylusProofData.t;
}.
Class ProofDataAbiLaws `{ProofDataAbi} : Prop :=
  proof_data_roundtrip p : proof_data_decode (proof_data_encode p) = Some p.

(** [call::static_call] to a precompile: [None] is a failed call. *)
Class Evm := static_call : bytes -> bytes -> option bytes.

(** [Address::with_last_byte] and [Address::ZERO]. *)
Definition address_with_last_byte (b : byte) : bytes := replicate 19 x00 ++ [b].
Definition ZERO_ADDRESS : bytes := replicate 20 x00.
Definition ZERO_32 : bytes := replicate 32 x00.
Definition ECRECOVER : bytes := address_with_last_byte x01.
Definition SHA256_PRECOMPILE : bytes := address_with_last_byte x02.
Definition MODEXP_PRECOMPILE : bytes := address_with_last_byte x05.

(** ** The contract *)
Module StylusAttestationVerifier.
Record t := mk {
  owner_ : bytes;
  initialized : bool;
  expiration_tolerance_ : Z;
  trusted_jwk_hashes : gmap bytes bool;
  jwk_key_material_hashes : gmap bytes bytes;
  allowed_image_digest_hashes : gmap bytes bool;
  trusted_image_signers : gmap bytes bool;
}.

(** Storage starts zeroed; an absent entry of a [StorageMap] reads as zero. *)
Definition deployed : t := mk ZERO_ADDRESS false 0 ∅ ∅ ∅ ∅.

Definition get_bool (m : gmap bytes bool) (k : bytes) : bool := default false (m !! k).

(** View functions. *)
Definition owner (c : t) : bytes := owner_ c.
Definition is_initialized (c : t) : bool := initialized c.
Definition expiration_tolerance (c : t) : Z := expiration_tolerance_ c.
Definition is_jwk_trusted (c : t) (kid_hash : bytes) : bool := get_bool (trusted_jwk_hashes c) kid_hash.
Definition jwk_key_material_hash (c : t) (kid_hash : bytes) : bytes :=
  default ZERO_32 (jwk_key_material_hashes c !! kid_hash).
Definition is_image_digest_hash_allowed (c : t) (digest_hash : bytes) : bool :=
  get_bool (allowed_image_digest_hashes c) digest_hash.
Definition is_image_signer_trusted (c : t) (signer : bytes) : bool :=
  get_bool (trusted_image_signers c) signer.

Definition only_owner (sender : bytes) (c : t) : result VerifierError.t unit :=
  if decide (sender = owner_ c) then Ok tt else Err (VerifierError.NotOwner sender).

Definition initialize (sender : bytes) (c : t) (tolerance : Z) : result VerifierError.t (t * list Event) :=
  if initialized c then Err VerifierError.AlreadyInitialized else
  if 86400 <? tolerance then Err VerifierError.ToleranceExceedsOneDay else
  Ok (mk sender true tolerance (trusted_jwk_hashes c) (jwk_key_material_hashes c)
        (allowed_image_digest_hashes c) (trusted_image_signers c), []).

Definition set_jwk (c : t) (kid_hash : bytes) (trusted : bool) (material : bytes) : t :=
  mk (owner_ c) (initialized c) (expiration_tolerance_ c)
     (<[kid_hash := trusted]> (trusted_jwk_hashes c))
     (<[kid_hash := material]> (jwk_key_material_hashes c))
     (allowed_image_digest_hashes c) (trusted_image_signers c).
Definition set_digest (c : t) (digest_hash : bytes) (allowed : bool) : t :=
  mk (owner_ c) (initialized c) (expiration_tolerance_ c)
     (trusted_jwk_hashes c) (jwk_key_material_hashes c)
     (<[digest_hash := allowed]> (allowed_image_digest_hashes c)) (trusted_image_signers c).
Definition set_signer (c : t) (signer : bytes) (trusted : bool) : t :=
  mk (owner_ c) (initialized c) (expiration_tolerance_ c)
     (trusted_jwk_hashes c) (jwk_key_material_hashes c)
     (allowed_image_digest_hashes c) (<[signer := trusted]> (trusted_image_signers c)).
Definition set_owner (c : t) (new_owner : bytes) : t :=
  mk new_owner (initialized c) (expiration_tolerance_ c)
     (trusted_jwk_hashes c) (jwk_key_material_hashes c)
     (allowed_image_digest_hashes c) (trusted_image_signers c).

Definition add_trusted_jwk (sender : bytes) (c : t) (kid_hash key_material_hash : bytes)
    : result VerifierError.t (t * list Event) :=
  let? _ := only_owner sender c in
  Ok (set_jwk c kid_hash true key_material_hash, [TrustedJwkAdded kid_hash key_material_hash]).

Definition remove_trusted_jwk (sender : bytes) (c : t) (kid_hash : bytes)
    : result VerifierError.t (t * list Event) :=
  let? _ := only_owner sender c in
  Ok (set_jwk c kid_hash false ZERO_32, [TrustedJwkRemoved kid_hash]).

Definition add_allowed_image_digest_hash (sender : bytes) (c : t) (digest_hash : bytes)
    : result VerifierError.t (t * list Event) :=
  let? _ := only_owner sender c in
  Ok (set_digest c digest_hash true, [AllowedImageDigestHashAdded digest_hash]).

Definition remove_allowed_image_digest_hash (sender : bytes) (c : t) (digest_hash : bytes)
    : result VerifierError.t (t * list Event) :=
  let? _ := only_owner sender c in
  Ok (set_digest c digest_hash false, [AllowedImageDigestHashRemoved digest_hash]).

Definition add_trusted_image_signer (sender : bytes) (c : t) (signer : bytes)
    : result VerifierError.t (t * list Event) :=
  let? _ := only_owner sender c in
  Ok (set_signer c signer true, [TrustedImageSignerAdded signer]).

Definition remove_trusted_image_signer (sender : bytes) (c : t) (signer : bytes)
    : result VerifierError.t (t * list Event) :=
  let? _ := only_owner sender c in
  Ok (set_signer c signer false, [TrustedImageSignerRemoved signer]).

Definition transfer_ownership (sender : bytes) (c : t) (new_owner : bytes)
    : result VerifierError.t (t * list Event) :=
  let? _ := only_owner sender c in
  if decide (new_owner = ZERO_ADDRESS) then Err VerifierError.ZeroAddress else
  Ok (set_owner c new_owner, [OwnershipTransferred (owner_ c) new_owner]).

Section verify.
Context `{EV : Evm} `{CR : Crypto} `{AB : PublicValuesAbi} `{PB : ProofDataAbi}.

Definition ecrecover_call (hash : bytes) (v : Z) (r s : bytes) : result VerifierError.t bytes :=
  let input := hash ++ (replicate 31 x00 ++ [byte_of_Z v]) ++ r ++ s in
  match static_call ECRECOVER input with
  | Some result => if Nat.leb 32 (length result) then Ok (take 20 (drop 12 result))
                   else Err VerifierError.EcrecoverFailed
  | None => Err VerifierError.EcrecoverFailed
  end.

Definition sha256_call (data : bytes) : result VerifierError.t bytes :=
  match static_call SHA256_PRECOMPILE data with
  | Some result => if Nat.eqb (length result) 32 then Ok result
                   else Err VerifierError.PrecompileFailed
  | None => Err VerifierError.PrecompileFailed
  end.

(** A length as 32 bytes: [len as u32], big-endian, in the last four. *)
Definition len_buf (n : nat) : bytes := replicate 28 x00 ++ to_be_bytes 4 (Z.of_nat n mod 2 ^ 32).

Definition modexp_call (base exponent modulus : bytes) : result VerifierError.t bytes :=
  let input := len_buf (length base) ++ len_buf (length exponent) ++ len_buf (length modulus)
               ++ base ++ exponent ++ modulus in
  match static_call MODEXP_PRECOMPILE input with
  | Some result => Ok result
  | None => Err VerifierError.PrecompileFailed
  end.

Definition verify_rs256 (signing_input signature modulus exponent : bytes)
    : result VerifierError.t unit :=
  let? hash := sha256_call signing_input in
  let? decrypted := modexp_call signature exponent modulus in
  if negb (verify_pkcs1v15_sha256 decrypted hash) then Err VerifierError.RsaVerificationFailed
  else Ok tt.

Definition require (b : bool) (e : VerifierError.t) : result VerifierError.t unit :=
  if b then Ok tt else Err e.

(** The body of [verify_attestation_proof] up to and with the RS256 check. *)
Definition verify_token (c : t) (proof : StylusProofData.t)
    : result VerifierError.t (StylusJwt.t * bytes) :=
  let? jwt := map_err (fun _ => VerifierError.InvalidJwt) (stylus_parse_jwt (StylusProofData.jwt proof)) in
  let? alg := ok_or VerifierError.InvalidJwt (json_get_string (StylusJwt.header_json jwt) (as_bytes "alg")) in
  let? _ := require (bool_decide (alg = as_bytes "RS256")) VerifierError.UnsupportedAlgorithm in
  let? kid := ok_or VerifierError.InvalidJwt (json_get_string (StylusJwt.header_json jwt) (as_bytes "kid")) in
  let kid_hash := keccak256 kid in
  let? _ := require (is_jwk_trusted c kid_hash) (VerifierError.UntrustedJwk kid_hash) in
  let key_material := StylusProofData.jwk_modulus proof ++ StylusProofData.jwk_exponent proof in
  let actual_key_hash := keccak256 key_material in
  let? _ := require (bool_decide (jwk_key_material_hash c kid_hash = actual_key_hash))
                    (VerifierError.JwkKeyMaterialMismatch kid_hash) in
  let? _ := verify_rs256 (StylusJwt.signing_input jwt) (StylusJwt.signature jwt)
                         (StylusProofData.jwk_modulus proof) (StylusProofData.jwk_exponent proof) in
  Ok (jwt, kid_hash).

(** Issuer, timestamps and validity window. *)
Definition verify_window (c : t) (now : Z) (payload : bytes) (values : PublicValues.t)
    : result VerifierError.t unit :=
  let? iss := ok_or VerifierError.InvalidJwt (json_get_string payload (as_bytes "iss")) in
  let? _ := require (bool_decide (iss = as_bytes ISSUER)) VerifierError.InvalidIssuer in
  let? iat := ok_or VerifierError.InvalidJwt (json_get_u64 payload (as_bytes "iat")) in
  let? exp := ok_or VerifierError.InvalidJwt (json_get_u64 payload (as_bytes "exp")) in
  let? _ := require ((iat =? PublicValues.validity_window_start values)
                     && (exp =? PublicValues.validity_window_end values)) VerifierError.ClaimsMismatch in
  let? _ := require (PublicValues.validity_window_start values <=? now)
              (VerifierError.ValidityWindowNotStarted (PublicValues.validity_window_start values) now) in
  require (now <=? u64_add (PublicValues.validity_window_end values) (expiration_tolerance_ c))
          (VerifierError.ValidityWindowExpired (PublicValues.validity_window_end values) now).

(** Audience, secure boot, debug status and image digest. *)
Definition verify_claims (c : t) (payload : bytes) (values : PublicValues.t)
    : result VerifierError.t unit :=
  let? aud := ok_or VerifierError.InvalidJwt (json_get_string payload (as_bytes "aud")) in
  let? _ := require (bool_decide (keccak256 aud = PublicValues.audience_hash values))
                    VerifierError.ClaimsMismatch in
  let? secboot := ok_or VerifierError.InvalidJwt (json_get_bool payload (as_bytes "secboot")) in
  let? _ := require (eqb secboot (PublicValues.secboot values)) VerifierError.ClaimsMismatch in
  let? _ := require (PublicValues.secboot values) VerifierError.SecureBootRequired in
  let dbgstat_disabled :=
    match json_get_string payload (as_bytes "dbgstat") with
    | Some d => bool_decide (d = as_bytes "disabled-since-boot")
    | None => false
    end in
  let? _ := require (eqb dbgstat_disabled (PublicValues.dbgstat_disabled values))
                    VerifierError.ClaimsMismatch in
  let? _ := require (PublicValues.dbgstat_disabled values) VerifierError.DebugModeNotAllowed in
  let? image_digest := ok_or VerifierError.InvalidJwt (json_get_string payload (as_bytes "image_digest")) in
  let? _ := require (bool_decide (keccak256 image_digest = PublicValues.image_digest_hash values))
                    VerifierError.ClaimsMismatch in
  require (is_image_digest_hash_allowed c (PublicValues.image_digest_hash values))
          (VerifierError.UntrustedImageDigest (PublicValues.image_digest_hash values)).

(** The image signature. *)
Definition verify_image_signer (c : t) (values : PublicValues.t) : result VerifierError.t unit :=
  let? image_signer := ecrecover_call (PublicValues.image_digest_hash values)
      (PublicValues.image_signature_v values) (PublicValues.image_signature_r values)
      (PublicValues.image_signature_s values) in
  let? _ := require (negb (bool_decide (image_signer = ZERO_ADDRESS))) VerifierError.ImageSignatureInvalid in
  require (is_image_signer_trusted c image_signer) (VerifierError.UntrustedImageSigner image_signer).

Definition verify_attestation_proof (c : t) (now : Z) (public_values proof_bytes : bytes)
    : result VerifierError.t bytes :=
  let? values := ok_or VerifierError.InvalidPublicValues (abi_decode public_values) in
  let? proof := ok_or VerifierError.InvalidProofData (proof_data_decode proof_bytes) in
  let? '(jwt, kid_hash) := verify_token c proof in
  let payload := StylusJwt.payload_json jwt in
  let? _ := verify_window c now payload values in
  let? _ := verify_claims c payload values in
  let? _ := require (bool_decide (kid_hash = PublicValues.jwk_key_hash values)) VerifierError.ClaimsMismatch in
  let? _ := verify_image_signer c values in
  Ok (PublicValues.tee_signing_key values).
End verify.
End StylusAttestationVerifier.
