(* ===== verification/StylusProps.v ===== *)
(** * What the on-chain verifier accepts, and who may change its trust

    The padding check, the RSA check against the EIP-198 precompile, the exact
    condition under which [verify_attestation_proof] accepts, the invariant of the
    storage under every sequence of calls, and agreement with the guest library on
    how a token is cut. *)
From Stdlib Require Import Ascii Strings.Byte.
From S2P Require Import Prelude RustStd Base64 Extern Net Jwt Stylus.
Import StylusAttestationVerifier.

(** ** PKCS#1 v1.5 padding *)

(** EMSA-PKCS1-v1_5 (RFC 8017, section 9.2) with [k] bytes of padding. *)
Definition emsa_pkcs1v15_sha256 (k : nat) (hash : bytes) : bytes :=
  [x00; x01] ++ replicate k xff ++ [x00] ++ PKCS1_SHA256_DIGEST_INFO ++ hash.

Lemma find_separator_spec l i p :
  find_separator l i = inr (Some p) <->
  exists k r, p = (i + k)%nat /\ l = replicate k xff ++ x00 :: r.
Proof.
  revert i. induction l as [|b l IH]; intros i; cbn.
  - split; [done|]. intros (k & r & _ & H). by destruct k.
  - case_decide as H0; [subst|case_decide as H1; [subst|]].
    + split; [intros [= <-]; exists 0%nat, l; split; [lia|done]|].
      intros (k & r & -> & H). destruct k; [by rewrite Nat.add_0_r|]. by injection H.
    + rewrite IH. split.
      * intros (k & r & -> & ->). exists (S k), r. split; [lia|done].
      * intros (k & r & -> & H). destruct k; [done|]. injection H as ->. exists k, r. split; [lia|done].
    + split; [done|]. intros (k & r & _ & H). destruct k; injection H; congruence.
Qed.

Lemma emsa_length k hash : length hash = 32%nat -> length (emsa_pkcs1v15_sha256 k hash) = (k + 54)%nat.
Proof. intros H. unfold emsa_pkcs1v15_sha256. cbn. rewrite length_app, length_replicate. cbn. rewrite H. lia. Qed.

Lemma drop_sep k j (r : bytes) :
  drop (2 + k + 1 + j) (x00 :: x01 :: replicate k xff ++ x00 :: r) = drop j r.
Proof.
  replace (2 + k + 1 + j)%nat with (2 + (length (replicate k xff) + (1 + j)))%nat
    by (rewrite length_replicate; lia).
  change (drop (2 + ?n) (x00 :: x01 :: ?l)) with (drop n l). by rewrite drop_app_add.
Qed.
Lemma drop_sep0 k (r : bytes) :
  drop (2 + k + 1) (x00 :: x01 :: replicate k xff ++ x00 :: r) = r.
Proof. rewrite <- (Nat.add_0_r (2 + k + 1)), drop_sep. apply drop_0. Qed.

Lemma verify_pkcs1v15_iff d hash :
  length hash = 32%nat ->
  verify_pkcs1v15_sha256 d hash = true <->
  exists k, (8 <= k)%nat /\ d = emsa_pkcs1v15_sha256 k hash.
Proof.
  intros Hh. unfold verify_pkcs1v15_sha256. split.
  - destruct (Nat.ltb_spec (length d) 62); [done|]. destruct d as [|a [|b l]]; [cbn in *; lia..|].
    cbn [lookup list_lookup drop]. repeat case_bool_decide; cbn [negb andb]; try done. simplify_eq.
    rewrite drop_0. destruct (find_separator l 2) as [|[p|]] eqn:E; [done| |done].
    apply find_separator_spec in E as (k & r & -> & ->).
    destruct (Nat.ltb_spec (2 + k) 10); [done|].
    rewrite drop_sep0, drop_sep.
    cbn [length]. rewrite length_app, length_replicate. cbn [length].
    change (length PKCS1_SHA256_DIGEST_INFO + 32)%nat with 51%nat.
    destruct (Nat.eqb_spec (S (S (k + S (length r))) - (2 + k + 1)) 51) as [Hr|]; [cbn [negb]|done].
    case_bool_decide as Hd; [cbn [negb]|done]. intros Ht%bool_decide_eq_true. exists k. split; [lia|].
    unfold emsa_pkcs1v15_sha256. cbn [app]. do 4 f_equal.
    rewrite <- (take_drop 19 r), Hd. f_equal. rewrite <- Ht, take_ge; [done|]. rewrite length_drop. lia.
  - intros (k & Hk & ->). rewrite emsa_length by done.
    rewrite (proj2 (Nat.ltb_ge _ _)) by lia. unfold emsa_pkcs1v15_sha256. cbn [app lookup list_lookup].
    cbn [bool_decide decide_rel andb negb]. rewrite !bool_decide_true by done. cbn [negb andb].
    change (drop 2 (x00 :: x01 :: ?l)) with l.
    rewrite (proj2 (find_separator_spec _ 2 (2 + k))) by eauto.
    rewrite (proj2 (Nat.ltb_ge _ _)) by lia.
    rewrite drop_sep0, drop_sep.
    replace (k + 54 - (2 + k + 1))%nat with 51%nat by lia. cbn [Nat.eqb length Nat.add PKCS1_SHA256_DIGEST_INFO].
    rewrite bool_decide_true by done. cbn [negb]. apply bool_decide_eq_true.
    change (drop 19 (PKCS1_SHA256_DIGEST_INFO ++ hash)) with hash. rewrite take_ge; [done|lia].
Qed.

(** ** RS256 against the documented precompiles *)

(** EIP-198 and the SHA-256 precompile, on inputs whose lengths fit in 32 bits. *)
Class EvmLaws `{Evm} `{Crypto} : Prop := {
  sha256_precompile d : static_call SHA256_PRECOMPILE d = Some (sha256 d);
  modexp_precompile b e m :
    Z.of_nat (length b) < 2 ^ 32 -> Z.of_nat (length e) < 2 ^ 32 -> Z.of_nat (length m) < 2 ^ 32 ->
    0 < from_be_bytes 0 m ->
    static_call MODEXP_PRECOMPILE
      (to_be_bytes 32 (Z.of_nat (length b)) ++ to_be_bytes 32 (Z.of_nat (length e))
       ++ to_be_bytes 32 (Z.of_nat (length m)) ++ b ++ e ++ m) =
    Some (to_be_bytes (length m) (from_be_bytes 0 b ^ from_be_bytes 0 e mod from_be_bytes 0 m));
}.

Lemma to_be_bytes_small n m z :
  0 <= z < 256 ^ Z.of_nat n -> to_be_bytes (m + n) z = replicate m x00 ++ to_be_bytes n z.
Proof.
  intros Hz. induction m as [|m IH]; [done|]. cbn [Nat.add to_be_bytes replicate app]. rewrite IH. f_equal.
  rewrite Z.shiftr_div_pow2 by lia. rewrite Z.div_small; [done|]. split; [lia|].
  apply Z.lt_le_trans with (256 ^ Z.of_nat n); [lia|].
  change 256 with (2 ^ 8). rewrite <- Z.pow_mul_r by lia. apply Z.pow_le_mono_r; lia.
Qed.

Lemma len_buf_eq n : Z.of_nat n < 2 ^ 32 -> len_buf n = to_be_bytes 32 (Z.of_nat n).
Proof.
  intros H. unfold len_buf. rewrite Z.mod_small by lia.
  symmetry. apply (to_be_bytes_small 4 28). cbn. lia.
Qed.

Section rsa.
Context `{EV : Evm} `{CR : Crypto} {CL : CryptoLaws} {EL : EvmLaws}.

Lemma modexp_call_eq b e m :
  Z.of_nat (length b) < 2 ^ 32 -> Z.of_nat (length e) < 2 ^ 32 -> Z.of_nat (length m) < 2 ^ 32 ->
  0 < from_be_bytes 0 m ->
  modexp_call b e m =
  Ok (to_be_bytes (length m) (from_be_bytes 0 b ^ from_be_bytes 0 e mod from_be_bytes 0 m)).
Proof using EL. intros. unfold modexp_call. by rewrite !len_buf_eq, modexp_precompile. Qed.

(** RFC 8017, RSASSA-PKCS1-v1_5 with SHA-256: [signature] is a signature of [input] under
    the key, whose modulus is long enough for eight bytes of padding. *)
Definition rs256_signature (input signature modulus exponent : bytes) : Prop :=
  (62 <= length modulus)%nat /\
  to_be_bytes (length modulus)
    (from_be_bytes 0 signature ^ from_be_bytes 0 exponent mod from_be_bytes 0 modulus) =
  emsa_pkcs1v15_sha256 (length modulus - 54) (sha256 input).

(** Lengths a precompile takes, and a modulus. *)
Definition rsa_operands (signature modulus exponent : bytes) : Prop :=
  Z.of_nat (length signature) < 2 ^ 32 /\ Z.of_nat (length exponent) < 2 ^ 32 /\
  Z.of_nat (length modulus) < 2 ^ 32 /\ 0 < from_be_bytes 0 modulus.

Lemma verify_rs256_iff (signing_input signature modulus exponent : bytes) :
  rsa_operands signature modulus exponent ->
  verify_rs256 signing_input signature modulus exponent = Ok tt <->
  rs256_signature signing_input signature modulus exponent.
Proof using CL EL.
  intros (Hs & He & Hm & Hp). unfold rs256_signature, verify_rs256, sha256_call. rewrite sha256_precompile, sha256_length.
  cbn [Nat.eqb result_bind]. rewrite modexp_call_eq by done. cbn [result_bind].
  set (d := to_be_bytes _ _).
  pose proof (verify_pkcs1v15_iff d (sha256 signing_input) (sha256_length _)) as Hi.
  assert (Hd : length d = length modulus) by apply length_to_be_bytes.
  destruct (verify_pkcs1v15_sha256 d _) eqn:E; cbn [negb].
  - destruct (proj1 Hi eq_refl) as (k & Hk & Hdk).
    rewrite Hdk, emsa_length in Hd by apply sha256_length. split; [intros _|done].
    split; [lia|]. by replace (length modulus - 54)%nat with k by lia.
  - split; [done|]. intros [Hl Heq].
    assert (false = true) by (apply Hi; exists (length modulus - 54)%nat; split; [lia|done]). done.
Qed.
(** C31. The contract accepts an RS256 signature exactly when raising it to the public
    exponent modulo the modulus gives the PKCS#1 v1.5 encoding (at least eight bytes of
    padding, the SHA-256 DigestInfo, the hash of the signing input) of the modulus'
    length; no other padding passes. *)
Theorem verify_rs256_exact (signing_input signature modulus exponent : bytes) :
  Z.of_nat (length signature) < 2 ^ 32 -> Z.of_nat (length exponent) < 2 ^ 32 ->
  Z.of_nat (length modulus) < 2 ^ 32 -> 0 < from_be_bytes 0 modulus ->
  verify_rs256 signing_input signature modulus exponent = Ok tt <->
  (62 <= length modulus)%nat /\
  to_be_bytes (length modulus)
    (from_be_bytes 0 signature ^ from_be_bytes 0 exponent mod from_be_bytes 0 modulus) =
  emsa_pkcs1v15_sha256 (length modulus - 54) (sha256 signing_input).
Proof using CL EL. intros. by apply verify_rs256_iff. Qed.
End rsa.

(** ** Finding a key in the payload *)

(** [pat] occurs in [json] at [p]; a key occurs at [p] with its value from [k] on. *)
Definition occurs (json pat : bytes) (p : nat) : Prop := take (length pat) (drop p json) = pat.
Definition key_at (json pat : bytes) (p k : nat) : Prop :=
  occurs json pat p /\
  k = (skip_while is_json_whitespace json (p + length pat) + 1)%nat /\
  json !! (k - 1)%nat = Some b_colon.

Lemma occurs_length json pat p : occurs json pat p -> pat <> [] -> (p + length pat <= length json)%nat.
Proof.
  intros H Hne. apply (f_equal length) in H. rewrite length_take, length_drop in H.
  assert (length pat <> 0%nat) by (by destruct pat). lia.
Qed.

Lemma window_position_spec needle h :
  needle <> [] ->
  match window_position needle h with
  | Some p => occurs h needle p /\ forall q, (q < p)%nat -> ~ occurs h needle q
  | None => forall q, ~ occurs h needle q
  end.
Proof.
  intros Hne. induction h as [|b h IH].
  - cbn. destruct needle as [|c n]; [done|]. cbn. intros q Hq. by apply occurs_length in Hq; [cbn in *; lia|].
  - cbn [window_position]. destruct (Nat.ltb_spec (length (b :: h)) (length needle)).
    { intros q Hq. apply occurs_length in Hq; [lia|done]. }
    case_decide as Hd; [split; [done|intros q Hq; lia]|].
    destruct (window_position needle h) as [p|]; cbn [fmap option_fmap option_map].
    + destruct IH as [H1 H2]. split; [done|]. intros [|q] Hq; [done|]. apply H2. lia.
    + intros [|q]; [done|]. apply IH.
Qed.

Lemma occurs_drop json pat s q : occurs (drop s json) pat q <-> occurs json pat (s + q).
Proof. unfold occurs. by rewrite drop_drop. Qed.

Lemma find_subsequence_spec json pat s :
  pat <> [] ->
  match find_subsequence (drop s json) pat with
  | Some p => occurs json pat (s + p) /\ forall q, (s <= q < s + p)%nat -> ~ occurs json pat q
  | None => forall q, (s <= q)%nat -> ~ occurs json pat q
  end.
Proof.
  intros Hne. unfold find_subsequence.
  pose proof (window_position_spec pat (drop s json) Hne) as H.
  destruct (Nat.ltb_spec (length (drop s json)) (length pat)).
  - intros q Hq Ho. apply occurs_length in Ho; [|done]. rewrite length_drop in *. lia.
  - destruct (window_position pat (drop s json)) as [p|].
    + destruct H as [H1 H2]. split; [by apply occurs_drop|]. intros q Hq Ho.
      apply (H2 (q - s)%nat); [lia|]. apply occurs_drop. by replace (s + (q - s))%nat with q by lia.
    + intros q Hq Ho. apply (H (q - s)%nat), occurs_drop. by replace (s + (q - s))%nat with q by lia.
Qed.

Lemma find_key_loop_spec fuel json pat s :
  pat <> [] -> (s <= length json)%nat -> (length json - s < fuel)%nat ->
  match find_key_loop fuel json pat s with
  | Some k => exists p, (s <= p)%nat /\ key_at json pat p k /\
                        forall q k', (s <= q < p)%nat -> ~ key_at json pat q k'
  | None => forall q k', (s <= q)%nat -> ~ key_at json pat q k'
  end.
Proof.
  intros Hne. revert s. induction fuel as [|f IH]; intros s Hs Hf; [lia|]. cbn [find_key_loop].
  pose proof (find_subsequence_spec json pat s Hne) as H.
  destruct (find_subsequence (drop s json) pat) as [p|].
  - destruct H as [Ho Hb]. case_decide as Hc.
    + exists (s + p)%nat. split_and!; [lia| |].
      * unfold key_at. split_and!; [done|done|]. by rewrite Nat.add_sub.
      * intros q k' Hq [Hk _]. by apply (Hb q).
    + assert (Hnot : forall k', ~ key_at json pat (s + p) k').
      { intros k' (_ & -> & Hl). rewrite Nat.add_sub in Hl. done. }
      assert (Hgap : forall q k', (s <= q < s + p + 1)%nat -> ~ key_at json pat q k').
      { intros q k' Hq Hk. destruct (decide (q = (s + p)%nat)) as [->|]; [by apply (Hnot k')|].
        apply (Hb q); [lia|]. apply Hk. }
      destruct (Nat.leb_spec (length json) (s + p + 1)).
      * intros q k' Hq Hk. destruct (decide (q < s + p + 1)%nat); [by apply (Hgap q k'); [lia|]|].
        destruct Hk as [Hk _]. apply occurs_length in Hk; [|done]. destruct pat; [done|]. cbn in Hk. lia.
      * specialize (IH (s + p + 1)%nat ltac:(lia) ltac:(lia)).
        destruct (find_key_loop f json pat (s + p + 1)) as [k|].
        -- destruct IH as (p' & Hp' & Hk & Hlt). exists p'. split_and!; [lia|done|].
           intros q k' Hq. destruct (decide (q < s + p + 1)%nat); [apply Hgap; lia|apply Hlt; lia].
        -- intros q k' Hq. destruct (decide (q < s + p + 1)%nat); [apply Hgap; lia|apply IH; lia].
  - intros q k' Hq [Hk _]. by apply (H q).
Qed.

(** The loop has enough fuel: it returns the first key of that name, wherever in
    the document (at any depth) it is, and [None] only when there is none. *)
Lemma json_find_key_spec json key :
  match json_find_key json key with
  | Some k => exists p, key_at json (key_pattern key) p k /\
                        forall q k', (q < p)%nat -> ~ key_at json (key_pattern key) q k'
  | None => forall q k', ~ key_at json (key_pattern key) q k'
  end.
Proof.
  pose proof (find_key_loop_spec (S (length json)) json (key_pattern key) 0 ltac:(done) ltac:(lia) ltac:(lia)) as H.
  unfold json_find_key. destruct (find_key_loop _ _ _ _) as [k|].
  - destruct H as (p & _ & Hk & Hlt). exists p. split; [done|]. intros q k' Hq. apply Hlt. lia.
  - intros q k'. apply H. lia.
Qed.

(** ** Reading the value *)

Lemma count_while_app p l1 b l2 :
  forallb p l1 = true -> p b = false -> count_while p (l1 ++ b :: l2) = length l1.
Proof.
  intros H Hb. induction l1 as [|x l1 IH]; cbn in *; [by rewrite Hb|].
  bool_to_prop. rewrite H. f_equal. by apply IH.
Qed.

Lemma lookup_mid {A} (l1 l2 : list A) b n : n = length l1 -> (l1 ++ b :: l2) !! n = Some b.
Proof. intros ->. apply list_lookup_middle. done. Qed.

(** A value without quotes that does not end in a backslash is read up to its
    closing quote. *)
Lemma closing_quote_value pre v post :
  Forall (fun b => b <> b_quote) v -> last v <> Some b_backslash ->
  forall fuel j, (length v - j < fuel)%nat -> (j <= length v)%nat ->
  closing_quote_loop fuel (pre ++ v ++ b_quote :: post) (length pre) (length pre + j) = Some v.
Proof.
  intros Hq Hl. induction fuel as [|f IH]; intros j Hf Hj; [lia|]. cbn [closing_quote_loop].
  replace (length pre + j - length pre)%nat with j by lia.
  rewrite lookup_app_r by lia. replace (length pre + j - length pre)%nat with j by lia.
  rewrite drop_app_length. destruct (decide (j = length v)) as [->|Hne].
  - rewrite (lookup_mid v post b_quote (length v) eq_refl), take_app_length.
    rewrite bool_decide_true by done.
    enough (He : Nat.even (count_while (fun c => bool_decide (c = b_backslash)) (rev v)) = true)
      by (by rewrite He).
    destruct v as [|x v' _] using rev_ind; [done|]. rewrite rev_app_distr. cbn.
    rewrite last_snoc in Hl. by rewrite bool_decide_false by congruence.
  - destruct (lookup_lt_is_Some_2 v j) as [b Hb]; [lia|].
    rewrite lookup_app_l by lia. rewrite Hb.
    rewrite bool_decide_false by (rewrite Forall_forall in Hq; apply Hq; by eapply list_elem_of_lookup_2).
    cbn [andb]. replace (length pre + j + 1)%nat with (length pre + (j + 1))%nat by lia.
    apply IH; lia.
Qed.

Lemma skip_ws_value pre ws b rest :
  forallb is_json_whitespace ws = true -> is_json_whitespace b = false ->
  skip_while is_json_whitespace (pre ++ ws ++ b :: rest) (length pre) = (length pre + length ws)%nat.
Proof. intros H Hb. unfold skip_while. by rewrite drop_app_length, count_while_app. Qed.

Lemma json_get_string_value json key k pre ws v post :
  json_find_key json key = Some k ->
  json = pre ++ ws ++ [b_quote] ++ v ++ b_quote :: post -> length pre = k ->
  forallb is_json_whitespace ws = true ->
  Forall (fun b => b <> b_quote) v -> last v <> Some b_backslash ->
  json_get_string json key = Some v.
Proof.
  intros Hk Hj Hp Hw Hq Hl. unfold json_get_string. rewrite Hk. cbn [mbind option_bind].
  rewrite Hj, <- Hp. cbn [app]. rewrite skip_ws_value by done.
  rewrite app_assoc, decide_True by (apply lookup_mid; by rewrite length_app).
  rewrite (cons_middle b_quote), app_assoc.
  replace (length pre + length ws + 1)%nat with (length ((pre ++ ws) ++ [b_quote]) + 0)%nat at 2
    by (rewrite !length_app; cbn; lia).
  replace (length pre + length ws + 1)%nat with (length ((pre ++ ws) ++ [b_quote]))
    by (rewrite !length_app; cbn; lia).
  apply closing_quote_value; [done|done| |lia]. rewrite !length_app. cbn. lia.
Qed.

(** *** Members of a document *)

(** The first place where the quoted name occurs in the bytes is that of a member whose
    text is [value], followed by [rest]. *)
Definition member_text (json key value rest : bytes) : Prop :=
  exists pre ws1 ws2, json = pre ++ key_pattern key ++ ws1 ++ [b_colon] ++ ws2 ++ value ++ rest /\
    forallb is_json_whitespace ws1 = true /\ forallb is_json_whitespace ws2 = true /\
    forall q, (q < length pre)%nat -> ~ occurs json (key_pattern key) q.

(** A string without quotes and a backslash at its end. *)
Definition string_member (json key v : bytes) : Prop :=
  Forall (fun b => b <> b_quote) v /\ last v <> Some b_backslash /\
  exists rest, member_text json key ([b_quote] ++ v ++ [b_quote]) rest.

(** A number in decimal digits, and what they are worth. *)
Definition decimal (acc : Z) (ds : bytes) : Z := fold_left (fun acc b => acc * 10 + (Z_of_byte b - 48)) ds acc.
Definition number_member (json key : bytes) (n : Z) : Prop :=
  exists ds rest, ds <> [] /\ Forall (fun b => is_ascii_digit b = true) ds /\ n = decimal 0 ds /\
    (forall b, head rest = Some b -> is_ascii_digit b = false) /\ member_text json key ds rest.

Definition true_member (json key : bytes) : Prop := exists rest, member_text json key (as_bytes "true") rest.

Lemma member_found json key value rest :
  member_text json key value rest ->
  exists pre ws, json = pre ++ ws ++ value ++ rest /\ forallb is_json_whitespace ws = true /\
    json_find_key json key = Some (length pre).
Proof.
  intros (pre & ws1 & ws2 & Hj & Hw1 & Hw2 & Hfirst).
  set (pat := key_pattern key) in *. exists (pre ++ pat ++ ws1 ++ [b_colon]), ws2.
  split; [by rewrite Hj, <- !app_assoc|]. split; [done|].
  assert (Hat : forall k, key_at json pat (length pre) k <-> k = length (pre ++ pat ++ ws1 ++ [b_colon])).
  { intros k. unfold key_at, occurs. assert (Hskip : skip_while is_json_whitespace json (length pre + length pat) =
      (length pre + length pat + length ws1)%nat).
    { rewrite Hj. cbn [app]. rewrite app_assoc, <- length_app. by rewrite skip_ws_value. }
    rewrite Hskip, !length_app. cbn [length]. split; [intros (_ & -> & _); lia|]. intros ->. split_and!; [|lia|].
    - by rewrite Hj, drop_app_length, take_app_length.
    - rewrite Hj. cbn [app]. rewrite 2!app_assoc. apply lookup_mid. rewrite !length_app. lia. }
  pose proof (json_find_key_spec json key) as H. fold pat in H. destruct (json_find_key json key) as [k|].
  - destruct H as (p & Hp & Hlt). f_equal. destruct (Nat.lt_trichotomy p (length pre)) as [Hl|[->|Hl]].
    + exfalso. by apply (Hfirst p Hl), Hp.
    + by apply Hat.
    + exfalso. by eapply (Hlt (length pre)), Hat.
  - exfalso. by eapply (H (length pre)), Hat.
Qed.

Lemma string_member_read json key v : string_member json key v -> json_get_string json key = Some v.
Proof.
  intros (Hq & Hl & rest & Hm). apply member_found in Hm as (pre & ws & Hj & Hw & Hk).
  eapply json_get_string_value; [exact Hk| |reflexivity|exact Hw|done|done]. rewrite Hj.
  by rewrite <- !app_assoc.
Qed.

Lemma digit_range b : is_ascii_digit b = true -> 48 <= Z_of_byte b <= 57.
Proof. unfold is_ascii_digit, byte_in. intros H. bool_to_prop. lia. Qed.

Lemma decimal_grows ds : forall acc, Forall (fun b => is_ascii_digit b = true) ds -> 0 <= acc -> acc <= decimal acc ds.
Proof.
  induction ds as [|b ds IH]; intros acc Hd Ha; cbn; [lia|]. apply Forall_cons in Hd as [Hb Hd].
  apply digit_range in Hb. specialize (IH (acc * 10 + (Z_of_byte b - 48)) Hd ltac:(lia)). unfold decimal in *. lia.
Qed.

Lemma u64_digits_decimal rest ds : forall acc found,
  Forall (fun b => is_ascii_digit b = true) ds -> 0 <= acc -> decimal acc ds <= u64_max ->
  (forall b, head rest = Some b -> is_ascii_digit b = false) ->
  u64_digits (ds ++ rest) acc found = Some (decimal acc ds, match ds with [] => found | _ => true end).
Proof.
  induction ds as [|b ds IH]; intros acc found Hd Ha Hmax Hr; cbn [app u64_digits decimal fold_left].
  - destruct rest as [|b rest]; [done|]. cbn. by rewrite (Hr b).
  - apply Forall_cons in Hd as [Hb Hd]. rewrite Hb. apply digit_range in Hb.
    change (decimal (acc * 10 + (Z_of_byte b - 48)) ds <= u64_max) in Hmax.
    pose proof (decimal_grows ds (acc * 10 + (Z_of_byte b - 48)) Hd ltac:(lia)) as Hg.
    unfold push_digit. rewrite (proj2 (Z.ltb_ge u64_max (acc * 10))) by lia.
    rewrite (proj2 (Z.ltb_ge u64_max (acc * 10 + (Z_of_byte b - 48)))) by lia. cbn [mbind option_bind].
    rewrite IH; [by destruct ds|done|lia|done|done].
Qed.

Lemma number_member_read json key n : number_member json key n -> n <= u64_max -> json_get_u64 json key = Some n.
Proof.
  intros (ds & rest & Hne & Hd & -> & Hr & Hm) Hmax. apply member_found in Hm as (pre & ws & Hj & Hw & Hk).
  unfold json_get_u64. rewrite Hk. cbn [mbind option_bind].
  assert (Hs : skip_while is_json_whitespace json (length pre) = (length pre + length ws)%nat).
  { rewrite Hj. destruct ds as [|b ds]; [done|]. cbn [app]. apply skip_ws_value; [done|].
    apply Forall_cons in Hd as [Hb _]. destruct b; done. }
  rewrite Hs, Hj, app_assoc, <- length_app, drop_app_length.
  rewrite u64_digits_decimal by (done || lia). cbn. by destruct ds.
Qed.

Lemma true_member_read json key : true_member json key -> json_get_bool json key = Some true.
Proof.
  intros (rest & Hm). apply member_found in Hm as (pre & ws & Hj & Hw & Hk).
  unfold json_get_bool. rewrite Hk. cbn [mbind option_bind].
  assert (Hs : skip_while is_json_whitespace json (length pre) = (length pre + length ws)%nat)
    by (rewrite Hj; by apply skip_ws_value).
  rewrite Hs, Hj, app_assoc, <- length_app, drop_app_length. by rewrite decide_True.
Qed.

(** The first member of that name is read, not the member at the documented path:
    a container environment variable called [image_digest] that is rendered before
    the container's own digest is taken for it. *)
Definition shadow_payload : bytes := as_bytes "{'submods':{'container':{'env':{'image_digest':'sha256:b'},'image_digest':'sha256:a'}}}".
Definition requote (b : byte) : byte := if decide (b = "'"%byte) then b_quote else b.
Lemma nested_key_shadows :
  json_get_string (map requote shadow_payload) (as_bytes "image_digest") = Some (as_bytes "sha256:b").
Proof. vm_compute. reflexivity. Qed.

(** ** What [verify_attestation_proof] accepts *)
Section accept.
Context `{EV : Evm} `{CR : Crypto} `{AB : PublicValuesAbi} `{PB : ProofDataAbi}.

Lemma require_ok b e : require b e = Ok tt <-> b = true.
Proof. unfold require. by destruct b. Qed.

(** The token is signed by a key the owner trusts, with the key material the owner
    registered for it. *)
Definition token_ok (c : t) (proof : StylusProofData.t) (jwt : StylusJwt.t) (kid : bytes) : Prop :=
  stylus_parse_jwt (StylusProofData.jwt proof) = Ok jwt /\
  json_get_string (StylusJwt.header_json jwt) (as_bytes "alg") = Some (as_bytes "RS256") /\
  json_get_string (StylusJwt.header_json jwt) (as_bytes "kid") = Some kid /\
  is_jwk_trusted c (keccak256 kid) = true /\
  jwk_key_material_hash c (keccak256 kid) =
    keccak256 (StylusProofData.jwk_modulus proof ++ StylusProofData.jwk_exponent proof) /\
  verify_rs256 (StylusJwt.signing_input jwt) (StylusJwt.signature jwt)
    (StylusProofData.jwk_modulus proof) (StylusProofData.jwk_exponent proof) = Ok tt.

(** The claims of the payload are the public values, and acceptable now. *)
Definition claims_ok (c : t) (now : Z) (payload : bytes) (v : PublicValues.t) : Prop :=
  json_get_string payload (as_bytes "iss") = Some (as_bytes ISSUER) /\
  json_get_u64 payload (as_bytes "iat") = Some (PublicValues.validity_window_start v) /\
  json_get_u64 payload (as_bytes "exp") = Some (PublicValues.validity_window_end v) /\
  PublicValues.validity_window_start v <= now <=
    u64_add (PublicValues.validity_window_end v) (expiration_tolerance_ c) /\
  (exists aud, json_get_string payload (as_bytes "aud") = Some aud /\
               PublicValues.audience_hash v = keccak256 aud) /\
  json_get_bool payload (as_bytes "secboot") = Some true /\ PublicValues.secboot v = true /\
  json_get_string payload (as_bytes "dbgstat") = Some (as_bytes "disabled-since-boot") /\
  PublicValues.dbgstat_disabled v = true /\
  (exists digest, json_get_string payload (as_bytes "image_digest") = Some digest /\
                  PublicValues.image_digest_hash v = keccak256 digest) /\
  is_image_digest_hash_allowed c (PublicValues.image_digest_hash v) = true.

(** The image was signed by a trusted signer. *)
Definition signer_ok (c : t) (v : PublicValues.t) : Prop :=
  exists signer,
    ecrecover_call (PublicValues.image_digest_hash v) (PublicValues.image_signature_v v)
      (PublicValues.image_signature_r v) (PublicValues.image_signature_s v) = Ok signer /\
    signer <> ZERO_ADDRESS /\ is_image_signer_trusted c signer = true.

Ltac req_inv :=
  repeat match goal with
  | H : require _ _ = Ok _ |- _ => apply require_ok in H
  | u : unit |- _ => destruct u
  end.

Lemma verify_token_iff c proof jwt kh :
  verify_token c proof = Ok (jwt, kh) <-> exists kid, token_ok c proof jwt kid /\ kh = keccak256 kid.
Proof.
  unfold verify_token, token_ok. split.
  - intros H. ok_inv. req_inv. bool_to_prop. subst. eauto 10.
  - intros (kid & (-> & Ha & Hk & Ht & Hm & Hv) & ->). cbn [map_err result_bind].
    rewrite Ha. cbn [ok_or result_bind]. rewrite bool_decide_true by done. cbn [require result_bind].
    rewrite Hk. cbn [ok_or result_bind]. rewrite Ht. cbn [require result_bind].
    rewrite bool_decide_true by done. cbn [require result_bind]. by rewrite Hv.
Qed.

Lemma verify_image_signer_iff c v : verify_image_signer c v = Ok tt <-> signer_ok c v.
Proof.
  unfold verify_image_signer, signer_ok. split.
  - intros H. ok_inv. req_inv. bool_to_prop. eauto.
  - intros (s & -> & Hz & Ht). cbn [result_bind]. rewrite bool_decide_false by done. by rewrite Ht.
Qed.

Lemma verify_claims_iff c now payload v :
  verify_window c now payload v = Ok tt /\ verify_claims c payload v = Ok tt <->
  claims_ok c now payload v.
Proof.
  unfold verify_window, verify_claims, claims_ok. split.
  - intros [H1 H2]. ok_inv. req_inv. bool_to_prop. subst.
    repeat match goal with H : eqb _ _ = true |- _ => apply eqb_prop in H end. subst.
    destruct (PublicValues.secboot v) eqn:Es; [|done].
    destruct (json_get_string payload (as_bytes "dbgstat")) as [d|]; [|congruence].
    case_bool_decide; [subst|congruence]. split_and!; eauto; congruence.
  - intros (-> & -> & -> & [Hw1 Hw2] & (aud & -> & Ha) & -> & Hs & -> & Hd & (dg & -> & Hg) & Hal).
    cbn [ok_or result_bind]. rewrite Hs, Hd, !Z.eqb_refl, Hal.
    rewrite (proj2 (Z.leb_le _ _) Hw1), (proj2 (Z.leb_le _ _) Hw2), !bool_decide_true by done. done.
Qed.

Lemma accepts_iff (c : t) (now : Z) (public_values proof_bytes key : bytes) :
  verify_attestation_proof c now public_values proof_bytes = Ok key <->
  exists v proof jwt kid,
    abi_decode public_values = Some v /\ proof_data_decode proof_bytes = Some proof /\
    token_ok c proof jwt kid /\ claims_ok c now (StylusJwt.payload_json jwt) v /\
    PublicValues.jwk_key_hash v = keccak256 kid /\ signer_ok c v /\
    key = PublicValues.tee_signing_key v.
Proof.
  unfold verify_attestation_proof. split.
  - intros H. destruct (abi_decode public_values) as [v|]; [cbn in H|done].
    destruct (proof_data_decode proof_bytes) as [proof|]; [cbn in H|done].
    destruct (verify_token c proof) as [[jwt kh]| |] eqn:Et; [|done..]. cbn [result_bind] in H.
    apply verify_token_iff in Et as (kid & Ht & Hk). ok_inv. req_inv. bool_to_prop.
    exists v, proof, jwt, kid. split_and!; try congruence.
    + by apply verify_claims_iff.
    + by apply verify_image_signer_iff.
  - intros (v & proof & jwt & kid & -> & -> & Ht & Hc & Hk & Hs & ->). cbn [ok_or result_bind].
    rewrite (proj2 (verify_token_iff c proof jwt (keccak256 kid))) by eauto. cbn [result_bind].
    apply verify_claims_iff in Hc as [-> ->]. cbn [result_bind].
    rewrite bool_decide_true by done. cbn [require result_bind].
    apply verify_image_signer_iff in Hs. by rewrite Hs.
Qed.
(** C18. The contract accepts an attestation, and returns the key, exactly when: the
    token is an RS256 token signed by a key whose id and key material the owner
    registered; its issuer is Google's and its issue and expiry times are the claimed
    window, which holds now up to the tolerance; its audience, boot, debug and image
    claims are the public values and demand secure boot without debugging; the image
    is allowed and signed by a trusted signer.  Anything else is an error. *)
Theorem verify_attestation_proof_exact (c : t) (now : Z) (public_values proof_bytes key : bytes) :
  verify_attestation_proof c now public_values proof_bytes = Ok key <->
  exists v proof jwt kid,
    abi_decode public_values = Some v /\ proof_data_decode proof_bytes = Some proof /\
    token_ok c proof jwt kid /\ claims_ok c now (StylusJwt.payload_json jwt) v /\
    PublicValues.jwk_key_hash v = keccak256 kid /\ signer_ok c v /\
    key = PublicValues.tee_signing_key v.
Proof. apply accepts_iff. Qed.
End accept.

(** ** The key that is registered *)

Definition with_key (v : PublicValues.t) (key : bytes) : PublicValues.t :=
  PublicValues.mk (PublicValues.jwk_key_hash v) (PublicValues.validity_window_start v)
    (PublicValues.validity_window_end v) (PublicValues.image_digest_hash v) key
    (PublicValues.secboot v) (PublicValues.dbgstat_disabled v) (PublicValues.audience_hash v)
    (PublicValues.image_signature_v v) (PublicValues.image_signature_r v)
    (PublicValues.image_signature_s v).

Section key.
Context `{EV : Evm} `{CR : Crypto} `{AB : PublicValuesAbi} `{PB : ProofDataAbi}.
Context {AL : PublicValuesAbiLaws}.

Lemma valid_with_key v key :
  PublicValues.valid v -> length key = 20%nat -> PublicValues.valid (with_key v key).
Proof. unfold PublicValues.valid. cbn. tauto. Qed.

(** C38. Nothing in the token is compared with [tee_signing_key]: public values that
    are accepted for one key are accepted, with the same token, for any other key. *)
Theorem tee_signing_key_not_bound (c : t) (now : Z) (v : PublicValues.t) (proof_bytes key : bytes) :
  PublicValues.valid v -> length key = 20%nat ->
  verify_attestation_proof c now (abi_encode v) proof_bytes = Ok (PublicValues.tee_signing_key v) ->
  verify_attestation_proof c now (abi_encode (with_key v key)) proof_bytes = Ok key.
Proof using AL.
  intros Hv Hk H. pose proof (valid_with_key v key Hv Hk) as Hv'.
  unfold verify_attestation_proof in *. rewrite abi_decode_encode in * by done.
  cbn [ok_or result_bind] in *.
  destruct (proof_data_decode proof_bytes) as [p|]; [|done]. cbn [ok_or result_bind] in *.
  destruct (verify_token c p) as [[jwt kh]| |]; [|done..]. cbn [result_bind] in *.
  change (verify_window c now (StylusJwt.payload_json jwt) (with_key v key))
    with (verify_window c now (StylusJwt.payload_json jwt) v).
  change (verify_claims c (StylusJwt.payload_json jwt) (with_key v key))
    with (verify_claims c (StylusJwt.payload_json jwt) v).
  change (verify_image_signer c (with_key v key)) with (verify_image_signer c v).
  change (PublicValues.jwk_key_hash (with_key v key)) with (PublicValues.jwk_key_hash v).
  repeat match goal with
  | H : result_bind ?r _ = Ok _ |- _ => destruct r; [|discriminate H..]; cbn [result_bind] in *
  end. done.
Qed.
End key.

(** ** Transactions on the contract *)

Inductive Call :=
| Initialize (tolerance : Z)
| AddTrustedJwk (kid_hash key_material_hash : bytes)
| RemoveTrustedJwk (kid_hash : bytes)
| AddAllowedImageDigestHash (digest_hash : bytes)
| RemoveAllowedImageDigestHash (digest_hash : bytes)
| AddTrustedImageSigner (signer : bytes)
| RemoveTrustedImageSigner (signer : bytes)
| TransferOwnership (new_owner : bytes).

Definition exec (sender : bytes) (c : t) (call : Call) : result VerifierError.t (t * list Event) :=
  match call with
  | Initialize n => initialize sender c n
  | AddTrustedJwk k m => add_trusted_jwk sender c k m
  | RemoveTrustedJwk k => remove_trusted_jwk sender c k
  | AddAllowedImageDigestHash d => add_allowed_image_digest_hash sender c d
  | RemoveAllowedImageDigestHash d => remove_allowed_image_digest_hash sender c d
  | AddTrustedImageSigner s => add_trusted_image_signer sender c s
  | RemoveTrustedImageSigner s => remove_trusted_image_signer sender c s
  | TransferOwnership o => transfer_ownership sender c o
  end.

(** Chain state: the storage and the log.  A failing transaction is reverted; no
    transaction comes from the zero address. *)
Inductive chain_step : t * list Event -> t * list Event -> Prop :=
| tx_ok sender call c log c' evs :
    sender <> ZERO_ADDRESS -> exec sender c call = Ok (c', evs) ->
    chain_step (c, log) (c', log ++ evs)
| tx_reverted sender call c log e :
    exec sender c call = Err e -> chain_step (c, log) (c, log).

(** What the log says: the last event about an item decides. *)
Definition jwk_event (k : bytes) (acc : option bytes) (e : Event) : option bytes :=
  match e with
  | TrustedJwkAdded k' m => if decide (k' = k) then Some m else acc
  | TrustedJwkRemoved k' => if decide (k' = k) then None else acc
  | _ => acc
  end.
Definition digest_event (d : bytes) (acc : bool) (e : Event) : bool :=
  match e with
  | AllowedImageDigestHashAdded d' => if decide (d' = d) then true else acc
  | AllowedImageDigestHashRemoved d' => if decide (d' = d) then false else acc
  | _ => acc
  end.
Definition signer_event (s : bytes) (acc : bool) (e : Event) : bool :=
  match e with
  | TrustedImageSignerAdded s' => if decide (s' = s) then true else acc
  | TrustedImageSignerRemoved s' => if decide (s' = s) then false else acc
  | _ => acc
  end.
Definition logged_jwk (log : list Event) (k : bytes) : option bytes := fold_left (jwk_event k) log None.
Definition logged_digest (log : list Event) (d : bytes) : bool := fold_left (digest_event d) log false.
Definition logged_signer (log : list Event) (s : bytes) : bool := fold_left (signer_event s) log false.

Record follows (c : t) (log : list Event) : Prop := {
  fw_jwk k : is_jwk_trusted c k = bool_decide (is_Some (logged_jwk log k));
  fw_material k : jwk_key_material_hash c k = default ZERO_32 (logged_jwk log k);
  fw_digest d : is_image_digest_hash_allowed c d = logged_digest log d;
  fw_signer s : is_image_signer_trusted c s = logged_signer log s;
  fw_tolerance : expiration_tolerance_ c <= 86400;
  fw_uninit : initialized c = false -> c = deployed /\ log = [];
  fw_owner : initialized c = true -> owner_ c <> ZERO_ADDRESS;
}.

Lemma follows_deployed : follows deployed [].
Proof. by split. Qed.

Lemma logged_app log e :
  (forall k, logged_jwk (log ++ [e]) k = jwk_event k (logged_jwk log k) e) /\
  (forall d, logged_digest (log ++ [e]) d = digest_event d (logged_digest log d) e) /\
  (forall s, logged_signer (log ++ [e]) s = signer_event s (logged_signer log s) e).
Proof. unfold logged_jwk, logged_digest, logged_signer. split_and!; intros; by rewrite fold_left_app. Qed.

Lemma only_owner_inv sender c u : only_owner sender c = Ok u -> sender = owner_ c.
Proof. unfold only_owner. by case_decide. Qed.

Lemma get_bool_insert m k v k' :
  get_bool (<[k := v]> m) k' = if decide (k = k') then v else get_bool m k'.
Proof. unfold get_bool. rewrite lookup_insert. by case_decide. Qed.

(** An administrative call: the owner's, on an initialised contract. *)
Lemma owner_call sender c log u :
  follows c log -> sender <> ZERO_ADDRESS -> only_owner sender c = Ok u ->
  initialized c = true.
Proof.
  intros F Hs Ho%only_owner_inv. destruct (initialized c) eqn:E; [done|].
  destruct (fw_uninit _ _ F E) as [-> _]. done.
Qed.

(** A logged change of one table keeps the storage in step with the log. *)
Lemma follows_event c log c' e :
  follows c log -> initialized c = true -> initialized c' = true ->
  expiration_tolerance_ c' = expiration_tolerance_ c -> owner_ c' <> ZERO_ADDRESS ->
  (forall k, is_jwk_trusted c' k =
     bool_decide (is_Some (jwk_event k (logged_jwk log k) e))) ->
  (forall k, jwk_key_material_hash c' k = default ZERO_32 (jwk_event k (logged_jwk log k) e)) ->
  (forall d, is_image_digest_hash_allowed c' d = digest_event d (logged_digest log d) e) ->
  (forall s, is_image_signer_trusted c' s = signer_event s (logged_signer log s) e) ->
  follows c' (log ++ [e]).
Proof.
  intros F Hi Hi' Ht Ho Hj Hm Hd Hs. destruct (logged_app log e) as (L1 & L2 & L3).
  split; intros; rewrite ?L1, ?L2, ?L3; auto; [|congruence]. rewrite Ht. apply F.
Qed.

(** The tables a call does not touch. *)
Ltac kept F Hi b :=
  try done;
  try solve [ exact (fw_owner _ _ F Hi)
            | intros; subst; destruct b; first
                [ apply (fw_jwk _ _ F) | apply (fw_material _ _ F)
                | apply (fw_digest _ _ F) | apply (fw_signer _ _ F) ] ].

Lemma follows_set_jwk c log k m e (b : bool) :
  follows c log -> initialized c = true ->
  e = (if b then TrustedJwkAdded k m else TrustedJwkRemoved k) -> (b = false -> m = ZERO_32) ->
  follows (set_jwk c k b m) (log ++ [e]).
Proof.
  intros F Hi He Hm. apply (follows_event c); kept F Hi b.
  - intros k'. unfold is_jwk_trusted. cbn. rewrite get_bool_insert. pose proof (fw_jwk _ _ F k') as Hk.
    unfold is_jwk_trusted in Hk. subst e. destruct b; cbn; by case_decide.
  - intros k'. unfold jwk_key_material_hash. cbn. pose proof (fw_material _ _ F k') as Hk.
    unfold jwk_key_material_hash in Hk. rewrite lookup_insert. subst e.
    destruct b; cbn; case_decide; try done. by rewrite Hm.
Qed.

Lemma follows_set_digest c log d e (b : bool) :
  follows c log -> initialized c = true ->
  e = (if b then AllowedImageDigestHashAdded d else AllowedImageDigestHashRemoved d) ->
  follows (set_digest c d b) (log ++ [e]).
Proof.
  intros F Hi He. apply (follows_event c); kept F Hi b.
  intros d'. unfold is_image_digest_hash_allowed. cbn. rewrite get_bool_insert.
  pose proof (fw_digest _ _ F d') as Hk. unfold is_image_digest_hash_allowed in Hk. subst e.
  destruct b; cbn; by case_decide.
Qed.

Lemma follows_set_signer c log s e (b : bool) :
  follows c log -> initialized c = true ->
  e = (if b then TrustedImageSignerAdded s else TrustedImageSignerRemoved s) ->
  follows (set_signer c s b) (log ++ [e]).
Proof.
  intros F Hi He. apply (follows_event c); kept F Hi b.
  intros s'. unfold is_image_signer_trusted. cbn. rewrite get_bool_insert.
  pose proof (fw_signer _ _ F s') as Hk. unfold is_image_signer_trusted in Hk. subst e.
  destruct b; cbn; by case_decide.
Qed.

Lemma follows_set_owner c log o :
  follows c log -> initialized c = true -> o <> ZERO_ADDRESS ->
  follows (set_owner c o) (log ++ [OwnershipTransferred (owner_ c) o]).
Proof. intros F Hi Ho. apply (follows_event c); kept F Hi true. Qed.

Lemma follows_exec sender c log call c' evs :
  follows c log -> sender <> ZERO_ADDRESS -> exec sender c call = Ok (c', evs) ->
  follows c' (log ++ evs).
Proof.
  intros F Hs H.
  assert (Hi : forall u, only_owner sender c = Ok u -> initialized c = true)
    by (intros u; by eapply owner_call).
  destruct call; cbn in H; unfold initialize, add_trusted_jwk, remove_trusted_jwk,
    add_allowed_image_digest_hash, remove_allowed_image_digest_hash, add_trusted_image_signer,
    remove_trusted_image_signer, transfer_ownership in H; ok_inv; subst;
    try pose proof (Hi _ eq_refl) as Hin.
  - rewrite app_nil_r. bool_to_prop. destruct (fw_uninit _ _ F E) as [-> ->]. by split.
  - by eapply (follows_set_jwk c log kid_hash key_material_hash _ true).
  - by eapply (follows_set_jwk c log kid_hash ZERO_32 _ false).
  - by eapply (follows_set_digest _ _ _ _ true).
  - by eapply (follows_set_digest _ _ _ _ false).
  - by eapply (follows_set_signer _ _ _ _ true).
  - by eapply (follows_set_signer _ _ _ _ false).
  - case_decide; [done|]. ok_inv. by apply follows_set_owner.
Qed.

(** C33. After any sequence of transactions on a deployed contract the storage is what
    the event log says: a key is trusted, with the key material of its last addition,
    exactly when the log's last event about it is its addition, and so for images and
    signers; the tolerance is at most a day and an initialised contract has a
    non-zero owner. *)
Theorem storage_follows_log (c : t) (log : list Event) :
  rtc chain_step (deployed, []) (c, log) -> follows c log.
Proof.
  intros H. enough (HG : forall s s', rtc chain_step s s' -> follows s.1 s.2 -> follows s'.1 s'.2)
    by (apply (HG _ _ H), follows_deployed).
  clear. induction 1 as [|s s1 s2 Hstep _ IH]; [done|]. intros F. apply IH.
  inversion Hstep; subst; cbn in *; [|done]. by eapply follows_exec.
Qed.

(** Only the owner's transactions change an initialised contract: from anyone else
    every administrative call, and a second initialisation, is an error. *)
Theorem non_owner_reverts (c : t) (sender : bytes) (call : Call) :
  initialized c = true -> sender <> owner_ c -> exists e, exec sender c call = Err e.
Proof.
  intros Hi Hs. assert (only_owner sender c = Err (VerifierError.NotOwner sender)) as Ho.
  { unfold only_owner. by rewrite decide_False. }
  destruct call; cbn; unfold initialize, add_trusted_jwk, remove_trusted_jwk,
    add_allowed_image_digest_hash, remove_allowed_image_digest_hash, add_trusted_image_signer,
    remove_trusted_image_signer, transfer_ownership; rewrite ?Ho, ?Hi; eauto.
Qed.
