(* ===== verification/BootClients.v ===== *)
(** * Key registration: configuration, errors and the clients of the bootstrap
    (crates/synddb-bootstrap/src/config.rs, error.rs, proof_client.rs,
    relayer_client.rs, submitter.rs, drain.rs)

    Durations are in seconds.  A request that the state machine repeats takes the
    attempt number and passes it to the network, so each attempt may have its own
    outcome.  The chain behind the RPC endpoint is the class [Rpc]. *)
From Stdlib Require Import Ascii Strings.Byte.
From S2P Require Import Prelude RustStd Base64 Extern Net SignedTypes Jwt Stylus Inbox.

(** ** error.rs *)
Inductive BootstrapError :=
| AttestationSocketMissing (s : string)
| AttestationFetchFailed (s : string)
| JwksFetchFailed (s : string)
| ProofGenerationFailed (s : string)
| ProofGenerationPermanent (s : string)
| ProofServiceUnavailable (s : string)
| ProofGenerationTimeout (d : Z)
| ContractSubmissionFailed (s : string)
| TransactionFailed (s : string)
| TransactionConfirmationFailed (s : string)
| KeyVerificationFailed (s : string)
| BootConfig (s : string)
| BootTimeout (d : Z)
| MaxRetriesExceeded (operation last_error : string).

(** [{:?}] of a [Duration] of whole seconds. *)
Definition duration_debug (d : Z) : string := int_to_string d +:+ "s".

Definition BootstrapError_to_string (e : BootstrapError) : string :=
  match e with
  | AttestationSocketMissing s => "Attestation socket not available: " +:+ s
  | AttestationFetchFailed s => "Failed to fetch attestation token: " +:+ s
  | JwksFetchFailed s => "Failed to fetch JWKS: " +:+ s
  | ProofGenerationFailed s => "Proof generation failed: " +:+ s
  | ProofGenerationPermanent s => "Permanent proof generation failure: " +:+ s
  | ProofServiceUnavailable s => "Proof service unavailable: " +:+ s
  | ProofGenerationTimeout d => "Proof generation timed out after " +:+ duration_debug d
  | ContractSubmissionFailed s => "Contract submission failed: " +:+ s
  | TransactionFailed s => "Transaction failed: " +:+ s
  | TransactionConfirmationFailed s => "Transaction confirmation failed: " +:+ s
  | KeyVerificationFailed s => "Key verification failed: " +:+ s
  | BootConfig s => "Configuration error: " +:+ s
  | BootTimeout d => "Bootstrap timed out after " +:+ duration_debug d
  | MaxRetriesExceeded op e => "Maximum retries exceeded for " +:+ op +:+ ": " +:+ e
  end.

Definition is_retryable (e : BootstrapError) : bool :=
  match e with
  | AttestationFetchFailed _ | JwksFetchFailed _ | ProofGenerationFailed _
  | ProofServiceUnavailable _ | ProofGenerationTimeout _ | ContractSubmissionFailed _
  | TransactionFailed _ | TransactionConfirmationFailed _ => true
  | _ => false
  end.

(** ** config.rs *)
Inductive ProverMode := Service | Mock | StylusMode.
#[global] Instance ProverMode_eq_dec : EqDecision ProverMode.
Proof. solve_decision. Defined.

Module BootstrapConfig.
Record t := mk {
  enable_key_bootstrap : bool;
  bridge_address : option string;
  rpc_url : option string;
  chain_id : option Z;
  relayer_url : option string;
  prover_mode : ProverMode;
  proof_service_url : option string;
  attestation_audience : option string;
  proof_timeout : Z;
  proof_health_check_timeout : Z;
  bootstrap_timeout : Z;
  proof_max_retries : nat;
  relayer_max_retries : nat;
  verification_max_retries : nat;
  relayer_timeout : Z;
  image_signature : option string;
  google_jwks_url : string;
}.

Definition default : t :=
  mk false None None None None Service None None 1200 10 1800 3 3 5 180 None
     "https://www.googleapis.com/service_accounts/v1/metadata/jwk/signer@confidentialspace-sign.iam.gserviceaccount.com".

Definition require_some {A} (o : option A) (msg : string) : result BootstrapError unit :=
  match o with Some _ => Ok tt | None => Err (BootConfig msg) end.

Definition validate (c : t) : result BootstrapError unit :=
  if negb (enable_key_bootstrap c) then Ok tt else
  let? _ := require_some (bridge_address c) "BRIDGE_CONTRACT_ADDRESS is required when bootstrap is enabled" in
  let? _ := require_some (rpc_url c) "BOOTSTRAP_RPC_URL is required when bootstrap is enabled" in
  let? _ := require_some (chain_id c) "BOOTSTRAP_CHAIN_ID is required when bootstrap is enabled" in
  let? _ := require_some (relayer_url c) "RELAYER_URL is required when bootstrap is enabled" in
  let? _ :=
    if bool_decide (prover_mode c = Service)
    then require_some (proof_service_url c) "PROOF_SERVICE_URL is required when prover_mode is 'service'"
    else Ok tt in
  require_some (image_signature c) "IMAGE_SIGNATURE is required when bootstrap is enabled".
End BootstrapConfig.

(** [unwrap()] on an option. *)
Definition unwrap {E A} (o : option A) : result E A :=
  match o with
  | Some a => Ok a
  | None => Panic "called `Option::unwrap()` on a `None` value"
  end.

(** ** proof_client.rs *)
Module ProofRequest.
Record t := mk {
  jwt_token : string;
  expected_audience : string;
  evm_public_key : string;
  image_signature : string;
}.
End ProofRequest.

Module ProofResponse.
Record t := mk { public_values : string; proof_bytes : string; tee_address : string }.
End ProofResponse.

(** The client's own, smaller JWT types. *)
Module ClientJwtHeader.
Record t := mk { kid : string; alg : string }.
End ClientJwtHeader.
Module JwtContainer.
Record t := mk { image_digest : option string }.
End JwtContainer.
Module JwtSubmods.
Record t := mk { container : option JwtContainer.t }.
End JwtSubmods.
Module JwtClaims.
Record t := mk {
  aud : string;
  iat : Z;
  exp : Z;
  secboot : option bool;
  dbgstat : option string;
  submods : option JwtSubmods.t;
}.
Definition image_digest (c : t) : option string :=
  s ← submods c; ct ← JwtSubmods.container s; JwtContainer.image_digest ct.
End JwtClaims.
Module JwkKeyResponse.
Record t := mk { kid : string; n : string; e : string }.
End JwkKeyResponse.
Module JwksResponse.
Record t := mk { keys : list JwkKeyResponse.t }.
End JwksResponse.

Definition METADATA_URL : string :=
  "http://metadata.google.internal/computeMetadata/v1/instance/service-accounts/default/identity?audience=".



Module ProofClient.
Record t := mk {
  service_url : string;
  timeout : Z;
  health_check_timeout : Z;
  prover_mode : ProverMode;
  google_jwks_url : string;
}.

Section ops.
Context `{HX : Hex} `{CR : Crypto} `{HN : HttpNet} `{AT : AddressText}.
Context `{AB : PublicValuesAbi} `{PB : ProofDataAbi}.
Context `{JH : FromJson ClientJwtHeader.t} `{JC : FromJson JwtClaims.t} `{JK : FromJson JwksResponse.t}.
Context `{JP : FromJson ProofResponse.t} `{JR : ToJson ProofRequest.t}.

Definition from_config (config : BootstrapConfig.t) : result BootstrapError t :=
  let? service_url :=
    match BootstrapConfig.prover_mode config with
    | Service => ok_or (BootConfig "PROOF_SERVICE_URL is required") (BootstrapConfig.proof_service_url config)
    | Mock => Ok "mock://localhost"%string
    | StylusMode => Ok ""%string
    end in
  let? _ := map_err ProofServiceUnavailable client_build in
  Ok (mk service_url (BootstrapConfig.proof_timeout config)
        (BootstrapConfig.proof_health_check_timeout config)
        (BootstrapConfig.prover_mode config) (BootstrapConfig.google_jwks_url config)).

(** [fetch_identity_token] of this file. *)
Definition fetch_identity_token (audience : string) (n : nat) : result BootstrapError string :=
  match http_get (METADATA_URL +:+ audience) [("Metadata-Flavor", "Google")]%string n with
  | SendError e => Err (ProofServiceUnavailable ("Failed to fetch identity token: " +:+ NetError.text e))
  | Response status body =>
      if negb (is_success status)
      then Err (ProofServiceUnavailable ("Failed to fetch identity token: HTTP " +:+ status_display status))
      else match body with
           | Ok b => Ok (body_text b)
           | Err e => Err (ProofServiceUnavailable ("Failed to read identity token: " +:+ NetError.text e))
           | Panic w => Panic w
           end
  end.

Definition empty_values (address : bytes) : PublicValues.t :=
  PublicValues.mk ZERO_32 0 0 ZERO_32 address false false ZERO_32 0 ZERO_32 ZERO_32.

Definition generate_mock_proof (evm_public_key : bytes) : result BootstrapError ProofResponse.t :=
  let address := evm_address evm_public_key in
  Ok (ProofResponse.mk (hex0x (abi_encode (empty_values address))) "0x" (address_display address)).

Definition fetch_jwk_by_kid (c : t) (kid : string) (n : nat) : result BootstrapError JwkKeyResponse.t :=
  match http_get (google_jwks_url c) [] n with
  | SendError e => Err (ProofGenerationFailed ("Failed to fetch JWKS: " +:+ NetError.text e))
  | Response status body =>
      if negb (is_success status)
      then Err (ProofGenerationFailed ("JWKS fetch failed: HTTP " +:+ status_display status))
      else
        let? jwks := map_err (fun e => ProofGenerationFailed ("Failed to parse JWKS response: " +:+ e))
                             (response_json (A := JwksResponse.t) body) in
        ok_or (ProofGenerationFailed ("JWK with kid '" +:+ kid +:+ "' not found in JWKS response"))
              (snd <$> list_find (fun k => JwkKeyResponse.kid k = kid) (JwksResponse.keys jwks))
  end.

Definition gen_failed (what : string) (e : string) : BootstrapError :=
  ProofGenerationFailed (what +:+ ": " +:+ e).

(** The public values of a Stylus proof, from the parsed token. *)
Definition stylus_values (kid : string) (claims : JwtClaims.t) (image_digest : string)
    (tee_address image_signature : bytes) : PublicValues.t :=
  PublicValues.mk (keccak256 (as_bytes kid)) (JwtClaims.iat claims) (JwtClaims.exp claims)
    (keccak256 (as_bytes image_digest)) tee_address
    (default false (JwtClaims.secboot claims))
    (bool_decide (JwtClaims.dbgstat claims = Some "disabled-since-boot"%string))
    (keccak256 (as_bytes (JwtClaims.aud claims)))
    (Z_of_byte (nth 64 image_signature x00)) (take 32 image_signature)
    (take 32 (drop 32 image_signature)).

Definition generate_stylus_proof (c : t) (jwt_token expected_audience : string)
    (evm_public_key image_signature : bytes) (n : nat) : result BootstrapError ProofResponse.t :=
  match splitn_char 3 "." jwt_token with
  | [part0; part1; _] =>
      let? header_bytes := map_err (gen_failed "Failed to decode JWT header")
                                   (Client.base64url_decode (as_bytes part0)) in
      let? payload_bytes := map_err (gen_failed "Failed to decode JWT payload")
                                    (Client.base64url_decode (as_bytes part1)) in
      let? header := map_err (gen_failed "Failed to parse JWT header")
                             (from_slice (A := ClientJwtHeader.t) header_bytes) in
      let? claims := map_err (gen_failed "Failed to parse JWT claims")
                             (from_slice (A := JwtClaims.t) payload_bytes) in
      if negb (bool_decide (JwtClaims.aud claims = expected_audience))
      then Err (ProofGenerationFailed ("JWT audience mismatch: expected '" +:+ expected_audience
                  +:+ "', got '" +:+ JwtClaims.aud claims +:+ "'")) else
      let tee_address := evm_address evm_public_key in
      if negb (Nat.eqb (length image_signature) 65)
      then Err (ProofGenerationFailed ("Image signature must be 65 bytes, got "
                  +:+ int_to_string (Z.of_nat (length image_signature)))) else
      let? image_digest := ok_or (ProofGenerationFailed "JWT claims missing submods.container.image_digest")
                                 (JwtClaims.image_digest claims) in
      let values := stylus_values (ClientJwtHeader.kid header) claims image_digest tee_address image_signature in
      let? jwk := fetch_jwk_by_kid c (ClientJwtHeader.kid header) n in
      let? modulus_bytes := map_err (gen_failed "Failed to decode JWK modulus")
                                    (Client.base64url_decode (as_bytes (JwkKeyResponse.n jwk))) in
      let? exponent_bytes := map_err (gen_failed "Failed to decode JWK exponent")
                                     (Client.base64url_decode (as_bytes (JwkKeyResponse.e jwk))) in
      let proof_data := StylusProofData.mk (as_bytes jwt_token) modulus_bytes exponent_bytes in
      Ok (ProofResponse.mk (hex0x (abi_encode values)) (hex0x (proof_data_encode proof_data))
            (address_display tee_address))
  | _ => Err (ProofGenerationFailed "Invalid JWT format: expected 3 dot-separated parts")
  end.

Definition generate_proof (c : t) (jwt_token expected_audience : string)
    (evm_public_key image_signature : bytes) (n : nat) : result BootstrapError ProofResponse.t :=
  if bool_decide (prover_mode c = Mock) then generate_mock_proof evm_public_key else
  if bool_decide (prover_mode c = StylusMode)
  then generate_stylus_proof c jwt_token expected_audience evm_public_key image_signature n else
  let request := ProofRequest.mk jwt_token expected_audience (hex0x evm_public_key) (hex0x image_signature) in
  let? identity_token := fetch_identity_token (service_url c) n in
  match http_post (service_url c +:+ "/prove") [("Authorization", "Bearer " +:+ identity_token)]%string
                  (to_json_bytes request) n with
  | SendError e =>
      Err (if NetError.is_timeout e then ProofGenerationTimeout (timeout c)
           else if NetError.is_connect e then ProofServiceUnavailable (NetError.text e)
           else ProofGenerationFailed (NetError.text e))
  | Response status body =>
      if negb (is_success status) then
        let text := text_or_default body in
        if status =? BAD_REQUEST then Err (ProofGenerationPermanent text)
        else Err (ProofGenerationFailed ("HTTP " +:+ status_display status +:+ ": " +:+ text))
      else map_err ProofGenerationFailed (response_json (A := ProofResponse.t) body)
  end.

Definition health_check (c : t) (n : nat) : result BootstrapError bool :=
  if bool_decide (prover_mode c = Mock) || bool_decide (prover_mode c = StylusMode) then Ok true else
  let? identity_token := fetch_identity_token (service_url c) n in
  match http_get (service_url c +:+ "/health") [("Authorization", "Bearer " +:+ identity_token)]%string n with
  | SendError e => Err (ProofServiceUnavailable (NetError.text e))
  | Response status _ => Ok (is_success status)
  end.
End ops.
End ProofClient.

(** ** relayer_client.rs *)
Inductive KeyType := Sequencer | ValidatorKey.
#[global] Instance KeyType_eq_dec : EqDecision KeyType.
Proof. solve_decision. Defined.

Module RegisterKeyRequest.
Record t := mk {
  public_values : string;
  proof_bytes : string;
  deadline : Z;
  signature : string;
  key_type : KeyType;
}.
End RegisterKeyRequest.

Module RegisterKeyResponse.
Record t := mk {
  registered_key : option string;
  tx_hash : option string;
  error : option string;
}.
End RegisterKeyResponse.

(** The chain behind the RPC endpoint.  [n] numbers the calls of a kind;
    [elapsed_ms n] is what [start.elapsed()] reads at turn [n] of a polling loop. *)
Class Rpc := {
  url_parse : string -> result string unit;
  rpc_tee_key_manager : string -> bytes -> nat -> result string bytes;
  rpc_is_key_valid : string -> bytes -> Z -> bytes -> nat -> result string bool;
  rpc_get_balance : string -> bytes -> result string Z;
  rpc_get_gas_price : string -> result string Z;
  rpc_send_eth : string -> bytes -> bytes -> Z -> result string bytes;
  rpc_receipt : string -> bytes -> nat -> result string (option bool);
  elapsed_ms : nat -> Z;
}.

(** [U256::from(x).to_be_bytes::<32>()] *)
Definition u256_be (x : Z) : bytes := to_be_bytes 32 x.

Definition compute_domain_separator `{Crypto} (name version : string) (chain_id : Z) (contract : bytes) : bytes :=
  let typehash := keccak256 (as_bytes
    "EIP712Domain(string name,string version,uint256 chainId,address verifyingContract)") in
  keccak256 (typehash ++ keccak256 (as_bytes name) ++ keccak256 (as_bytes version)
             ++ u256_be chain_id ++ replicate 12 x00 ++ contract).

(** The EIP-712 digest of [AddKey(attestationHash, deadline)]. *)
Definition add_key_digest `{Crypto} (chain_id : Z) (tee_key_manager public_values proof_bytes : bytes)
    (deadline : Z) : bytes :=
  let domain_separator := compute_domain_separator "TeeKeyManager" "1" chain_id tee_key_manager in
  let typehash := keccak256 (as_bytes "AddKey(bytes32 attestationHash,uint256 deadline)") in
  let attestation_hash := keccak256 (public_values ++ proof_bytes) in
  let struct_hash := keccak256 (typehash ++ attestation_hash ++ u256_be deadline) in
  keccak256 ([x19; x01] ++ domain_separator ++ struct_hash).

(** [Signature::as_bytes]: r, s and 27 plus the parity. *)
Definition alloy_as_bytes `{Signer} (a : AlloySignature) : bytes :=
  alloy_r a ++ alloy_s a ++ [byte_of_Z (if alloy_v a then 28 else 27)].

Module RelayerClient.
Record t := mk { relayer_url : string; tee_key_manager_address : bytes; chain_id : Z }.

Section ops.
Context `{HX : Hex} `{CR : Crypto} `{SG : !Signer} `{HN : HttpNet} `{RP : Rpc}.
Context `{JR : ToJson RegisterKeyRequest.t} `{JP : FromJson RegisterKeyResponse.t}.

Definition fetch_identity_token (audience : string) (n : nat) : result BootstrapError string :=
  match http_get (METADATA_URL +:+ audience) [("Metadata-Flavor", "Google")]%string n with
  | SendError e => Err (ContractSubmissionFailed ("Failed to fetch identity token: " +:+ NetError.text e))
  | Response status body =>
      if negb (is_success status)
      then Err (ContractSubmissionFailed ("Failed to fetch identity token: HTTP " +:+ status_display status))
      else match body with
           | Ok b => Ok (body_text b)
           | Err e => Err (ContractSubmissionFailed ("Failed to read identity token: " +:+ NetError.text e))
           | Panic w => Panic w
           end
  end.

Definition new (relayer_url : string) (bridge_address : bytes) (rpc_url : string) (chain_id : Z)
    : result BootstrapError t :=
  let? _ := map_err (fun e => BootConfig ("Failed to build HTTP client: " +:+ e)) client_build in
  let? _ := map_err (fun e => BootConfig ("Invalid RPC URL: " +:+ e)) (url_parse rpc_url) in
  let? tkm := map_err (fun e => BootConfig ("Failed to fetch TeeKeyManager address: " +:+ e))
                      (rpc_tee_key_manager rpc_url bridge_address 0) in
  Ok (mk relayer_url tkm chain_id).

Definition create_registration_signature (c : t) (signer : PrivateKeySigner)
    (public_values proof_bytes : bytes) (deadline : Z) : result BootstrapError bytes :=
  let digest := add_key_digest (chain_id c) (tee_key_manager_address c) public_values proof_bytes deadline in
  let? signature := map_err (fun e => BootConfig ("Signing failed: " +:+ e)) (sign_hash_sync signer digest) in
  Ok (alloy_as_bytes signature).

(** The request [register_key] posts; [now] is the Unix time. *)
Definition registration_request (c : t) (signer : PrivateKeySigner) (public_values proof_bytes : string)
    (key_type : KeyType) (now : Z) : result BootstrapError RegisterKeyRequest.t :=
  let deadline := u64_add now 3600 in
  let? public_values_bytes := map_err (fun e => BootConfig ("Invalid public_values hex: " +:+ e))
        (hex_decode (trim_start_matches "0x" public_values)) in
  let? proof_bytes_bytes := map_err (fun e => BootConfig ("Invalid proof_bytes hex: " +:+ e))
        (hex_decode (trim_start_matches "0x" proof_bytes)) in
  let? signature := create_registration_signature c signer public_values_bytes proof_bytes_bytes deadline in
  Ok (RegisterKeyRequest.mk public_values proof_bytes deadline (hex0x signature) key_type).

Definition register_key (c : t) (signer : PrivateKeySigner) (public_values proof_bytes : string)
    (key_type : KeyType) (now : Z) (n : nat) : result BootstrapError RegisterKeyResponse.t :=
  let? request := registration_request c signer public_values proof_bytes key_type now in
  let? identity_token := fetch_identity_token (relayer_url c) n in
  match http_post (relayer_url c +:+ "/register-key") [("Authorization", "Bearer " +:+ identity_token)]%string
                  (to_json_bytes request) n with
  | SendError e => Err (ContractSubmissionFailed ("Relayer request failed: " +:+ NetError.text e))
  | Response status body =>
      if negb (is_success status)
      then Err (ContractSubmissionFailed ("Relayer returned " +:+ status_display status +:+ ": "
                                          +:+ text_or_default body))
      else
        let? response := map_err (fun e => ContractSubmissionFailed ("Invalid relayer response: " +:+ e))
                                 (response_json (A := RegisterKeyResponse.t) body) in
        match RegisterKeyResponse.error response with
        | Some error => Err (ContractSubmissionFailed ("Relayer error: " +:+ error))
        | None => Ok response
        end
  end.
End ops.
End RelayerClient.

(** ** Polling for a receipt

    The loop of the three [wait_for_confirmation] functions from turn [i] on:
    [None] when [fuel] runs out. *)
Section confirm.
Context {E : Type} (timed_out reverted : E) (timeout_ms : Z).
Context (elapsed : nat -> Z) (receipt : nat -> result string (option bool)).

Fixpoint confirm_loop (fuel i : nat) : option (result E unit) :=
  match fuel with
  | O => None
  | S f =>
      if timeout_ms <? elapsed i then Some (Err timed_out) else
      match receipt i with
      | Ok (Some true) => Some (Ok tt)
      | Ok (Some false) => Some (Err reverted)
      | _ => confirm_loop f (S i)
      end
  end.

(** Every turn sleeps two seconds, so this many turns exceed the timeout. *)
Definition confirm_turns : nat := Z.to_nat (timeout_ms / 2000) + 2.
Definition confirm : result E unit :=
  match confirm_loop confirm_turns 0 with
  | Some r => r
  | None => Panic "still polling"
  end.
End confirm.

(** ** submitter.rs *)
Definition is_invalid_public_key_error (err_str : string) : bool :=
  contains "InvalidPublicKey" err_str || contains "0xffc44e88" err_str.

Module ContractSubmitter.
Record t := mk { rpc_url : string; bridge_address : bytes }.

Section ops.
Context `{AT : AddressText} `{CR : Crypto} `{SG : !Signer} `{RP : Rpc}.

Definition from_config (config : BootstrapConfig.t) : result BootstrapError t :=
  let? rpc_url := ok_or (BootConfig "BOOTSTRAP_RPC_URL is required") (BootstrapConfig.rpc_url config) in
  let? text := ok_or (BootConfig "BRIDGE_CONTRACT_ADDRESS is required") (BootstrapConfig.bridge_address config) in
  let? bridge_address := map_err (fun e => BootConfig ("Invalid bridge address: " +:+ e)) (address_parse text) in
  Ok (mk rpc_url bridge_address).

Definition check_url (c : t) : result BootstrapError unit :=
  map_err (fun e => BootConfig ("Invalid RPC URL: " +:+ e)) (url_parse (rpc_url c)).

(** [balance.to::<u128>()] panics on a value that does not fit. *)
Definition get_balance (c : t) (address : bytes) : result BootstrapError Z :=
  let? _ := check_url c in
  let? balance := map_err ContractSubmissionFailed (rpc_get_balance (rpc_url c) address) in
  if balance <? 2 ^ 128 then Ok balance else Panic "U256 to u128 overflow".

Definition fetch_tee_key_manager_address (c : t) (n : nat) : result BootstrapError bytes :=
  map_err (fun e => KeyVerificationFailed ("Failed to fetch TeeKeyManager address: " +:+ e))
          (rpc_tee_key_manager (rpc_url c) (bridge_address c) n).

(** [is_sequencer_key_valid] and [is_validator_key_valid] differ in the number. *)
Definition is_key_valid (c : t) (key_type : Z) (address : bytes) (n : nat) : result BootstrapError bool :=
  let? _ := check_url c in
  let? tkm := fetch_tee_key_manager_address c n in
  match rpc_is_key_valid (rpc_url c) tkm key_type address n with
  | Ok _ => Ok true
  | Err e => if is_invalid_public_key_error e then Ok false else Err (KeyVerificationFailed e)
  | Panic w => Panic w
  end.
Definition is_sequencer_key_valid (c : t) (address : bytes) (n : nat) : result BootstrapError bool :=
  is_key_valid c 0 address n.
Definition is_validator_key_valid (c : t) (address : bytes) (n : nat) : result BootstrapError bool :=
  is_key_valid c 1 address n.

Definition get_gas_price (c : t) : result BootstrapError Z :=
  let? _ := check_url c in
  map_err ContractSubmissionFailed (rpc_get_gas_price (rpc_url c)).

Definition send_eth (c : t) (signer : PrivateKeySigner) (to : bytes) (amount : Z) : result BootstrapError bytes :=
  let? _ := check_url c in
  map_err TransactionFailed (rpc_send_eth (rpc_url c) (signer_address signer) to amount).

Definition wait_for_confirmation (c : t) (tx_hash : bytes) (timeout : Z) : result BootstrapError unit :=
  let? _ := check_url c in
  confirm (TransactionConfirmationFailed "Timeout waiting for confirmation")
          (TransactionFailed "Transaction reverted") (timeout * 1000)
          elapsed_ms (rpc_receipt (rpc_url c) tx_hash).
End ops.
End ContractSubmitter.

(** ** drain.rs *)
Definition ETH_TRANSFER_GAS : Z := 21000.
Definition u128_mul (a b : Z) : Z := (a * b) mod 2 ^ 128.

Section drain.
Context `{AT : AddressText} `{CR : Crypto} `{SG : !Signer} `{RP : Rpc}.

Definition drain_to_treasury (submitter : ContractSubmitter.t) (old_key : PrivateKeySigner)
    (treasury_address : bytes) : result BootstrapError Z :=
  let old_address := signer_address old_key in
  let? balance := ContractSubmitter.get_balance submitter old_address in
  if balance =? 0 then Ok 0 else
  let? gas_price := ContractSubmitter.get_gas_price submitter in
  let gas_cost := u128_mul ETH_TRANSFER_GAS gas_price in
  if balance <=? gas_cost then Ok 0 else
  let amount_to_send := balance - gas_cost in
  let? tx_hash := ContractSubmitter.send_eth submitter old_key treasury_address amount_to_send in
  let? _ := ContractSubmitter.wait_for_confirmation submitter tx_hash 60 in
  Ok amount_to_send.
End drain.
