(* ===== verification/Bootstrap.v ===== *)
(** * The key bootstrap state machine
    (crates/synddb-bootstrap/src/state_machine.rs) and the attestation client it
    uses (crates/synddb-client/src/attestation.rs)

    A key is generated, attested, proved, registered through the relayer and looked
    up on chain.  A [&mut self] method returns the machine as it leaves it, also on
    an error; the retry loops return the seconds they slept. *)
From Stdlib Require Import Ascii Strings.Byte.
From S2P Require Import Prelude RustStd Base64 Extern Net SignedTypes Jwt Stylus Inbox.
From S2P Require Import BootClients.

(** ** attestation.rs *)
Inductive TokenType := Oidc | Pki | AwsPrincipaltags.

Module AttestationRequest.
Record t := mk { audience : string; token_type : TokenType; nonces : list string }.
End AttestationRequest.

Definition ATTESTATION_SOCKET_PATH : string := "/run/container_launcher/teeserver.sock".
(** in milliseconds of the monotonic clock *)
Definition DEFAULT_CACHE_DURATION : Z := 50 * 60 * 1000.

(** The launcher's socket: whether it exists, and the answer to the [n]-th POST. *)
Class TeeSocket := {
  socket_exists : bool;
  socket_post : bytes -> nat -> result string (Z * result string bytes);
}.

Module AttestationResponse.
Record t := mk { token : string }.

(** Slicing [&body_str[..100]] panics inside a character. *)
Definition preview (body_str : string) : result string string :=
  if Nat.ltb 100 (String.length body_str) then
    if is_char_boundary body_str 100
    then Ok (string_of_bytes (take 100 (as_bytes body_str)))
    else Panic "byte index 100 is not a char boundary"
  else Ok body_str.

Definition parse `{JR : FromJson t} (body : bytes) : result string t :=
  let body_str := from_utf8_lossy body in
  match from_slice (A := t) body with
  | Ok response => Ok response
  | _ =>
      let trimmed := trim body_str in
      if starts_with "eyJ" trimmed && contains "." trimmed then Ok (mk trimmed) else
      let? p := preview body_str in
      Err ("Response is neither JSON with 'token' field nor a raw JWT. Body preview: " +:+ p)
  end.
End AttestationResponse.

Module TokenCache.
Record t := mk { token : option string; expires_at : option Z }.
End TokenCache.

Module AttestationClient.
Record t := mk {
  audience : string;
  token_type : TokenType;
  cache : TokenCache.t;
  cache_duration : Z;
}.

Section ops.
Context `{TS : TeeSocket} `{HN : HttpNet}.
Context `{JQ : ToJson AttestationRequest.t} `{JR : FromJson AttestationResponse.t}.

Definition new (audience : string) (token_type : TokenType) : result string t :=
  if negb socket_exists
  then Err ("Confidential Space attestation socket not found at " +:+ ATTESTATION_SOCKET_PATH
            +:+ ". Are you running in GCP Confidential Space?")
  else Ok (mk audience token_type (TokenCache.mk None None) DEFAULT_CACHE_DURATION).

Definition fetch_token_internal (c : t) (nonces : list string) (n : nat) : result string string :=
  let request := AttestationRequest.mk (audience c) (token_type c) nonces in
  let? '(status, body) := map_err (fun _ => "Failed to send attestation request"%string)
                                  (socket_post (to_json_bytes request) n) in
  if negb (is_success status)
  then Err ("Attestation service returned error: " +:+ status_display status) else
  let? body_bytes := map_err (fun _ => "Failed to read attestation response body"%string) body in
  let? response := map_err (fun _ => "Failed to parse attestation response"%string)
                           (AttestationResponse.parse body_bytes) in
  Ok (AttestationResponse.token response).

(** [now] is the monotonic clock; a fetched token replaces the cache. *)
Definition get_token (c : t) (now : Z) (n : nat) : t * result string string :=
  let fetch :=
    match fetch_token_internal c [] n with
    | Ok token => (mk (audience c) (token_type c)
                      (TokenCache.mk (Some token) (Some (now + cache_duration c))) (cache_duration c), Ok token)
    | r => (c, r)
    end in
  match TokenCache.token (cache c), TokenCache.expires_at (cache c) with
  | Some token, Some expires_at => if now <? expires_at then (c, Ok token) else fetch
  | _, _ => fetch
  end.

Fixpoint check_nonces (nonces : list string) (i : nat) : result string unit :=
  match nonces with
  | [] => Ok tt
  | nonce :: rest =>
      let len := String.length nonce in
      if negb (Nat.leb 10 len && Nat.leb len 74)
      then Err ("Nonce " +:+ int_to_string (Z.of_nat i) +:+ " has invalid length: "
                +:+ int_to_string (Z.of_nat len) +:+ " (must be 10-74 bytes)")
      else check_nonces rest (S i)
  end.

Definition get_token_with_nonces (c : t) (nonces : list string) (n : nat) : result string string :=
  if Nat.ltb 6 (length nonces)
  then Err ("Too many nonces: " +:+ int_to_string (Z.of_nat (length nonces)) +:+ " (max 6)") else
  let? _ := check_nonces nonces 0 in
  fetch_token_internal c nonces n.

Definition invalidate_cache (c : t) : t :=
  mk (audience c) (token_type c) (TokenCache.mk None None) (cache_duration c).
End ops.
End AttestationClient.

(** ** state_machine.rs *)
Definition parse_hex_bytes `{Hex} (hex_str field_name : string) : result BootstrapError bytes :=
  map_err (fun e => BootConfig ("Invalid " +:+ field_name +:+ " hex encoding: " +:+ e))
          (hex_decode (trim_start_matches "0x" hex_str)).

Inductive BootstrapState :=
| NotStarted
| GeneratingKey
| FetchingAttestation
| GeneratingProof
| RegisteringKey
| VerifyingRegistration
| Ready
| Failed.

Definition state_display (s : BootstrapState) : string :=
  match s with
  | NotStarted => "not_started"
  | GeneratingKey => "generating_key"
  | FetchingAttestation => "fetching_attestation"
  | GeneratingProof => "generating_proof"
  | RegisteringKey => "registering_key"
  | VerifyingRegistration => "verifying_registration"
  | Ready => "ready"
  | Failed => "failed"
  end.

(** A retry loop: attempts [attempt], [attempt + 1], ... with [todo] left, sleeping
    [unit_secs * attempt] after each retryable failure, the last one included. *)
Section retry.
Context {A : Type} (f : nat -> result BootstrapError A) (unit_secs : Z) (operation : string).

Fixpoint retry_from (todo attempt : nat) (last_error : option BootstrapError)
    : list Z * result BootstrapError A :=
  match todo with
  | O => ([], Err (MaxRetriesExceeded operation
                     (match last_error with Some e => BootstrapError_to_string e | None => "" end)))
  | S todo' =>
      match f attempt with
      | Ok a => ([], Ok a)
      | Err e =>
          if is_retryable e then
            let '(slept, r) := retry_from todo' (S attempt) (Some e) in
            (unit_secs * Z.of_nat attempt :: slept, r)
          else ([], Err e)
      | Panic w => ([], Panic w)
      end
  end.
End retry.

(** The [?] operator in a method on [&mut self]: the machine is left as it is. *)
Notation "'try!' x ':=' c 'at' m 'in' k" :=
  (match c with Ok x => k | Err e => (m, Err e) | Panic w => (m, Panic w) end)
  (at level 10, x name, c at level 100, m at level 9, k at level 200) : rust_scope.

Module BootstrapStateMachine.
Section ops.
Context `{HX : Hex} `{CR : Crypto} `{SG : !Signer} `{HN : HttpNet} `{AT : AddressText} `{RP : Rpc}.
Context `{AB : PublicValuesAbi} `{PB : ProofDataAbi} `{TS : TeeSocket}.
Context `{JH : FromJson ClientJwtHeader.t} `{JC : FromJson JwtClaims.t} `{JK : FromJson JwksResponse.t}.
Context `{JP : FromJson ProofResponse.t} `{JR : ToJson ProofRequest.t}.
Context `{JG : ToJson RegisterKeyRequest.t} `{JS : FromJson RegisterKeyResponse.t}.
Context `{JQ : ToJson AttestationRequest.t} `{JA : FromJson AttestationResponse.t}.

Record t := mk {
  state : BootstrapState;
  key_manager : option EvmKeyManager.t;
  attestation_token : option string;
  proof : option ProofResponse.t;
  started_at : option Z;
  last_error : option BootstrapError;
  key_type : KeyType;
}.

Definition new (key_type : KeyType) : t := mk NotStarted None None None None None key_type.
Definition for_sequencer : t := new Sequencer.
Definition for_validator : t := new ValidatorKey.
Definition tee_address (m : t) : option bytes := EvmKeyManager.address <$> key_manager m.

Definition set_state (m : t) (s : BootstrapState) : t :=
  mk s (key_manager m) (attestation_token m) (proof m) (started_at m) (last_error m) (key_type m).
Definition set_key (m : t) (km : EvmKeyManager.t) : t :=
  mk (state m) (Some km) (attestation_token m) (proof m) (started_at m) (last_error m) (key_type m).
Definition set_token (m : t) (token : string) : t :=
  mk (state m) (key_manager m) (Some token) (proof m) (started_at m) (last_error m) (key_type m).
Definition set_proof (m : t) (p : ProofResponse.t) : t :=
  mk (state m) (key_manager m) (attestation_token m) (Some p) (started_at m) (last_error m) (key_type m).
Definition set_started (m : t) (now : Z) : t :=
  mk (state m) (key_manager m) (attestation_token m) (proof m) (Some now) (last_error m) (key_type m).

Definition attestation_audience (config : BootstrapConfig.t) : string :=
  match BootstrapConfig.attestation_audience config with
  | Some a => a
  | None => "https://tee-key-manager." +:+ int_to_string (default 1 (BootstrapConfig.chain_id config))
  end.

Definition fetch_attestation_with_retry (config : BootstrapConfig.t) (now : Z) : result BootstrapError string :=
  let audience := attestation_audience config in
  let? client := map_err (fun e => AttestationFetchFailed
      ("Failed to create attestation client (not running in Confidential Space?): " +:+ e))
      (AttestationClient.new audience Oidc) in
  map_err AttestationFetchFailed (snd (AttestationClient.get_token client now 0)).

Definition generate_proof_with_retry (client : ProofClient.t) (attestation audience : string)
    (public_key image_signature : bytes) (max_retries : nat) : list Z * result BootstrapError ProofResponse.t :=
  retry_from (ProofClient.generate_proof client attestation audience public_key image_signature)
             30 "proof_generation" max_retries 1 None.

(** [clock n] is the Unix time at attempt [n]. *)
Definition register_with_retry (m : t) (relayer_client : RelayerClient.t) (proof : ProofResponse.t)
    (signer : PrivateKeySigner) (clock : nat -> Z) (max_retries : nat) : list Z * result BootstrapError unit :=
  let '(slept, r) :=
    retry_from (fun n => RelayerClient.register_key relayer_client signer
                           (ProofResponse.public_values proof) (ProofResponse.proof_bytes proof)
                           (key_type m) (clock n) n)
               10 "key_registration" max_retries 1 None in
  (slept, let? _ := r in Ok tt).

(** The loop from [attempt] on with [todo] attempts left. *)
Fixpoint verify_loop (m : t) (submitter : ContractSubmitter.t) (address : bytes) (max_retries : nat)
    (todo attempt : nat) : list Z * result BootstrapError unit :=
  match todo with
  | O => ([], Err (KeyVerificationFailed "Key not found in contract after registration (RPC sync issue?)"))
  | S todo' =>
      match (match key_type m with
             | Sequencer => ContractSubmitter.is_sequencer_key_valid submitter address attempt
             | ValidatorKey => ContractSubmitter.is_validator_key_valid submitter address attempt
             end) with
      | Ok true => ([], Ok tt)
      | Ok false =>
          let '(slept, r) := verify_loop m submitter address max_retries todo' (S attempt) in
          ((if Nat.ltb attempt max_retries then [2 * Z.of_nat attempt] else []) ++ slept, r)
      | Err e => ([], Err e)
      | Panic w => ([], Panic w)
      end
  end.

Definition verify_registration_with_retry (m : t) (submitter : ContractSubmitter.t) (address : bytes)
    (max_retries : nat) : list Z * result BootstrapError unit :=
  let '(slept, r) := verify_loop m submitter address max_retries max_retries 1 in (2 :: slept, r).

(** Steps 2 to 5 of [run], once the clients exist. *)
Definition run_with_clients (m : t) (config : BootstrapConfig.t) (km : EvmKeyManager.t)
    (proof_client : ProofClient.t) (submitter : ContractSubmitter.t) (relayer_client : RelayerClient.t)
    (now : Z) (clock : nat -> Z) : t * result BootstrapError EvmKeyManager.t :=
  let m := set_state m FetchingAttestation in
  try! attestation := fetch_attestation_with_retry config now at m in
  let m := set_token m attestation in
  try! sig_hex := unwrap (BootstrapConfig.image_signature config) at m in
  try! image_signature := parse_hex_bytes sig_hex "IMAGE_SIGNATURE" at m in
  if negb (Nat.eqb (length image_signature) 65)
  then (m, Err (BootConfig ("IMAGE_SIGNATURE must be exactly 65 bytes (r || s || v), got "
                            +:+ int_to_string (Z.of_nat (length image_signature))))) else
  let m := set_state m GeneratingProof in
  let audience := attestation_audience config in
  try! proof := snd (generate_proof_with_retry proof_client attestation audience
                       (EvmKeyManager.public_key km) image_signature
                       (BootstrapConfig.proof_max_retries config)) at m in
  let m := set_proof m proof in
  let m := set_state m RegisteringKey in
  try! _u := snd (register_with_retry m relayer_client proof (EvmKeyManager.signer km) clock
                    (BootstrapConfig.relayer_max_retries config)) at m in
  let m := set_state m VerifyingRegistration in
  try! _v := snd (verify_registration_with_retry m submitter (EvmKeyManager.address km)
                    (BootstrapConfig.verification_max_retries config)) at m in
  (set_state m Ready, Ok km).

(** [random] is the drawn key. *)
Definition run (m : t) (config : BootstrapConfig.t) (random : PrivateKeySigner) (now : Z)
    (clock : nat -> Z) : t * result BootstrapError EvmKeyManager.t :=
  try! _u := BootstrapConfig.validate config at m in
  let m := set_state (set_started m now) GeneratingKey in
  let km := EvmKeyManager.generate random in
  let m := set_key m km in
  try! proof_client := ProofClient.from_config config at m in
  try! submitter := ContractSubmitter.from_config config at m in
  try! bridge_text := unwrap (BootstrapConfig.bridge_address config) at m in
  try! bridge_address := map_err (fun e => BootConfig ("Invalid bridge address: " +:+ e))
                                 (address_parse bridge_text) at m in
  try! rpc_url := unwrap (BootstrapConfig.rpc_url config) at m in
  try! relayer_url := unwrap (BootstrapConfig.relayer_url config) at m in
  try! chain_id := unwrap (BootstrapConfig.chain_id config) at m in
  try! relayer_client := RelayerClient.new relayer_url bridge_address rpc_url chain_id at m in
  run_with_clients m config km proof_client submitter relayer_client now clock.
End ops.
End BootstrapStateMachine.
