(* ===== verification/BootProps.v ===== *)
(** * Properties of the key bootstrap

    The retry and polling loops, when the state machine reaches [Ready] and where it
    stops otherwise, draining an old key, and agreement between the client's Stylus
    proof, the guest's journal and the contract. *)
From Stdlib Require Import Ascii Strings.Byte.
From S2P Require Import Prelude RustStd Base64 Extern Net SignedTypes Jwt Stylus StylusProps Inbox.
From S2P Require Import BootClients Bootstrap.

(** ** Polling for a receipt *)
Section confirm_props.
Context {E : Type} (timed_out reverted : E) (timeout_ms : Z).
Context (elapsed : nat -> Z) (receipt : nat -> result string (option bool)).
Context (Hclock : forall i, 2000 * Z.of_nat i <= elapsed i).

(** Turn [i] neither times out nor sees a receipt. *)
Definition pending (i : nat) : bool :=
  (elapsed i <=? timeout_ms) && match receipt i with Ok (Some _) => false | _ => true end.

(** What a turn that is not pending returns. *)
Definition verdict (i : nat) : result E unit :=
  if timeout_ms <? elapsed i then Err timed_out
  else match receipt i with Ok (Some true) => Ok tt | _ => Err reverted end.

Lemma confirm_loop_spec fuel : forall i,
  (forall j, (i <= j < i + fuel)%nat -> pending j = true) \/
  exists k, (i <= k < i + fuel)%nat /\ (forall j, (i <= j < k)%nat -> pending j = true) /\
    pending k = false /\
    confirm_loop timed_out reverted timeout_ms elapsed receipt fuel i = Some (verdict k).
Proof.
  induction fuel as [|f IH]; intros i; [left; lia|]. cbn [confirm_loop].
  destruct (pending i) eqn:Hp.
  - destruct (IH (S i)) as [Hall|(k & Hk & Hlt & Hnk & Heq)].
    + left. intros j Hj. destruct (decide (j = i)) as [->|]; [done|]. apply Hall. lia.
    + right. exists k. split_and!; [lia|lia| |done|].
      * intros j Hj. destruct (decide (j = i)) as [->|]; [done|]. apply Hlt. lia.
      * unfold pending in Hp. bool_to_prop. rewrite (proj2 (Z.ltb_ge _ _)), <- Heq by lia.
        by destruct (receipt i) as [[b|]| |].
  - right. exists i. split_and!; [lia..|done|]. unfold verdict, pending in *.
    rewrite Z.leb_antisym in Hp. destruct (timeout_ms <? elapsed i); [done|]. cbn in Hp.
    by destruct (receipt i) as [[[]|]| |].
Qed.

Lemma turns_exceed_timeout : 0 <= timeout_ms -> pending (confirm_turns timeout_ms - 1) = false.
Proof using Hclock.
  intros Ht. unfold pending, confirm_turns. apply andb_false_iff. left. apply Z.leb_gt.
  eapply Z.lt_le_trans; [|apply Hclock].
  pose proof (Z.div_mod timeout_ms 2000 ltac:(lia)). pose proof (Z.mod_pos_bound timeout_ms 2000 ltac:(lia)).
  assert (0 <= timeout_ms / 2000) by (apply Z.div_pos; lia). lia.
Qed.

Lemma confirm_first :
  0 <= timeout_ms ->
  exists k, (k < confirm_turns timeout_ms)%nat /\ (forall j, (j < k)%nat -> pending j = true) /\
    pending k = false /\ confirm timed_out reverted timeout_ms elapsed receipt = verdict k.
Proof using Hclock.
  intros Ht. pose proof (turns_exceed_timeout Ht) as Hlast.
  destruct (confirm_loop_spec (confirm_turns timeout_ms) 0) as [Hall|(k & Hk & Hlt & Hn & Heq)].
  - rewrite Hall in Hlast; [done|]. unfold confirm_turns. lia.
  - exists k. split_and!; [lia| |done|].
    + intros j Hj. apply Hlt. lia.
    + unfold confirm. by rewrite Heq.
Qed.
End confirm_props.

(** Waiting for a transaction always ends: when each turn of the loop takes at
    least the two seconds it sleeps, it returns within [timeout / 2s + 2] turns, and it
    returns what the first turn that times out or sees a receipt decides: success for
    a successful receipt, an error for a reverted one and for the timeout. *)
Theorem confirmation_terminates {E} (timed_out reverted : E) (timeout_ms : Z) (elapsed : nat -> Z)
    (receipt : nat -> result string (option bool)) :
  (forall i, 2000 * Z.of_nat i <= elapsed i) -> 0 <= timeout_ms ->
  exists k, (k < confirm_turns timeout_ms)%nat /\
    (forall j, (j < k)%nat -> pending timeout_ms elapsed receipt j = true) /\
    pending timeout_ms elapsed receipt k = false /\
    confirm timed_out reverted timeout_ms elapsed receipt =
      verdict timed_out reverted timeout_ms elapsed receipt k.
Proof. intros Hc Ht. by apply confirm_first. Qed.

Lemma confirmation_terminates_witness :
  exists k, (k < 4)%nat /\
    confirm "late"%string "reverted"%string 5000 (fun i => 2000 * Z.of_nat i)
      (fun i => if Nat.eqb i 2 then Ok (Some true) else Ok None) = Ok tt /\ k = 2%nat.
Proof.
  destruct (confirmation_terminates "late"%string "reverted"%string 5000 (fun i => 2000 * Z.of_nat i)
      (fun i => if Nat.eqb i 2 then Ok (Some true) else Ok None) ltac:(lia) ltac:(lia))
    as (k & Hk & Hlt & Hp & Heq).
  change (confirm_turns 5000) with 4%nat in Hk. exists 2%nat. split; [lia|]. split; [|done].
  vm_compute. reflexivity.
Defined.

(** ** Retrying *)
Section retry_props.
Context {A : Type} (f : nat -> result BootstrapError A) (unit_secs : Z) (operation : string).

(** Attempt [k] succeeds and the ones before it fail for a transient reason. *)
Definition succeeds_at (lo k : nat) (a : A) : Prop :=
  (lo <= k)%nat /\ f k = Ok a /\
  forall j, (lo <= j < k)%nat -> exists e, f j = Err e /\ is_retryable e = true.

Lemma retry_from_iff todo : forall attempt last a,
  snd (retry_from f unit_secs operation todo attempt last) = Ok a <->
  exists k, (k < attempt + todo)%nat /\ succeeds_at attempt k a.
Proof.
  induction todo as [|todo IH]; intros attempt last a.
  - cbn. split; [done|]. intros (k & Hk & Hle & _). lia.
  - cbn [retry_from]. destruct (f attempt) as [a'|e|w] eqn:Ef.
    + cbn. split.
      * intros [= ->]. exists attempt. split; [lia|]. split_and!; [lia|done|lia].
      * intros (k & Hk & Hle & Hok & Hlt). destruct (decide (k = attempt)) as [->|]; [congruence|].
        destruct (Hlt attempt) as (e & He & _); [lia|congruence].
    + destruct (is_retryable e) eqn:Er.
      * specialize (IH (S attempt) (Some e) a).
        destruct (retry_from f unit_secs operation todo (S attempt) (Some e)) as [sl r]. cbn in *. rewrite IH.
        split; intros (k & Hk & Hle & Hok & Hlt); exists k.
        -- split; [lia|]. split_and!; [lia|done|]. intros j Hj.
           destruct (decide (j = attempt)) as [->|]; [eauto|]. apply Hlt. lia.
        -- assert (k <> attempt) by congruence. split; [lia|]. split_and!; [lia|done|].
           intros j Hj. apply Hlt. lia.
      * cbn. split; [done|]. intros (k & Hk & Hle & Hok & Hlt).
        destruct (decide (k = attempt)) as [->|]; [congruence|].
        destruct (Hlt attempt) as (e' & He & Hr); [lia|congruence].
    + cbn. split; [done|]. intros (k & Hk & Hle & Hok & Hlt).
      destruct (decide (k = attempt)) as [->|]; [congruence|].
      destruct (Hlt attempt) as (e' & He & Hr); [lia|congruence].
Qed.

End retry_props.

(** ** The state machine *)
Section machine.
Context `{HX : Hex} `{CR : Crypto} `{SG : !Signer} `{HN : HttpNet} `{AT : AddressText} `{RP : Rpc}.
Context `{AB : PublicValuesAbi} `{PB : ProofDataAbi} `{TS : TeeSocket}.
Context `{JH : FromJson ClientJwtHeader.t} `{JC : FromJson JwtClaims.t} `{JK : FromJson JwksResponse.t}.
Context `{JP : FromJson ProofResponse.t} `{JR : ToJson ProofRequest.t}.
Context `{JG : ToJson RegisterKeyRequest.t} `{JS : FromJson RegisterKeyResponse.t}.
Context `{JQ : ToJson AttestationRequest.t} `{JA : FromJson AttestationResponse.t}.
Import BootstrapStateMachine.

(** The on-chain check of the machine's key type. *)
Definition key_visible (kt : KeyType) (submitter : ContractSubmitter.t) (address : bytes) (n : nat)
    : result BootstrapError bool :=
  match kt with
  | Sequencer => ContractSubmitter.is_sequencer_key_valid submitter address n
  | ValidatorKey => ContractSubmitter.is_validator_key_valid submitter address n
  end.

Definition visible_at (kt : KeyType) submitter address (lo k : nat) : Prop :=
  (lo <= k)%nat /\ key_visible kt submitter address k = Ok true /\
  forall j, (lo <= j < k)%nat -> key_visible kt submitter address j = Ok false.

Lemma verify_loop_iff m submitter address max todo : forall attempt,
  snd (verify_loop m submitter address max todo attempt) = Ok tt <->
  exists k, (k < attempt + todo)%nat /\ visible_at (key_type m) submitter address attempt k.
Proof.
  induction todo as [|todo IH]; intros attempt.
  - cbn. split; [done|]. intros (k & Hk & Hle & _). lia.
  - cbn [verify_loop]. change (match key_type m with Sequencer => _ | ValidatorKey => _ end)
      with (key_visible (key_type m) submitter address attempt).
    unfold visible_at in *. destruct (key_visible _ _ _ attempt) as [[]|e|w] eqn:Ef.
    + cbn. split; [intros _|done]. exists attempt. split; [lia|]. split_and!; [lia|done|lia].
    + specialize (IH (S attempt)).
      destruct (verify_loop m submitter address max todo (S attempt)) as [sl r]. cbn in *. rewrite IH.
      split; intros (k & Hk & Hle & Hok & Hlt); exists k.
      * split; [lia|]. split_and!; [lia|done|]. intros j Hj.
        destruct (decide (j = attempt)) as [->|]; [done|]. apply Hlt. lia.
      * assert (k <> attempt) by congruence. split; [lia|]. split_and!; [lia|done|].
        intros j Hj. apply Hlt. lia.
    + cbn. split; [done|]. intros (k & Hk & Hle & Hok & Hlt).
      destruct (decide (k = attempt)) as [->|]; [congruence|]. rewrite Hlt in Ef by lia. done.
    + cbn. split; [done|]. intros (k & Hk & Hle & Hok & Hlt).
      destruct (decide (k = attempt)) as [->|]; [congruence|]. rewrite Hlt in Ef by lia. done.
Qed.

(** The clients [run] builds from a configuration. *)
Record clients := { cl_proof : ProofClient.t; cl_submitter : ContractSubmitter.t; cl_relayer : RelayerClient.t }.

Definition clients_ok (config : BootstrapConfig.t) (cl : clients) : Prop :=
  BootstrapConfig.validate config = Ok tt /\
  ProofClient.from_config config = Ok (cl_proof cl) /\
  ContractSubmitter.from_config config = Ok (cl_submitter cl) /\
  exists bridge_text bridge rpc_url relayer_url chain_id,
    BootstrapConfig.bridge_address config = Some bridge_text /\ address_parse bridge_text = Ok bridge /\
    BootstrapConfig.rpc_url config = Some rpc_url /\
    BootstrapConfig.relayer_url config = Some relayer_url /\
    BootstrapConfig.chain_id config = Some chain_id /\
    RelayerClient.new relayer_url bridge rpc_url chain_id = Ok (cl_relayer cl).

(** Every stage succeeds, each within its number of attempts. *)
Definition stages_succeed (kt : KeyType) (config : BootstrapConfig.t) (km : EvmKeyManager.t)
    (cl : clients) (now : Z) (clock : nat -> Z) (token : string) (proof : ProofResponse.t) : Prop :=
  fetch_attestation_with_retry config now = Ok token /\
  exists sig_hex sig,
    BootstrapConfig.image_signature config = Some sig_hex /\
    parse_hex_bytes sig_hex "IMAGE_SIGNATURE" = Ok sig /\ length sig = 65%nat /\
    (exists k, (k <= BootstrapConfig.proof_max_retries config)%nat /\
       succeeds_at (ProofClient.generate_proof (cl_proof cl) token (attestation_audience config)
                      (EvmKeyManager.public_key km) sig) 1 k proof) /\
    (exists k response, (k <= BootstrapConfig.relayer_max_retries config)%nat /\
       succeeds_at (fun n => RelayerClient.register_key (cl_relayer cl) (EvmKeyManager.signer km)
                      (ProofResponse.public_values proof) (ProofResponse.proof_bytes proof) kt (clock n) n)
                   1 k response) /\
    (exists k, (k <= BootstrapConfig.verification_max_retries config)%nat /\
       visible_at kt (cl_submitter cl) (EvmKeyManager.address km) 1 k).

Lemma generate_ok_iff client token aud pk sig max proof :
  snd (generate_proof_with_retry client token aud pk sig max) = Ok proof <->
  exists k, (k <= max)%nat /\ succeeds_at (ProofClient.generate_proof client token aud pk sig) 1 k proof.
Proof.
  unfold generate_proof_with_retry. rewrite retry_from_iff.
  split; intros (k & Hk & H); exists k; (split; [lia|done]).
Qed.

Lemma register_ok_iff m client proof signer clock max :
  snd (register_with_retry m client proof signer clock max) = Ok tt <->
  exists k response, (k <= max)%nat /\
    succeeds_at (fun n => RelayerClient.register_key client signer (ProofResponse.public_values proof)
                   (ProofResponse.proof_bytes proof) (key_type m) (clock n) n) 1 k response.
Proof.
  unfold register_with_retry.
  pose proof (retry_from_iff (fun n => RelayerClient.register_key client signer
    (ProofResponse.public_values proof) (ProofResponse.proof_bytes proof) (key_type m) (clock n) n)
    10 "key_registration" max 1 None) as H.
  destruct (retry_from _ _ _ _ _ _) as [sl r]. cbn in *. split.
  - destruct r as [a| |]; [|done..]. intros _. destruct (proj1 (H a) eq_refl) as (k & Hk & Hs).
    exists k, a. split; [lia|done].
  - intros (k & a & Hk & Hs). assert (r = Ok a) as ->; [|done].
    apply H. exists k. split; [lia|done].
Qed.

Lemma verify_ok_iff m submitter address max :
  snd (verify_registration_with_retry m submitter address max) = Ok tt <->
  exists k, (k <= max)%nat /\ visible_at (key_type m) submitter address 1 k.
Proof.
  unfold verify_registration_with_retry. pose proof (verify_loop_iff m submitter address max max 1) as H.
  destruct (verify_loop _ _ _ _ _ _) as [sl r]. cbn in *. rewrite H.
  split; intros (k & Hk & Hv); exists k; (split; [lia|done]).
Qed.

(** Split the hypothesis that a method with [try!] returned [Ok]. *)
Ltac try_inv H :=
  repeat match type of H with
  | match ?c with Ok _ => _ | Err _ => _ | Panic _ => _ end = (_, Ok _) =>
      let E := fresh "E" in destruct c eqn:E; [|discriminate H..]
  | (if ?b then _ else _) = (_, Ok _) => let E := fresh "E" in destruct b eqn:E; [discriminate H|]
  end.

Lemma unwrap_ok {E B} (o : option B) (b : B) : unwrap (E := E) o = Ok b <-> o = Some b.
Proof. destruct o; cbn; [split; by intros [= ->]|done]. Qed.

Lemma run_with_clients_iff m config km cl now clock m' km' :
  run_with_clients m config km (cl_proof cl) (cl_submitter cl) (cl_relayer cl) now clock = (m', Ok km') <->
  km' = km /\ exists token proof, stages_succeed (key_type m) config km cl now clock token proof /\
    m' = mk Ready (key_manager m) (Some token) (Some proof) (started_at m) (last_error m) (key_type m).
Proof.
  unfold run_with_clients, stages_succeed. split.
  - intros H. try_inv H. injection H as <- <-. split; [done|].
    apply unwrap_ok in E0. bool_to_prop. apply Nat.eqb_eq in E2.
    destruct a3, a4. apply generate_ok_iff in E3. apply register_ok_iff in E4. apply verify_ok_iff in E5.
    exists a, a2. split; [|done]. split; [done|]. exists a0, a1. done.
  - intros [-> (token & proof & (-> & sig_hex & sig & -> & Hs & Hl & Hg & Hr & Hv) & ->)].
    cbn [unwrap]. rewrite Hs, Hl. cbn [Nat.eqb negb].
    apply generate_ok_iff in Hg. rewrite Hg.
    apply (register_ok_iff (set_state (set_proof (set_state (set_token (set_state m FetchingAttestation)
      token) GeneratingProof) proof) RegisteringKey)) in Hr. rewrite Hr.
    apply (verify_ok_iff (set_state (set_state (set_proof (set_state (set_token (set_state m FetchingAttestation)
      token) GeneratingProof) proof) RegisteringKey) VerifyingRegistration)) in Hv. by rewrite Hv.
Qed.

Lemma run_ok_iff m config random now clock m' km :
  run m config random now clock = (m', Ok km) <->
  km = EvmKeyManager.generate random /\
  exists cl token proof, clients_ok config cl /\ stages_succeed (key_type m) config km cl now clock token proof /\
    m' = mk Ready (Some km) (Some token) (Some proof) (Some now) (last_error m) (key_type m).
Proof.
  unfold run, clients_ok. split.
  - intros H. try_inv H. destruct a.
    apply (run_with_clients_iff _ _ _ (Build_clients a0 a1 a7)) in H as [-> (token & proof & Hs & ->)].
    repeat match goal with E : unwrap _ = Ok _ |- _ => apply unwrap_ok in E end.
    match goal with E : map_err _ _ = Ok _ |- _ => apply map_err_ok in E end.
    split; [done|]. exists (Build_clients a0 a1 a7), token, proof. split; [|done].
    split_and!; [done..|]. eauto 12.
  - intros (-> & cl & token & proof & (Hv & Hp & Hsub & b & ba & u & ru & ci & Hb & Hba & Hu & Hr & Hc & Hrc)
      & Hs & ->).
    rewrite Hv, Hp, Hsub, Hb. cbn [unwrap]. rewrite Hba. cbn [map_err]. rewrite Hu, Hr, Hc. cbn [unwrap].
    rewrite Hrc. apply run_with_clients_iff. split; [done|]. by exists token, proof.
Qed.

(** C27. The bootstrap reaches [Ready], and returns the key it generated, exactly when
    the clients can be built from the configuration and every stage succeeds: the
    token is fetched (once), the image signature is 65 bytes, and the proof, the
    registration and the on-chain lookup each succeed within their number of attempts
    with only transient failures (for the lookup: only absence) before.  Nothing else
    is needed, and nothing less is accepted. *)
Theorem bootstrap_ready_iff (kt : KeyType) (config : BootstrapConfig.t) (random : PrivateKeySigner)
    (now : Z) (clock : nat -> Z) :
  (exists m', run (new kt) config random now clock = (m', Ok (EvmKeyManager.generate random)) /\
              state m' = Ready /\ tee_address m' = Some (signer_address random)) <->
  exists cl token proof, clients_ok config cl /\
    stages_succeed kt config (EvmKeyManager.generate random) cl now clock token proof.
Proof.
  split.
  - intros (m' & H & _). apply run_ok_iff in H as (_ & cl & token & proof & Hc & Hs & _).
    by exists cl, token, proof.
  - intros (cl & token & proof & Hc & Hs).
    exists (mk Ready (Some (EvmKeyManager.generate random)) (Some token) (Some proof) (Some now) None kt).
    split; [|done]. apply run_ok_iff. split; [done|]. by exists cl, token, proof.
Qed.

Lemma run_with_clients_quiet m config km cp cs cr now clock :
  let m' := (run_with_clients m config km cp cs cr now clock).1 in
  last_error m' = last_error m /\ state m' <> Failed.
Proof.
  cbv zeta. unfold run_with_clients.
  repeat match goal with
  | |- context [match ?c with Ok _ => _ | Err _ => _ | Panic _ => _ end] => destruct c
  | |- context [if ?b then _ else _] => destruct b
  end; done.
Qed.

(** No outcome of the bootstrap is recorded in the machine: whatever happens, the
    state after [run] is not [Failed] and no error is kept in [last_error]. *)
Theorem bootstrap_never_failed (m : t) (config : BootstrapConfig.t) (random : PrivateKeySigner)
    (now : Z) (clock : nat -> Z) :
  state m <> Failed ->
  let m' := (run m config random now clock).1 in
  last_error m' = last_error m /\ state m' <> Failed.
Proof.
  intros Hm. cbv zeta. unfold run.
  repeat match goal with
  | |- context [match ?c with Ok _ => _ | Err _ => _ | Panic _ => _ end] => destruct c
  end; try done.
  match goal with |- context [run_with_clients ?a ?b ?c ?d ?e ?f ?g ?h] =>
    apply (run_with_clients_quiet a b c d e f g h) end.
Qed.

(** Draining sends what is left of the balance after the gas of one transfer. *)
Lemma drain_conserves submitter old_key treasury amount :
  drain_to_treasury submitter old_key treasury = Ok amount -> amount <> 0 ->
  exists balance price tx,
    rpc_get_balance (ContractSubmitter.rpc_url submitter) (signer_address old_key) = Ok balance /\
    rpc_get_gas_price (ContractSubmitter.rpc_url submitter) = Ok price /\
    rpc_send_eth (ContractSubmitter.rpc_url submitter) (signer_address old_key) treasury amount = Ok tx /\
    amount = balance - u128_mul ETH_TRANSFER_GAS price /\ 0 < amount <= balance /\
    (0 <= price -> ETH_TRANSFER_GAS * price < 2 ^ 128 -> balance = amount + ETH_TRANSFER_GAS * price).
Proof.
  unfold drain_to_treasury, ContractSubmitter.get_balance, ContractSubmitter.get_gas_price,
    ContractSubmitter.send_eth. intros H Hz. ok_inv; [done|done|]. bool_to_prop.
  match goal with E : rpc_get_gas_price _ = Ok ?p |- _ =>
    pose proof (Z.mod_pos_bound (ETH_TRANSFER_GAS * p) (2 ^ 128) ltac:(lia)) end.
  unfold u128_mul in *. do 3 eexists. split_and!; [done..|lia|lia|].
  intros Hp Hs. rewrite Z.mod_small; unfold ETH_TRANSFER_GAS in *; lia.
Qed.
End machine.
