(* ===== verification/AttestProps.v ===== *)
(** * One token, three readers

    What the guest library accepts, and the agreement between the bootstrap
    client's Stylus proof, the zkVM guest's journal and the on-chain verifier. *)
From Stdlib Require Import Ascii Strings.Byte.
From S2P Require Import Prelude RustStd Base64 Extern Net SignedTypes Jwt Stylus StylusProps Inbox.
From S2P Require Import BootClients Bootstrap.
Import StylusAttestationVerifier.

(** ** Cutting a token *)

Lemma split_char_cons c s a r :
  split_char c s = a :: r -> r <> [] -> exists y, split_once c s = Some (a, y) /\ split_char c y = r.
Proof.
  intros H Hr. destruct (split_once c s) as [[x y]|] eqn:E.
  - pose proof (split_once_split _ _ _ _ E) as Hs. rewrite H in Hs. injection Hs as -> ->. by exists y.
  - apply split_once_none in E. rewrite H in E. by injection E.
Qed.

Lemma split3_splitn c s x y z : split_char c s = [x; y; z] -> splitn_char 3 c s = [x; y; z].
Proof.
  intros H. apply split_char_cons in H as (s1 & H1 & H); [|done].
  apply split_char_cons in H as (s2 & H2 & H); [|done]. cbn. rewrite H1, H2.
  destruct (split_once c s2) as [[u v]|] eqn:E.
  - apply split_once_split in E. rewrite H in E. injection E as _ E.
    exfalso. destruct v; cbn in E; [done|]. case_decide; [done|]. by destruct (split_char c v).
  - apply split_once_none in E. rewrite H in E. by injection E as <-.
Qed.

Section guest_props.
Context `{JH : FromJson JwtHeader.t} `{JC : FromJson GcpCsClaims.t} `{RS : Rsa} `{CR : Crypto}.

(** The token's parts, as [parse_jwt] found them. *)
Lemma parse_jwt_inv token p :
  parse_jwt (as_bytes token) = Ok p ->
  exists h b s hb pb,
    split_char "." token = [h; b; s] /\
    OnChain.base64url_decode (as_bytes h) = Ok hb /\ from_slice hb = Ok (ParsedJwt.header p) /\
    OnChain.base64url_decode (as_bytes b) = Ok pb /\ from_slice pb = Ok (ParsedJwt.claims p) /\
    OnChain.base64url_decode (as_bytes s) = Ok (ParsedJwt.signature p) /\
    ParsedJwt.signing_input p = as_bytes h ++ [b_dot] ++ as_bytes b.
Proof.
  unfold parse_jwt. intros H.
  destruct (from_utf8 (as_bytes token)) as [ts| |] eqn:E; [|done..]. cbn [map_err result_bind] in H.
  apply from_utf8_inv, as_bytes_inj in E as ->.
  destruct (split_char "." token) as [|h [|b [|s [|]]]]; try done.
  rewrite !gcp_decode_onchain in H. ok_inv. by exists h, b, s, a, a1.
Qed.

(** C30. The contract cuts a token as the guest library does: whenever the library
    parses it, the contract reads the same header and payload bytes, the same signature
    and the same signed input. *)
Theorem contract_reads_same_token (token : string) (p : ParsedJwt.t) :
  parse_jwt (as_bytes token) = Ok p ->
  exists j, stylus_parse_jwt (as_bytes token) = Ok j /\
    from_slice (StylusJwt.header_json j) = Ok (ParsedJwt.header p) /\
    from_slice (StylusJwt.payload_json j) = Ok (ParsedJwt.claims p) /\
    StylusJwt.signature j = ParsedJwt.signature p /\
    StylusJwt.signing_input j = ParsedJwt.signing_input p.
Proof.
  intros H. assert (Hu : from_utf8 (as_bytes token) = Ok token).
  { unfold parse_jwt in H. destruct (from_utf8 (as_bytes token)) as [ts| |] eqn:E; [|done..].
    by apply from_utf8_inv, as_bytes_inj in E as ->. }
  apply parse_jwt_inv in H as (h & b & s & hb & pb & Hs & Hh & Hhj & Hb & Hbj & Hsg & Hsi).
  exists (StylusJwt.mk hb pb (ParsedJwt.signature p) (ParsedJwt.signing_input p)).
  split; [|done]. unfold stylus_parse_jwt. rewrite Hu. cbn [map_err result_bind].
  rewrite (split3_splitn _ _ _ _ _ Hs). cbn [lookup list_lookup ok_or result_bind].
  rewrite Hh, Hb, Hsg, Hsi. done.
Qed.

(** A token accepted by the guest library for this key, audience and time. *)
Definition attested (jwk : JwkKey.t) (aud : option string) (now : option Z) (p : ParsedJwt.t) : Prop :=
  let c := ParsedJwt.claims p in
  JwtHeader.alg (ParsedJwt.header p) = "RS256"%string /\
  JwtHeader.kid (ParsedJwt.header p) = JwkKey.kid jwk /\
  verify_rs256_signature p jwk = Ok tt /\
  GcpCsClaims.iss c = ISSUER /\
  (GcpCsClaims.swname c = None \/ GcpCsClaims.swname c = Some "CONFIDENTIAL_SPACE"%string) /\
  (forall a, aud = Some a -> GcpCsClaims.aud c = a) /\
  (forall t, now = Some t -> t < GcpCsClaims.exp c /\ (0 < GcpCsClaims.nbf c -> GcpCsClaims.nbf c <= t)).

Definition result_of (p : ParsedJwt.t) : ValidationResult.t :=
  let c := ParsedJwt.claims p in
  ValidationResult.mk (JwtHeader.kid (ParsedJwt.header p)) (GcpCsClaims.iat c) (GcpCsClaims.exp c)
    (unwrap_or_default (GcpCsClaims.image_digest c)) (GcpCsClaims.secboot c) (GcpCsClaims.aud c)
    (GcpCsClaims.eat_nonce c) (unwrap_or_default (GcpCsClaims.dbgstat c))
    (unwrap_or_default (GcpCsClaims.hwmodel c)).

Lemma check_swname_iff c :
  check_swname c = Ok tt <->
  GcpCsClaims.swname c = None \/ GcpCsClaims.swname c = Some "CONFIDENTIAL_SPACE"%string.
Proof. unfold check_swname. destruct (GcpCsClaims.swname c); [case_decide|]; naive_solver. Qed.

Lemma check_audience_iff c aud :
  check_audience c aud = Ok tt <-> forall a, aud = Some a -> GcpCsClaims.aud c = a.
Proof. unfold check_audience. destruct aud; [case_decide|]; naive_solver. Qed.

Lemma check_time_iff c now :
  check_time c now = Ok tt <->
  forall t, now = Some t -> t < GcpCsClaims.exp c /\ (0 < GcpCsClaims.nbf c -> GcpCsClaims.nbf c <= t).
Proof.
  unfold check_time. destruct now as [t|]; [|naive_solver].
  destruct (Z.leb_spec (GcpCsClaims.exp c) t).
  { split; [done|]. intros Hf. specialize (Hf t eq_refl). lia. }
  destruct (Z.ltb_spec 0 (GcpCsClaims.nbf c)), (Z.ltb_spec t (GcpCsClaims.nbf c)); cbn.
  1: split; [done|]; intros Hf; specialize (Hf t eq_refl); lia.
  all: split; [intros _ t' [= <-]; lia|done].
Qed.

Lemma verify_attestation_iff jwt jwk aud now r :
  verify_attestation jwt jwk aud now = Ok r <->
  exists p, parse_jwt jwt = Ok p /\ attested jwk aud now p /\ r = result_of p.
Proof.
  unfold verify_attestation, attested. split.
  - intros H. destruct (parse_jwt jwt) as [p| |] eqn:Ep; [|done..]. cbn [map_err result_bind] in H.
    ok_inv. bool_to_prop.
    repeat match goal with u : unit |- _ => destruct u end.
    exists p. split; [done|]. split; [|done]. split_and!; try done;
      by (apply check_swname_iff || apply check_audience_iff || apply check_time_iff).
  - intros (p & -> & (Ha & Hk & Hv & Hi & Hsw & Hau & Ht) & ->). cbn [map_err result_bind].
    rewrite !bool_decide_true by done. cbn [negb]. rewrite Hv. cbn [result_bind].
    by rewrite (proj2 (check_swname_iff _) Hsw), (proj2 (check_audience_iff _ _) Hau),
      (proj2 (check_time_iff _ _) Ht).
Qed.

(** The guest library returns a result exactly for tokens that parse, are RS256
    tokens under the given key's id with a signature that verifies under the key, come
    from Google's issuer and from Confidential Space if they name their software, match
    the audience and the time asked for; the result is the token's own claims. *)
Theorem verify_attestation_exact (jwt : bytes) (jwk : JwkKey.t) (aud : option string)
    (now : option Z) (r : ValidationResult.t) :
  verify_attestation jwt jwk aud now = Ok r <->
  exists p, parse_jwt jwt = Ok p /\ attested jwk aud now p /\ r = result_of p.
Proof. apply verify_attestation_iff. Qed.
End guest_props.

(** ** The client's Stylus proof *)

(** The two sets of types read the same members of a JSON object (serde's derived
    [Deserialize] with its defaults). *)
Class ClaimsAgree `{FromJson JwtHeader.t} `{FromJson GcpCsClaims.t}
    `{FromJson ClientJwtHeader.t} `{FromJson JwtClaims.t} : Prop := {
  header_agree b (h : JwtHeader.t) (h' : ClientJwtHeader.t) :
    from_slice b = Ok h -> from_slice b = Ok h' -> JwtHeader.kid h = ClientJwtHeader.kid h';
  claims_agree b (c : GcpCsClaims.t) (c' : JwtClaims.t) :
    from_slice b = Ok c -> from_slice b = Ok c' ->
    GcpCsClaims.aud c = JwtClaims.aud c' /\ GcpCsClaims.iat c = JwtClaims.iat c' /\
    GcpCsClaims.exp c = JwtClaims.exp c' /\
    GcpCsClaims.secboot c = default false (JwtClaims.secboot c') /\
    GcpCsClaims.dbgstat c = JwtClaims.dbgstat c' /\
    GcpCsClaims.image_digest c = JwtClaims.image_digest c';
}.

Section stylus_client.
Context `{HX : Hex} `{CR : Crypto} `{HN : HttpNet} `{AT : AddressText}.
Context `{AB : PublicValuesAbi} `{PB : ProofDataAbi}.
Context `{JH : FromJson ClientJwtHeader.t} `{JC : FromJson JwtClaims.t} `{JK : FromJson JwksResponse.t}.
Context `{JP : FromJson ProofResponse.t} `{JR : ToJson ProofRequest.t}.

(** Everything [generate_stylus_proof] reads on the way to a proof. *)
Record stylus_inputs := {
  si_header : ClientJwtHeader.t; si_claims : JwtClaims.t; si_digest : string;
  si_modulus : bytes; si_exponent : bytes;
  si_header_bytes : bytes; si_payload_bytes : bytes;
}.

Definition stylus_reads (client : ProofClient.t) (token aud : string) (sig : bytes) (n : nat)
    (i : stylus_inputs) : Prop :=
  exists p0 p1 p2 jwk,
    splitn_char 3 "." token = [p0; p1; p2] /\
    OnChain.base64url_decode (as_bytes p0) = Ok (si_header_bytes i) /\
    OnChain.base64url_decode (as_bytes p1) = Ok (si_payload_bytes i) /\
    from_slice (si_header_bytes i) = Ok (si_header i) /\
    from_slice (si_payload_bytes i) = Ok (si_claims i) /\
    JwtClaims.aud (si_claims i) = aud /\ length sig = 65%nat /\
    JwtClaims.image_digest (si_claims i) = Some (si_digest i) /\
    ProofClient.fetch_jwk_by_kid client (ClientJwtHeader.kid (si_header i)) n = Ok jwk /\
    OnChain.base64url_decode (as_bytes (JwkKeyResponse.n jwk)) = Ok (si_modulus i) /\
    OnChain.base64url_decode (as_bytes (JwkKeyResponse.e jwk)) = Ok (si_exponent i).

Definition stylus_response (token : string) (pk sig : bytes) (i : stylus_inputs) : ProofResponse.t :=
  ProofResponse.mk
    (hex0x (abi_encode (ProofClient.stylus_values (ClientJwtHeader.kid (si_header i)) (si_claims i)
                          (si_digest i) (evm_address pk) sig)))
    (hex0x (proof_data_encode (StylusProofData.mk (as_bytes token) (si_modulus i) (si_exponent i))))
    (address_display (evm_address pk)).

Lemma generate_stylus_iff client token aud pk sig n r :
  ProofClient.generate_stylus_proof client token aud pk sig n = Ok r <->
  exists i, stylus_reads client token aud sig n i /\ r = stylus_response token pk sig i.
Proof.
  unfold ProofClient.generate_stylus_proof, stylus_reads. split.
  - intros H. destruct (splitn_char 3 "." token) as [|p0 [|p1 [|p2 [|]]]]; try done.
    ok_inv. rewrite client_decode_onchain in *.
    bool_to_prop. match goal with E : Nat.eqb _ _ = true |- _ => apply Nat.eqb_eq in E end.
    match goal with
    | hb : bytes, E : from_slice ?hb = Ok ?h, E' : from_slice ?pb = Ok ?c, Ed : JwtClaims.image_digest ?c = Some ?d,
      E1 : OnChain.base64url_decode (as_bytes (JwkKeyResponse.n ?k)) = Ok ?mo,
      E2 : OnChain.base64url_decode (as_bytes (JwkKeyResponse.e ?k)) = Ok ?ex |- _ =>
        exists (Build_stylus_inputs h c d mo ex hb pb); split; [|done]; by exists p0, p1, p2, k
    end.
  - intros (i & (p0 & p1 & p2 & jwk & -> & H0 & H1 & Hh & Hc & Ha & Hl & Hd & Hj & Hm & He) & ->).
    rewrite client_decode_onchain, H0. cbn [map_err result_bind].
    rewrite client_decode_onchain, H1. cbn [map_err result_bind].
    rewrite Hh. cbn [map_err result_bind]. rewrite Hc. cbn [map_err result_bind].
    rewrite bool_decide_true by done. cbn [negb]. rewrite Hl, Hd. cbn [Nat.eqb negb ok_or result_bind].
    rewrite Hj. cbn [result_bind]. rewrite client_decode_onchain, Hm. cbn [map_err result_bind].
    by rewrite client_decode_onchain, He.
Qed.
End stylus_client.

Section agreement.
Context `{HX : Hex} `{CR : Crypto} `{HN : HttpNet} `{AT : AddressText}.
Context `{AB : PublicValuesAbi} `{PB : ProofDataAbi} `{RS : Rsa}.
Context `{JG : FromJson JwtHeader.t} `{JGC : FromJson GcpCsClaims.t}.
Context `{JH : FromJson ClientJwtHeader.t} `{JC : FromJson JwtClaims.t} `{JK : FromJson JwksResponse.t}.
Context `{JP : FromJson ProofResponse.t} `{JR : ToJson ProofRequest.t}.
Context {AG : ClaimsAgree}.

(** For the same token, audience, key and image signature, the public values of
    the client's Stylus proof are the journal the zkVM guest commits. *)
Theorem client_values_are_journal (client : ProofClient.t) (token aud : string) (jwk : JwkKey.t)
    (pk sig journal : bytes) (n : nat) (r : ProofResponse.t) :
  guest_main (as_bytes token) jwk aud pk sig = Ok journal ->
  ProofClient.generate_stylus_proof client token aud pk sig n = Ok r ->
  ProofResponse.public_values r = hex0x journal.
Proof using AG.
  intros Hg Hc. apply generate_stylus_iff in Hc as (i & (p0 & p1 & p2 & k & Hsp & H0 & H1 & Hh & Hcl & Ha & Hl & Hd & _) & ->).
  unfold guest_main in Hg. ok_inv. destruct (verify_attestation _ _ _ _) as [v| |] eqn:Ev; [|done..].
  ok_inv. apply verify_attestation_iff in Ev as (p & Hp & _ & ->).
  apply parse_jwt_inv in Hp as (h & b & s & hb & pb & Hs & Hh' & Hhj & Hb & Hbj & _).
  apply split3_splitn in Hs. rewrite Hsp in Hs. injection Hs as -> -> ->.
  assert (hb = si_header_bytes i) as -> by congruence. assert (pb = si_payload_bytes i) as -> by congruence.
  destruct (claims_agree _ _ _ Hbj Hcl) as (Ea & Ei & Ee & Es & Edb & Edg).
  pose proof (header_agree _ _ _ Hhj Hh) as Ek.
  unfold parse_image_signature in *. rewrite Hl in *. cbn [Nat.eqb negb] in *. ok_inv.
  unfold stylus_response, result_of, ProofClient.stylus_values. cbn [ProofResponse.public_values].
  do 2 f_equal. cbn. rewrite Ek, Ei, Ee, Es, Ea, Edb, Edg, Hd. f_equal.
  unfold unwrap_or_default. destruct (JwtClaims.dbgstat (si_claims i)) as [d|]; cbn.
  - apply bool_decide_ext. naive_solver.
  - reflexivity.
Qed.
End agreement.

(** ** An honest proof is accepted on chain *)

(** The text of the token: in header and payload, the first occurrence of each name the
    contract looks for is the member that serde_json read (no other object names it
    before), with a plain value: strings without escapes, numbers in digits. *)
Record plain_text (i : stylus_inputs) : Prop := {
  tx_alg : string_member (si_header_bytes i) (as_bytes "alg") (as_bytes "RS256");
  tx_kid : string_member (si_header_bytes i) (as_bytes "kid") (as_bytes (ClientJwtHeader.kid (si_header i)));
  tx_iss : string_member (si_payload_bytes i) (as_bytes "iss") (as_bytes ISSUER);
  tx_iat : number_member (si_payload_bytes i) (as_bytes "iat") (JwtClaims.iat (si_claims i));
  tx_exp : number_member (si_payload_bytes i) (as_bytes "exp") (JwtClaims.exp (si_claims i));
  tx_aud : string_member (si_payload_bytes i) (as_bytes "aud") (as_bytes (JwtClaims.aud (si_claims i)));
  tx_secboot : true_member (si_payload_bytes i) (as_bytes "secboot");
  tx_dbgstat : string_member (si_payload_bytes i) (as_bytes "dbgstat") (as_bytes "disabled-since-boot");
  tx_digest : string_member (si_payload_bytes i) (as_bytes "image_digest") (as_bytes (si_digest i));
}.

Section accepted.
Context `{HX : Hex} `{CR : Crypto} `{HN : HttpNet} `{AT : AddressText} `{EV : Evm}.
Context `{AB : PublicValuesAbi} `{PB : ProofDataAbi}.
Context `{JH : FromJson ClientJwtHeader.t} `{JC : FromJson JwtClaims.t} `{JK : FromJson JwksResponse.t}.
Context `{JP : FromJson ProofResponse.t} `{JR : ToJson ProofRequest.t}.
Context {CL : CryptoLaws} {EL : EvmLaws} {AL : PublicValuesAbiLaws} {PL : ProofDataAbiLaws}.

(** The deployment trusts this token's key, image and image signer, and the token is
    a production token in its validity window.  The image signer is who the [ecrecover]
    precompile says. *)
Record trusted_by (c : t) (now : Z) (sig : bytes) (i : stylus_inputs) : Prop := {
  tr_key : is_jwk_trusted c (keccak256 (as_bytes (ClientJwtHeader.kid (si_header i)))) = true;
  tr_material : jwk_key_material_hash c (keccak256 (as_bytes (ClientJwtHeader.kid (si_header i)))) =
    keccak256 (si_modulus i ++ si_exponent i);
  tr_window : JwtClaims.iat (si_claims i) <= now <=
    u64_add (JwtClaims.exp (si_claims i)) (expiration_tolerance_ c);
  tr_secboot : JwtClaims.secboot (si_claims i) = Some true;
  tr_debug : JwtClaims.dbgstat (si_claims i) = Some "disabled-since-boot"%string;
  tr_image : is_image_digest_hash_allowed c (keccak256 (as_bytes (si_digest i))) = true;
  tr_signer : exists s, static_call ECRECOVER
      (keccak256 (as_bytes (si_digest i)) ++ (replicate 31 x00 ++ [nth 64 sig x00]) ++ take 32 sig
       ++ take 32 (drop 32 sig)) = Some (replicate 12 x00 ++ s) /\
    length s = 20%nat /\ s <> ZERO_ADDRESS /\ is_image_signer_trusted c s = true;
}.

Lemma recovered hash v r s addr :
  static_call ECRECOVER (hash ++ (replicate 31 x00 ++ [v]) ++ r ++ s) = Some (replicate 12 x00 ++ addr) ->
  length addr = 20%nat -> ecrecover_call hash (Z_of_byte v) r s = Ok addr.
Proof.
  intros H Hl. unfold ecrecover_call. rewrite byte_of_Z_of_byte, H, length_app, length_replicate, Hl.
  cbn [Nat.leb Nat.add]. do 2 f_equal. change 12%nat with (length (replicate 12 x00)). rewrite drop_app_length.
  apply take_ge. rewrite length_replicate. lia.
Qed.

Lemma stylus_values_valid kid claims digest pk sig :
  is_u64 (JwtClaims.iat claims) -> is_u64 (JwtClaims.exp claims) -> length sig = 65%nat ->
  PublicValues.valid (ProofClient.stylus_values kid claims digest (evm_address pk) sig).
Proof using CL.
  intros Hi He Hl. pose proof (Z_of_byte_range (nth 64 sig x00)).
  unfold PublicValues.valid, ProofClient.stylus_values, evm_address. cbn.
  rewrite !keccak256_length, length_drop, keccak256_length, !length_take, length_drop, Hl.
  unfold is_u64 in *. lia.
Qed.

Lemma stylus_parse_of_reads client token aud sig n i :
  utf8_valid (as_bytes token) = true -> stylus_reads client token aud sig n i ->
  forall p0 p1 p2 sg, splitn_char 3 "." token = [p0; p1; p2] ->
  OnChain.base64url_decode (as_bytes p2) = Ok sg ->
  stylus_parse_jwt (as_bytes token) =
    Ok (StylusJwt.mk (si_header_bytes i) (si_payload_bytes i) sg (as_bytes p0 ++ [b_dot] ++ as_bytes p1)).
Proof.
  intros Hu (q0 & q1 & q2 & jwk & Hsp & H0 & H1 & _) p0 p1 p2 sg H2 Hsg.
  rewrite Hsp in H2. injection H2 as -> -> ->. unfold stylus_parse_jwt, from_utf8. rewrite Hu.
  cbn [map_err result_bind]. rewrite string_of_as_bytes, Hsp. cbn [lookup list_lookup ok_or result_bind].
  by rewrite H0, H1, Hsg.
Qed.

(** C19. Completeness of the Stylus path, from the text of the token to the registered
    key.  For a UTF-8 token of three parts with 64-bit times, in whose header and payload
    the first occurrence of each name the contract looks for is the plain member the
    client read ([plain_text]), whose third part is an RSASSA-PKCS1-v1_5 SHA-256
    signature of the first two under the key the client fetched, on a contract that
    trusts that key and its material, allows the image and trusts the signer that
    [ecrecover] finds for the image signature, inside the validity window, for a
    production image with secure boot: the proof the bootstrap client builds is accepted
    by the contract, and the registered key is the client's own. *)
Theorem stylus_proof_accepted (c : t) (now : Z) (client : ProofClient.t) (token aud p0 p1 p2 : string)
    (pk sig sg : bytes) (n : nat) (i : stylus_inputs) :
  stylus_reads client token aud sig n i -> utf8_valid (as_bytes token) = true ->
  splitn_char 3 "." token = [p0; p1; p2] -> OnChain.base64url_decode (as_bytes p2) = Ok sg ->
  is_u64 (JwtClaims.iat (si_claims i)) -> is_u64 (JwtClaims.exp (si_claims i)) ->
  plain_text i -> rsa_operands sg (si_modulus i) (si_exponent i) ->
  rs256_signature (as_bytes p0 ++ [b_dot] ++ as_bytes p1) sg (si_modulus i) (si_exponent i) ->
  trusted_by c now sig i ->
  exists values proof,
    ProofClient.generate_stylus_proof client token aud pk sig n =
      Ok (ProofResponse.mk (hex0x (abi_encode values)) (hex0x (proof_data_encode proof))
                           (address_display (evm_address pk))) /\
    verify_attestation_proof c now (abi_encode values) (proof_data_encode proof) = Ok (evm_address pk).
Proof using CL EL AL PL.
  intros Hr Hu H2 Hsg Hi He Hx Ho Hrs Ht.
  pose proof (stylus_parse_of_reads _ _ _ _ _ _ Hu Hr _ _ _ _ H2 Hsg) as Hj.
  eexists (ProofClient.stylus_values _ _ _ _ _), (StylusProofData.mk _ _ _). split.
  { apply generate_stylus_iff. exists i. by split. }
  assert (Hl : length sig = 65%nat) by (destruct Hr as (? & ? & ? & ? & Hr); apply Hr).
  apply accepts_iff. do 2 eexists. eexists _, (as_bytes (ClientJwtHeader.kid (si_header i))).
  rewrite abi_decode_encode by (by apply stylus_values_valid). rewrite proof_data_roundtrip.
  destruct Hx as [X1 X2 X3 X4 X5 X6 X7 X8 X9].
  apply string_member_read in X1, X2, X3, X6, X8, X9. apply true_member_read in X7.
  apply number_member_read in X4, X5; [|unfold is_u64, u64_max in *; lia..].
  split_and!; [done|done| | |done| |done].
  - unfold token_ok. cbn -[as_bytes json_get_string keccak256]. split_and!; [exact Hj|exact X1|exact X2|apply Ht..|].
    by apply verify_rs256_iff.
  - unfold claims_ok. cbn -[as_bytes json_get_string json_get_u64 json_get_bool keccak256 u64_add].
    rewrite (tr_secboot _ _ _ _ Ht), (tr_debug _ _ _ _ Ht).
    pose proof (tr_window _ _ _ _ Ht). split_and!; try done; try lia; eauto; apply Ht.
  - destruct (tr_signer _ _ _ _ Ht) as (s & Hs & Hls & Hz & Htr). exists s. split; [|done].
    cbn -[as_bytes keccak256 nth take drop]. by apply recovered.
Qed.
End accepted.
