(* ===== verification/Relayer.v ===== *)
(** * The gas relayer
    (crates/synddb-relayer/src/config.rs, submitter.rs, handlers.rs, withdrawal.rs)
    and the validator's signature endpoints it reads
    (crates/synddb-validator/src/http/signatures.rs)

    A handler returns the transactions it sent along with its reply.  The chain is
    the class [RelayRpc]; toml, serde_json and reqwest are parameters.  The handlers
    have no panic of their own; one of a dependency is rendered as status 500. *)
From Stdlib Require Import Ascii Strings.Byte.
From S2P Require Import Prelude RustStd Extern Net SignedTypes StateStore Jwt Stylus Inbox.
From S2P Require Import Bridge BootClients.

(** ** config.rs *)
Definition DEFAULT_TX_CONFIRMATION_TIMEOUT_SECS : Z := 120.

Module ApplicationConfig.
Record t := mk { audience : string; allowed_image_digests : list bytes }.
End ApplicationConfig.

Module ConfigFile.
Record t := mk {
  rpc_url : string;
  chain_id : Z;
  bridge_address : bytes;
  private_key : string;
  listen_addr : string;
  tx_confirmation_timeout_secs : Z;
  validator_url : option string;
  applications : list ApplicationConfig.t;
}.
End ConfigFile.

Module CliConfig.
Record t := mk {
  config_path : option string;
  rpc_url : option string;
  chain_id : option Z;
  bridge_address : option bytes;
  private_key : option string;
  listen_addr : string;
  tx_confirmation_timeout_secs : Z;
  required_audience : option string;
  allowed_image_digests : option string;
  validator_url : option string;
}.
End CliConfig.

(** [std::fs::read_to_string] and [toml::from_str]. *)
Class ConfigFiles := {
  read_to_string : string -> result string string;
  toml_from_str : string -> result string ConfigFile.t;
}.

Definition compute_audience_hash `{Crypto} (audience : string) : bytes := keccak256 (as_bytes audience).

Definition parse_b256 `{Hex} (s : string) : option bytes :=
  let s := trim_start_matches "0x" (trim s) in
  bytes ← result_ok (hex_decode s);
  if Nat.eqb (length bytes) 32 then Some bytes else None.

Module RelayerConfig.
Record t := mk {
  rpc_url : string;
  chain_id : Z;
  bridge_address : bytes;
  private_key : string;
  listen_addr : string;
  tx_confirmation_timeout : Z;
  validator_url : option string;
  applications : gmap bytes ApplicationConfig.t;
}.

Section ops.
Context `{HX : Hex} `{CR : Crypto} `{CF : ConfigFiles}.

Definition from_file (path : string) : result string t :=
  let? contents := map_err (fun e => "Failed to read config file " +:+ path +:+ ": " +:+ e)
                           (read_to_string path) in
  let? config := map_err (fun e => "Failed to parse config file: " +:+ e) (toml_from_str contents) in
  if bool_decide (ConfigFile.applications config = [])
  then Err "Config file must contain at least one [[application]]"%string else
  let applications :=
    fold_left (fun m app => <[compute_audience_hash (ApplicationConfig.audience app) := app]> m)
              (ConfigFile.applications config) ∅ in
  Ok (mk (ConfigFile.rpc_url config) (ConfigFile.chain_id config) (ConfigFile.bridge_address config)
        (ConfigFile.private_key config) (ConfigFile.listen_addr config)
        (ConfigFile.tx_confirmation_timeout_secs config) (ConfigFile.validator_url config) applications).

(** The allowlist: an empty string is an empty list, which allows every image. *)
Definition parse_allowed (s : string) : list bytes :=
  if bool_decide (s = ""%string) then [] else omap (fun p => parse_b256 (trim p)) (split_char "," s).

Definition from_env (cli : CliConfig.t) : result string t :=
  let? rpc_url := ok_or "RPC_URL is required"%string (CliConfig.rpc_url cli) in
  let? chain_id := ok_or "CHAIN_ID is required"%string (CliConfig.chain_id cli) in
  let? bridge_address := ok_or "BRIDGE_CONTRACT_ADDRESS is required"%string (CliConfig.bridge_address cli) in
  let? private_key := ok_or "RELAYER_PRIVATE_KEY is required"%string (CliConfig.private_key cli) in
  let? allowed_digests_str := ok_or "ALLOWED_IMAGE_DIGESTS is required"%string (CliConfig.allowed_image_digests cli) in
  let? audience := ok_or "REQUIRED_AUDIENCE is required"%string (CliConfig.required_audience cli) in
  let allowed_image_digests := parse_allowed allowed_digests_str in
  let key := trim_start_matches "0x" private_key in
  if negb (Nat.eqb (String.length key) 64) || negb (is_ok (hex_decode key))
  then Err "RELAYER_PRIVATE_KEY must be a 32-byte hex string"%string else
  let app := ApplicationConfig.mk audience allowed_image_digests in
  Ok (mk rpc_url chain_id bridge_address private_key (CliConfig.listen_addr cli)
        (CliConfig.tx_confirmation_timeout_secs cli) (CliConfig.validator_url cli)
        {[compute_audience_hash audience := app]}).

Definition load (cli : CliConfig.t) : result string t :=
  match CliConfig.config_path cli with
  | Some path => from_file path
  | None => from_env cli
  end.
End ops.

Definition get_application (c : t) (audience_hash : bytes) : option ApplicationConfig.t :=
  applications c !! audience_hash.

Definition is_digest_allowed (c : t) (audience_hash image_digest : bytes) : bool :=
  match applications c !! audience_hash with
  | Some app =>
      bool_decide (ApplicationConfig.allowed_image_digests app = [])
      || bool_decide (image_digest ∈ ApplicationConfig.allowed_image_digests app)
  | None => false
  end.
End RelayerConfig.

(** ** The chain, as the relayer calls it *)
Module RegisterTx.
(** [registerKeyWithSignature] on the Bridge, paid by the relayer. *)
Record t := mk {
  key_type : Z;
  public_values : bytes;
  proof_bytes : bytes;
  deadline : Z;
  signature : bytes;
}.
End RegisterTx.

Module WithdrawalTx.
(** [initializeAndHandleMessage]. *)
Record t := mk {
  message_id : bytes;
  target_address : bytes;
  payload : bytes;
  seq_signature : bytes;
  sequence : Z;
  timestamp : Z;
  validator_signatures : list bytes;
  native_token_amount : Z;
}.
End WithdrawalTx.

Class RelayRpc := {
  relay_url_parse : string -> result string unit;
  relay_tee_key_manager : string -> bytes -> result string bytes;
  relay_is_key_valid : string -> bytes -> Z -> bytes -> result string bool;
  relay_register : string -> bytes -> RegisterTx.t -> result string bytes;
  relay_withdraw : string -> bytes -> WithdrawalTx.t -> result string bytes;
  relay_receipt : string -> bytes -> nat -> result string (option bool);
  relay_elapsed_ms : nat -> Z;
  (** [PrivateKeySigner::from_slice], by whether it accepts the bytes *)
  signer_from_slice : bytes -> result string unit;
}.

(** ** submitter.rs *)
Definition relay_is_invalid_public_key_error (err_str : string) : bool :=
  contains "InvalidPublicKey" err_str || contains "0xffc44e88" err_str.

Definition confirm_timeout_text `{Hex} (timeout : Z) (tx_hash : bytes) : string :=
  "Timeout waiting for tx confirmation after " +:+ duration_debug timeout +:+ ": " +:+ hex0x tx_hash.
Definition reverted_text `{Hex} (tx_hash : bytes) : string := "Transaction reverted: " +:+ hex0x tx_hash.

Module RelayerSubmitter.
Record t := mk {
  rpc_url : string;
  bridge_address : bytes;
  tee_key_manager_address : bytes;
  tx_confirmation_timeout : Z;
}.

Section ops.
Context `{HX : Hex} `{RR : RelayRpc}.

Definition from_config (config : RelayerConfig.t) : result string t :=
  let? key_bytes := hex_decode (trim_start_matches "0x" (RelayerConfig.private_key config)) in
  let? _ := signer_from_slice key_bytes in
  let? _ := relay_url_parse (RelayerConfig.rpc_url config) in
  let? tkm := relay_tee_key_manager (RelayerConfig.rpc_url config) (RelayerConfig.bridge_address config) in
  Ok (mk (RelayerConfig.rpc_url config) (RelayerConfig.bridge_address config) tkm
        (RelayerConfig.tx_confirmation_timeout config)).

(** The transaction that was sent, if any, and the outcome. *)
Definition register_key (s : t) (tx : RegisterTx.t) : list RegisterTx.t * result string bytes :=
  match relay_url_parse (rpc_url s) with
  | Ok _ => ([tx], relay_register (rpc_url s) (bridge_address s) tx)
  | Err e => ([], Err e)
  | Panic w => ([], Panic w)
  end.
Definition register_sequencer_key (s : t) (pv pb : bytes) (deadline : Z) (sig : bytes) :=
  register_key s (RegisterTx.mk 0 pv pb deadline sig).
Definition register_validator_key (s : t) (pv pb : bytes) (deadline : Z) (sig : bytes) :=
  register_key s (RegisterTx.mk 1 pv pb deadline sig).

Definition is_key_valid (s : t) (key_type : Z) (address : bytes) : result string bool :=
  let? _ := relay_url_parse (rpc_url s) in
  match relay_is_key_valid (rpc_url s) (tee_key_manager_address s) key_type address with
  | Ok _ => Ok true
  | Err e => if relay_is_invalid_public_key_error e then Ok false else Err e
  | Panic w => Panic w
  end.
Definition is_sequencer_key_valid (s : t) (address : bytes) : result string bool := is_key_valid s 0 address.
Definition is_validator_key_valid (s : t) (address : bytes) : result string bool := is_key_valid s 1 address.

Definition wait_for_confirmation (s : t) (tx_hash : bytes) : result string unit :=
  let? _ := relay_url_parse (rpc_url s) in
  confirm (confirm_timeout_text (tx_confirmation_timeout s) tx_hash) (reverted_text tx_hash)
          (tx_confirmation_timeout s * 1000) relay_elapsed_ms (relay_receipt (rpc_url s) tx_hash).
End ops.
End RelayerSubmitter.

(** ** handlers.rs *)
Definition MAX_DEADLINE_FUTURE_SECS : Z := 86400.

Module RelayRequest.
(** [RegisterKeyRequest] as the relayer deserialises it. *)
Record t := mk {
  public_values : string;
  proof_bytes : string;
  deadline : Z;
  signature : string;
  key_type : KeyType;
}.
End RelayRequest.

Module AttestationFields.
Record t := mk { image_digest_hash : bytes; audience_hash : bytes; tee_signing_key : bytes }.
End AttestationFields.

Definition extract_attestation_fields (public_values : bytes) : option AttestationFields.t :=
  if Nat.ltb (length public_values) 352 then None else
  let image_digest := take 32 (drop 96 public_values) in
  let tee_signing_key := take 20 (drop 140 public_values) in
  let audience_hash := take 32 (drop 224 public_values) in
  Some (AttestationFields.mk image_digest audience_hash tee_signing_key).

Abbreviation reply := (list RegisterTx.t * (Z * RegisterKeyResponse.t))%type.

Section register.
Context `{HX : Hex} `{RR : RelayRpc}.

Definition refuse (status : Z) (error : string) : Z * RegisterKeyResponse.t :=
  (status, RegisterKeyResponse.mk None None (Some error)).
Definition registered (key : bytes) (tx_hash : option string) : Z * RegisterKeyResponse.t :=
  (OK_200, RegisterKeyResponse.mk (Some (hex0x key)) tx_hash None).

(** The checks before anything is asked of the chain: the key, and the bytes of the
    public values, the proof and the signature. *)
Definition check_request (config : RelayerConfig.t) (request : RelayRequest.t) (now : Z)
    : result (Z * RegisterKeyResponse.t) (bytes * (bytes * bytes * bytes)) :=
  let? public_values := map_err (fun e => refuse BAD_REQUEST ("Invalid public_values hex: " +:+ e))
        (hex_decode (trim_start_matches "0x" (RelayRequest.public_values request))) in
  let? a := ok_or (refuse BAD_REQUEST "Could not extract attestation fields from public_values")
                  (extract_attestation_fields public_values) in
  let? app := ok_or (refuse FORBIDDEN "Unknown application: audience_hash not configured")
                    (RelayerConfig.get_application config (AttestationFields.audience_hash a)) in
  let image_allowed :=
    bool_decide (ApplicationConfig.allowed_image_digests app = [])
    || bool_decide (AttestationFields.image_digest_hash a ∈ ApplicationConfig.allowed_image_digests app) in
  if negb image_allowed
  then Err (refuse FORBIDDEN "Image digest not in allowlist for this application") else
  if RelayRequest.deadline request <=? now then Err (refuse BAD_REQUEST "Deadline is in the past") else
  if u64_add now MAX_DEADLINE_FUTURE_SECS <? RelayRequest.deadline request
  then Err (refuse BAD_REQUEST ("Deadline too far in the future (max "
                                +:+ int_to_string MAX_DEADLINE_FUTURE_SECS +:+ " seconds)")) else
  let? proof_bytes := map_err (fun e => refuse BAD_REQUEST ("Invalid proof_bytes hex: " +:+ e))
        (hex_decode (trim_start_matches "0x" (RelayRequest.proof_bytes request))) in
  let? signature := map_err (fun e => refuse BAD_REQUEST ("Invalid signature hex: " +:+ e))
        (hex_decode (trim_start_matches "0x" (RelayRequest.signature request))) in
  Ok (AttestationFields.tee_signing_key a, (public_values, proof_bytes, signature)).

Definition KEY_EXISTS (err_str : string) : bool :=
  contains "KeyAlreadyExists" err_str || contains "0x2dc09057" err_str.

(** The submission, once the key is known not to be registered. *)
Definition submit_registration (submitter : RelayerSubmitter.t) (request : RelayRequest.t) (key : bytes)
    (public_values proof_bytes signature : bytes) : reply :=
  let '(sent, result) :=
    match RelayRequest.key_type request with
    | Sequencer => RelayerSubmitter.register_sequencer_key submitter public_values proof_bytes
                     (RelayRequest.deadline request) signature
    | ValidatorKey => RelayerSubmitter.register_validator_key submitter public_values proof_bytes
                     (RelayRequest.deadline request) signature
    end in
  (sent,
   match result with
   | Ok tx_hash =>
       match RelayerSubmitter.wait_for_confirmation submitter tx_hash with
       | Err e => (INTERNAL_SERVER_ERROR,
                   RegisterKeyResponse.mk None (Some (hex0x tx_hash)) (Some ("Registration tx failed: " +:+ e)))
       | Ok _ => registered key (Some (hex0x tx_hash))
       | Panic w => refuse INTERNAL_SERVER_ERROR w
       end
   | Err e => if KEY_EXISTS e then registered key None
              else refuse INTERNAL_SERVER_ERROR ("Failed to submit registration: " +:+ e)
   | Panic w => refuse INTERNAL_SERVER_ERROR w
   end).

Definition register_key (config : RelayerConfig.t) (submitter : RelayerSubmitter.t)
    (request : RelayRequest.t) (now : Z) : reply :=
  match check_request config request now with
  | Err r => ([], r)
  | Panic w => ([], refuse INTERNAL_SERVER_ERROR w)
  | Ok (key, (public_values, proof_bytes, signature)) =>
      let is_valid :=
        match RelayRequest.key_type request with
        | Sequencer => RelayerSubmitter.is_sequencer_key_valid submitter key
        | ValidatorKey => RelayerSubmitter.is_validator_key_valid submitter key
        end in
      match is_valid with
      | Ok true => ([], registered key None)
      | Ok false => submit_registration submitter request key public_values proof_bytes signature
      | Err e => ([], refuse INTERNAL_SERVER_ERROR ("Failed to check key validity: " +:+ e))
      | Panic w => ([], refuse INTERNAL_SERVER_ERROR w)
      end
  end.
End register.

(** ** withdrawal.rs *)
Module WithdrawalSubmissionRequest.
Record t := mk {
  message_id : string;
  target_address : string;
  payload : string;
  native_token_amount : string;
  sequencer_signature : string;
  sequence : Z;
  timestamp : Z;
}.
End WithdrawalSubmissionRequest.

Module WithdrawalSubmissionResponse.
Record t := mk { tx_hash : option string; error : option string; status : string }.
End WithdrawalSubmissionResponse.

Module ValidatorSignature.
Record t := mk { message_id : string; signature : string; signer : bytes; signed_at : Z }.
End ValidatorSignature.

Module WithdrawalSubmitter.
Record t := mk {
  rpc_url : string;
  bridge_address : bytes;
  validator_url : option string;
  tx_confirmation_timeout : Z;
}.

Section ops.
Context `{HX : Hex} `{RR : RelayRpc} `{HN : HttpNet} `{AT : AddressText}.
Context `{JV : FromJson ValidatorSignature.t}.

Definition new (rpc_url : string) (bridge_address : bytes) (private_key : string)
    (validator_url : option string) (tx_confirmation_timeout : Z) : result string t :=
  let? key_bytes := hex_decode (trim_start_matches "0x" private_key) in
  let? _ := signer_from_slice key_bytes in
  Ok (mk rpc_url bridge_address validator_url tx_confirmation_timeout).

Definition fetch_validator_signature (validator_url message_id : string) : result string bytes :=
  let url := trim_end_matches "/" validator_url +:+ "/signature/" +:+ message_id in
  match http_get url [] 0 with
  | SendError e => Err (NetError.text e)
  | Response status body =>
      if negb (is_success status) then Err ("Validator returned status " +:+ status_display status) else
      let? sig := response_json (A := ValidatorSignature.t) body in
      hex_decode (strip_prefix_or_self "0x" (ValidatorSignature.signature sig))
  end.

Definition wait_for_confirmation (s : t) (tx_hash : bytes) : result string unit :=
  confirm (confirm_timeout_text (tx_confirmation_timeout s) tx_hash) (reverted_text tx_hash)
          (tx_confirmation_timeout s * 1000) relay_elapsed_ms (relay_receipt (rpc_url s) tx_hash).

(** The transaction of a request, with the signatures that could be fetched. *)
Definition withdrawal_tx (s : t) (request : WithdrawalSubmissionRequest.t) : result string WithdrawalTx.t :=
  let? message_id := hex_decode (strip_prefix_or_self "0x" (WithdrawalSubmissionRequest.message_id request)) in
  if negb (Nat.eqb (length message_id) 32)
  then Err "Invalid message_id length: expected 32 bytes"%string else
  let? target_address := address_parse (WithdrawalSubmissionRequest.target_address request) in
  let? payload := hex_decode (strip_prefix_or_self "0x" (WithdrawalSubmissionRequest.payload request)) in
  let? amount := parse_u128 (WithdrawalSubmissionRequest.native_token_amount request) in
  let? seq_sig := hex_decode (strip_prefix_or_self "0x" (WithdrawalSubmissionRequest.sequencer_signature request)) in
  let validator_signatures :=
    match validator_url s with
    | Some url =>
        match fetch_validator_signature url (WithdrawalSubmissionRequest.message_id request) with
        | Ok sig => [sig]
        | _ => []
        end
    | None => []
    end in
  let? _ := relay_url_parse (rpc_url s) in
  Ok (WithdrawalTx.mk message_id target_address payload seq_sig
        (WithdrawalSubmissionRequest.sequence request) (WithdrawalSubmissionRequest.timestamp request)
        validator_signatures amount).

Definition submit_withdrawal (s : t) (request : WithdrawalSubmissionRequest.t)
    : list WithdrawalTx.t * result string WithdrawalSubmissionResponse.t :=
  match withdrawal_tx s request with
  | Err e => ([], Err e)
  | Panic w => ([], Panic w)
  | Ok tx =>
      ([tx],
       match relay_withdraw (rpc_url s) (bridge_address s) tx with
       | Ok tx_hash =>
           match wait_for_confirmation s tx_hash with
           | Ok _ => Ok (WithdrawalSubmissionResponse.mk (Some (hex0x tx_hash)) None "confirmed")
           | Err e => Ok (WithdrawalSubmissionResponse.mk (Some (hex0x tx_hash)) (Some e) "submitted")
           | Panic w => Panic w
           end
       | Err e => Ok (WithdrawalSubmissionResponse.mk None (Some e) "failed")
       | Panic w => Panic w
       end)
  end.
End ops.
End WithdrawalSubmitter.

(** The [/submit-withdrawal] handler: status code and the members of the reply. *)
Module WithdrawalReply.
Record t := mk { status : string; tx_hash : option string; error : option string }.
End WithdrawalReply.

Section withdraw.
Context `{HX : Hex} `{RR : RelayRpc} `{HN : HttpNet} `{AT : AddressText}.
Context `{JV : FromJson ValidatorSignature.t}.

Definition submit_withdrawal (submitter : option WithdrawalSubmitter.t)
    (request : WithdrawalSubmissionRequest.t) : list WithdrawalTx.t * (Z * WithdrawalReply.t) :=
  match submitter with
  | None => ([], (SERVICE_UNAVAILABLE,
       WithdrawalReply.mk "failed" None (Some "Withdrawal submission not configured (no VALIDATOR_URL)"%string)))
  | Some s =>
      let '(sent, r) := WithdrawalSubmitter.submit_withdrawal s request in
      (sent,
       match r with
       | Ok response =>
           let st := WithdrawalSubmissionResponse.status response in
           (if bool_decide (st = "confirmed"%string) then OK_200
            else if bool_decide (st = "submitted"%string) then ACCEPTED
            else INTERNAL_SERVER_ERROR,
            WithdrawalReply.mk st (WithdrawalSubmissionResponse.tx_hash response)
                               (WithdrawalSubmissionResponse.error response))
       | Err e => (INTERNAL_SERVER_ERROR, WithdrawalReply.mk "failed" None (Some e))
       | Panic w => (INTERNAL_SERVER_ERROR, WithdrawalReply.mk "failed" None (Some w))
       end)
  end.

(** main.rs: withdrawals are enabled when a validator URL is configured. *)
Definition make_withdrawal_submitter (config : RelayerConfig.t) : option WithdrawalSubmitter.t :=
  match RelayerConfig.validator_url config with
  | Some _ => result_ok (WithdrawalSubmitter.new (RelayerConfig.rpc_url config)
                (RelayerConfig.bridge_address config) (RelayerConfig.private_key config)
                (RelayerConfig.validator_url config) (RelayerConfig.tx_confirmation_timeout config))
  | None => None
  end.
End withdraw.

(** ** crates/synddb-validator/src/http/signatures.rs *)
Module SignatureApi.
Record t := mk {
  store : SignatureStore.t;
  signer_address : string;
  bridge_contract : string;
  chain_id : Z;
}.

Module PendingResponse.
Record t := mk { count : nat; message_ids : list string }.
End PendingResponse.
Module SignerInfoResponse.
Record t := mk { signer : string; bridge_contract : string; chain_id : Z }.
End SignerInfoResponse.

Definition info_handler (s : t) : SignerInfoResponse.t :=
  SignerInfoResponse.mk (signer_address s) (bridge_contract s) (chain_id s).
Definition pending_handler (s : t) : PendingResponse.t :=
  let message_ids := SignatureStore.pending_ids (store s) in
  PendingResponse.mk (length message_ids) message_ids.
Definition get_signature_handler (s : t) (message_id : string) : Z * option MessageSignature.t :=
  let normalized_id := if starts_with "0x" message_id then message_id else "0x" +:+ message_id in
  match SignatureStore.get (store s) normalized_id with
  | Some sig => (OK_200, Some sig)
  | None => (NOT_FOUND, None)
  end.
Definition list_signatures_handler (s : t) : list MessageSignature.t :=
  SignatureStore.pending_signatures (store s).
End SignatureApi.
