(* ===== verification/RelayerProps.v ===== *)
(** * Properties of the relayer

    Which requests reach the chain and what is answered, what the contract receives
    from an honest bootstrap, where a withdrawal's validator signature comes from,
    and the allowlist that opens when it is malformed. *)
From Stdlib Require Import Ascii Strings.Byte.
From S2P Require Import Prelude RustStd Extern Net SignedTypes StateStore Jwt Stylus Inbox.
From S2P Require Import Bridge BootClients BootProps Relayer.

(** ** Hexadecimal with a prefix *)

Lemma hex_no_0x s : string_all is_hexdigit s = true -> strip_prefix "0x" s = None.
Proof.
  destruct s as [|a [|b s]]; cbn; try done; [by case_decide|].
  intros H. bool_to_prop. case_decide; [|done]. case_decide; [|done]. by subst.
Qed.

Lemma strip_prefix_0x_hex s : strip_prefix "0x" ("0x" +:+ s) = Some s.
Proof. apply strip_prefix_app. Qed.

Section hex_props.
Context `{HX : Hex} {HL : HexLaws}.

Lemma trim_hex0x b : trim_start_matches "0x" (hex0x b) = hex_encode b.
Proof using HL.
  unfold trim_start_matches, hex0x.
  change (String.length ("0x" +:+ hex_encode b)) with (S (S (String.length (hex_encode b)))).
  cbn [trim_start_matches_go]. rewrite strip_prefix_0x_hex.
  by rewrite hex_no_0x by apply hex_encode_digits.
Qed.

Lemma decode_trimmed_hex0x b : hex_decode (trim_start_matches "0x" (hex0x b)) = Ok b.
Proof using HL. by rewrite trim_hex0x, hex_decode_encode. Qed.

Lemma decode_strip_hex0x b : hex_decode (strip_prefix_or_self "0x" (hex0x b)) = Ok b.
Proof using HL.
  unfold strip_prefix_or_self, hex0x. by rewrite strip_prefix_0x_hex, hex_decode_encode.
Qed.
End hex_props.

(** ** The slots of the public values *)

Lemma take_drop_slot {A} (l1 l2 l3 : list A) n k :
  length l1 = n -> length l2 = k -> take k (drop n (l1 ++ l2 ++ l3)) = l2.
Proof. intros <- <-. by rewrite drop_app_length, take_app_length. Qed.

Lemma extract_encoded `{PublicValuesAbi} {AL : PublicValuesAbiLaws} v :
  PublicValues.valid v ->
  extract_attestation_fields (abi_encode v) =
  Some (AttestationFields.mk (PublicValues.image_digest_hash v) (PublicValues.audience_hash v)
          (PublicValues.tee_signing_key v)).
Proof.
  intros Hv. rewrite abi_encode_slots by done.
  destruct Hv as (H1 & H2 & H3 & H4 & H5 & H6 & H7 & H8 & H9). unfold extract_attestation_fields, abi_slots.
  rewrite (proj2 (Nat.ltb_ge _ _)).
  2:{ rewrite !length_app, length_replicate, !length_to_be_bytes. lia. }
  f_equal. f_equal.
  - rewrite (app_assoc (to_be_bytes 32 _)), (app_assoc (PublicValues.jwk_key_hash v)).
    apply take_drop_slot; [|done]. rewrite !length_app, !length_to_be_bytes. lia.
  - set (r := to_be_bytes 32 (PublicValues.image_signature_v v) ++ _).
    rewrite (app_assoc (to_be_bytes 32 (abi_bool (PublicValues.secboot v)))), (app_assoc (PublicValues.tee_signing_key v)),
      (app_assoc (replicate 12 x00)), (app_assoc (PublicValues.image_digest_hash v)),
      (app_assoc (to_be_bytes 32 (PublicValues.validity_window_end v))),
      (app_assoc (to_be_bytes 32 (PublicValues.validity_window_start v))), (app_assoc (PublicValues.jwk_key_hash v)).
    apply take_drop_slot; [|done]. rewrite !length_app, length_replicate, !length_to_be_bytes. lia.
  - rewrite (app_assoc (PublicValues.image_digest_hash v)),
      (app_assoc (to_be_bytes 32 (PublicValues.validity_window_end v))),
      (app_assoc (to_be_bytes 32 (PublicValues.validity_window_start v))), (app_assoc (PublicValues.jwk_key_hash v)).
    apply take_drop_slot; [|done]. rewrite !length_app, length_replicate, !length_to_be_bytes. lia.
Qed.

(** ** Which registrations reach the chain *)
Section register_props.
Context `{HX : Hex} `{RR : RelayRpc}.

(** A request the relayer is willing to pay for: it names a configured application,
    an image of its allowlist (or the list is empty), and a deadline within a day. *)
Definition admissible (config : RelayerConfig.t) (request : RelayRequest.t) (now : Z)
    (key public_values proof_bytes signature : bytes) : Prop :=
  hex_decode (trim_start_matches "0x" (RelayRequest.public_values request)) = Ok public_values /\
  (exists a app,
    extract_attestation_fields public_values = Some a /\
    AttestationFields.tee_signing_key a = key /\
    RelayerConfig.get_application config (AttestationFields.audience_hash a) = Some app /\
    (ApplicationConfig.allowed_image_digests app = [] \/
     AttestationFields.image_digest_hash a ∈ ApplicationConfig.allowed_image_digests app)) /\
  now < RelayRequest.deadline request <= u64_add now MAX_DEADLINE_FUTURE_SECS /\
  hex_decode (trim_start_matches "0x" (RelayRequest.proof_bytes request)) = Ok proof_bytes /\
  hex_decode (trim_start_matches "0x" (RelayRequest.signature request)) = Ok signature.

Lemma check_request_iff config request now key pv pb sg :
  check_request config request now = Ok (key, (pv, pb, sg)) <->
  admissible config request now key pv pb sg.
Proof.
  unfold check_request, admissible. split.
  - intros H. ok_inv. bool_to_prop.
    match goal with E : _ || _ = true |- _ => apply orb_true_iff in E; rewrite !bool_decide_eq_true in E end.
    split_and!; eauto 8.
  - intros (-> & (a & app & Hx & <- & Hg & Ha) & [Hd1 Hd2] & Hp & Hs). cbn [map_err result_bind].
    rewrite Hx. cbn [ok_or result_bind]. rewrite Hg. cbn [ok_or result_bind].
    assert (Hor : bool_decide (ApplicationConfig.allowed_image_digests app = [])
       || bool_decide (AttestationFields.image_digest_hash a ∈ ApplicationConfig.allowed_image_digests app) = true)
      by (apply orb_true_iff; by rewrite !bool_decide_eq_true).
    rewrite Hor, (proj2 (Z.leb_gt _ _) Hd1), (proj2 (Z.ltb_ge _ _) Hd2). cbn [negb].
    rewrite Hp. cbn [map_err result_bind]. by rewrite Hs.
Qed.

Definition key_number (kt : KeyType) : Z := match kt with Sequencer => 0 | ValidatorKey => 1 end.

(** The chain's answer about a key, as the handler asks it. *)
Definition on_chain (submitter : RelayerSubmitter.t) (kt : KeyType) (key : bytes) : result string bool :=
  RelayerSubmitter.is_key_valid submitter (key_number kt) key.

Lemma register_key_ok config submitter request now key pv pb sg :
  admissible config request now key pv pb sg ->
  register_key config submitter request now =
  match on_chain submitter (RelayRequest.key_type request) key with
  | Ok true => ([], registered key None)
  | Ok false => submit_registration submitter request key pv pb sg
  | Err e => ([], refuse INTERNAL_SERVER_ERROR ("Failed to check key validity: " +:+ e))
  | Panic w => ([], refuse INTERNAL_SERVER_ERROR w)
  end.
Proof.
  intros H%check_request_iff. unfold register_key. rewrite H. by destruct (RelayRequest.key_type request).
Qed.

Lemma check_request_refuses config request now r :
  check_request config request now = Err r -> r.1 = BAD_REQUEST \/ r.1 = FORBIDDEN.
Proof.
  unfold check_request. intros H.
  repeat match goal with
  | H : result_bind ?c _ = Err _ |- _ =>
      let E := fresh "E" in destruct c eqn:E; cbn [result_bind] in H; try discriminate H
  | H : map_err _ ?c = Err _ |- _ =>
      let E := fresh "E" in destruct c eqn:E; cbn [map_err] in H; try discriminate H
  | H : ok_or _ ?o = Err _ |- _ =>
      let E := fresh "E" in destruct o eqn:E; cbn [ok_or] in H; try discriminate H
  | H : (if ?b then _ else _) = Err _ |- _ => destruct b
  | H : Err ?a = Err ?b |- _ => injection H as H; subst
  end; cbn; auto; done.
Qed.

Lemma sent_by submitter request key pv pb sg tx :
  tx ∈ (submit_registration submitter request key pv pb sg).1 ->
  tx = RegisterTx.mk (key_number (RelayRequest.key_type request)) pv pb (RelayRequest.deadline request) sg.
Proof.
  unfold submit_registration, RelayerSubmitter.register_sequencer_key,
    RelayerSubmitter.register_validator_key, RelayerSubmitter.register_key.
  destruct (RelayRequest.key_type request), (relay_url_parse _); cbn; set_solver.
Qed.

(** C28. The relayer only pays for admissible registrations, at most one transaction per
    request: a transaction is sent only for a request whose attested audience is
    configured, whose image the application allows, whose deadline is within a day, and
    whose key the chain does not know; it carries the request's own bytes, deadline and
    key type, and a request that fails a check is refused with 400 or 403 unsent. *)
Theorem relayer_pays_only_admissible (config : RelayerConfig.t) (submitter : RelayerSubmitter.t)
    (request : RelayRequest.t) (now : Z) :
  let '(sent, (status, _)) := register_key config submitter request now in
  (length sent <= 1)%nat /\
  (forall tx, tx ∈ sent -> exists key,
     admissible config request now key (RegisterTx.public_values tx) (RegisterTx.proof_bytes tx)
       (RegisterTx.signature tx) /\
     on_chain submitter (RelayRequest.key_type request) key = Ok false /\
     RegisterTx.key_type tx = key_number (RelayRequest.key_type request) /\
     RegisterTx.deadline tx = RelayRequest.deadline request) /\
  ((forall w, check_request config request now <> Panic w) ->
   (forall key pv pb sg, ~ admissible config request now key pv pb sg) ->
   sent = [] /\ (status = BAD_REQUEST \/ status = FORBIDDEN)).
Proof.
  destruct (check_request config request now) as [[key [[pv pb] sg]]|r|w] eqn:E.
  - pose proof (proj1 (check_request_iff _ _ _ _ _ _ _) E) as Ha.
    rewrite (register_key_ok _ submitter _ _ _ _ _ _ Ha).
    destruct (on_chain submitter _ key) as [[]|e|w] eqn:Eo.
    2:{ pose proof (sent_by submitter request key pv pb sg) as Hs.
        destruct (submit_registration submitter request key pv pb sg) as [sent [st resp]] eqn:Es. split_and!.
        - revert Es. unfold submit_registration, RelayerSubmitter.register_sequencer_key,
            RelayerSubmitter.register_validator_key, RelayerSubmitter.register_key.
          destruct (RelayRequest.key_type request), (relay_url_parse _); intros [= <- _]; cbn; lia.
        - intros tx Htx. rewrite (Hs tx Htx). by exists key.
        - intros _ Hn. by destruct (Hn key pv pb sg). }
    all: cbn; split_and!; [lia|set_solver|]; intros _ Hn; by destruct (Hn key pv pb sg).
  - unfold register_key. rewrite E. destruct r as [st resp]. cbn. split_and!; [lia|set_solver|].
    intros _ _. split; [done|]. by apply check_request_refuses in E.
  - unfold register_key. rewrite E. cbn. split_and!; [lia|set_solver|]. intros Hp. by destruct (Hp w).
Qed.
End register_props.

(** ** From the bootstrap client to the contract *)
Section end_to_end.
Context `{HX : Hex} `{CR : Crypto} `{SG : !Signer} `{RR : RelayRpc} `{AB : PublicValuesAbi}.
Context {HL : HexLaws} {CL : CryptoLaws} {GL : SignerLaws} {AL : PublicValuesAbiLaws}.

(** The request as the relayer reads it back from JSON. *)
Definition received (r : RegisterKeyRequest.t) : RelayRequest.t :=
  RelayRequest.mk (RegisterKeyRequest.public_values r) (RegisterKeyRequest.proof_bytes r)
    (RegisterKeyRequest.deadline r) (RegisterKeyRequest.signature r) (RegisterKeyRequest.key_type r).

(** What the contract recovers the signer from: 65 bytes whose first 64 verify, under
    the signer's public key, over the EIP-712 digest of these arguments. *)
Definition signed_by (rc : RelayerClient.t) (signer : PrivateKeySigner) (tx : RegisterTx.t) : Prop :=
  length (RegisterTx.signature tx) = 65%nat /\
  exists vk s, vk_from_sec1_bytes (x04 :: signer_public_key signer) = Ok vk /\
    sig_from_slice (take 64 (RegisterTx.signature tx)) = Ok s /\
    verify_prehash vk (add_key_digest (RelayerClient.chain_id rc) (RelayerClient.tee_key_manager_address rc)
      (RegisterTx.public_values tx) (RegisterTx.proof_bytes tx) (RegisterTx.deadline tx)) s = true.

Lemma alloy_as_bytes_take a : take 64 (alloy_as_bytes a) = alloy_r a ++ alloy_s a.
Proof using GL.
  unfold alloy_as_bytes. rewrite app_assoc.
  replace 64%nat with (length (alloy_r a ++ alloy_s a)); [apply take_app_length|].
  by rewrite length_app, alloy_r_length, alloy_s_length.
Qed.

Lemma signature_valid rc signer pv pb deadline sg :
  RelayerClient.create_registration_signature rc signer pv pb deadline = Ok sg ->
  forall kn, signed_by rc signer (RegisterTx.mk kn pv pb deadline sg).
Proof using CL GL.
  unfold RelayerClient.create_registration_signature. intros H kn. ok_inv. split; cbn.
  - unfold alloy_as_bytes. by rewrite !length_app, alloy_r_length, alloy_s_length.
  - destruct (signer_key_valid signer) as [vk Hvk].
    match goal with E : sign_hash_sync _ _ = Ok _ |- _ =>
      destruct (sign_verifies signer _ _ vk (keccak256_length _) E Hvk) as (s & Hs & Hv) end.
    exists vk, s. by rewrite alloy_as_bytes_take.
Qed.

(** C21. From the bootstrap to the chain.  When the client could sign a request for
    well-formed public values and a proof, and the relayer takes it within the hour of its
    deadline, the audience is that of a configured application, the image is on that
    application's list, the relayer's RPC address parses and the chain answers that it
    does not know the key: the relayer sends exactly one transaction, of the client's key
    type, with the client's own public values, proof and deadline, and a signature that
    verifies under the TEE key over what the contract hashes. *)
Theorem registration_reaches_chain (rc : RelayerClient.t) (signer : PrivateKeySigner)
    (v : PublicValues.t) (proof : bytes) (kt : KeyType) (t0 : Z) (req : RegisterKeyRequest.t)
    (config : RelayerConfig.t) (submitter : RelayerSubmitter.t) (now : Z) (app : ApplicationConfig.t) :
  RelayerClient.registration_request rc signer (hex0x (abi_encode v)) (hex0x proof) kt t0 = Ok req ->
  PublicValues.valid v -> is_u64 (t0 + 3600) -> is_u64 (now + 86400) ->
  t0 <= now < t0 + 3600 ->
  RelayerConfig.get_application config (PublicValues.audience_hash v) = Some app ->
  PublicValues.image_digest_hash v ∈ ApplicationConfig.allowed_image_digests app ->
  relay_url_parse (RelayerSubmitter.rpc_url submitter) = Ok tt ->
  on_chain submitter kt (PublicValues.tee_signing_key v) = Ok false ->
  exists tx, (register_key config submitter (received req) now).1 = [tx] /\
    RegisterTx.public_values tx = abi_encode v /\ RegisterTx.proof_bytes tx = proof /\
    RegisterTx.deadline tx = t0 + 3600 /\ RegisterTx.key_type tx = key_number kt /\
    signed_by rc signer tx.
Proof using HL CL GL AL.
  intros Hr Hv Hd Hn Ht Hg Hi Hu Ho. unfold RelayerClient.registration_request in Hr.
  rewrite !decode_trimmed_hex0x in Hr. cbn [map_err result_bind] in Hr. ok_inv.
  rewrite u64_add_small in * by done.
  match goal with E : RelayerClient.create_registration_signature _ _ _ _ _ = Ok ?s |- _ =>
    pose proof (signature_valid _ _ _ _ _ _ E (key_number kt)) as Hsig; set (sg := s) in * end.
  exists (RegisterTx.mk (key_number kt) (abi_encode v) proof (t0 + 3600) sg). split; [|done].
  rewrite (register_key_ok config submitter _ now (PublicValues.tee_signing_key v) (abi_encode v) proof sg).
  - cbn [received RelayRequest.key_type RegisterKeyRequest.key_type]. rewrite Ho.
    unfold submit_registration, RelayerSubmitter.register_sequencer_key,
      RelayerSubmitter.register_validator_key, RelayerSubmitter.register_key.
    cbn [received RelayRequest.key_type RegisterKeyRequest.key_type]. rewrite Hu. by destruct kt.
  - unfold admissible, received. cbn [RelayRequest.public_values RelayRequest.proof_bytes
      RelayRequest.signature RelayRequest.deadline RegisterKeyRequest.public_values
      RegisterKeyRequest.proof_bytes RegisterKeyRequest.signature RegisterKeyRequest.deadline].
    rewrite !decode_trimmed_hex0x. split_and!; [done| |lia| |done|done].
    + do 2 eexists. rewrite extract_encoded by done. eauto.
    + rewrite u64_add_small by done. unfold MAX_DEADLINE_FUTURE_SECS. lia.
Qed.
End end_to_end.

(** ** The allowlist *)
Section allowlist.
Context `{HX : Hex} `{CR : Crypto}.

Lemma parse_allowed_malformed s :
  s <> EmptyString -> Forall (fun p => parse_b256 (trim p) = None) (split_char "," s) ->
  RelayerConfig.parse_allowed s = [].
Proof.
  intros Hne Hall. unfold RelayerConfig.parse_allowed. rewrite bool_decide_false by done.
  clear Hne. induction Hall as [|p l Hp _ IH]; [done|]. cbn. by rewrite Hp.
Qed.

(** A non-empty allowlist in which no entry parses is kept as an empty list, and an
    empty list allows every image: with such an [ALLOWED_IMAGE_DIGESTS] the relayer
    pays for any image of the application instead of refusing to start. *)
Theorem malformed_allowlist_allows_all (cli : CliConfig.t) (config : RelayerConfig.t) (s : string)
    (audience_hash image_digest : bytes) :
  RelayerConfig.from_env cli = Ok config -> CliConfig.allowed_image_digests cli = Some s ->
  s <> EmptyString -> Forall (fun p => parse_b256 (trim p) = None) (split_char "," s) ->
  is_Some (RelayerConfig.get_application config audience_hash) ->
  RelayerConfig.is_digest_allowed config audience_hash image_digest = true.
Proof.
  intros H Hs Hne Hall [app Ha]. unfold RelayerConfig.from_env in H. rewrite Hs in H. ok_inv.
  unfold RelayerConfig.is_digest_allowed. unfold RelayerConfig.get_application in Ha. rewrite Ha.
  cbn [RelayerConfig.applications] in Ha. apply lookup_singleton_Some in Ha as [_ <-].
  cbn [ApplicationConfig.allowed_image_digests].
  simplify_eq. by rewrite parse_allowed_malformed.
Qed.
End allowlist.

(** ** A withdrawal's validator signature *)

(** The validator's endpoint behind the network: [GET url/signature/id] is answered by
    [get_signature_handler] on the store, and the JSON of a stored signature reads back
    with its bytes in hexadecimal ([hex_bytes]). *)
Class SignatureEndpoint `{Hex} `{HttpNet} `{FromJson ValidatorSignature.t} (url : string)
    (api : SignatureApi.t) (endpoint_json : MessageSignature.t -> bytes) : Prop := {
  endpoint_found id sig :
    SignatureApi.get_signature_handler api id = (OK_200, Some sig) ->
    http_get (trim_end_matches "/" url +:+ "/signature/" +:+ id) [] 0 =
      Response OK_200 (Ok (endpoint_json sig));
  endpoint_missing id :
    SignatureApi.get_signature_handler api id = (NOT_FOUND, None) ->
    exists body, http_get (trim_end_matches "/" url +:+ "/signature/" +:+ id) [] 0 = Response NOT_FOUND body;
  endpoint_reads sig : from_slice (endpoint_json sig) =
    Ok (ValidatorSignature.mk (MessageSignature.message_id sig) (hex0x (MessageSignature.signature sig))
          (MessageSignature.signer sig) (MessageSignature.signed_at sig));
}.

Section withdrawal_props.
Context `{HX : Hex} `{RR : RelayRpc} `{HN : HttpNet} `{AT : AddressText}.
Context `{JV : FromJson ValidatorSignature.t} {HL : HexLaws}.
Context (url : string) (api : SignatureApi.t) (json : MessageSignature.t -> bytes).
Context {EP : SignatureEndpoint url api json}.

Definition normalized (id : string) : string := if starts_with "0x" id then id else "0x" +:+ id.

Lemma fetch_stored id :
  match SignatureStore.get (SignatureApi.store api) (normalized id) with
  | Some sig => WithdrawalSubmitter.fetch_validator_signature url id = Ok (MessageSignature.signature sig)
  | None => exists e, WithdrawalSubmitter.fetch_validator_signature url id = Err e
  end.
Proof using HL EP.
  unfold WithdrawalSubmitter.fetch_validator_signature.
  pose proof (endpoint_found id) as Hf. pose proof (endpoint_missing id) as Hm.
  unfold SignatureApi.get_signature_handler in *. fold (normalized id) in *.
  destruct (SignatureStore.get (SignatureApi.store api) (normalized id)) as [sig|].
  - rewrite (Hf sig eq_refl). cbn. rewrite endpoint_reads. cbn [result_bind ValidatorSignature.signature].
    apply decode_strip_hex0x.
  - destruct (Hm eq_refl) as [body ->]. cbn. eauto.
Qed.

(** A withdrawal carries the request's own message, target, payload, amount and
    sequencer signature, and as validator signature the one the validator stored under
    that message id, byte for byte, or none when the validator has none: the relayer
    submits without it rather than refuse. *)
Theorem withdrawal_carries_stored_signature (s : WithdrawalSubmitter.t)
    (request : WithdrawalSubmissionRequest.t) (tx : WithdrawalTx.t) :
  WithdrawalSubmitter.validator_url s = Some url ->
  tx ∈ (WithdrawalSubmitter.submit_withdrawal s request).1 ->
  hex_decode (strip_prefix_or_self "0x" (WithdrawalSubmissionRequest.message_id request)) =
    Ok (WithdrawalTx.message_id tx) /\ length (WithdrawalTx.message_id tx) = 32%nat /\
  address_parse (WithdrawalSubmissionRequest.target_address request) = Ok (WithdrawalTx.target_address tx) /\
  parse_u128 (WithdrawalSubmissionRequest.native_token_amount request) = Ok (WithdrawalTx.native_token_amount tx) /\
  WithdrawalTx.sequence tx = WithdrawalSubmissionRequest.sequence request /\
  WithdrawalTx.timestamp tx = WithdrawalSubmissionRequest.timestamp request /\
  WithdrawalTx.validator_signatures tx =
    match SignatureStore.get (SignatureApi.store api)
            (normalized (WithdrawalSubmissionRequest.message_id request)) with
    | Some sig => [MessageSignature.signature sig]
    | None => []
    end.
Proof using HL EP.
  intros Hu Hin. unfold WithdrawalSubmitter.submit_withdrawal in Hin.
  destruct (WithdrawalSubmitter.withdrawal_tx s request) as [tx'| |] eqn:E; cbn in Hin; [|set_solver..].
  apply list_elem_of_singleton in Hin as ->. unfold WithdrawalSubmitter.withdrawal_tx in E. rewrite Hu in E.
  ok_inv. bool_to_prop. match goal with E : Nat.eqb _ _ = true |- _ => apply Nat.eqb_eq in E end.
  cbn. split_and!; try done.
  pose proof (fetch_stored (WithdrawalSubmissionRequest.message_id request)) as Hf.
  destruct (SignatureStore.get _ _) as [sig|]; [by rewrite Hf|]. by destruct Hf as [e ->].
Qed.
End withdrawal_props.
