(* ===== verification/ProofService.v ===== *)
(** * The proof service (crates/proof-service/src: main.rs, prover.rs, config.rs)

    The service that has the zkVM guest prove an attestation token.  RISC Zero is the
    class [Zkvm]; its one law is that a proof is of a run of the guest, the function
    [guest_main] of [Jwt].  Requests change only the cache of Google's keys. *)
From Stdlib Require Import Ascii Strings.Byte.
From S2P Require Import Prelude RustStd Extern Net SignedTypes StateStore Jwt BootClients.

(** risc0_zkvm and risc0_ethereum_contracts, for the embedded program. *)
Class Zkvm := {
  Receipt : Type;
  (** [ExecutorEnv::builder().write(..)...build()], with the context of the step that fails *)
  env_build : bytes -> JwkKey.t -> string -> bytes -> bytes -> result string unit;
  (** [prove_with_opts] of the [n]-th request on these inputs *)
  prove_with_opts : bytes -> JwkKey.t -> string -> bytes -> bytes -> nat -> result string Receipt;
  receipt_verify : Receipt -> result string unit;
  receipt_journal : Receipt -> bytes;
  encode_seal : Receipt -> result string bytes;
  (** [GCP_CS_ATTESTATION_RISC0_PROGRAM_ID]: eight 32-bit words *)
  program_id : list Z;
}.

Module ProofConfig.
Record t := mk {
  bind_address : string;
  google_oidc_discovery_url : string;
  jwks_cache_ttl_secs : Z;
  log_json : bool;
  print_image_id : bool;
}.
End ProofConfig.

Module ProveRequest.
Record t := mk { jwt_token : string; expected_audience : string; evm_public_key : string; image_signature : string }.
End ProveRequest.
Module ProveResponse.
Record t := mk { public_values : string; proof_bytes : string; tee_address : string }.
End ProveResponse.
Module ErrorResponse.
Record t := mk { error : string; details : option string; permanent : option bool }.
End ErrorResponse.

Module ServiceDiscovery.
Record t := mk { jwks_uri : string }.
End ServiceDiscovery.
Module ServiceJwks.
Record t := mk { keys : list JwkKey.t }.
End ServiceJwks.

(** [word.to_le_bytes()] of a [u32] *)
Definition u32_le_bytes (w : Z) : bytes := rev (to_be_bytes 4 w).
Definition risc0_image_id_bytes32 `{Zkvm} : bytes := concat (map u32_le_bytes program_id).

(** ** prover.rs: the proof *)
Module AttestationProver.
Section ops.
Context `{ZK : Zkvm}.

(** Journal and seal.  An error is shown by its outermost context. *)
Definition generate_proof (jwt_token : string) (jwk : JwkKey.t) (expected_audience : string)
    (evm_public_key image_signature : bytes) (n : nat) : result string (bytes * bytes) :=
  let jwt := as_bytes jwt_token in
  let? _ := env_build jwt jwk expected_audience evm_public_key image_signature in
  let? receipt := map_err (fun _ => "RISC Zero proof generation failed"%string)
                    (prove_with_opts jwt jwk expected_audience evm_public_key image_signature n) in
  let? _ := map_err (fun _ => "Local proof verification failed"%string) (receipt_verify receipt) in
  let? seal := map_err (fun _ => "Failed to encode seal for on-chain verification"%string) (encode_seal receipt) in
  Ok (receipt_journal receipt, seal).
End ops.
End AttestationProver.

(** ** prover.rs: the key cache *)
Definition NANOS_PER_SEC : Z := 1000000000.
Module JwksCache.
Record t := mk { keys : option (list JwkKey.t * Z); discovery_url : string; cache_ttl_secs : Z }.

Section ops.
Context `{HN : HttpNet} `{JD : FromJson ServiceDiscovery.t} `{JK : FromJson ServiceJwks.t}.

Definition new (discovery_url : string) (cache_ttl_secs : Z) : t := mk None discovery_url cache_ttl_secs.

(** [send().await.context(..)?.json().await.context(..)]: the status is not looked at. *)
Definition get_json {A} `{FromJson A} (url what : string) (n : nat) : result string A :=
  match http_get url [] n with
  | SendError _ => Err ("Failed to fetch " +:+ what)
  | Response _ body => map_err (fun _ => "Failed to parse " +:+ what) (response_json body)
  end.

(** [now] in nanoseconds of the monotonic clock, one reading per call; a key set is used
    until it is [cache_ttl_secs] old. *)
Definition get_keys (c : t) (now : Z) (n : nat) : t * result string (list JwkKey.t) :=
  let fetch :=
    match (let? discovery := get_json (A := ServiceDiscovery.t) (discovery_url c) "OIDC discovery document" n in
           get_json (A := ServiceJwks.t) (ServiceDiscovery.jwks_uri discovery) "JWKS" n) with
    | Ok jwks => (mk (Some (ServiceJwks.keys jwks, now)) (discovery_url c) (cache_ttl_secs c), Ok (ServiceJwks.keys jwks))
    | Err e => (c, Err e)
    | Panic w => (c, Panic w)
    end in
  match keys c with
  | Some (keys, fetched_at) => if (now - fetched_at) / NANOS_PER_SEC <? cache_ttl_secs c then (c, Ok keys) else fetch
  | None => fetch
  end.

Definition get_jwk (c : t) (kid : string) (now : Z) (n : nat) : t * result string JwkKey.t :=
  let '(c, r) := get_keys c now n in
  (c, let? keys := r in ok_or ("JWK not found for kid: " +:+ kid) (find_jwk_by_kid keys kid)).
End ops.
End JwksCache.

(** ** main.rs *)
Definition is_permanent_error (error_msg : string) : bool :=
  let error_lower := to_lowercase error_msg in
  (contains "invalid" error_lower && contains "key" error_lower)
  || (contains "invalid" error_lower && contains "signature" error_lower)
  || (contains "jwt" error_lower && contains "expired" error_lower)
  || contains "jwk not found" error_lower
  || contains "invalid gcp" error_lower.

Module ProofApp.
Section ops.
Context `{HX : Hex} `{HN : HttpNet} `{AT : AddressText} `{ZK : Zkvm} `{AB : PublicValuesAbi}.
Context `{JD : FromJson ServiceDiscovery.t} `{JK : FromJson ServiceJwks.t} `{JM : FromJson MinimalHeader.t}.

(** [AppState]: the prover has no state. *)
Record t := mk { jwks_cache : JwksCache.t }.

Definition start (config : ProofConfig.t) : t :=
  mk (JwksCache.new (ProofConfig.google_oidc_discovery_url config) (ProofConfig.jwks_cache_ttl_secs config)).

(** The two hex inputs. *)
Definition parse_key (text : string) : result string bytes :=
  let? pubkey_bytes := map_err (fun e => "Invalid EVM public key hex: " +:+ e)
                         (hex_decode (trim_start_matches "0x" text)) in
  if bool_decide (length pubkey_bytes = 64%nat) then Ok pubkey_bytes
  else Err "EVM public key must be exactly 64 bytes"%string.
Definition parse_image_signature_text (text : string) : result string bytes :=
  let? sig := map_err (fun e => "Invalid image signature hex: " +:+ e) (hex_decode (trim_start_matches "0x" text)) in
  if bool_decide (length sig = 65%nat) then Ok sig
  else Err ("Image signature must be exactly 65 bytes (r || s || v), got " +:+ int_to_string (Z.of_nat (length sig))).

(** [{:?}] puts the error, a [&str] without special characters, in quotes. *)
Definition get_jwt_kid (jwt_token : string) : result string string :=
  map_err (fun e => "Failed to extract kid from JWT: " +:+ String "034" e +:+ String "034" EmptyString)
    (extract_kid_from_jwt (as_bytes jwt_token)).

(** The decoder's own error, appended to the text, is left out. *)
Definition decode_public_values (output : bytes) : result string PublicValues.t :=
  ok_or "Failed to decode public values"%string (abi_decode output).

Definition generate_proof (st : t) (request : ProveRequest.t) (now : Z) (n : nat) : t * result string ProveResponse.t :=
  match (let? evm_public_key := parse_key (ProveRequest.evm_public_key request) in
         let? image_signature := parse_image_signature_text (ProveRequest.image_signature request) in
         let? kid := get_jwt_kid (ProveRequest.jwt_token request) in
         Ok (evm_public_key, image_signature, kid)) with
  | Err e => (st, Err e)
  | Panic w => (st, Panic w)
  | Ok (evm_public_key, image_signature, kid) =>
      let '(cache, r) := JwksCache.get_jwk (jwks_cache st) kid now n in
      (mk cache,
       let? jwk := r in
       let? '(journal, seal) := AttestationProver.generate_proof (ProveRequest.jwt_token request) jwk
                                  (ProveRequest.expected_audience request) evm_public_key image_signature n in
       let? public_values := decode_public_values journal in
       Ok (ProveResponse.mk (hex0x journal) (hex0x seal)
             (address_display (PublicValues.tee_signing_key public_values))))
  end.

(** Status and body. *)
Definition prove_handler (st : t) (request : ProveRequest.t) (now : Z) (n : nat)
  : t * result string (Z * (ProveResponse.t + ErrorResponse.t)) :=
  let '(st, r) := generate_proof st request now n in
  (st,
   match r with
   | Ok response => Ok (OK_200, inl response)
   | Err error_msg =>
       let is_permanent := is_permanent_error error_msg in
       Ok (if is_permanent then BAD_REQUEST else SERVICE_UNAVAILABLE,
           inr (ErrorResponse.mk "Proof generation failed" (Some error_msg) (Some is_permanent)))
   | Panic w => Panic w
   end).

Definition image_id_handler (st : t) : string := hex0x risc0_image_id_bytes32.
Definition health_handler : string := "ready".
End ops.
End ProofApp.
