(* ===== verification/ProofServiceProps.v ===== *)
(** * Properties of the proof service (crates/proof-service) and its client

    The client of [BootClients] and the service over one network: what a proof the
    client gets is a proof of, and which failures it takes for final. *)
From Stdlib Require Import Ascii Strings.Byte.
From S2P Require Import Prelude RustStd Extern Net SignedTypes StateStore Jwt Stylus BootClients Bootstrap Relayer RelayerProps.
From S2P Require Import AttestProps ProofService.

(** risc0: a receipt is of a run of the guest on the inputs it was asked for. *)
Class ZkvmLaws `{ZK : Zkvm} `{FromJson JwtHeader.t} `{FromJson GcpCsClaims.t} `{Rsa} `{Crypto} `{PublicValuesAbi} : Prop :=
  prove_runs_guest jwt jwk aud key sig n r :
    prove_with_opts jwt jwk aud key sig n = Ok r -> guest_main jwt jwk aud key sig = Ok (receipt_journal r).

(** serde_json: the two sides name the members of request and response alike. *)
Class ProofWire `{ToJson ProofRequest.t} `{FromJson ProveRequest.t} `{ToJson ProveResponse.t} `{FromJson ProofResponse.t} : Prop := {
  request_read a b c d :
    from_slice (A := ProveRequest.t) (to_json_bytes (ProofRequest.mk a b c d)) = Ok (ProveRequest.mk a b c d);
  response_read p q a :
    from_slice (A := ProofResponse.t) (to_json_bytes (ProveResponse.mk p q a)) = Ok (ProofResponse.mk p q a);
}.

Section service.
Context `{HX : Hex} `{CR : Crypto} `{HN : HttpNet} `{AT : AddressText} `{ZK : Zkvm}.
Context `{AB : PublicValuesAbi} `{PB : ProofDataAbi} `{RS : Rsa}.
Context `{JG : FromJson JwtHeader.t} `{JGC : FromJson GcpCsClaims.t} `{JM : FromJson MinimalHeader.t}.
Context `{JH : FromJson ClientJwtHeader.t} `{JC : FromJson JwtClaims.t} `{JK : FromJson JwksResponse.t}.
Context `{JP : FromJson ProofResponse.t} `{JR : ToJson ProofRequest.t}.
Context `{JD : FromJson ServiceDiscovery.t} `{JS : FromJson ServiceJwks.t}.
Context `{JQ : FromJson ProveRequest.t} `{JO : ToJson ProveResponse.t} `{JE : ToJson ErrorResponse.t}.
Implicit Types (st : ProofApp.t) (client : ProofClient.t).

(** What axum sends for a request body; one that does not parse is refused with 422. *)
Definition answer st (now : Z) (body : bytes) (n : nat) : SendOutcome :=
  match from_slice (A := ProveRequest.t) body with
  | Ok request =>
      match snd (ProofApp.prove_handler st request now n) with
      | Ok (status, inl response) => Response status (Ok (to_json_bytes response))
      | Ok (status, inr e) => Response status (Ok (to_json_bytes e))
      | _ => SendError (NetError.mk "connection closed" false false true)
      end
  | _ => Response 422 (Ok [])
  end.
(** The client's requests reach the service, which is in state [st] at time [now]. *)
Definition connected client st (now : Z) : Prop :=
  forall headers body n, http_post (ProofClient.service_url client +:+ "/prove") headers body n = answer st now body n.

(** A request the service got this far with. *)
Lemma generate_proof_ok st rq now n response :
  snd (ProofApp.generate_proof st rq now n) = Ok response ->
  exists key sig kid keys jwk journal seal v,
    ProofApp.parse_key (ProveRequest.evm_public_key rq) = Ok key /\
    ProofApp.parse_image_signature_text (ProveRequest.image_signature rq) = Ok sig /\
    extract_kid_from_jwt (as_bytes (ProveRequest.jwt_token rq)) = Ok kid /\
    snd (JwksCache.get_keys (ProofApp.jwks_cache st) now n) = Ok keys /\ find_jwk_by_kid keys kid = Some jwk /\
    AttestationProver.generate_proof (ProveRequest.jwt_token rq) jwk (ProveRequest.expected_audience rq) key sig n
      = Ok (journal, seal) /\
    abi_decode journal = Some v /\
    response = ProveResponse.mk (hex0x journal) (hex0x seal) (address_display (PublicValues.tee_signing_key v)).
Proof.
  unfold ProofApp.generate_proof. intros H.
  destruct (ProofApp.parse_key _) as [key| |] eqn:Ek; cbn [result_bind] in H; [|done..].
  destruct (ProofApp.parse_image_signature_text _) as [sig| |] eqn:Es; cbn [result_bind] in H; [|done..].
  unfold ProofApp.get_jwt_kid in H. destruct (extract_kid_from_jwt _) as [kid| |] eqn:Ed; cbn [map_err result_bind] in H; [|done..].
  unfold JwksCache.get_jwk in H. destruct (JwksCache.get_keys _ now n) as [c [keys| |]] eqn:Eg; cbn [result_bind snd] in H; [|done..].
  destruct (find_jwk_by_kid keys kid) as [jwk|] eqn:Ef; cbn [ok_or result_bind] in H; [|done].
  destruct (AttestationProver.generate_proof _ _ _ _ _ _) as [[journal seal]| |] eqn:Ep; cbn [result_bind] in H; [|done..].
  unfold ProofApp.decode_public_values in H. destruct (abi_decode journal) as [v|] eqn:Ev; cbn [ok_or result_bind] in H; [|done].
  apply Ok_inj in H. exists key, sig, kid, keys, jwk, journal, seal, v. by split_and!.
Qed.

Section laws.
Context {HL : HexLaws} {CL : CryptoLaws} {BL : PublicValuesAbiLaws} {ZL : ZkvmLaws} {WL : ProofWire}.
(** serde reads [iat] and [exp] into [u64]. *)
Context (claims_u64 : forall b (c : GcpCsClaims.t), from_slice b = Ok c -> is_u64 (GcpCsClaims.iat c) /\ is_u64 (GcpCsClaims.exp c)).

Lemma parse_key_hex0x key : ProofApp.parse_key (hex0x key) = Ok key <-> length key = 64%nat.
Proof using HL.
  unfold ProofApp.parse_key. rewrite decode_trimmed_hex0x. cbn [map_err result_bind]. case_bool_decide; [by split|].
  by split.
Qed.
Lemma parse_sig_hex0x sig : ProofApp.parse_image_signature_text (hex0x sig) = Ok sig <-> length sig = 65%nat.
Proof using HL.
  unfold ProofApp.parse_image_signature_text. rewrite decode_trimmed_hex0x. cbn [map_err result_bind].
  case_bool_decide; [by split|]. by split.
Qed.

Lemma parse_key_any key key' : ProofApp.parse_key (hex0x key) = Ok key' -> key' = key.
Proof using HL.
  unfold ProofApp.parse_key. rewrite decode_trimmed_hex0x. cbn [map_err result_bind]. case_bool_decide; [by intros [= <-]|done].
Qed.
Lemma parse_sig_any sig sig' : ProofApp.parse_image_signature_text (hex0x sig) = Ok sig' -> sig' = sig.
Proof using HL.
  unfold ProofApp.parse_image_signature_text. rewrite decode_trimmed_hex0x. cbn [map_err result_bind].
  case_bool_decide; [by intros [= <-]|done].
Qed.

Lemma prover_ok token jwk aud key sig n journal seal :
  AttestationProver.generate_proof token jwk aud key sig n = Ok (journal, seal) ->
  exists receipt, prove_with_opts (as_bytes token) jwk aud key sig n = Ok receipt /\
    receipt_verify receipt = Ok tt /\ receipt_journal receipt = journal /\ encode_seal receipt = Ok seal.
Proof using.
  unfold AttestationProver.generate_proof. intros H.
  destruct (env_build _ _ _ _ _); cbn [map_err result_bind] in H; [|done..].
  destruct (prove_with_opts _ _ _ _ _ _) as [r| |] eqn:Ep; cbn [map_err result_bind] in H; [|done..].
  destruct (receipt_verify r) as [[]| |] eqn:Ev; cbn [map_err result_bind] in H; [|done..].
  destruct (encode_seal r) as [s| |] eqn:Es; cbn [map_err result_bind] in H; [|done..].
  injection H as <- <-. by exists r.
Qed.

Lemma to_lowercase_app s t : to_lowercase (s +:+ t) = to_lowercase s +:+ to_lowercase t.
Proof using. induction s as [|c s IH]; [done|]. rewrite !string_app_cons. cbn [to_lowercase]. by rewrite string_app_cons, IH. Qed.

Lemma jwk_not_found_permanent kid : is_permanent_error ("JWK not found for kid: " +:+ kid) = true.
Proof using.
  unfold is_permanent_error. rewrite to_lowercase_app.
  rewrite (contains_app_l "jwk not found" _ (to_lowercase kid)) by reflexivity. by rewrite !orb_true_r.
Qed.

(** The guest's journal decodes, and holds the address of the key it was given. *)
Lemma guest_journal token jwk aud key sig journal v :
  guest_main (as_bytes token) jwk aud key sig = Ok journal -> abi_decode journal = Some v ->
  PublicValues.tee_signing_key v = evm_address key.
Proof using CL BL claims_u64.
  intros Hg Hd. unfold guest_main in Hg. destruct (negb _); [done|].
  destruct (verify_attestation _ _ _ _) as [r| |] eqn:Ev; cbn [result_bind] in Hg; [|done..].
  apply verify_attestation_iff in Ev as (p & Hp & _ & ->).
  apply parse_jwt_inv in Hp as (h & b & s & hb & pb & _ & _ & _ & _ & Hb & _).
  unfold parse_image_signature in Hg. destruct (Nat.eqb_spec (length sig) 65) as [Hl|]; cbn [negb result_bind] in Hg; [|done].
  apply Ok_inj in Hg. subst journal. rewrite abi_decode_encode in Hd; [by injection Hd as <-|].
  destruct (claims_u64 _ _ Hb). pose proof (Z_of_byte_range (nth 64 sig x00)).
  unfold PublicValues.valid, result_of, evm_address. cbn.
  rewrite !keccak256_length, length_drop, keccak256_length, !length_take, length_drop, Hl. unfold is_u64 in *. lia.
Qed.

(** What the client asks, once it has its identity token. *)
Definition request_of (token aud : string) (key sig : bytes) : ProveRequest.t :=
  ProveRequest.mk token aud (hex0x key) (hex0x sig).

(** A well-formed request comes down to the key lookup and the prover. *)
Lemma generate_proof_to_jwk st now token aud key sig kid n :
  length key = 64%nat -> length sig = 65%nat -> extract_kid_from_jwt (as_bytes token) = Ok kid ->
  ProofApp.generate_proof st (request_of token aud key sig) now n =
    let '(cache, r) := JwksCache.get_jwk (ProofApp.jwks_cache st) kid now n in
    (ProofApp.mk cache,
     let? jwk := r in
     let? '(journal, seal) := AttestationProver.generate_proof token jwk aud key sig n in
     let? public_values := ProofApp.decode_public_values journal in
     Ok (ProveResponse.mk (hex0x journal) (hex0x seal) (address_display (PublicValues.tee_signing_key public_values)))).
Proof using HL.
  intros Hk%parse_key_hex0x Hs%parse_sig_hex0x Hd. unfold ProofApp.generate_proof, request_of. cbn [ProveRequest.evm_public_key
    ProveRequest.image_signature ProveRequest.jwt_token ProveRequest.expected_audience].
  rewrite Hk, Hs. cbn [result_bind]. unfold ProofApp.get_jwt_kid. by rewrite Hd.
Qed.

Lemma client_asks client st now token aud key sig n identity :
  ProofClient.prover_mode client = Service -> connected client st now ->
  ProofClient.fetch_identity_token (ProofClient.service_url client) n = Ok identity ->
  ProofClient.generate_proof client token aud key sig n =
    match snd (ProofApp.generate_proof st (request_of token aud key sig) now n) with
    | Ok r => Ok (ProofResponse.mk (ProveResponse.public_values r) (ProveResponse.proof_bytes r) (ProveResponse.tee_address r))
    | Err e =>
        let text := body_text (to_json_bytes (ErrorResponse.mk "Proof generation failed" (Some e) (Some (is_permanent_error e)))) in
        if is_permanent_error e then Err (ProofGenerationPermanent text)
        else Err (ProofGenerationFailed ("HTTP " +:+ status_display SERVICE_UNAVAILABLE +:+ ": " +:+ text))
    | Panic _ => Err (ProofGenerationFailed "connection closed")
    end.
Proof using WL.
  intros Hm Hc Hi. unfold ProofClient.generate_proof. rewrite Hm.
  rewrite !bool_decide_false by done. rewrite Hi. cbn [result_bind]. rewrite Hc. unfold answer.
  rewrite request_read. unfold ProofApp.prove_handler, request_of.
  destruct (ProofApp.generate_proof _ _ _ _) as [st' [r|e|w]]; cbn [snd]; [|by destruct (is_permanent_error e)|done].
  cbn [is_success]. destruct r as [p q a]. cbn. unfold response_json. cbn. by rewrite response_read.
Qed.

(** C20. A proof the client of the proof service gets is of a run of the guest on the client's
    own token, audience, key and image signature, under the key of the service's key set
    that the token names: the public values are that run's journal, the proof is the seal
    of a receipt that verifies, and the address is the one of the client's key. *)
Theorem service_proof_reaches_client (client : ProofClient.t) (st : ProofApp.t) (now : Z)
    (token aud : string) (key sig : bytes) (n : nat) (r : ProofResponse.t) :
  ProofClient.prover_mode client = Service -> connected client st now ->
  ProofClient.generate_proof client token aud key sig n = Ok r ->
  exists kid keys jwk receipt seal,
    extract_kid_from_jwt (as_bytes token) = Ok kid /\
    snd (JwksCache.get_keys (ProofApp.jwks_cache st) now n) = Ok keys /\ find_jwk_by_kid keys kid = Some jwk /\
    guest_main (as_bytes token) jwk aud key sig = Ok (receipt_journal receipt) /\
    receipt_verify receipt = Ok tt /\ encode_seal receipt = Ok seal /\
    r = ProofResponse.mk (hex0x (receipt_journal receipt)) (hex0x seal) (address_display (evm_address key)).
Proof using HL CL BL ZL WL claims_u64.
  intros Hm Hc Hr.
  destruct (ProofClient.fetch_identity_token (ProofClient.service_url client) n) as [i| |] eqn:Hi;
    [|by unfold ProofClient.generate_proof in Hr; rewrite Hm, !bool_decide_false, Hi in Hr by done..].
  rewrite (client_asks _ _ _ _ _ _ _ _ _ Hm Hc Hi) in Hr.
  destruct (snd _) as [r'|e|] eqn:Eg; [|by destruct (is_permanent_error e)|done]. apply Ok_inj in Hr. subst r.
  apply generate_proof_ok in Eg as (key' & sig' & kid & keys & jwk & journal & seal & v & Hk & Hs & Hd & Hg & Hf & Hp & Hv & ->).
  cbn in *. apply parse_key_any in Hk as ->. apply parse_sig_any in Hs as ->.
  apply prover_ok in Hp as (receipt & Hpr & Hve & <- & Hse).
  apply prove_runs_guest in Hpr. exists kid, keys, jwk, receipt, seal.
  by rewrite (guest_journal _ _ _ _ _ _ _ Hpr Hv).
Qed.

(** A key set the service still holds as fresh may lack the key Google signs with by now: the
    service then refuses the token with 400, whatever Google serves, and the client
    takes the refusal for final. *)
Theorem rotated_key_is_final (client : ProofClient.t) (st : ProofApp.t) (now : Z) (token aud identity kid : string)
    (key sig : bytes) (keys : list JwkKey.t) (fetched_at : Z) (n : nat) :
  ProofClient.prover_mode client = Service -> connected client st now ->
  ProofClient.fetch_identity_token (ProofClient.service_url client) n = Ok identity ->
  length key = 64%nat -> length sig = 65%nat -> extract_kid_from_jwt (as_bytes token) = Ok kid ->
  JwksCache.keys (ProofApp.jwks_cache st) = Some (keys, fetched_at) ->
  (now - fetched_at) / NANOS_PER_SEC < JwksCache.cache_ttl_secs (ProofApp.jwks_cache st) ->
  find_jwk_by_kid keys kid = None ->
  exists e, ProofClient.generate_proof client token aud key sig n = Err e /\ is_retryable e = false /\
    fst (ProofApp.prove_handler st (request_of token aud key sig) now n) = st.
Proof using HL WL.
  intros Hm Hc Hi Hk Hs Hd He Ht Hf. rewrite (client_asks _ _ _ _ _ _ _ _ _ Hm Hc Hi).
  unfold ProofApp.prove_handler.
  rewrite (generate_proof_to_jwk _ _ _ _ _ _ _ _ Hk Hs Hd). unfold JwksCache.get_jwk, JwksCache.get_keys.
  rewrite He, (proj2 (Z.ltb_lt _ _) Ht). cbn [result_bind snd fst]. rewrite Hf. cbn [ok_or result_bind].
  rewrite jwk_not_found_permanent. eexists. split; [done|]. split; [done|]. by destruct st.
Qed.

(** A token the guest refuses gives no proof in any attempt, but the service answers each
    attempt with 503, and the client takes each for a failure worth retrying. *)
Theorem refused_token_retried (client : ProofClient.t) (st : ProofApp.t) (now : Z) (token aud kid : string)
    (key sig : bytes) (keys : list JwkKey.t) (jwk : JwkKey.t) :
  ProofClient.prover_mode client = Service -> connected client st now ->
  (forall n, exists identity, ProofClient.fetch_identity_token (ProofClient.service_url client) n = Ok identity) ->
  length key = 64%nat -> length sig = 65%nat -> extract_kid_from_jwt (as_bytes token) = Ok kid ->
  (forall n, snd (JwksCache.get_keys (ProofApp.jwks_cache st) now n) = Ok keys) -> find_jwk_by_kid keys kid = Some jwk ->
  env_build (as_bytes token) jwk aud key sig = Ok tt ->
  (forall n w, prove_with_opts (as_bytes token) jwk aud key sig n <> Panic w) ->
  (forall journal, guest_main (as_bytes token) jwk aud key sig <> Ok journal) ->
  forall n, exists e, ProofClient.generate_proof client token aud key sig n = Err e /\ is_retryable e = true.
Proof using HL ZL WL.
  intros Hm Hc Hi Hk Hs Hd Hg Hf He Hn Hj n. destruct (Hi n) as [identity Hi']. specialize (Hg n).
  rewrite (client_asks _ _ _ _ _ _ _ _ _ Hm Hc Hi'), (generate_proof_to_jwk _ _ _ _ _ _ _ _ Hk Hs Hd).
  unfold JwksCache.get_jwk. destruct (JwksCache.get_keys _ _ _) as [c r]. cbn [snd] in Hg. subst r.
  cbn [result_bind snd]. rewrite Hf. cbn [ok_or result_bind]. unfold AttestationProver.generate_proof.
  rewrite He. cbn [result_bind].
  destruct (prove_with_opts _ _ _ _ _ n) as [r|e|w] eqn:Ep; [by apply prove_runs_guest, Hj in Ep| |by apply Hn in Ep].
  by eexists.
Qed.
End laws.
End service.
