(* ===== verification/ValidatorMain.v ===== *)
(** * The validator's process
    (crates/synddb-validator/src/main.rs, config.rs, http/api.rs, bridge/signer.rs)

    Configuration and start-up, the sync task that drives the validator, signs the
    withdrawals it reports and publishes its progress, and the status endpoints.
    Command line parsing is clap's; servers and the shutdown signal are left out. *)
From Stdlib Require Import Ascii Strings.Byte.
From S2P Require Import Prelude RustStd Batches Extern Net Cose CborBatches SignedTypes SyncIndex.
From S2P Require Import Inbox StateStore Applier AuditTrail Validator HttpFetcher Cloud Bridge.
From S2P Require Import BootClients.

(** ** config.rs *)

(** [local_defaults] *)
Definition LOCAL_CHAIN_ID : Z := 31337.
Definition BRIDGE_CONTRACT : string := "0xCf7Ed3AccA5a467e9e704C703E8D87F634fB0Fc9".

Module FetcherType.
Inductive t := Http | Gcs.
Definition to_string (f : t) : string := match f with Http => "http" | Gcs => "gcs" end.
Definition supported_types : list string := map to_string [Http; Gcs].
End FetcherType.

Module SequencerStatus.
Record t := mk { signer_pubkey : string }.
End SequencerStatus.

Module ValidatorConfig.
Record t := mk {
  database_path : string;
  state_db_path : string;
  pending_changesets_db_path : string;
  sequencer_pubkey : option string;
  fetcher_type : FetcherType.t;
  sequencer_url : option string;
  http_fetcher_timeout : Z;
  http_fetcher_max_retries : nat;
  gcs_bucket : option string;
  gcs_prefix : string;
  gcs_storage_emulator_host : option string;
  bind_address : string;
  sync_interval : Z;
  start_sequence : Z;
  log_json : bool;
  otel_enabled : bool;
  gcp_project_id : option string;
  shutdown_timeout : Z;
  bridge_signer : bool;
  bridge_address : option string;
  bridge_chain_id : option Z;
  bridge_signature_endpoint : string;
  gap_retry_count : Z;
  gap_retry_delay : Z;
  gap_skip_on_failure : bool;
  batch_sync_enabled : bool;
  batch_index_refresh_interval : Z;
  enable_key_bootstrap : bool;
  bootstrap_rpc_url : option string;
  bootstrap_chain_id : option Z;
  relayer_url : option string;
  proof_service_url : option string;
  attestation_audience : option string;
  image_signature : option string;
  proof_timeout : Z;
  bootstrap_timeout : Z;
}.

(** The default values of the arguments; durations in seconds. *)
Definition default : t :=
  mk "/data/validator.db" "/data/validator_state.db" "/data/pending_changesets.db" None FetcherType.Http None
     30 3 None "sequencer" None "0.0.0.0:8080" 1 0 false false None 30 false None None "0.0.0.0:8081"
     5 5 false true 10 false None None None None None None 600 900.

Definition require {A} (o : option A) (msg : string) : result string unit :=
  match o with Some _ => Ok tt | None => Err msg end.

Definition validate_bootstrap_config (c : t) : result string unit :=
  if negb (enable_key_bootstrap c) then Ok tt
  else
    let? _ := require (bridge_address c) "BRIDGE_CONTRACT_ADDRESS is required when ENABLE_KEY_BOOTSTRAP=true" in
    let? _ := require (bootstrap_rpc_url c) "BOOTSTRAP_RPC_URL is required when ENABLE_KEY_BOOTSTRAP=true" in
    let? _ := require (bootstrap_chain_id c) "BOOTSTRAP_CHAIN_ID is required when ENABLE_KEY_BOOTSTRAP=true" in
    let? _ := require (relayer_url c) "RELAYER_URL is required when ENABLE_KEY_BOOTSTRAP=true" in
    let? _ := require (proof_service_url c) "PROOF_SERVICE_URL is required when ENABLE_KEY_BOOTSTRAP=true" in
    let? _ := require (attestation_audience c) "ATTESTATION_AUDIENCE is required when ENABLE_KEY_BOOTSTRAP=true" in
    require (image_signature c) "IMAGE_SIGNATURE is required when ENABLE_KEY_BOOTSTRAP=true".

Section network.
Context `{HN : HttpNet} `{JS : FromJson SequencerStatus.t}.

(** The status of the response is not looked at. *)
Definition fetch_sequencer_pubkey (sequencer_url : string) : result string string :=
  match http_get (trim_end_matches "/" sequencer_url +:+ "/status") [] 0 with
  | SendError e => Err (NetError.text e)
  | Response _ body => let? response := response_json body in Ok (SequencerStatus.signer_pubkey response)
  end.

Definition resolve_sequencer_pubkey (c : t) : result string string :=
  match sequencer_pubkey c with
  | Some pubkey => Ok pubkey
  | None =>
      let? url := ok_or "Either --sequencer-pubkey or --sequencer-url must be set for pubkey discovery"
                    (sequencer_url c) in
      map_err (fun e => "Failed to fetch public key from sequencer: " +:+ e) (fetch_sequencer_pubkey url)
  end.
End network.

Definition is_bridge_signer (c : t) : bool := bridge_signer c.

Definition validate_bridge_config (c : t) : result string unit :=
  if negb (bridge_signer c) then Ok tt
  else
    let is_local := bool_decide (bridge_chain_id c = Some LOCAL_CHAIN_ID) in
    if bool_decide (bridge_address c = None) && negb is_local then
      Err "--bridge-address is required when --bridge-signer is enabled"
    else if bool_decide (bridge_chain_id c = None) then
      Err "--bridge-chain-id is required when --bridge-signer is enabled"
    else Ok tt.

Definition bridge_address_with_local_fallback (c : t) : option string :=
  match bridge_address c with
  | Some a => Some a
  | None => if bool_decide (bridge_chain_id c = Some LOCAL_CHAIN_ID) then Some BRIDGE_CONTRACT else None
  end.

(** [config.sequencer_pubkey = Some(..)] *)
Definition with_pubkey (pubkey : string) (c : t) : t :=
  mk (database_path c) (state_db_path c) (pending_changesets_db_path c) (Some pubkey) (fetcher_type c)
     (sequencer_url c) (http_fetcher_timeout c) (http_fetcher_max_retries c) (gcs_bucket c) (gcs_prefix c)
     (gcs_storage_emulator_host c) (bind_address c) (sync_interval c) (start_sequence c) (log_json c)
     (otel_enabled c) (gcp_project_id c) (shutdown_timeout c) (bridge_signer c) (bridge_address c)
     (bridge_chain_id c) (bridge_signature_endpoint c) (gap_retry_count c) (gap_retry_delay c)
     (gap_skip_on_failure c) (batch_sync_enabled c) (batch_index_refresh_interval c) (enable_key_bootstrap c)
     (bootstrap_rpc_url c) (bootstrap_chain_id c) (relayer_url c) (proof_service_url c)
     (attestation_audience c) (image_signature c) (proof_timeout c) (bootstrap_timeout c).
End ValidatorConfig.

(** ** http/api.rs *)
Module StatusApi.
Definition NOT_SYNCED : Z := u64_max.

Record t := mk { running : bool; last_sequence_raw : Z; last_sync_time : Z }.

Definition new : t := mk false NOT_SYNCED 0.
Definition set_running (s : t) (running : bool) : t := mk running (last_sequence_raw s) (last_sync_time s).
Definition is_running (s : t) : bool := running s.
Definition update_sync_status (s : t) (last_sequence : option Z) (last_sync_time : Z) : t :=
  mk (running s) (default NOT_SYNCED last_sequence) last_sync_time.
Definition last_sequence (s : t) : option Z :=
  if last_sequence_raw s =? NOT_SYNCED then None else Some (last_sequence_raw s).
Definition next_sequence (s : t) : Z :=
  match last_sequence s with Some n => u64_add n 1 | None => 0 end.

Module HealthResponse.
Record t := mk { status : string; running : bool }.
End HealthResponse.
Module StatusResponse.
Record t := mk { running : bool; last_sequence : option Z; last_sync_time : Z; next_sequence : Z }.
End StatusResponse.

Definition health_handler (s : t) : Z * HealthResponse.t :=
  (OK_200, HealthResponse.mk "healthy" (is_running s)).
Definition ready_handler (s : t) : Z * HealthResponse.t :=
  let running := is_running s in
  if running then (OK_200, HealthResponse.mk "ready" running)
  else (SERVICE_UNAVAILABLE, HealthResponse.mk "not_ready" running).
Definition status_handler (s : t) : Z * StatusResponse.t :=
  (OK_200, StatusResponse.mk (is_running s) (last_sequence s) (last_sync_time s) (next_sequence s)).
End StatusApi.

(** ** main.rs: signing withdrawals *)
Section message_ids.
Context `{HX : Hex} `{CR : Crypto}.

(** Only [0x] and 64 digits are taken for the id itself; anything else is hashed. *)
Definition request_id_to_message_id (request_id : string) : bytes :=
  let hashed := keccak256 (as_bytes request_id) in
  if starts_with "0x" request_id && bool_decide (String.length request_id = 66%nat) then
    match hex_decode (strip_prefix_or_self "0x" request_id) with
    | Ok b => if bool_decide (length b = 32%nat) then b else hashed
    | _ => hashed
    end
  else hashed.
End message_ids.

(** ** The two fetchers behind one interface ([Arc<dyn StorageFetcher>]) *)
Module AnyFetcher.
Section ops.
Context `{HX : Hex} `{CR : Crypto} `{CS : Cose} `{CC : !CoseCodec} `{ZS : Zstd} `{SW : Serde CborBatchWire.t}.
Context `{HC : HttpClient}.
Context `{JM : Json SignedMessage.t} `{JL : Json LatestSequenceResponse.t} `{JB : Json (list BatchInfoResponse.t)}.
Context `{OS : ObjectStore} `{JV : FromJson JsonValue.t}.

Inductive t := Http (h : HttpFetcher.t) | Gcs (g : GcsFetcher.t).

#[global] Instance fetcher : StorageFetcher t := {|
  supports_batches f := match f with Http h => supports_batches h | Gcs g => supports_batches g end;
  fetch_message f s := match f with Http h => fetch_message h s | Gcs g => fetch_message g s end;
  fetch_latest f := match f with Http h => fetch_latest h | Gcs g => fetch_latest g end;
  fetch_list f := match f with Http h => fetch_list h | Gcs g => fetch_list g end;
  fetch_batch f s := match f with Http h => fetch_batch h s | Gcs g => fetch_batch g s end;
  fetch_batch_by_path f p :=
    match f with Http h => fetch_batch_by_path h p | Gcs g => fetch_batch_by_path g p end;
|}.

(** [client] is the HTTP client reqwest builds, [st] the store behind Google's. *)
Definition create_fetcher (config : ValidatorConfig.t) (client : Client) (st : Store) : result AnyError t :=
  match ValidatorConfig.fetcher_type config with
  | FetcherType.Http =>
      let? url := ok_or (Msg "SEQUENCER_URL is required when fetcher_type=http")
                    (ValidatorConfig.sequencer_url config) in
      Ok (Http (HttpFetcher.with_config url client (ValidatorConfig.http_fetcher_max_retries config)))
  | FetcherType.Gcs =>
      let? bucket := ok_or (Msg "GCS_BUCKET is required when fetcher_type=gcs")
                       (ValidatorConfig.gcs_bucket config) in
      let? g := GcsFetcher.new bucket (ValidatorConfig.gcs_prefix config)
                  (ValidatorConfig.gcs_storage_emulator_host config) st in
      Ok (Gcs g)
  end.
End ops.
Arguments t {_ _}.
End AnyFetcher.

(** ** main.rs: the sync task *)
Module SyncTask.
Section ops.
Context `{HX : Hex} `{CR : Crypto} `{SG : !Signer} `{CS : Cose} `{CC : !CoseCodec} `{ZS : Zstd} `{SE : Session}.
Context `{SC : Serde ChangesetBatchRequest.t} `{SN : Serde SnapshotRequest.t} `{SWd : Serde WithdrawalRequest.t}.
Context {F : Type} `{SF : StorageFetcher F}.

(** [create_withdrawal_callback]: a signing failure is only logged. *)
Definition on_withdrawal (signer : option BridgeSigner.t) (now : Z) (store : SignatureStore.t)
    (withdrawal : WithdrawalRequest.t) : SignatureStore.t :=
  match signer with
  | Some signer =>
      match BridgeSigner.sign_message_sync signer now
              (request_id_to_message_id (WithdrawalRequest.request_id withdrawal)) with
      | Ok sig => SignatureStore.store store sig
      | _ => store
      end
  | None => store
  end.
Definition on_withdrawals (signer : option BridgeSigner.t) (now : Z) (store : SignatureStore.t)
    (ws : list WithdrawalRequest.t) : SignatureStore.t :=
  fold_left (on_withdrawal signer now) ws store.

(** [sync_to_head_with_signing]: the loop, with fuel; [None] when it runs out. *)
Fixpoint sync_loop (fuel : nat) (v : Validator.t) (fetcher : F) (signer : option BridgeSigner.t) (now : Z)
    (store : SignatureStore.t) (next_sequence synced : Z)
    : Validator.t * SignatureStore.t * option (result AnyError Z) :=
  match fuel with
  | O => (v, store, None)
  | S fuel' =>
      let '(v1, ws, r) := Validator.sync_one_with_callback v fetcher now next_sequence in
      let store1 := on_withdrawals signer now store ws in
      match r with
      | Ok true =>
          sync_loop fuel' v1 fetcher signer now store1 (u64_add next_sequence 1) (synced + 1)
      | Ok false | Err _ => (v1, store1, Some (Ok synced))
      | Panic w => (v1, store1, Some (Panic w))
      end
  end.
Definition sync_to_head_with_signing (fuel : nat) (v : Validator.t) (fetcher : F)
    (signer : option BridgeSigner.t) (now : Z) (store : SignatureStore.t)
    : Validator.t * SignatureStore.t * option (result AnyError Z) :=
  match Validator.last_sequence v with
  | Err e => (v, store, Some (Err e))
  | Panic w => (v, store, Some (Panic w))
  | Ok last =>
      sync_loop fuel v fetcher signer now store
        (match last with Some s => u64_add s 1 | None => 0 end) 0
  end.

(** What the task is in: nothing yet, one of the two loops of [run_batched], or done. *)
Inductive phase :=
| Starting
| Synced
| Single (ls : Validator.loop_state)
| Batched (bs : Validator.batch_state)
| Done.

Record t := mk {
  validator : Validator.t;
  store : SignatureStore.t;
  app : StatusApi.t;
  now_in : phase;
}.

(** The task as it is spawned. *)
Definition spawn (v : Validator.t) : t := mk v SignatureStore.new StatusApi.new Starting.

(** Marked as running, then the initial sync; a panic ends the task as it is. *)
Definition initial_sync (fuel : nat) (s : t) (fetcher : F) (signer : option BridgeSigner.t) (now : Z) : t :=
  let app := StatusApi.set_running (app s) true in
  match sync_to_head_with_signing fuel (validator s) fetcher signer now (store s) with
  | (v1, store1, Some (Ok synced)) =>
      let app1 :=
        if 0 <? synced then
          match Validator.last_sequence v1 with
          | Ok (Some seq) => StatusApi.update_sync_status app (Some seq) now
          | _ => app
          end
        else app in
      mk v1 store1 app1 Synced
  | (v1, store1, Some (Err _)) => mk v1 store1 app Synced
  | (v1, store1, Some (Panic _)) => mk v1 store1 app Done
  | (v1, store1, None) => mk v1 store1 app Starting
  end.

Definition stop (s : t) : t := mk (validator s) (store s) (StatusApi.set_running (app s) false) Done.

(** The head of [run_batched], up to its loop or that of [run_with_callbacks]. *)
Definition begin_loop (s : t) (fetcher : F) : t :=
  let start (k : Z -> phase) :=
    match StateStore.next_sequence (Validator.state (validator s)) with
    | Ok next_sequence => mk (validator s) (store s) (app s) (k next_sequence)
    | _ => stop s
    end in
  if Validator.use_batch_mode (validator s) fetcher then
    match BatchIndex.build (fetch_list fetcher) with
    | Ok index => start (fun n => Batched (Validator.mk_batch index n false))
    | _ => stop s
    end
  else start (fun n => Single (Validator.mk_loop n 0)).

(** [on_sync] for each number. *)
Definition on_syncs (app : StatusApi.t) (now : Z) (synced : list Z) : StatusApi.t :=
  fold_left (fun a n => StatusApi.update_sync_status a (Some n) now) synced app.

(** One turn of the loop with the callbacks of [main]. *)
Definition turn (s : t) (fetcher : F) (signer : option BridgeSigner.t) (now : Z) (refresh_due : bool) : t :=
  let after (v1 : Validator.t) (k : phase) ws synced (r : Validator.turn) :=
    let s1 := mk v1 (on_withdrawals signer now (store s) ws) (on_syncs (app s) now synced) k in
    match r with Validator.Stop _ => stop s1 | _ => s1 end in
  match now_in s with
  | Single ls =>
      let '(v1, ls1, ws, synced, r) := Validator.run_turn (validator s) fetcher now ls in
      after v1 (Single ls1) ws synced r
  | Batched bs =>
      let '(v1, bs1, ws, synced, r) := Validator.run_batched_turn (validator s) fetcher now refresh_due bs in
      after v1 (Batched bs1) ws synced r
  | _ => s
  end.
End ops.
End SyncTask.

(** ** main.rs: start-up *)
Section startup.
Context `{HX : Hex} `{CR : Crypto} `{SG : !Signer} `{CS : Cose} `{CC : !CoseCodec} `{ZS : Zstd} `{SE : Session}.
Context `{SC : Serde ChangesetBatchRequest.t} `{SN : Serde SnapshotRequest.t} `{SWd : Serde WithdrawalRequest.t}.
Context `{SW : Serde CborBatchWire.t} `{HC : HttpClient} `{HN : HttpNet} `{AT : AddressText}.
Context `{JM : Json SignedMessage.t} `{JL : Json LatestSequenceResponse.t} `{JB : Json (list BatchInfoResponse.t)}.
Context `{JS : FromJson SequencerStatus.t} `{OS : ObjectStore} `{JV : FromJson JsonValue.t}.

(** [BridgeSigner::new], with the key it draws. *)
Definition bridge_signer_new (config : ValidatorConfig.t) (random : PrivateKeySigner)
    : result AnyError BridgeSigner.t :=
  let? text := ok_or (Msg "--bridge-address is required (or use --bridge-chain-id 31337 for local default)")
                 (ValidatorConfig.bridge_address_with_local_fallback config) in
  let? bridge_contract := context "Invalid bridge contract address" (address_parse text) in
  let? chain_id := ok_or (Msg "--bridge-chain-id is required") (ValidatorConfig.bridge_chain_id config) in
  Ok (BridgeSigner.mk (EvmKeyManager.generate random) bridge_contract chain_id).

(** [Validator::new], with the databases it opens. *)
Definition validator_new (config : ValidatorConfig.t) (applier : ChangesetApplier.t) (state : StateStore.t)
    (pending : PendingChangesetStore.t) : result AnyError Validator.t :=
  let? pubkey := ok_or (Msg "sequencer_pubkey must be set (call resolve_sequencer_pubkey first)")
                   (ValidatorConfig.sequencer_pubkey config) in
  let? verifier := context "Invalid sequencer public key" (SignatureVerifier.from_hex pubkey) in
  Ok (Validator.mk verifier applier state pending (ValidatorConfig.gap_retry_count config)
        (ValidatorConfig.gap_skip_on_failure config) (ValidatorConfig.batch_sync_enabled config) None).

(** The outcome of the bootstrap within its timeout; [None] when it timed out. *)
Definition check_bootstrap (tee : bool) (config : ValidatorConfig.t)
    (bootstrap : option (result BootstrapError EvmKeyManager.t)) : result AnyError unit :=
  if negb (ValidatorConfig.enable_key_bootstrap config) then Ok tt
  else if negb tee then Err (Msg "TEE key bootstrap requires the 'tee' feature to be enabled")
  else
    let? _ := map_err Msg (ValidatorConfig.validate_bootstrap_config config) in
    match bootstrap with
    | Some (Ok _) => Ok tt
    | Some (Err e) => Err (Msg ("Bootstrap failed: " +:+ BootstrapError_to_string e))
    | Some (Panic w) => Panic w
    | None => Err (Msg ("Bootstrap timed out after "
                        +:+ duration_debug (ValidatorConfig.bootstrap_timeout config)))
    end.

(** [main] up to the point where the tasks run: the fetcher, the validator and the
    signer they share. *)
Definition main_start (tee : bool) (config : ValidatorConfig.t)
    (bootstrap : option (result BootstrapError EvmKeyManager.t)) (client : Client) (st : Store)
    (applier : ChangesetApplier.t) (state : StateStore.t) (pending : PendingChangesetStore.t)
    (random : PrivateKeySigner)
    : result AnyError (AnyFetcher.t * Validator.t * option BridgeSigner.t) :=
  let? sequencer_pubkey := map_err Msg (ValidatorConfig.resolve_sequencer_pubkey config) in
  let config := ValidatorConfig.with_pubkey sequencer_pubkey config in
  let? _ := map_err Msg (ValidatorConfig.validate_bridge_config config) in
  let? _ := check_bootstrap tee config bootstrap in
  let? fetcher := AnyFetcher.create_fetcher config client st in
  let? validator := validator_new config applier state pending in
  let? signer :=
    (if ValidatorConfig.is_bridge_signer config then
       let? signer := bridge_signer_new config random in Ok (Some signer)
     else Ok None) in
  Ok (fetcher, validator, signer).
End startup.
