(* ===== verification/ValidatorMainProps.v ===== *)
(** * Properties of the validator's process

    Withdrawals the validator syncs are signed and served, the status endpoint tells the
    recorded progress, and what start-up and restart lose. *)
From Stdlib Require Import Ascii Strings.Byte.
From S2P Require Import Prelude RustStd Batches Extern Reference Net Cose CborBatches SignedTypes SyncIndex.
From S2P Require Import Inbox InboxProps WireProps StateStore Applier AuditTrail Validator ValidatorProps.
From S2P Require Import HttpFetcher Cloud Bridge BootClients Relayer RelayerProps ValidatorMain.

(** ** Message ids *)
Section ids.
Context `{HX : Hex} `{CR : Crypto} {HL : HexLaws}.

Lemma hex0x_length b : String.length (hex0x b) = (2 + 2 * length b)%nat.
Proof using HL. unfold hex0x. rewrite string_length_app, hex_encode_length. done. Qed.

Lemma parse_hex_id id b :
  strip_prefix_or_self "0x" id = hex_encode b -> (0 < length b <= 32)%nat ->
  Inbox.parse_message_id id = Ok (repeat x00 (32 - length b) ++ b).
Proof using HL.
  intros Hs Hl. unfold Inbox.parse_message_id. rewrite Hs, hex_encode_digits, hex_encode_length, hex_decode_encode.
  cbn [map_err result_bind]. rewrite andb_true_r. case_bool_decide as H64; cbn [andb].
  - rewrite bool_decide_true by lia. replace (length b) with 32%nat by lia. done.
  - rewrite bool_decide_false; cbn [negb].
    + rewrite Nat.min_l by lia. by rewrite take_ge by lia.
    + intros He. pose proof (hex_encode_length b) as He'. rewrite He in He'. cbn in He'. lia.
Qed.

(** On the two sides of the bridge a request id becomes the same message id if it is
    [0x] and 32 bytes of hex; but for the same 32 bytes without [0x], and for fewer
    bytes, the sequencer decodes (and pads) the digits while the validator hashes the
    text, so the signature the validator files is not one for the sequencer's message. *)
Theorem message_ids_disagree b :
  (0 < length b <= 32)%nat ->
  (length b = 32%nat ->
     Inbox.parse_message_id (hex0x b) = Ok b /\ request_id_to_message_id (hex0x b) = b /\
     Inbox.parse_message_id (hex_encode b) = Ok b /\
     request_id_to_message_id (hex_encode b) = keccak256 (as_bytes (hex_encode b))) /\
  ((length b < 32)%nat ->
     Inbox.parse_message_id (hex0x b) = Ok (repeat x00 (32 - length b) ++ b) /\
     request_id_to_message_id (hex0x b) = keccak256 (as_bytes (hex0x b))).
Proof using HL.
  intros Hl.
  assert (Hs1 : strip_prefix_or_self "0x" (hex0x b) = hex_encode b)
    by (unfold strip_prefix_or_self, hex0x; by rewrite strip_prefix_app).
  pose proof (hex_no_0x _ (hex_encode_digits b)) as Hno.
  assert (Hs2 : strip_prefix_or_self "0x" (hex_encode b) = hex_encode b)
    by (unfold strip_prefix_or_self; by rewrite Hno).
  pose proof (parse_hex_id _ b Hs1 Hl) as Hp1. pose proof (parse_hex_id _ b Hs2 Hl) as Hp2.
  split; intros H32.
  - rewrite H32 in Hp1, Hp2. cbn [repeat Nat.sub app] in Hp1, Hp2. split_and!; [done| |done|].
    + unfold request_id_to_message_id, hex0x. rewrite starts_with_app. fold (hex0x b).
      rewrite bool_decide_true by (rewrite hex0x_length; lia). cbn [andb].
      rewrite Hs1, hex_decode_encode. by rewrite bool_decide_true.
    + unfold request_id_to_message_id, starts_with. by rewrite Hno.
  - split; [done|]. unfold request_id_to_message_id.
    rewrite (bool_decide_false (String.length _ = _)) by (rewrite hex0x_length; lia). by rewrite andb_false_r.
Qed.
End ids.

(** ** Signing what is reported *)
Section signing.
Context `{HX : Hex} `{CR : Crypto} `{SG : !Signer} `{CS : Cose} `{CC : !CoseCodec} `{ZS : Zstd} `{SE : Session}.
Context `{SC : Serde ChangesetBatchRequest.t} `{SN : Serde SnapshotRequest.t} `{SWd : Serde WithdrawalRequest.t}.
Context {F : Type} `{SF : StorageFetcher F}.
Context {HL : HexLaws} {CL : CryptoLaws} {GL : SignerLaws}.
Implicit Types (v : Validator.t) (f : F) (sg : BridgeSigner.t) (st : SignatureStore.t).

(** The id a withdrawal is filed under, and what the contract accepts for it. *)
Definition filed_under (w : WithdrawalRequest.t) : string :=
  hex0x (request_id_to_message_id (WithdrawalRequest.request_id w)).
Definition signs sg (w : WithdrawalRequest.t) (m : MessageSignature.t) : Prop :=
  MessageSignature.message_id m = filed_under w /\ MessageSignature.signer m = BridgeSigner.address sg /\
  exists rs b vk sig, MessageSignature.signature m = rs ++ [b] /\ length rs = 64%nat /\ (b = x1b \/ b = x1c) /\
    verifying_key_from_bytes (EvmKeyManager.public_key (BridgeSigner.key_manager sg)) = Ok vk /\
    sig_from_slice rs = Ok sig /\
    verify_prehash vk (keccak256 (Inbox.eip191_prefix
       ++ request_id_to_message_id (WithdrawalRequest.request_id w))) sig = true.

Lemma on_withdrawal_signs sg now st w :
  signer_available (BridgeSigner.key_manager sg) ->
  exists m, signs sg w m /\ SyncTask.on_withdrawal (Some sg) now st w = SignatureStore.store st m.
Proof using CL GL.
  intros Hav. unfold SyncTask.on_withdrawal.
  destruct (bridge_message_signed sg now (request_id_to_message_id (WithdrawalRequest.request_id w)) Hav)
    as (rs & b & vk & sig & -> & Hl & Hb & Hk & Hs & Hv).
  eexists. split; [|reflexivity]. split; [done|]. split; [done|]. by exists rs, b, vk, sig.
Qed.

(** Signatures are for what was reported, by the signer, and are not lost. *)
Definition all_signed sg st (ws : list WithdrawalRequest.t) : Prop :=
  forall w, w ∈ ws -> exists m w', SignatureStore.get st (filed_under w) = Some m /\
    signs sg w' m /\ filed_under w' = filed_under w.

Lemma on_withdrawals_signed sg now ws : forall st ws0,
  signer_available (BridgeSigner.key_manager sg) -> all_signed sg st ws0 ->
  all_signed sg (SyncTask.on_withdrawals (Some sg) now st ws) (ws0 ++ ws).
Proof using CL GL.
  induction ws as [|w ws IH]; intros st ws0 Hav Hst; cbn [SyncTask.on_withdrawals fold_left].
  - by rewrite app_nil_r.
  - replace (ws0 ++ w :: ws) with ((ws0 ++ [w]) ++ ws) by (by rewrite <- app_assoc).
    apply IH; [done|]. destruct (on_withdrawal_signs sg now st w Hav) as (m & Hm & ->).
    intros w' Hw'. unfold SignatureStore.get, SignatureStore.store. cbn [SignatureStore.signatures].
    destruct Hm as (Hid & Hrest). rewrite Hid. destruct (decide (filed_under w = filed_under w')) as [He|Hne].
    + rewrite He, lookup_insert_eq. exists m, w. by split_and!.
    + rewrite lookup_insert_ne by done. apply elem_of_app in Hw' as [Hw'|Hw'%list_elem_of_singleton];
        [by apply Hst|]. by subst.
Qed.

Lemma on_withdrawals_app signer now st ws1 ws2 :
  SyncTask.on_withdrawals signer now st (ws1 ++ ws2)
  = SyncTask.on_withdrawals signer now (SyncTask.on_withdrawals signer now st ws1) ws2.
Proof. apply fold_left_app. Qed.

(** The withdrawals among messages. *)
Definition withdrawals_in (ms : list SignedMessage.t) : list WithdrawalRequest.t :=
  concat (map (fun m => match ChangesetApplier.extract_withdrawal m with
                        | Ok o => Validator.withdrawals_of o
                        | _ => []
                        end) ms).

(** The task's loop is the validator's, and what it syncs is reported on the way. *)
Lemma task_loop_spec f signer now fuel : forall v st s k v' st' n,
  is_u64 s -> s + Z.of_nat fuel < 2 ^ 64 ->
  SyncTask.sync_loop fuel v f signer now st s k = (v', st', Some (Ok n)) ->
  exists ms v1 ws, n = k + Z.of_nat (length ms) /\ served v f s ms /\ process v now ms = Some v1 /\
    st' = SyncTask.on_withdrawals signer now st (withdrawals_in ms ++ ws) /\
    Validator.state v' = Validator.state v1.
Proof.
  unfold is_u64. induction fuel as [|fuel IH]; intros v st s k v' st' n Hs Hb H; cbn [SyncTask.sync_loop] in H; [done|].
  destruct (Validator.sync_one_with_callback v f now s) as [[v1 ws] r] eqn:E.
  pose proof (sync_one_spec v f now s v1 ws r Hs E) as [Hsetup Hr].
  destruct r as [[|]|e|w].
  - destruct Hr as (m & w & Hf & Hm & Ha & Hw & Hws & Hap).
    rewrite u64_add_small in H by (unfold is_u64; lia).
    destruct (IH v1 (SyncTask.on_withdrawals signer now st ws) (s + 1) (k + 1) v' st' n)
      as (ms & v2 & ws2 & Hn & Hserved & Hp & Hst & Hlast); [lia | lia | done |].
    exists (m :: ms), v2, ws2. split_and!; [cbn; lia | | cbn; by rewrite Hap | | done].
    + intros [|i] m'; cbn; [intros [= <-]; by rewrite Z.add_0_r|]. intros Hi.
      destruct (Hserved i m' Hi) as (H1 & H2 & [H3 H4]).
      replace (s + Z.of_nat (S i)) with (s + 1 + Z.of_nat i) by lia. split_and!; [done..|].
      destruct Hsetup as (Hv & _). rewrite Hv in H4. by split.
    + unfold withdrawals_in. cbn [map concat]. rewrite Hw, <- Hws, <- app_assoc, on_withdrawals_app. exact Hst.
  - injection H as <- <- <-. destruct Hr as (_ & -> & ->). exists [], v, []. split_and!; [cbn; lia | by intros i m | done..].
  - injection H as <- <- <-. exists [], v, ws.
    split_and!; [cbn; lia | by intros i m | done | done | apply Hr].
  - done.
Qed.

(** The signing loop moves the validator as [Validator.sync_loop] does. *)
Lemma task_loop_validator f signer now fuel : forall v st s k,
  (fun '(v', _, r) => (v', r)) (SyncTask.sync_loop fuel v f signer now st s k)
  = Validator.sync_loop fuel v f now s k.
Proof.
  induction fuel as [|fuel IH]; intros v st s k; cbn [SyncTask.sync_loop Validator.sync_loop]; [done|].
  unfold Validator.sync_one. destruct (Validator.sync_one_with_callback v f now s) as [[v1 ws] [[|]|e|w]]; done || apply IH.
Qed.

(** The number the initial sync starts at. *)
Definition start_of (last : option Z) : Z := match last with Some s => u64_add s 1 | None => 0 end.

(** C25. The initial sync signs every withdrawal it syncs: when some number has no message yet, it
    returns, with the count of the messages it replayed, in order, from the recorded
    progress on; and for every withdrawal among them the signature endpoint then answers
    200 with a signature of the bridge signer, which verifies over the EIP-191 hash of
    the withdrawal's message id and is filed under that id. *)
Theorem synced_withdrawals_signed fuel v f sg now st last none :
  signer_available (BridgeSigner.key_manager sg) -> Validator.last_sequence v = Ok last ->
  is_u64 (start_of last) -> start_of last + Z.of_nat fuel < 2 ^ 64 ->
  start_of last <= none -> fetch_message f none = Ok None -> none - start_of last < Z.of_nat fuel ->
  (exists v' st' r, SyncTask.sync_to_head_with_signing fuel v f (Some sg) now st = (v', st', Some r)) /\
  (forall v' st' n,
     SyncTask.sync_to_head_with_signing fuel v f (Some sg) now st = (v', st', Some (Ok n)) ->
     exists ms v1, n = Z.of_nat (length ms) /\ served v f (start_of last) ms /\ process v now ms = Some v1 /\
       Validator.last_sequence v' = Validator.last_sequence v1 /\
       forall w, w ∈ withdrawals_in ms -> exists m w', signs sg w' m /\ filed_under w' = filed_under w /\
         forall address bridge chain, SignatureApi.get_signature_handler
           (SignatureApi.mk st' address bridge chain) (filed_under w) = (OK_200, Some m)).
Proof using CL GL.
  intros Hav Hlast Hs Hb Hle Hnone Hfuel. unfold SyncTask.sync_to_head_with_signing. rewrite Hlast.
  fold (start_of last). split.
  - destruct (sync_loop_terminates f now fuel v (start_of last) 0 none) as (v' & r & Hr); [unfold is_u64 in *; lia..|done|lia|].
    rewrite <- (task_loop_validator f (Some sg) now fuel v st) in Hr.
    destruct (SyncTask.sync_loop _ _ _ _ _ _ _ _) as [[v1 st1] r1]. injection Hr as -> ->. eauto.
  - intros v' st' n H. destruct (task_loop_spec f (Some sg) now fuel v st _ 0 v' st' n Hs Hb H)
      as (ms & v1 & ws & Hn & Hserved & Hp & -> & Hst).
    exists ms, v1. split_and!; [lia|done|done|unfold Validator.last_sequence; by rewrite Hst|].
    intros w Hw. destruct (on_withdrawals_signed sg now (withdrawals_in ms ++ ws) st [] Hav) with (w := w)
      as (m & w' & Hg & Hm & He); [by intros ? ?%not_elem_of_nil | by cbn; apply elem_of_app; left |].
    exists m, w'. split_and!; [done..|]. intros address bridge chain.
    unfold SignatureApi.get_signature_handler. cbn [SignatureApi.store].
    assert (starts_with "0x" (filed_under w) = true) as -> by apply starts_with_app. by rewrite Hg.
Qed.

(** ** The status endpoint *)

(** The numbers of fetched messages have their Rust type. *)
Definition typed_batches f : Prop := forall p b,
  fetch_batch_by_path f p = Ok (Some b) ->
  Forall (fun m => is_u64 (SignedMessage.sequence m)) (SignedBatch.messages b).

(** What the task goes through, whatever the fetcher answers at each step; the initial
    sync with enough fuel to end. *)
Inductive task_run signer (v0 : Validator.t) : SyncTask.t -> Prop :=
| run_spawn : task_run signer v0 (SyncTask.spawn v0)
| run_initial fuel f now :
    SyncTask.now_in (SyncTask.initial_sync fuel (SyncTask.spawn v0) f signer now) <> SyncTask.Starting ->
    task_run signer v0 (SyncTask.initial_sync fuel (SyncTask.spawn v0) f signer now)
| run_begin s f :
    task_run signer v0 s -> SyncTask.now_in s = SyncTask.Synced -> task_run signer v0 (SyncTask.begin_loop s f)
| run_step s f now due :
    task_run signer v0 s -> typed_batches f -> task_run signer v0 (SyncTask.turn s f signer now due).

Lemma update_last a n now :
  StatusApi.last_sequence_raw (StatusApi.update_sync_status a (Some n) now) = n.
Proof. done. Qed.

(** The numbers passed to [on_sync] end in the recorded progress. *)
Definition synced_progress v v' (synced : list Z) : Prop :=
  match last synced with
  | Some n => Validator.last_sequence v' = Ok (Some n)
  | None => Validator.last_sequence v' = Validator.last_sequence v
  end.

Lemma record_gap_last (s : StateStore.t) now a b :
  StateStore.last_sequence (fst (StateStore.record_gap s now a b)) = StateStore.last_sequence s.
Proof. unfold StateStore.record_gap. by case_match. Qed.

Lemma sync_one_progress v f now s v' ws r :
  is_u64 s -> Validator.sync_one_with_callback v f now s = (v', ws, r) ->
  Validator.last_sequence v' = match r with Ok true => Ok (Some s) | _ => Validator.last_sequence v end.
Proof.
  intros Hs H. pose proof (sync_one_spec v f now s v' ws r Hs H) as [_ Hr].
  destruct r as [[|]|e|w]; [|by destruct Hr as (_ & -> & _)|unfold Validator.last_sequence; by destruct Hr as [-> _]..].
  destruct Hr as (m & w & _ & Hm & _ & _ & _ & Hap). apply apply_and_record_effect in Hap as [_ Hst].
  unfold Validator.last_sequence. rewrite Hst, Hm. by apply record_sync_last.
Qed.

Lemma probe_u64 f s offs n : Validator.probe f s offs = Some n -> is_u64 n.
Proof.
  induction offs as [|o offs IH]; cbn; [done|]. case_match; [case_match|..]; auto.
  intros [= <-]. apply as_u64_range.
Qed.
Lemma detect_gap_u64 f s n : Validator.detect_gap f s = Some n -> is_u64 n.
Proof.
  unfold Validator.detect_gap. destruct (Validator.probe f s _) as [m|] eqn:E; [intros [= <-]; by eapply probe_u64|].
  repeat case_match; try done. intros [= <-]. apply as_u64_range.
Qed.

Lemma run_turn_progress v f now ls v' ls' ws synced r :
  is_u64 (Validator.next ls) -> Validator.run_turn v f now ls = (v', ls', ws, synced, r) ->
  is_u64 (Validator.next ls') /\ synced_progress v v' synced.
Proof.
  intros Hs H. unfold Validator.run_turn in H.
  destruct (Validator.sync_one_with_callback v f now (Validator.next ls)) as [[v1 ws1] r1] eqn:E.
  pose proof (sync_one_progress _ _ _ _ _ _ _ Hs E) as Hp. unfold synced_progress.
  destruct r1 as [[|]|e|w]; simplify_eq/=; try by split.
  - split; [apply as_u64_range|done].
  - case_match; simplify_eq/=; [|done].
    destruct (Validator.detect_gap f (Validator.next ls)) as [n|] eqn:Eg; simplify_eq/=; [|done].
    destruct (Validator.gap_skip_on_failure v); cbn [negb] in H; simplify_eq/=; [|done].
    pose proof (record_gap_last (Validator.state v1) now (Validator.next ls) n) as Hg.
    destruct (StateStore.record_gap _ _ _ _) as [s' r']. simplify_eq/=.
    split; [by eapply detect_gap_u64|]. unfold Validator.last_sequence in *. cbn. congruence.
Qed.

Lemma synced_progress_cons v v1 v2 n synced :
  Validator.last_sequence v1 = Ok (Some n) -> synced_progress v1 v2 synced -> synced_progress v v2 (n :: synced).
Proof.
  unfold synced_progress. intros H1. destruct synced as [|m l]; [cbn; congruence|]. rewrite last_cons_cons.
  destruct (last (m :: l)) eqn:El; [done|by apply last_None in El].
Qed.

Lemma run_messages_progress now ms : forall v next v' next' ws synced r,
  Forall (fun m => is_u64 (SignedMessage.sequence m)) ms ->
  Validator.run_messages v now next ms = (v', next', ws, synced, r) -> synced_progress v v' synced.
Proof.
  induction ms as [|m ms IH]; intros v next v' next' ws synced r Hty H; cbn [Validator.run_messages] in H.
  - by simplify_eq.
  - apply Forall_cons in Hty as [Hm Hty]. case_match; [by eapply IH|].
    destruct (SignatureVerifier.verify _ m); [|by simplify_eq..].
    pose proof (apply_and_record_state v now m) as Hst.
    destruct (Validator.apply_and_record v now m) as [v1 [u|e|w]]; cbn in Hst; simplify_eq.
    + destruct (Validator.run_messages v1 now _ ms) as [[[[v2 n2] ws2] sy] r2] eqn:E. simplify_eq.
      eapply (synced_progress_cons v v1); [|by eapply IH]. unfold Validator.last_sequence. rewrite Hst.
      by apply record_sync_last.
    + unfold synced_progress, Validator.last_sequence. cbn. by rewrite Hst.
    + unfold synced_progress, Validator.last_sequence. cbn. by rewrite Hst.
Qed.

Lemma batched_turn_progress v f now due bs v' bs' ws synced r :
  typed_batches f -> Validator.run_batched_turn v f now due bs = (v', bs', ws, synced, r) ->
  synced_progress v v' synced.
Proof.
  intros Hty H. unfold Validator.run_batched_turn in H. set (bs1 := if _ || _ then _ else bs) in H.
  destruct (BatchIndex.find_batch_containing _ _) as [info|].
  - destruct (fetch_batch_by_path f (BatchInfo.path info)) as [[b|]| |] eqn:Ef; [|by simplify_eq..].
    destruct (Validator.verify_batch b); [|by simplify_eq..].
    destruct (Validator.run_messages _ _ _ _) as [[[[v1 n1] w1] sy] r1] eqn:Em.
    pose proof (run_messages_progress _ _ _ _ _ _ _ _ _ (Hty _ _ Ef) Em) as Hp.
    by destruct r1; simplify_eq.
  - destruct (BatchIndex.find_first_batch_starting_at_or_after _ _) as [nb|]; [|by simplify_eq].
    destruct (Validator.gap_skip_on_failure v); cbn [negb] in H; [|by simplify_eq].
    pose proof (record_gap_last (Validator.state v) now (Validator.bnext bs1) (BatchInfo.start_sequence nb)) as Hg.
    destruct (StateStore.record_gap _ _ _ _) as [s' [u|e|w]]; simplify_eq; exact Hg.
Qed.

(** The initial sync leaves progress alone exactly when it counts no message. *)
Lemma task_loop_progress f signer now fuel : forall v st s k v' st' n,
  is_u64 s -> SyncTask.sync_loop fuel v f signer now st s k = (v', st', Some (Ok n)) ->
  k <= n /\ (n = k -> Validator.last_sequence v' = Validator.last_sequence v) /\
  (k < n -> exists m, Validator.last_sequence v' = Ok (Some m)).
Proof.
  induction fuel as [|fuel IH]; intros v st s k v' st' n Hs H; cbn [SyncTask.sync_loop] in H; [done|].
  destruct (Validator.sync_one_with_callback v f now s) as [[v1 ws] r] eqn:E.
  pose proof (sync_one_progress _ _ _ _ _ _ _ Hs E) as Hp. destruct r as [[|]|e|w]; simplify_eq.
  - destruct (IH _ _ _ _ _ _ _ (as_u64_range _) H) as (H1 & H2 & H3). split_and!; [lia|lia|]. intros _.
    destruct (decide (n = k + 1)) as [->|Hne]; [rewrite (H2 eq_refl); eauto|apply H3; lia].
  - split_and!; [lia | done | lia].
  - split_and!; [lia | done | lia].
Qed.

(** What the status says against what is recorded: [Some n] is the progress, and "never
    synced" in a loop means that this process has not moved it. *)
Definition status_inv (v0 : Validator.t) (s : SyncTask.t) : Prop :=
  let raw := StatusApi.last_sequence_raw (SyncTask.app s) in
  let v := SyncTask.validator s in
  match SyncTask.now_in s with
  | SyncTask.Starting => raw = StatusApi.NOT_SYNCED
  | SyncTask.Done => raw = StatusApi.NOT_SYNCED \/ Validator.last_sequence v = Ok (Some raw)
  | p =>
      match p with SyncTask.Single ls => is_u64 (Validator.next ls) | _ => True end /\
      StatusApi.is_running (SyncTask.app s) = true /\
      (raw = StatusApi.NOT_SYNCED /\ Validator.last_sequence v = Validator.last_sequence v0 \/
       Validator.last_sequence v = Ok (Some raw))
  end.

Lemma next_sequence_u64 (ss : StateStore.t) n : StateStore.next_sequence ss = Ok n -> is_u64 n.
Proof.
  unfold StateStore.next_sequence. destruct (StateStore.last_sequence ss) as [[m|]| |]; cbn; try done;
    intros [= <-]; [apply as_u64_range | unfold is_u64; lia].
Qed.

Lemma on_syncs_raw app now synced :
  StatusApi.last_sequence_raw (SyncTask.on_syncs app now synced)
  = default (StatusApi.last_sequence_raw app) (last synced) /\
  StatusApi.running (SyncTask.on_syncs app now synced) = StatusApi.running app.
Proof.
  unfold SyncTask.on_syncs. revert app. induction synced as [|n l IH]; intros app; [done|]. cbn [fold_left].
  destruct (IH (StatusApi.update_sync_status app (Some n) now)) as [-> ->]. split; [|done].
  destruct l as [|m l]; [done|]. rewrite last_cons_cons. by destruct (last (m :: l)) eqn:E; [|apply last_None in E].
Qed.

(** A turn of either loop. *)
Lemma after_turn_inv v0 v v' st app now ws signer synced p r :
  StatusApi.is_running app = true ->
  (StatusApi.last_sequence_raw app = StatusApi.NOT_SYNCED /\ Validator.last_sequence v = Validator.last_sequence v0 \/
   Validator.last_sequence v = Ok (Some (StatusApi.last_sequence_raw app))) ->
  synced_progress v v' synced ->
  match p with SyncTask.Single ls => is_u64 (Validator.next ls) | SyncTask.Batched _ => True | _ => False end ->
  status_inv v0 (let s1 := SyncTask.mk v' (SyncTask.on_withdrawals signer now st ws)
                             (SyncTask.on_syncs app now synced) p in
                 match r with Validator.Stop _ => SyncTask.stop s1 | _ => s1 end).
Proof.
  intros Hrun Hraw Hp Hph. destruct (on_syncs_raw app now synced) as [Hr Hr']. unfold synced_progress in Hp.
  assert (Hnew : StatusApi.last_sequence_raw (SyncTask.on_syncs app now synced) = StatusApi.NOT_SYNCED /\
            Validator.last_sequence v' = Validator.last_sequence v0 \/
          Validator.last_sequence v' = Ok (Some (StatusApi.last_sequence_raw (SyncTask.on_syncs app now synced)))).
  { rewrite Hr. destruct (last synced); cbn; [by right|]. by rewrite Hp. }
  unfold StatusApi.is_running in Hrun.
  destruct r; cbn zeta; unfold status_inv; cbn [SyncTask.stop SyncTask.now_in SyncTask.app SyncTask.validator
    StatusApi.set_running StatusApi.last_sequence_raw]; try (destruct Hnew as [[? _]|?]; by auto);
    destruct p; try done; unfold StatusApi.is_running; rewrite Hr'; by split_and!.
Qed.

Lemma task_loop_not_err f signer now fuel : forall v st s k v' st' e,
  SyncTask.sync_loop fuel v f signer now st s k <> (v', st', Some (Err e)).
Proof.
  induction fuel as [|fuel IH]; intros v st s k v' st' e; cbn [SyncTask.sync_loop]; [done|].
  destruct (Validator.sync_one_with_callback v f now s) as [[v2 ws] [[|]|e'|w]]; done || apply IH.
Qed.

Lemma initial_sync_inv signer v0 fuel f now :
  SyncTask.now_in (SyncTask.initial_sync fuel (SyncTask.spawn v0) f signer now) <> SyncTask.Starting ->
  status_inv v0 (SyncTask.initial_sync fuel (SyncTask.spawn v0) f signer now).
Proof.
  unfold SyncTask.initial_sync, SyncTask.sync_to_head_with_signing.
  cbn [SyncTask.spawn SyncTask.validator SyncTask.store SyncTask.app].
  destruct (Validator.last_sequence v0) as [last|e|w] eqn:El; [| |by left].
  - set (s := match last with Some s => u64_add s 1 | None => 0 end).
    assert (Hs : is_u64 s) by (unfold s; destruct last; [apply as_u64_range | unfold is_u64; lia]).
    destruct (SyncTask.sync_loop fuel v0 f signer now SignatureStore.new s 0) as [[v1 st1] [[n|e|w]|]] eqn:E.
    + intros _. destruct (task_loop_progress _ _ _ _ _ _ _ _ _ _ _ Hs E) as (Hle & Heq & Hgt).
      unfold status_inv. cbn [SyncTask.now_in SyncTask.app SyncTask.validator].
      destruct (Z.ltb_spec 0 n) as [Hn|Hn].
      * destruct (Hgt Hn) as [m ->]. cbn. auto.
      * rewrite Heq by lia. by cbn; auto.
    + by apply task_loop_not_err in E.
    + by left.
    + done.
  - intros _. unfold status_inv. cbn. auto.
Qed.

Lemma task_run_inv signer v0 s : task_run signer v0 s -> status_inv v0 s.
Proof.
  induction 1 as [|fuel f now Hph|s f _ IH Hph|s f now due _ IH Hty].
  - done.
  - by apply initial_sync_inv.
  - unfold status_inv in IH. rewrite Hph in IH. destruct IH as (_ & Hrun & Hraw).
    assert (Hstop : status_inv v0 (SyncTask.stop s)) by (cbn; destruct Hraw as [[? _]|?]; auto).
    unfold SyncTask.begin_loop. destruct (Validator.use_batch_mode _ f).
    + destruct (BatchIndex.build (fetch_list f)); [|done..]. destruct (StateStore.next_sequence _); [|done..].
      unfold status_inv. by cbn.
    + destruct (StateStore.next_sequence _) as [n| |] eqn:En; [|done..].
      unfold status_inv. cbn. split; [by eapply next_sequence_u64 | done].
  - unfold SyncTask.turn. unfold status_inv in IH. destruct (SyncTask.now_in s) as [| |ls|bs|] eqn:Ep;
      try (unfold status_inv; by rewrite Ep).
    + destruct IH as (Hu & Hrun & Hraw).
      destruct (Validator.run_turn _ f now ls) as [[[[v1 ls1] ws] sy] r] eqn:E.
      destruct (run_turn_progress _ _ _ _ _ _ _ _ _ Hu E) as [Hu1 Hp].
      by apply (after_turn_inv v0 (SyncTask.validator s)).
    + destruct IH as (_ & Hrun & Hraw).
      destruct (Validator.run_batched_turn _ f now due bs) as [[[[v1 bs1] ws] sy] r] eqn:E.
      pose proof (batched_turn_progress _ _ _ _ _ _ _ _ _ _ Hty E) as Hp.
      by apply (after_turn_inv v0 (SyncTask.validator s)).
Qed.

(** The status endpoint tells the truth about this process: whatever the fetcher
    answers, in any state the sync task reaches, a last sequence it reports is the
    progress the validator has recorded, the next sequence is the one after it, the
    readiness probe answers 200 in the sync loop, and "never synced" there means that the
    recorded progress is still the one the process started with. *)
Theorem status_tells_progress signer v0 s :
  task_run signer v0 s ->
  (forall n, StatusApi.StatusResponse.last_sequence (snd (StatusApi.status_handler (SyncTask.app s))) = Some n ->
     Validator.last_sequence (SyncTask.validator s) = Ok (Some n) /\
     StatusApi.StatusResponse.next_sequence (snd (StatusApi.status_handler (SyncTask.app s))) = u64_add n 1) /\
  (SyncTask.now_in s <> SyncTask.Starting -> SyncTask.now_in s <> SyncTask.Done ->
     fst (StatusApi.ready_handler (SyncTask.app s)) = OK_200 /\
     (StatusApi.StatusResponse.last_sequence (snd (StatusApi.status_handler (SyncTask.app s))) = None ->
      Validator.last_sequence (SyncTask.validator s) = Validator.last_sequence v0 \/
      Validator.last_sequence (SyncTask.validator s) = Ok (Some u64_max))).
Proof.
  intros Hrun%task_run_inv. unfold status_inv in Hrun.
  cbn [StatusApi.status_handler snd StatusApi.StatusResponse.last_sequence StatusApi.StatusResponse.next_sequence].
  unfold StatusApi.next_sequence, StatusApi.last_sequence, StatusApi.ready_handler in *.
  destruct (Z.eqb_spec (StatusApi.last_sequence_raw (SyncTask.app s)) StatusApi.NOT_SYNCED) as [He|Hne].
  - split; [done|]. intros H1 H2. destruct (SyncTask.now_in s); try done;
      destruct Hrun as (_ & -> & Hr); split; try done; intros _;
      (destruct Hr as [[_ ?]|Hr]; [by left | right; by rewrite Hr, He]).
  - split.
    + intros n [= <-]. split; [|done].
      destruct (SyncTask.now_in s); naive_solver.
    + intros H1 H2. destruct (SyncTask.now_in s); try done; by destruct Hrun as (_ & -> & _).
Qed.

(** ** What a restart loses *)

(** Signatures do not survive a restart: a process that starts with progress [n] and finds
    no newer message serves no signature for any id, although the withdrawals up to [n]
    were synced before; and its status says "never synced" while the recorded progress
    is [n]. *)
Theorem restart_forgets_signatures fuel v f signer now n :
  Validator.last_sequence v = Ok (Some n) -> 0 <= n < u64_max -> fetch_message f (n + 1) = Ok None ->
  let s := SyncTask.initial_sync (S fuel) (SyncTask.spawn v) f signer now in
  SyncTask.now_in s = SyncTask.Synced /\
  (forall address bridge chain id, SignatureApi.get_signature_handler
     (SignatureApi.mk (SyncTask.store s) address bridge chain) id = (NOT_FOUND, None)) /\
  StatusApi.StatusResponse.last_sequence (snd (StatusApi.status_handler (SyncTask.app s))) = None /\
  Validator.last_sequence (SyncTask.validator s) = Ok (Some n).
Proof.
  intros Hlast Hn Hnone s. unfold u64_max in Hn.
  assert (Hs : s = SyncTask.mk v SignatureStore.new (StatusApi.set_running StatusApi.new true) SyncTask.Synced).
  { unfold s, SyncTask.initial_sync, SyncTask.sync_to_head_with_signing.
    cbn [SyncTask.spawn SyncTask.validator SyncTask.store SyncTask.app]. rewrite Hlast.
    cbn [SyncTask.sync_loop]. unfold Validator.sync_one_with_callback.
    rewrite u64_add_small by (unfold is_u64; lia). by rewrite Hnone. }
  rewrite Hs. split_and!; [done| |done|done]. intros address bridge chain id.
  unfold SignatureApi.get_signature_handler, SignatureStore.get. cbn. by rewrite lookup_empty.
Qed.
End signing.

(** ** Start-up *)
Section startup_props.
Context `{HX : Hex} `{CR : Crypto} `{SG : !Signer} `{CS : Cose} `{CC : !CoseCodec} `{ZS : Zstd} `{SE : Session}.
Context `{SC : Serde ChangesetBatchRequest.t} `{SN : Serde SnapshotRequest.t} `{SWd : Serde WithdrawalRequest.t}.
Context `{SW : Serde CborBatchWire.t} `{HC : HttpClient} `{HN : HttpNet} `{AT : AddressText}.
Context `{JM : Json SignedMessage.t} `{JL : Json LatestSequenceResponse.t} `{JB : Json (list BatchInfoResponse.t)}.
Context `{JS : FromJson SequencerStatus.t} `{OS : ObjectStore} `{JV : FromJson JsonValue.t}.

(** The validator does not sign with the key it registered: start-up drops the key the
    bootstrap returns, so its outcome is the same whichever key was registered, and the
    bridge signer holds a key drawn afterwards; unless the two draws coincide, its
    address is not the registered one. *)
Theorem registered_key_not_used config key client st applier state pending random fetcher v sg :
  main_start true config (Some (Ok key)) client st applier state pending random = Ok (fetcher, v, Some sg) ->
  BridgeSigner.address sg = signer_address random /\
  (forall key', main_start true config (Some (Ok key')) client st applier state pending random
     = Ok (fetcher, v, Some sg)) /\
  (EvmKeyManager.address key <> signer_address random -> BridgeSigner.address sg <> EvmKeyManager.address key).
Proof.
  intros H.
  assert (Ha : BridgeSigner.address sg = signer_address random).
  { unfold main_start in H.
    destruct (ValidatorConfig.resolve_sequencer_pubkey config) as [pk| |]; cbn [map_err result_bind] in H; [|done..].
    set (c := ValidatorConfig.with_pubkey pk config) in H.
    destruct (ValidatorConfig.validate_bridge_config c); cbn [map_err result_bind] in H; [|done..].
    destruct (check_bootstrap _ _ _); cbn [result_bind] in H; [|done..].
    destruct (AnyFetcher.create_fetcher _ _ _); cbn [result_bind] in H; [|done..].
    destruct (validator_new _ _ _ _); cbn [result_bind] in H; [|done..].
    destruct (ValidatorConfig.is_bridge_signer c); cbn [result_bind] in H; [|done].
    unfold bridge_signer_new in H.
    destruct (ok_or _ (ValidatorConfig.bridge_address_with_local_fallback c)); cbn [result_bind] in H; [|done..].
    destruct (context _ (address_parse _)); cbn [result_bind] in H; [|done..].
    destruct (ok_or _ (ValidatorConfig.bridge_chain_id c)); cbn [result_bind] in H; [|done..].
    by injection H as _ _ <-. }
  split_and!; [done| |congruence]. intros key'. rewrite <- H. reflexivity.
Qed.
End startup_props.
