(* ===== verification/AttestWitnesses.v ===== *)
(** * An executable instance of the attestation interfaces, and concrete runs

    The EVM precompiles, the ABI codecs and a JSON reader for the attestation token,
    with their laws proved; a token, a key set, a deployment and a network on them, to
    which the theorems about the contract, the guest and the bootstrap client are
    applied. *)
From Stdlib Require Import Ascii Strings.Byte.
From S2P Require Import Prelude RustStd Base64 Extern Net Reference SignedTypes Inbox Jwt Stylus StylusProps.
From S2P Require Import BootClients Bootstrap BootProps AttestProps.
Import StylusAttestationVerifier.

(** ** Precompiles *)

Definition ref_modexp (input : bytes) : bytes :=
  let len k := Z.to_nat (from_be_bytes 0 (take 32 (drop (32 * k) input))) in
  let b := take (len 0%nat) (drop 96 input) in
  let e := take (len 1%nat) (drop (96 + len 0%nat) input) in
  let m := take (len 2%nat) (drop (96 + len 0%nat + len 1%nat) input) in
  to_be_bytes (length m) (from_be_bytes 0 b ^ from_be_bytes 0 e mod from_be_bytes 0 m).

(** The recovered address stands for the first twenty bytes of [r]. *)
#[export] Instance ref_evm : Evm := fun addr input =>
  if decide (addr = SHA256_PRECOMPILE) then Some (sha256 input) else
  if decide (addr = MODEXP_PRECOMPILE) then Some (ref_modexp input) else
  if decide (addr = ECRECOVER) then Some (replicate 12 x00 ++ take 20 (drop 64 input)) else None.

(** A slice at a known offset of a concatenation. *)
Lemma slice {A} (l1 l2 l3 : list A) n k :
  n = length l1 -> k = length l2 -> take k (drop n (l1 ++ l2 ++ l3)) = l2.
Proof. intros -> ->. by rewrite drop_app_length, take_app_length. Qed.

Lemma ref_modexp_eq b e m :
  Z.of_nat (length b) < 2 ^ 32 -> Z.of_nat (length e) < 2 ^ 32 -> Z.of_nat (length m) < 2 ^ 32 ->
  ref_modexp (to_be_bytes 32 (Z.of_nat (length b)) ++ to_be_bytes 32 (Z.of_nat (length e))
       ++ to_be_bytes 32 (Z.of_nat (length m)) ++ b ++ e ++ m) =
  to_be_bytes (length m) (from_be_bytes 0 b ^ from_be_bytes 0 e mod from_be_bytes 0 m).
Proof.
  intros Hb He Hm. unfold ref_modexp.
  pose proof (length_to_be_bytes 32 (Z.of_nat (length b))) as Hlb.
  pose proof (length_to_be_bytes 32 (Z.of_nat (length e))) as Hle.
  pose proof (length_to_be_bytes 32 (Z.of_nat (length m))) as Hlm.
  pose proof (from_to_be_bytes 32 (Z.of_nat (length b)) ltac:(cbn; lia)) as Hvb.
  pose proof (from_to_be_bytes 32 (Z.of_nat (length e)) ltac:(cbn; lia)) as Hve.
  pose proof (from_to_be_bytes 32 (Z.of_nat (length m)) ltac:(cbn; lia)) as Hvm.
  set (lb := to_be_bytes 32 (Z.of_nat (length b))) in *. clearbody lb.
  set (le := to_be_bytes 32 (Z.of_nat (length e))) in *. clearbody le.
  set (lm := to_be_bytes 32 (Z.of_nat (length m))) in *. clearbody lm.
  set (input := lb ++ le ++ lm ++ b ++ e ++ m).
  assert (I1 : forall n k x r p, input = p ++ x ++ r -> n = length p -> k = length x ->
    take k (drop n input) = x) by (intros n k x r p -> -> ->; apply slice; done).
  assert (E0 : take 32 (drop (32 * 0) input) = lb) by (by eapply (I1 _ _ _ _ [])).
  assert (E1 : take 32 (drop (32 * 1) input) = le) by (by eapply (I1 _ _ _ _ lb)).
  assert (E2 : take 32 (drop (32 * 2) input) = lm).
  { eapply (I1 _ _ _ (b ++ e ++ m) (lb ++ le)); [by rewrite <- app_assoc|rewrite length_app; lia|done]. }
  rewrite E0, E1, E2, Hvb, Hve, Hvm, !Nat2Z.id.
  rewrite (I1 96%nat _ b (e ++ m) (lb ++ le ++ lm));
    [|by rewrite <- !app_assoc|rewrite !length_app; lia|done].
  rewrite (I1 (96 + length b)%nat _ e m (lb ++ le ++ lm ++ b));
    [|by rewrite <- !app_assoc|rewrite !length_app; lia|done].
  rewrite (I1 (96 + length b + length e)%nat _ m [] (lb ++ le ++ lm ++ b ++ e)); [done| |rewrite !length_app; lia|done].
  by rewrite app_nil_r, <- !app_assoc.
Qed.

#[export] Instance ref_evm_laws : EvmLaws.
Proof.
  constructor.
  - intros d. unfold static_call, ref_evm. by rewrite decide_True.
  - intros b e m Hb He Hm Hp. unfold static_call, ref_evm.
    rewrite decide_False by done. rewrite decide_True by done. by rewrite ref_modexp_eq.
Qed.

(** ** ABI codecs *)

Lemma concat_slot (ls : list bytes) k s :
  Forall (fun l => length l = 32%nat) ls -> ls !! k = Some s ->
  take 32 (drop (32 * k) (concat ls)) = s.
Proof.
  revert k. induction ls as [|l ls IH]; intros k HF Hk; [done|].
  apply Forall_cons in HF as [Hl HF]. destruct k as [|k]; cbn in Hk.
  - injection Hk as ->. cbn [concat]. change (32 * 0)%nat with 0%nat. by rewrite drop_0, take_app_length'.
  - cbn [concat]. replace (32 * S k)%nat with (length l + 32 * k)%nat by lia.
    rewrite drop_app_add. by apply IH.
Qed.

Definition slot (b : bytes) (k : nat) : bytes := take 32 (drop (32 * k) b).
Definition slot_int (b : bytes) (k : nat) : Z := from_be_bytes 0 (slot b k).

Definition ref_abi_decode (b : bytes) : option PublicValues.t :=
  if bool_decide (length b = 352%nat) && (slot_int b 1 <=? u64_max) && (slot_int b 2 <=? u64_max)
     && (slot_int b 8 <=? 255)
  then Some (PublicValues.mk (slot b 0) (slot_int b 1) (slot_int b 2) (slot b 3) (drop 12 (slot b 4))
               (slot_int b 5 =? 1) (slot_int b 6 =? 1) (slot b 7) (slot_int b 8) (slot b 9) (slot b 10))
  else None.

#[export] Instance ref_public_values_abi : PublicValuesAbi :=
  {| abi_encode := abi_slots; abi_decode := ref_abi_decode |}.

Definition slot_list (v : PublicValues.t) : list bytes := [
  PublicValues.jwk_key_hash v; to_be_bytes 32 (PublicValues.validity_window_start v);
  to_be_bytes 32 (PublicValues.validity_window_end v); PublicValues.image_digest_hash v;
  replicate 12 x00 ++ PublicValues.tee_signing_key v;
  to_be_bytes 32 (abi_bool (PublicValues.secboot v));
  to_be_bytes 32 (abi_bool (PublicValues.dbgstat_disabled v)); PublicValues.audience_hash v;
  to_be_bytes 32 (PublicValues.image_signature_v v); PublicValues.image_signature_r v;
  PublicValues.image_signature_s v].

Lemma slot_list_concat v : concat (slot_list v) = abi_slots v.
Proof. unfold slot_list, abi_slots. cbn [concat]. by rewrite app_nil_r, <- app_assoc. Qed.

Lemma slot_list_length v : PublicValues.valid v -> Forall (fun l => length l = 32%nat) (slot_list v).
Proof.
  intros (? & ? & ? & ? & ? & ? & ? & ? & ?).
  unfold slot_list. repeat (apply Forall_cons_2; [rewrite ?length_to_be_bytes, ?length_app, ?length_replicate; lia|]).
  apply Forall_nil_2.
Qed.

Lemma from_be_bytes_bounds l : forall acc,
  0 <= acc -> 0 <= from_be_bytes acc l < (acc + 1) * 256 ^ Z.of_nat (length l).
Proof.
  induction l as [|b l IH]; intros acc Ha; cbn [from_be_bytes length]; [lia|].
  pose proof (Z_of_byte_range b). specialize (IH (256 * acc + Z_of_byte b) ltac:(lia)).
  replace (Z.of_nat (S (length l))) with (Z.of_nat (length l) + 1) by lia.
  rewrite Z.pow_add_r by lia. nia.
Qed.

#[export] Instance ref_public_values_laws : PublicValuesAbiLaws.
Proof.
  constructor; [done| |].
  - intros v Hv. pose proof (slot_list_length v Hv) as HF. cbn [abi_encode abi_decode ref_public_values_abi].
    pose proof Hv as (? & ? & ? & ? & ? & ? & ? & ? & ?). unfold ref_abi_decode, slot_int, slot.
    rewrite <- slot_list_concat.
    repeat match goal with |- context [take 32 (drop (32 * ?k) (concat (slot_list v)))] =>
      rewrite (concat_slot _ k _ HF eq_refl) end.
    rewrite !from_to_be_bytes
      by (unfold is_u64, u64_max, abi_bool in *; try case_match; cbn; lia).
    unfold is_u64, u64_max in *. rewrite (proj2 (Z.leb_le (PublicValues.validity_window_start v) _)) by lia.
    rewrite (proj2 (Z.leb_le (PublicValues.validity_window_end v) _)) by lia.
    rewrite (proj2 (Z.leb_le (PublicValues.image_signature_v v) _)) by lia. rewrite !andb_true_r.
    assert (Hb : forall b, (abi_bool b =? 1) = b) by (by intros []). rewrite !Hb.
    change (drop 12 _) with (PublicValues.tee_signing_key v).
    rewrite bool_decide_true; [by destruct v|].
    clear -HF. do 11 (apply Forall_cons in HF as [? HF]). unfold slot_list. cbn [concat].
    rewrite !length_app in *. cbn [length] in *. lia.
  - intros b v H. change (ref_abi_decode b = Some v) in H. unfold ref_abi_decode in H.
    match type of H with (if ?c then _ else _) = _ => destruct c eqn:Ec; [|done] end.
    injection H as <-. bool_to_prop.
    assert (Hs : forall k, (k <= 10)%nat -> length (slot b k) = 32%nat)
      by (intros; unfold slot; rewrite length_take, length_drop; lia).
    assert (Hz : forall k, 0 <= slot_int b k) by (intros; apply (from_be_bytes_bounds _ 0); lia).
    unfold PublicValues.valid, is_u64, u64_max in *. cbn -[slot slot_int Z.pow drop]. rewrite length_drop, !Hs by lia.
    pose proof (Hz 1%nat). pose proof (Hz 2%nat). pose proof (Hz 8%nat). split_and!; lia.
Qed.

Definition proof_data_codec : codec (bytes * (bytes * bytes)) :=
  pair_codec bytes_codec (pair_codec bytes_codec bytes_codec).
#[export] Instance ref_proof_data_abi : ProofDataAbi := {|
  proof_data_encode p := enc proof_data_codec
    (StylusProofData.jwt p, (StylusProofData.jwk_modulus p, StylusProofData.jwk_exponent p));
  proof_data_decode b := match dec proof_data_codec b with
    | Some ((j, (m, e)), []) => Some (StylusProofData.mk j m e)
    | _ => None
    end;
|}.
#[export] Instance ref_proof_data_laws : ProofDataAbiLaws.
Proof. intros []. cbn [proof_data_decode proof_data_encode ref_proof_data_abi]. by rewrite dec_enc_nil. Qed.


(** ** JSON: flat objects, read by member *)

(** Quotes are written as apostrophes. *)
Definition json_text (s : string) : bytes :=
  map (fun b => if decide (b = "'"%byte) then b_quote else b) (as_bytes s).
Definition member (b : bytes) (k : string) : option string :=
  string_of_bytes <$> json_get_string b (as_bytes k).
Definition number (b : bytes) (k : string) : option Z := json_get_u64 b (as_bytes k).
Definition of_option {A} (o : option A) : result string A := ok_or "missing member"%string o.

#[export] Instance ref_json_header : FromJson JwtHeader.t := fun b =>
  of_option (a ← member b "alg"; k ← member b "kid"; Some (JwtHeader.mk a k (member b "typ"))).
#[export] Instance ref_json_claims : FromJson GcpCsClaims.t := fun b =>
  of_option (iss ← member b "iss"; aud ← member b "aud"; exp ← number b "exp"; iat ← number b "iat";
    Some (GcpCsClaims.mk iss (default EmptyString (member b "sub")) aud exp iat (default 0 (number b "nbf"))
      (default false (json_get_bool b (as_bytes "secboot"))) (member b "hwmodel") (member b "swname")
      (member b "dbgstat") (member b "eat_nonce")
      (Some (SubMods.mk (Some (ContainerInfo.mk (member b "image_digest") (member b "image_reference"))))))).
#[export] Instance ref_json_client_header : FromJson ClientJwtHeader.t := fun b =>
  of_option (k ← member b "kid"; a ← member b "alg"; Some (ClientJwtHeader.mk k a)).
#[export] Instance ref_json_client_claims : FromJson JwtClaims.t := fun b =>
  of_option (aud ← member b "aud"; iat ← number b "iat"; exp ← number b "exp";
    Some (JwtClaims.mk aud iat exp (json_get_bool b (as_bytes "secboot")) (member b "dbgstat")
      (Some (JwtSubmods.mk (Some (JwtContainer.mk (member b "image_digest"))))))).
#[export] Instance ref_json_jwks : FromJson JwksResponse.t := fun b =>
  of_option (k ← member b "kid"; n ← member b "n"; e ← member b "e";
    Some (JwksResponse.mk [JwkKeyResponse.mk k n e])).
#[export] Instance ref_json_proof : FromJson ProofResponse.t := fun b =>
  of_option (v ← member b "public_values"; p ← member b "proof_bytes"; t ← member b "tee_address";
    Some (ProofResponse.mk v p t)).
#[export] Instance ref_json_proof_request : ToJson ProofRequest.t := fun r =>
  as_bytes (ProofRequest.jwt_token r).

#[export] Instance ref_claims_agree : ClaimsAgree.
Proof.
  constructor; unfold from_slice.
  - intros b h h'. unfold ref_json_header, ref_json_client_header, of_option.
    destruct (member b "alg"), (member b "kid"); cbn; intros [= <-] [= <-]; done.
  - intros b c c'. unfold ref_json_claims, ref_json_client_claims, of_option.
    destruct (member b "iss"), (member b "aud"), (number b "exp"), (number b "iat"); cbn;
      intros [= <-] [= <-]; done.
Qed.

(** RSA over integers, with the contract's own padding check. *)
#[export] Instance ref_rsa : Rsa := {|
  RsaPublicKey := (Z * Z)%type;
  RsaSignature := bytes;
  rsa_public_key_new n e := Ok (n, e);
  rsa_sig_try_from b := Ok b;
  rsa_verify k msg sg :=
    if verify_pkcs1v15_sha256 (to_be_bytes (length sg) (from_be_bytes 0 sg ^ snd k mod fst k)) (sha256 msg)
    then Ok tt else Err "verification error"%string;
|}.

(** ** The token *)
Definition dot_join (h p : bytes) : bytes := base64url_encode h ++ [b_dot] ++ base64url_encode p.
Definition ex_header : bytes := json_text "{'alg':'RS256','kid':'k1'}".
Definition ex_payload : bytes := json_text
  "{'iss':'https://confidentialcomputing.googleapis.com','aud':'app','exp':2000,'iat':1000,'secboot':true,'dbgstat':'disabled-since-boot','submods':{'container':{'image_digest':'sha256:aa'}}}".
Definition ex_input : bytes := dot_join ex_header ex_payload.
Definition ex_modulus : bytes := replicate 62 xff.
Definition ex_exponent : bytes := [x01].
Definition ex_rsa_sig : bytes := emsa_pkcs1v15_sha256 8 (sha256 ex_input).
Definition ex_token : string := string_of_bytes (ex_input ++ [b_dot] ++ base64url_encode ex_rsa_sig).
Definition ex_jwk : JwkKey.t :=
  JwkKey.mk None "k1" "RSA" (string_of_bytes (base64url_encode ex_modulus))
            (string_of_bytes (base64url_encode ex_exponent)) None.

(** The key set, as served. *)
Definition ex_jwks : bytes :=
  json_text "{'kid':'k1','n':'" ++ base64url_encode ex_modulus ++ json_text "','e':'"
  ++ base64url_encode ex_exponent ++ json_text "'}".
Definition no_route : NetError.t := NetError.mk "no route" false true false.
#[export] Instance jwks_net : HttpNet := {|
  http_get url _ _ := if decide (url = "jwks"%string) then Response 200 (Ok ex_jwks) else SendError no_route;
  http_post _ _ _ _ := SendError no_route;
  client_build := Ok tt;
  status_display := int_to_string;
  body_text := string_of_bytes;
|}.
#[export] Instance ref_address_text : AddressText := {|
  address_display b := hex0x b;
  address_parse s := hex_decode (strip_prefix_or_self "0x" s);
|}.
Definition ex_client : ProofClient.t := ProofClient.mk EmptyString 1200 10 StylusMode "jwks".
Definition ex_pk : bytes := replicate 64 x05.
Definition ex_signer : bytes := replicate 20 x09.
Definition ex_image_sig : bytes := ex_signer ++ replicate 44 x03 ++ [x1b].

(** ** The deployment *)
Definition ex_owner : bytes := replicate 20 x0a.
Definition ex_calls : list Call := [
  Initialize 60;
  AddTrustedJwk (keccak256 (as_bytes "k1")) (keccak256 (ex_modulus ++ ex_exponent));
  AddAllowedImageDigestHash (keccak256 (as_bytes "sha256:aa"));
  AddTrustedImageSigner ex_signer].
Definition run_calls (l : list Call) (s : t * list Event) : t * list Event :=
  fold_left (fun s call => match exec ex_owner s.1 call with
                           | Ok (c', evs) => (c', s.2 ++ evs)
                           | _ => s
                           end) l s.
Definition ex_chain : t * list Event := Eval vm_compute in run_calls ex_calls (deployed, []).
Definition ex_contract : t := fst ex_chain.

Lemma run_calls_steps l s : rtc chain_step s (run_calls l s).
Proof.
  unfold run_calls. revert s. induction l as [|call l IH]; intros [c log]; [apply rtc_refl|].
  cbn [fold_left fst snd]. destruct (exec ex_owner c call) as [[c' evs]|e|w] eqn:E; [| |apply IH].
  - eapply rtc_l; [|apply IH]. apply (tx_ok ex_owner call); [vm_compute; discriminate|exact E].
  - eapply rtc_l; [exact (tx_reverted ex_owner call c log e E)|apply IH].
Qed.

(** ** The contract *)

Lemma verify_rs256_exact_witness : verify_rs256 ex_input ex_rsa_sig ex_modulus ex_exponent = Ok tt.
Proof.
  apply (verify_rs256_exact ex_input ex_rsa_sig ex_modulus ex_exponent);
    [vm_compute; reflexivity..|]. split; [cbn; lia|]. vm_compute. reflexivity.
Defined.

Lemma storage_follows_log_witness :
  exists c log, follows c log /\ length log = 3%nat /\ initialized c = true.
Proof.
  exists ex_chain.1, ex_chain.2. split; [|done]. apply storage_follows_log.
  exact (run_calls_steps ex_calls (deployed, [])).
Defined.

Lemma non_owner_reverts_witness :
  exists e, exec (replicate 20 x0b) ex_contract (TransferOwnership (replicate 20 x0b)) = Err e.
Proof. by apply non_owner_reverts. Defined.

Definition ex_values : PublicValues.t :=
  PublicValues.mk (keccak256 (as_bytes "k1")) 1000 2000 (keccak256 (as_bytes "sha256:aa"))
    (evm_address ex_pk) true true (keccak256 (as_bytes "app")) 27 (take 32 ex_image_sig)
    (take 32 (drop 32 ex_image_sig)).
Definition ex_proof : bytes :=
  proof_data_encode (StylusProofData.mk (as_bytes ex_token) ex_modulus ex_exponent).

Lemma tee_signing_key_not_bound_witness :
  verify_attestation_proof ex_contract 1500 (abi_encode (with_key ex_values (replicate 20 x66))) ex_proof =
    Ok (replicate 20 x66).
Proof.
  apply (tee_signing_key_not_bound ex_contract 1500 ex_values ex_proof (replicate 20 x66)).
  - unfold PublicValues.valid, is_u64. vm_compute. intuition congruence.
  - reflexivity.
  - vm_compute. reflexivity.
Defined.

(** ** Guest, client and contract on the same token *)

Lemma contract_reads_same_token_witness :
  exists j, stylus_parse_jwt (as_bytes ex_token) = Ok j /\ StylusJwt.payload_json j = ex_payload.
Proof.
  destruct (parse_jwt (as_bytes ex_token)) as [p| |] eqn:E;
    [|vm_compute in E; discriminate E..].
  destruct (contract_reads_same_token ex_token p E) as (j & Hj & _). exists j. split; [done|].
  vm_compute in Hj. by injection Hj as <-.
Defined.

Definition get_ok {E A} (d : A) (r : result E A) : A := match r with Ok a => a | _ => d end.
Definition ex_journal : bytes := Eval vm_compute in
  get_ok [] (guest_main (as_bytes ex_token) ex_jwk "app" ex_pk ex_image_sig).

Lemma client_values_are_journal_witness :
  exists r, ProofClient.generate_stylus_proof ex_client ex_token "app" ex_pk ex_image_sig 0 = Ok r /\
    ProofResponse.public_values r = hex0x ex_journal /\ length ex_journal = 352%nat.
Proof.
  destruct (ProofClient.generate_stylus_proof ex_client ex_token "app" ex_pk ex_image_sig 0) as [r| |] eqn:E;
    [|vm_compute in E; discriminate E..].
  exists r. split; [done|]. split; [|reflexivity].
  apply (client_values_are_journal ex_client ex_token "app" ex_jwk ex_pk ex_image_sig ex_journal 0 r);
    [vm_compute; reflexivity|exact E].
Defined.

Definition ex_inputs : stylus_inputs :=
  Build_stylus_inputs (get_ok (ClientJwtHeader.mk EmptyString EmptyString) (from_slice ex_header))
    (get_ok (JwtClaims.mk EmptyString 0 0 None None None) (from_slice ex_payload))
    "sha256:aa" ex_modulus ex_exponent ex_header ex_payload.

Lemma ex_reads : stylus_reads ex_client ex_token "app" ex_image_sig 0 ex_inputs.
Proof.
  exists (string_of_bytes (base64url_encode ex_header)), (string_of_bytes (base64url_encode ex_payload)),
    (string_of_bytes (base64url_encode ex_rsa_sig)),
    (JwkKeyResponse.mk "k1" (string_of_bytes (base64url_encode ex_modulus))
       (string_of_bytes (base64url_encode ex_exponent))).
  split_and!; vm_compute; reflexivity.
Qed.

(** A member of a compact document, where the scan for its name ends. *)
Lemma member_here json key value rest p :
  find_subsequence json (key_pattern key) = Some p ->
  drop (p + length (key_pattern key)) json = b_colon :: value ++ rest -> member_text json key value rest.
Proof.
  intros Hp Hd. pose proof (find_subsequence_spec json (key_pattern key) 0 ltac:(done)) as H.
  rewrite drop_0, Hp in H. cbn [Nat.add] in H. destruct H as [Ho Hb].
  exists (take p json), [], []. split_and!; [|done|done|].
  - cbn [app]. rewrite <- Hd, <- Ho at 1. unfold occurs in Ho. rewrite Ho.
    rewrite <- Ho at 1. by rewrite <- drop_drop, take_drop, take_drop.
  - intros q Hq. apply Hb. rewrite length_take in Hq. lia.
Qed.
Lemma string_here json key v p rest :
  forallb (fun b => negb (bool_decide (b = b_quote))) v = true -> last v <> Some b_backslash ->
  find_subsequence json (key_pattern key) = Some p ->
  drop (p + length (key_pattern key)) json = b_colon :: ([b_quote] ++ v ++ [b_quote]) ++ rest -> string_member json key v.
Proof.
  intros Hv Hl Hp Hd. split; [|split; [done|]].
  - apply Forall_forall. intros b Hb ->. rewrite forallb_forall in Hv. apply list_elem_of_In, Hv in Hb.
    by rewrite bool_decide_true in Hb.
  - exists rest. by eapply member_here.
Qed.
Ltac string_here :=
  eapply string_here; [vm_compute; reflexivity|vm_compute; discriminate|vm_compute; reflexivity|vm_compute; reflexivity].
Ltac number_here ds :=
  exists ds; eexists; split; [discriminate|]; split; [repeat constructor|]; split; [vm_compute; reflexivity|];
  split; [|eapply member_here; vm_compute; reflexivity]; intros b [= <-]; reflexivity.

Lemma ex_plain : plain_text ex_inputs.
Proof.
  constructor; try string_here.
  - number_here (as_bytes "1000").
  - number_here (as_bytes "2000").
  - eexists. eapply member_here; vm_compute; reflexivity.
Qed.

Lemma ex_trusted : trusted_by ex_contract 1500 ex_image_sig ex_inputs.
Proof.
  constructor.
  - vm_compute. reflexivity.
  - vm_compute. reflexivity.
  - split; vm_compute; discriminate.
  - vm_compute. reflexivity.
  - vm_compute. reflexivity.
  - vm_compute. reflexivity.
  - exists ex_signer. split_and!; [vm_compute; reflexivity|reflexivity|vm_compute; discriminate|vm_compute; reflexivity].
Qed.

Lemma ex_rs256 : rs256_signature ex_input ex_rsa_sig ex_modulus ex_exponent.
Proof. split; [cbn; lia|]. vm_compute. reflexivity. Qed.

Lemma stylus_proof_accepted_witness :
  exists values proof,
    ProofClient.generate_stylus_proof ex_client ex_token "app" ex_pk ex_image_sig 0 =
      Ok (ProofResponse.mk (hex0x (abi_encode values)) (hex0x (proof_data_encode proof))
                           (address_display (evm_address ex_pk))) /\
    verify_attestation_proof ex_contract 1500 (abi_encode values) (proof_data_encode proof) =
      Ok (evm_address ex_pk).
Proof.
  apply (stylus_proof_accepted ex_contract 1500 ex_client ex_token "app"
    (string_of_bytes (base64url_encode ex_header)) (string_of_bytes (base64url_encode ex_payload))
    (string_of_bytes (base64url_encode ex_rsa_sig)) ex_pk ex_image_sig ex_rsa_sig 0 ex_inputs).
  - apply ex_reads.
  - vm_compute. reflexivity.
  - vm_compute. reflexivity.
  - vm_compute. reflexivity.
  - split; vm_compute; [discriminate|reflexivity].
  - split; vm_compute; [discriminate|reflexivity].
  - exact ex_plain.
  - split_and!; vm_compute; reflexivity.
  - exact ex_rs256.
  - exact ex_trusted.
Defined.
