(* ===== verification/RegWitnesses.v ===== *)
(** * Concrete runs of the bootstrap and of the relayer

    A deployment with a mock prover on which the whole bootstrap succeeds, a
    registration carried to the chain, an allowlist with a typing error, and a
    withdrawal with its stored signature. *)
From Stdlib Require Import Ascii Strings.Byte.
From S2P Require Import Prelude RustStd Extern Net Reference SignedTypes StateStore Jwt Stylus Inbox.
From S2P Require Import Bridge BootClients Bootstrap BootProps AttestWitnesses Relayer RelayerProps.

(** ** The world around the bootstrap *)
#[local] Instance boot_net : HttpNet := {|
  http_get url _ _ := if starts_with METADATA_URL url then Response 200 (Ok (as_bytes "id-token"))
                      else SendError no_route;
  http_post _ _ _ n := if Nat.eqb n 1 then SendError no_route
                       else Response 200 (Ok (json_text "{'tx_hash':'0x01'}"));
  client_build := Ok tt;
  status_display := int_to_string;
  body_text := string_of_bytes;
|}.
#[local] Instance boot_rpc : Rpc := {|
  url_parse _ := Ok tt;
  rpc_tee_key_manager _ _ _ := Ok (replicate 20 x77);
  rpc_is_key_valid _ _ _ _ n := if Nat.ltb n 2 then Err "InvalidPublicKey"%string else Ok true;
  rpc_get_balance _ _ := Ok 0;
  rpc_get_gas_price _ := Ok 1;
  rpc_send_eth _ _ _ _ := Ok [];
  rpc_receipt _ _ _ := Ok (Some true);
  elapsed_ms i := 2000 * Z.of_nat i;
|}.
#[local] Instance boot_socket : TeeSocket := {|
  socket_exists := true;
  socket_post _ _ := Ok (200, Ok (as_bytes ex_token));
|}.
#[export] Instance ref_json_attestation : FromJson AttestationResponse.t := fun b =>
  of_option (AttestationResponse.mk <$> member b "token").
#[export] Instance ref_json_attestation_request : ToJson AttestationRequest.t := fun r =>
  as_bytes (AttestationRequest.audience r).
#[export] Instance ref_json_register : ToJson RegisterKeyRequest.t := fun r =>
  as_bytes (RegisterKeyRequest.public_values r).
#[export] Instance ref_json_registered : FromJson RegisterKeyResponse.t := fun b =>
  Ok (RegisterKeyResponse.mk (member b "registered_key") (member b "tx_hash") (member b "error")).

Definition ex_boot_config : BootstrapConfig.t :=
  BootstrapConfig.mk true (Some "0x0b"%string) (Some "rpc"%string) (Some 10) (Some "relayer"%string) Mock
    None None 1200 10 1800 3 3 5 180 (Some (hex0x ex_image_sig)) "jwks".

Definition ex_key : @PrivateKeySigner ref_crypto ref_signer := 42.

(** The first registration attempt and the first lookup fail; the bootstrap is ready. *)
Definition ex_run :=
  BootstrapStateMachine.run BootstrapStateMachine.for_sequencer ex_boot_config ex_key
    100 (fun n => 100 + Z.of_nat n).

Example bootstrap_example :
  BootstrapStateMachine.state (fst ex_run) = Ready /\ is_ok (snd ex_run) = true /\
  BootstrapStateMachine.tee_address (fst ex_run) = Some (signer_address ex_key).
Proof. vm_compute. auto. Qed.

Lemma bootstrap_never_failed_witness :
  BootstrapStateMachine.last_error (fst ex_run) =
    BootstrapStateMachine.last_error BootstrapStateMachine.for_sequencer /\
  BootstrapStateMachine.state (fst ex_run) <> Failed.
Proof.
  pose proof (bootstrap_never_failed BootstrapStateMachine.for_sequencer ex_boot_config ex_key
    100 (fun n => 100 + Z.of_nat n) ltac:(discriminate)) as H. cbv zeta in H. exact H.
Defined.

(** ** The relayer *)
#[local] Instance toy_relay_rpc : RelayRpc := {|
  relay_url_parse _ := Ok tt;
  relay_tee_key_manager _ _ := Ok (replicate 20 x77);
  relay_is_key_valid _ _ _ _ := Err "InvalidPublicKey"%string;
  relay_register _ _ _ := Ok (replicate 32 x01);
  relay_withdraw _ _ _ := Ok (replicate 32 x02);
  relay_receipt _ _ _ := Ok (Some true);
  relay_elapsed_ms i := 2000 * Z.of_nat i;
  signer_from_slice _ := Ok tt;
|}.

Definition ex_relayer_client : RelayerClient.t := RelayerClient.mk "relayer" (replicate 20 x77) 10.
Definition ex_app : ApplicationConfig.t :=
  ApplicationConfig.mk "app" [PublicValues.image_digest_hash ex_values].
Definition ex_relayer_config : RelayerConfig.t :=
  RelayerConfig.mk "rpc" 10 (replicate 20 x0b) "0x" "addr" 120 None
    {[PublicValues.audience_hash ex_values := ex_app]}.
Definition ex_submitter : RelayerSubmitter.t :=
  RelayerSubmitter.mk "rpc" (replicate 20 x0b) (replicate 20 x77) 120.

Definition ex_req : RegisterKeyRequest.t := Eval vm_compute in
  get_ok (RegisterKeyRequest.mk EmptyString EmptyString 0 EmptyString Sequencer)
    (RelayerClient.registration_request ex_relayer_client ex_key
      (hex0x (abi_encode ex_values)) (hex0x ex_proof) Sequencer 1000).

Lemma ex_values_valid : PublicValues.valid ex_values.
Proof. unfold PublicValues.valid, is_u64. vm_compute. intuition congruence. Qed.

Lemma registration_reaches_chain_witness :
  exists tx,
    (register_key ex_relayer_config ex_submitter (received ex_req) 1001).1 = [tx] /\
    RegisterTx.public_values tx = abi_encode ex_values /\ signed_by ex_relayer_client ex_key tx.
Proof.
  destruct (registration_reaches_chain ex_relayer_client ex_key ex_values ex_proof
      Sequencer 1000 ex_req ex_relayer_config ex_submitter 1001 ex_app) as (tx & Htx & Hv & _ & _ & _ & Hs).
  - vm_compute. reflexivity.
  - apply ex_values_valid.
  - unfold is_u64. lia.
  - unfold is_u64. lia.
  - lia.
  - vm_compute. reflexivity.
  - apply list_elem_of_here.
  - reflexivity.
  - vm_compute. reflexivity.
  - exists tx. split; [exact Htx|split; [exact Hv|exact Hs]].
Defined.

(** An entry with a stray character. *)
Definition ex_cli : CliConfig.t :=
  CliConfig.mk None (Some "rpc"%string) (Some 10) (Some (replicate 20 x0b))
    (Some (hex0x (replicate 32 x07))) "addr" 120 (Some "app"%string) (Some "0xzz"%string) None.

Definition ex_bad_config : RelayerConfig.t := Eval vm_compute in
  get_ok ex_relayer_config (RelayerConfig.from_env ex_cli).

Lemma malformed_allowlist_allows_all_witness :
  RelayerConfig.is_digest_allowed ex_bad_config (compute_audience_hash "app") (replicate 32 x66) = true.
Proof.
  apply (malformed_allowlist_allows_all ex_cli ex_bad_config "0xzz");
    [vm_compute; reflexivity|reflexivity|discriminate|repeat constructor|].
  exists (ApplicationConfig.mk "app" []). vm_compute. reflexivity.
Defined.

(** ** A withdrawal *)
Definition ex_message_id : string := hex0x (replicate 32 x04).
Definition ex_stored : MessageSignature.t := MessageSignature.mk ex_message_id (replicate 65 x08) ex_signer 50.
Definition ex_api : SignatureApi.t :=
  SignatureApi.mk (SignatureStore.store SignatureStore.new ex_stored) "signer" "bridge" 10.

Definition signature_codec : codec (string * (string * (bytes * Z))) :=
  pair_codec string_codec (pair_codec string_codec (pair_codec bytes_codec Z_codec)).
Definition signature_json (m : MessageSignature.t) : bytes :=
  enc signature_codec (MessageSignature.message_id m, (hex0x (MessageSignature.signature m),
                       (MessageSignature.signer m, MessageSignature.signed_at m))).
#[export] Instance ref_json_signature : FromJson ValidatorSignature.t := fun b =>
  match dec signature_codec b with
  | Some ((i, (s, (a, n))), []) => Ok (ValidatorSignature.mk i s a n)
  | _ => Err "invalid JSON"%string
  end.

(** The validator's HTTP server. *)
Definition endpoint_net (api : SignatureApi.t) : HttpNet := {|
  http_get url _ _ :=
    match strip_prefix "http://v/signature/" url with
    | Some id => match SignatureApi.get_signature_handler api id with
                 | (st, Some sig) => Response st (Ok (signature_json sig))
                 | (st, None) => Response st (Ok [])
                 end
    | None => SendError no_route
    end;
  http_post _ _ _ _ := SendError no_route;
  client_build := Ok tt;
  status_display := int_to_string;
  body_text := string_of_bytes;
|}.

Lemma endpoint_law api :
  @SignatureEndpoint _ (endpoint_net api) _ "http://v" api signature_json.
Proof.
  split.
  - intros id sig H. cbn [http_get endpoint_net].
    change (trim_end_matches "/" "http://v" +:+ "/signature/" +:+ id) with ("http://v/signature/" +:+ id).
    rewrite strip_prefix_app, H. done.
  - intros id H. exists (Ok []). cbn [http_get endpoint_net].
    change (trim_end_matches "/" "http://v" +:+ "/signature/" +:+ id) with ("http://v/signature/" +:+ id).
    rewrite strip_prefix_app, H. done.
  - intros sig. unfold from_slice, ref_json_signature, signature_json. by rewrite dec_enc_nil.
Qed.

Definition ex_withdrawer : WithdrawalSubmitter.t :=
  WithdrawalSubmitter.mk "rpc" (replicate 20 x0b) (Some "http://v"%string) 120.
Definition ex_withdrawal : WithdrawalSubmissionRequest.t :=
  WithdrawalSubmissionRequest.mk ex_message_id (hex0x (replicate 20 x0c)) "0x" "17" "0x" 3 60.

Definition ex_withdrawal_tx : WithdrawalTx.t :=
  WithdrawalTx.mk (replicate 32 x04) (replicate 20 x0c) [] [] 3 60 [replicate 65 x08] 17.

Lemma withdrawal_carries_stored_signature_witness :
  (@WithdrawalSubmitter.submit_withdrawal _ _ (endpoint_net ex_api) _ _ ex_withdrawer ex_withdrawal).1 =
    [ex_withdrawal_tx] /\
  WithdrawalTx.validator_signatures ex_withdrawal_tx =
    match SignatureStore.get (SignatureApi.store ex_api) (normalized ex_message_id) with
    | Some sig => [MessageSignature.signature sig]
    | None => []
    end.
Proof.
  split; [vm_compute; reflexivity|].
  destruct (@withdrawal_carries_stored_signature _ _ (endpoint_net ex_api) _ _ _ "http://v" ex_api
    signature_json (endpoint_law ex_api) ex_withdrawer ex_withdrawal ex_withdrawal_tx)
    as (_ & _ & _ & _ & _ & _ & Hv); [reflexivity|vm_compute; apply list_elem_of_here|exact Hv].
Defined.
