(* ===== verification/ProofWitnesses.v ===== *)
(** * Concrete runs of the proof service

    The client and the service over one network, with a zkVM that runs the guest: a proof
    is made, a rotated key is refused, a token for another audience is retried. *)
From Stdlib Require Import Ascii Strings.Byte.
From S2P Require Import Prelude RustStd Extern Net Reference SignedTypes StateStore Jwt Stylus Inbox.
From S2P Require Import BootClients Bootstrap BootProps AttestProps AttestWitnesses Relayer RelayerProps.
From S2P Require Import ProofService ProofServiceProps.

(** ** The zkVM, and JSON read by position *)
#[local] Instance guest_zkvm : Zkvm := {|
  Receipt := bytes;
  env_build _ _ _ _ _ := Ok tt;
  prove_with_opts jwt jwk aud key sig _ :=
    match guest_main jwt jwk aud key sig with Ok journal => Ok journal | _ => Err "Guest panicked"%string end;
  receipt_verify _ := Ok tt;
  receipt_journal r := r;
  encode_seal _ := Ok [x73; x45];
  program_id := [1; 2; 3; 4; 5; 6; 7; 8];
|}.
#[local] Instance guest_zkvm_laws : ZkvmLaws.
Proof.
  intros jwt jwk aud key sig n r. cbn [prove_with_opts receipt_journal guest_zkvm].
  destruct (guest_main _ _ _ _ _); [by intros [= ->]|done..].
Qed.

Definition three_codec : codec (bytes * (bytes * bytes)) := pair_codec bytes_codec (pair_codec bytes_codec bytes_codec).
Definition four_codec : codec (bytes * (bytes * (bytes * bytes))) := pair_codec bytes_codec three_codec.
#[local] Instance wire_request : ToJson ProofRequest.t := fun r =>
  enc four_codec (as_bytes (ProofRequest.jwt_token r), (as_bytes (ProofRequest.expected_audience r),
    (as_bytes (ProofRequest.evm_public_key r), as_bytes (ProofRequest.image_signature r)))).
#[local] Instance wire_request_read : FromJson ProveRequest.t := fun b =>
  match dec four_codec b with
  | Some ((t, (a, (k, s))), []) =>
      Ok (ProveRequest.mk (string_of_bytes t) (string_of_bytes a) (string_of_bytes k) (string_of_bytes s))
  | _ => Err "not a request"%string
  end.
#[local] Instance wire_response : ToJson ProveResponse.t := fun r =>
  enc three_codec (as_bytes (ProveResponse.public_values r),
    (as_bytes (ProveResponse.proof_bytes r), as_bytes (ProveResponse.tee_address r))).
#[local] Instance wire_response_read : FromJson ProofResponse.t := fun b =>
  match dec three_codec b with
  | Some ((p, (q, a)), []) => Ok (ProofResponse.mk (string_of_bytes p) (string_of_bytes q) (string_of_bytes a))
  | _ => Err "not a response"%string
  end.
#[local] Instance wire_error : ToJson ErrorResponse.t := fun e => as_bytes (default EmptyString (ErrorResponse.details e)).
#[local] Instance wire_laws : ProofWire.
Proof.
  constructor; intros; unfold from_slice, to_json_bytes, wire_request_read, wire_response_read, wire_request, wire_response;
    rewrite dec_enc_nil; cbn -[string_of_bytes as_bytes]; by rewrite !string_of_as_bytes.
Qed.

#[local] Instance wire_minimal : FromJson MinimalHeader.t := fun b => of_option (MinimalHeader.mk <$> member b "kid").
#[local] Instance wire_discovery : FromJson ServiceDiscovery.t := fun b => of_option (ServiceDiscovery.mk <$> member b "jwks_uri").
#[local] Instance wire_jwks : FromJson ServiceJwks.t := fun b =>
  of_option (k ← member b "kid"; n ← member b "n"; e ← member b "e";
    Some (ServiceJwks.mk [JwkKey.mk None k "RSA" n e None])).

(** ** Google, the metadata server and the service *)
Definition svc_get (url : string) (_ : list (string * string)) (_ : nat) : SendOutcome :=
  if starts_with METADATA_URL url then Response 200 (Ok (as_bytes "id-token")) else
  if decide (url = "discovery"%string) then Response 200 (Ok (json_text "{'jwks_uri':'jwks'}")) else
  if decide (url = "jwks"%string) then Response 200 (Ok ex_jwks) else SendError no_route.
Definition svc_outside : HttpNet := {|
  http_get := svc_get;
  http_post _ _ _ _ := SendError no_route;
  client_build := Ok tt;
  status_display := int_to_string;
  body_text := string_of_bytes;
|}.
Definition svc_net (st : ProofApp.t) (now : Z) : HttpNet := {|
  http_get := svc_get;
  http_post url _ body n :=
    if decide (url = "https://prover/prove"%string) then answer (HN := svc_outside) st now body n else SendError no_route;
  client_build := Ok tt;
  status_display := int_to_string;
  body_text := string_of_bytes;
|}.
Definition svc_client : ProofClient.t := ProofClient.mk "https://prover" 1200 10 Service "jwks".
Definition svc_config : ProofConfig.t := ProofConfig.mk "0.0.0.0:8080" "discovery" 3600 true false.
Definition svc_start : ProofApp.t := ProofApp.start svc_config.

Lemma svc_connected st now : connected (HN := svc_net st now) svc_client st now.
Proof. intros headers body n. reflexivity. Qed.

(** Claims are read into [u64]. *)
Lemma u64_digits_range l acc found r found' :
  is_u64 acc -> u64_digits l acc found = Some (r, found') -> is_u64 r.
Proof.
  revert acc found. induction l as [|b l IH]; intros acc found Ha; cbn [u64_digits]; [by intros [= <- _]|].
  destruct (is_ascii_digit b) eqn:Eb; [|by intros [= <- _]].
  destruct (push_digit acc b) as [acc'|] eqn:Ep; cbn; [|done]. apply IH.
  unfold is_ascii_digit, byte_in in Eb. bool_to_prop. unfold push_digit in Ep. unfold is_u64, u64_max in *.
  cbv zeta in Ep. repeat case_match; [done|done|]. injection Ep as <-. bool_to_prop. lia.
Qed.
Lemma number_range b k x : number b k = Some x -> is_u64 x.
Proof.
  unfold number, json_get_u64. destruct (json_find_key _ _); cbn; [|done].
  destruct (u64_digits _ _ _) as [[r [|]]|] eqn:E; cbn; [|done..]. intros [= <-].
  eapply u64_digits_range, E. unfold is_u64. lia.
Qed.
Lemma wire_claims_u64 b (c : GcpCsClaims.t) :
  from_slice b = Ok c -> is_u64 (GcpCsClaims.iat c) /\ is_u64 (GcpCsClaims.exp c).
Proof.
  unfold from_slice, ref_json_claims, of_option.
  destruct (member b "iss"), (member b "aud"), (number b "exp") as [x|] eqn:Ex, (number b "iat") as [y|] eqn:Ey; cbn; try done.
  intros [= <-]. cbn. split; by eapply number_range.
Qed.

(** ** The runs *)
Lemma service_proof_reaches_client_witness :
  exists r jwk,
    ProofClient.generate_proof (HN := svc_net svc_start 0) svc_client ex_token "app" ex_pk ex_image_sig 0 = Ok r /\
    ProofResponse.tee_address r = hex0x (evm_address ex_pk) /\
    guest_main (as_bytes ex_token) jwk "app" ex_pk ex_image_sig = Ok ex_journal.
Proof.
  assert (Hok : is_ok (ProofClient.generate_proof (HN := svc_net svc_start 0) svc_client ex_token "app" ex_pk ex_image_sig 0) = true)
    by (vm_compute; reflexivity).
  destruct (ProofClient.generate_proof (HN := svc_net svc_start 0) svc_client ex_token "app" ex_pk ex_image_sig 0)
    as [r| |] eqn:E; [clear Hok|discriminate Hok..].
  destruct (service_proof_reaches_client (HN := svc_net svc_start 0) wire_claims_u64
              svc_client svc_start 0 ex_token "app" ex_pk ex_image_sig 0 r
              eq_refl (svc_connected svc_start 0) E)
    as (kid & keys & jwk & receipt & seal & _ & _ & _ & Hg & _ & _ & Hr).
  exists r, ex_jwk. split; [exact eq_refl|]. split; [by rewrite Hr|]. vm_compute. reflexivity.
Defined.

(** The service fetched a key set of another key a second ago. *)
Definition svc_rotated : ProofApp.t :=
  ProofApp.mk (JwksCache.mk (Some ([JwkKey.mk None "k0" "RSA" "AQAB" "AQAB" None], 0)) "discovery" 3600).

Lemma rotated_key_is_final_witness :
  exists e, ProofClient.generate_proof (HN := svc_net svc_rotated 1000000000) svc_client ex_token "app" ex_pk ex_image_sig 0 = Err e /\
    is_retryable e = false.
Proof.
  destruct (rotated_key_is_final (HN := svc_net svc_rotated 1000000000) svc_client svc_rotated 1000000000 ex_token "app"
              "id-token" "k1" ex_pk ex_image_sig [JwkKey.mk None "k0" "RSA" "AQAB" "AQAB" None] 0 0)
    as (e & He & Hr & _); [done|apply svc_connected|vm_compute; reflexivity..|].
  exists e. split; [exact He|exact Hr].
Defined.

Lemma refused_token_retried_witness :
  exists e, ProofClient.generate_proof (HN := svc_net svc_start 0) svc_client ex_token "other" ex_pk ex_image_sig 7 = Err e /\
    is_retryable e = true.
Proof.
  apply (refused_token_retried (HN := svc_net svc_start 0) svc_client svc_start 0 ex_token "other" "k1" ex_pk ex_image_sig
           [ex_jwk] ex_jwk); [done|apply svc_connected| | | | | | | | |].
  - intros n. by exists "id-token"%string.
  - reflexivity.
  - reflexivity.
  - vm_compute. reflexivity.
  - intros n. vm_compute. reflexivity.
  - reflexivity.
  - reflexivity.
  - intros n w. vm_compute. discriminate.
  - intros journal. vm_compute. discriminate.
Defined.
