(* ===== verification/ProcessWitnesses.v ===== *)
(** * The theorems about the validator's process on the reference instances *)
From Stdlib Require Import Ascii Strings.String Strings.Byte.
From S2P Require Import Prelude RustStd BTree Batches Extern Reference Cose CborBatches.
From S2P Require Import SignedTypes SyncIndex Inbox InboxProps WireProps Transport.
From S2P Require Import TransportProps Batcher BatcherProps StateStore Applier AuditTrail.
From S2P Require Import Validator ValidatorProps Replay Net HttpFetcher HttpProps RefStorage.
From S2P Require Import Cloud CloudProps Pipeline Witnesses CloudWitnesses Bridge BootClients.
From S2P Require Import Relayer ValidatorMain ValidatorMainProps.

Lemma message_ids_disagree_witness :
  Inbox.parse_message_id (hex0x [xab]) = Ok (repeat x00 31 ++ [xab]) /\
  request_id_to_message_id (hex0x [xab]) = keccak256 (as_bytes (hex0x [xab])).
Proof.
  destruct (message_ids_disagree [xab]) as [_ H]; [cbn; lia|]. destruct H as [H1 H2]; [cbn; lia|].
  split; [exact H1 | exact H2].
Defined.

(** A sequencer's withdrawal and the bridge signer of a validator. *)
Definition withdrawal_message : CborSignedMessage.t :=
  match Inbox.sign_sequenced demo_km 0 1700 Withdrawal (enc withdrawal_codec demo_withdrawal) with
  | Ok (m, _) => m
  | _ => no_message
  end.
Definition withdrawal_signed : SignedMessage.t :=
  Eval vm_compute in match to_signed_message withdrawal_message demo_vk with Ok m => m | _ => no_signed end.
Definition demo_signer : BridgeSigner.t := BridgeSigner.mk demo_km (to_be_bytes 20 9) 31337.

Lemma synced_withdrawals_signed_witness :
  exists v' st' m, SyncTask.sync_to_head_with_signing 2 demo_validator [withdrawal_signed] (Some demo_signer)
                     1800 SignatureStore.new = (v', st', Some (Ok 1)) /\
    SignatureApi.get_signature_handler (SignatureApi.mk st' "" "" 1) (filed_under demo_withdrawal)
    = (OK_200, Some m).
Proof.
  destruct (synced_withdrawals_signed 2 demo_validator [withdrawal_signed] demo_signer 1800
              SignatureStore.new None 1) as [_ H];
    [exact (ref_signer_available demo_km) | reflexivity | unfold is_u64; cbn; lia | cbn; lia | cbn; lia
     | vm_compute; reflexivity | cbn; lia |].
  destruct (SyncTask.sync_to_head_with_signing 2 demo_validator [withdrawal_signed] (Some demo_signer) 1800
              SignatureStore.new) as [[v' st'] r] eqn:E.
  assert (Hr : r = Some (Ok 1)).
  { change r with (snd (v', st', r)). rewrite <- E. vm_compute. reflexivity. }
  rewrite Hr in H. destruct (H v' st' 1 eq_refl) as (ms & v1 & Hn & Hserved & _ & _ & Hsig).
  destruct ms as [|m1 [|m2 l]]; [discriminate Hn | | cbn [length] in Hn; lia]. destruct (Hserved 0%nat m1 eq_refl) as (Hf & _).
  assert (Hm1 : m1 = withdrawal_signed) by (vm_compute in Hf; injection Hf as <-; reflexivity).
  destruct (Hsig demo_withdrawal) as (m & w' & _ & _ & Hget).
  { rewrite Hm1. vm_compute. apply list_elem_of_here. }
  exists v', st', m. rewrite Hr. split; [reflexivity | exact (Hget _ _ _)].
Defined.

Lemma status_tells_progress_witness :
  exists s, task_run (F := list SignedMessage.t) None demo_validator s /\
    StatusApi.StatusResponse.last_sequence (snd (StatusApi.status_handler (SyncTask.app s))) = Some 0 /\
    Validator.last_sequence (SyncTask.validator s) = Ok (Some 0).
Proof.
  exists (SyncTask.initial_sync 2 (SyncTask.spawn demo_validator) [withdrawal_signed] None 1800).
  assert (H : task_run (F := list SignedMessage.t) None demo_validator
                (SyncTask.initial_sync 2 (SyncTask.spawn demo_validator) [withdrawal_signed] None 1800)).
  { apply run_initial. vm_compute. discriminate. }
  split; [exact H|]. destruct (status_tells_progress None demo_validator _ H) as [Hs _].
  assert (Hn : StatusApi.StatusResponse.last_sequence (snd (StatusApi.status_handler (SyncTask.app
    (SyncTask.initial_sync 2 (SyncTask.spawn demo_validator) [withdrawal_signed] None 1800)))) = Some 0)
    by (vm_compute; reflexivity).
  split; [exact Hn | exact (proj1 (Hs 0 Hn))].
Defined.

(** A validator that has synced the withdrawal, restarted. *)
Definition synced_validator : Validator.t :=
  Validator.with_state demo_validator (StateStore.record_sync (Validator.state demo_validator) 1800 0).

Lemma restart_forgets_signatures_witness :
  SignatureApi.get_signature_handler
    (SignatureApi.mk (SyncTask.store (SyncTask.initial_sync 1 (SyncTask.spawn synced_validator)
                                        [withdrawal_signed] (Some demo_signer) 1900)) "" "" 1)
    (filed_under demo_withdrawal) = (NOT_FOUND, None).
Proof.
  destruct (restart_forgets_signatures 0 synced_validator [withdrawal_signed] (Some demo_signer) 1900 0)
    as (_ & H & _); [vm_compute; reflexivity | unfold u64_max; lia | vm_compute; reflexivity |].
  apply H.
Defined.

(** A configured validator whose bootstrap registered another key. *)
#[local] Instance toy_net : HttpNet := {|
  http_get _ _ _ := Response 500 (Ok []);
  http_post _ _ _ _ := Response 500 (Ok []);
  client_build := Ok tt;
  status_display := int_to_string;
  body_text := string_of_bytes;
|}.
#[local] Instance toy_status : FromJson SequencerStatus.t := fun _ => Err "no status"%string.
#[local] Instance toy_address : AddressText := {|
  address_display := hex0x;
  address_parse s := hex_decode (strip_prefix_or_self "0x" s);
|}.
Definition toy_config : ValidatorConfig.t :=
  ValidatorConfig.mk "db" "state" "pending" (Some (hex0x (toy_pubkey 5))) FetcherType.Gcs None 30 3
    (Some ref_bucket) "prod/v1" None "0.0.0.0:8080" 1 0 false false None 30 true
    (Some "0xCf7Ed3AccA5a467e9e704C703E8D87F634fB0Fc9"%string) (Some 31337) "0.0.0.0:8081" 5 5 false true 10 true
    (Some "http://rpc"%string) (Some 1) (Some "http://relay"%string) (Some "http://prover"%string)
    (Some "aud"%string) (Some "0x"%string) 600 900.

(** What [main] starts with. *)
Definition registered_key : EvmKeyManager.t := EvmKeyManager.generate 7.
Definition started : result AnyError (AnyFetcher.t * Validator.t * option BridgeSigner.t) :=
  main_start true toy_config (Some (Ok registered_key)) (demo_transport, 0%nat) start_store
    (Validator.applier demo_validator) (Validator.state demo_validator) PendingChangesetStore.new 5.

Lemma registered_key_not_used_witness :
  exists fetcher v sg, started = Ok (fetcher, v, Some sg) /\
    BridgeSigner.address sg <> EvmKeyManager.address registered_key.
Proof.
  assert (Ht : match started with Ok (_, _, Some _) => true | _ => false end = true)
    by (vm_compute; reflexivity).
  destruct started as [[[fetcher v] [sg|]]|e|w] eqn:E; try discriminate Ht.
  exists fetcher, v, sg. split; [reflexivity|]. apply (registered_key_not_used _ _ _ _ _ _ _ _ _ _ _ E).
  vm_compute. discriminate.
Defined.
