(* ===== verification/ChainMonitor.v ===== *)
(** * The chain monitor
    (crates/synddb-chain-monitor/src: eth_client.rs, event_store.rs, handler.rs,
    monitor.rs), the client's deposit handler and its integration
    (crates/synddb-client/src/chain_handler.rs, chain_monitor_integration/active.rs)

    The provider's answer to a request is a function of the request and of the number
    of the attempt or poll; the store is its two tables (disk failures of SQLite are
    not modelled).  A loop that the code runs until shutdown runs here over the list
    of what it meets: polls, or what a subscription yields. *)
From Stdlib Require Import Ascii Strings.Byte.
From S2P Require Import Prelude RustStd Extern SignedTypes Outbound.

(** ** alloy's logs and filters *)
Module Log.
Record t := mk {
  address : bytes;
  topics : list bytes;
  data : bytes;
  block_number : option Z;
  transaction_hash : option bytes;
  log_index : option Z;
}.
End Log.

Inductive BlockNumberOrTag := Number (n : Z) | Tag (name : string).

Module Filter.
Record t := mk {
  address : bytes;
  signature : option bytes;
  from_ : option BlockNumberOrTag;
  to_ : option BlockNumberOrTag;
}.
(** The builder methods, and [get_from_block]. *)
Definition new (address : bytes) : t := mk address None None None.
Definition from_block (n : Z) (f : t) : t := mk (address f) (signature f) (Some (Number n)) (to_ f).
Definition to_block (n : Z) (f : t) : t := mk (address f) (signature f) (from_ f) (Some (Number n)).
Definition event_signature (sig : bytes) (f : t) : t := mk (address f) (Some sig) (from_ f) (to_ f).
Definition get_from_block (f : t) : option Z :=
  match from_ f with Some (Number n) => Some n | _ => None end.
End Filter.

(** ** eth_client.rs *)
Inductive RpcError := ErrorResp (message : string) | Transport (message : string).

(** [timeout(d, request).await] *)
Inductive Attempt (A : Type) := TimedOut | Failed (e : RpcError) | Answered (a : A).
Arguments TimedOut {A}.
Arguments Failed {A} _.
Arguments Answered {A} _.

Module EthClient.
(** The loops that retry until an answer: attempt [n], [n + 1], ...; [None] when no
    answer came within [fuel] attempts. *)
Fixpoint retry_until {A} (fuel n : nat) (request : nat -> Attempt A) : option A :=
  match fuel with
  | O => None
  | S f => match request n with
           | Answered a => Some a
           | TimedOut | Failed _ => retry_until f (S n) request
           end
  end.

(** [get_latest_block], [get_block], [subscribe_logs] and [get_chain_id] are this loop
    around their request; a block is its number. *)
Definition get_latest_block (fuel : nat) (request : nat -> Attempt (option Z)) : option (option Z) :=
  retry_until fuel 0 request.
Definition get_block (fuel : nat) (request : BlockNumberOrTag -> nat -> Attempt (option Z))
    (block : BlockNumberOrTag) : option (option Z) :=
  retry_until fuel 0 (request block).
Definition get_chain_id (fuel : nat) (request : nat -> Attempt Z) : option Z := retry_until fuel 0 request.
Definition subscribe_logs {S} (fuel : nat) (request : Filter.t -> nat -> Attempt S) (filter : Filter.t) : option S :=
  retry_until fuel 0 (request filter).

(** [new]: every URL of the list once per round; [fuel] rounds. *)
Fixpoint connect_round {C} (connect : string -> nat -> Attempt C) (round : nat) (ws_urls : list string) : option C :=
  match ws_urls with
  | [] => None
  | url :: rest => match connect url round with
                   | Answered client => Some client
                   | TimedOut | Failed _ => connect_round connect round rest
                   end
  end.
Fixpoint new {C} (fuel round : nat) (connect : string -> nat -> Attempt C) (ws_urls : list string) : option C :=
  match fuel with
  | O => None
  | S f => match connect_round connect round ws_urls with
           | Some client => Some client
           | None => new f (S round) connect ws_urls
           end
  end.

Section logs.
Context (eth_getLogs : Filter.t -> Attempt (list Log.t)).

Definition block_range (filter : Filter.t) : Z * Z :=
  match Filter.from_ filter, Filter.to_ filter with
  | Some (Number from), Some (Number to) => (from, to)
  | _, _ => (0, 0)
  end.

Definition handle_split_range (get_logs : Filter.t -> result RpcError (list Log.t))
    (filter : Filter.t) (err : RpcError) : result RpcError (list Log.t) :=
  let '(from_block, to_block) := block_range filter in
  if to_block <=? from_block then Err err else
  let mid := u64_add from_block to_block / 2 in
  let? lower_range := get_logs (Filter.to_block mid (Filter.from_block from_block filter)) in
  let? upper_range := get_logs (Filter.to_block to_block (Filter.from_block (u64_add mid 1) filter)) in
  Ok (lower_range ++ upper_range).

(** The recursion halves the range: as many levels as there are blocks are enough. *)
Fixpoint get_logs_go (fuel : nat) (filter : Filter.t) : result RpcError (list Log.t) :=
  match fuel with
  | O => Panic "stack overflow"
  | S f =>
      match eth_getLogs filter with
      | TimedOut => handle_split_range (get_logs_go f) filter (Transport "request timed out")
      | Answered x => Ok x
      | Failed (ErrorResp err) => handle_split_range (get_logs_go f) filter (ErrorResp err)
      | Failed err => Err err
      end
  end.
Definition get_logs (filter : Filter.t) : result RpcError (list Log.t) :=
  let '(from, to) := block_range filter in get_logs_go (S (Z.to_nat (to - from))) filter.
End logs.
End EthClient.

(** ** event_store.rs *)
Module EventStore.
Section ops.
Context `{HX : Hex}.
(** [processed_events] by its key [tx_hash], and [monitor_state]. *)
Record t := mk {
  processed_events : gmap string (Z * option Z);
  last_block : option Z;
}.
Definition new : t := mk ∅ None.

Definition is_processed (s : t) (tx_hash : bytes) : bool :=
  bool_decide (is_Some (processed_events s !! hex0x tx_hash)).

(** [INSERT OR IGNORE] *)
Definition mark_processed (s : t) (tx_hash : bytes) (block_number : Z) (log_index : option Z) : t :=
  let key := hex0x tx_hash in
  match processed_events s !! key with
  | Some _ => s
  | None => mk (<[key := (as_i64 block_number, as_i64 <$> log_index)]> (processed_events s)) (last_block s)
  end.

Definition get_last_processed_block (s : t) : option Z := as_u64 <$> last_block s.
Definition set_last_processed_block (s : t) (block : Z) : t := mk (processed_events s) (Some (as_i64 block)).
Definition count_processed_events (s : t) : Z := as_u64 (Z.of_nat (size (processed_events s))).
End ops.
End EventStore.

(** ** handler.rs: the trait, with the handler's own state explicit *)
Class MessageHandler (H : Type) := {
  handle_event : H -> Log.t -> H * result string bool;
  handler_signature : option bytes;
  on_start : H -> H * result string unit;
  on_stop : H -> H * result string unit;
}.

(** ** monitor.rs *)
Module ChainMonitor.
Definition base_poll_interval : Z := 5.
Definition max_poll_interval : Z := 60.
Definition polling_window : Z := 100.

Section monitor.
Context `{HX : Hex} {H : Type} `{MH : MessageHandler H}.

Record t := mk { filter : Filter.t; handler : H; event_store : EventStore.t }.
Definition set_store (m : t) (s : EventStore.t) : t := mk (filter m) (handler m) s.
Definition set_handler (m : t) (h : H) : t := mk (filter m) h (event_store m).

(** [new], once connected: the filter and the first hook of the handler. *)
Definition new (contract_address : bytes) (start_block : Z) (event_signature : option bytes)
    (store : EventStore.t) (h : H) : result string t :=
  let event_sig := match event_signature with Some s => Some s | None => handler_signature end in
  let f := Filter.from_block start_block (Filter.new contract_address) in
  let f := match event_sig with Some sig => Filter.event_signature sig f | None => f end in
  let '(h, r) := on_start h in
  let? _ := r in Ok (mk f h store).

Definition process_event (m : t) (log : Log.t) : t * result string unit :=
  let seen := match Log.transaction_hash log with
              | Some tx_hash => EventStore.is_processed (event_store m) tx_hash
              | None => false
              end in
  if seen then (m, Ok tt) else
  let '(h, r) := handle_event (handler m) log in
  let m := set_handler m h in
  match r with
  | Ok handled =>
      (if (handled : bool) then
         match Log.transaction_hash log with
         | Some tx_hash =>
             set_store m (EventStore.mark_processed (event_store m) tx_hash
                            (default 0 (Log.block_number log)) (Log.log_index log))
         | None => m
         end
       else m, Ok tt)
  | Err e => (m, Err e)
  | Panic w => (m, Panic w)
  end.

(** [for log in logs { if let Err(e) = self.process_event(&log).await { error!(...) } }] *)
Definition process_all (m : t) (logs : list Log.t) : t :=
  fold_left (fun m log => fst (process_event m log)) logs m.

(** What one poll meets: the latest block once [get_latest_block] returned, the
    provider's answers to log queries, and the shutdown flag before the poll and
    during the sleep after it. *)
Record Poll := {
  latest_block : option Z;
  eth_getLogs : Filter.t -> Attempt (list Log.t);
  shutdown_before : bool;
  shutdown_sleeping : bool;
}.

Definition rpc_error_text (e : RpcError) : string :=
  match e with ErrorResp s => s | Transport s => s end.

Definition poll_for_events (m : t) (p : Poll) (start_block window : Z) : result string (list Log.t * Z) :=
  let? latest_block_number := ok_or "Failed to get latest block"%string (latest_block p) in
  let end_block := Z.min (u64_add start_block window) latest_block_number in
  if end_block <=? start_block then Ok ([], start_block) else
  let? logs := map_err rpc_error_text
    (EthClient.get_logs (eth_getLogs p) (Filter.to_block end_block (Filter.from_block start_block (filter m)))) in
  Ok (logs, end_block).

Definition u32_saturating_pow (b e : Z) : Z := Z.min (b ^ e) (2 ^ 32 - 1).
Definition backoff (consecutive_errors : Z) : Z :=
  Z.min (base_poll_interval * u32_saturating_pow 2 (consecutive_errors - 1)) max_poll_interval.

(** The local variables of [run_rpc_monitor]; the seconds of every sleep so far. *)
Record RpcState := mkRpc {
  monitor : t;
  current_block : Z;
  consecutive_errors : Z;
  slept : list Z;
}.

Definition rpc_start (m : t) : RpcState :=
  mkRpc m (default (default 0 (Filter.get_from_block (filter m)))
                   (EventStore.get_last_processed_block (event_store m))) 0 [].

(** The body of the loop, from the poll to the sleep. *)
Definition rpc_turn (s : RpcState) (p : Poll) : RpcState :=
  match poll_for_events (monitor s) p (current_block s) polling_window with
  | Ok (logs, end_block) =>
      let m := process_all (monitor s) logs in
      mkRpc (set_store m (EventStore.set_last_processed_block (event_store m) end_block))
            end_block 0 (slept s ++ [base_poll_interval])
  | _ =>
      let errors := consecutive_errors s + 1 in
      mkRpc (monitor s) (current_block s) errors (slept s ++ [backoff errors])
  end.

(** The flag is set when the loop returned. *)
Fixpoint run_rpc_monitor (s : RpcState) (polls : list Poll) : RpcState * bool :=
  match polls with
  | [] => (s, false)
  | p :: rest =>
      if shutdown_before p then (s, true) else
      let s' := rpc_turn s p in
      if shutdown_sleeping p then (s', true) else run_rpc_monitor s' rest
  end.

(** What the subscription loop meets. *)
Inductive WsEvent := WsLog (log : Log.t) | WsError | WsHeartbeat | WsShutdown (flag : bool).

Definition ws_checkpoint (m : t) (last_checkpoint_block : option Z) (log : Log.t) : t * option Z :=
  match Log.block_number log with
  | Some block_number =>
      if match last_checkpoint_block with Some last => last <? block_number | None => true end
      then (set_store m (EventStore.set_last_processed_block (event_store m) block_number), Some block_number)
      else (m, last_checkpoint_block)
  | None => (m, last_checkpoint_block)
  end.

Fixpoint run_ws_monitor (m : t) (last_checkpoint_block : option Z) (events : list WsEvent) : t * bool :=
  match events with
  | [] => (m, false)
  | WsShutdown flag :: rest =>
      if (flag : bool) then (m, true) else run_ws_monitor m last_checkpoint_block rest
  | WsLog log :: rest =>
      let '(m, last) := ws_checkpoint m last_checkpoint_block log in
      run_ws_monitor (fst (process_event m log)) last rest
  | (WsError | WsHeartbeat) :: rest => run_ws_monitor m last_checkpoint_block rest
  end.

(** [run]: the mode depends on whether a subscription could be made; [on_stop] runs
    when the loop has returned, and its error is only logged. *)
Definition run (m : t) (subscribes : bool) (events : list WsEvent) (polls : list Poll) : t * bool :=
  let '(m, stopped) :=
    if subscribes then run_ws_monitor m None events
    else let '(s, stopped) := run_rpc_monitor (rpc_start m) polls in (monitor s, stopped) in
  if (stopped : bool) then (set_handler m (fst (on_stop (handler m))), true) else (m, false).
End monitor.
#[global] Arguments t : clear implicits.
#[global] Arguments RpcState : clear implicits.
End ChainMonitor.

(** ** chain_handler.rs *)
Module Deposit.
(** The event of events.rs, decoded. *)
Record t := mk { from : bytes; to : bytes; amount : Z; data : bytes }.
End Deposit.

(** alloy's [sol!] event: decoding and the topic of its signature. *)
Class DepositAbi := {
  decode_log : Log.t -> result string Deposit.t;
  DEPOSIT_SIGNATURE_HASH : bytes;
}.

Module DepositData.
Record t := mk {
  tx_hash : string;
  block_number : Z;
  log_index : option Z;
  from : string;
  to : string;
  amount : string;
  data : bytes;
}.
End DepositData.

Module DepositHandler.
Section ops.
Context `{HX : Hex} `{DA : DepositAbi}.
(** The channel's contents and whether its receiver still exists; [send] on a full
    channel waits for room. *)
Record t := mk { queue : list DepositData.t; connected : bool; processed_count : Z }.
Definition new : t := mk [] true 0.
Definition get_processed_count (h : t) : Z := processed_count h.

Definition deposit_data (log : Log.t) (deposit : Deposit.t) : DepositData.t :=
  DepositData.mk (match Log.transaction_hash log with Some h => hex0x h | None => "unknown" end)
    (default 0 (Log.block_number log)) (Log.log_index log)
    (hex0x (Deposit.from deposit)) (hex0x (Deposit.to deposit))
    (int_to_string (Deposit.amount deposit)) (Deposit.data deposit).

Definition deposit_event (h : t) (log : Log.t) : t * result string bool :=
  match decode_log log with
  | Ok deposit =>
      if Deposit.amount deposit =? 0 then (h, Ok false) else
      if connected h
      then (mk (queue h ++ [deposit_data log deposit]) true (u64_add (processed_count h) 1), Ok true)
      else (h, Ok false)
  | Err _ => (h, Ok false)
  | Panic w => (h, Panic w)
  end.

#[global] Instance deposit_handler : MessageHandler t := {|
  handle_event := deposit_event;
  handler_signature := Some DEPOSIT_SIGNATURE_HASH;
  on_start h := (h, Ok tt);
  on_stop h := (h, Ok tt);
|}.
End ops.
End DepositHandler.

(** ** chain_monitor_integration/active.rs *)
Module ChainMonitorHandle.
Definition CHANNEL_BOUND : nat := 100.

Module Row.
(** A row of the [deposits] table, keyed by [tx_hash]. *)
Record t := mk {
  block_number : Z;
  log_index : option Z;
  from_address : string;
  to_address : string;
  amount : string;
  data : bytes;
  processed_at : Z;
}.
End Row.

Definition row_of (d : DepositData.t) (now : Z) : Row.t :=
  Row.mk (as_i64 (DepositData.block_number d)) (as_i64 <$> DepositData.log_index d)
    (DepositData.from d) (DepositData.to d) (DepositData.amount d) (DepositData.data d) (as_i64 now).

(** [INSERT OR IGNORE] *)
Definition insert_deposit (now : Z) (table : gmap string Row.t) (d : DepositData.t) : gmap string Row.t :=
  match table !! DepositData.tx_hash d with
  | Some _ => table
  | None => <[DepositData.tx_hash d := row_of d now]> table
  end.

(** The whole channel is drained; the count is of deposits received. *)
Definition process_deposits (h : DepositHandler.t) (table : gmap string Row.t) (now : Z)
    : DepositHandler.t * gmap string Row.t * nat :=
  (DepositHandler.mk [] (DepositHandler.connected h) (DepositHandler.processed_count h),
   fold_left (insert_deposit now) (DepositHandler.queue h) table,
   length (DepositHandler.queue h)).
End ChainMonitorHandle.
