(* ===== verification/ChainProps.v ===== *)
(** * Properties of the chain monitor

    Log queries survive a provider that refuses ranges, polling reaches every block,
    and the deposits of processed transactions are exactly those queued or stored,
    until the process stops. *)
From Stdlib Require Import Ascii Strings.Byte.
From S2P Require Import Prelude RustStd Extern SignedTypes Outbound ChainMonitor.

#[local] Ltac Zify.zify_post_hook ::= Z.to_euclidean_division_equations.

(** ** Range splitting *)

Definition range (f : Filter.t) (a b : Z) : Filter.t := Filter.to_block b (Filter.from_block a f).

Section logs.
Context (f : Filter.t) (block_logs : Z -> list Log.t).

(** The logs of the blocks [a] to [b] that match the filter, in chain order. *)
Definition logs_between (a b : Z) : list Log.t := mjoin (block_logs <$> seqZ a (b - a + 1)).

Lemma logs_between_split a m b :
  a <= m + 1 -> m <= b -> logs_between a m ++ logs_between (m + 1) b = logs_between a b.
Proof.
  intros Ha Hb. unfold logs_between. rewrite <- join_app, <- fmap_app.
  replace (b - a + 1) with ((m - a + 1) + (b - (m + 1) + 1)) by lia.
  rewrite (seqZ_app a (m - a + 1) (b - (m + 1) + 1)) by lia. by replace (a + (m - a + 1)) with (m + 1) by lia.
Qed.

Lemma logs_between_elem a b log k :
  a <= k <= b -> log ∈ block_logs k -> log ∈ logs_between a b.
Proof.
  intros Hk Hl. unfold logs_between. apply list_elem_of_join. exists (block_logs k). split; [done|].
  apply list_elem_of_fmap. exists k. split; [done|]. apply elem_of_seqZ. lia.
Qed.

(** An honest provider: an answer is the logs of the range. *)
Definition honest (q : Filter.t -> Attempt (list Log.t)) : Prop :=
  forall a b l, q (range f a b) = Answered l -> l = logs_between a b.
(** It answers for single blocks and fails only by refusing or by being slow. *)
Definition answers_blocks (q : Filter.t -> Attempt (list Log.t)) (lo hi : Z) : Prop :=
  (forall a, lo <= a <= hi -> exists l, q (range f a a) = Answered l) /\
  (forall a b e, q (range f a b) <> Failed (Transport e)).

Section query.
Context (q : Filter.t -> Attempt (list Log.t)) (Hh : honest q).

Definition outcome_ok (a b : Z) (r : result RpcError (list Log.t)) : Prop :=
  (r = Ok (logs_between a b) \/ exists e, r = Err e) /\
  (answers_blocks q a b -> r = Ok (logs_between a b)).

Lemma split_ok fuel a b err :
  0 <= a -> b < 2 ^ 63 -> q (range f a b) = TimedOut \/ (exists e, q (range f a b) = Failed (ErrorResp e)) ->
  (forall a' b', 0 <= a' -> b' < 2 ^ 63 -> a' <= b' -> b' - a' < b - a ->
     outcome_ok a' b' (EthClient.get_logs_go q fuel (range f a' b'))) ->
  a <= b -> outcome_ok a b (EthClient.handle_split_range (EthClient.get_logs_go q fuel) (range f a b) err).
Proof using.
  intros Ha Hb Hq IH Hab. unfold EthClient.handle_split_range.
  change (EthClient.block_range (range f a b)) with (a, b). cbv beta iota zeta.
  destruct (Z.leb_spec b a) as [Hle|Hlt].
  { split; [eauto|]. intros [Hs _]. destruct (Hs a) as [l Hl]; [lia|]. replace b with a in Hq by lia.
    destruct Hq as [Hq|[e Hq]]; congruence. }
  rewrite (u64_add_small a b) by (unfold is_u64; lia).
  set (m := (a + b) / 2). assert (Hm : a <= m < b) by (subst m; lia). clearbody m.
  rewrite (u64_add_small m 1) by (unfold is_u64; lia).
  change (Filter.to_block m (Filter.from_block a (range f a b))) with (range f a m).
  change (Filter.to_block b (Filter.from_block (m + 1) (range f a b))) with (range f (m + 1) b).
  assert (Hsub : forall a' b', a <= a' -> b' <= b -> answers_blocks q a b -> answers_blocks q a' b')
    by (intros a' b' ? ? [Hs Hn]; split; [intros; apply Hs; lia|done]).
  destruct (IH a m) as [[El|[e El]] Hl]; [lia..| |]; rewrite El in *; cbn [result_bind].
  - destruct (IH (m + 1) b) as [[Eu|[e Eu]] Hu]; [lia..| |]; rewrite Eu in *; cbn [result_bind].
    + rewrite logs_between_split by lia. split; auto.
    + split; [eauto|]. intros Hab'. discriminate (Hu (Hsub (m + 1) b ltac:(lia) ltac:(lia) Hab')).
  - split; [eauto|]. intros Hab'. discriminate (Hl (Hsub a m ltac:(lia) ltac:(lia) Hab')).
Qed.

Lemma get_logs_go_ok fuel : forall a b,
  0 <= a -> b < 2 ^ 63 -> a <= b -> (Z.to_nat (b - a) < fuel)%nat ->
  outcome_ok a b (EthClient.get_logs_go q fuel (range f a b)).
Proof using Hh.
  induction fuel as [|fuel IH]; intros a b Ha Hb Hab Hf; [lia|]. cbn [EthClient.get_logs_go].
  destruct (q (range f a b)) as [|[e|e]|l] eqn:Eq.
  - apply split_ok; auto. intros. apply IH; lia.
  - apply split_ok; eauto. intros. apply IH; lia.
  - split; [eauto|]. intros [_ Hn]. by destruct (Hn a b e).
  - rewrite (Hh a b l Eq). split; auto.
Qed.

Lemma get_logs_ok a b :
  0 <= a -> b < 2 ^ 63 -> a <= b -> outcome_ok a b (EthClient.get_logs q (range f a b)).
Proof using Hh. intros. apply get_logs_go_ok; lia. Qed.
End query.
End logs.

(** C23. Splitting log queries terminates and loses nothing: for a range of block
    numbers [get_logs] returns all logs of the range in order or an error, never a
    part; and it does return them as soon as the provider answers for single blocks
    and fails otherwise only by refusing or timing out, whichever larger ranges it
    refuses. *)
Theorem get_logs_complete (f : Filter.t) (block_logs : Z -> list Log.t)
    (q : Filter.t -> Attempt (list Log.t)) (from to : Z) :
  honest f block_logs q -> 0 <= from <= to -> to < 2 ^ 63 ->
  (EthClient.get_logs q (range f from to) = Ok (logs_between block_logs from to) \/
   exists e, EthClient.get_logs q (range f from to) = Err e) /\
  (answers_blocks f q from to ->
   EthClient.get_logs q (range f from to) = Ok (logs_between block_logs from to)).
Proof. intros Hh [? ?] ?. by apply get_logs_ok. Qed.

Lemma retry_until_spec {A} (request : nat -> Attempt A) fuel : forall n k a,
  (n <= k < n + fuel)%nat -> request k = Answered a ->
  (forall j, (n <= j < k)%nat -> forall a', request j <> Answered a') ->
  EthClient.retry_until fuel n request = Some a.
Proof.
  induction fuel as [|fuel IH]; intros n k a Hk Ha Hlt; [lia|]. cbn.
  destruct (decide (n = k)) as [->|]; [by rewrite Ha|].
  destruct (request n) as [| |a'] eqn:E; [| |by destruct (Hlt n ltac:(lia) a')].
  all: apply (IH (S n) k a); [lia|done|intros; apply Hlt; lia].
Qed.

(** ** Polling *)
Section polling.
Context `{HX : Hex} {H : Type} `{MH : MessageHandler H}.
Context (block_logs : Z -> list Log.t).
Import ChainMonitor.

(** Handlers in working order (a deposit handler whose channel is still connected, say)
    stay so; they accept a log when they answer [Ok true] to it whatever they did before. *)
Context (working : H -> Prop) (Hworking : forall h log, working h -> working (fst (handle_event h log))).
Definition accepted_log (log : Log.t) : Prop := forall h, working h -> (handle_event h log).2 = Ok true.

Definition done_tx (m : t H) (h : bytes) : Prop := EventStore.is_processed (event_store m) h = true.

Lemma mark_processed_spec s h b i h' :
  EventStore.is_processed (EventStore.mark_processed s h b i) h' = true <->
  EventStore.is_processed s h' = true \/ hex0x h' = hex0x h.
Proof using.
  unfold EventStore.is_processed, EventStore.mark_processed. rewrite !bool_decide_eq_true.
  destruct (EventStore.processed_events s !! hex0x h) eqn:E; cbn.
  - split; [auto|]. intros [?|Heq]; [done|]. rewrite Heq, E. eauto.
  - destruct (decide (hex0x h = hex0x h')) as [Heq|Hne].
    + rewrite Heq, lookup_insert_eq. split; eauto.
    + rewrite lookup_insert_ne by done. split; [auto|]. intros [?|?]; [done|congruence].
Qed.

Lemma process_event_spec m log :
  working (handler m) ->
  let m' := fst (process_event m log) in
  filter m' = filter m /\ working (handler m') /\ (forall h, done_tx m h -> done_tx m' h) /\
  (forall h, accepted_log log -> Log.transaction_hash log = Some h -> done_tx m' h).
Proof using Hworking.
  intros Hw. cbv zeta. unfold process_event, done_tx, accepted_log.
  assert (Hna : forall hs r, handle_event (handler m) log = (hs, r) -> r <> Ok true ->
    (forall h, working h -> (handle_event h log).2 = Ok true) -> False).
  { intros hs r Eh Hr Ha. specialize (Ha (handler m) Hw). by rewrite Eh in Ha. }
  pose proof (Hworking (handler m) log Hw) as Hw'.
  destruct (Log.transaction_hash log) as [tx|] eqn:Et.
  - destruct (EventStore.is_processed (event_store m) tx) eqn:Ep.
    { cbn. split_and!; [done..|]. intros h _ [= <-]. done. }
    destruct (handle_event (handler m) log) as [hs [[]|e|w]] eqn:Eh; cbn.
    { split_and!; [done|done| |]; intros h **; apply mark_processed_spec; [auto|]. right. congruence. }
    all: split_and!; [done..|]; intros h Ha _; exfalso; eapply Hna; [done| |exact Ha]; done.
  - destruct (handle_event (handler m) log) as [hs [[]|e|w]]; cbn; by split_and!.
Qed.

Lemma process_all_spec logs : forall m,
  working (handler m) ->
  let m' := process_all m logs in
  filter m' = filter m /\ working (handler m') /\ (forall h, done_tx m h -> done_tx m' h) /\
  (forall log h, log ∈ logs -> accepted_log log -> Log.transaction_hash log = Some h -> done_tx m' h).
Proof using Hworking.
  cbv zeta. induction logs as [|log logs IH]; intros m Hw.
  { split_and!; [done..|]. intros ? ? Hin. by apply not_elem_of_nil in Hin. }
  change (process_all m (log :: logs)) with (process_all (process_event m log).1 logs).
  destruct (process_event_spec m log Hw) as (E1 & E2 & E3 & E4).
  destruct (IH (fst (process_event m log)) E2) as (I1 & I2 & I3 & I4).
  split_and!; [by rewrite I1|done|auto|]. intros log' h Hin Ha Ht.
  apply elem_of_cons in Hin as [->|Hin]; eauto.
Qed.

(** A poll whose provider is honest about block numbers a signed 64-bit column keeps. *)
Definition honest_poll (m : t H) (p : Poll) : Prop :=
  honest (filter m) block_logs (eth_getLogs p) /\
  (forall L, latest_block p = Some L -> 0 <= L < 2 ^ 62).
(** A poll that sees at least block [T] and whose provider answers for single blocks. *)
Definition good_poll (m : t H) (T : Z) (p : Poll) : Prop :=
  exists L, latest_block p = Some L /\ T <= L /\ answers_blocks (filter m) (eth_getLogs p) 0 L.

(** What a turn may change. *)
Record turn_ok (s s' : RpcState H) : Prop := {
  tn_filter : filter (monitor s') = filter (monitor s);
  tn_working : working (handler (monitor s'));
  tn_block : current_block s <= current_block s' < 2 ^ 62;
  tn_done h : done_tx (monitor s) h -> done_tx (monitor s') h;
  tn_logs k log h : current_block s < current_block s' -> current_block s <= k <= current_block s' ->
    log ∈ block_logs k -> accepted_log log -> Log.transaction_hash log = Some h -> done_tx (monitor s') h;
}.

Lemma rpc_turn_ok s p :
  working (handler (monitor s)) ->
  honest_poll (monitor s) p -> 0 <= current_block s < 2 ^ 62 -> turn_ok s (rpc_turn s p).
Proof using Hworking.
  intros Hw [Hh HL] Hc. unfold rpc_turn, poll_for_events.
  destruct (latest_block p) as [L|] eqn:El; cbn [ok_or result_bind]; [|split; cbn; auto; lia].
  specialize (HL L eq_refl). rewrite u64_add_small by (unfold is_u64, polling_window; lia).
  set (e := Z.min (current_block s + polling_window) L).
  destruct (Z.leb_spec e (current_block s)) as [Hle|Hlt].
  { cbn. split; cbn; auto; lia. }
  fold (range (filter (monitor s)) (current_block s) e).
  destruct (get_logs_ok (filter (monitor s)) block_logs (eth_getLogs p) Hh (current_block s) e)
    as [[Hok|[er Her]] _]; [lia..| |].
  - rewrite Hok. cbn [map_err result_bind].
    destruct (process_all_spec (logs_between block_logs (current_block s) e) (monitor s) Hw) as (P1 & Pw & P2 & P3).
    split; cbn; [done|exact Pw|lia|exact P2|]. intros k log h _ Hk Hin Ha Ht.
    eapply P3; [by eapply logs_between_elem|done..].
  - rewrite Her. cbn. split; cbn; auto; lia.
Qed.

Lemma good_turn s p T :
  honest_poll (monitor s) p -> good_poll (monitor s) T p -> 0 <= current_block s < 2 ^ 62 ->
  Z.min T (current_block s + 100) <= current_block (rpc_turn s p).
Proof using.
  intros [Hh HL] (L & El & HT & Hb) Hc. unfold rpc_turn, poll_for_events. rewrite El. cbn [ok_or result_bind].
  specialize (HL L El). rewrite u64_add_small by (unfold is_u64, polling_window; lia).
  set (e := Z.min (current_block s + polling_window) L).
  destruct (Z.leb_spec e (current_block s)) as [Hle|Hlt]; [cbn; unfold e, polling_window in *; lia|].
  fold (range (filter (monitor s)) (current_block s) e).
  destruct (get_logs_ok (filter (monitor s)) block_logs (eth_getLogs p) Hh (current_block s) e)
    as [_ Hok]; [lia..|]. rewrite Hok; [cbn; unfold e, polling_window in *; lia|].
  destruct Hb as [Hs Hn]. split; [|done]. intros. apply Hs. lia.
Qed.

Lemma turns_ok polls : forall s,
  working (handler (monitor s)) -> Forall (honest_poll (monitor s)) polls -> 0 <= current_block s < 2 ^ 62 ->
  turn_ok s (fold_left rpc_turn polls s).
Proof using Hworking.
  induction polls as [|p polls IH]; intros s Hw HF Hc; cbn.
  { split; auto; lia. }
  apply Forall_cons in HF as [Hp HF]. pose proof (rpc_turn_ok s p Hw Hp Hc) as [T1 Tw T2 T3 T4].
  destruct (IH (rpc_turn s p) Tw) as [I1 Iw I2 I3 I4]; [|lia|].
  { eapply Forall_impl; [exact HF|]. intros q. unfold honest_poll. by rewrite T1. }
  split; [congruence|done|lia|auto|]. intros k log h Hlt Hk.
  destruct (decide (k <= current_block (rpc_turn s p) /\ current_block s < current_block (rpc_turn s p)))
    as [[Hle Hlt']|Hgt].
  - intros. eapply I3, T4; [..|done|done|done]; lia.
  - apply I4; lia.
Qed.

Lemma turns_reach goods polls : goods `sublist_of` polls -> forall s T,
  working (handler (monitor s)) -> Forall (honest_poll (monitor s)) polls -> Forall (good_poll (monitor s) T) goods ->
  0 <= current_block s < 2 ^ 62 ->
  Z.min T (current_block s + 100 * Z.of_nat (length goods)) <= current_block (fold_left rpc_turn polls s).
Proof using Hworking.
  induction 1 as [|p goods polls Hs IH|p goods polls Hs IH]; intros s T Hw HF HG Hc; cbn [fold_left].
  - cbn. lia.
  - apply Forall_cons in HF as [Hp HF]. apply Forall_cons in HG as [Hg HG].
    pose proof (rpc_turn_ok s p Hw Hp Hc) as [T1 Tw T2 _ _]. pose proof (good_turn s p T Hp Hg Hc).
    specialize (IH (rpc_turn s p) T). unfold honest_poll, good_poll in *. rewrite T1 in IH.
    specialize (IH Tw HF HG ltac:(lia)). cbn [length]. lia.
  - apply Forall_cons in HF as [Hp HF]. pose proof (rpc_turn_ok s p Hw Hp Hc) as [T1 Tw T2 _ _].
    specialize (IH (rpc_turn s p) T). unfold honest_poll, good_poll in *. rewrite T1 in IH.
    specialize (IH Tw HF HG ltac:(lia)). lia.
Qed.

(** C22. Polling reaches every event: with an honest provider, once the polls include
    one good poll (the latest block is at least [T], single blocks are answered) per
    hundred blocks up to [T], however many others fail in between, the monitor has
    passed block [T] and every transaction with a log in the blocks from its start to
    [T] that the handler accepts is marked as processed. *)
Theorem polling_reaches_every_event (m : t H) (T : Z) (polls goods : list Poll) :
  let s := fold_left rpc_turn polls (rpc_start m) in
  let start := current_block (rpc_start m) in
  working (handler m) -> 0 <= start -> start < T -> start < 2 ^ 62 ->
  Forall (honest_poll m) polls ->
  goods `sublist_of` polls -> Forall (good_poll m T) goods -> T <= start + 100 * Z.of_nat (length goods) ->
  T <= current_block s /\
  forall k log h, start <= k <= T -> log ∈ block_logs k -> accepted_log log ->
    Log.transaction_hash log = Some h -> EventStore.is_processed (event_store (monitor s)) h = true.
Proof using Hworking.
  cbv zeta. intros Hw Hs0 HT Hs62 HF Hsub HG Hn.
  pose proof (turns_reach goods polls Hsub (rpc_start m) T Hw HF HG ltac:(lia)) as Hr.
  destruct (turns_ok polls (rpc_start m) Hw HF ltac:(lia)) as [_ _ T2 _ T4].
  split; [lia|]. intros k log h Hk. apply T4; lia.
Qed.

(** A restart resumes where the last successful poll ended. *)
Lemma restart_resumes (s : RpcState H) (p : Poll) logs e :
  poll_for_events (monitor s) p (current_block s) polling_window = Ok (logs, e) -> is_u64 e ->
  current_block (rpc_start (monitor (rpc_turn s p))) = current_block (rpc_turn s p).
Proof using.
  clear block_logs Hworking working. intros Hp He. unfold rpc_turn. rewrite Hp. cbn. unfold EventStore.get_last_processed_block. cbn.
  unfold as_i64. rewrite (as_u64_id e) by done. unfold is_u64, as_u64 in *. case_match; cbn; lia.
Qed.

(** Idempotency is per transaction, not per event: once the handler has accepted a
    log, every other log of the same transaction is skipped and never reaches the
    handler. *)
Theorem second_log_of_transaction_skipped (m : t H) (log log' : Log.t) (h : bytes) :
  working (handler m) ->
  Log.transaction_hash log = Some h -> Log.transaction_hash log' = Some h -> accepted_log log ->
  let m' := fst (process_event m log) in process_event m' log' = (m', Ok tt).
Proof using Hworking.
  intros Hw Ht Ht' Ha. cbv zeta. destruct (process_event_spec m log Hw) as (_ & _ & _ & Hd).
  specialize (Hd h Ha Ht). unfold done_tx in Hd. unfold process_event at 1. by rewrite Ht', Hd.
Qed.

(** Events are not retried: once a poll has moved on to block [e], whatever the
    handler answered for its logs, every log a later poll delivers is of block [e] or
    later; a log of an earlier block whose handler failed is not delivered again. *)
Theorem failed_event_not_retried (s : RpcState H) (p p' : Poll) (logs logs' : list Log.t) (e e' : Z) (polls : list Poll) :
  let s' := fold_left rpc_turn polls (rpc_turn s p) in
  working (handler (monitor s)) ->
  poll_for_events (monitor s) p (current_block s) polling_window = Ok (logs, e) ->
  honest_poll (monitor s) p -> Forall (honest_poll (monitor s)) polls -> honest_poll (monitor s) p' ->
  0 <= current_block s < 2 ^ 62 ->
  poll_for_events (monitor s') p' (current_block s') polling_window = Ok (logs', e') ->
  forall log, log ∈ logs' -> exists k, e <= k /\ log ∈ block_logs k.
Proof using Hworking.
  cbv zeta. intros Hw Hp Hh HF Hh' Hc Hq log Hin.
  pose proof (rpc_turn_ok s p Hw Hh Hc) as [T1 Tw T2 _ _].
  assert (He : current_block (rpc_turn s p) = e) by (unfold rpc_turn; by rewrite Hp).
  destruct (turns_ok polls (rpc_turn s p) Tw) as [I1 _ I2 _ _]; [|lia|].
  { eapply Forall_impl; [exact HF|]. intros q. unfold honest_poll. by rewrite T1. }
  set (s' := fold_left rpc_turn polls (rpc_turn s p)) in *. clearbody s'.
  unfold poll_for_events in Hq. destruct (latest_block p') as [L|] eqn:El; [|done]. cbn [ok_or result_bind] in Hq.
  destruct Hh' as [Hh' HL]. specialize (HL L El).
  rewrite u64_add_small in Hq by (unfold is_u64, polling_window; lia).
  destruct (Z.leb_spec (Z.min (current_block s' + polling_window) L) (current_block s')).
  { injection Hq as <- <-. by apply not_elem_of_nil in Hin. }
  set (b := Z.min (current_block s' + polling_window) L) in *.
  assert (Hh2 : honest (filter (monitor s')) block_logs (eth_getLogs p')) by (by rewrite I1, T1).
  destruct (get_logs_ok (filter (monitor s')) block_logs (eth_getLogs p') Hh2 (current_block s') b)
    as [[Hok|[er Her]] _]; [lia..| |].
  - fold (range (filter (monitor s')) (current_block s') b) in Hq. rewrite Hok in Hq. cbn in Hq.
    injection Hq as <- _. apply list_elem_of_join in Hin as (l & Hin & Hl).
    apply list_elem_of_fmap in Hl as (k & -> & Hk). apply elem_of_seqZ in Hk. exists k. split; [lia|done].
  - fold (range (filter (monitor s')) (current_block s') b) in Hq. rewrite Her in Hq. done.
Qed.
End polling.

(** ** Deposits: the monitor's thread, the channel and the application *)
Module Sys.
Record t := mk { mon : ChainMonitor.t DepositHandler.t; table : gmap string ChainMonitorHandle.Row.t }.
Definition queue (s : t) : list DepositData.t := DepositHandler.queue (ChainMonitor.handler (mon s)).
Definition queued (s : t) : list string := map DepositData.tx_hash (queue s).
Definition store (s : t) : EventStore.t := ChainMonitor.event_store (mon s).
End Sys.

Section deposits.
Context `{HX : Hex} `{DA : DepositAbi}.


(** The monitor handles an event (a full channel makes it wait) or saves a
    checkpoint; the application drains the channel into its table. *)
Inductive sys_step : Sys.t -> Sys.t -> Prop :=
| sys_event s log :
    (length (Sys.queue s) < ChainMonitorHandle.CHANNEL_BOUND)%nat ->
    sys_step s (Sys.mk (fst (ChainMonitor.process_event (Sys.mon s) log)) (Sys.table s))
| sys_checkpoint s b :
    sys_step s (Sys.mk (ChainMonitor.set_store (Sys.mon s)
      (EventStore.set_last_processed_block (Sys.store s) b)) (Sys.table s))
| sys_drain s now h table n :
    ChainMonitorHandle.process_deposits (ChainMonitor.handler (Sys.mon s)) (Sys.table s) now = (h, table, n) ->
    sys_step s (Sys.mk (ChainMonitor.set_handler (Sys.mon s) h) table).

(** The process ends and starts again on the same two databases. *)
Definition restarted (s : Sys.t) : Sys.t :=
  Sys.mk (ChainMonitor.set_handler (Sys.mon s) DepositHandler.new) (Sys.table s).
Inductive life_step : Sys.t -> Sys.t -> Prop :=
| life_run s s' : sys_step s s' -> life_step s s'
| life_restart s : life_step s (restarted s).

Definition fresh (f : Filter.t) : Sys.t :=
  Sys.mk (ChainMonitor.mk f DepositHandler.new EventStore.new) ∅.

Definition present (s : Sys.t) (key : string) : Prop :=
  is_Some (Sys.table s !! key) \/ key ∈ Sys.queued s.

Record sys_inv (s : Sys.t) : Prop := {
  si_processed h : EventStore.is_processed (Sys.store s) h = true <-> present s (hex0x h);
  si_once : NoDup (List.filter (fun k => negb (bool_decide (k = "unknown"%string))) (Sys.queued s));
  si_fresh key : key ∈ Sys.queued s -> key <> "unknown"%string -> Sys.table s !! key = None;
  si_bound : (length (Sys.queue s) <= ChainMonitorHandle.CHANNEL_BOUND)%nat;
}.

Lemma hex0x_known b : hex0x b <> "unknown"%string.
Proof. unfold hex0x. cbn. discriminate. Qed.

Lemma fold_insert_spec now (l : list DepositData.t) : forall table key,
  is_Some (fold_left (ChainMonitorHandle.insert_deposit now) l table !! key) <->
  is_Some (table !! key) \/ key ∈ map DepositData.tx_hash l.
Proof.
  induction l as [|d l IH]; intros table key; cbn [fold_left map].
  { split; [auto|]. intros [?|Hin]; [done|]. by apply not_elem_of_nil in Hin. }
  rewrite IH, elem_of_cons. unfold ChainMonitorHandle.insert_deposit.
  destruct (table !! DepositData.tx_hash d) eqn:E.
  - split; [tauto|]. intros [?|[->|?]]; eauto.
  - destruct (decide (key = DepositData.tx_hash d)) as [->|Hne].
    + rewrite lookup_insert_eq. split; eauto.
    + rewrite lookup_insert_ne by done. tauto.
Qed.

(** What one event does: nothing to the queue, or one deposit of its transaction. *)
Lemma event_spec s log :
  let s' := Sys.mk (fst (ChainMonitor.process_event (Sys.mon s) log)) (Sys.table s) in
  (Sys.queue s' = Sys.queue s /\ Sys.store s' = Sys.store s) \/
  (exists d, Sys.queue s' = Sys.queue s ++ [d] /\
     match Log.transaction_hash log with
     | Some h => DepositData.tx_hash d = hex0x h /\ EventStore.is_processed (Sys.store s) h = false /\
         forall h', EventStore.is_processed (Sys.store s') h' = true <->
           EventStore.is_processed (Sys.store s) h' = true \/ hex0x h' = hex0x h
     | None => DepositData.tx_hash d = "unknown"%string /\ Sys.store s' = Sys.store s
     end).
Proof.
  cbv zeta. unfold ChainMonitor.process_event, Sys.queue, Sys.store. cbn [Sys.mon].
  destruct (Log.transaction_hash log) as [h|] eqn:Et.
  - destruct (EventStore.is_processed _ h) eqn:Ep; [auto|].
    unfold handle_event, DepositHandler.deposit_handler, DepositHandler.deposit_event.
    destruct (decode_log log) as [dep|e|w]; cbn; auto. destruct (_ =? 0); cbn; auto.
    destruct (DepositHandler.connected _); cbn; auto. right.
    exists (DepositHandler.deposit_data log dep). split; [done|]. split_and!.
    + unfold DepositHandler.deposit_data. by rewrite Et.
    + done.
    + intros h'. apply mark_processed_spec.
  - unfold handle_event, DepositHandler.deposit_handler, DepositHandler.deposit_event.
    destruct (decode_log log) as [dep|e|w]; cbn; auto. destruct (_ =? 0); cbn; auto.
    destruct (DepositHandler.connected _); cbn; auto. right.
    exists (DepositHandler.deposit_data log dep). split; [done|]. unfold DepositHandler.deposit_data. by rewrite Et.
Qed.

Lemma inv_event s log :
  sys_inv s -> (length (Sys.queue s) < ChainMonitorHandle.CHANNEL_BOUND)%nat ->
  sys_inv (Sys.mk (fst (ChainMonitor.process_event (Sys.mon s) log)) (Sys.table s)).
Proof.
  intros [I1 I2 I3 I4] Hlt. pose proof (event_spec s log) as He.
  set (s' := Sys.mk _ _) in *. assert (Ht : Sys.table s' = Sys.table s) by done. clearbody s'.
  destruct He as [[Hq Hst]|(d & Hq & Hd)].
  - split; unfold present, Sys.queued in *; rewrite ?Hq, ?Hst, ?Ht; auto.
  - assert (Hk : Sys.queued s' = Sys.queued s ++ [DepositData.tx_hash d])
      by (unfold Sys.queued; rewrite Hq; apply map_app).
    assert (Hp : forall k, present s' k <-> present s k \/ k = DepositData.tx_hash d).
    { intros k. unfold present. rewrite Ht, Hk, elem_of_app, list_elem_of_singleton. tauto. }
    destruct (Log.transaction_hash log) as [h|].
    + destruct Hd as (Hd & Hnp & Hst).
      assert (Hn : ~ present s (hex0x h)) by (rewrite <- I1; congruence).
      split.
      * intros h'. rewrite Hst, Hp, I1, Hd. done.
      * rewrite Hk, List.filter_app. apply NoDup_app. split_and!; [done| |].
        -- intros k Hin Hin'. cbn in Hin'. rewrite Hd, bool_decide_false in Hin' by apply hex0x_known.
           apply list_elem_of_singleton in Hin' as ->. apply Hn. right.
           apply list_elem_of_In, filter_In in Hin as [Hin _]. by apply list_elem_of_In.
        -- cbn. rewrite Hd, bool_decide_false by apply hex0x_known. apply NoDup_singleton.
      * intros k Hin Hne. rewrite Hk in Hin. apply elem_of_app in Hin as [Hin|Hin]; rewrite Ht; [by apply I3|].
        apply list_elem_of_singleton in Hin as ->. rewrite Hd. apply eq_None_not_Some.
        intros Hs. apply Hn. by left.
      * rewrite Hq, length_app. cbn. lia.
    + destruct Hd as (Hd & Hst). split.
      * intros h'. rewrite Hst, Hp, I1, Hd. split; [auto|]. intros [?|Hu]; [done|]. by apply hex0x_known in Hu.
      * rewrite Hk, List.filter_app. cbn. rewrite Hd, bool_decide_true by done. cbn. by rewrite app_nil_r.
      * intros k Hin Hne. rewrite Hk in Hin. apply elem_of_app in Hin as [Hin|Hin]; rewrite Ht; [by apply I3|].
        apply list_elem_of_singleton in Hin as ->. congruence.
      * rewrite Hq, length_app. cbn. lia.
Qed.

Lemma sys_inv_step s s' : sys_inv s -> sys_step s s' -> sys_inv s'.
Proof.
  intros I Hs. inversion Hs; subst; [by apply inv_event|by destruct I|].
  destruct I as [I1 I2 I3 I4]. injection H as <- <- <-. split.
  - intros h. unfold present. cbn. rewrite fold_insert_spec. fold (Sys.queued s).
    change (EventStore.is_processed (Sys.store s) h = true <->
      (is_Some (Sys.table s !! hex0x h) \/ hex0x h ∈ Sys.queued s) \/ hex0x h ∈ []).
    rewrite I1. unfold present. pose proof (not_elem_of_nil (hex0x h)). tauto.
  - cbn. constructor.
  - cbn. intros key Hin. by apply not_elem_of_nil in Hin.
  - cbn. lia.
Qed.

Lemma reachable_inv f s : rtc sys_step (fresh f) s -> sys_inv s.
Proof.
  intros H. remember (fresh f) as s0 eqn:E. assert (I : sys_inv s0).
  { subst. split; cbn; [|constructor| |unfold ChainMonitorHandle.CHANNEL_BOUND; lia].
    - intros h. unfold present, EventStore.is_processed. cbn. rewrite !lookup_empty, bool_decide_eq_true.
      pose proof (not_elem_of_nil (hex0x h)). split; [by left|]. intros [?|?]; [done|]. tauto.
    - intros key Hin. by apply not_elem_of_nil in Hin. }
  clear E. induction H; eauto using sys_inv_step.
Qed.

(** C24. Deposits are neither lost nor duplicated while the process runs: in every
    interleaving of handled events, checkpoints and drains, a transaction is marked
    as processed exactly when its deposit is in the channel or in the table, it is
    never in both and never twice in the channel, and the channel stays within its
    bound. *)
Theorem deposits_exactly_once (f : Filter.t) (s : Sys.t) :
  rtc sys_step (fresh f) s ->
  (forall h, EventStore.is_processed (Sys.store s) h = true <->
             is_Some (Sys.table s !! hex0x h) \/ hex0x h ∈ Sys.queued s) /\
  (forall h, hex0x h ∈ Sys.queued s -> Sys.table s !! hex0x h = None) /\
  NoDup (List.filter (fun k => negb (bool_decide (k = "unknown"%string))) (Sys.queued s)) /\
  (length (Sys.queue s) <= ChainMonitorHandle.CHANNEL_BOUND)%nat.
Proof.
  intros H. destruct (reachable_inv f s H) as [I1 I2 I3 I4]. split_and!; [exact I1| |done|done].
  intros h Hin. apply I3; [done|]. apply hex0x_known.
Qed.

(** A processed transaction without a deposit never gets one. *)
Definition lost (h : bytes) (s : Sys.t) : Prop :=
  EventStore.is_processed (Sys.store s) h = true /\ ~ present s (hex0x h).

Lemma lost_step h s s' : lost h s -> life_step s s' -> lost h s'.
Proof.
  intros [Hp Hn] Hs. inversion Hs as [? ? Hst|]; subst.
  - inversion Hst; subst.
    + pose proof (event_spec s log) as He. set (s1 := Sys.mk _ _) in *.
      assert (Ht : Sys.table s1 = Sys.table s) by done. clearbody s1.
      destruct He as [[Hq Hsto]|(d & Hq & Hd)].
      * unfold lost, present, Sys.queued in *. by rewrite Hq, Hsto, Ht.
      * unfold lost, present, Sys.queued in *. rewrite Hq, Ht, map_app, elem_of_app.
        destruct (Log.transaction_hash log) as [h'|].
        -- destruct Hd as (Hd & Hf & Hst'). rewrite Hst'. split; [auto|].
           intros [?|[?|Hin]]; [tauto..|]. apply list_elem_of_singleton in Hin. rewrite Hd in Hin.
           unfold EventStore.is_processed in Hp, Hf. rewrite Hin in Hp. congruence.
        -- destruct Hd as (Hd & ->). split; [done|]. intros [?|[?|Hin]]; [tauto..|].
           apply list_elem_of_singleton in Hin. rewrite Hd in Hin. by apply hex0x_known in Hin.
    + done.
    + injection H as <- <- <-. split; [done|]. unfold present. cbn. rewrite fold_insert_spec.
      fold (Sys.queued s). intros [?|Hin]; [done|]. by apply not_elem_of_nil in Hin.
  - split; [done|]. unfold present in *. cbn. intros [?|Hin]; [auto|]. by apply not_elem_of_nil in Hin.
Qed.

(** A restart loses the deposits still in the channel for good: their transactions
    are already marked as processed, so whatever the monitor sees afterwards, no row
    of such a transaction is ever written. *)
Theorem restart_loses_queued_deposits (f : Filter.t) (s s' : Sys.t) (h : bytes) :
  rtc sys_step (fresh f) s -> hex0x h ∈ Sys.queued s -> rtc life_step (restarted s) s' ->
  EventStore.is_processed (Sys.store s') h = true /\ Sys.table s' !! hex0x h = None.
Proof.
  intros Hr Hin Hl. destruct (reachable_inv f s Hr) as [I1 _ I3 _].
  assert (L : lost h (restarted s)).
  { split; [apply I1; by right|]. unfold present. cbn. intros [[r Hs]|Hin'].
    - rewrite (I3 _ Hin (hex0x_known h)) in Hs. done.
    - by apply not_elem_of_nil in Hin'. }
  assert (L' : lost h s').
  { clear -L Hl. revert L. induction Hl; eauto using lost_step. }
  destruct L' as [Hp Hn]. split; [done|]. apply eq_None_not_Some. intros Hs. apply Hn. by left.
Qed.
End deposits.
