(* ===== verification/ParseArgs.v ===== *)
(** * Command-line values (crates/synddb-shared/src/parse.rs)

    URLs, addresses and event signatures as the chain monitor's configuration reads them.
    An event signature is a hash, a Solidity event definition or a canonical
    signature; the definition is reduced to the canonical signature and hashed. *)
From Stdlib Require Import Ascii.
From S2P Require Import Prelude RustStd Extern SignedTypes Net.

(** ** The standard library *)

(** [find] and [rfind] of a character. *)
Fixpoint find_char (c : ascii) (s : string) : option nat :=
  match s with
  | EmptyString => None
  | String a s' => if decide (a = c) then Some 0%nat else S <$> find_char c s'
  end.
Fixpoint rfind_char (c : ascii) (s : string) : option nat :=
  match s with
  | EmptyString => None
  | String a s' =>
      match rfind_char c s' with
      | Some i => Some (S i)
      | None => if decide (a = c) then Some 0%nat else None
      end
  end.
(** [&s[i..j]], at positions of ASCII characters; it panics when [i > j]. *)
Definition slice {E} (i j : nat) (s : string) : result E string :=
  if Nat.leb i j then Ok (String.substring i (j - i) s) else Panic "slice index starts after its end".

(** [split_whitespace] *)
Fixpoint words_go (s cur : string) : list string :=
  match s with
  | EmptyString => if decide (cur = EmptyString) then [] else [cur]
  | String c s' =>
      if is_ws c then (if decide (cur = EmptyString) then [] else [cur]) ++ words_go s' EmptyString
      else words_go s' (cur +:+ String c EmptyString)
  end.
Definition split_whitespace (s : string) : list string := words_go s EmptyString.

(** The url crate, and alloy's [FromStr] of [B256]. *)
Class UrlText := { Url : Type; url_from_str : string -> result string Url }.
Class B256Text := b256_from_str : string -> result string bytes.
(** Hexadecimal digits with an optional prefix. *)
Class B256TextLaws `{Hex} `{B256Text} : Prop := {
  b256_hex b : length b = 32%nat -> b256_from_str (hex0x b) = Ok b;
  b256_paren s : contains "(" s = true -> exists e, b256_from_str s = Err e;
}.

(** ** parse.rs *)
Definition parse_url `{UrlText} (s : string) : result string Url :=
  map_err (fun e => "Invalid URL: " +:+ e) (url_from_str s).

Definition parse_address `{AddressText} (s : string) : result string bytes :=
  map_err (fun e => "Invalid address: " +:+ e) (address_parse s).

(** The closure of [filter_map]: the type of one parameter. *)
Definition param_type (param : string) : option string :=
  let param := trim param in
  if decide (param = EmptyString) then None else
  match split_whitespace param with
  | [] => None
  | part0 :: parts => if decide (part0 = "indexed"%string) then head parts else Some part0
  end.

(** [None] is [Err tt]. *)
Definition extract_canonical_signature (event_def : string) : result unit string :=
  let? event_def := ok_or tt (trim <$> strip_prefix "event " event_def) in
  let? paren_start := ok_or tt (find_char "(" event_def) in
  let? paren_end := ok_or tt (rfind_char ")" event_def) in
  let name := trim (String.substring 0 paren_start event_def) in
  let? params := slice (paren_start + 1) paren_end event_def in
  let types := omap param_type (split_char "," params) in
  Ok (name +:+ "(" +:+ join "," types +:+ ")").

Definition parse_event_signature_from_definition `{Crypto} (s : string) : result string bytes :=
  let s := trim s in
  let? signature :=
    if starts_with "event " s then
      map_err (fun _ => "Invalid event definition: " +:+ s) (extract_canonical_signature s)
    else if contains "(" s && contains ")" s then Ok s
    else Err "Invalid format. Expected hex string (0x...) or event definition (event Name(...))"%string in
  Ok (keccak256 (as_bytes signature)).

Definition parse_b256 `{Crypto} `{B256Text} (s : string) : result string bytes :=
  match b256_from_str s with
  | Ok hash => Ok hash
  | Err _ => parse_event_signature_from_definition s
  | Panic w => Panic w
  end.

(** ** Lemmas on the string functions *)
Lemma string_app_empty_l s : EmptyString +:+ s = s.
Proof. done. Qed.
#[local] Ltac app_simp := repeat rewrite string_app_cons; rewrite ?string_app_empty_l; cbn.
Lemma string_app_empty_r s : s +:+ EmptyString = s.
Proof. induction s as [|x s IH]; [done|]. rewrite string_app_cons. by rewrite IH. Qed.
Definition no_char (c : ascii) (s : string) : Prop := all_chars (fun a => a <> c) s.
Definition blank (s : string) : Prop := all_chars (fun a => is_ws a = true) s.

Lemma find_char_app c a b : no_char c a -> find_char c (a +:+ String c b) = Some (String.length a).
Proof. induction 1 as [|x a Hx _ IH]; app_simp; [by rewrite decide_True|]. by rewrite decide_False, IH. Qed.
Lemma rfind_char_none c s : no_char c s -> rfind_char c s = None.
Proof. induction 1 as [|x s Hx _ IH]; cbn; [done|]. by rewrite IH, decide_False. Qed.
Lemma rfind_char_app c a b : no_char c b -> rfind_char c (a +:+ String c b) = Some (String.length a).
Proof.
  intros Hb. induction a as [|x a IH]; app_simp; [by rewrite (rfind_char_none _ _ Hb), decide_True|]. by rewrite IH.
Qed.
Lemma find_rfind_distinct s i j : forall (c d : ascii), find_char c s = Some i -> rfind_char d s = Some j -> c <> d -> i <> j.
Proof.
  revert i j. induction s as [|a s IH]; intros i j c d; cbn; [done|].
  destruct (rfind_char d s) as [j'|] eqn:Ej, (find_char c s) as [i'|] eqn:Ei; cbn;
    repeat case_decide; intros; simplify_eq; try done. by intros [= ->]; eapply (IH _ _ c d).
Qed.
Lemma substring_prefix a b : String.substring 0 (String.length a) (a +:+ b) = a.
Proof. induction a as [|x a IH]; app_simp; [by destruct b|]. by rewrite IH. Qed.
Lemma substring_middle a b d : String.substring (String.length a) (String.length b) (a +:+ b +:+ d) = b.
Proof. induction a as [|x a IH]; app_simp; [apply substring_prefix|done]. Qed.

Lemma all_chars_app_iff P a b : all_chars P (a +:+ b) <-> all_chars P a /\ all_chars P b.
Proof.
  split.
  - induction a as [|x a IH]; app_simp; intros H; [split; [constructor|done]|].
    inversion H; subst. destruct IH; [done|]. split; [by constructor|done].
  - intros [Ha Hb]. induction Ha; app_simp; [done|]. by constructor.
Qed.
Lemma trim_start_blank a s : blank a -> trim_start (a +:+ s) = trim_start s.
Proof. induction 1 as [|x a Hx _ IH]; app_simp; [done|]. by rewrite Hx. Qed.
Lemma trim_start_solid c s : is_ws c = false -> trim_start (String c s) = String c s.
Proof. intros H. cbn. by rewrite H. Qed.
Lemma trim_start_solid_app a c s : is_ws c = false -> trim_start (a +:+ String c s) = trim_start a +:+ String c s.
Proof. intros H. induction a as [|x a IH]; app_simp; [by rewrite H|]. by destruct (is_ws x). Qed.
Lemma trim_start_idem s : trim_start (trim_start s) = trim_start s.
Proof. induction s as [|c s IH]; [done|]. cbn. destruct (is_ws c) eqn:E; [done|]. by apply trim_start_solid. Qed.
Lemma trim_start_chars P s : all_chars P s -> all_chars P (trim_start s).
Proof. induction 1 as [|x s Hx Hs IH]; cbn; [constructor|]. destruct (is_ws x); [done|by constructor]. Qed.
Lemma trim_end_blank a : blank a -> trim_end a = EmptyString.
Proof. induction 1 as [|x a Hx _ IH]; cbn; [done|]. by rewrite IH, Hx. Qed.
Lemma trim_end_solid a c s : is_ws c = false -> trim_end (a +:+ String c s) = a +:+ String c (trim_end s).
Proof.
  intros Hc. induction a as [|x a IH]; app_simp.
  - rewrite Hc. by destruct (trim_end s).
  - rewrite IH. by destruct a.
Qed.
Lemma trim_end_idem s : trim_end (trim_end s) = trim_end s.
Proof.
  induction s as [|c s IH]; cbn; [done|]. destruct (trim_end s) as [|x t] eqn:E.
  - destruct (is_ws c) eqn:Ec; cbn; by rewrite ?Ec.
  - cbn [trim_end]. cbn [trim_end] in IH. by rewrite IH.
Qed.
Lemma trim_end_chars P s : all_chars P s -> all_chars P (trim_end s).
Proof.
  induction 1 as [|x s Hx _ IH]; cbn; [constructor|]. destruct (trim_end s); [|by constructor].
  destruct (is_ws x); [constructor|]. by repeat constructor.
Qed.
Lemma trim_end_word s b : all_chars (fun a => is_ws a = false) s -> blank b -> trim_end (s +:+ b) = s.
Proof.
  intros Hs Hb. induction Hs as [|x s Hx _ IH]; app_simp; [by apply trim_end_blank|].
  rewrite IH. destruct s; [by rewrite Hx|done].
Qed.
Lemma trim_word a s b : all_chars (fun a => is_ws a = false) s -> blank a -> blank b -> trim (a +:+ s +:+ b) = s.
Proof.
  intros Hs Ha Hb. unfold trim. rewrite trim_start_blank by done. destruct Hs as [|x s Hx Hs].
  - app_simp. rewrite <- (string_app_empty_r b), trim_start_blank by done. done.
  - rewrite string_app_cons, trim_start_solid by done. change (String x (s +:+ b)) with (String x s +:+ b).
    by apply trim_end_word; [constructor|].
Qed.

(** The words of a text do not change when it is trimmed. *)
Lemma words_trim_start s : split_whitespace (trim_start s) = split_whitespace s.
Proof.
  unfold split_whitespace. induction s as [|c s IH]; cbn [trim_start]; [done|].
  destruct (is_ws c) eqn:E; [|done]. cbn [words_go]. by rewrite E, decide_True, IH.
Qed.
Lemma words_trim_end s : forall cur, words_go (trim_end s) cur = words_go s cur.
Proof.
  induction s as [|c s IH]; intros cur; cbn [trim_end]; [done|].
  assert (H : words_go (String c (trim_end s)) cur = words_go (String c s) cur)
    by (cbn [words_go]; destruct (is_ws c); by rewrite IH).
  destruct (trim_end s) as [|x t]; [|done]. destruct (is_ws c) eqn:Ec; [|done].
  rewrite <- H. cbn [words_go]. rewrite Ec. cbn. by rewrite app_nil_r.
Qed.
Lemma words_trim s : split_whitespace (trim s) = split_whitespace s.
Proof. unfold trim, split_whitespace at 1. rewrite words_trim_end. apply words_trim_start. Qed.

Lemma param_type_words text ty rest :
  split_whitespace text = ty :: rest -> ty <> "indexed"%string -> param_type text = Some ty.
Proof.
  intros Hw Hi. unfold param_type. rewrite words_trim, Hw, (decide_False (P := ty = _)) by done.
  rewrite decide_False; [done|]. intros He. by rewrite <- words_trim, He in Hw.
Qed.

Lemma split_join c l : l <> [] -> Forall (no_char c) l -> split_char c (join (String c EmptyString) l) = l.
Proof.
  intros Hl Hf. induction Hf as [|x l Hx Hf IH]; [done|]. destruct l as [|y l]; [by apply split_char_none|].
  change (join _ (x :: y :: l)) with (x +:+ String c (join (String c EmptyString) (y :: l))).
  rewrite split_char_app by done. by rewrite IH.
Qed.

(** ** Event signatures *)
Section events.
Context `{HX : Hex} `{CR : Crypto} `{BT : B256Text} {BL : B256TextLaws}.

(** A parameter's text: its type is its first word. *)
Definition declares (text ty : string) : Prop :=
  no_char "," text /\ ty <> "indexed"%string /\ exists rest, split_whitespace text = ty :: rest.
Definition canonical (name : string) (types : list string) : string := name +:+ "(" +:+ join "," types +:+ ")".

Lemma declared_types texts types :
  Forall2 declares texts types -> omap param_type (split_char "," (join "," texts)) = types.
Proof using.
  intros Hf. destruct (decide (texts = [])) as [->|Hn]; [by inversion Hf|]. rewrite split_join; [|done|].
  - clear Hn. induction Hf as [|text ty texts types (_ & Hi & rest & Hw) _ IH]; [done|].
    cbn. by rewrite (param_type_words _ _ _ Hw Hi), IH.
  - clear Hn. induction Hf as [|text ty texts types (Hc & _) _ IH]; by constructor.
Qed.

Lemma extract_canonical pre name post texts types tail :
  blank pre -> blank post -> all_chars (fun a => is_ws a = false /\ a <> "("%char) name ->
  Forall2 declares texts types -> no_char ")" tail ->
  extract_canonical_signature ("event " +:+ pre +:+ name +:+ post +:+ "(" +:+ join "," texts +:+ ")" +:+ tail) =
    Ok (canonical name types).
Proof using.
  intros Hpre Hpost Hname Hf Htail. unfold extract_canonical_signature.
  assert (Hws : all_chars (fun a => is_ws a = false) name) by (eapply all_chars_impl; [|exact Hname]; by intros ? []).
  set (ps := join "," texts).
  assert (Htr : exists lead, no_char "(" lead /\ trim lead = name /\
            trim (pre +:+ name +:+ post +:+ "(" +:+ ps +:+ ")" +:+ tail) = lead +:+ String "(" (ps +:+ String ")" (trim_end tail))).
  { exists (trim_start (name +:+ post)). split_and!.
    - apply trim_start_chars, all_chars_app_iff. split; [eapply all_chars_impl; [|exact Hname]; by intros ? []|].
      eapply all_chars_impl; [|exact Hpost]. by intros c Hc ->.
    - unfold trim. rewrite trim_start_idem. change (trim (EmptyString +:+ name +:+ post) = name). by apply trim_word; [|constructor|].
    - unfold trim. rewrite trim_start_blank by done. rewrite <- (string_app_assoc name).
      change ("(" +:+ ps +:+ ")" +:+ tail) with (String "(" (ps +:+ String ")" tail)).
      rewrite trim_start_solid_app by done.
      rewrite <- string_app_cons, <- string_app_assoc, trim_end_solid by done. by rewrite string_app_assoc. }
  destruct Htr as (lead & Hl & Hn & Htr). rewrite strip_prefix_app. cbn [fmap option_fmap option_map ok_or result_bind].
  rewrite Htr, find_char_app by done. cbn [ok_or result_bind].
  assert (Ha : forall t, lead +:+ String "(" (ps +:+ t) = (lead +:+ "(") +:+ ps +:+ t)
    by (intros; by rewrite (string_app_assoc lead)).
  assert (Hr : rfind_char ")" (lead +:+ String "(" (ps +:+ String ")" (trim_end tail))) = Some (String.length (lead +:+ "(") + String.length ps)%nat).
  { rewrite Ha, <- string_app_assoc, rfind_char_app by (by apply trim_end_chars). by rewrite string_length_app. }
  rewrite Hr. cbn [ok_or result_bind]. rewrite substring_prefix, Hn, Ha. unfold slice.
  rewrite string_length_app. cbn [String.length]. rewrite (proj2 (Nat.leb_le _ _)) by lia.
  replace (String.length lead + 1 + String.length ps - (String.length lead + 1))%nat with (String.length ps) by lia.
  cbn [result_bind]. replace (String.length lead + 1)%nat with (String.length (lead +:+ "(")) by (by rewrite string_length_app).
  rewrite substring_middle. unfold ps. by rewrite (declared_types _ _ Hf).
Qed.

Lemma trim_event lead b tail :
  blank lead -> trim (lead +:+ "event " +:+ b +:+ ")" +:+ tail) = "event " +:+ b +:+ ")" +:+ trim_end tail.
Proof using.
  intros Hl. unfold trim. rewrite trim_start_blank by done.
  change ("event " +:+ b +:+ ")" +:+ tail) with (String "e" ("vent " +:+ b +:+ String ")" tail)).
  rewrite trim_start_solid, <- string_app_cons, <- string_app_assoc, trim_end_solid by done. by rewrite string_app_assoc.
Qed.
Lemma trim_canonical name types : all_chars (fun a => is_ws a = false) name -> trim (canonical name types) = canonical name types.
Proof using.
  intros Hn. unfold trim, canonical. change ("(" +:+ ?t) with (String "(" t). rewrite trim_start_solid_app by done.
  assert (trim_start name = name) as -> by (destruct Hn; [done|by apply trim_start_solid]).
  rewrite <- string_app_cons, <- string_app_assoc. change ")"%string with (String ")" EmptyString). by rewrite trim_end_solid.
Qed.
Lemma strip_prefix_inside p a x b r :
  strip_prefix p (a +:+ String x b) = Some r -> no_char x p -> exists a', a = p +:+ a'.
Proof using.
  revert a. induction p as [|c p IH]; intros a H Hp; [by exists a|]. inversion Hp as [|? ? Hc Hp']; subst.
  destruct a as [|y a]; rewrite ?string_app_cons, ?string_app_empty_l in H; cbn in H; case_decide; subst; [done..| |done].
  destruct (IH a H Hp') as [a' ->]. by exists a'.
Qed.
Lemma canonical_not_definition name types :
  all_chars (fun a => is_ws a = false) name -> starts_with "event " (canonical name types) = false.
Proof using.
  intros Hn. unfold starts_with, canonical. destruct (strip_prefix _ _) as [r|] eqn:E; [|done].
  apply (strip_prefix_inside "event " name "("%char (join "," types +:+ ")")) in E as [a' ->]; [|by repeat constructor].
  apply all_chars_app_iff in Hn as [Hn _].
  repeat match goal with H : all_chars _ (String _ _) |- _ => inversion H; clear H; subst end.
  by match goal with H : is_ws " " = false |- _ => vm_compute in H end.
Qed.

(** A Solidity event definition, however it is spaced and with whatever parameter names,
    [indexed] markers and text after the parameters, stands for the same hash
    as its canonical signature: the hash of the name and the parameters' types. *)
Theorem event_definition_is_canonical (lead pre name post tail : string) (texts types : list string) :
  blank lead -> blank pre -> blank post ->
  all_chars (fun a => is_ws a = false /\ a <> "("%char) name ->
  Forall2 declares texts types -> no_char ")" tail ->
  parse_b256 (lead +:+ "event " +:+ pre +:+ name +:+ post +:+ "(" +:+ join "," texts +:+ ")" +:+ tail) =
    Ok (keccak256 (as_bytes (canonical name types))) /\
  parse_b256 (canonical name types) = Ok (keccak256 (as_bytes (canonical name types))).
Proof using BL.
  intros Hl Hpre Hpost Hname Hf Htail. split.
  - destruct (b256_paren (lead +:+ "event " +:+ pre +:+ name +:+ post +:+ "(" +:+ join "," texts +:+ ")" +:+ tail)) as [e He].
    { do 5 apply contains_app_r. apply contains_prefix. }
    unfold parse_b256. rewrite He. unfold parse_event_signature_from_definition.
    assert (Ht : trim (lead +:+ "event " +:+ pre +:+ name +:+ post +:+ "(" +:+ join "," texts +:+ ")" +:+ tail) =
              "event " +:+ pre +:+ name +:+ post +:+ "(" +:+ join "," texts +:+ ")" +:+ trim_end tail).
    { pose proof (trim_event lead (pre +:+ name +:+ post +:+ "(" +:+ join "," texts) tail Hl) as Ht.
      by rewrite !string_app_assoc in Ht. }
    rewrite Ht, starts_with_app.
    by rewrite (extract_canonical pre name post texts types) by (done || by apply trim_end_chars).
  - assert (Hws : all_chars (fun a => is_ws a = false) name) by (eapply all_chars_impl; [|exact Hname]; by intros ? []).
    destruct (b256_paren (canonical name types)) as [e He]; [apply contains_app_mid|].
    unfold parse_b256. rewrite He. unfold parse_event_signature_from_definition.
    rewrite trim_canonical, canonical_not_definition by done.
    assert (contains "(" (canonical name types) = true) as -> by apply contains_app_mid.
    assert (contains ")" (canonical name types) = true) as -> by (do 3 apply contains_app_r; reflexivity). done.
Qed.

(** Reading an event signature panics exactly on event definitions whose last closing
    parenthesis is before the first opening one. *)
Theorem parse_b256_panics_iff (s : string) :
  (forall w, b256_from_str s <> Panic w) ->
  (exists w, parse_b256 s = Panic w) <->
  (exists e d i j, b256_from_str s = Err e /\ strip_prefix "event " (trim s) = Some d /\
     find_char "(" (trim d) = Some i /\ rfind_char ")" (trim d) = Some j /\ (j < i)%nat).
Proof using.
  intros Hb. unfold parse_b256. destruct (b256_from_str s) as [h|e|w]; [|
    |by destruct (Hb w)].
  { split; [by intros [w Hw]|]. by intros (e & d & i & j & He & _). }
  unfold parse_event_signature_from_definition, starts_with, extract_canonical_signature.
  destruct (strip_prefix "event " (trim s)) as [d|]; cbn [fmap option_fmap option_map ok_or result_bind].
  - destruct (find_char "(" (trim d)) as [i|] eqn:Ei; cbn [ok_or result_bind map_err]; [|naive_solver].
    destruct (rfind_char ")" (trim d)) as [j|] eqn:Ej; cbn [ok_or result_bind map_err]; [|naive_solver].
    assert (i <> j) by (by eapply find_rfind_distinct). unfold slice. destruct (Nat.leb_spec (i + 1) j); cbn [result_bind map_err].
    + split; [by intros [w Hw]|]. intros (? & ? & i' & j' & _ & [= <-] & Hi & Hj & Hlt). simplify_eq. lia.
    + split; [intros _|by eexists]. exists e, d, i, j. split_and!; [done..|lia].
  - destruct (contains "(" _ && _); cbn [result_bind]; naive_solver.
Qed.
End events.
