(* ===== verification/ChainWitnesses.v ===== *)
(** * Concrete runs of the chain monitor

    A chain of 150 blocks with three deposit logs in two transactions, behind a
    provider that refuses ranges of more than two blocks. *)
From Stdlib Require Import Ascii Strings.Byte.
From S2P Require Import Prelude RustStd Extern Reference SignedTypes Outbound ChainMonitor ChainProps ParseArgs Net.

(** The amount of a deposit is the length of its data. *)
#[export] Instance toy_deposit_abi : DepositAbi := {|
  decode_log log := Ok (Deposit.mk [] [] (Z.of_nat (length (Log.data log))) (Log.data log));
  DEPOSIT_SIGNATURE_HASH := replicate 32 x0d;
|}.

Definition tx_a : bytes := replicate 32 x0a.
Definition tx_b : bytes := replicate 32 x0b.
Definition log_a : Log.t := Log.mk [] [] [x01] (Some 3) (Some tx_a) (Some 0).
Definition log_b1 : Log.t := Log.mk [] [] [x01; x02] (Some 120) (Some tx_b) (Some 0).
Definition log_b2 : Log.t := Log.mk [] [] [x01; x02; x03] (Some 120) (Some tx_b) (Some 1).
Definition ex_blocks (k : Z) : list Log.t :=
  if k =? 3 then [log_a] else if k =? 120 then [log_b1; log_b2] else [].

Definition ex_provider (f : Filter.t) : Attempt (list Log.t) :=
  let '(a, b) := EthClient.block_range f in
  if 2 <=? b - a then Failed (ErrorResp "query returned more than 2 blocks")
  else Answered (logs_between ex_blocks a b).

Lemma ex_honest f : honest f ex_blocks ex_provider.
Proof. intros a b l. unfold ex_provider. cbn. case_match; [done|]. by intros [= <-]. Qed.
Lemma ex_answers f a b : answers_blocks f ex_provider a b.
Proof.
  split.
  - intros k _. exists (logs_between ex_blocks k k). unfold ex_provider. cbn. case_match; [|done].
    bool_to_prop. lia.
  - intros ? ? e. unfold ex_provider. cbn. by case_match.
Qed.

Definition ex_filter : Filter.t := Filter.from_block 1 (Filter.new (replicate 20 x01)).

Lemma get_logs_complete_witness :
  EthClient.get_logs ex_provider (range ex_filter 1 150) = Ok (logs_between ex_blocks 1 150) /\
  logs_between ex_blocks 1 150 = [log_a; log_b1; log_b2].
Proof.
  split; [|vm_compute; reflexivity].
  apply (get_logs_complete ex_filter ex_blocks ex_provider 1 150);
    [apply ex_honest|lia|lia|apply ex_answers].
Defined.

(** ** Polling *)
Definition ex_monitor : ChainMonitor.t DepositHandler.t :=
  ChainMonitor.mk ex_filter DepositHandler.new EventStore.new.
Definition poll_at (latest : option Z) : ChainMonitor.Poll :=
  ChainMonitor.Build_Poll latest ex_provider false false.
Definition ex_polls : list ChainMonitor.Poll := [poll_at (Some 150); poll_at None; poll_at (Some 150)].
Definition still_connected (h : DepositHandler.t) : Prop := DepositHandler.connected h = true.

Lemma connected_kept h log : still_connected h -> still_connected (fst (handle_event h log)).
Proof.
  unfold still_connected, handle_event, DepositHandler.deposit_handler, DepositHandler.deposit_event.
  intros Hc. destruct (decode_log log); cbn; auto. case_match; cbn; auto. by rewrite Hc.
Qed.
Lemma deposit_accepted log : log ∈ [log_a; log_b1; log_b2] -> accepted_log still_connected log.
Proof.
  intros Hin h Hc. unfold still_connected in Hc. unfold handle_event, DepositHandler.deposit_handler,
    DepositHandler.deposit_event. cbn -[Z.of_nat].
  repeat (apply elem_of_cons in Hin as [->|Hin]; [by rewrite Hc|]). by apply not_elem_of_nil in Hin.
Qed.
Lemma ex_honest_poll m l : match l with Some L => 0 <= L < 2 ^ 62 | None => True end ->
  honest_poll ex_blocks (m : ChainMonitor.t DepositHandler.t) (poll_at l).
Proof. intros Hl. split; [apply ex_honest|]. by intros L [= ->]. Qed.

Lemma polling_reaches_every_event_witness :
  let s := fold_left ChainMonitor.rpc_turn ex_polls (ChainMonitor.rpc_start ex_monitor) in
  150 <= ChainMonitor.current_block s /\
  EventStore.is_processed (ChainMonitor.event_store (ChainMonitor.monitor s)) tx_b = true.
Proof.
  destruct (polling_reaches_every_event ex_blocks still_connected connected_kept ex_monitor 150 ex_polls
    [poll_at (Some 150); poll_at (Some 150)]) as [Hb Hl].
  - reflexivity.
  - vm_compute. discriminate.
  - vm_compute. reflexivity.
  - vm_compute. reflexivity.
  - unfold ex_polls. repeat (apply Forall_cons_2; [apply ex_honest_poll; try lia; done|]). apply Forall_nil_2.
  - unfold ex_polls. apply sublist_skip, sublist_cons, sublist_skip, sublist_nil.
  - repeat (apply Forall_cons_2; [exists 150; split_and!; [done|lia|apply ex_answers]|]). apply Forall_nil_2.
  - vm_compute. discriminate.
  - split; [exact Hb|]. apply (Hl 120 log_b1 tx_b); [vm_compute; split; discriminate|apply list_elem_of_here| |done].
    apply deposit_accepted. apply list_elem_of_further, list_elem_of_here.
Defined.

Lemma second_log_of_transaction_skipped_witness :
  let m := fst (ChainMonitor.process_event ex_monitor log_b1) in
  ChainMonitor.process_event m log_b2 = (m, Ok tt).
Proof.
  apply (second_log_of_transaction_skipped still_connected connected_kept ex_monitor log_b1 log_b2 tx_b);
    [reflexivity|reflexivity|reflexivity|]. apply deposit_accepted. apply list_elem_of_further, list_elem_of_here.
Defined.

Lemma failed_event_not_retried_witness :
  let s := ChainMonitor.rpc_turn (ChainMonitor.rpc_start ex_monitor) (poll_at (Some 150)) in
  forall log, log ∈ [log_b1; log_b2] -> exists k, 101 <= k /\ log ∈ ex_blocks k.
Proof.
  intros s. apply (failed_event_not_retried ex_blocks still_connected connected_kept
    (ChainMonitor.rpc_start ex_monitor) (poll_at (Some 150)) (poll_at (Some 150)) [log_a] [log_b1; log_b2]
    101 150 []).
  - reflexivity.
  - vm_compute. reflexivity.
  - apply ex_honest_poll. lia.
  - apply Forall_nil_2.
  - apply ex_honest_poll. lia.
  - vm_compute. split; [discriminate|reflexivity].
  - vm_compute. reflexivity.
Defined.

(** ** Deposits *)
Definition sys_run (logs : list Log.t) (s : Sys.t) : Sys.t :=
  fold_left (fun s log => Sys.mk (fst (ChainMonitor.process_event (Sys.mon s) log)) (Sys.table s)) logs s.
Definition ex_sys : Sys.t := sys_run [log_a; log_b1] (fresh ex_filter).

Lemma ex_sys_reachable : rtc sys_step (fresh ex_filter) ex_sys.
Proof.
  eapply rtc_l; [apply (sys_event (fresh ex_filter) log_a); cbn; unfold ChainMonitorHandle.CHANNEL_BOUND; lia|].
  eapply rtc_l; [|apply rtc_refl]. apply sys_event. vm_compute. lia.
Qed.

Lemma deposits_exactly_once_witness :
  EventStore.is_processed (Sys.store ex_sys) tx_a = true <->
  is_Some (Sys.table ex_sys !! hex0x tx_a) \/ hex0x tx_a ∈ Sys.queued ex_sys.
Proof.
  destruct (deposits_exactly_once ex_filter ex_sys ex_sys_reachable) as [Hp _]. apply Hp.
Defined.

Lemma restart_loses_queued_deposits_witness :
  EventStore.is_processed (Sys.store (sys_run [log_a] (restarted ex_sys))) tx_a = true /\
  Sys.table (sys_run [log_a] (restarted ex_sys)) !! hex0x tx_a = None.
Proof.
  apply (restart_loses_queued_deposits ex_filter ex_sys _ tx_a ex_sys_reachable).
  - vm_compute. apply list_elem_of_here.
  - eapply rtc_l; [|apply rtc_refl]. apply life_run. apply sys_event. vm_compute. lia.
Defined.

(** ** Event signatures on the command line *)
#[export] Instance ref_b256 : B256Text := fun s =>
  if contains "(" s then Err "invalid character"%string else
  let? b := hex_decode (strip_prefix_or_self "0x" s) in
  if bool_decide (length b = 32%nat) then Ok b else Err "invalid string length"%string.

Lemma hex_no_paren s : string_all is_hexdigit s = true -> contains "(" s = false.
Proof.
  induction s as [|c s IH]; cbn [string_all]; [done|]. intros [Hc Hs]%andb_true_iff. cbn [contains].
  rewrite (IH Hs), orb_false_r. unfold starts_with. cbn [strip_prefix]. case_decide as Hd; [|done].
  subst c. by vm_compute in Hc.
Qed.
Lemma hex_no_paren_prefixed b : contains "(" (hex0x b) = false.
Proof. apply (hex_no_paren (hex_encode b)), hex_encode_digits. Qed.
#[export] Instance ref_b256_laws : B256TextLaws.
Proof.
  constructor.
  - intros b Hb. unfold b256_from_str, ref_b256. rewrite (hex_no_paren_prefixed b).
    unfold strip_prefix_or_self, hex0x. rewrite strip_prefix_app, hex_decode_encode. cbn [result_bind].
    by rewrite bool_decide_true.
  - intros s Hs. unfold b256_from_str, ref_b256. rewrite Hs. by eexists.
Qed.

Lemma event_definition_is_canonical_witness :
  parse_b256 " event Deposit (address indexed from, uint256  amount );" =
    parse_b256 "Deposit(address,uint256)" /\
  parse_b256 "Deposit(address,uint256)" = Ok (keccak256 (as_bytes "Deposit(address,uint256)")).
Proof.
  destruct (event_definition_is_canonical " " "" "Deposit" " " ";"
              ["address indexed from"; " uint256  amount "]%string ["address"; "uint256"]%string) as [Ha Hb].
  1-3: by repeat constructor.
  - repeat constructor; discriminate.
  - constructor; [|constructor; [|constructor]]; (split; [repeat constructor; discriminate|]); (split; [discriminate|]);
      eexists; vm_compute; reflexivity.
  - repeat constructor; discriminate.
  - split; [|exact Hb]. etransitivity; [exact Ha|symmetry; exact Hb].
Defined.

Lemma parse_b256_panics_iff_witness : exists w, parse_b256 "event )Deposit(" = Panic w.
Proof.
  apply (parse_b256_panics_iff "event )Deposit("); [vm_compute; discriminate|].
  exists "invalid character"%string, ")Deposit("%string, 8%nat, 0%nat. split_and!; [vm_compute; reflexivity..|lia].
Defined.
