(* ===== verification/Market.v ===== *)
(** * The prediction market
    (examples/prediction-market/src: schema.rs, market.rs, trading.rs, bridge.rs, app.rs,
    chain_monitor.rs, http.rs, main.rs)

    The application the repository ships with the client: accounts, markets, positions
    and trades in six SQLite tables, deposits from and withdrawals to the bridge.  A table
    is its rows in order of their ids with the largest id given out; nothing deletes a
    row.  An operation that checks first and writes in a transaction afterwards is two
    definitions and their composition, since requests have connections of their own and
    can interleave between the two.  [now] is [unixepoch()]. *)
From Stdlib Require Import Ascii Strings.Byte.
From S2P Require Import Prelude RustStd Extern SignedTypes Net Outbound ChainMonitor.

(** ** SQLite *)

(** [a * b] on [i64] in a release build. *)
Definition i64_mul (a b : Z) : Z := as_i64 (a * b).
Definition is_i64 (z : Z) : Prop := - 2 ^ 63 <= z < 2 ^ 63.
#[export] Instance is_i64_dec z : Decision (is_i64 z).
Proof. unfold is_i64. apply _. Defined.

(** What the engine leaves open here: an integer sum that overflows becomes a real; an
    insertion that ends in its conflict clause may use up an id; and [UPDATE .. LIMIT]
    is an option of the build. *)
Class Sqlite := {
  Real : Type;
  real_add : Z + Real -> Z + Real -> Z + Real;
  real_sub : Z + Real -> Z + Real -> Z + Real;
  real_positive : Real -> bool;
  conflict_uses_id : bool;
  update_limit : bool;
}.

(** An error of rusqlite, or of [bail!]. *)
Inductive MarketError := NoRows | SqliteFailure (message : string) | Bail (message : string).
Definition MarketError_to_string (e : MarketError) : string :=
  match e with NoRows => "Query returned no rows" | SqliteFailure m | Bail m => m end.

Section values.
Context `{SL : Sqlite}.
(** The value of an INTEGER column that sums are written to. *)
Definition num : Type := Z + Real.
Definition sql_add (a b : num) : num :=
  match a, b with
  | inl x, inl y => if bool_decide (is_i64 (x + y)) then inl (x + y) else real_add a b
  | _, _ => real_add a b
  end.
Definition sql_sub (a b : num) : num :=
  match a, b with
  | inl x, inl y => if bool_decide (is_i64 (x - y)) then inl (x - y) else real_sub a b
  | _, _ => real_sub a b
  end.
Definition sql_positive (a : num) : bool := match a with inl x => 0 <? x | inr r => real_positive r end.
(** [row.get(idx)] for an [i64]. *)
Definition get_i64 (idx : Z) (name : string) (v : num) : result MarketError Z :=
  match v with
  | inl z => Ok z
  | inr _ => Err (SqliteFailure ("Invalid column type Real at index: " +:+ int_to_string idx +:+ ", name: " +:+ name))
  end.
End values.

Module Table.
Section ops.
Context {A : Type}.
Record t := mk { rows : list A; last_id : Z }.
Definition empty : t := mk [] 0.
(** AUTOINCREMENT *)
Definition next_id (tb : t) : result MarketError Z :=
  if last_id tb <? i64_max then Ok (last_id tb + 1) else Err (SqliteFailure "database or disk is full").
Definition insert (row : Z -> A) (tb : t) : result MarketError (t * Z) :=
  let? id := next_id tb in Ok (mk (rows tb ++ [row id]) id, id).
Definition update (where_ : A -> bool) (set : A -> A) (tb : t) : t :=
  mk (map (fun r => if where_ r then set r else r) (rows tb)) (last_id tb).
(** [query_row] *)
Definition query_row {B} (where_ : A -> bool) (f : A -> result MarketError B) (tb : t) : result MarketError B :=
  match List.filter where_ (rows tb) with r :: _ => f r | [] => Err NoRows end.
(** An insertion that met a conflict and did something else. *)
Definition after_conflict `{Sqlite} (id : Z) (tb : t) : t :=
  if conflict_uses_id then mk (rows tb) id else tb.
End ops.
Arguments t : clear implicits.
End Table.

(** ** schema.rs, and the row types of market.rs, trading.rs, bridge.rs and app.rs *)
Module Market.
Record t := mk {
  id : Z;
  question : string;
  description : option string;
  resolution_time : Z;
  outcome : string;
  resolved_at : option Z;
  created_at : Z;
}.
Definition resolve (o : string) (now : Z) (m : t) : t :=
  mk (id m) (question m) (description m) (resolution_time m) o (Some now) (created_at m).
End Market.

Module AccountRow.
Section row.
Context `{SL : Sqlite}.
Record t := mk { id : Z; name : string; balance : num; created_at : Z }.
Definition add (x : Z) (a : t) : t := mk (id a) (name a) (sql_add (balance a) (inl x)) (created_at a).
Definition sub (x : Z) (a : t) : t := mk (id a) (name a) (sql_sub (balance a) (inl x)) (created_at a).
End row.
End AccountRow.

Module Account.
Record t := mk { id : Z; name : string; balance : Z; created_at : Z }.
End Account.

Module PositionRow.
Section row.
Context `{SL : Sqlite}.
Record t := mk { id : Z; account_id : Z; market_id : Z; outcome : string; shares : num; cost_basis : num }.
Definition key (a m : Z) (o : string) (p : t) : bool :=
  (account_id p =? a) && (market_id p =? m) && bool_decide (outcome p = o).
Definition bought (n cost : Z) (p : t) : t :=
  mk (id p) (account_id p) (market_id p) (outcome p) (sql_add (shares p) (inl n)) (sql_add (cost_basis p) (inl cost)).
Definition sold (n : Z) (p : t) : t :=
  mk (id p) (account_id p) (market_id p) (outcome p) (sql_sub (shares p) (inl n)) (cost_basis p).
End row.
End PositionRow.

Module Position.
Record t := mk {
  id : Z; account_id : Z; market_id : Z; outcome : string; shares : Z; cost_basis : Z; market_question : string;
}.
End Position.

Module Trade.
Record t := mk {
  id : Z; account_id : Z; market_id : Z; outcome : string; side : string; shares : Z; price : Z; total : Z;
}.
End Trade.

Module InboundDeposit.
Record t := mk {
  id : Z;
  tx_hash : string;
  from_address : string;
  to_address : string;
  amount : Z;
  block_number : Z;
  log_index : option Z;
  processed : Z;
  created_at : Z;
}.
Definition set_processed (d : t) : t :=
  mk (id d) (tx_hash d) (from_address d) (to_address d) (amount d) (block_number d) (log_index d) 1 (created_at d).
End InboundDeposit.

Module WithdrawalRow.
Record t := mk {
  id : Z;
  account_id : Z;
  amount : Z;
  destination_address : string;
  status : string;
  l1_tx_hash : option string;
  confirmed_at : option Z;
  created_at : Z;
}.
Definition confirm (tx_hash : string) (at_ : Z) (w : t) : t :=
  mk (id w) (account_id w) (amount w) (destination_address w) "confirmed" (Some tx_hash) (Some at_) (created_at w).
End WithdrawalRow.

Module Withdrawal.
Record t := mk {
  id : Z; account_id : Z; account_name : string; amount : Z; destination_address : string; status : string; created_at : Z;
}.
End Withdrawal.

Module Db.
Section db.
Context `{SL : Sqlite}.
Record t := mk {
  user_version : Z;
  markets : Table.t Market.t;
  accounts : Table.t AccountRow.t;
  positions : Table.t PositionRow.t;
  trades : Table.t (Trade.t * Z);
  inbound_deposits : Table.t InboundDeposit.t;
  outbound_withdrawals : Table.t WithdrawalRow.t;
}.
(** [initialize_schema] on a database without tables; [CREATE .. IF NOT EXISTS] leaves
    one that has them alone. *)
Definition empty : t :=
  mk 0 Table.empty Table.empty Table.empty Table.empty Table.empty Table.empty.
Definition initialize_schema (d : t) : t :=
  mk 1 (markets d) (accounts d) (positions d) (trades d) (inbound_deposits d) (outbound_withdrawals d).
Definition is_initialized (d : t) : bool := 1 <=? user_version d.

Definition set_markets x (d : t) : t :=
  mk (user_version d) x (accounts d) (positions d) (trades d) (inbound_deposits d) (outbound_withdrawals d).
Definition set_accounts x (d : t) : t :=
  mk (user_version d) (markets d) x (positions d) (trades d) (inbound_deposits d) (outbound_withdrawals d).
Definition set_positions x (d : t) : t :=
  mk (user_version d) (markets d) (accounts d) x (trades d) (inbound_deposits d) (outbound_withdrawals d).
Definition set_trades x (d : t) : t :=
  mk (user_version d) (markets d) (accounts d) (positions d) x (inbound_deposits d) (outbound_withdrawals d).
Definition set_deposits x (d : t) : t :=
  mk (user_version d) (markets d) (accounts d) (positions d) (trades d) x (outbound_withdrawals d).
Definition set_withdrawals x (d : t) : t :=
  mk (user_version d) (markets d) (accounts d) (positions d) (trades d) (inbound_deposits d) x.

(** A transaction that is dropped without [commit] is rolled back. *)
Definition transaction {A} (d : t) (body : result MarketError (t * A)) : t * result MarketError A :=
  match body with
  | Ok (d', x) => (d', Ok x)
  | Err e => (d, Err e)
  | Panic w => (d, Panic w)
  end.

(** [UPDATE accounts SET balance = balance +/- ?1 WHERE id = ?2] *)
Definition credit (x account_id : Z) (d : t) : t :=
  set_accounts (Table.update (fun a => AccountRow.id a =? account_id) (AccountRow.add x) (accounts d)) d.
Definition debit (x account_id : Z) (d : t) : t :=
  set_accounts (Table.update (fun a => AccountRow.id a =? account_id) (AccountRow.sub x) (accounts d)) d.

(** [SELECT balance FROM accounts WHERE id = ?1] and [SELECT outcome FROM markets ..] *)
Definition balance_of (account_id : Z) (d : t) : result MarketError Z :=
  Table.query_row (fun a => AccountRow.id a =? account_id)
    (fun a => get_i64 0 "balance" (AccountRow.balance a)) (accounts d).
Definition outcome_of (market_id : Z) (d : t) : result MarketError string :=
  Table.query_row (fun m => Market.id m =? market_id) (fun m => Ok (Market.outcome m)) (markets d).
End db.
End Db.

(** ** market.rs *)
Section market.
Context `{SL : Sqlite}.
Implicit Types (d : Db.t) (outcome : string).

Definition create_market d (now : Z) (question : string) (description : option string) (resolution_time : Z)
    : Db.t * result MarketError Z :=
  Db.transaction d
    (let? '(t, id) := Table.insert (fun id => Market.mk id question description resolution_time "unresolved" None now)
                        (Db.markets d) in
     Ok (Db.set_markets t d, id)).

Definition is_outcome outcome : bool := bool_decide (outcome = "yes"%string) || bool_decide (outcome = "no"%string).

(** [resolve_market] up to its transaction, and the transaction. *)
Definition resolve_check d (market_id : Z) outcome : result MarketError unit :=
  if negb (is_outcome outcome) then Err (Bail "outcome must be 'yes' or 'no'")
  else
    let? current_outcome := Db.outcome_of market_id d in
    if bool_decide (current_outcome = "unresolved"%string) then Ok tt
    else Err (Bail ("market " +:+ int_to_string market_id +:+ " is already resolved as '" +:+ current_outcome +:+ "'")).
Definition payout_per_share : Z := 100.
Definition wins (market_id : Z) outcome (p : PositionRow.t) : bool :=
  (PositionRow.market_id p =? market_id) && bool_decide (PositionRow.outcome p = outcome)
  && sql_positive (PositionRow.shares p).
Definition winners d (market_id : Z) outcome : result MarketError (list (Z * Z)) :=
  map_result (fun p => let? shares := get_i64 1 "shares" (PositionRow.shares p) in Ok (PositionRow.account_id p, shares))
    (List.filter (wins market_id outcome) (Table.rows (Db.positions d))).
Definition pay_winners (ws : list (Z * Z)) d : Db.t :=
  fold_left (fun d '(account_id, shares) => Db.credit (i64_mul shares payout_per_share) account_id d) ws d.
Definition resolve_commit d (now market_id : Z) outcome : Db.t * result MarketError unit :=
  Db.transaction d
    (let d1 := Db.set_markets (Table.update (fun m => Market.id m =? market_id) (Market.resolve outcome now) (Db.markets d)) d in
     let? ws := winners d1 market_id outcome in
     Ok (pay_winners ws d1, tt)).
Definition resolve_market d (now market_id : Z) outcome : Db.t * result MarketError unit :=
  match resolve_check d market_id outcome with
  | Ok _ => resolve_commit d now market_id outcome
  | Err e => (d, Err e)
  | Panic w => (d, Panic w)
  end.

Definition get_market d (market_id : Z) : result MarketError Market.t :=
  Table.query_row (fun m => Market.id m =? market_id) Ok (Db.markets d).
(** [ORDER BY created_at DESC]; rows of the same time in order of their ids. *)
Definition list_markets d : list Market.t :=
  sort_by_key (fun m => - Market.created_at m) (Table.rows (Db.markets d)).

(** ** trading.rs *)
Definition PRICE_PER_SHARE : Z := 50.

Definition check_trade d (market_id : Z) outcome (shares : Z) : result MarketError unit :=
  if negb (is_outcome outcome) then Err (Bail "outcome must be 'yes' or 'no'")
  else if shares <=? 0 then Err (Bail "shares must be positive")
  else
    let? market_outcome := Db.outcome_of market_id d in
    if bool_decide (market_outcome = "unresolved"%string) then Ok tt
    else Err (Bail ("market " +:+ int_to_string market_id +:+ " is already resolved")).
Definition insufficient_balance (need have : Z) : MarketError :=
  Bail ("insufficient balance: need " +:+ int_to_string need +:+ " cents, have " +:+ int_to_string have +:+ " cents").

Definition record_trade (now account_id market_id : Z) outcome (side : string) (shares total : Z) d
    : result MarketError (Db.t * Trade.t) :=
  let row id := Trade.mk id account_id market_id outcome side shares PRICE_PER_SHARE total in
  let? '(t, id) := Table.insert (fun id => (row id, now)) (Db.trades d) in
  Ok (Db.set_trades t d, row id).

(** [INSERT .. ON CONFLICT(account_id, market_id, outcome) DO UPDATE] *)
Definition upsert_position (account_id market_id : Z) outcome (shares total_cost : Z) d : result MarketError Db.t :=
  let t := Db.positions d in
  let? id := Table.next_id t in
  let key := PositionRow.key account_id market_id outcome in
  Ok (Db.set_positions
        (if existsb key (Table.rows t) then
           Table.update key (PositionRow.bought shares total_cost) (Table.after_conflict id t)
         else Table.mk (Table.rows t ++ [PositionRow.mk id account_id market_id outcome (inl shares) (inl total_cost)]) id) d).

Definition buy_check d (account_id market_id : Z) outcome (shares : Z) : result MarketError Z :=
  let? _ := check_trade d market_id outcome shares in
  let total_cost := i64_mul shares PRICE_PER_SHARE in
  let? balance := Db.balance_of account_id d in
  if balance <? total_cost then Err (insufficient_balance total_cost balance) else Ok total_cost.
Definition buy_commit d (now account_id market_id : Z) outcome (shares total_cost : Z) : Db.t * result MarketError Trade.t :=
  Db.transaction d
    (let d1 := Db.debit total_cost account_id d in
     let? d2 := upsert_position account_id market_id outcome shares total_cost d1 in
     record_trade now account_id market_id outcome "buy" shares total_cost d2).
Definition buy_shares d (now account_id market_id : Z) outcome (shares : Z) : Db.t * result MarketError Trade.t :=
  match buy_check d account_id market_id outcome shares with
  | Ok total_cost => buy_commit d now account_id market_id outcome shares total_cost
  | Err e => (d, Err e)
  | Panic w => (d, Panic w)
  end.

(** No row means no shares; another error is passed on. *)
Definition shares_of d (account_id market_id : Z) outcome : result MarketError Z :=
  match Table.query_row (PositionRow.key account_id market_id outcome)
          (fun p => get_i64 0 "shares" (PositionRow.shares p)) (Db.positions d) with
  | Ok shares => Ok shares
  | Err NoRows => Ok 0
  | Err e => Err e
  | Panic w => Panic w
  end.
Definition sell_check d (account_id market_id : Z) outcome (shares : Z) : result MarketError Z :=
  let? _ := check_trade d market_id outcome shares in
  let? current_shares := shares_of d account_id market_id outcome in
  if current_shares <? shares then
    Err (Bail ("insufficient shares: trying to sell " +:+ int_to_string shares +:+ ", have " +:+ int_to_string current_shares))
  else Ok (i64_mul shares PRICE_PER_SHARE).
Definition sell_commit d (now account_id market_id : Z) outcome (shares total_proceeds : Z)
    : Db.t * result MarketError Trade.t :=
  Db.transaction d
    (let d1 := Db.credit total_proceeds account_id d in
     let d2 := Db.set_positions (Table.update (PositionRow.key account_id market_id outcome) (PositionRow.sold shares)
                                   (Db.positions d1)) d1 in
     record_trade now account_id market_id outcome "sell" shares total_proceeds d2).
Definition sell_shares d (now account_id market_id : Z) outcome (shares : Z) : Db.t * result MarketError Trade.t :=
  match sell_check d account_id market_id outcome shares with
  | Ok total_proceeds => sell_commit d now account_id market_id outcome shares total_proceeds
  | Err e => (d, Err e)
  | Panic w => (d, Panic w)
  end.

(** The join with [markets]; ids are unique there. *)
Definition position_of d (p : PositionRow.t) : result MarketError (list Position.t) :=
  match List.find (fun m => Market.id m =? PositionRow.market_id p) (Table.rows (Db.markets d)) with
  | None => Ok []
  | Some m =>
      let? shares := get_i64 4 "shares" (PositionRow.shares p) in
      let? cost_basis := get_i64 5 "cost_basis" (PositionRow.cost_basis p) in
      Ok [Position.mk (PositionRow.id p) (PositionRow.account_id p) (PositionRow.market_id p) (PositionRow.outcome p)
            shares cost_basis (Market.question m)]
  end.
Definition get_positions d (account_id : Z) : result MarketError (list Position.t) :=
  let? l := map_result (position_of d)
              (List.filter (fun p => (PositionRow.account_id p =? account_id) && sql_positive (PositionRow.shares p))
                 (Table.rows (Db.positions d))) in
  Ok (concat l).

(** ** bridge.rs *)

(** [INSERT .. ON CONFLICT(name) DO UPDATE SET balance = balance + excluded.balance] *)
Definition credit_address (now : Z) (to_address : string) (amount : Z) d : result MarketError Db.t :=
  let t := Db.accounts d in
  let? id := Table.next_id t in
  let named a := bool_decide (AccountRow.name a = to_address) in
  Ok (Db.set_accounts
        (if existsb named (Table.rows t) then Table.update named (AccountRow.add amount) (Table.after_conflict id t)
         else Table.mk (Table.rows t ++ [AccountRow.mk id to_address (inl amount) now]) id) d).
Definition process_deposit (now : Z) d (dep : InboundDeposit.t) : result MarketError Db.t :=
  let? d1 := credit_address now (InboundDeposit.to_address dep) (InboundDeposit.amount dep) d in
  Ok (Db.set_deposits (Table.update (fun r => InboundDeposit.id r =? InboundDeposit.id dep) InboundDeposit.set_processed
                         (Db.inbound_deposits d1)) d1).
Fixpoint process_all (now : Z) (deps : list InboundDeposit.t) d : result MarketError Db.t :=
  match deps with
  | [] => Ok d
  | dep :: deps => let? d1 := process_deposit now d dep in process_all now deps d1
  end.
Definition unprocessed d : list InboundDeposit.t :=
  List.filter (fun r => InboundDeposit.processed r =? 0) (Table.rows (Db.inbound_deposits d)).
Definition process_deposits d (now : Z) : Db.t * result MarketError nat :=
  Db.transaction d
    (let deposits := unprocessed d in
     let? d1 := process_all now deposits d in Ok (d1, length deposits)).

Definition withdrawal_check d (account_id amount : Z) : result MarketError unit :=
  if amount <=? 0 then Err (Bail "withdrawal amount must be positive")
  else
    let? balance := Db.balance_of account_id d in
    if balance <? amount then Err (insufficient_balance amount balance) else Ok tt.
Definition withdrawal_commit d (now account_id amount : Z) (destination_address : string) : Db.t * result MarketError Z :=
  Db.transaction d
    (let d1 := Db.debit amount account_id d in
     let? '(t, id) := Table.insert (fun id => WithdrawalRow.mk id account_id amount destination_address "pending" None None now)
                        (Db.outbound_withdrawals d1) in
     Ok (Db.set_withdrawals t d1, id)).
Definition request_withdrawal d (now account_id amount : Z) (destination_address : string) : Db.t * result MarketError Z :=
  match withdrawal_check d account_id amount with
  | Ok _ => withdrawal_commit d now account_id amount destination_address
  | Err e => (d, Err e)
  | Panic w => (d, Panic w)
  end.

Definition withdrawal_of d (w : WithdrawalRow.t) : list Withdrawal.t :=
  match List.find (fun a => AccountRow.id a =? WithdrawalRow.account_id w) (Table.rows (Db.accounts d)) with
  | None => []
  | Some a => [Withdrawal.mk (WithdrawalRow.id w) (WithdrawalRow.account_id w) (AccountRow.name a) (WithdrawalRow.amount w)
                 (WithdrawalRow.destination_address w) (WithdrawalRow.status w) (WithdrawalRow.created_at w)]
  end.
Definition list_pending_withdrawals d : list Withdrawal.t :=
  sort_by_key Withdrawal.created_at
    (concat (map (withdrawal_of d)
       (List.filter (fun w => bool_decide (WithdrawalRow.status w = "pending"%string)) (Table.rows (Db.outbound_withdrawals d))))).

Definition deposit_known (tx_hash : string) d : bool :=
  existsb (fun r => bool_decide (InboundDeposit.tx_hash r = tx_hash)) (Table.rows (Db.inbound_deposits d)).
Definition simulate_deposit d (now : Z) (tx_hash from_address to_address : string) (amount block_number : Z)
    : Db.t * result MarketError Z :=
  Db.transaction d
    (if deposit_known tx_hash d then Err (SqliteFailure "UNIQUE constraint failed: inbound_deposits.tx_hash")
     else
       let? '(t, id) := Table.insert (fun id => InboundDeposit.mk id tx_hash from_address to_address amount block_number None 0 now)
                          (Db.inbound_deposits d) in
       Ok (Db.set_deposits t d, id)).

(** ** app.rs *)
Definition DEFAULT_BALANCE : Z := 1000000.
Definition create_account d (now : Z) (name : string) : Db.t * result MarketError Z :=
  Db.transaction d
    (if existsb (fun a => bool_decide (AccountRow.name a = name)) (Table.rows (Db.accounts d)) then
       Err (SqliteFailure "UNIQUE constraint failed: accounts.name")
     else
       let? '(t, id) := Table.insert (fun id => AccountRow.mk id name (inl DEFAULT_BALANCE) now) (Db.accounts d) in
       Ok (Db.set_accounts t d, id)).
Definition account_of (a : AccountRow.t) : result MarketError Account.t :=
  let? balance := get_i64 2 "balance" (AccountRow.balance a) in
  Ok (Account.mk (AccountRow.id a) (AccountRow.name a) balance (AccountRow.created_at a)).
Definition get_account d (account_id : Z) : result MarketError Account.t :=
  Table.query_row (fun a => AccountRow.id a =? account_id) account_of (Db.accounts d).
Definition get_account_by_name d (name : string) : result MarketError Account.t :=
  Table.query_row (fun a => bool_decide (AccountRow.name a = name)) account_of (Db.accounts d).
Definition list_accounts d : result MarketError (list Account.t) :=
  map_result account_of (Table.rows (Db.accounts d)).
End market.
