(* ===== verification/MarketApp.v ===== *)
(** * The prediction market around its database
    (examples/prediction-market/src: chain_monitor.rs, http.rs, main.rs)

    The handlers for the bridge's events, which implement the chain monitor's handler
    interface, the thread that writes what they queue, the HTTP endpoints and the
    commands.  Opening the database and pushing to the sequencer are the client's; here
    they are the outcomes the handlers go by. *)
From Stdlib Require Import Ascii Strings.Byte.
From S2P Require Import Prelude RustStd Extern SignedTypes Net Outbound ChainMonitor Market.

(** ** chain_monitor.rs *)
Module WithdrawalEvent.
(** The event of events.rs, decoded. *)
Record t := mk { from : bytes; amount : Z; recipient : bytes; data : bytes }.
End WithdrawalEvent.

(** alloy's [sol!] event. *)
Class WithdrawalAbi := {
  decode_withdrawal : Log.t -> result string WithdrawalEvent.t;
  WITHDRAWAL_SIGNATURE_HASH : bytes;
}.

Module MarketDeposit.
(** [DepositData] *)
Record t := mk {
  tx_hash : string; block_number : Z; log_index : option Z; from_address : string; to_address : string; amount : Z;
}.
End MarketDeposit.
Module WithdrawalConfirmation.
Record t := mk {
  tx_hash : string; block_number : Z; from_address : string; recipient_address : string; amount : Z;
}.
End WithdrawalConfirmation.

(** One sender: what was sent and not received, whether the receiver exists, and the count. *)
Module Sender.
Section ops.
Context {A : Type}.
Record t := mk { queue : list A; connected : bool; count : Z }.
Definition new : t := mk [] true 0.
Definition send (x : A) (s : t) : t * bool :=
  if connected s then (mk (queue s ++ [x]) true (u64_add (count s) 1), true) else (s, false).
End ops.
Arguments t : clear implicits.
End Sender.

Section handlers.
Context `{HX : Hex} `{DA : DepositAbi} `{WA : WithdrawalAbi}.

(** [U256] to [i64] *)
Definition amount_i64 (what : string) (amount : Z) : result string Z :=
  if amount <=? i64_max then Ok amount
  else Err (what +:+ " amount " +:+ int_to_string amount +:+ " exceeds i64::MAX - this indicates a data integrity issue").
Definition tx_hash_text (log : Log.t) : string :=
  match Log.transaction_hash log with Some h => hex0x h | None => "" end.

(** The body both deposit handlers share. *)
Definition send_deposit (s : Sender.t MarketDeposit.t) (log : Log.t) (deposit : Deposit.t)
    : Sender.t MarketDeposit.t * result string bool :=
  match amount_i64 "Deposit" (Deposit.amount deposit) with
  | Ok amount =>
      if amount =? 0 then (s, Ok false)
      else
        let data := MarketDeposit.mk (tx_hash_text log) (default 0 (Log.block_number log)) (Log.log_index log)
                      (hex0x (Deposit.from deposit)) (hex0x (Deposit.to deposit)) amount in
        let '(s, sent) := Sender.send data s in (s, Ok sent)
  | Err e => (s, Err e)
  | Panic w => (s, Panic w)
  end.
Definition send_withdrawal (s : Sender.t WithdrawalConfirmation.t) (log : Log.t) (withdrawal : WithdrawalEvent.t)
    : Sender.t WithdrawalConfirmation.t * result string bool :=
  match amount_i64 "Withdrawal" (WithdrawalEvent.amount withdrawal) with
  | Ok amount =>
      let data := WithdrawalConfirmation.mk (tx_hash_text log) (default 0 (Log.block_number log))
                    (hex0x (WithdrawalEvent.from withdrawal)) (hex0x (WithdrawalEvent.recipient withdrawal)) amount in
      let '(s, sent) := Sender.send data s in (s, Ok sent)
  | Err e => (s, Err e)
  | Panic w => (s, Panic w)
  end.

(** [impl MessageHandler for DepositHandler], [.. for WithdrawalHandler] *)
Definition deposit_handle_event (s : Sender.t MarketDeposit.t) (log : Log.t)
    : Sender.t MarketDeposit.t * result string bool :=
  match decode_log log with
  | Ok deposit => send_deposit s log deposit
  | Err _ => (s, Ok false)
  | Panic w => (s, Panic w)
  end.
#[global] Instance market_deposit_handler : MessageHandler (Sender.t MarketDeposit.t) := {|
  handle_event := deposit_handle_event;
  handler_signature := Some DEPOSIT_SIGNATURE_HASH;
  on_start s := (s, Ok tt);
  on_stop s := (s, Ok tt);
|}.
Definition withdrawal_handle_event (s : Sender.t WithdrawalConfirmation.t) (log : Log.t)
    : Sender.t WithdrawalConfirmation.t * result string bool :=
  match decode_withdrawal log with
  | Ok withdrawal => send_withdrawal s log withdrawal
  | Err _ => (s, Ok false)
  | Panic w => (s, Panic w)
  end.
#[global] Instance market_withdrawal_handler : MessageHandler (Sender.t WithdrawalConfirmation.t) := {|
  handle_event := withdrawal_handle_event;
  handler_signature := Some WITHDRAWAL_SIGNATURE_HASH;
  on_start s := (s, Ok tt);
  on_stop s := (s, Ok tt);
|}.

(** [BridgeEventHandler]: both, without a filter on the event. *)
Definition BridgeEventHandler : Type := Sender.t MarketDeposit.t * Sender.t WithdrawalConfirmation.t.
Definition bridge_handle_event (h : BridgeEventHandler) (log : Log.t) : BridgeEventHandler * result string bool :=
  match decode_log log with
  | Ok deposit => let '(s, r) := send_deposit (fst h) log deposit in ((s, snd h), r)
  | Panic w => (h, Panic w)
  | Err _ =>
      match decode_withdrawal log with
      | Ok withdrawal => let '(s, r) := send_withdrawal (snd h) log withdrawal in ((fst h, s), r)
      | Err _ => (h, Ok false)
      | Panic w => (h, Panic w)
      end
  end.
#[global] Instance bridge_event_handler : MessageHandler BridgeEventHandler := {|
  handle_event := bridge_handle_event;
  handler_signature := None;
  on_start h := (h, Ok tt);
  on_stop h := (h, Ok tt);
|}.
End handlers.

Section database.
Context `{SL : Sqlite}.
Implicit Types (d : Db.t).

(** [INSERT OR IGNORE INTO inbound_deposits] *)
Definition insert_deposit d (now : Z) (dep : MarketDeposit.t) : Db.t * result MarketError unit :=
  Db.transaction d
    (let t := Db.inbound_deposits d in
     let? id := Table.next_id t in
     if deposit_known (MarketDeposit.tx_hash dep) d then Ok (Db.set_deposits (Table.after_conflict id t) d, tt)
     else
       Ok (Db.set_deposits
             (Table.mk (Table.rows t ++
                [InboundDeposit.mk id (MarketDeposit.tx_hash dep) (MarketDeposit.from_address dep)
                   (MarketDeposit.to_address dep) (MarketDeposit.amount dep) (as_i64 (MarketDeposit.block_number dep))
                   (as_i64 <$> MarketDeposit.log_index dep) 0 now]) id) d, tt)).

(** The row [ORDER BY created_at ASC LIMIT 1] picks among those that match: of the rows of
    the smallest time the first. *)
Definition confirms (c : WithdrawalConfirmation.t) (w : WithdrawalRow.t) : bool :=
  bool_decide (WithdrawalRow.destination_address w = WithdrawalConfirmation.recipient_address c)
  && (WithdrawalRow.amount w =? WithdrawalConfirmation.amount c)
  && (bool_decide (WithdrawalRow.status w = "pending"%string) || bool_decide (WithdrawalRow.status w = "submitted"%string)).
Definition confirm_withdrawal d (now : Z) (c : WithdrawalConfirmation.t) : Db.t * result MarketError nat :=
  let t := Db.outbound_withdrawals d in
  if negb update_limit then (d, Err (SqliteFailure ("near " +:+ String "034" "ORDER" +:+ String "034" ": syntax error")))
  else
    match sort_by_key WithdrawalRow.created_at (List.filter (confirms c) (Table.rows t)) with
    | [] => (d, Ok 0%nat)
    | w :: _ =>
        (Db.set_withdrawals (Table.update (fun r => WithdrawalRow.id r =? WithdrawalRow.id w)
                               (WithdrawalRow.confirm (WithdrawalConfirmation.tx_hash c) now) t) d, Ok 1%nat)
    end.

End database.

(** ** main.rs: the database thread of [run_chain_monitor] *)
Module DbThread.
Section ops.
Context `{SL : Sqlite}.
Record t := mk {
  db : Db.t;
  deposits : list MarketDeposit.t;
  withdrawals : list WithdrawalConfirmation.t;
}.
(** One turn: at most one of each; a channel whose senders are gone and that is empty ends
    the loop ([false]).  Failures are only logged. *)
Definition turn (connected : bool) (now : Z) (s : t) : t * bool :=
  match deposits s, connected with
  | [], false => (s, false)
  | ds, _ =>
      let s1 := match ds with
                | dep :: ds => mk (fst (insert_deposit (db s) now dep)) ds (withdrawals s)
                | [] => s
                end in
      match withdrawals s1, connected with
      | [], false => (s1, false)
      | c :: cs, _ => (mk (fst (confirm_withdrawal (db s1) now c)) (deposits s1) cs, true)
      | [], true => (s1, true)
      end
  end.
(** The loop once the monitor has stopped. *)
Fixpoint drain (fuel : nat) (now : Z) (s : t) : t * bool :=
  match fuel with
  | O => (s, true)
  | S fuel => let '(s, go) := turn false now s in if go then drain fuel now s else (s, false)
  end.
End ops.
End DbThread.

(** ** http.rs *)
Module MarketApi.
(** [AppError]: the texts of errors decide the status. *)
Definition is_not_found (e : MarketError) : bool :=
  match e with
  | NoRows => true
  | _ => let msg := to_lowercase (MarketError_to_string e) in contains "not found" msg || contains "no rows" msg
  end.
Definition is_bad_request (e : MarketError) : bool :=
  let msg := to_lowercase (MarketError_to_string e) in contains "insufficient" msg || contains "already" msg.
Definition user_message (e : MarketError) : string :=
  match e with NoRows => "Resource not found" | _ => MarketError_to_string e end.
Definition error_status (e : MarketError) : Z :=
  if is_not_found e then NOT_FOUND else if is_bad_request e then BAD_REQUEST else INTERNAL_SERVER_ERROR.

(** A response: its status, and the body or the error's text. *)
Definition Response (A : Type) : Type := Z * (string + A).
Definition into_response {A B} (f : A -> B) (r : result MarketError A) : result string (Response B) :=
  match r with
  | Ok a => Ok (OK_200, inr (f a))
  | Err e => Ok (error_status e, inl (user_message e))
  | Panic w => Panic w
  end.

(** The amounts of JSON bodies as text ([format!("${:.2}", x as f64 / 100.0)]). *)
Class DollarText := dollars : Z -> string.

Module AccountJson.
Record t := mk { id : Z; name : string; balance : Z; balance_formatted : string; created_at : Z }.
Definition from `{DollarText} (a : Account.t) : t :=
  mk (Account.id a) (Account.name a) (Account.balance a) (dollars (Account.balance a)) (Account.created_at a).
End AccountJson.
Module PositionJson.
Record t := mk { id : Z; account_id : Z; market_id : Z; outcome : string; shares : Z; cost_basis : Z }.
Definition from (p : Position.t) : t :=
  mk (Position.id p) (Position.account_id p) (Position.market_id p) (Position.outcome p) (Position.shares p)
    (Position.cost_basis p).
End PositionJson.
Module WithdrawalJson.
Record t := mk {
  id : Z; account_id : Z; account_name : string; amount : Z; amount_formatted : string; destination_address : string;
  status : string;
}.
Definition from `{DollarText} (w : Withdrawal.t) : t :=
  mk (Withdrawal.id w) (Withdrawal.account_id w) (Withdrawal.account_name w) (Withdrawal.amount w)
    (dollars (Withdrawal.amount w)) (Withdrawal.destination_address w) (Withdrawal.status w).
End WithdrawalJson.
Module ReplicationStats.
Record t := mk { pending_changesets : Z; pushed_changesets : Z; failed_pushes : Z }.
End ReplicationStats.
Module StatusResponse.
Record t := mk {
  replicated : bool;
  healthy : bool;
  accounts : nat;
  markets : nat;
  pending_withdrawals : nat;
  stats : option ReplicationStats.t;
}.
End StatusResponse.

Section handlers.
Context `{SL : Sqlite} `{DT : DollarText}.
(** [connect] and [push] of the request's own connection: their outcomes. *)
Context (connect push : result MarketError unit).
Implicit Types (d : Db.t).

(** A request that writes: what was committed stays, whatever [push] answers. *)
Definition write {A B} (f : A -> B) (op : Db.t -> Db.t * result MarketError A) d : Db.t * result string (Response B) :=
  match connect with
  | Ok _ =>
      let '(d', r) := op d in
      (d', into_response f (let? a := r in let? _ := push in Ok a))
  | Err e => (d, into_response f (Err e))
  | Panic w => (d, Panic w)
  end.
Definition read {A B} (f : A -> B) (q : Db.t -> result MarketError A) d : result string (Response B) :=
  into_response f (let? _ := connect in q d).

Definition create_account_handler now name := write id (fun d => create_account d now name).
Definition list_accounts_handler := read (map AccountJson.from) list_accounts.
Definition get_account_handler id := read AccountJson.from (fun d => get_account d id).
Definition get_positions_handler id := read (map PositionJson.from) (fun d => get_positions d id).
Definition create_market_handler now question description resolution_time :=
  write id (fun d => create_market d now question description resolution_time).
Definition list_markets_handler := read id (fun d => Ok (list_markets d)).
Definition get_market_handler id_ := read id (fun d => get_market d id_).
Definition buy_shares_handler now market_id account_id outcome shares :=
  write id (fun d => buy_shares d now account_id market_id outcome shares).
Definition sell_shares_handler now market_id account_id outcome shares :=
  write id (fun d => sell_shares d now account_id market_id outcome shares).
Definition resolve_market_handler now market_id outcome := write id (fun d => resolve_market d now market_id outcome).
Definition simulate_deposit_handler now tx_hash from_address to_address amount block_number :=
  write id (fun d => simulate_deposit d now tx_hash from_address to_address amount block_number).
Definition process_deposits_handler now := write id (fun d => process_deposits d now).
Definition request_withdrawal_handler now account_id amount destination_address :=
  write id (fun d => request_withdrawal d now account_id amount destination_address).
Definition list_pending_withdrawals_handler := read (map WithdrawalJson.from) (fun d => Ok (list_pending_withdrawals d)).
(** Of the client only its statistics and health are asked. *)
Definition get_status_handler (replicated healthy : bool) (stats : option ReplicationStats.t) :=
  read id (fun d =>
    let? accounts := list_accounts d in
    Ok (StatusResponse.mk replicated healthy (length accounts) (length (list_markets d))
          (length (list_pending_withdrawals d)) stats)).
End handlers.
End MarketApi.

(** ** main.rs: the commands *)
Module Commands.
Inductive t :=
| Init
| CreateAccount (name : string)
| CreateMarket (question : string) (resolution_time : Z) (description : option string)
| Buy (account market : Z) (outcome : string) (shares : Z)
| Sell (account market : Z) (outcome : string) (shares : Z)
| Resolve (market : Z) (outcome : string)
| Status
| SimulateDeposit (tx_hash from to : string) (amount block : Z)
| ProcessDeposits
| Withdraw (account amount : Z) (destination : string).

Section run.
Context `{SL : Sqlite} `{DT : MarketApi.DollarText}.
Implicit Types (d : Db.t).

Definition traded (verb : string) (t : Trade.t) : list string :=
  [verb +:+ " " +:+ int_to_string (Trade.shares t) +:+ " " +:+ Trade.outcome t +:+ " shares in market "
   +:+ int_to_string (Trade.market_id t) +:+ " for " +:+ int_to_string (Trade.total t) +:+ " cents"].
Definition account_lines d (a : Account.t) : result MarketError (list string) :=
  let? positions := get_positions d (Account.id a) in
  Ok (("  [" +:+ int_to_string (Account.id a) +:+ "] " +:+ Account.name a +:+ " - " +:+ MarketApi.dollars (Account.balance a))
      :: map (fun p => "       Market " +:+ int_to_string (Position.market_id p) +:+ ": " +:+ int_to_string (Position.shares p)
                       +:+ " " +:+ Position.outcome p +:+ " shares") positions).
Definition market_line (m : Market.t) : string :=
  "  [" +:+ int_to_string (Market.id m) +:+ "] " +:+ Market.question m +:+ " - "
  +:+ (if bool_decide (Market.outcome m = "unresolved"%string) then "OPEN" else "RESOLVED: " +:+ Market.outcome m).
Definition withdrawal_line (w : Withdrawal.t) : string :=
  "  [" +:+ int_to_string (Withdrawal.id w) +:+ "] " +:+ Withdrawal.account_name w +:+ " - "
  +:+ MarketApi.dollars (Withdrawal.amount w) +:+ " to " +:+ Withdrawal.destination_address w.
Definition status_lines d : result MarketError (list string) :=
  let? accounts := list_accounts d in
  let? lines := map_result (account_lines d) accounts in
  let withdrawals := list_pending_withdrawals d in
  Ok ("=== Accounts ===" :: concat lines ++ "=== Markets ===" :: map market_line (list_markets d)
      ++ match withdrawals with [] => [] | _ => "=== Pending Withdrawals ===" :: map withdrawal_line withdrawals end)%string.

(** A command that writes is followed by [push], whose outcome is an argument; the lines are
    what is printed. *)
Definition then_push {A} (push : result MarketError unit) (r : Db.t * result MarketError A) (out : A -> list string)
    : Db.t * result MarketError (list string) :=
  let '(d, x) := r in (d, let? a := x in let? _ := push in Ok (out a)).
Definition run (push : result MarketError unit) (d : Db.t) (now : Z) (c : t) : Db.t * result MarketError (list string) :=
  match c with
  | Init => (d, Ok [])
  | CreateAccount name =>
      then_push push (create_account d now name)
        (fun id => ["Created account '" +:+ name +:+ "' with ID " +:+ int_to_string id])
  | CreateMarket question resolution_time description =>
      then_push push (create_market d now question description resolution_time)
        (fun id => ["Created market " +:+ int_to_string id +:+ " - " +:+ String "034" question +:+ String "034" EmptyString])
  | Buy account market outcome shares =>
      then_push push (buy_shares d now account market outcome shares) (traded "Bought")
  | Sell account market outcome shares =>
      then_push push (sell_shares d now account market outcome shares) (traded "Sold")
  | Resolve market outcome =>
      then_push push (resolve_market d now market outcome)
        (fun _ => ["Resolved market " +:+ int_to_string market +:+ " as '" +:+ outcome +:+ "'"])
  | Status => (d, status_lines d)
  | SimulateDeposit tx_hash from to amount block =>
      then_push push (simulate_deposit d now tx_hash from to amount block)
        (fun id => ["Simulated deposit " +:+ int_to_string id +:+ " for " +:+ MarketApi.dollars amount +:+ " from " +:+ from
                    +:+ " to " +:+ to])
  | ProcessDeposits =>
      then_push push (process_deposits d now)
        (fun count => ["Processed " +:+ int_to_string (Z.of_nat count) +:+ " deposits"])
  | Withdraw account amount destination =>
      then_push push (request_withdrawal d now account amount destination)
        (fun id => ["Created withdrawal request " +:+ int_to_string id +:+ " for " +:+ MarketApi.dollars amount])
  end.
End run.
End Commands.
