(* ===== verification/MarketProps.v ===== *)
(** * Properties of the prediction market

    Money and shares are conserved by every operation run on its own; the checks made
    outside the transactions and the arithmetic at [i64] are where they are not. *)
From Stdlib Require Import Ascii Strings.Byte.
From S2P Require Import Prelude RustStd Extern SignedTypes Net Outbound ChainMonitor Market MarketApp.

(** ** Sums over rows *)
Section sums.
Context {A : Type}.
Implicit Types (f : A -> Z) (p : A -> bool) (l : list A).

Fixpoint zsum f l : Z := match l with [] => 0 | x :: l => f x + zsum f l end.

Lemma zsum_app f l1 l2 : zsum f (l1 ++ l2) = zsum f l1 + zsum f l2.
Proof. induction l1; cbn; lia. Qed.
Lemma zsum_ext f g l : (forall x, x ∈ l -> f x = g x) -> zsum f l = zsum g l.
Proof. induction l as [|x l IH]; cbn; intros H; [done|]. rewrite H, IH; [done|intros; apply H; by right|by left]. Qed.
Lemma zsum_nonneg f l : Forall (fun x => 0 <= f x) l -> 0 <= zsum f l.
Proof. induction 1; cbn; lia. Qed.
Lemma zsum_elem f l x : Forall (fun x => 0 <= f x) l -> x ∈ l -> f x <= zsum f l.
Proof.
  induction l as [|y l IH]; cbn; intros Hl Hx; [by apply not_elem_of_nil in Hx|].
  apply Forall_cons in Hl as [Hy Hl]. pose proof (zsum_nonneg _ _ Hl).
  apply elem_of_cons in Hx as [->|Hx]; [lia|]. specialize (IH Hl Hx). lia.
Qed.
Lemma filter_none p l : List.filter p l = [] -> forall x, x ∈ l -> p x = false.
Proof.
  induction l as [|y l IH]; cbn; intros H x Hx; [by apply not_elem_of_nil in Hx|].
  destruct (p y) eqn:E; [done|]. apply elem_of_cons in Hx as [->|Hx]; auto.
Qed.
Lemma update_none p (g : A -> A) l : List.filter p l = [] -> map (fun r => if p r then g r else r) l = l.
Proof.
  induction l as [|y l IH]; cbn; [done|]. destruct (p y); [done|]. intros H. by rewrite IH.
Qed.
Lemma zsum_update f p (g : A -> A) l x :
  List.filter p l = [x] -> zsum f (map (fun r => if p r then g r else r) l) = zsum f l + (f (g x) - f x).
Proof.
  induction l as [|y l IH]; cbn; [done|]. destruct (p y) eqn:E.
  - intros [= -> Hl]. rewrite update_none by done. lia.
  - intros H. rewrite IH by done. lia.
Qed.
Lemma zsum_update_same f p (g : A -> A) l :
  (forall x, f (g x) = f x) -> zsum f (map (fun r => if p r then g r else r) l) = zsum f l.
Proof. intros H. induction l as [|y l IH]; cbn; [done|]. rewrite IH. destruct (p y); by rewrite ?H. Qed.
Lemma map_update_same {K} (key : A -> K) p (g : A -> A) l :
  (forall x, key (g x) = key x) -> map key (map (fun r => if p r then g r else r) l) = map key l.
Proof. intros H. induction l as [|y l IH]; cbn; [done|]. rewrite IH. destruct (p y); by rewrite ?H. Qed.
Lemma Forall_update (P : A -> Prop) p (g : A -> A) l :
  Forall P l -> (forall x, x ∈ l -> p x = true -> P x -> P (g x)) -> Forall P (map (fun r => if p r then g r else r) l).
Proof.
  intros Hl H. induction l as [|y l IH]; cbn; [done|]. apply Forall_cons in Hl as [Hy Hl]. constructor.
  - destruct (p y) eqn:E; [|done]. apply H; [by left|done..].
  - apply IH; [done|]. intros. apply H; [by right|done..].
Qed.

Lemma filter_In_elem p l x : x ∈ List.filter p l <-> x ∈ l /\ p x = true.
Proof. rewrite !list_elem_of_In. apply List.filter_In. Qed.
Lemma existsb_elem p l : existsb p l = true <-> exists x, x ∈ l /\ p x = true.
Proof. rewrite List.existsb_exists. by setoid_rewrite <- list_elem_of_In. Qed.
Lemma existsb_filter p l : existsb p l = false -> List.filter p l = [].
Proof. induction l as [|y l IH]; cbn; [done|]. destruct (p y); [done|]. auto. Qed.

(** A condition on a unique key selects at most one row. *)
Lemma filter_key {K} (key : A -> K) p l k :
  NoDup (map key l) -> (forall x, p x = true -> key x = k) ->
  List.filter p l = [] \/ exists x, List.filter p l = [x] /\ x ∈ l /\ p x = true.
Proof.
  intros Hnd Hk. destruct (List.filter p l) as [|x r] eqn:E; [by left|]. right. exists x.
  assert (Hx : x ∈ List.filter p l) by (rewrite E; by left). apply filter_In_elem in Hx as [Hx Hp].
  split_and!; [|done..]. destruct r as [|y r]; [done|]. exfalso.
  induction l as [|z l IH]; cbn in E; [done|]. cbn in Hnd. apply NoDup_cons in Hnd as [Hz Hnd].
  destruct (p z) eqn:Ez.
  - injection E as -> E. apply Hz. rewrite (Hk x Hp). apply list_elem_of_fmap. exists y.
    assert (Hy : y ∈ List.filter p l) by (rewrite E; by left). apply filter_In_elem in Hy as [Hy Hpy].
    split; [by rewrite (Hk y Hpy)|done].
  - apply IH; [done|done|]. apply elem_of_cons in Hx as [->|Hx]; [congruence|done].
Qed.
End sums.

(** [as_i64] where nothing wraps. *)
Lemma as_i64_in_range z : is_i64 z -> as_i64 z = z.
Proof.
  unfold is_i64, as_i64, as_u64. intros H. destruct (Z.ltb_spec (z mod 2 ^ 64) (2 ^ 63)) as [Hl|Hl].
  - destruct (decide (0 <= z)) as [Hz|Hz]; [apply Z.mod_small; lia|].
    assert (z mod 2 ^ 64 = z + 2 ^ 64); [|lia]. symmetry. apply (Z.mod_unique_pos _ _ (-1)); lia.
  - destruct (decide (0 <= z)) as [Hz|Hz]; [rewrite Z.mod_small in Hl by lia; lia|].
    assert (z mod 2 ^ 64 = z + 2 ^ 64); [|lia]. symmetry. apply (Z.mod_unique_pos _ _ (-1)); lia.
Qed.

Section conservation.
Context `{SL : Sqlite}.
Implicit Types (d : Db.t) (a : AccountRow.t) (p : PositionRow.t).

Lemma sql_add_small x y : is_i64 (x + y) -> sql_add (inl x) (inl y) = inl (x + y).
Proof. intros H. unfold sql_add. by rewrite bool_decide_true. Qed.
Lemma sql_sub_small x y : is_i64 (x - y) -> sql_sub (inl x) (inl y) = inl (x - y).
Proof. intros H. unfold sql_sub. by rewrite bool_decide_true. Qed.

(** ** What is counted *)
Definition int_of (v : num) : Z := match v with inl z => z | inr _ => 0 end.
Definition amount_ok (v : num) : Prop := exists z, v = inl z /\ 0 <= z.
Definition cash_in (t : Table.t AccountRow.t) : Z := zsum (fun a => int_of (AccountRow.balance a)) (Table.rows t).
Definition held_in (t : Table.t PositionRow.t) : Z := zsum (fun p => int_of (PositionRow.shares p)) (Table.rows t).
Definition withdrawn_in (t : Table.t WithdrawalRow.t) : Z := zsum WithdrawalRow.amount (Table.rows t).
Definition deposited_in (t : Table.t InboundDeposit.t) : Z :=
  zsum (fun r => if InboundDeposit.processed r =? 0 then 0 else InboundDeposit.amount r) (Table.rows t).
(** Shares of an outcome that its market has been resolved to. *)
Definition won (ms : list Market.t) p : bool :=
  existsb (fun m => (Market.id m =? PositionRow.market_id p) && bool_decide (Market.outcome m = PositionRow.outcome p)) ms.
Definition paid_in (ms : Table.t Market.t) (t : Table.t PositionRow.t) : Z :=
  zsum (fun p => if won (Table.rows ms) p then int_of (PositionRow.shares p) else 0) (Table.rows t).

Definition cash d : Z := cash_in (Db.accounts d).
Definition held d : Z := held_in (Db.positions d).
Definition withdrawn d : Z := withdrawn_in (Db.outbound_withdrawals d).
Definition deposited d : Z := deposited_in (Db.inbound_deposits d).
Definition waiting d : Z := zsum InboundDeposit.amount (unprocessed d).
Definition paid d : Z := paid_in (Db.markets d) (Db.positions d).
(** All money there is, with shares at their price. *)
Definition supply d : Z := cash d + withdrawn d + PRICE_PER_SHARE * held d.

Definition ids_ok {A} (id : A -> Z) (t : Table.t A) : Prop :=
  NoDup (map id (Table.rows t)) /\ Forall (fun r => id r <= Table.last_id t) (Table.rows t).
Definition position_key p : Z * Z * string := (PositionRow.account_id p, PositionRow.market_id p, PositionRow.outcome p).

(** The accounts on their own: what every operation on them keeps. *)
Record accounts_ok (t : Table.t AccountRow.t) : Prop := {
  accounts_ids : ids_ok AccountRow.id t;
  accounts_names : NoDup (map AccountRow.name (Table.rows t));
  accounts_balances : Forall (fun a => amount_ok (AccountRow.balance a)) (Table.rows t);
}.

Lemma balance_bounds t a : accounts_ok t -> a ∈ Table.rows t ->
  exists b, AccountRow.balance a = inl b /\ 0 <= b <= cash_in t.
Proof.
  intros Ht Ha. pose proof (accounts_balances _ Ht) as Hb. rewrite Forall_forall in Hb.
  destruct (Hb a Ha) as (b & Eb & Hge). exists b. split_and!; [done..|].
  replace b with (int_of (AccountRow.balance a)) by (by rewrite Eb).
  apply (zsum_elem (fun a => int_of (AccountRow.balance a))); [|done]. apply Forall_forall. intros a' Ha'.
  by destruct (Hb a' Ha') as (b' & -> & ?).
Qed.

(** One row's balance changes. *)
Lemma accounts_update t w g a b b' :
  accounts_ok t -> List.filter w (Table.rows t) = [a] ->
  (forall x, AccountRow.id (g x) = AccountRow.id x) -> (forall x, AccountRow.name (g x) = AccountRow.name x) ->
  AccountRow.balance a = inl b -> AccountRow.balance (g a) = inl b' -> 0 <= b' ->
  accounts_ok (Table.update w g t) /\ cash_in (Table.update w g t) = cash_in t + (b' - b) /\
  map AccountRow.id (Table.rows (Table.update w g t)) = map AccountRow.id (Table.rows t).
Proof.
  intros [[Hnd Hle] Hn Hb] Hf Hid Hname Ea Eb Hge. unfold cash_in, Table.update. cbn [Table.rows Table.last_id].
  rewrite (zsum_update _ _ _ _ _ Hf), Ea, Eb, map_update_same by done. split_and!; [|done|done]. constructor.
  - split; cbn [Table.rows Table.last_id]; [by rewrite map_update_same|].
    apply Forall_update; [done|]. intros x _ _. by rewrite Hid.
  - cbn [Table.rows]. by rewrite map_update_same.
  - apply Forall_update; [done|]. intros x Hx Hw _.
    assert (x = a) as ->; [|by exists b'].
    assert (Hin : x ∈ List.filter w (Table.rows t)) by (by apply filter_In_elem). rewrite Hf in Hin.
    by apply list_elem_of_singleton in Hin.
Qed.

Lemma account_row t id : accounts_ok t -> id ∈ map AccountRow.id (Table.rows t) ->
  exists a, List.filter (fun a => AccountRow.id a =? id) (Table.rows t) = [a] /\ a ∈ Table.rows t.
Proof.
  intros Ht Hid. destruct (filter_key AccountRow.id (fun a => AccountRow.id a =? id) (Table.rows t) id)
    as [Hn|(a & Hf & Ha & _)]; [apply Ht| by intros x Hx%Z.eqb_eq | | by exists a].
  apply list_elem_of_fmap in Hid as (a & -> & Ha). by pose proof (proj1 (Z.eqb_neq _ _) (filter_none _ _ Hn a Ha)).
Qed.

(** Crediting and debiting an account that exists. *)
Lemma accounts_credit t id x :
  accounts_ok t -> id ∈ map AccountRow.id (Table.rows t) -> 0 <= x -> cash_in t + x < 2 ^ 63 ->
  let t' := Table.update (fun a => AccountRow.id a =? id) (AccountRow.add x) t in
  accounts_ok t' /\ cash_in t' = cash_in t + x /\ map AccountRow.id (Table.rows t') = map AccountRow.id (Table.rows t).
Proof.
  intros Ht Hid Hx Hfit t'. destruct (account_row t id Ht Hid) as (a & Hf & Ha).
  destruct (balance_bounds t a Ht Ha) as (b & Eb & Hb).
  destruct (accounts_update t _ (AccountRow.add x) a b (b + x) Ht Hf) as (H1 & H2 & H3); try done; try lia.
  - cbn. rewrite Eb, sql_add_small; [done|]. unfold is_i64. lia.
  - unfold t'. split_and!; [done|lia|done].
Qed.
Lemma accounts_debit t id x a b :
  accounts_ok t -> List.filter (fun a => AccountRow.id a =? id) (Table.rows t) = [a] -> AccountRow.balance a = inl b ->
  0 <= x <= b -> cash_in t < 2 ^ 63 ->
  let t' := Table.update (fun a => AccountRow.id a =? id) (AccountRow.sub x) t in
  accounts_ok t' /\ cash_in t' = cash_in t - x /\ map AccountRow.id (Table.rows t') = map AccountRow.id (Table.rows t).
Proof.
  intros Ht Hf Eb Hx Hfit t'.
  assert (Ha : a ∈ Table.rows t).
  { assert (a ∈ List.filter (fun a => AccountRow.id a =? id) (Table.rows t)) as [? _]%filter_In_elem; [rewrite Hf; by left|done]. }
  destruct (balance_bounds t a Ht Ha) as (b' & Eb' & Hb). rewrite Eb in Eb'. injection Eb' as <-.
  destruct (accounts_update t _ (AccountRow.sub x) a b (b - x) Ht Hf) as (H1 & H2 & H3); try done; try lia.
  - cbn. rewrite Eb, sql_sub_small; [done|]. unfold is_i64. lia.
  - unfold t'. split_and!; [done|lia|done].
Qed.

(** A new row. *)
Lemma next_id_ok {A} (t : Table.t A) id : Table.next_id t = Ok id -> id = Table.last_id t + 1.
Proof. unfold Table.next_id. destruct (_ <? _); [by intros [= <-]|done]. Qed.
Lemma ids_insert {A} (key : A -> Z) (t : Table.t A) r :
  ids_ok key t -> key r = Table.last_id t + 1 -> ids_ok key (Table.mk (Table.rows t ++ [r]) (Table.last_id t + 1)).
Proof.
  intros [Hnd Hle] Hr. split; cbn [Table.rows Table.last_id].
  - rewrite map_app. apply NoDup_app. split_and!; [done| |by apply NoDup_singleton].
    cbn. rewrite Hr. intros k Hk ->%list_elem_of_singleton.
    apply list_elem_of_fmap in Hk as (x & E & Hx). rewrite Forall_forall in Hle. specialize (Hle x Hx). lia.
  - apply Forall_app. split; [|constructor; [lia|done]]. eapply Forall_impl; [done|]. cbn. lia.
Qed.
Lemma ids_update {A} (key : A -> Z) (t : Table.t A) w g :
  ids_ok key t -> (forall x, key (g x) = key x) -> ids_ok key (Table.update w g t).
Proof.
  intros [Hnd Hle] Hk. split; cbn [Table.update Table.rows Table.last_id]; [by rewrite map_update_same|].
  apply Forall_update; [done|]. intros x _ _. by rewrite Hk.
Qed.
Lemma accounts_insert t name b now :
  accounts_ok t -> existsb (fun a => bool_decide (AccountRow.name a = name)) (Table.rows t) = false -> 0 <= b ->
  let t' := Table.mk (Table.rows t ++ [AccountRow.mk (Table.last_id t + 1) name (inl b) now]) (Table.last_id t + 1) in
  accounts_ok t' /\ cash_in t' = cash_in t + b /\
  (forall id, id ∈ map AccountRow.id (Table.rows t) -> id ∈ map AccountRow.id (Table.rows t')).
Proof.
  intros [Hid Hn Hb] Hex Hge t'. split_and!; [constructor| |].
  - by apply ids_insert.
  - unfold t'. cbn [Table.rows]. rewrite map_app. apply NoDup_app. split_and!; [done| |by apply NoDup_singleton].
    intros k Hk ->%list_elem_of_singleton. cbn in Hk. apply list_elem_of_fmap in Hk as (x & E & Hx).
    assert (existsb (fun a => bool_decide (AccountRow.name a = name)) (Table.rows t) = true); [|congruence].
    apply existsb_elem. exists x. by rewrite bool_decide_true.
  - unfold t'. cbn [Table.rows]. apply Forall_app. split; [done|]. constructor; [by exists b|done].
  - unfold t', cash_in. cbn [Table.rows]. rewrite zsum_app. cbn. lia.
  - intros id Hi. unfold t'. cbn [Table.rows]. rewrite map_app. apply elem_of_app. by left.
Qed.
Lemma after_conflict_accounts t id :
  accounts_ok t -> Table.next_id t = Ok id -> accounts_ok (Table.after_conflict id t) /\
  Table.rows (Table.after_conflict id t) = Table.rows t.
Proof.
  intros Ht Hid%next_id_ok. unfold Table.after_conflict. destruct conflict_uses_id; [|done]. split; [|done].
  destruct Ht as [[Hnd Hle] Hn Hb]. constructor; [split|done..]; [done|]. cbn.
  eapply Forall_impl; [exact Hle|]. cbn. lia.
Qed.

(** ** The invariant *)
Definition holding_in (t : Table.t PositionRow.t) (k : Z * Z * string) : Z :=
  zsum (fun p => if bool_decide (position_key p = k) then int_of (PositionRow.shares p) else 0) (Table.rows t).
Definition trade_key (t : Trade.t) : Z * Z * string := (Trade.account_id t, Trade.market_id t, Trade.outcome t).
Definition signed_shares (t : Trade.t) : Z :=
  if bool_decide (Trade.side t = "buy"%string) then Trade.shares t else - Trade.shares t.
Definition traded_in (t : Table.t (Trade.t * Z)) (k : Z * Z * string) : Z :=
  zsum (fun t => if bool_decide (trade_key (fst t) = k) then signed_shares (fst t) else 0) (Table.rows t).
Definition holding d := holding_in (Db.positions d).
Definition traded d := traded_in (Db.trades d).

Definition owners (t : Table.t AccountRow.t) : list Z := map AccountRow.id (Table.rows t).
(** Keys, signs and references. *)
Record positions_ok (ids : list Z) (t : Table.t PositionRow.t) : Prop := {
  positions_keys : NoDup (map position_key (Table.rows t));
  positions_shares : Forall (fun p => amount_ok (PositionRow.shares p)) (Table.rows t);
  positions_outcomes : Forall (fun p => is_outcome (PositionRow.outcome p) = true) (Table.rows t);
  positions_owners : Forall (fun p => PositionRow.account_id p ∈ ids) (Table.rows t);
}.
Record shape d : Prop := {
  b_accounts : accounts_ok (Db.accounts d);
  b_positions : positions_ok (owners (Db.accounts d)) (Db.positions d);
  b_markets : ids_ok Market.id (Db.markets d);
  b_deposit_ids : ids_ok InboundDeposit.id (Db.inbound_deposits d);
  b_deposits : Forall (fun r => 0 < InboundDeposit.amount r) (Table.rows (Db.inbound_deposits d));
  b_withdrawals : Forall (fun w => 0 < WithdrawalRow.amount w) (Table.rows (Db.outbound_withdrawals d));
}.
(** [n] accounts were opened with the default balance. *)
Record books (n : Z) d : Prop := {
  b_shape : shape d;
  b_trades : forall k, holding d k = traded d k;
  b_money : supply d = DEFAULT_BALANCE * n + deposited d + payout_per_share * paid d;
  b_fits : supply d < 2 ^ 63;
}.
Ltac counts :=
  unfold supply, cash, held, withdrawn, deposited, paid, holding, traded in *;
  cbn [Db.set_accounts Db.set_positions Db.set_markets Db.set_trades Db.set_deposits Db.set_withdrawals
       Db.accounts Db.positions Db.markets Db.trades Db.inbound_deposits Db.outbound_withdrawals] in *.

Lemma Forall_int_nonneg {A} (f : A -> num) l : Forall (fun x => amount_ok (f x)) l -> Forall (fun x => 0 <= int_of (f x)) l.
Proof. intros H. eapply Forall_impl; [exact H|]. by intros x (z & -> & ?). Qed.

Lemma books_bounds n d : books n d ->
  0 <= cash d /\ 0 <= held d /\ 0 <= withdrawn d /\ cash d + PRICE_PER_SHARE * held d < 2 ^ 63.
Proof.
  intros [Hs _ _ Hf]. unfold supply in Hf.
  assert (0 <= cash d) by (apply zsum_nonneg, (Forall_int_nonneg AccountRow.balance), (b_accounts _ Hs)).
  assert (0 <= held d) by (apply zsum_nonneg, (Forall_int_nonneg PositionRow.shares), (b_positions _ Hs)).
  assert (0 <= withdrawn d).
  { apply zsum_nonneg. eapply Forall_impl; [exact (b_withdrawals _ Hs)|]. cbn. lia. }
  split_and!; [done..|]. unfold PRICE_PER_SHARE in *. lia.
Qed.

Lemma positions_owners_mono ids ids' t :
  (forall i, i ∈ ids -> i ∈ ids') -> positions_ok ids t -> positions_ok ids' t.
Proof. intros Hi []. constructor; [done..|]. eapply Forall_impl; [done|]. intros p. apply Hi. Qed.
Lemma shape_accounts d t :
  shape d -> accounts_ok t -> (forall i, i ∈ owners (Db.accounts d) -> i ∈ owners t) -> shape (Db.set_accounts t d).
Proof. intros [] Ht Hi. constructor; try done. by eapply positions_owners_mono. Qed.

Lemma books_empty : books 0 (Db.initialize_schema Db.empty).
Proof. repeat constructor. Qed.

Lemma key_true acct m o p : PositionRow.key acct m o p = true <-> position_key p = (acct, m, o).
Proof.
  unfold PositionRow.key, position_key. rewrite !andb_true_iff, !Z.eqb_eq, bool_decide_eq_true. naive_solver.
Qed.

(** A market that is open has paid nothing. *)
Lemma open_not_won ms m p :
  (forall x, x ∈ ms -> Market.id x = m -> Market.outcome x = "unresolved"%string) ->
  PositionRow.market_id p = m -> is_outcome (PositionRow.outcome p) = true -> won ms p = false.
Proof.
  intros Ho Hm Hp. apply not_true_iff_false. intros (x & Hx & Hc)%existsb_elem.
  apply andb_true_iff in Hc as [Hid%Z.eqb_eq Hout%bool_decide_eq_true].
  rewrite (Ho x Hx) in Hout by congruence. by rewrite <- Hout in Hp.
Qed.
Lemma outcome_of_open d m : ids_ok Market.id (Db.markets d) -> Db.outcome_of m d = Ok "unresolved"%string ->
  (exists x, List.filter (fun x => Market.id x =? m) (Table.rows (Db.markets d)) = [x]) /\
  forall x, x ∈ Table.rows (Db.markets d) -> Market.id x = m -> Market.outcome x = "unresolved"%string.
Proof.
  intros [Hnd _] H. unfold Db.outcome_of, Table.query_row in H.
  destruct (filter_key Market.id (fun x => Market.id x =? m) (Table.rows (Db.markets d)) m) as [Hn|(x & Hf & Hx & _)];
    [done | by intros x Hx%Z.eqb_eq | by rewrite Hn in H |].
  rewrite Hf in H. injection H as H. split; [by exists x|]. intros y Hy Hid.
  assert (Hin : y ∈ List.filter (fun x => Market.id x =? m) (Table.rows (Db.markets d)))
    by (apply filter_In_elem; split; [done|by apply Z.eqb_eq]).
  rewrite Hf in Hin. by apply list_elem_of_singleton in Hin as ->.
Qed.

(** ** Accounts and markets *)
Lemma open_account_books n d now name : books n d -> supply d + DEFAULT_BALANCE < 2 ^ 63 ->
  books (n + match snd (create_account d now name) with Ok _ => 1 | _ => 0 end) (fst (create_account d now name)).
Proof.
  intros Hb Hfit. unfold create_account, Table.insert. destruct (existsb _ _) eqn:Ex.
  { cbn. by rewrite Z.add_0_r. }
  destruct (Table.next_id (Db.accounts d)) as [id| |] eqn:Ei; cbn [result_bind Db.transaction fst snd]; [|by rewrite Z.add_0_r..].
  apply next_id_ok in Ei as ->. destruct Hb as [Hs Ht Hm Hf].
  destruct (accounts_insert _ name DEFAULT_BALANCE now (b_accounts _ Hs) Ex) as (H1 & H2 & H3); [done|].
  constructor; [by apply shape_accounts|done|..]; counts; lia.
Qed.
Lemma create_market_books n d now q desc rt : books n d -> books n (fst (create_market d now q desc rt)).
Proof.
  intros Hb. unfold create_market, Table.insert.
  destruct (Table.next_id (Db.markets d)) as [id| |] eqn:Ei; cbn [result_bind Db.transaction fst]; [|done..].
  apply next_id_ok in Ei as ->. destruct Hb as [Hs Ht Hm Hf].
  constructor; [destruct Hs; constructor; try done; by apply ids_insert|done| |done].
  assert (Hp : forall t, Forall (fun p => is_outcome (PositionRow.outcome p) = true) (Table.rows t) ->
    paid_in (Table.mk (Table.rows (Db.markets d) ++ [Market.mk (Table.last_id (Db.markets d) + 1) q desc rt "unresolved" None now])
      (Table.last_id (Db.markets d) + 1)) t = paid_in (Db.markets d) t).
  { intros t Ht'. apply zsum_ext. intros p Hp. unfold won. cbn [Table.rows]. rewrite existsb_app. cbn [existsb Market.id Market.outcome].
    rewrite (bool_decide_false (_ = _)); [by rewrite andb_false_r, !orb_false_r|].
    intros He. rewrite Forall_forall in Ht'. specialize (Ht' p Hp). by rewrite <- He in Ht'. }
  counts. by rewrite (Hp _ (positions_outcomes _ _ (b_positions _ Hs))).
Qed.

(** The winners of a market, and what they are paid. *)
Lemma winners_ok d m o : Forall (fun p => amount_ok (PositionRow.shares p)) (Table.rows (Db.positions d)) ->
  winners d m o = Ok (map (fun p => (PositionRow.account_id p, int_of (PositionRow.shares p)))
                        (List.filter (wins m o) (Table.rows (Db.positions d)))).
Proof.
  intros Hf. unfold winners. induction (Table.rows (Db.positions d)) as [|p l IH]; [done|].
  apply Forall_cons in Hf as [(z & Hz & _) Hl]. cbn [List.filter]. destruct (wins m o p); [|by apply IH].
  cbn [map_result map]. rewrite Hz. cbn [get_i64 result_bind int_of]. by rewrite (IH Hl).
Qed.

Lemma pay_winners_ok ws : forall d,
  accounts_ok (Db.accounts d) ->
  Forall (fun w => fst w ∈ owners (Db.accounts d) /\ 0 <= snd w) ws ->
  cash d + payout_per_share * zsum snd ws < 2 ^ 63 ->
  exists t, pay_winners ws d = Db.set_accounts t d /\ accounts_ok t /\ owners t = owners (Db.accounts d) /\
    cash_in t = cash d + payout_per_share * zsum snd ws.
Proof.
  unfold payout_per_share. induction ws as [|[acct s] ws IH]; intros d Ha Hw Hfit.
  - exists (Db.accounts d). split_and!; [by destruct d|done..|]. cbn [zsum]. unfold cash. lia.
  - cbn [zsum snd] in *. apply Forall_cons in Hw as [[Hacct Hs] Hw]. cbn [fst snd] in Hacct, Hs.
    assert (Hrest : 0 <= zsum snd ws) by (apply zsum_nonneg; eapply Forall_impl; [exact Hw|]; cbn; tauto).
    assert (Hcash : 0 <= cash d) by (apply zsum_nonneg, (Forall_int_nonneg AccountRow.balance), Ha).
    change (pay_winners ((acct, s) :: ws) d) with (pay_winners ws (Db.credit (as_i64 (s * 100)) acct d)).
    rewrite as_i64_in_range by (unfold is_i64; lia).
    destruct (accounts_credit (Db.accounts d) acct (s * 100) Ha Hacct) as (H1 & H2 & H3);
      [lia|unfold cash in *; lia|].
    assert (Howners : owners (Db.accounts (Db.credit (s * 100) acct d)) = owners (Db.accounts d)) by exact H3.
    destruct (IH (Db.credit (s * 100) acct d)) as (t & Hp & Ht & Hown & Hc).
    + exact H1.
    + eapply Forall_impl; [exact Hw|]. intros w Hw1. by rewrite Howners.
    + unfold Db.credit. counts. rewrite H2. lia.
    + exists t. rewrite Hp. split_and!; [done|done|congruence|].
      rewrite Hc. unfold Db.credit. counts. rewrite H2. lia.
Qed.

(** Shares that win when a market is resolved. *)
Definition winning d m o : Z := zsum (fun p => int_of (PositionRow.shares p)) (List.filter (wins m o) (Table.rows (Db.positions d))).

Lemma paid_resolve ms ps m o now :
  (exists x, List.filter (fun x => Market.id x =? m) (Table.rows ms) = [x]) ->
  (forall x, x ∈ Table.rows ms -> Market.id x = m -> Market.outcome x = "unresolved"%string) ->
  is_outcome o = true ->
  Forall (fun p => amount_ok (PositionRow.shares p)) (Table.rows ps) ->
  Forall (fun p => is_outcome (PositionRow.outcome p) = true) (Table.rows ps) ->
  paid_in (Table.update (fun x => Market.id x =? m) (Market.resolve o now) ms) ps
  = paid_in ms ps + zsum (fun p => int_of (PositionRow.shares p)) (List.filter (wins m o) (Table.rows ps)).
Proof.
  intros [x Hx] Hopen Ho Hs Hout. unfold paid_in, Table.update. cbn [Table.rows].
  assert (Hin : x ∈ Table.rows ms /\ Market.id x = m).
  { assert (Hx' : x ∈ List.filter (fun x => Market.id x =? m) (Table.rows ms)) by (rewrite Hx; by left).
    by apply filter_In_elem in Hx' as [? ?%Z.eqb_eq]. }
  induction (Table.rows ps) as [|p l IH]; [done|]. cbn [zsum List.filter].
  apply Forall_cons in Hs as [(z & Hz & Hge) Hs]. apply Forall_cons in Hout as [Hp Hout]. rewrite (IH Hs Hout).
  assert (Hw : won (map (fun r => if Market.id r =? m then Market.resolve o now r else r) (Table.rows ms)) p
               = won (Table.rows ms) p || ((PositionRow.market_id p =? m) && bool_decide (PositionRow.outcome p = o))).
  { apply eq_true_iff_eq. rewrite orb_true_iff, andb_true_iff, Z.eqb_eq, bool_decide_eq_true. unfold won.
    rewrite !existsb_elem. split.
    - intros (y & Hy & Hc). apply list_elem_of_fmap in Hy as (r & -> & Hr).
      destruct (Z.eqb_spec (Market.id r) m) as [Hid|Hid].
      + right. cbn in Hc. apply andb_true_iff in Hc as [H1%Z.eqb_eq H2%bool_decide_eq_true]. by split; congruence.
      + left. by exists r.
    - intros [(y & Hy & Hc)|[Hm Hpo]].
      + apply andb_true_iff in Hc as [H1%Z.eqb_eq H2%bool_decide_eq_true]. exists y. split.
        * apply list_elem_of_fmap. exists y. split; [|done]. destruct (Z.eqb_spec (Market.id y) m) as [Hid|]; [|done].
          rewrite (Hopen y Hy Hid) in H2. by rewrite <- H2 in Hp.
        * by rewrite H1, Z.eqb_refl, bool_decide_true.
      + exists (Market.resolve o now x). destruct Hin as [Hxin Hxid]. split.
        * apply list_elem_of_fmap. exists x. by rewrite Hxid, Z.eqb_refl.
        * cbn. by rewrite Hxid, Hm, Z.eqb_refl, bool_decide_true. }
  rewrite Hw. destruct (wins m o p) eqn:Ew.
  - unfold wins in Ew. apply andb_true_iff in Ew as [Ew _]. rewrite Ew.
    apply andb_true_iff in Ew as [Em%Z.eqb_eq _]. rewrite (open_not_won _ m) by done. cbn [orb zsum]. lia.
  - unfold wins in Ew. destruct ((PositionRow.market_id p =? m) && bool_decide (PositionRow.outcome p = o)) eqn:Ek;
      [|rewrite orb_false_r; lia]. cbn [andb] in Ew. rewrite Hz in Ew |- *. cbn in Ew. apply Z.ltb_ge in Ew.
    assert (z = 0) as -> by lia. cbn [int_of]. destruct (won (Table.rows ms) p); cbn; lia.
Qed.

Lemma resolve_books n d now m o : books n d -> supply d + payout_per_share * winning d m o < 2 ^ 63 ->
  books n (fst (resolve_market d now m o)).
Proof.
  intros Hb Hfit. pose proof (books_bounds _ _ Hb) as (Hc & Hh & Hwd & _).
  unfold resolve_market, resolve_check. destruct (is_outcome o) eqn:Eo; [|done]. cbn [negb].
  destruct (Db.outcome_of m d) as [cur| |] eqn:Ecur; cbn [result_bind]; [|done..].
  case_bool_decide as Hcur; [|done]. subst cur. destruct Hb as [Hs Ht Hm Hf].
  destruct (outcome_of_open _ _ (b_markets _ Hs) Ecur) as [Hone Hopen].
  unfold resolve_commit. set (d1 := Db.set_markets _ d). rewrite (winners_ok d1); [|apply (b_positions _ Hs)].
  cbn [result_bind Db.transaction fst]. set (ws := map _ _).
  assert (Hsum : zsum snd ws = winning d m o).
  { unfold ws, winning. change (Db.positions d1) with (Db.positions d).
    induction (List.filter (wins m o) _) as [|p l IH]; [done|]. cbn [map zsum snd]. by rewrite IH. }
  destruct (pay_winners_ok ws d1) as (t & -> & Hta & Hown & Hcash).
  - apply (b_accounts _ Hs).
  - unfold ws. change (Db.positions d1) with (Db.positions d). apply Forall_forall. intros w (p & -> & Hp)%list_elem_of_fmap.
    apply filter_In_elem in Hp as [Hp _]. destruct (b_positions _ Hs) as [_ Hsh _ Hownr]. rewrite Forall_forall in Hsh, Hownr.
    cbn [fst snd]. split; [by apply Hownr|]. by destruct (Hsh p Hp) as (z & -> & ?).
  - rewrite Hsum. change (cash d1) with (cash d). unfold supply, PRICE_PER_SHARE, payout_per_share in *. lia.
  - constructor.
    + apply shape_accounts; [|done|]; [|by rewrite Hown].
      destruct Hs. constructor; try done. by apply ids_update.
    + exact Ht.
    + assert (Hpaid : paid (Db.set_accounts t d1) = paid d + winning d m o).
      { unfold winning. unfold d1. counts. apply paid_resolve; try done; apply (b_positions _ Hs). }
      rewrite Hpaid. change (deposited (Db.set_accounts t d1)) with (deposited d).
      unfold supply. change (cash (Db.set_accounts t d1)) with (cash_in t). rewrite Hcash, Hsum.
      change (cash d1) with (cash d). change (withdrawn (Db.set_accounts t d1)) with (withdrawn d).
      change (held (Db.set_accounts t d1)) with (held d). unfold supply in Hm. lia.
    + unfold supply. change (cash (Db.set_accounts t d1)) with (cash_in t). rewrite Hcash, Hsum.
      change (cash d1) with (cash d). change (withdrawn (Db.set_accounts t d1)) with (withdrawn d).
      change (held (Db.set_accounts t d1)) with (held d). unfold supply in Hfit. lia.
Qed.
(** ** Trading *)
Lemma check_trade_ok d m o shares : check_trade d m o shares = Ok tt ->
  is_outcome o = true /\ 0 < shares /\ Db.outcome_of m d = Ok "unresolved"%string.
Proof.
  unfold check_trade. destruct (is_outcome o); [|done]. cbn [negb]. destruct (Z.leb_spec shares 0); [done|].
  destruct (Db.outcome_of m d) as [cur| |]; cbn [result_bind]; [|done..]. case_bool_decide; [|done]. by subst.
Qed.
Lemma balance_of_ok d acct b : accounts_ok (Db.accounts d) -> Db.balance_of acct d = Ok b ->
  exists a, List.filter (fun a => AccountRow.id a =? acct) (Table.rows (Db.accounts d)) = [a] /\
    AccountRow.balance a = inl b /\ acct ∈ owners (Db.accounts d).
Proof.
  intros Ha H. unfold Db.balance_of, Table.query_row in H.
  destruct (filter_key AccountRow.id (fun a => AccountRow.id a =? acct) (Table.rows (Db.accounts d)) acct)
    as [Hn|(a & Hf & Hin & Hid%Z.eqb_eq)]; [apply Ha | by intros x Hx%Z.eqb_eq | by rewrite Hn in H |].
  rewrite Hf in H. exists a. split_and!; [done| |].
  - destruct (AccountRow.balance a); cbn in H; [by injection H as ->|done].
  - apply list_elem_of_fmap. by exists a.
Qed.

Lemma balance_of_bounds d acct b : accounts_ok (Db.accounts d) -> Db.balance_of acct d = Ok b -> 0 <= b <= cash d.
Proof.
  intros Ha H. destruct (balance_of_ok _ _ _ Ha H) as (a & Hf & Ea & _).
  assert (Hin : a ∈ List.filter (fun a => AccountRow.id a =? acct) (Table.rows (Db.accounts d))) by (rewrite Hf; by left).
  apply filter_In_elem in Hin as [Hin _]. destruct (balance_bounds _ a Ha Hin) as (b' & Eb' & Hb').
  rewrite Ea in Eb'. by injection Eb' as <-.
Qed.

(** What a trade of [x] shares under [k] does to the positions. *)
Record moved (ids : list Z) (ms : Table.t Market.t) (k : Z * Z * string) (x : Z) (t t' : Table.t PositionRow.t) : Prop := {
  moved_ok : positions_ok ids t';
  moved_held : held_in t' = held_in t + x;
  moved_paid : paid_in ms t' = paid_in ms t;
  moved_holding : forall k', holding_in t' k' = holding_in t k' + (if bool_decide (k' = k) then x else 0);
}.

Lemma position_update ids ms acct m o x t w g p z :
  positions_ok ids t ->
  (forall x, x ∈ Table.rows ms -> Market.id x = m -> Market.outcome x = "unresolved"%string) ->
  w = PositionRow.key acct m o -> List.filter w (Table.rows t) = [p] -> PositionRow.shares p = inl z ->
  (forall q, position_key (g q) = position_key q) -> PositionRow.shares (g p) = inl (z + x) -> 0 <= z + x ->
  moved ids ms (acct, m, o) x t (Table.update w g t).
Proof.
  intros [Hk Hsh Hout Hown] Hopen Hw Hf Hz Hg Hgp Hge.
  assert (Hp : p ∈ Table.rows t /\ position_key p = (acct, m, o)).
  { assert (Hin : p ∈ List.filter w (Table.rows t)) by (rewrite Hf; by left). apply filter_In_elem in Hin as [? Hin].
    subst w. by apply key_true in Hin. }
  destruct Hp as [Hin Hkey].
  assert (Hgo : forall q, PositionRow.outcome (g q) = PositionRow.outcome q /\ PositionRow.account_id (g q) = PositionRow.account_id q
                  /\ PositionRow.market_id (g q) = PositionRow.market_id q).
  { intros q. specialize (Hg q). unfold position_key in Hg. by injection Hg. }
  assert (Hwon : forall q, won (Table.rows ms) (g q) = won (Table.rows ms) q).
  { intros q. unfold won. destruct (Hgo q) as (-> & _ & ->). done. }
  constructor.
  - constructor; cbn [Table.update Table.rows].
    + rewrite map_update_same; done.
    + apply Forall_update; [done|]. intros q Hq Hwq _.
      assert (q ∈ List.filter w (Table.rows t)) as Hq' by (by apply filter_In_elem). rewrite Hf in Hq'.
      apply list_elem_of_singleton in Hq' as ->. by exists (z + x).
    + apply Forall_update; [done|]. intros q _ _. by destruct (Hgo q) as (-> & _).
    + apply Forall_update; [done|]. intros q _ _. by destruct (Hgo q) as (_ & -> & _).
  - unfold held_in. cbn [Table.update Table.rows]. rewrite (zsum_update _ _ _ _ _ Hf), Hz, Hgp. cbn. lia.
  - unfold paid_in. cbn [Table.update Table.rows]. rewrite (zsum_update _ _ _ _ _ Hf), Hwon.
    rewrite (open_not_won _ m p Hopen); [lia|by injection Hkey|]. rewrite Forall_forall in Hout. by apply Hout.
  - intros k'. unfold holding_in. cbn [Table.update Table.rows]. rewrite (zsum_update _ _ _ _ _ Hf), Hz, Hg, Hgp, Hkey.
    do 2 case_bool_decide; subst; try done; cbn; lia.
Qed.

Lemma position_insert ids ms acct m o x t p :
  positions_ok ids t ->
  (forall x, x ∈ Table.rows ms -> Market.id x = m -> Market.outcome x = "unresolved"%string) ->
  is_outcome o = true -> acct ∈ ids -> existsb (PositionRow.key acct m o) (Table.rows t) = false ->
  position_key p = (acct, m, o) -> PositionRow.shares p = inl x -> 0 <= x -> forall id,
  moved ids ms (acct, m, o) x t (Table.mk (Table.rows t ++ [p]) id).
Proof.
  intros [Hk Hsh Hout Hown] Hopen Ho Hacct Hex Hkey Hx Hge id.
  assert (Hp : PositionRow.account_id p = acct /\ PositionRow.market_id p = m /\ PositionRow.outcome p = o)
    by (unfold position_key in Hkey; by injection Hkey).
  destruct Hp as (Hp1 & Hp2 & Hp3). constructor.
  - constructor; cbn [Table.rows].
    + rewrite map_app. apply NoDup_app. split_and!; [done| |by apply NoDup_singleton].
      cbn. intros k Hin ->%list_elem_of_singleton. apply list_elem_of_fmap in Hin as (q & E & Hq).
      apply existsb_filter in Hex. pose proof (filter_none _ _ Hex q Hq) as Hf. apply not_true_iff_false in Hf. apply Hf.
      apply key_true. congruence.
    + apply Forall_app. split; [done|]. constructor; [by exists x|done].
    + apply Forall_app. split; [done|]. constructor; [by rewrite Hp3|done].
    + apply Forall_app. split; [done|]. constructor; [by rewrite Hp1|done].
  - unfold held_in. cbn [Table.rows]. rewrite zsum_app. cbn [zsum]. rewrite Hx. cbn. lia.
  - unfold paid_in. cbn [Table.rows]. rewrite zsum_app. cbn [zsum].
    rewrite (open_not_won _ m p Hopen Hp2) by (by rewrite Hp3). lia.
  - intros k'. unfold holding_in. cbn [Table.rows]. rewrite zsum_app. cbn [zsum]. rewrite Hkey, Hx.
    do 2 case_bool_decide; subst; try done; cbn; lia.
Qed.

(** A trade as a whole: money one way, shares the other, and a row of [trades]. *)
Lemma trade_books n d now acct m o side shares ts ps :
  books n d -> accounts_ok ts -> owners ts = owners (Db.accounts d) ->
  moved (owners (Db.accounts d)) (Db.markets d) (acct, m, o) shares (Db.positions d) ps ->
  cash_in ts = cash d - PRICE_PER_SHARE * shares ->
  forall x total r, signed_shares (Trade.mk 0 acct m o side x PRICE_PER_SHARE total) = shares ->
  record_trade now acct m o side x total (Db.set_positions ps (Db.set_accounts ts d)) = Ok r -> books n (fst r).
Proof.
  intros [Hs Ht Hm Hf] Hts Hown [Hps Hheld Hpaid Hhold] Hcash x total r Hsg Hr.
  unfold record_trade, Table.insert in Hr.
  change (Db.trades (Db.set_positions ps (Db.set_accounts ts d))) with (Db.trades d) in Hr.
  destruct (Table.next_id (Db.trades d)) as [id| |]; cbn [result_bind] in Hr; [|done..]. injection Hr as <-.
  cbn [fst]. constructor.
  - destruct Hs. constructor; try done. counts. by rewrite Hown.
  - intros k. counts. rewrite Hhold, Ht. unfold traded_in. cbn [Table.rows]. rewrite zsum_app. cbn [zsum fst].
    unfold trade_key. cbn [Trade.account_id Trade.market_id Trade.outcome].
    change (signed_shares (Trade.mk id acct m o side x PRICE_PER_SHARE total))
      with (signed_shares (Trade.mk 0 acct m o side x PRICE_PER_SHARE total)). rewrite Hsg.
    do 2 case_bool_decide; subst; try done; cbn; lia.
  - counts. rewrite Hheld, Hcash, Hpaid. lia.
  - counts. rewrite Hheld, Hcash. lia.
Qed.

Lemma moved_rows ids ms k x t1 t2 t' : Table.rows t1 = Table.rows t2 -> moved ids ms k x t1 t' -> moved ids ms k x t2 t'.
Proof. intros Hr []. unfold held_in, paid_in, holding_in in *. rewrite Hr in *. by constructor. Qed.
Lemma shares_held ids t p z : positions_ok ids t -> p ∈ Table.rows t -> PositionRow.shares p = inl z -> 0 <= z <= held_in t.
Proof.
  intros Ht Hp Hz. pose proof (positions_shares _ _ Ht) as Hall. split.
  - rewrite Forall_forall in Hall. destruct (Hall p Hp) as (z' & Hz' & ?). rewrite Hz in Hz'. by injection Hz' as <-.
  - replace z with (int_of (PositionRow.shares p)) by (by rewrite Hz).
    apply (zsum_elem (fun p => int_of (PositionRow.shares p))); [by apply (Forall_int_nonneg PositionRow.shares)|done].
Qed.

(** The upsert of a purchase. *)
Lemma upsert_moved ids ms acct m o shares cost t id :
  positions_ok ids t ->
  (forall x, x ∈ Table.rows ms -> Market.id x = m -> Market.outcome x = "unresolved"%string) ->
  is_outcome o = true -> acct ∈ ids -> 0 < shares -> held_in t + shares < 2 ^ 63 ->
  moved ids ms (acct, m, o) shares t
    (if existsb (PositionRow.key acct m o) (Table.rows t) then
       Table.update (PositionRow.key acct m o) (PositionRow.bought shares cost) (Table.after_conflict id t)
     else Table.mk (Table.rows t ++ [PositionRow.mk id acct m o (inl shares) (inl cost)]) id).
Proof.
  intros Ht Hopen Ho Hacct Hsh Hfit. destruct (existsb _ _) eqn:Eex; [|apply position_insert; try done; lia].
  destruct (filter_key position_key (PositionRow.key acct m o) (Table.rows t) (acct, m, o))
    as [Hn|(p & Hfp & Hp & Hkp)]; [apply Ht | by intros q Hq%key_true | |].
  { apply existsb_elem in Eex as (p & Hp & Hkp). pose proof (filter_none _ _ Hn p Hp). congruence. }
  assert (Hrows : Table.rows (Table.after_conflict id t) = Table.rows t)
    by (unfold Table.after_conflict; by destruct conflict_uses_id).
  pose proof (positions_shares _ _ Ht) as Hall. rewrite Forall_forall in Hall. destruct (Hall p Hp) as (z & Hz & Hge).
  pose proof (shares_held _ _ _ _ Ht Hp Hz). eapply moved_rows; [exact Hrows|].
  apply (position_update _ _ acct m o shares _ _ _ p z); try done; rewrite ?Hrows; try done; try lia.
  - destruct Ht. constructor; by rewrite Hrows.
  - cbn. rewrite Hz. cbn. rewrite bool_decide_true; [done|]. unfold is_i64. lia.
Qed.

Lemma buy_books n d now acct m o shares : books n d -> shares * PRICE_PER_SHARE < 2 ^ 63 ->
  books n (fst (buy_shares d now acct m o shares)).
Proof.
  intros Hb Hfit. pose proof (books_bounds _ _ Hb) as (Hc & Hh & Hwd & Hcap). pose proof (b_shape _ _ Hb) as Hs.
  unfold buy_shares, buy_check. destruct (check_trade d m o shares) as [[]| |] eqn:Ech; cbn [result_bind]; [|done..].
  apply check_trade_ok in Ech as (Ho & Hsh & Hcur). destruct (outcome_of_open _ _ (b_markets _ Hs) Hcur) as [_ Hopen].
  unfold i64_mul. rewrite as_i64_in_range by (unfold is_i64, PRICE_PER_SHARE in *; lia).
  destruct (Db.balance_of acct d) as [b| |] eqn:Eb; cbn [result_bind]; [|done..].
  destruct (Z.ltb_spec b (shares * PRICE_PER_SHARE)) as [|Hle]; [done|].
  destruct (balance_of_ok _ _ _ (b_accounts _ Hs) Eb) as (a & Hf & Ea & Hacct).
  destruct (accounts_debit _ acct (shares * PRICE_PER_SHARE) a b (b_accounts _ Hs) Hf Ea) as (H1 & H2 & H3);
    [unfold PRICE_PER_SHARE in *; lia | unfold cash, PRICE_PER_SHARE in *; lia |].
  pose proof (balance_of_bounds _ _ _ (b_accounts _ Hs) Eb) as Hbc.
  unfold buy_commit. set (d1 := Db.debit _ _ d). unfold upsert_position.
  change (Db.positions d1) with (Db.positions d).
  destruct (Table.next_id (Db.positions d)) as [id| |]; cbn [result_bind Db.transaction fst]; [|done..].
  pose proof (upsert_moved _ (Db.markets d) acct m o shares (shares * PRICE_PER_SHARE) (Db.positions d) id
                (b_positions _ Hs) Hopen Ho Hacct Hsh) as Hmoved.
  destruct (record_trade _ _ _ _ _ _ _ _) as [d'| |] eqn:Er; [|done..].
  assert (Hbooks : books n (fst d')); [|destruct d'; exact Hbooks].
  eapply trade_books; [exact Hb|exact H1|exact H3|apply Hmoved| | |exact Er].
  - unfold held, PRICE_PER_SHARE in *. lia.
  - unfold cash. lia.
  - done.
Qed.

Lemma sell_books n d now acct m o shares : books n d -> books n (fst (sell_shares d now acct m o shares)).
Proof.
  intros Hb. pose proof (books_bounds _ _ Hb) as (Hc & Hh & Hwd & Hcap). pose proof (b_shape _ _ Hb) as Hs.
  unfold sell_shares, sell_check. destruct (check_trade d m o shares) as [[]| |] eqn:Ech; cbn [result_bind]; [|done..].
  apply check_trade_ok in Ech as (Ho & Hsh & Hcur). destruct (outcome_of_open _ _ (b_markets _ Hs) Hcur) as [_ Hopen].
  unfold shares_of, Table.query_row.
  destruct (filter_key position_key (PositionRow.key acct m o) (Table.rows (Db.positions d)) (acct, m, o))
    as [Hn|(p & Hfp & Hp & Hkp)]; [apply (b_positions _ Hs) | by intros q Hq%key_true | |].
  { rewrite Hn. cbn [result_bind]. destruct (Z.ltb_spec 0 shares); [done|lia]. }
  rewrite Hfp. destruct (b_positions _ Hs) as [_ Hall _ Hown]. rewrite Forall_forall in Hall, Hown.
  destruct (Hall p Hp) as (z & Hz & Hge). rewrite Hz. cbn [get_i64 result_bind].
  destruct (Z.ltb_spec z shares) as [|Hle]; [done|]. apply key_true in Hkp.
  assert (Hzh : z <= held d) by (unfold held; pose proof (shares_held _ _ p z (b_positions _ Hs) Hp Hz); lia).
  unfold i64_mul. rewrite as_i64_in_range by (unfold is_i64, PRICE_PER_SHARE in *; lia).
  assert (Hacct : acct ∈ owners (Db.accounts d)).
  { specialize (Hown p Hp). unfold position_key in Hkp. injection Hkp as <- _ _. exact Hown. }
  destruct (accounts_credit _ acct (shares * PRICE_PER_SHARE) (b_accounts _ Hs) Hacct) as (H1 & H2 & H3);
    [unfold PRICE_PER_SHARE; lia | unfold cash, PRICE_PER_SHARE in *; lia |].
  unfold sell_commit. set (d1 := Db.credit _ _ d). change (Db.positions d1) with (Db.positions d).
  destruct (record_trade _ _ _ _ _ _ _ _) as [d'| |] eqn:Er; [|done..].
  assert (Hbooks : books n (fst d')); [|destruct d'; exact Hbooks].
  eapply (trade_books n d now acct m o "sell" (- shares)); [exact Hb|exact H1|exact H3| | |done|exact Er].
  - apply (position_update _ _ acct m o (- shares) _ _ _ p z); try done; [apply (b_positions _ Hs)| |lia].
    cbn. rewrite Hz. cbn. rewrite bool_decide_true; [by rewrite Z.add_opp_r|]. unfold is_i64, PRICE_PER_SHARE in *. lia.
  - unfold cash. lia.
Qed.
(** ** The bridge *)
Lemma withdraw_books n d now acct amount dest : books n d -> books n (fst (request_withdrawal d now acct amount dest)).
Proof.
  intros Hb. pose proof (books_bounds _ _ Hb) as (Hc & Hh & Hwd & Hcap). pose proof (b_shape _ _ Hb) as Hs.
  unfold request_withdrawal, withdrawal_check. destruct (Z.leb_spec amount 0) as [|Hpos]; [done|].
  destruct (Db.balance_of acct d) as [b| |] eqn:Eb; cbn [result_bind]; [|done..].
  destruct (Z.ltb_spec b amount) as [|Hle]; [done|].
  destruct (balance_of_ok _ _ _ (b_accounts _ Hs) Eb) as (a & Hf & Ea & Hacct).
  destruct (accounts_debit _ acct amount a b (b_accounts _ Hs) Hf Ea) as (H1 & H2 & H3);
    [lia | unfold cash, PRICE_PER_SHARE in *; lia |].
  unfold withdrawal_commit, Table.insert. set (d1 := Db.debit _ _ d).
  destruct (Table.next_id (Db.outbound_withdrawals d1)) as [id| |]; cbn [result_bind Db.transaction fst]; [|done..].
  destruct Hb as [_ Ht Hm Hfit].
  assert (Hw : withdrawn_in (Table.mk (Table.rows (Db.outbound_withdrawals d1) ++
     [WithdrawalRow.mk id acct amount dest "pending" None None now]) id) = withdrawn d + amount).
  { unfold withdrawn_in. cbn [Table.rows]. rewrite zsum_app. cbn. unfold withdrawn, withdrawn_in. lia. }
  constructor; [|exact Ht|..].
  - assert (Hs' : shape d1) by (apply (shape_accounts _ _ Hs H1); intros i; unfold owners; by rewrite H3).
    destruct Hs'. constructor; try done. apply Forall_app. split; [done|]. constructor; [cbn; lia|done].
  - unfold d1, Db.debit in *. counts. rewrite Hw, H2. lia.
  - unfold d1, Db.debit in *. counts. rewrite Hw, H2. lia.
Qed.

(** A deposit that is recorded and not yet processed. *)
Lemma deposit_row_books n d r id :
  books n d -> Table.next_id (Db.inbound_deposits d) = Ok id -> InboundDeposit.id r = id ->
  0 < InboundDeposit.amount r -> InboundDeposit.processed r = 0 ->
  books n (Db.set_deposits (Table.mk (Table.rows (Db.inbound_deposits d) ++ [r]) id) d).
Proof.
  intros [Hs Ht Hm Hf] ->%next_id_ok Hr Hpos Hproc.
  constructor; [|done| |done].
  - destruct Hs. constructor; try done.
    + by apply ids_insert.
    + apply Forall_app. split; [done|]. by constructor.
  - counts. unfold deposited_in in *. cbn [Table.rows]. rewrite zsum_app. cbn [zsum]. rewrite Hproc. cbn. lia.
Qed.
Lemma simulate_books n d now tx from to amount block : books n d -> 0 < amount ->
  books n (fst (simulate_deposit d now tx from to amount block)).
Proof.
  intros Hb Hpos. unfold simulate_deposit, Table.insert. destruct (deposit_known tx d); [done|].
  destruct (Table.next_id (Db.inbound_deposits d)) as [id| |] eqn:Ei; cbn [result_bind Db.transaction fst]; [|done..].
  by apply deposit_row_books.
Qed.
Lemma insert_deposit_books n d now dep : books n d -> 0 < MarketDeposit.amount dep ->
  books n (fst (insert_deposit d now dep)).
Proof.
  intros Hb Hpos. unfold insert_deposit.
  destruct (Table.next_id (Db.inbound_deposits d)) as [id| |] eqn:Ei; cbn [result_bind Db.transaction fst]; [|done..].
  destruct (deposit_known _ d); cbn [fst]; [|by apply deposit_row_books].
  unfold Table.after_conflict. destruct conflict_uses_id; [|by destruct d].
  destruct Hb as [Hs Ht Hm Hf]. constructor; [|done..]. destruct Hs. constructor; try done.
  destruct b_deposit_ids0 as [Hnd Hle]. split; [done|]. apply next_id_ok in Ei as ->.
  eapply Forall_impl; [exact Hle|]. cbn. lia.
Qed.
Lemma confirm_books n d now c : books n d -> books n (fst (confirm_withdrawal d now c)).
Proof.
  intros Hb. unfold confirm_withdrawal. destruct update_limit; [|done]. cbn [negb].
  destruct (sort_by_key _ _) as [|w l]; [done|]. cbn [fst]. destruct Hb as [Hs Ht Hm Hf].
  assert (Hw : forall q, withdrawn_in (Table.update q (WithdrawalRow.confirm (WithdrawalConfirmation.tx_hash c) now)
            (Db.outbound_withdrawals d)) = withdrawn d).
  { intros q. unfold withdrawn_in. cbn [Table.update Table.rows]. by rewrite zsum_update_same. }
  constructor; [|done|..]; [|counts; by rewrite Hw..].
  destruct Hs. constructor; try done. apply Forall_update; [done|]. by intros x.
Qed.

(** One deposit credited: to an account of that name, or to a new one. *)
Lemma credit_address_ok now to amount d d' :
  accounts_ok (Db.accounts d) -> 0 < amount -> cash d + amount < 2 ^ 63 -> credit_address now to amount d = Ok d' ->
  exists t, d' = Db.set_accounts t d /\ accounts_ok t /\ cash_in t = cash d + amount /\
    (forall i, i ∈ owners (Db.accounts d) -> i ∈ owners t).
Proof.
  intros Ha Hpos Hfit H. unfold credit_address in H.
  destruct (Table.next_id (Db.accounts d)) as [id| |] eqn:Ei; cbn [result_bind] in H; [|done..]. injection H as <-.
  eexists. split; [reflexivity|]. destruct (existsb _ _) eqn:Eex.
  - destruct (after_conflict_accounts _ id Ha Ei) as [Ha' Hrows].
    set (named := fun a => bool_decide (AccountRow.name a = to)) in *.
    destruct (filter_key AccountRow.name named (Table.rows (Db.accounts d)) to) as [Hn|(a & Hf & Hin & _)];
      [apply Ha | by intros x Hx%bool_decide_eq_true | |].
    { apply existsb_elem in Eex as (x & Hx & Hc). pose proof (filter_none _ _ Hn x Hx). congruence. }
    destruct (balance_bounds _ a Ha Hin) as (b & Eb & Hb).
    destruct (accounts_update (Table.after_conflict id (Db.accounts d)) named (AccountRow.add amount) a b (b + amount))
      as (H1 & H2 & H3); try done; try lia.
    + by rewrite Hrows.
    + cbn. rewrite Eb, sql_add_small; [done|]. unfold is_i64, cash in *. lia.
    + assert (Hcash : cash_in (Table.after_conflict id (Db.accounts d)) = cash d) by (unfold cash, cash_in; by rewrite Hrows).
      split_and!; [done|lia|]. intros i Hi. unfold owners in *. rewrite H3, Hrows. done.
  - apply next_id_ok in Ei as ->. destruct (accounts_insert _ to amount now Ha Eex) as (H1 & H2 & H3); [lia|]. done.
Qed.

(** Marking one deposit. *)
Lemma mark_deposit d r :
  ids_ok InboundDeposit.id (Db.inbound_deposits d) -> r ∈ unprocessed d ->
  let t := Table.update (fun x => InboundDeposit.id x =? InboundDeposit.id r) InboundDeposit.set_processed (Db.inbound_deposits d) in
  deposited_in t = deposited d + InboundDeposit.amount r /\
  (forall x, x ∈ unprocessed d -> InboundDeposit.id x <> InboundDeposit.id r ->
     x ∈ List.filter (fun r => InboundDeposit.processed r =? 0) (Table.rows t)).
Proof.
  intros [Hnd _] Hr t. apply filter_In_elem in Hr as [Hr Hp].
  destruct (filter_key InboundDeposit.id (fun x => InboundDeposit.id x =? InboundDeposit.id r) (Table.rows (Db.inbound_deposits d))
              (InboundDeposit.id r)) as [Hn|(x & Hf & Hx & Hid%Z.eqb_eq)]; [done|by intros x Hx%Z.eqb_eq| |].
  { pose proof (filter_none _ _ Hn r Hr) as Hc. by apply Z.eqb_neq in Hc. }
  assert (x = r) as ->.
  { assert (Hin : r ∈ List.filter (fun x => InboundDeposit.id x =? InboundDeposit.id r) (Table.rows (Db.inbound_deposits d)))
      by (apply filter_In_elem; split; [done|by apply Z.eqb_eq]).
    rewrite Hf in Hin. by apply list_elem_of_singleton in Hin. }
  split.
  - unfold t, deposited, deposited_in. cbn [Table.update Table.rows]. rewrite (zsum_update _ _ _ _ _ Hf), Hp. cbn. lia.
  - intros y [Hy Hyp]%filter_In_elem Hne. apply filter_In_elem. split; [|done]. unfold t. cbn [Table.update Table.rows].
    apply list_elem_of_fmap. exists y. split; [|done]. by rewrite (proj2 (Z.eqb_neq _ _) Hne).
Qed.

Lemma process_all_books n now deps : forall d d',
  books n d -> NoDup (map InboundDeposit.id deps) -> (forall r, r ∈ deps -> r ∈ unprocessed d) ->
  supply d + zsum InboundDeposit.amount deps < 2 ^ 63 -> process_all now deps d = Ok d' -> books n d'.
Proof.
  induction deps as [|r deps IH]; intros d d' Hb Hnd Hin Hfit H; cbn [process_all] in H; [by injection H as <-|].
  cbn [map zsum] in *. apply NoDup_cons in Hnd as [Hnot Hnd].
  pose proof (books_bounds _ _ Hb) as (Hc & Hh & Hwd & _). destruct Hb as [Hs Ht Hm Hf].
  assert (Hr : r ∈ unprocessed d) by (apply Hin; by left).
  pose proof (b_deposits _ Hs) as Hpos. rewrite Forall_forall in Hpos.
  assert (Hall : forall x, x ∈ r :: deps -> 0 < InboundDeposit.amount x).
  { intros x Hx%Hin%filter_In_elem. apply Hpos, Hx. }
  assert (Hrest : 0 <= zsum InboundDeposit.amount deps).
  { apply zsum_nonneg, Forall_forall. intros x Hx. apply Z.lt_le_incl, Hall. by right. }
  unfold process_deposit in H. destruct (credit_address _ _ _ d) as [d1| |] eqn:Ec; cbn [result_bind] in H; [|done..].
  destruct (credit_address_ok now (InboundDeposit.to_address r) (InboundDeposit.amount r) d d1) as (t & -> & Hta & Hcash & Hown);
    [apply (b_accounts _ Hs) | apply Hall; by left | unfold supply, PRICE_PER_SHARE in Hfit; lia | done |].
  destruct (mark_deposit d r (b_deposit_ids _ Hs) Hr) as [Hdep Hleft].
  change (Db.inbound_deposits (Db.set_accounts t d)) with (Db.inbound_deposits d) in H.
  eapply IH; [| | | |exact H]; [|done| |].
  - constructor; [|exact Ht|..].
    + apply (shape_accounts _ _ Hs Hta) in Hown. destruct Hown. constructor; try done.
      * by apply ids_update.
      * apply Forall_update; [done|]. by intros x.
    + counts. rewrite Hdep, Hcash. lia.
    + counts. rewrite Hcash. unfold PRICE_PER_SHARE in *. lia.
  - intros x Hx. apply (Hleft x); [apply Hin; by right|]. intros He. apply Hnot. rewrite <- He.
    apply list_elem_of_fmap. by exists x.
  - counts. rewrite Hcash. lia.
Qed.

Lemma process_books n d now : books n d -> supply d + waiting d < 2 ^ 63 -> books n (fst (process_deposits d now)).
Proof.
  intros Hb Hfit. unfold process_deposits. destruct (process_all now (unprocessed d) d) as [d'| |] eqn:E;
    cbn [result_bind Db.transaction fst]; [|done..].
  eapply process_all_books; [exact Hb| |done|exact Hfit|exact E].
  destruct (b_deposit_ids _ (b_shape _ _ Hb)) as [Hnd _]. unfold unprocessed.
  induction (Table.rows (Db.inbound_deposits d)) as [|x l IH]; [constructor|]. cbn [map List.filter] in *.
  apply NoDup_cons in Hnd as [Hx Hl]. destruct (InboundDeposit.processed x =? 0); [|by apply IH]. cbn [map].
  constructor; [|by apply IH]. intros (y & He & Hy)%list_elem_of_fmap. apply Hx. apply list_elem_of_fmap. exists y.
  split; [done|]. by apply filter_In_elem in Hy as [? _].
Qed.
(** ** Every operation, one after the other *)
Inductive op :=
| OpenAccount (now : Z) (name : string)
| OpenMarket (now : Z) (question : string) (description : option string) (resolution_time : Z)
| Resolve (now market_id : Z) (outcome : string)
| Buy (now account_id market_id : Z) (outcome : string) (shares : Z)
| Sell (now account_id market_id : Z) (outcome : string) (shares : Z)
| Withdraw (now account_id amount : Z) (destination : string)
| Simulate (now : Z) (tx_hash from to : string) (amount block : Z)
| Record_ (now : Z) (deposit : MarketDeposit.t)
| Process (now : Z)
| Confirm (now : Z) (c : WithdrawalConfirmation.t).

Definition perform (o : op) d : Db.t :=
  match o with
  | OpenAccount now name => fst (create_account d now name)
  | OpenMarket now q desc rt => fst (create_market d now q desc rt)
  | Resolve now m o => fst (resolve_market d now m o)
  | Buy now acct m o shares => fst (buy_shares d now acct m o shares)
  | Sell now acct m o shares => fst (sell_shares d now acct m o shares)
  | Withdraw now acct amount dest => fst (request_withdrawal d now acct amount dest)
  | Simulate now tx from to amount block => fst (simulate_deposit d now tx from to amount block)
  | Record_ now dep => fst (insert_deposit d now dep)
  | Process now => fst (process_deposits d now)
  | Confirm now c => fst (confirm_withdrawal d now c)
  end.
(** Accounts it opens with the default balance. *)
Definition opens (o : op) d : Z :=
  match o with
  | OpenAccount now name => match snd (create_account d now name) with Ok _ => 1 | _ => 0 end
  | _ => 0
  end.
(** What keeps the arithmetic in range: the price of a purchase fits [i64], and so does all
    the money there is afterwards.  Deposits are positive: the contract's are, but the
    simulation endpoint takes any [i64]. *)
Definition in_range (o : op) d : Prop :=
  match o with
  | OpenAccount _ _ => supply d + DEFAULT_BALANCE < 2 ^ 63
  | Resolve _ m o => supply d + payout_per_share * winning d m o < 2 ^ 63
  | Buy _ _ _ _ shares => shares * PRICE_PER_SHARE < 2 ^ 63
  | Simulate _ _ _ _ amount _ => 0 < amount
  | Record_ _ dep => 0 < MarketDeposit.amount dep
  | Process _ => supply d + waiting d < 2 ^ 63
  | _ => True
  end.

Inductive reached : Z -> Db.t -> Prop :=
| reached_schema : reached 0 (Db.initialize_schema Db.empty)
| reached_step n d o : reached n d -> in_range o d -> reached (n + opens o d) (perform o d).

Lemma reached_books n d : reached n d -> books n d.
Proof.
  induction 1 as [|n d o _ IH Hr]; [exact books_empty|].
  destruct o; cbn [opens perform in_range] in *; rewrite ?Z.add_0_r.
  - by apply open_account_books.
  - by apply create_market_books.
  - by apply resolve_books.
  - by apply buy_books.
  - by apply sell_books.
  - by apply withdraw_books.
  - by apply simulate_books.
  - by apply insert_deposit_books.
  - by apply process_books.
  - by apply confirm_books.
Qed.

(** A deposit into a fresh database is credited as it is, whatever its sign. *)
Lemma simulated_deposit_credited now tx from to amount block :
  Table.rows (Db.accounts (perform (Process now) (perform (Simulate now tx from to amount block)
                             (Db.initialize_schema Db.empty))))
  = [AccountRow.mk 1 to (inl amount) now].
Proof. reflexivity. Qed.

(** C34. Money and shares are conserved: after any operations of the market on a fresh
    database, run one after the other, in which every simulated or recorded deposit is
    positive and all the money there is fits [i64] ([in_range]), the balances, what was
    withdrawn and the shares at their price are together exactly the opening balances,
    the deposits processed and the payouts of resolved markets; every position is what
    its trades add up to; and no balance and no position is negative.  Positive deposits
    are a condition, not something the code checks: the deposit simulation takes any
    [i64], and processing a negative one opens an account with a negative balance. *)
Theorem market_conserves_money :
  (forall n d, reached n d ->
     cash d + withdrawn d + PRICE_PER_SHARE * held d
       = DEFAULT_BALANCE * n + deposited d + payout_per_share * paid d /\
     (forall k, holding d k = traded d k) /\
     (forall a, a ∈ Table.rows (Db.accounts d) -> exists b, AccountRow.balance a = inl b /\ 0 <= b) /\
     (forall p, p ∈ Table.rows (Db.positions d) -> exists s, PositionRow.shares p = inl s /\ 0 <= s)) /\
  (forall now tx from to amount block, amount < 0 ->
     exists a b, a ∈ Table.rows (Db.accounts (perform (Process now) (perform (Simulate now tx from to amount block)
                                                         (Db.initialize_schema Db.empty)))) /\
       AccountRow.balance a = inl b /\ b < 0).
Proof.
  split.
  - intros n d [Hs Ht Hm _]%reached_books. split_and!; [exact Hm|exact Ht| |].
    + pose proof (accounts_balances _ (b_accounts _ Hs)) as H. rewrite Forall_forall in H. exact H.
    + pose proof (positions_shares _ _ (b_positions _ Hs)) as H. rewrite Forall_forall in H. exact H.
  - intros now tx from to amount block Hneg. rewrite simulated_deposit_credited.
    eexists _, amount. split; [apply list_elem_of_here|]. done.
Qed.

(** ** Checks outside the transaction *)
Lemma balance_debit d acct x b :
  accounts_ok (Db.accounts d) -> Db.balance_of acct d = Ok b -> is_i64 (b - x) ->
  Db.balance_of acct (Db.debit x acct d) = Ok (b - x).
Proof.
  intros Ha Hb Hx. destruct (balance_of_ok _ _ _ Ha Hb) as (a & Hf & Ea & _).
  unfold Db.balance_of, Table.query_row, Db.debit, Db.set_accounts, Table.update. cbn [Db.accounts Table.rows].
  assert (Hm : List.filter (fun a => AccountRow.id a =? acct)
      (map (fun r => if AccountRow.id r =? acct then AccountRow.sub x r else r) (Table.rows (Db.accounts d)))
    = map (AccountRow.sub x) (List.filter (fun a => AccountRow.id a =? acct) (Table.rows (Db.accounts d)))).
  { clear. induction (Table.rows (Db.accounts d)) as [|r l IH]; [done|]. cbn [map List.filter].
    destruct (AccountRow.id r =? acct) eqn:E; cbn [AccountRow.sub AccountRow.id]; rewrite E; cbn [map]; by rewrite IH. }
  rewrite Hm, Hf. cbn. rewrite Ea, sql_sub_small by done. done.
Qed.

(** The second check passes on the database the first left unchanged. *)
Lemma withdrawal_commit_ok d now acct x dest :
  Table.last_id (Db.outbound_withdrawals d) < i64_max ->
  exists t id, withdrawal_commit d now acct x dest = (Db.set_withdrawals t (Db.debit x acct d), Ok id) /\
    Table.last_id t = Table.last_id (Db.outbound_withdrawals d) + 1 /\
    withdrawn_in t = withdrawn d + x.
Proof.
  intros Hid. unfold withdrawal_commit, Table.insert, Table.next_id.
  change (Db.outbound_withdrawals (Db.debit x acct d)) with (Db.outbound_withdrawals d).
  apply Z.ltb_lt in Hid. rewrite Hid. cbn [result_bind Db.transaction]. do 2 eexists. split_and!; [done|done|].
  unfold withdrawn, withdrawn_in. cbn [Table.rows]. rewrite zsum_app. cbn. lia.
Qed.

(** Two withdrawal requests that are checked before either commits both succeed: the
    balance is debited twice and what leaves for the bridge can exceed it, leaving the
    balance negative, whereas the same two requests one after the other are refused
    exactly when the balance does not cover both. *)
Theorem concurrent_withdrawals_overdraw n d now acct b x1 x2 dest1 dest2 :
  reached n d -> Db.balance_of acct d = Ok b ->
  withdrawal_check d acct x1 = Ok tt -> withdrawal_check d acct x2 = Ok tt ->
  Table.last_id (Db.outbound_withdrawals d) + 1 < i64_max ->
  let d1 := fst (withdrawal_commit d now acct x1 dest1) in
  let '(d2, r2) := withdrawal_commit d1 now acct x2 dest2 in
  (exists id, r2 = Ok id) /\ withdrawn d2 = withdrawn d + x1 + x2 /\ Db.balance_of acct d2 = Ok (b - x1 - x2) /\
  request_withdrawal d1 now acct x2 dest2
    = if b <? x1 + x2 then (d1, Err (insufficient_balance x2 (b - x1))) else withdrawal_commit d1 now acct x2 dest2.
Proof.
  intros Hb%reached_books Hbal H1 H2 Hid d1. pose proof (b_shape _ _ Hb) as Hs.
  pose proof (books_bounds _ _ Hb) as (Hc & Hh & Hwd & Hcap).
  assert (Hcheck : forall x, withdrawal_check d acct x = Ok tt -> 0 < x <= b).
  { intros x. unfold withdrawal_check. destruct (Z.leb_spec x 0); [done|]. rewrite Hbal. cbn [result_bind].
    destruct (Z.ltb_spec b x); [done|]. lia. }
  apply Hcheck in H1. apply Hcheck in H2.
  destruct (balance_of_ok _ _ _ (b_accounts _ Hs) Hbal) as (a & Hf & Ea & _).
  pose proof (balance_of_bounds _ _ _ (b_accounts _ Hs) Hbal) as Hbc.
  unfold PRICE_PER_SHARE in Hcap.
  destruct (withdrawal_commit_ok d now acct x1 dest1) as (t1 & id1 & E1 & Hl1 & Hw1); [lia|].
  assert (Ed1 : d1 = Db.set_withdrawals t1 (Db.debit x1 acct d)) by (unfold d1; by rewrite E1).
  destruct (accounts_debit _ acct x1 a b (b_accounts _ Hs) Hf Ea) as (Ha1 & _); [lia|unfold cash in *; lia|].
  assert (Hb1 : Db.balance_of acct d1 = Ok (b - x1)).
  { rewrite Ed1. change (Db.balance_of acct (Db.set_withdrawals t1 (Db.debit x1 acct d)))
      with (Db.balance_of acct (Db.debit x1 acct d)).
    apply balance_debit; [apply (b_accounts _ Hs)|done|unfold is_i64; lia]. }
  destruct (withdrawal_commit_ok d1 now acct x2 dest2) as (t2 & id2 & E2 & _ & Hw2).
  { rewrite Ed1. cbn. lia. }
  rewrite E2. split_and!; [by eexists| | |].
  - counts. rewrite Hw2, Ed1. exact (f_equal (fun z => z + x2) Hw1).
  - change (Db.balance_of acct (Db.set_withdrawals t2 (Db.debit x2 acct d1))) with (Db.balance_of acct (Db.debit x2 acct d1)).
    apply balance_debit; [rewrite Ed1; exact Ha1|done|unfold is_i64; lia].
  - unfold request_withdrawal, withdrawal_check. destruct (Z.leb_spec x2 0); [lia|]. rewrite Hb1. cbn [result_bind].
    rewrite E2. destruct (Z.ltb_spec (b - x1) x2), (Z.ltb_spec b (x1 + x2)); try lia; done.
Qed.
(** ** Deposits *)

(** The balance under a name; names are unique. *)
Definition name_balance_in (t : Table.t AccountRow.t) (name : string) : Z :=
  zsum (fun a => if bool_decide (AccountRow.name a = name) then int_of (AccountRow.balance a) else 0) (Table.rows t).
Definition name_balance d := name_balance_in (Db.accounts d).
(** What rows of deposits bring to a name. *)
Definition brought (deps : list InboundDeposit.t) (name : string) : Z :=
  zsum (fun r => if bool_decide (InboundDeposit.to_address r = name) then InboundDeposit.amount r else 0) deps.

Lemma credit_address_spec now to amount d :
  accounts_ok (Db.accounts d) -> 0 < amount -> cash d + amount < 2 ^ 63 -> Table.last_id (Db.accounts d) < i64_max ->
  exists t, credit_address now to amount d = Ok (Db.set_accounts t d) /\ accounts_ok t /\ cash_in t = cash d + amount /\
    Table.last_id t <= Table.last_id (Db.accounts d) + 1 /\
    forall name, name_balance_in t name = name_balance d name + (if bool_decide (to = name) then amount else 0).
Proof.
  intros Ha Hpos Hfit Hid.
  assert (Ei : Table.next_id (Db.accounts d) = Ok (Table.last_id (Db.accounts d) + 1)).
  { unfold Table.next_id. by rewrite (proj2 (Z.ltb_lt _ _) Hid). }
  destruct (credit_address now to amount d) as [d'| |] eqn:E;
    [|unfold credit_address in E; by rewrite Ei in E..].
  destruct (credit_address_ok _ _ _ _ _ Ha Hpos Hfit E) as (t & -> & Ht & Hc & _). exists t. split_and!; [done..| |].
  all: unfold credit_address in E; rewrite Ei in E; cbn [result_bind] in E;
    apply Ok_inj, (f_equal Db.accounts) in E; cbn [Db.set_accounts Db.accounts] in E; rewrite <- E.
  - destruct (existsb _ _); [|cbn; lia]. unfold Table.after_conflict. destruct conflict_uses_id; cbn; lia.
  - intros name. destruct (existsb _ _) eqn:Eex.
    + set (named := fun a => bool_decide (AccountRow.name a = to)) in *.
      destruct (filter_key AccountRow.name named (Table.rows (Db.accounts d)) to) as [Hn|(a & Hf & Hin & Hna)];
        [apply Ha | by intros x Hx%bool_decide_eq_true | |].
      { apply existsb_elem in Eex as (x & Hx & Hx'). pose proof (filter_none _ _ Hn x Hx). congruence. }
      apply bool_decide_eq_true in Hna. destruct (balance_bounds _ a Ha Hin) as (b & Eb & Hb).
      unfold name_balance_in, Table.update. cbn [Table.rows].
      assert (Hr : Table.rows (Table.after_conflict (Table.last_id (Db.accounts d) + 1) (Db.accounts d)) = Table.rows (Db.accounts d))
        by (unfold Table.after_conflict; by destruct conflict_uses_id).
      rewrite Hr, (zsum_update _ _ _ _ _ Hf). cbn [AccountRow.add AccountRow.name AccountRow.balance].
      rewrite Eb, sql_add_small by (unfold is_i64, cash in *; lia). rewrite Hna. unfold name_balance, name_balance_in.
      case_bool_decide; cbn; lia.
    + unfold name_balance, name_balance_in. cbn [Table.rows]. rewrite zsum_app. cbn [zsum AccountRow.name AccountRow.balance].
      case_bool_decide; cbn; lia.
Qed.

Lemma brought_cons r deps name :
  brought (r :: deps) name = (if bool_decide (InboundDeposit.to_address r = name) then InboundDeposit.amount r else 0) + brought deps name.
Proof. done. Qed.

Lemma credit_all_spec now deps : forall d,
  accounts_ok (Db.accounts d) -> Forall (fun r => 0 < InboundDeposit.amount r) deps ->
  cash d + zsum InboundDeposit.amount deps < 2 ^ 63 -> Table.last_id (Db.accounts d) + Z.of_nat (length deps) <= i64_max ->
  exists t, process_all now deps d = Ok (Db.set_deposits
      (fold_left (fun tb r => Table.update (fun x => InboundDeposit.id x =? InboundDeposit.id r) InboundDeposit.set_processed tb)
         deps (Db.inbound_deposits d)) (Db.set_accounts t d)) /\
    forall name, name_balance_in t name = name_balance d name + brought deps name.
Proof.
  induction deps as [|r deps IH]; intros d Ha Hpos Hfit Hid.
  - exists (Db.accounts d). split; [by destruct d|]. intros name. unfold name_balance, brought. cbn. lia.
  - apply Forall_cons in Hpos as [Hr Hpos]. cbn [zsum length] in *.
    assert (0 <= zsum InboundDeposit.amount deps)
      by (apply zsum_nonneg; eapply Forall_impl; [exact Hpos|]; cbn; lia).
    assert (0 <= cash d) by (apply zsum_nonneg, (Forall_int_nonneg AccountRow.balance), Ha).
    destruct (credit_address_spec now (InboundDeposit.to_address r) (InboundDeposit.amount r) d)
      as (t & E & Ht & Hc & Hl & Hn); [done|done|lia|lia|].
    cbn [process_all]. unfold process_deposit. rewrite E. cbn [result_bind].
    set (d1 := Db.set_deposits _ _).
    destruct (IH d1) as (t' & Hp & Hb'); [done|done|unfold cash; cbn; lia|cbn; lia|].
    rewrite Hp. exists t'. split; [done|]. intros name. rewrite Hb', brought_cons. unfold name_balance.
    change (Db.accounts d1) with t. rewrite Hn. unfold name_balance. lia.
Qed.

(** All rows that were waiting are marked. *)
Lemma mark_all_none deps : forall tb,
  (forall x, x ∈ Table.rows tb -> (InboundDeposit.processed x =? 0) = true -> InboundDeposit.id x ∈ map InboundDeposit.id deps) ->
  List.filter (fun r => InboundDeposit.processed r =? 0)
    (Table.rows (fold_left (fun tb r => Table.update (fun x => InboundDeposit.id x =? InboundDeposit.id r)
                                          InboundDeposit.set_processed tb) deps tb)) = [].
Proof.
  induction deps as [|r deps IH]; intros tb H; cbn [fold_left].
  - destruct (List.filter _ _) as [|x l] eqn:E; [done|]. exfalso.
    assert (Hx : x ∈ List.filter (fun r => InboundDeposit.processed r =? 0) (Table.rows tb)) by (rewrite E; by left).
    apply filter_In_elem in Hx as [Hx Hp]. apply (H x Hx) in Hp. by apply not_elem_of_nil in Hp.
  - apply IH. intros x Hx Hp. cbn [Table.update Table.rows] in Hx. apply list_elem_of_fmap in Hx as (y & -> & Hy).
    destruct (Z.eqb_spec (InboundDeposit.id y) (InboundDeposit.id r)) as [He|Hne]; [done|].
    specialize (H y Hy Hp). cbn [map] in H. by apply elem_of_cons in H as [?|?].
Qed.

(** Processing the deposits that wait credits each address with their sum, and doing it
    again credits nothing. *)
Lemma process_deposits_spec n d now :
  books n d -> supply d + waiting d < 2 ^ 63 ->
  Table.last_id (Db.accounts d) + Z.of_nat (length (unprocessed d)) <= i64_max ->
  exists d', process_deposits d now = (d', Ok (length (unprocessed d))) /\ unprocessed d' = [] /\
    forall name, name_balance d' name = name_balance d name + brought (unprocessed d) name.
Proof.
  intros Hb Hfit Hid. pose proof (b_shape _ _ Hb) as Hs. pose proof (books_bounds _ _ Hb) as (Hc & Hh & Hwd & _).
  destruct (credit_all_spec now (unprocessed d) d) as (t & E & Hn).
  - apply (b_accounts _ Hs).
  - pose proof (b_deposits _ Hs) as Hpos. rewrite Forall_forall in Hpos. apply Forall_forall.
    intros x [Hx _]%filter_In_elem. by apply Hpos.
  - unfold supply, waiting, PRICE_PER_SHARE in *. lia.
  - done.
  - unfold process_deposits. rewrite E. cbn [result_bind Db.transaction]. eexists. split_and!; [done| |exact Hn].
    unfold unprocessed at 1. apply mark_all_none. intros x Hx Hp. apply list_elem_of_fmap. exists x. split; [done|].
    by apply filter_In_elem.
Qed.

(** Recording: of the deposits of a transaction the first is kept. *)
Fixpoint fresh (known : list string) (ds : list MarketDeposit.t) : list MarketDeposit.t :=
  match ds with
  | [] => []
  | x :: ds => if bool_decide (MarketDeposit.tx_hash x ∈ known) then fresh known ds
               else x :: fresh (known ++ [MarketDeposit.tx_hash x]) ds
  end.
Definition known d : list string := map InboundDeposit.tx_hash (Table.rows (Db.inbound_deposits d)).
Definition record_all (now : Z) (ds : list MarketDeposit.t) d : Db.t :=
  fold_left (fun d x => fst (insert_deposit d now x)) ds d.
Definition sent_to (ds : list MarketDeposit.t) (name : string) : Z :=
  zsum (fun x => if bool_decide (MarketDeposit.to_address x = name) then MarketDeposit.amount x else 0) ds.

Lemma deposit_known_spec tx d : deposit_known tx d = bool_decide (tx ∈ known d).
Proof.
  apply eq_true_iff_eq. unfold deposit_known. rewrite existsb_elem, bool_decide_eq_true. unfold known. split.
  - intros (x & Hx & <-%bool_decide_eq_true). apply list_elem_of_fmap. by exists x.
  - intros (x & -> & Hx)%list_elem_of_fmap. exists x. by rewrite bool_decide_true.
Qed.

Lemma record_all_spec n now ds : forall d,
  books n d -> Forall (fun x => 0 < MarketDeposit.amount x) ds ->
  Table.last_id (Db.inbound_deposits d) + Z.of_nat (length ds) <= i64_max ->
  books n (record_all now ds d) /\ Db.accounts (record_all now ds d) = Db.accounts d /\
  supply (record_all now ds d) = supply d /\
  waiting (record_all now ds d) = waiting d + zsum MarketDeposit.amount (fresh (known d) ds) /\
  length (unprocessed (record_all now ds d)) = (length (unprocessed d) + length (fresh (known d) ds))%nat /\
  forall name, brought (unprocessed (record_all now ds d)) name = brought (unprocessed d) name + sent_to (fresh (known d) ds) name.
Proof.
  induction ds as [|x ds IH]; intros d Hb Hpos Hid.
  - unfold record_all, sent_to. cbn. split_and!; [done|done|done|lia|lia|intros; lia].
  - apply Forall_cons in Hpos as [Hx Hpos]. cbn [length] in Hid. pose proof (insert_deposit_books n d now x Hb Hx) as Hb1.
    change (record_all now (x :: ds) d) with (record_all now ds (fst (insert_deposit d now x))).
    assert (Ei : Table.next_id (Db.inbound_deposits d) = Ok (Table.last_id (Db.inbound_deposits d) + 1)).
    { unfold Table.next_id. by rewrite (proj2 (Z.ltb_lt _ _)) by lia. }
    unfold insert_deposit in *. rewrite Ei in *. cbn [result_bind] in *. rewrite (deposit_known_spec _ d) in *.
    cbn [fresh]. case_bool_decide as Hk; cbn [Db.transaction fst] in *.
    + set (d1 := Db.set_deposits _ d) in *.
      assert (Hr : Table.rows (Db.inbound_deposits d1) = Table.rows (Db.inbound_deposits d) /\
                   Table.last_id (Db.inbound_deposits d1) <= Table.last_id (Db.inbound_deposits d) + 1).
      { unfold d1, Table.after_conflict. cbn. destruct conflict_uses_id; cbn; [done|split; [done|lia]]. }
      destruct Hr as [Hr Hl]. destruct (IH d1 Hb1 Hpos) as (H1 & H2 & H3 & H4 & H5 & H6); [lia|].
      assert (Hu : unprocessed d1 = unprocessed d) by (unfold unprocessed; by rewrite Hr).
      assert (Hkn : known d1 = known d) by (unfold known; by rewrite Hr).
      rewrite Hu, Hkn in *. unfold waiting in *. rewrite Hu in H4. by split_and!.
    + set (r := InboundDeposit.mk _ _ _ _ _ _ _ _ _) in *. set (d1 := Db.set_deposits _ d) in *.
      destruct (IH d1 Hb1 Hpos) as (H1 & H2 & H3 & H4 & H5 & H6); [cbn; lia|].
      assert (Hu : unprocessed d1 = unprocessed d ++ [r]).
      { unfold unprocessed, d1. cbn [Db.set_deposits Db.inbound_deposits Table.rows]. by rewrite List.filter_app. }
      assert (Hkn : known d1 = known d ++ [MarketDeposit.tx_hash x]).
      { unfold known, d1. cbn [Db.set_deposits Db.inbound_deposits Table.rows]. by rewrite map_app. }
      unfold waiting, brought in *. rewrite Hu, Hkn in *. split_and!; [done..| | |].
      * rewrite H4, zsum_app. cbn [zsum InboundDeposit.amount r]. lia.
      * rewrite H5, length_app. cbn. lia.
      * intros name. rewrite H6, zsum_app. unfold sent_to. cbn [zsum InboundDeposit.amount InboundDeposit.to_address r]. lia.
Qed.
End conservation.

Section chain.
Context `{SL : Sqlite} `{HX : Hex} `{DA : DepositAbi} `{WA : WithdrawalAbi}.

(** The deposits among logs that the handler can use. *)
Definition deposit_in (log : Log.t) : list MarketDeposit.t :=
  match decode_log log with
  | Ok dep =>
      if (Deposit.amount dep <=? i64_max) && negb (Deposit.amount dep =? 0) then
        [MarketDeposit.mk (tx_hash_text log) (default 0 (Log.block_number log)) (Log.log_index log)
           (hex0x (Deposit.from dep)) (hex0x (Deposit.to dep)) (Deposit.amount dep)]
      else []
  | _ => []
  end.
Definition deposits_in (logs : list Log.t) : list MarketDeposit.t := concat (map deposit_in logs).
Definition observe (h : BridgeEventHandler) (logs : list Log.t) : BridgeEventHandler :=
  fold_left (fun h log => fst (handle_event h log)) logs h.

Lemma observe_spec logs : forall h, Sender.connected (fst h) = true ->
  Sender.queue (fst (observe h logs)) = Sender.queue (fst h) ++ deposits_in logs /\
  Sender.connected (fst (observe h logs)) = true.
Proof.
  induction logs as [|log logs IH]; intros h Hc; [by rewrite app_nil_r|].
  change (observe h (log :: logs)) with (observe (fst (bridge_handle_event h log)) logs).
  assert (Hstep : Sender.queue (fst (fst (bridge_handle_event h log))) = Sender.queue (fst h) ++ deposit_in log /\
                  Sender.connected (fst (fst (bridge_handle_event h log))) = true).
  { unfold bridge_handle_event, deposit_in. destruct (decode_log log) as [dep|e|w]; [|destruct (decode_withdrawal log) as [wd| |];
      [destruct (send_withdrawal _ _ _)|..]; by rewrite app_nil_r|by rewrite app_nil_r].
    unfold send_deposit, amount_i64. destruct (Deposit.amount dep <=? i64_max); [|by rewrite app_nil_r]. cbn [andb].
    destruct (Deposit.amount dep =? 0); [by rewrite app_nil_r|]. unfold Sender.send. by rewrite Hc. }
  destruct Hstep as [Hq Hc']. destruct (IH _ Hc') as [-> Hc'']. split; [|done].
  unfold deposits_in. cbn [map concat]. by rewrite Hq, <- app_assoc.
Qed.

(** Deposits on chain reach the accounts they name: the logs the chain monitor hands to
    the bridge's handler, recorded by the database thread and processed, raise every
    account's balance by exactly the sum of the deposits to it whose amount is not zero and
    fits [i64], one per transaction hash and none recorded before; and processing again
    credits nothing. *)
Theorem deposits_reach_accounts n d logs now later :
  reached n d -> unprocessed d = [] -> (forall log dep, log ∈ logs -> decode_log log = Ok dep -> 0 <= Deposit.amount dep) ->
  let ds := fresh (known d) (deposits_in logs) in
  supply d + zsum MarketDeposit.amount ds < 2 ^ 63 ->
  Table.last_id (Db.inbound_deposits d) + Z.of_nat (length (deposits_in logs)) <= i64_max ->
  Table.last_id (Db.accounts d) + Z.of_nat (length ds) <= i64_max ->
  let h := observe (Sender.new, Sender.new) logs in
  exists d', process_deposits (record_all now (Sender.queue (fst h)) d) now = (d', Ok (length ds)) /\
    (forall name, name_balance d' name = name_balance d name + sent_to ds name) /\
    snd (process_deposits d' later) = Ok 0%nat /\
    forall name, name_balance (fst (process_deposits d' later)) name = name_balance d' name.
Proof.
  intros Hb%reached_books Hun Hnn ds Hfit Hid1 Hid2 h.
  destruct (observe_spec logs (Sender.new, Sender.new) eq_refl) as [Hq _]. fold h in Hq. cbn [Sender.new Sender.queue fst app] in Hq.
  rewrite Hq.
  assert (Hpos : Forall (fun x => 0 < MarketDeposit.amount x) (deposits_in logs)).
  { apply Forall_forall. intros x Hx. unfold deposits_in in Hx. apply list_elem_of_In, in_concat in Hx as (l & Hl & Hx).
    apply in_map_iff in Hl as (log & <- & Hlog). apply list_elem_of_In in Hlog. unfold deposit_in in Hx.
    destruct (decode_log log) as [dep| |] eqn:E; [|done..].
    destruct (Z.leb_spec (Deposit.amount dep) i64_max), (Z.eqb_spec (Deposit.amount dep) 0); cbn [andb negb] in Hx; try done.
    destruct Hx as [<-|[]]. cbn. specialize (Hnn log dep Hlog E). lia. }
  destruct (record_all_spec n now (deposits_in logs) d Hb Hpos Hid1) as (Hb1 & Hacc & Hsup & Hwait & Hlen & Hbr). fold ds in Hwait, Hlen, Hbr.
  set (d1 := record_all now (deposits_in logs) d) in *. unfold waiting in Hwait at 2. rewrite Hun in Hwait, Hlen, Hbr. cbn in Hwait, Hlen.
  destruct (process_deposits_spec n d1 now Hb1) as (d' & E & Hnone & Hbal); [lia|rewrite Hlen, Hacc; done|].
  rewrite Hlen in E. exists d'. split_and!; [exact E| | |].
  - intros name. rewrite Hbal, Hbr. unfold name_balance. rewrite Hacc. unfold brought. cbn. lia.
  - unfold process_deposits. by rewrite Hnone.
  - intros name. unfold process_deposits. by rewrite Hnone.
Qed.
End chain.

Section limits.
Context `{SL : Sqlite}.

(** The database thread ends as soon as one of its channels is empty: when the monitor has
    stopped, what the longer queue still holds is neither recorded nor confirmed. *)
Theorem db_thread_drops fuel now : forall d ds ws,
  (Nat.min (length ds) (length ws) < fuel)%nat ->
  exists d', DbThread.drain fuel now (DbThread.mk d ds ws)
    = (DbThread.mk d' (drop (S (length ws)) ds) (drop (length ds) ws), false).
Proof.
  induction fuel as [|fuel IH]; intros d ds ws Hf; [lia|]. cbn [DbThread.drain]. unfold DbThread.turn.
  cbn [DbThread.deposits DbThread.withdrawals DbThread.db].
  destruct ds as [|x ds]; [exists d; by rewrite drop_nil|]. cbn [DbThread.withdrawals].
  destruct ws as [|w ws]; [eexists; cbn [length]; by rewrite drop_nil|].
  cbn [DbThread.deposits DbThread.db length Nat.min] in *. destruct (IH (fst (confirm_withdrawal (fst (insert_deposit d now x)) now w)) ds ws)
    as [d' Hd]; [lia|]. exists d'. exact Hd.
Qed.

(** The price of a purchase wraps at 64 bits: whoever has 34 cents and an open market can
    buy 368934881474191033 shares for them, and sell a million of those for 500000 dollars. *)
Theorem purchase_overflows n d now acct m o b :
  reached n d -> Db.balance_of acct d = Ok b -> 34 <= b -> Db.outcome_of m d = Ok "unresolved"%string ->
  is_outcome o = true -> existsb (PositionRow.key acct m o) (Table.rows (Db.positions d)) = false ->
  Table.last_id (Db.positions d) < i64_max -> Table.last_id (Db.trades d) < i64_max ->
  let '(d1, r) := buy_shares d now acct m o 368934881474191033 in
  (exists t, r = Ok t /\ Trade.total t = 34 /\ Trade.shares t = 368934881474191033) /\
  Db.balance_of acct d1 = Ok (b - 34) /\ sell_check d1 acct m o 1000000 = Ok 50000000.
Proof.
  intros Hb%reached_books Hbal Hle Hopen Ho Hno Hp Ht. pose proof (b_shape _ _ Hb) as Hs.
  pose proof (books_bounds _ _ Hb) as (Hc & Hh & Hwd & Hcap). unfold PRICE_PER_SHARE in Hcap.
  destruct (balance_of_ok _ _ _ (b_accounts _ Hs) Hbal) as (a & Hf & Ea & _).
  pose proof (balance_of_bounds _ _ _ (b_accounts _ Hs) Hbal) as Hbc.
  assert (Hcheck : forall d', Db.markets d' = Db.markets d -> forall s, 0 < s -> check_trade d' m o s = Ok tt).
  { intros d' Hm s Hpos. unfold check_trade. rewrite Ho. cbn [negb]. destruct (Z.leb_spec s 0); [lia|].
    unfold Db.outcome_of. rewrite Hm. fold (Db.outcome_of m d). by rewrite Hopen. }
  unfold buy_shares, buy_check. rewrite (Hcheck d) by (done || lia). cbn [result_bind].
  change (i64_mul 368934881474191033 PRICE_PER_SHARE) with 34. rewrite Hbal. cbn [result_bind].
  destruct (Z.ltb_spec b 34); [lia|]. unfold buy_commit, upsert_position, record_trade, Table.insert, Table.next_id.
  change (Db.positions (Db.debit 34 acct d)) with (Db.positions d). rewrite (proj2 (Z.ltb_lt _ _) Hp), Hno. cbn [result_bind].
  cbn [Db.set_positions Db.trades]. change (Db.trades (Db.debit 34 acct d)) with (Db.trades d).
  rewrite (proj2 (Z.ltb_lt _ _) Ht). cbn [result_bind Db.transaction]. split_and!.
  - eexists. split_and!; reflexivity.
  - change (Db.balance_of acct (Db.debit 34 acct d) = Ok (b - 34)).
    apply balance_debit; [apply (b_accounts _ Hs)|done|unfold is_i64; lia].
  - unfold sell_check. rewrite Hcheck by (done || lia). cbn [result_bind]. unfold shares_of, Table.query_row.
    cbn [Db.set_trades Db.set_positions Db.positions Table.rows]. rewrite List.filter_app, (existsb_filter _ _ Hno). cbn [app List.filter].
    assert (PositionRow.key acct m o (PositionRow.mk (Table.last_id (Db.positions d) + 1) acct m o (inl 368934881474191033) (inl 34)) = true)
      as -> by (by apply key_true). reflexivity.
Qed.
End limits.
