(* ===== verification/MarketWitnesses.v ===== *)
(** * The examples: the prediction market on a small database, and the price oracle's
    rule on the reference database *)
From Stdlib Require Import Ascii Strings.String Strings.Byte.
From S2P Require Import Prelude RustStd BTree Batches SyncIndex Extern Net Reference Cose CborBatches.
From S2P Require Import SignedTypes Inbox Outbound StateStore Applier AuditTrail Validator ValidatorProps.
From S2P Require Import PriceRule RefStorage Witnesses ChainMonitor ChainWitnesses Market MarketApp.
From S2P Require Import MarketProps.

(** An engine whose sums never come back from the reals. *)
#[export] Instance toy_sqlite : Sqlite := {|
  Real := unit;
  real_add _ _ := inr tt;
  real_sub _ _ := inr tt;
  real_positive _ := true;
  conflict_uses_id := true;
  update_limit := true;
|}.
#[export] Instance toy_withdrawal_abi : WithdrawalAbi := {|
  decode_withdrawal _ := Err "not a withdrawal"%string;
  WITHDRAWAL_SIGNATURE_HASH := [];
|}.

(** Alice opens an account and buys; a deposit to a new address is processed; the market
    is resolved in her favour. *)
Definition market_ops : list op :=
  [OpenAccount 1 "alice"; OpenMarket 2 "rain?" None 100; Buy 3 1 1 "yes" 100; Sell 4 1 1 "yes" 40;
   Simulate 5 "0xab" "0x01" "0xbob" 50000 7; Process 6; Resolve 8 1 "yes"; Withdraw 9 1 600000 "0xdest"].
Fixpoint perform_all (os : list op) (n : Z) (d : Db.t) : Z * Db.t :=
  match os with [] => (n, d) | o :: os => perform_all os (n + opens o d) (perform o d) end.

Fixpoint all_in_range (os : list op) (d : Db.t) : Prop :=
  match os with [] => True | o :: os => in_range o d /\ all_in_range os (perform o d) end.
Lemma reached_all os : forall n d, reached n d -> all_in_range os d ->
  reached (fst (perform_all os n d)) (snd (perform_all os n d)).
Proof. induction os as [|o os IH]; intros n d Hr Ha; [done|]. destruct Ha. cbn. apply IH; [by apply reached_step|done]. Qed.

Definition demo_market : Db.t := Eval vm_compute in snd (perform_all market_ops 0 (Db.initialize_schema Db.empty)).
Lemma demo_market_reached : reached 1 demo_market.
Proof.
  assert (H : reached (fst (perform_all market_ops 0 (Db.initialize_schema Db.empty)))
                (snd (perform_all market_ops 0 (Db.initialize_schema Db.empty)))).
  { apply reached_all; [constructor|]. vm_compute. repeat split; reflexivity. }
  vm_compute in H. exact H.
Qed.

Lemma market_conserves_money_witness :
  reached 1 demo_market /\ cash demo_market = 453000 /\ withdrawn demo_market = 600000 /\ held demo_market = 60 /\
  cash demo_market + withdrawn demo_market + PRICE_PER_SHARE * held demo_market
    = DEFAULT_BALANCE * 1 + deposited demo_market + payout_per_share * paid demo_market.
Proof.
  split; [exact demo_market_reached|]. do 3 (split; [vm_compute; reflexivity|]).
  exact (proj1 (proj1 market_conserves_money 1 demo_market demo_market_reached)).
Defined.

Lemma concurrent_withdrawals_overdraw_witness :
  Db.balance_of 1 demo_market = Ok 403000 /\
  Db.balance_of 1 (fst (withdrawal_commit (fst (withdrawal_commit demo_market 10 1 300000 "0xd1")) 10 1 300000 "0xd2"))
    = Ok (-197000).
Proof.
  split; [vm_compute; reflexivity|].
  pose proof (concurrent_withdrawals_overdraw 1 demo_market 10 1 403000 300000 300000 "0xd1" "0xd2" demo_market_reached) as H.
  cbn zeta in H. destruct (withdrawal_commit (fst (withdrawal_commit demo_market 10 1 300000 "0xd1")) 10 1 300000 "0xd2") as [d2 r2].
  destruct H as (_ & _ & H & _); [vm_compute; reflexivity..|]. exact H.
Defined.

(** Three deposit logs in two transactions. *)
Lemma deposits_reach_accounts_witness :
  exists d', process_deposits (record_all 20 (Sender.queue (fst (observe (Sender.new, Sender.new) [log_a; log_b1; log_b2]))) demo_market) 20
    = (d', Ok 2%nat) /\ name_balance d' "0x" = 3.
Proof.
  destruct (deposits_reach_accounts 1 demo_market [log_a; log_b1; log_b2] 20 30 demo_market_reached) as (d' & H1 & H2 & _).
  - vm_compute. reflexivity.
  - intros log dep _ H. injection H as <-. cbn. lia.
  - vm_compute. reflexivity.
  - vm_compute. discriminate.
  - vm_compute. discriminate.
  - exists d'. split; [exact H1|]. rewrite (H2 "0x"%string). vm_compute. reflexivity.
Defined.

(** ** The price oracle *)

(** Every state of the database holds two quotes that differ. *)
#[local] Instance toy_prices : PriceDb := {|
  prices _ := Some [PriceRow.mk "price column" "coingecko" (f64_of_Z 100) 1;
                    PriceRow.mk "price column" "coinmarketcap" (f64_of_Z 110) 2];
  fmt_4 _ := "?"%string;
|}.
Definition oracle_validator : Validator.t :=
  Validator.set_rules demo_validator (PriceConsistencyRule.oracle_rules 100 false).
Definition disagreement : string :=
  PriceConsistencyRule.fail_reason (PriceConsistencyRule.new 100) "price column" (f64_of_Z 100) (f64_of_Z 110) 952.

Lemma oracle_rejects_disagreement_witness :
  exists v', Validator.apply_and_record oracle_validator 1900 (change_signed 0) = (v', Ok tt) /\
    Validator.applier v' = Validator.applier oracle_validator.
Proof.
  pose proof (oracle_rejects_disagreement oracle_validator 1900 (change_signed 0) demo_changes [[x61; x62]] 100 disagreement) as H.
  cbn zeta in H. destruct (Validator.apply_and_record oracle_validator 1900 (change_signed 0)) as [v' r].
  destruct H as (H1 & _ & H2);
    [exact change_type | rewrite change_0; unfold i64_max; lia | exact demo_parse | reflexivity
     | reflexivity | reflexivity | vm_compute; reflexivity |].
  destruct (H2 _ _ _ _ eq_refl) as (H3 & _); [reflexivity|]. exists v'. rewrite H3. split; [reflexivity | exact H1].
Defined.
