(* ===== verification/SeqApi.v ===== *)
(** * The sequencer's HTTP API
    (crates/synddb-sequencer/src: attestation.rs, cbor_extractor.rs, http_errors.rs,
    http_api.rs, messages/api.rs, and the batcher's handle in batcher.rs)

    A handler takes the application state and returns it with the reply; a handler that
    fails has still changed whatever it changed before.  The three handlers that number a
    message are in two parts, up to and after the point where they wait for the batcher
    ([begin_changesets] and the like, then [finish_sequence]); [receive_changesets] and
    the like run one part after the other.  [now] is the Unix time,
    [instant] the monotonic clock in milliseconds.  Logging, metrics, request ids and
    routing are not modelled. *)
From Stdlib Require Import Ascii Strings.Byte.
From S2P Require Import Prelude RustStd Batches Extern Net Cose CborBatches SignedTypes SyncIndex Inbox.
From S2P Require Import Transport Batcher MessageQueue Outbound StateStore Applier Jwt.

Definition CREATED : Z := 201.
Definition UNAUTHORIZED : Z := 401.
Definition UNSUPPORTED_MEDIA_TYPE : Z := 415.
Definition NOT_IMPLEMENTED : Z := 501.

(** ** attestation.rs *)
Module AttestationError.
Inductive t :=
| VerificationFailed (s : string)
| InvalidFormat (s : string)
| Expired
| NotYetValid
| InvalidIssuer (expected actual : string)
| InvalidAudience (expected actual : string)
| JwksFetchError (s : string)
| NoMatchingKey (kid : string)
| SignatureError (s : string)
| Config (s : string)
| SecureBootRequired
| DebugModeEnabled
| ImageDigestMismatch (expected actual : string).

Definition to_string (e : t) : string :=
  match e with
  | VerificationFailed s => "Token verification failed: " +:+ s
  | InvalidFormat s => "Invalid token format: " +:+ s
  | Expired => "Token expired"
  | NotYetValid => "Token not yet valid"
  | InvalidIssuer x a => "Invalid issuer: expected " +:+ x +:+ ", got " +:+ a
  | InvalidAudience x a => "Invalid audience: expected " +:+ x +:+ ", got " +:+ a
  | JwksFetchError s => "Failed to fetch JWKS: " +:+ s
  | NoMatchingKey kid => "No matching key found in JWKS for kid: " +:+ kid
  | SignatureError s => "Signature verification failed: " +:+ s
  | Config s => "Configuration error: " +:+ s
  | SecureBootRequired => "Secure boot not enabled"
  | DebugModeEnabled => "Debug mode is enabled (dbgstat != disabled)"
  | ImageDigestMismatch x a => "Image digest mismatch: expected " +:+ x +:+ ", got " +:+ a
  end.

Definition from (err : VerificationError) : t :=
  match err with
  | JwtParseError msg => InvalidFormat msg
  | UnsupportedAlgorithm alg => InvalidFormat ("Unsupported algorithm: " +:+ alg)
  | KeyNotFound kid => NoMatchingKey kid
  | InvalidKeyType kty => SignatureError ("Invalid key type: " +:+ kty)
  | KeyDecodeError msg => SignatureError ("Key decode error: " +:+ msg)
  | RsaKeyError msg => SignatureError ("RSA key error: " +:+ msg)
  | SignatureVerificationFailed msg => SignatureError msg
  | Jwt.InvalidIssuer iss => InvalidIssuer ISSUER iss
  | InvalidSwname swname => VerificationFailed ("Invalid software name: " +:+ swname)
  | Jwt.InvalidAudience expected actual => InvalidAudience expected actual
  | TokenExpired _ => Expired
  | TokenNotYetValid _ => NotYetValid
  end.
End AttestationError.

Module AttestationConfig.
Record t := mk {
  expected_audience : string;
  verify_tee_claims : bool;
  expected_image_digest : option string;
}.
End AttestationConfig.

Module AttestationClaims.
Record t := mk {
  iss : string;
  sub : string;
  aud : string;
  exp : Z;
  iat : Z;
  secboot : bool;
  dbgstat : option string;
  hwmodel : option string;
  image_digest : option string;
}.
Definition non_empty (s : string) : option string := if bool_decide (s = ""%string) then None else Some s.
Definition from (r : ValidationResult.t) : t :=
  mk ISSUER "" (ValidationResult.audience r) (ValidationResult.validity_window_end r)
     (ValidationResult.validity_window_start r) (ValidationResult.secboot r)
     (non_empty (ValidationResult.dbgstat r)) (non_empty (ValidationResult.hwmodel r))
     (non_empty (ValidationResult.image_digest r)).
End AttestationClaims.

Module Jwks.
Record t := mk { keys : list JwkKey.t }.
End Jwks.
Module OidcDiscovery.
Record t := mk { jwks_uri : string }.
End OidcDiscovery.

Definition GOOGLE_OIDC_DISCOVERY_URL : string :=
  "https://confidentialcomputing.googleapis.com/.well-known/openid-configuration".
Definition JWKS_CACHE_DURATION : Z := 3600.

Module AttestationVerifier.
Section ops.
Context `{HN : HttpNet} `{JK : FromJson Jwks.t} `{JD : FromJson OidcDiscovery.t}.
Context `{JH : FromJson JwtHeader.t} `{JC : FromJson GcpCsClaims.t} `{JM : FromJson MinimalHeader.t}.
Context `{RS : Rsa}.

(** The caches behind their locks; [fetched_at] in seconds of the monotonic clock. *)
Record t := mk {
  config : AttestationConfig.t;
  jwks_cache : option (Jwks.t * Z);
  jwks_uri_cache : option string;
}.
Definition new (config : AttestationConfig.t) : result AttestationError.t t :=
  let? _ := map_err (fun e => AttestationError.Config ("Failed to create HTTP client: " +:+ e)) client_build in
  Ok (mk config None None).

(** [n] numbers the requests to an endpoint. *)
Definition get_jwks_uri (v : t) (n : nat) : t * result AttestationError.t string :=
  match jwks_uri_cache v with
  | Some uri => (v, Ok uri)
  | None =>
      match http_get GOOGLE_OIDC_DISCOVERY_URL [] n with
      | SendError e => (v, Err (AttestationError.JwksFetchError ("Discovery request failed: " +:+ NetError.text e)))
      | Response status body =>
          if negb (is_success status)
          then (v, Err (AttestationError.JwksFetchError ("Discovery endpoint returned " +:+ status_display status)))
          else match response_json (A := OidcDiscovery.t) body with
               | Ok d => (mk (config v) (jwks_cache v) (Some (OidcDiscovery.jwks_uri d)), Ok (OidcDiscovery.jwks_uri d))
               | Err e => (v, Err (AttestationError.JwksFetchError ("Failed to parse discovery document: " +:+ e)))
               | Panic w => (v, Panic w)
               end
      end
  end.

Definition fetch_jwks (v : t) (n : nat) : t * result AttestationError.t Jwks.t :=
  let '(v, uri) := get_jwks_uri v n in
  (v,
   let? jwks_uri := uri in
   match http_get jwks_uri [] n with
   | SendError e => Err (AttestationError.JwksFetchError ("HTTP request failed: " +:+ NetError.text e))
   | Response status body =>
       if negb (is_success status)
       then Err (AttestationError.JwksFetchError ("JWKS endpoint returned " +:+ status_display status))
       else map_err (fun e => AttestationError.JwksFetchError ("Failed to parse JWKS: " +:+ e))
                    (response_json (A := Jwks.t) body)
   end).

Definition get_jwks (v : t) (now : Z) (n : nat) : t * result AttestationError.t Jwks.t :=
  let fetch :=
    match fetch_jwks v n with
    | (v, Ok jwks) => (mk (config v) (Some (jwks, now)) (jwks_uri_cache v), Ok jwks)
    | r => r
    end in
  match jwks_cache v with
  | Some (jwks, fetched_at) => if now - fetched_at <? JWKS_CACHE_DURATION then (v, Ok jwks) else fetch
  | None => fetch
  end.

(** The claims the configuration asks for. *)
Definition check_tee_claims (c : AttestationConfig.t) (r : ValidationResult.t) : result AttestationError.t unit :=
  if negb (AttestationConfig.verify_tee_claims c) then Ok tt else
  if negb (ValidationResult.secboot r) then Err AttestationError.SecureBootRequired else
  if negb (bool_decide (ValidationResult.dbgstat r = ""%string))
     && negb (bool_decide (ValidationResult.dbgstat r = "disabled"%string))
  then Err AttestationError.DebugModeEnabled else
  match AttestationConfig.expected_image_digest c with
  | Some expected =>
      if negb (bool_decide (ValidationResult.image_digest r = ""%string))
         && negb (bool_decide (ValidationResult.image_digest r = expected))
      then Err (AttestationError.ImageDigestMismatch expected (ValidationResult.image_digest r))
      else Ok tt
  | None => Ok tt
  end.

(** The token against a key set that was obtained. *)
Definition verify_with (c : AttestationConfig.t) (jwks : Jwks.t) (kid token : string) (now : Z)
    : result AttestationError.t AttestationClaims.t :=
  let? jwk := ok_or (AttestationError.NoMatchingKey kid) 
    (snd <$> list_find (fun k => JwkKey.kid k = kid) (Jwks.keys jwks)) in
  let? r := map_err AttestationError.from
    (verify_attestation (as_bytes token) jwk (Some (AttestationConfig.expected_audience c)) (Some now)) in
  let? _ := check_tee_claims c r in
  Ok (AttestationClaims.from r).

Definition verify (v : t) (token : string) (now instant : Z) (n : nat)
    : t * result AttestationError.t AttestationClaims.t :=
  match extract_kid_from_jwt (as_bytes token) with
  | Ok kid =>
      let '(v, jwks) := get_jwks v instant n in
      (v, let? jwks := jwks in verify_with (config v) jwks kid token now)
  | Err e => (v, Err (AttestationError.InvalidFormat e))
  | Panic w => (v, Panic w)
  end.
End ops.
End AttestationVerifier.

(** ** cbor_extractor.rs *)
Inductive CborRejection :=
| BytesRejection (e : string)
| InvalidContentType
| DeserializationError (e : string).

Definition rejection_response (r : CborRejection) : Z * string :=
  match r with
  | BytesRejection e => (BAD_REQUEST, e)
  | InvalidContentType => (UNSUPPORTED_MEDIA_TYPE, "Expected Content-Type: application/cbor"%string)
  | DeserializationError e => (BAD_REQUEST, "Invalid CBOR: " +:+ e)
  end.

(** A request: its content type, when it is readable text, and its body. *)
Definition from_request {A} `{Serde A} (content_type : option string) (body : result string bytes)
    : result CborRejection A :=
  match content_type with
  | Some ct =>
      if starts_with "application/cbor" ct then
        let? b := map_err BytesRejection body in
        map_err DeserializationError (de b)
      else Err InvalidContentType
  | None => Err InvalidContentType
  end.

(** ** http_errors.rs *)
Definition InboxError_to_string (e : InboxError) : string :=
  match e with
  | InboxSigning s => "Signing error: " +:+ s
  | InboxCbor e => "CBOR encoding error: " +:+ CborError_to_string e
  | InboxInvalidPublicKey s => "Invalid public key: " +:+ s
  end.

Inductive SequencerError :=
| SeqAttestation (e : AttestationError.t)
| SeqSigning (s : string)
| SeqInbox (e : InboxError)
| SeqSerialization (s : string)
| CborSerializationFailed (s : string)
| MissingAttestationToken
| InvalidRecipientAddress
| InvalidAmount
| EmptyRequestId
| SeqMessageNotFound (n : Z)
| NoPublisher
| MessageRetrievalFailed (s : string)
| NoBatcher
| BatchFlushFailed (s : string).

Definition SequencerError_to_string (e : SequencerError) : string :=
  match e with
  | SeqAttestation e => "Attestation verification failed: " +:+ AttestationError.to_string e
  | SeqSigning s => "Signing failed: " +:+ s
  | SeqInbox e => "Inbox error: " +:+ InboxError_to_string e
  | SeqSerialization s => "Serialization failed: " +:+ s
  | CborSerializationFailed s => "CBOR serialization failed: " +:+ s
  | MissingAttestationToken => "Attestation token required but not provided"
  | InvalidRecipientAddress => "Invalid recipient address format: must be 0x followed by 40 hex characters"
  | InvalidAmount => "Invalid amount format: must be a non-negative decimal number without leading zeros"
  | EmptyRequestId => "request_id cannot be empty"
  | SeqMessageNotFound n => "Message with sequence " +:+ int_to_string n +:+ " not found"
  | NoPublisher => "No publisher configured - message retrieval unavailable"
  | MessageRetrievalFailed s => "Failed to retrieve message: " +:+ s
  | NoBatcher => "No batcher configured - batching unavailable"
  | BatchFlushFailed s => "Failed to flush batch: " +:+ s
  end.

Definition HttpError_from (e : SequencerError) : Z * string :=
  (match e with
   | SeqAttestation _ | MissingAttestationToken => UNAUTHORIZED
   | InvalidRecipientAddress | InvalidAmount | EmptyRequestId => BAD_REQUEST
   | SeqMessageNotFound _ => NOT_FOUND
   | NoPublisher | NoBatcher => NOT_IMPLEMENTED
   | SeqSigning _ | SeqInbox _ | SeqSerialization _ | CborSerializationFailed _
   | MessageRetrievalFailed _ | BatchFlushFailed _ => INTERNAL_SERVER_ERROR
   end, SequencerError_to_string e).

(** ** BatcherHandle (batcher.rs): a command on the channel and its answer *)
Definition TransportError_to_string (e : TransportError) : string :=
  match e with
  | Storage s => "Storage error: " +:+ s
  | Serialization s => "Serialization error: " +:+ s
  | Network s => "Network error: " +:+ s
  | NotFound s => "Not found: " +:+ s
  | Transport.Config s => "Configuration error: " +:+ s
  | TransportSignatureVerification s => "Signature verification failed: " +:+ s
  end.
Definition BatcherError_to_string (e : BatcherError) : string :=
  match e with
  | BatcherTransport e => "Transport error: " +:+ TransportError_to_string e
  | BatcherCbor e => "CBOR encoding error: " +:+ CborError_to_string e
  | ChannelClosed => "Batcher channel closed"
  | BatcherSigning s => "Signing error: " +:+ s
  end.

Module BatcherHandle.
Section ops.
Context `{HX : Hex} `{CR : Crypto} `{SG : !Signer} `{CS : Cose} `{CC : !CoseCodec}.
Context {T : Type} `{TP : TransportPublisher T}.

(** The task behind the channel, while it runs. *)
Record t := mk { task : Batcher.t T; running : bool }.

(** The task serves the command; a panic in it closes the channel. *)
Definition call {A} (h : t) (cmd : BatcherCommand) (now instant : Z)
    (answer : BatcherResponse -> result BatcherError A) : t * result BatcherError A :=
  if running h then
    let '(b, resp, continue) := Batcher.step (task h) (Recv cmd now instant) in
    match answer resp with
    | Panic _ => (mk b false, Err ChannelClosed)
    | r => (mk b continue, r)
    end
  else (h, Err ChannelClosed).

Definition add_message (h : t) (message : CborSignedMessage.t) (now instant : Z) : t * result BatcherError unit :=
  call h (AddMessage message) now instant
    (fun resp => match resp with RespAdd r => r | _ => Err ChannelClosed end).
Definition flush (h : t) (now instant : Z) : t * result BatcherError (option PublishMetadata.t) :=
  call h Flush now instant
    (fun resp => match resp with RespFlush r => r | _ => Err ChannelClosed end).
Definition stats (h : t) (now instant : Z) : t * result BatcherError BatchStats.t :=
  call h GetStats now instant
    (fun resp => match resp with RespStats s => Ok s | _ => Err ChannelClosed end).
(** The command is only sent: nothing waits for the task to take it. *)
Definition shutdown (h : t) : result BatcherError unit := if running h then Ok tt else Err ChannelClosed.
(** The task takes it, if it still gets to run. *)
Definition take_shutdown (h : t) (now instant : Z) : t :=
  fst (call h Shutdown now instant (fun _ => Ok tt)).
(** The task is woken by its timer. *)
Definition tick (h : t) (now instant : Z) : t :=
  if running h then mk (fst (fst (Batcher.step (task h) (Tick now instant)))) true else h.
End ops.
#[global] Arguments t {_ _} T.
End BatcherHandle.

(** ** http_api.rs: replies *)
Module SequenceResponse.
Record t := mk {
  sequence : Z;
  timestamp : Z;
  message_hash : string;
  signature : string;
  signer : string;
  batch_warning : option string;
}.
Definition from (r : SequenceReceipt.t) : t :=
  mk (SequenceReceipt.sequence r) (SequenceReceipt.timestamp r) (SequenceReceipt.message_hash r)
     (SequenceReceipt.signature r) (SequenceReceipt.signer r) None.
Definition with_batch_warning (r : t) (warning : string) : t :=
  mk (sequence r) (timestamp r) (message_hash r) (signature r) (signer r) (Some warning).
End SequenceResponse.

Module BridgeSignatureResponse.
Record t := mk {
  message_id : string;
  message_hash : string;
  signature : string;
  signer : string;
  sequence : Z;
  timestamp : Z;
}.
End BridgeSignatureResponse.

Module WithdrawalResponse.
Record t := mk {
  sequence : Z;
  timestamp : Z;
  message_hash : string;
  cose_signature : string;
  signer : string;
  bridge_signature : BridgeSignatureResponse.t;
  batch_warning : option string;
}.
End WithdrawalResponse.

Module StatusResponse.
Record t := mk { current_sequence : Z; signer_address : string; signer_pubkey : string }.
End StatusResponse.
Module HealthCheck.
Record t := mk { name : string; status : string; message : option string }.
End HealthCheck.
Module ReadinessResponse.
Record t := mk { status : string; checks : list HealthCheck.t }.
End ReadinessResponse.
Module BatchStatsResponse.
(** The ratio as a fraction. *)
Record t := mk {
  enabled : bool;
  batches_published : Z;
  messages_published : Z;
  bytes_published : Z;
  bytes_uncompressed : Z;
  compression_ratio : Z * Z;
  pending_messages : Z;
  pending_bytes : Z;
  last_flush_timestamp : Z;
}.
Definition empty (enabled : bool) : t := mk enabled 0 0 0 0 (0, 1) 0 0 0.
Definition from (s : BatchStats.t) : t :=
  mk true (BatchStats.batches_published s) (BatchStats.messages_published s) (BatchStats.bytes_published s)
     (BatchStats.bytes_uncompressed s) (BatchStats.compression_ratio s) (BatchStats.pending_messages s)
     (BatchStats.pending_bytes s) (BatchStats.last_flush_timestamp s).
End BatchStatsResponse.
Module BatchFlushResponse.
Record t := mk {
  published : bool;
  reference : option string;
  message_count : option Z;
  compressed_bytes : option Z;
}.
End BatchFlushResponse.

(** ** http_api.rs: handlers *)
Module AppState.
Section ops.
Context `{HX : Hex} `{CR : Crypto} `{SG : !Signer} `{CS : Cose} `{CC : !CoseCodec} `{ZS : Zstd}.
Context `{HN : HttpNet} `{JK : FromJson Jwks.t} `{JD : FromJson OidcDiscovery.t}.
Context `{JH : FromJson JwtHeader.t} `{JC : FromJson GcpCsClaims.t} `{JM : FromJson MinimalHeader.t}.
Context `{RS : Rsa}.
Context `{SC : Serde ChangesetBatchRequest.t} `{SN : Serde SnapshotRequest.t} `{SWd : Serde WithdrawalRequest.t}.
Context {T : Type} `{TP : TransportPublisher T}.

Record t := mk {
  inbox : Inbox.t;
  attestation_verifier : option AttestationVerifier.t;
  batcher : option (BatcherHandle.t T);
}.
Definition with_inbox (st : t) (ib : Inbox.t) : t := mk ib (attestation_verifier st) (batcher st).
Definition with_verifier (st : t) (v : AttestationVerifier.t) : t := mk (inbox st) (Some v) (batcher st).
Definition with_batcher (st : t) (h : BatcherHandle.t T) : t :=
  mk (inbox st) (attestation_verifier st) (Some h).

(** The clocks of a request, and its number for the network. *)
Record Clock := { now : Z; instant : Z; request_no : nat }.

Definition check_attestation (st : t) (token : option string) (ck : Clock) : t * result SequencerError unit :=
  match attestation_verifier st with
  | None => (st, Ok tt)
  | Some v =>
      match token with
      | None => (st, Err MissingAttestationToken)
      | Some token =>
          let '(v, r) := AttestationVerifier.verify v token (now ck) (instant ck) (request_no ck) in
          (with_verifier st v, let? _ := map_err SeqAttestation r in Ok tt)
      end
  end.

(** The message goes to the batcher; a failure becomes a warning in the reply. *)
Definition to_batcher (st : t) (message : CborSignedMessage.t) (ck : Clock) : t * option string :=
  match batcher st with
  | None => (st, None)
  | Some h =>
      let '(h, r) := BatcherHandle.add_message h message (now ck) (instant ck) in
      (with_batcher st h,
       match r with
       | Err e => Some ("Batch publishing failed: " +:+ BatcherError_to_string e)
       | _ => None
       end)
  end.

(** A handler runs in two parts with an [await] between them.  The first ends when the
    message holds its number; the second begins when the batcher answers.  Other
    handlers run in between, so the order in which messages reach the batcher need not
    be the order of their numbers.  What a handler keeps across the [await]: *)
Definition Held : Type := CborSignedMessage.t * SequenceReceipt.t.

Definition sequence (st : t) (ty : CborMessageType) (payload : bytes) (ck : Clock)
    : t * result SequencerError Held :=
  let '(ib, r) := Inbox.sequence_message (inbox st) (now ck) ty payload in
  (with_inbox st ib, map_err SeqInbox r).

(** The second part: the batcher takes the message and the reply is made. *)
Definition finish_sequence (st : t) (held : Held) (ck : Clock) : t * SequenceResponse.t :=
  let '(message, receipt) := held in
  let '(st, batch_warning) := to_batcher st message ck in
  let response := SequenceResponse.from receipt in
  (st, match batch_warning with
       | Some w => SequenceResponse.with_batch_warning response w
       | None => response
       end).

(** A handler whose batcher answers at once. *)
Definition handle {H A} (first : t * result SequencerError H) (second : t -> H -> t * A)
    : t * result (Z * string) (Z * A) :=
  let '(st, r) := first in
  match r with
  | Ok held => let '(st, response) := second st held in (st, Ok (CREATED, response))
  | Err e => (st, Err (HttpError_from e))
  | Panic w => (st, Panic w)
  end.

Definition begin_changesets (st : t) (request : ChangesetBatchRequest.t) (ck : Clock)
    : t * result SequencerError Held :=
  let '(st, auth) := check_attestation st (ChangesetBatchRequest.attestation_token request) ck in
  match (let? _ := auth in map_err CborSerializationFailed (ser request)) with
  | Ok payload => sequence st Changeset payload ck
  | Err e => (st, Err e)
  | Panic w => (st, Panic w)
  end.
Definition receive_changesets (st : t) (request : ChangesetBatchRequest.t) (ck : Clock)
    : t * result (Z * string) (Z * SequenceResponse.t) :=
  handle (begin_changesets st request ck) (fun st held => finish_sequence st held ck).

Definition begin_snapshot (st : t) (request : SnapshotRequest.t) (ck : Clock)
    : t * result SequencerError Held :=
  let '(st, auth) := check_attestation st (SnapshotRequest.attestation_token request) ck in
  match (let? _ := auth in map_err CborSerializationFailed (ser request)) with
  | Ok payload => sequence st Snapshot payload ck
  | Err e => (st, Err e)
  | Panic w => (st, Panic w)
  end.
Definition receive_snapshot (st : t) (request : SnapshotRequest.t) (ck : Clock)
    : t * result (Z * string) (Z * SequenceResponse.t) :=
  handle (begin_snapshot st request ck) (fun st held => finish_sequence st held ck).

Definition valid_recipient (recipient : string) : bool :=
  match strip_prefix "0x" recipient with
  | Some digits => Nat.eqb (String.length recipient) 42 && string_all is_hexdigit digits
  | None => false
  end.
Definition is_ascii_digit (c : ascii) : bool := match digit_val c with Some _ => true | None => false end.
Definition valid_amount (amount : string) : bool :=
  negb (bool_decide (amount = ""%string)) && string_all is_ascii_digit amount
  && negb (Nat.ltb 1 (String.length amount) && starts_with "0" amount).

Definition check_withdrawal (request : WithdrawalRequest.t) : result SequencerError unit :=
  if negb (valid_recipient (WithdrawalRequest.recipient request)) then Err InvalidRecipientAddress else
  if negb (valid_amount (WithdrawalRequest.amount request)) then Err InvalidAmount else
  if bool_decide (WithdrawalRequest.request_id request = ""%string) then Err EmptyRequestId else Ok tt.

Definition withdrawal_response (receipt : SequenceReceipt.t) (bs : BridgeSignature.t)
    (batch_warning : option string) : WithdrawalResponse.t :=
  WithdrawalResponse.mk (SequenceReceipt.sequence receipt) (SequenceReceipt.timestamp receipt)
    (SequenceReceipt.message_hash receipt) (SequenceReceipt.signature receipt) (SequenceReceipt.signer receipt)
    (BridgeSignatureResponse.mk (BridgeSignature.message_id bs) (BridgeSignature.message_hash bs)
       (BridgeSignature.signature bs) (BridgeSignature.signer bs) (SequenceReceipt.sequence receipt)
       (SequenceReceipt.timestamp receipt)) batch_warning.

(** The Bridge signature is made after the number was taken and before the message is
    handed to the batcher. *)
Definition begin_withdrawal (st : t) (request : WithdrawalRequest.t) (ck : Clock)
    : t * result SequencerError (Held * BridgeSignature.t) :=
  match (let? _ := check_withdrawal request in map_err CborSerializationFailed (ser request)) with
  | Ok payload =>
      let '(st, r) := sequence st Withdrawal payload ck in
      (st, let? held := r in
           let? bridge_sig := map_err SeqInbox
             (Inbox.sign_bridge_withdrawal (inbox st) (WithdrawalRequest.request_id request)
                (WithdrawalRequest.recipient request) (WithdrawalRequest.data request)
                (WithdrawalRequest.amount request)) in
           Ok (held, bridge_sig))
  | Err e => (st, Err e)
  | Panic w => (st, Panic w)
  end.
Definition finish_withdrawal (st : t) (held : Held * BridgeSignature.t) (ck : Clock)
    : t * WithdrawalResponse.t :=
  let '(message, receipt, bridge_sig) := held in
  let '(st, batch_warning) := to_batcher st message ck in
  (st, withdrawal_response receipt bridge_sig batch_warning).
Definition receive_withdrawal (st : t) (request : WithdrawalRequest.t) (ck : Clock)
    : t * result (Z * string) (Z * WithdrawalResponse.t) :=
  handle (begin_withdrawal st request ck) (fun st held => finish_withdrawal st held ck).

Definition health_check : string := "OK".

Definition batcher_check (st : t) (ck : Clock) : t * HealthCheck.t :=
  match batcher st with
  | None => (st, HealthCheck.mk "batcher" "not_configured" None)
  | Some h =>
      let '(h, r) := BatcherHandle.stats h (now ck) (instant ck) in
      (with_batcher st h,
       match r with
       | Ok s => HealthCheck.mk "batcher" "ok"
           (Some ("batches=" +:+ int_to_string (BatchStats.batches_published s) +:+ ", messages="
                  +:+ int_to_string (BatchStats.messages_published s) +:+ ", pending="
                  +:+ int_to_string (BatchStats.pending_messages s)))
       | Err e => HealthCheck.mk "batcher" "degraded" (Some ("Error: " +:+ BatcherError_to_string e))
       | Panic w => HealthCheck.mk "batcher" "degraded" (Some w)
       end)
  end.

Definition check_ok (c : HealthCheck.t) : bool :=
  bool_decide (HealthCheck.status c = "ok"%string) || bool_decide (HealthCheck.status c = "not_configured"%string).
Definition readiness_check (st : t) (ck : Clock) : t * ReadinessResponse.t :=
  let '(st, batcher_health) := batcher_check st ck in
  let checks := [HealthCheck.mk "inbox" "ok" None; batcher_health] in
  let status := if forallb check_ok checks then "ready"%string else "degraded"%string in
  (st, ReadinessResponse.mk status checks).

Definition status (st : t) : StatusResponse.t :=
  StatusResponse.mk (Inbox.current_sequence (inbox st)) (hex0x (Inbox.signer_address (inbox st)))
    (hex0x (EvmKeyManager.public_key (Inbox.key_manager (inbox st)))).

Definition batch_stats (st : t) (ck : Clock) : t * BatchStatsResponse.t :=
  match batcher st with
  | None => (st, BatchStatsResponse.empty false)
  | Some h =>
      let '(h, r) := BatcherHandle.stats h (now ck) (instant ck) in
      (with_batcher st h,
       match r with Ok s => BatchStatsResponse.from s | _ => BatchStatsResponse.empty true end)
  end.

Definition batch_flush (st : t) (ck : Clock) : t * result (Z * string) BatchFlushResponse.t :=
  match batcher st with
  | None => (st, Err (HttpError_from NoBatcher))
  | Some h =>
      let '(h, r) := BatcherHandle.flush h (now ck) (instant ck) in
      (with_batcher st h,
       match r with
       | Ok (Some md) => Ok (BatchFlushResponse.mk true (Some (PublishMetadata.reference md)) None
                               (Some (PublishMetadata.compressed_bytes md)))
       | Ok None => Ok (BatchFlushResponse.mk false None None None)
       | Err e => Err (HttpError_from (BatchFlushFailed (BatcherError_to_string e)))
       | Panic w => Panic w
       end)
  end.
End ops.
#[global] Arguments t {_ _} T.
End AppState.
