(* ===== verification/MessageApi.v ===== *)
(** * The sequencer's message endpoints
    (crates/synddb-sequencer/src/messages/api.rs)

    The handlers around the inbound queue and the outbound monitor.  serde_json's
    values are the class [JsonValue]; the locks are never poisoned here (no handler
    panics while it holds one), so their error replies are not modelled. *)
From S2P Require Import Prelude RustStd Net MessageQueue Outbound.

Class JsonValue := {
  json_value : Type;
  json_string : string -> json_value;                 (* [Value::String] *)
  json_parse : string -> result string json_value;    (* [serde_json::from_str] *)
  json_print : json_value -> result string string;    (* [serde_json::to_string] *)
}.

(** ** Requests and replies *)
Module GetMessagesQuery.
Record t := mk { after_id : Z; limit : Z; message_type : option string; pending_only : bool }.
Definition default_limit : Z := 100.
Definition default_pending_only : bool := true.
(** The query of an empty query string. *)
Definition default : t := mk 0 default_limit None default_pending_only.
End GetMessagesQuery.

Module InboundMessageResponse.
Record t `{JsonValue} := mk {
  id : Z;
  message_id : string;
  message_type : string;
  payload : json_value;
  sender : string;
  tx_hash : string;
  block_number : Z;
  confirmations : Z;
  timestamp : Z;
  acknowledged : bool;
}.
Definition from `{JsonValue} (m : InboundMessage.t) : t :=
  mk _ (InboundMessage.id m) (InboundMessage.message_id m) (InboundMessage.message_type m)
     (match json_parse (InboundMessage.payload m) with
      | Ok v => v
      | _ => json_string (InboundMessage.payload m)
      end)
     (InboundMessage.sender m) (InboundMessage.tx_hash m) (InboundMessage.block_number m)
     (InboundMessage.confirmations m) (InboundMessage.timestamp m) (InboundMessage.acknowledged m).
End InboundMessageResponse.

Module GetMessagesResponse.
Record t `{JsonValue} := mk {
  messages : list InboundMessageResponse.t;
  has_more : bool;
  latest_id : Z;
}.
End GetMessagesResponse.

Module AckRequest.
Record t := mk { processed : bool; note : option string }.
Definition default_processed : bool := true.
End AckRequest.
Module AckResponse.
Record t := mk { acknowledged : bool; message_id : Z }.
End AckResponse.

Module OutboundStatusResponse.
Record t := mk {
  id : Z;
  message_type : string;
  status : string;
  tx_hash : option string;
  confirmations : option Z;
  error : option string;
  first_seen_at : Z;
  updated_at : Z;
}.
Definition from (m : TrackedOutboundMessage.t) : t :=
  mk (TrackedOutboundMessage.id m) (TrackedOutboundMessage.message_type m)
     (OutboundStatus_to_string (TrackedOutboundMessage.status m)) (TrackedOutboundMessage.tx_hash m)
     (TrackedOutboundMessage.confirmations m) (TrackedOutboundMessage.error m)
     (TrackedOutboundMessage.first_seen_at m) (TrackedOutboundMessage.updated_at m).
End OutboundStatusResponse.

Module OutboundStatsResponse.
Record t := mk { stats : OutboundStats.t; monitor_active : bool }.
Definition from (s : OutboundStats.t) : t := mk s true.
End OutboundStatsResponse.

Module PushInboundRequest.
Record t `{JsonValue} := mk {
  message_id : string;
  message_type : string;
  payload : json_value;
  sender : string;
  tx_hash : string;
  block_number : Z;
  confirmations : Z;
}.
End PushInboundRequest.
Module PushInboundResponse.
Record t := mk { id : Z; message_id : string }.
End PushInboundResponse.

(** ** Handlers *)
Module MessageApiState.
Section ops.
Context `{JV : JsonValue}.

(** The queue behind its lock, and the outbound monitor's tracker when there is one. *)
Record t := mk { queue : MessageQueue.t; outbound : option OutboundTracker.t }.
Definition new : t := mk MessageQueue.new None.
Definition with_queue (q : MessageQueue.t) : t := mk q None.
Definition with_outbound (st : t) (h : OutboundTracker.t) : t := mk (queue st) (Some h).

Definition after (query : GetMessagesQuery.t) (m : InboundMessage.t) : bool :=
  GetMessagesQuery.after_id query <? InboundMessage.id m.
Definition of_type (query : GetMessagesQuery.t) (m : InboundMessage.t) : bool :=
  match GetMessagesQuery.message_type query with
  | Some t => bool_decide (InboundMessage.message_type m = t)
  | None => true
  end.

(** The messages a query selects, before the final truncation. *)
Definition selected (q : MessageQueue.t) (query : GetMessagesQuery.t) (limit : nat) : list InboundMessage.t :=
  if GetMessagesQuery.pending_only query then
    match GetMessagesQuery.message_type query with
    | None => take limit (List.filter (after query) (MessageQueue.get_pending_messages q (limit + 1)))
    | Some msg_type => List.filter (after query) (MessageQueue.get_pending_by_type q msg_type limit)
    end
  else
    take limit (List.filter (of_type query)
                  (MessageQueue.get_messages_after q (GetMessagesQuery.after_id query) (limit + 1))).

Definition get_inbound_messages (st : t) (query : GetMessagesQuery.t) : GetMessagesResponse.t :=
  let limit := Z.to_nat (Z.min (GetMessagesQuery.limit query) 1000) in
  let messages := map InboundMessageResponse.from (selected (queue st) query limit) in
  GetMessagesResponse.mk _ (take limit messages) (Nat.ltb limit (length messages)) (MessageQueue.latest_id (queue st)).

Definition get_message_by_id (st : t) (id : Z) : result (Z * string) InboundMessageResponse.t :=
  ok_or (NOT_FOUND, "Message " +:+ int_to_string id +:+ " not found")
        (InboundMessageResponse.from <$> MessageQueue.get_by_id (queue st) id).

Definition acknowledge_message (st : t) (id : Z) (request : AckRequest.t) (now : Z) : t * AckResponse.t :=
  let '(q, acknowledged) := MessageQueue.acknowledge (queue st) id now in
  (mk q (outbound st), AckResponse.mk acknowledged id).

Definition get_queue_stats (st : t) : QueueStats.t := MessageQueue.stats (queue st).

Definition push_inbound_message (st : t) (request : PushInboundRequest.t) (now : Z)
    : t * result (Z * string) PushInboundResponse.t :=
  match json_print (PushInboundRequest.payload request) with
  | Ok payload_str =>
      let '(q, id) := MessageQueue.add_message (queue st) now (PushInboundRequest.message_id request)
        (PushInboundRequest.message_type request) payload_str (PushInboundRequest.sender request)
        (PushInboundRequest.tx_hash request) (PushInboundRequest.block_number request)
        (PushInboundRequest.confirmations request) in
      (mk q (outbound st), Ok (PushInboundResponse.mk id (PushInboundRequest.message_id request)))
  | Err e => (st, Err (BAD_REQUEST, "Invalid payload JSON: " +:+ e))
  | Panic w => (st, Panic w)
  end.

Definition get_outbound_status (st : t) (id now : Z) : OutboundStatusResponse.t :=
  match (tr ← outbound st; OutboundTracker.get_status tr id) with
  | Some msg => OutboundStatusResponse.from msg
  | None =>
      OutboundStatusResponse.mk id "unknown" "unknown" None None
        (Some (match outbound st with
               | None => "Outbound monitor not configured"
               | Some _ => "Message not found"
               end)) 0 now
  end.

Definition get_outbound_stats (st : t) : OutboundStatsResponse.t :=
  match outbound st with
  | None => OutboundStatsResponse.mk OutboundStats.default false
  | Some tr => OutboundStatsResponse.from (OutboundTracker.stats tr)
  end.
End ops.
End MessageApiState.
