(* ===== verification/SequencerMain.v ===== *)
(** * The sequencer's process (crates/synddb-sequencer/src/main.rs, config.rs)

    Configuration, start-up (signing key, publisher, the number the inbox starts at,
    attestation verifier, outbound monitor), the endpoints it mounts and its shutdown.
    Command line parsing is clap's; the listener, tracing and metrics are left out. *)
From Stdlib Require Import Ascii Strings.Byte.
From S2P Require Import Prelude RustStd BTree Batches Extern Net Cose CborBatches SignedTypes SyncIndex.
From S2P Require Import Inbox Transport Batcher MessageQueue Outbound StateStore Applier AuditTrail Validator.
From S2P Require Import HttpFetcher Cloud Jwt BootClients SeqApi MessageApi.

(** ** config.rs *)
Module PublisherType.
Inductive t := None | Local | Gcs.
Definition default : t := Local.
Definition to_string (p : t) : string :=
  match p with None => "none" | Local => "local" | Gcs => "gcs" end.
Definition supported_types : list string := map to_string [None; Local; Gcs].
End PublisherType.

(** Durations in milliseconds, except those of the bootstrap, in seconds. *)
Module SequencerConfig.
Record t := mk {
  bind_address : string;
  request_timeout : Z;
  max_message_size : Z;
  verify_attestation : bool;
  publisher_type : PublisherType.t;
  local_storage_path : option string;
  gcs_bucket : option string;
  gcs_prefix : string;
  gcs_storage_emulator_host : option string;
  log_json : bool;
  otel_enabled : bool;
  gcp_project_id : option string;
  attestation_service_url : option string;
  shutdown_timeout : Z;
  batch_max_messages : Z;
  batch_max_bytes : Z;
  batch_flush_interval : Z;
  app_database_path : option string;
  outbound_poll_interval_ms : Z;
  enable_key_bootstrap : bool;
  bridge_address : option string;
  bootstrap_rpc_url : option string;
  bootstrap_chain_id : option Z;
  relayer_url : option string;
  proof_service_url : option string;
  attestation_audience : option string;
  image_signature : option string;
  proof_timeout : Z;
  bootstrap_timeout : Z;
}.

(** [for_testing]: the default values of the arguments. *)
Definition for_testing : t :=
  mk "0.0.0.0:8433" 30000 10485760 false PublisherType.Local None None "sequencer" None false false None
     None 30000 50 1048576 5000 None 1000 false None None None None None None None 600 900.

Definition require {A} (o : option A) (msg : string) : result string unit :=
  match o with Some _ => Ok tt | None => Err msg end.

Definition validate_bootstrap_config (c : t) : result string unit :=
  if negb (enable_key_bootstrap c) then Ok tt
  else
    let? _ := require (bridge_address c) "BRIDGE_CONTRACT_ADDRESS is required when ENABLE_KEY_BOOTSTRAP=true" in
    let? _ := require (bootstrap_rpc_url c) "BOOTSTRAP_RPC_URL is required when ENABLE_KEY_BOOTSTRAP=true" in
    let? _ := require (bootstrap_chain_id c) "BOOTSTRAP_CHAIN_ID is required when ENABLE_KEY_BOOTSTRAP=true" in
    let? _ := require (relayer_url c) "RELAYER_URL is required when ENABLE_KEY_BOOTSTRAP=true" in
    let? _ := require (proof_service_url c) "PROOF_SERVICE_URL is required when ENABLE_KEY_BOOTSTRAP=true" in
    let? _ := require (attestation_audience c) "ATTESTATION_AUDIENCE is required when ENABLE_KEY_BOOTSTRAP=true" in
    require (image_signature c) "IMAGE_SIGNATURE is required when ENABLE_KEY_BOOTSTRAP=true".

Definition batch_config (c : t) : BatchConfig.t :=
  BatchConfig.mk (batch_max_messages c) (batch_max_bytes c) (batch_flush_interval c).
End SequencerConfig.

(** ** The two transports behind one interface ([Arc<dyn TransportPublisher>]) *)
Module AnyPublisher.
Section ops.
Context `{HX : Hex} `{CR : Crypto} `{CS : Cose} `{CC : !CoseCodec} `{ZS : Zstd}.
Context `{SW : Serde CborBatchWire.t} `{BT : BatchTable} `{OS : ObjectStore} `{JV : FromJson JsonValue.t}.

Inductive t := Local (l : Local.t) | Gcs (g : GcsTransport.t).

#[global] Instance transport : TransportPublisher t := {|
  publish p b :=
    match p with
    | Local l => let '(l, r) := publish l b in (Local l, r)
    | Gcs g => let '(g, r) := publish g b in (Gcs g, r)
    end;
  fetch p s := match p with Local l => fetch l s | Gcs g => fetch g s end;
  list_batches p := match p with Local l => list_batches l | Gcs g => list_batches g end;
  get_latest_sequence p := match p with Local l => get_latest_sequence l | Gcs g => get_latest_sequence g end;
  get_message p s := match p with Local l => get_message l s | Gcs g => get_message g s end;
|}.

(** [LocalTransport::new] where the database at the path already holds [file]: the
    tables are only created when they do not exist. *)
Definition open_local (local_storage_path : option string) (file : Conn) : Local.t :=
  match local_storage_path with
  | None => Local.new Local.InMemory
  | Some path =>
      if bool_decide (path = ":memory:"%string) then Local.new (Local.SqliteFile path) else Local.Sqlite file
  end.

(** The publisher of the configuration; [None] when nothing is persisted. *)
Definition create (config : SequencerConfig.t) (file : Conn) (st : Store) : result AnyError (option t) :=
  match SequencerConfig.publisher_type config with
  | PublisherType.None => Ok None
  | PublisherType.Local => Ok (Some (Local (open_local (SequencerConfig.local_storage_path config) file)))
  | PublisherType.Gcs =>
      let? bucket := ok_or (Msg "GCS_BUCKET is required when publisher_type=gcs")
                       (SequencerConfig.gcs_bucket config) in
      let transport_config := GcsConfig.with_prefix (SequencerConfig.gcs_prefix config) (GcsConfig.new bucket) in
      let transport_config :=
        match SequencerConfig.gcs_storage_emulator_host config with
        | Some host => GcsConfig.with_emulator_host host transport_config
        | None => transport_config
        end in
      let? g := context "Failed to initialize GCS transport" (GcsTransport.new transport_config st) in
      Ok (Some (Gcs g))
  end.

(** The number the inbox starts at: only the local transport is asked. *)
Definition start_sequence (p : option t) : Z :=
  match p with
  | Some (Local l) => match Local.latest_sequence l with Some seq => u64_add seq 1 | None => 0 end
  | _ => 0
  end.
End ops.
Arguments t {_ _}.
End AnyPublisher.

(** ** main.rs *)
Module Process.
Section ops.
Context `{HX : Hex} `{CR : Crypto} `{SG : !Signer} `{CS : Cose} `{CC : !CoseCodec} `{ZS : Zstd}.
Context `{HN : HttpNet} `{JK : FromJson Jwks.t} `{JD : FromJson OidcDiscovery.t}.
Context `{JH : FromJson JwtHeader.t} `{JC : FromJson GcpCsClaims.t} `{JM : FromJson MinimalHeader.t}.
Context `{RS : Rsa} `{SW : Serde CborBatchWire.t} `{BT : BatchTable} `{OS : ObjectStore}.
Context `{JV : FromJson JsonValue.t} `{DB : AppDb}.

(** What the bootstrap is run with. *)
Definition bootstrap_config (config : SequencerConfig.t) : BootstrapConfig.t :=
  let d := BootstrapConfig.default in
  BootstrapConfig.mk true (SequencerConfig.bridge_address config) (SequencerConfig.bootstrap_rpc_url config)
    (SequencerConfig.bootstrap_chain_id config) (SequencerConfig.relayer_url config) Service
    (SequencerConfig.proof_service_url config) (SequencerConfig.attestation_audience config)
    (SequencerConfig.proof_timeout config) (BootstrapConfig.proof_health_check_timeout d)
    (SequencerConfig.bootstrap_timeout config) (BootstrapConfig.proof_max_retries d)
    (BootstrapConfig.relayer_max_retries d) (BootstrapConfig.verification_max_retries d)
    (BootstrapConfig.relayer_timeout d) (SequencerConfig.image_signature config)
    (BootstrapConfig.google_jwks_url d).

(** The signing key: the one the bootstrap registered ([bootstrap] is its outcome,
    [None] when it timed out), else a key drawn anew at every start. *)
Definition signing_key (tee : bool) (config : SequencerConfig.t)
    (bootstrap : BootstrapConfig.t -> option (result BootstrapError EvmKeyManager.t))
    (random : PrivateKeySigner) : result AnyError EvmKeyManager.t :=
  if SequencerConfig.enable_key_bootstrap config then
    if tee then
      let? _ := map_err Msg (SequencerConfig.validate_bootstrap_config config) in
      match bootstrap (bootstrap_config config) with
      | Some (Ok key) => Ok key
      | Some (Err e) => Err (Msg ("Bootstrap failed: " +:+ BootstrapError_to_string e))
      | Some (Panic w) => Panic w
      | None => Err (Msg ("Bootstrap timed out after "
                          +:+ duration_debug (SequencerConfig.bootstrap_timeout config)))
      end
    else Err (Msg "TEE key bootstrap requires the 'tee' feature to be enabled")
  else Ok (EvmKeyManager.generate random).

(** The audience is the configured service, else the address the server binds. *)
Definition attestation_config (config : SequencerConfig.t) : AttestationConfig.t :=
  AttestationConfig.mk
    (default ("http://" +:+ SequencerConfig.bind_address config) (SequencerConfig.attestation_service_url config))
    true None.
Definition attestation_verifier (config : SequencerConfig.t) : result AnyError (option AttestationVerifier.t) :=
  if SequencerConfig.verify_attestation config then
    let? v := map_err (fun e => Msg (AttestationError.to_string e))
                (AttestationVerifier.new (attestation_config config)) in
    Ok (Some v)
  else Ok None.

Definition outbound_monitor (config : SequencerConfig.t) : option OutboundMonitor.t :=
  db_path ← SequencerConfig.app_database_path config;
  Some (OutboundMonitor.new (OutboundMonitorConfig.mk db_path (SequencerConfig.outbound_poll_interval_ms config) 100)).

(** What runs: the two APIs' states, the monitor task while it runs (its tracker is the
    one the message API reads), and whether the storage routes are mounted. *)
Record t := mk {
  app : AppState.t AnyPublisher.t;
  messages : MessageApiState.t;
  monitor : option OutboundMonitor.t;
  storage_routes : bool;
}.

Definition is_local (p : option AnyPublisher.t) : bool :=
  match p with Some (AnyPublisher.Local _) => true | _ => false end.

(** [main] up to the point where the server listens. *)
Definition start (tee : bool) (config : SequencerConfig.t)
    (bootstrap : BootstrapConfig.t -> option (result BootstrapError EvmKeyManager.t))
    (random : PrivateKeySigner) (file : Conn) (st : Store) (instant : Z) : result AnyError t :=
  let? key_manager := signing_key tee config bootstrap random in
  let? publisher := AnyPublisher.create config file st in
  let batcher :=
    (fun p => BatcherHandle.mk (Batcher.spawn (SequencerConfig.batch_config config) p key_manager instant) true)
      <$> publisher in
  let inbox := Inbox.with_start_sequence key_manager (AnyPublisher.start_sequence publisher) in
  let? verifier := attestation_verifier config in
  let monitor := outbound_monitor config in
  let messages :=
    match monitor with
    | Some m => MessageApiState.with_outbound MessageApiState.new (OutboundMonitor.tracker m)
    | None => MessageApiState.new
    end in
  Ok (mk (AppState.mk inbox verifier batcher) messages monitor (is_local publisher)).

(** The transport as the storage routes see it: the batcher's. *)
Definition storage (p : t) : option Local.t :=
  if storage_routes p then
    h ← AppState.batcher (app p);
    match Batcher.transport (BatcherHandle.task h) with AnyPublisher.Local l => Some l | AnyPublisher.Gcs _ => None end
  else None.

(** A tick of the monitor task. *)
Definition poll (p : t) (now : Z) : t :=
  match monitor p with
  | Some m =>
      let m := OutboundMonitor.tick m now in
      mk (app p) (MessageApiState.with_outbound (messages p) (OutboundMonitor.tracker m)) (Some m) (storage_routes p)
  | None => p
  end.

(** How the end of [shutdown_signal] is logged. *)
Inductive shutdown_outcome := NoBatcherToStop | ShutdownComplete | ShutdownFailed (e : BatcherError) | ShutdownTimedOut.

(** [shutdown_signal], once a signal arrived; [sent] is false when the channel stays
    full until the timeout.  The server goes on accepting requests until it returns. *)
Definition shutdown_signal (p : t) (sent : bool) : t * shutdown_outcome :=
  (mk (app p) (messages p) None (storage_routes p),
   match AppState.batcher (app p) with
   | None => NoBatcherToStop
   | Some h =>
       if sent then
         match BatcherHandle.shutdown h with
         | Err e => ShutdownFailed e
         | _ => ShutdownComplete
         end
       else ShutdownTimedOut
   end).
End ops.
End Process.
