(* ===== verification/SeqApiProps.v ===== *)
(** * Properties of the sequencer's HTTP API

    Who is let in, what a request does to the counter and the batcher, and where the
    endpoints fall short of what their callers expect. *)
From Stdlib Require Import Ascii Strings.Byte.
From S2P Require Import Prelude RustStd Batches Extern Net Cose CborBatches SignedTypes SyncIndex Inbox.
From S2P Require Import InboxProps Transport Batcher MessageQueue Outbound StateStore Applier Jwt SeqApi.
From S2P Require Import MessageApi.
Import AppState.

(** ** The attestation gate *)
Section gate.
Context `{HX : Hex} `{CR : Crypto} `{SG : !Signer} `{CS : Cose} `{CC : !CoseCodec} `{ZS : Zstd}.
Context `{HN : HttpNet} `{JK : FromJson Jwks.t} `{JD : FromJson OidcDiscovery.t}.
Context `{JH : FromJson JwtHeader.t} `{JC : FromJson GcpCsClaims.t} `{JM : FromJson MinimalHeader.t}.
Context `{RS : Rsa}.
Context `{SC : Serde ChangesetBatchRequest.t} `{SN : Serde SnapshotRequest.t} `{SWd : Serde WithdrawalRequest.t}.
Context {T : Type} `{TP : TransportPublisher T}.

(** What [verify_tee_claims] demands of a verified token. *)
Definition tee_claims_ok (c : AttestationConfig.t) (r : ValidationResult.t) : Prop :=
  AttestationConfig.verify_tee_claims c = true ->
  ValidationResult.secboot r = true /\
  (ValidationResult.dbgstat r = ""%string \/ ValidationResult.dbgstat r = "disabled"%string) /\
  (forall d, AttestationConfig.expected_image_digest c = Some d ->
     ValidationResult.image_digest r = ""%string \/ ValidationResult.image_digest r = d).

Lemma check_tee_claims_iff c r :
  AttestationVerifier.check_tee_claims c r = Ok tt <-> tee_claims_ok c r.
Proof.
  unfold AttestationVerifier.check_tee_claims, tee_claims_ok.
  destruct (AttestationConfig.verify_tee_claims c); cbn [negb]; [|done].
  destruct (ValidationResult.secboot r); cbn [negb]; [|naive_solver].
  destruct (decide (ValidationResult.dbgstat r = ""%string)) as [Hd|Hd];
    [rewrite (bool_decide_true _ Hd)|rewrite (bool_decide_false _ Hd)]; cbn [negb andb].
  - destruct (AttestationConfig.expected_image_digest c) as [d|]; [|naive_solver].
    destruct (decide (ValidationResult.image_digest r = ""%string)) as [Hi|Hi];
      [rewrite (bool_decide_true _ Hi)|rewrite (bool_decide_false _ Hi)]; cbn [negb andb]; [naive_solver|].
    case_bool_decide; cbn [negb]; naive_solver.
  - destruct (decide (ValidationResult.dbgstat r = "disabled"%string)) as [He|He];
      [rewrite (bool_decide_true _ He)|rewrite (bool_decide_false _ He)]; cbn [negb andb]; [|naive_solver].
    destruct (AttestationConfig.expected_image_digest c) as [d|]; [|naive_solver].
    destruct (decide (ValidationResult.image_digest r = ""%string)) as [Hi|Hi];
      [rewrite (bool_decide_true _ Hi)|rewrite (bool_decide_false _ Hi)]; cbn [negb andb]; [naive_solver|].
    case_bool_decide; cbn [negb]; naive_solver.
Qed.

(** A token checked under a key of a key set for the configured audience. *)
Definition token_verified (c : AttestationConfig.t) (jwks : Jwks.t) (token : string) (now : Z) : Prop :=
  exists kid jwk r,
    extract_kid_from_jwt (as_bytes token) = Ok kid /\ jwk ∈ Jwks.keys jwks /\ JwkKey.kid jwk = kid /\
    verify_attestation (as_bytes token) jwk (Some (AttestationConfig.expected_audience c)) (Some now) = Ok r /\
    tee_claims_ok c r.

Lemma get_jwks_config v instant n :
  AttestationVerifier.config (AttestationVerifier.get_jwks v instant n).1 = AttestationVerifier.config v.
Proof.
  assert (Hu : AttestationVerifier.config (AttestationVerifier.get_jwks_uri v n).1 = AttestationVerifier.config v).
  { unfold AttestationVerifier.get_jwks_uri. destruct (AttestationVerifier.jwks_uri_cache v); [done|].
    destruct (http_get _ _ _) as [e|st body]; [done|]. destruct (negb _); [done|]. by destruct (response_json body). }
  assert (Hf : AttestationVerifier.config (AttestationVerifier.fetch_jwks v n).1 = AttestationVerifier.config v).
  { unfold AttestationVerifier.fetch_jwks. by destruct (AttestationVerifier.get_jwks_uri v n). }
  unfold AttestationVerifier.get_jwks.
  destruct (AttestationVerifier.fetch_jwks v n) as [v1 [jwks| |]];
    destruct (AttestationVerifier.jwks_cache v) as [[j at_]|]; try case_match; done.
Qed.

Lemma verify_inv v token now instant n v' cl :
  AttestationVerifier.verify v token now instant n = (v', Ok cl) ->
  AttestationVerifier.config v' = AttestationVerifier.config v /\
  exists jwks, snd (AttestationVerifier.get_jwks v instant n) = Ok jwks /\
    token_verified (AttestationVerifier.config v) jwks token now.
Proof.
  unfold AttestationVerifier.verify. intros H.
  destruct (extract_kid_from_jwt (as_bytes token)) as [kid| |] eqn:Ek; [|done..].
  pose proof (get_jwks_config v instant n) as Hc.
  destruct (AttestationVerifier.get_jwks v instant n) as [v1 r] eqn:Eg. cbn in Hc. injection H as <- H.
  split; [done|]. destruct r as [jwks| |]; [|done..]. cbn [result_bind] in H. exists jwks. split; [done|].
  unfold AttestationVerifier.verify_with in H. rewrite Hc in H. ok_inv.
  match goal with E : snd <$> list_find _ _ = Some ?k |- _ =>
    apply fmap_Some in E as ([i k'] & E & ->); apply list_find_Some in E as (E & Hk & _) end.
  match goal with E : verify_attestation _ _ _ _ = Ok ?r |- _ => exists kid, k', r end.
  match goal with u : unit |- _ => destruct u end.
  split_and!; [done|by eapply list_elem_of_lookup_2|done|done|by apply check_tee_claims_iff].
Qed.

(** The request was let in: no verifier, or its token was verified. *)
Definition admitted (st : AppState.t T) (token : option string) (ck : Clock) : Prop :=
  forall v, attestation_verifier st = Some v ->
  exists tok jwks, token = Some tok /\
    snd (AttestationVerifier.get_jwks v (instant ck) (request_no ck)) = Ok jwks /\
    token_verified (AttestationVerifier.config v) jwks tok (now ck).

Lemma check_attestation_spec (st : AppState.t T) token ck st' r :
  check_attestation st token ck = (st', r) ->
  inbox st' = inbox st /\ batcher st' = batcher st /\ (r = Ok tt -> admitted st token ck) /\
  (forall e, r = Err e -> fst (HttpError_from e) = UNAUTHORIZED).
Proof.
  unfold check_attestation, admitted. intros H.
  destruct (attestation_verifier st) as [v|] eqn:Ev; [|injection H as <- <-; by split_and!].
  destruct token as [tok|]; [|injection H as <- <-; split_and!; [done..|]; by intros ? [= <-]].
  destruct (AttestationVerifier.verify v tok _ _ _) as [v' rr] eqn:E. injection H as <- <-. cbn.
  split_and!; [done|done| |].
  - destruct rr as [cl| |]; [|done..]. intros _ v0 [= <-].
    apply verify_inv in E as (_ & jwks & Hj & Ht). eauto 10.
  - intros e He. destruct rr as [cl|e'|w]; cbn in He; [done| |done]. by injection He as <-.
Qed.

(** Why the gate refuses a request. *)
Definition refusal (v : AttestationVerifier.t) (token : option string) (ck : Clock) : option SequencerError :=
  match token with
  | None => Some MissingAttestationToken
  | Some tok =>
      match snd (AttestationVerifier.verify v tok (now ck) (instant ck) (request_no ck)) with
      | Err e => Some (SeqAttestation e)
      | _ => None
      end
  end.

Lemma check_attestation_refusal (st : AppState.t T) token ck e :
  snd (check_attestation st token ck) = Err e <->
  exists v, attestation_verifier st = Some v /\ refusal v token ck = Some e.
Proof.
  unfold check_attestation, refusal. destruct (attestation_verifier st) as [v|]; [|naive_solver].
  destruct token as [tok|]; [|naive_solver].
  destruct (AttestationVerifier.verify v tok _ _ _) as [v' r] eqn:E; cbn. split.
  - intros H. exists v. split; [done|]. rewrite E. by destruct r; cbn in *; simplify_eq.
  - intros (v0 & [= <-] & H). rewrite E in H. by destruct r; cbn in *; simplify_eq.
Qed.

Lemma sequence_spec (st : AppState.t T) ty payload ck st' held :
  sequence st ty payload ck = (st', Ok held) ->
  Inbox.sequence_message (inbox st) (now ck) ty payload = (inbox st', Ok held) /\
  attestation_verifier st' = attestation_verifier st /\ batcher st' = batcher st /\
  SequenceReceipt.sequence held.2 = Inbox.current_sequence (inbox st) /\
  Inbox.current_sequence (inbox st') = u64_add (Inbox.current_sequence (inbox st)) 1.
Proof.
  unfold sequence. intros H.
  destruct (Inbox.sequence_message (inbox st) (now ck) ty payload) as [ib r] eqn:Em.
  injection H as <- Hr. destruct r as [h| |]; [|done..]. injection Hr as ->. split_and!; [done..| |].
  - destruct held as [m rc]. unfold Inbox.sequence_message, Inbox.sign_sequenced in Em. injection Em as _ Em. ok_inv. by simplify_eq.
  - unfold Inbox.sequence_message in Em. by injection Em as <- _.
Qed.

(** An error after the gate is not a 401. *)
Lemma sequence_error (st : AppState.t T) ty payload ck st' e :
  sequence st ty payload ck = (st', Err e) -> fst (HttpError_from e) = INTERNAL_SERVER_ERROR.
Proof.
  unfold sequence. destruct (Inbox.sequence_message _ _ _ _) as [ib [|e'|]]; intros [= _ H]. by subst e.
Qed.

Lemma finish_sequence_spec (st : AppState.t T) held ck st' resp :
  finish_sequence st held ck = (st', resp) ->
  SequenceResponse.sequence resp = SequenceReceipt.sequence held.2 /\ inbox st' = inbox st /\
  attestation_verifier st' = attestation_verifier st /\
  batcher st' = (fun h => fst (BatcherHandle.add_message h held.1 (now ck) (instant ck))) <$> batcher st.
Proof.
  unfold finish_sequence, to_batcher. destruct held as [m rc]. intros H. destruct (batcher st) as [h|] eqn:Eb.
  - destruct (BatcherHandle.add_message h m (now ck) (instant ck)) as [h' r] eqn:Ea. injection H as <- <-.
    cbn. rewrite Ea. split_and!; try done; by destruct r.
  - injection H as <- <-. cbn. rewrite Eb. by split_and!.
Qed.

(** C26. With an attestation verifier configured, nothing is sequenced for a caller
    without a valid token.  A changeset batch is acknowledged with 201 only if its token
    was verified under a key of the current key set for the configured audience, at the
    current time; the acknowledged number is the inbox's, the inbox moves on by one and
    the batcher gets exactly the message signed under that number.  A missing token, or
    one the verifier answers with an error, is a 401 with that error, and whoever is not
    admitted changes neither inbox nor batcher; and no other failure is reported as a
    401. *)
Theorem changesets_gated (st st' : AppState.t T) (request : ChangesetBatchRequest.t) (ck : Clock)
    (r : result (Z * string) (Z * SequenceResponse.t)) :
  let token := ChangesetBatchRequest.attestation_token request in
  receive_changesets st request ck = (st', r) ->
  (forall status resp, r = Ok (status, resp) ->
     admitted st token ck /\ status = CREATED /\
     SequenceResponse.sequence resp = Inbox.current_sequence (inbox st) /\
     Inbox.current_sequence (inbox st') = u64_add (Inbox.current_sequence (inbox st)) 1 /\
     exists payload message receipt, ser request = Ok payload /\
       Inbox.sequence_message (inbox st) (now ck) Changeset payload = (inbox st', Ok (message, receipt)) /\
       batcher st' = (fun h => fst (BatcherHandle.add_message h message (now ck) (instant ck))) <$> batcher st) /\
  (forall v e, attestation_verifier st = Some v -> refusal v token ck = Some e ->
     r = Err (UNAUTHORIZED, SequencerError_to_string e) /\ inbox st' = inbox st /\ batcher st' = batcher st) /\
  (~ admitted st token ck -> inbox st' = inbox st /\ batcher st' = batcher st) /\
  (forall body, r = Err (UNAUTHORIZED, body) ->
     exists v e, attestation_verifier st = Some v /\ refusal v token ck = Some e).
Proof.
  intros token H. pose proof (check_attestation_refusal st token ck) as Href. revert H.
  unfold receive_changesets, begin_changesets. fold token.
  destruct (check_attestation st token ck) as [st1 auth] eqn:Ea. cbn [snd] in Href.
  apply check_attestation_spec in Ea as (Hi & Hb & Hadm & Hun). intros H.
  destruct auth as [[]|e|w]; cbn [result_bind] in H.
  2: { injection H as <- <-. destruct (proj1 (Href e) eq_refl) as (v & Hv & Hr). specialize (Hun e eq_refl).
       split_and!; [done| |done|eauto]. intros v' e' Hv' Hr'. rewrite Hv in Hv'. injection Hv' as <-.
       rewrite Hr in Hr'. injection Hr' as <-. split; [|done]. unfold HttpError_from in *.
       cbn [fst] in Hun. by rewrite Hun. }
  2: { injection H as <- <-. split_and!; [done| |done|done]. intros v e Hv Hr. by pose proof (proj2 (Href e) (ex_intro _ v (conj Hv Hr))). }
  specialize (Hadm eq_refl).
  assert (Hno : forall v e, attestation_verifier st = Some v -> refusal v token ck = Some e -> False).
  { intros v e Hv Hr. by pose proof (proj2 (Href e) (ex_intro _ v (conj Hv Hr))). }
  destruct (ser request) as [payload|e|w] eqn:Es; cbn [map_err handle] in H.
  2, 3: injection H as <- <-; split_and!; [done|intros; by exfalso; eauto|done|done].
  destruct (sequence st1 Changeset payload ck) as [st2 [held|e|w]] eqn:Ep; cbn [handle] in H.
  - destruct (finish_sequence st2 held ck) as [st3 resp] eqn:Ef. injection H as <- <-.
    apply sequence_spec in Ep as (Hm & _ & Hb2 & Hrc & Hnx). apply finish_sequence_spec in Ef as (Hs & Hi3 & _ & Hb3).
    rewrite Hi in Hm, Hrc, Hnx. rewrite Hb2, Hb in Hb3. rewrite <- Hi3 in Hm, Hnx. destruct held as [m rc].
    split_and!; [|intros; by exfalso; eauto|done|done]. intros status resp' [= <- <-].
    split_and!; [done|done|by rewrite Hs|done|eauto 10].
  - injection H as <- <-. apply sequence_error in Ep. split_and!; [done|intros; by exfalso; eauto|done|].
    intros body Hr. injection Hr as Hr _. unfold HttpError_from in Ep. cbn [fst] in Ep. by rewrite Ep in Hr.
  - injection H as <- <-. split_and!; [done|intros; by exfalso; eauto|done|done].
Qed.

(** With [verify_tee_claims] on, the sequencer refuses every production token: it
    wants the debug status to be [disabled] (or absent), while the claim the guest, the
    bootstrap client and the on-chain verifier all demand is [disabled-since-boot]. *)
Theorem production_token_rejected (v v' : AttestationVerifier.t) (token : string) (now instant : Z) (n : nat)
    (kid : string) (jwks : Jwks.t) (jwk : JwkKey.t) (r : ValidationResult.t) :
  AttestationConfig.verify_tee_claims (AttestationVerifier.config v) = true ->
  extract_kid_from_jwt (as_bytes token) = Ok kid ->
  AttestationVerifier.get_jwks v instant n = (v', Ok jwks) ->
  snd <$> list_find (fun k => JwkKey.kid k = kid) (Jwks.keys jwks) = Some jwk ->
  verify_attestation (as_bytes token) jwk
    (Some (AttestationConfig.expected_audience (AttestationVerifier.config v))) (Some now) = Ok r ->
  ValidationResult.secboot r = true -> ValidationResult.dbgstat r = "disabled-since-boot"%string ->
  AttestationVerifier.verify v token now instant n = (v', Err AttestationError.DebugModeEnabled).
Proof.
  intros Ht Hk Hj Hf Hv Hs Hd. unfold AttestationVerifier.verify. rewrite Hk, Hj.
  pose proof (get_jwks_config v instant n) as Hc. rewrite Hj in Hc. cbn in Hc.
  cbn [result_bind]. unfold AttestationVerifier.verify_with. rewrite Hf. cbn [ok_or result_bind].
  rewrite Hc, Hv. cbn [map_err result_bind]. unfold AttestationVerifier.check_tee_claims.
  by rewrite Ht, Hs, Hd.
Qed.

(** ** Withdrawals *)

(** A withdrawal whose amount is a well-formed number of at least 2^128 leaves a
    hole in the sequence: it passes the endpoint's validation, takes a number and is
    signed under it; then the Bridge signature fails, the reply is an error and the
    message never reaches the batcher. *)
Theorem oversized_withdrawal_leaves_gap (st st' : AppState.t T) (request : WithdrawalRequest.t) (ck : Clock)
    (payload : bytes) (message : CborSignedMessage.t) (receipt : SequenceReceipt.t) (e : string) (id target : bytes)
    (r : result (Z * string) (Z * WithdrawalResponse.t)) :
  check_withdrawal request = Ok tt -> ser request = Ok payload ->
  snd (Inbox.sequence_message (inbox st) (now ck) Withdrawal payload) = Ok (message, receipt) ->
  Inbox.parse_message_id (WithdrawalRequest.request_id request) = Ok id ->
  Inbox.parse_target (WithdrawalRequest.recipient request) = Ok target ->
  parse_u128 (WithdrawalRequest.amount request) = Err e ->
  receive_withdrawal st request ck = (st', r) ->
  (exists body, r = Err (INTERNAL_SERVER_ERROR, body)) /\
  SequenceReceipt.sequence receipt = Inbox.current_sequence (inbox st) /\
  Inbox.current_sequence (inbox st') = u64_add (Inbox.current_sequence (inbox st)) 1 /\
  batcher st' = batcher st.
Proof.
  intros Hc Hs Hm Hid Hta Hp H. unfold receive_withdrawal, begin_withdrawal in H. rewrite Hc in H. cbn [result_bind] in H.
  rewrite Hs in H. cbn [map_err] in H. unfold sequence in H.
  assert (Hsq : SequenceReceipt.sequence receipt = Inbox.current_sequence (inbox st)).
  { unfold Inbox.sequence_message, Inbox.sign_sequenced in Hm. cbn [snd] in Hm. ok_inv. by simplify_eq. }
  destruct (Inbox.sequence_message (inbox st) (now ck) Withdrawal payload) as [ib rr] eqn:Em.
  cbn [snd] in Hm. subst rr. cbn [inbox with_inbox] in H.
  unfold Inbox.sign_bridge_withdrawal in H. rewrite Hid, Hta, Hp in H. cbn in H. injection H as <- <-.
  split_and!; [by eexists|done| |done]. cbn. unfold Inbox.sequence_message in Em. by injection Em as <- _.
Qed.

(** A withdrawal with a malformed recipient, amount or id is a 400 and leaves the whole
    state as it was. *)
Lemma invalid_withdrawal_changes_nothing (st : AppState.t T) (request : WithdrawalRequest.t) (ck : Clock) (e : SequencerError) :
  check_withdrawal request = Err e ->
  exists body, receive_withdrawal st request ck = (st, Err (BAD_REQUEST, body)).
Proof.
  intros H. unfold receive_withdrawal, begin_withdrawal. rewrite H. cbn [result_bind]. unfold check_withdrawal in H.
  destruct (negb (valid_recipient _)); [injection H as <-; by eexists|].
  destruct (negb (valid_amount _)); [injection H as <-; by eexists|].
  case_bool_decide; [injection H as <-; by eexists|done].
Qed.

End gate.

(** ** Reading the inbound queue page by page *)
Section paging.
Context `{JV : JsonValue}.
Import MessageApiState.

Definition page (query : GetMessagesQuery.t) : nat := Z.to_nat (Z.min (GetMessagesQuery.limit query) 1000).

Lemma selected_length q query n : (length (selected q query n) <= n)%nat.
Proof.
  unfold selected. destruct (GetMessagesQuery.pending_only query).
  - destruct (GetMessagesQuery.message_type query); [|rewrite length_take; lia].
    rewrite List.filter_length_le. unfold MessageQueue.get_pending_by_type. rewrite length_take. lia.
  - rewrite length_take. lia.
Qed.

(** Every pending message older than the page is on the first [limit + 1] pending ones:
    what a cursor past them can see. *)
Lemma pending_page_old q after_id limit :
  let query := GetMessagesQuery.mk after_id limit None true in
  Forall (fun m => InboundMessage.id m <= after_id) (MessageQueue.get_pending_messages q (page query + 1)) ->
  selected q query (page query) = [].
Proof.
  cbv zeta. intros HF. unfold selected. cbn [GetMessagesQuery.pending_only GetMessagesQuery.message_type].
  set (query := GetMessagesQuery.mk after_id limit None true) in *.
  enough (E : List.filter (after query) (MessageQueue.get_pending_messages q (page query + 1)) = [])
    by (rewrite E; apply take_nil).
  induction HF as [|m l Hm _ IH]; [done|]. cbn [List.filter]. unfold after at 1. cbn [GetMessagesQuery.after_id query].
  by rewrite (proj2 (Z.ltb_ge _ _) Hm).
Qed.

(** The listing never says that there is more: [has_more] is false whatever is
    left in the queue, because the page is cut to the limit before it is compared with
    it; and with the default [pending_only], a cursor behind the first [limit + 1]
    pending messages gets an empty page even when later messages are pending. *)
Theorem message_paging_incomplete (st : MessageApiState.t) (query : GetMessagesQuery.t) (after_id limit : Z) :
  GetMessagesResponse.has_more (get_inbound_messages st query) = false /\
  (let q := GetMessagesQuery.mk after_id limit None true in
   Forall (fun m => InboundMessage.id m <= after_id)
     (MessageQueue.get_pending_messages (queue st) (page q + 1)) ->
   GetMessagesResponse.messages (get_inbound_messages st q) = []).
Proof.
  split.
  - unfold get_inbound_messages. cbn. apply Nat.ltb_ge. rewrite length_map. apply selected_length.
  - cbv zeta. intros HF. pose proof (pending_page_old (queue st) after_id limit HF) as Hp.
    unfold get_inbound_messages. unfold page in Hp. cbv zeta. rewrite Hp. apply take_nil.
Qed.
End paging.
