(* ===== verification/SequencerProps.v ===== *)
(** * Properties of the sequencer's process (crates/synddb-sequencer/src/main.rs)

    A process that serves requests over a transport it shares with those before it:
    what its batcher publishes, and the numbers the next process starts from. *)
From Stdlib Require Import Ascii Strings.Byte.
From S2P Require Import Prelude RustStd BTree Batches Extern Net Cose CborBatches SignedTypes SyncIndex.
From S2P Require Import Inbox InboxProps WireProps Transport TransportProps Batcher BatcherProps MessageQueue.
From S2P Require Import Outbound StateStore Applier AuditTrail Validator HttpFetcher Cloud CloudProps Jwt.
From S2P Require Import BootClients SeqApi MessageApi SequencerMain SeqApiProps.
Import AppState.

(** ** The numbers of what is stored *)
Section numbering.
Context `{HX : Hex} `{CR : Crypto} `{CS : Cose} `{CC : !CoseCodec}.

(** The stored messages are numbered in order, each within its batch, below [n]. *)
Record numbered (n : Z) (bs : list CborBatch.t) : Prop := {
  num_sorted : StronglySorted Z.lt (map seq_of (published bs));
  num_within : Forall (fun b => Forall (fun m => seq_of m <= CborBatch.end_sequence b) (CborBatch.messages b)) bs;
  num_below : Forall (fun b => CborBatch.end_sequence b < n) bs;
}.

Lemma range_within ms b :
  StronglySorted (fun a b => seq_of a < seq_of b) ms -> CborBatch.messages b = ms -> range_ok b ->
  Forall (fun m => seq_of m <= CborBatch.end_sequence b) ms.
Proof.
  intros Hs Hm [_ Hl]. rewrite Hm in Hl. destruct (last ms) as [l|] eqn:El; [|done]. injection Hl as Hl.
  apply last_Some in El as [ms' ->]. apply Forall_app_2.
  - apply Forall_forall. intros m Hin. rewrite <- Hl.
    pose proof (StronglySorted_app_1_elem_of _ _ _ m l Hs Hin). set_solver by lia.
  - apply Forall_singleton. lia.
Qed.

Lemma published_sub (bs : list CborBatch.t) b : b ∈ bs -> CborBatch.messages b ⊆ published bs.
Proof.
  intros Hb m Hm. apply list_elem_of_In, in_concat. exists (CborBatch.messages b).
  split; apply list_elem_of_In; [by apply list_elem_of_fmap_2|done].
Qed.

Lemma sorted_batch (bs : list CborBatch.t) b :
  StronglySorted (fun a b => seq_of a < seq_of b) (published bs) -> b ∈ bs ->
  StronglySorted (fun a b => seq_of a < seq_of b) (CborBatch.messages b).
Proof.
  unfold published. induction bs as [|a bs IH]; cbn; intros Hs Hb; [set_solver|].
  apply elem_of_cons in Hb as [->|Hb]; [by eapply StronglySorted_app_1_l|].
  apply IH; [by eapply StronglySorted_app_1_r|done].
Qed.

Lemma sorted_map (ms : list CborSignedMessage.t) :
  StronglySorted (fun a b => seq_of a < seq_of b) ms -> StronglySorted Z.lt (map seq_of ms).
Proof. induction 1 as [|m ms _ IH Hf]; cbn; constructor; [done|]. by apply Forall_fmap. Qed.

Lemma numbered_grows vk bs0 n n' bs rest :
  numbered n bs0 -> good_after bs0 vk (published bs ++ rest) -> Forall range_ok bs ->
  Forall (fun m => seq_of m < n') (published bs ++ rest) -> n <= n' -> numbered n' (bs0 ++ bs).
Proof.
  intros [Hs0 Hw0 Hb0] Hg Hr Hlt Hn. apply good_after_app_l in Hg as [[_ Hsort] Hafter].
  apply Forall_app in Hlt as [Hlt _].
  assert (Hw : Forall (fun b => Forall (fun m => seq_of m <= CborBatch.end_sequence b) (CborBatch.messages b)) bs).
  { apply Forall_forall. intros b Hb. rewrite Forall_forall in Hr.
    eapply range_within; [by eapply sorted_batch|done|by apply Hr]. }
  split.
  - unfold published. rewrite map_app, concat_app, map_app. apply StronglySorted_app_2; [|done|by apply sorted_map].
    intros x y Hx Hy. apply list_elem_of_fmap in Hx as (m & -> & Hm). apply list_elem_of_fmap in Hy as (m' & -> & Hm').
    apply list_elem_of_In, in_concat in Hm as (l & Hl & Hm). apply list_elem_of_In, list_elem_of_fmap in Hl as (a & -> & Ha).
    rewrite Forall_forall in Hw0, Hafter. specialize (Hw0 a Ha). specialize (Hafter a Ha). rewrite Forall_forall in Hw0, Hafter.
    apply list_elem_of_In in Hm. specialize (Hw0 m Hm). specialize (Hafter m' Hm'). lia.
  - by apply Forall_app_2.
  - apply Forall_app_2; [eapply Forall_impl; [exact Hb0|]; cbn; lia|]. apply Forall_forall. intros b Hb.
    destruct (proj1 (Forall_forall _ _) Hr b Hb) as [_ Hl].
    destruct (last (CborBatch.messages b)) as [m|] eqn:El; [|done]. injection Hl as <-.
    apply (proj1 (Forall_forall _ _) Hlt), (published_sub _ b); [done|]. by apply last_Some_elem_of.
Qed.
End numbering.

(** The requests that change the state or ask the batcher. *)
Inductive ApiCall :=
| CallChangesets (r : ChangesetBatchRequest.t)
| CallWithdrawal (r : WithdrawalRequest.t)
| CallSnapshot (r : SnapshotRequest.t)
| CallReady
| CallStats
| CallFlush.

(** A handler between its two parts, with what it keeps across the [await]. *)
Inductive Waiting :=
| WaitSequence (held : Held)
| WaitWithdrawal (held : Held * BridgeSignature.t).
Definition held_of (w : Waiting) : Held := match w with WaitSequence h => h | WaitWithdrawal h => h.1 end.
Definition held_message (w : Waiting) : CborSignedMessage.t := (held_of w).1.
Definition held_number (w : Waiting) : Z := SequenceReceipt.sequence (held_of w).2.

(** What wakes the process up: a request arrives, and its handler runs up to its
    [await]; the batcher takes the message of the [i]-th waiting handler, which then
    replies; that handler is dropped with its connection; the batcher's timer.  The
    attestation check of a handler is taken with its number: it touches nothing but the
    verifier's caches. *)
Inductive ProcessEvent :=
| Arrive (c : ApiCall) (ck : Clock)
| Resume (i : nat) (ck : Clock)
| Cancel (i : nat)
| FlushTimer (ck : Clock).

Definition clock_ok (e : ProcessEvent) : Prop :=
  match e with Arrive _ ck | Resume _ ck | FlushTimer ck => is_u64 (now ck) | Cancel _ => True end.

(** The batcher takes the messages in the order of their numbers.  The code does not
    ensure it: see [overtaking_reuses_number]. *)
Definition in_order (e : ProcessEvent) : Prop := match e with Resume i _ => i = 0%nat | _ => True end.

Section serving.
Context `{HX : Hex} `{CR : Crypto} `{SG : !Signer} `{CS : Cose} `{CC : !CoseCodec} `{ZS : Zstd}.
Context `{HN : HttpNet} `{JK : FromJson Jwks.t} `{JD : FromJson OidcDiscovery.t}.
Context `{JH : FromJson JwtHeader.t} `{JC : FromJson GcpCsClaims.t} `{JM : FromJson MinimalHeader.t}.
Context `{RS : Rsa}.
Context `{SC : Serde ChangesetBatchRequest.t} `{SN : Serde SnapshotRequest.t} `{SWd : Serde WithdrawalRequest.t}.
Context `{SW : Serde CborBatchWire.t}.
Context {T : Type} `{TP : TransportPublisher T} {log : T -> list CborBatch.t -> Prop}.
Implicit Types (st : AppState.t T).

(** The state the handlers share, and the handlers that wait, oldest number first. *)
Record Running := mkRunning { shared : AppState.t T; waiting : list Waiting }.

(** The second part of a handler: the number its reply of 201 carries, with the warning. *)
Definition finish st (w : Waiting) (ck : Clock) : AppState.t T * (Z * option string) :=
  match w with
  | WaitSequence held =>
      let '(st, resp) := finish_sequence st held ck in
      (st, (SequenceResponse.sequence resp, SequenceResponse.batch_warning resp))
  | WaitWithdrawal held =>
      let '(st, resp) := finish_withdrawal st held ck in
      (st, (WithdrawalResponse.sequence resp, WithdrawalResponse.batch_warning resp))
  end.

(** The first part: a handler that got its number waits. *)
Definition wait {H} (p : Running) (wrap : H -> Waiting) (first : AppState.t T * result SequencerError H) : Running :=
  mkRunning first.1 (waiting p ++ match first.2 with Ok held => [wrap held] | _ => [] end).

Definition arrive (p : Running) (c : ApiCall) (ck : Clock) : Running :=
  let st := shared p in
  match c with
  | CallChangesets r => wait p WaitSequence (begin_changesets st r ck)
  | CallWithdrawal r => wait p WaitWithdrawal (begin_withdrawal st r ck)
  | CallSnapshot r => wait p WaitSequence (begin_snapshot st r ck)
  | CallReady => mkRunning (readiness_check st ck).1 (waiting p)
  | CallStats => mkRunning (batch_stats st ck).1 (waiting p)
  | CallFlush => mkRunning (batch_flush st ck).1 (waiting p)
  end.

Definition timer st (ck : Clock) : AppState.t T :=
  match batcher st with
  | Some h => with_batcher st (BatcherHandle.tick h (now ck) (instant ck))
  | None => st
  end.

Definition process_event (p : Running) (e : ProcessEvent) : Running * list (Z * option string) :=
  match e with
  | Arrive c ck => (arrive p c ck, [])
  | Resume i ck =>
      match waiting p !! i with
      | Some w => let '(st, receipt) := finish (shared p) w ck in (mkRunning st (delete i (waiting p)), [receipt])
      | None => (p, [])
      end
  | Cancel i => (mkRunning (shared p) (delete i (waiting p)), [])
  | FlushTimer ck => (mkRunning (timer (shared p) ck) (waiting p), [])
  end.

Fixpoint process_events (p : Running) (evs : list ProcessEvent) : Running * list (Z * option string) :=
  match evs with
  | [] => (p, [])
  | e :: evs =>
      let '(p, receipts) := process_event p e in
      let '(p, rs) := process_events p evs in (p, receipts ++ rs)
  end.

Section invariant.
Context {HL : HexLaws} {CL : CryptoLaws} {GL : SignerLaws} {KL : CoseLaws} {ZL : ZstdLaws}.
Context {SL : SerdeLaws CborBatchWire.t CborBatchWire.valid} {L : TransportLaws T log}.
Context (km : EvmKeyManager.t) (vk : VerifyingKey).
Context (Hk : key_bytes vk (EvmKeyManager.public_key km)) (Hav : signer_available km).
Context (bs0 : list CborBatch.t).

(** The batches held before, the messages added since and those of the waiting handlers
    are numbered in order, below the number the inbox hands out next. *)
Record app_inv st (added held : list CborSignedMessage.t) : Prop := {
  inv_key : Inbox.key_manager (inbox st) = km;
  inv_next : 0 <= Inbox.sequence (inbox st);
  inv_batcher : exists h, batcher st = Some h /\ BatcherHandle.running h = true /\
    batcher_inv (log := log) bs0 km vk (BatcherHandle.task h) added;
  inv_good : good_after bs0 vk (added ++ held);
  inv_added : Forall (fun m => seq_of m < Inbox.sequence (inbox st)) (added ++ held);
  inv_base : Forall (fun a => CborBatch.end_sequence a < Inbox.sequence (inbox st)) bs0;
}.

Lemma good_after_sublist l1 l2 : sublist l1 l2 -> good_after bs0 vk l2 -> good_after bs0 vk l1.
Proof.
  intros Hsub [[Hf Hs] Hb]. split; [split|].
  - rewrite Forall_forall in Hf |- *. intros m Hm. apply Hf. by eapply elem_of_sublist.
  - clear Hf Hb. induction Hsub as [|x l1 l2 Hsub IH|x l1 l2 Hsub IH]; [constructor| |];
      apply StronglySorted_inv in Hs as [Hs Hx]; [|auto]. constructor; [auto|].
    rewrite Forall_forall in Hx |- *. intros m Hm. apply Hx. by eapply elem_of_sublist.
  - eapply Forall_impl; [exact Hb|]. cbn. intros a Ha. rewrite Forall_forall in Ha |- *. intros m Hm.
    apply Ha. by eapply elem_of_sublist.
Qed.

(** One more message, under the next number. *)
Lemma good_after_snoc added m sm n :
  good_after bs0 vk added -> message_ok vk m sm -> SignedMessage.sequence sm = n -> n <= i64_max ->
  Forall (fun m => seq_of m < n) added -> Forall (fun a => CborBatch.end_sequence a < n) bs0 ->
  good_after bs0 vk (added ++ [m]).
Proof.
  intros [[Hf Hs] Hb] Hm Hn Hle Ha Hbase. rewrite <- Hn, <- (message_ok_seq _ _ _ Hm) in *.
  split; [split|].
  - apply Forall_app_2; [done|]. apply Forall_singleton. exists sm. split; [done|]. by rewrite <- (message_ok_seq _ _ _ Hm).
  - apply StronglySorted_app_2; [|done|by repeat constructor].
    intros a b Hin ->%list_elem_of_singleton. rewrite Forall_forall in Ha. by apply Ha.
  - apply Forall_forall. intros a Hin. rewrite Forall_forall in Hb, Hbase. apply Forall_app_2; [by apply Hb|].
    apply Forall_singleton. by apply Hbase.
Qed.

(** What the inbox hands out. *)
Lemma inbox_next ib ty payload now :
  Inbox.key_manager ib = km -> 0 <= Inbox.sequence ib <= i64_max -> is_u64 now ->
  exists m rc sm,
    Inbox.sequence_message ib now ty payload = (Inbox.with_start_sequence km (Inbox.sequence ib + 1), Ok (m, rc)) /\
    SequenceReceipt.sequence rc = Inbox.sequence ib /\
    message_ok vk m sm /\ SignedMessage.sequence sm = Inbox.sequence ib.
Proof using HL CL GL KL ZL Hk Hav.
  intros Hkm Hle Hnow. unfold Inbox.sequence_message. rewrite Hkm.
  assert (Hu : is_u64 (Inbox.sequence ib)) by (unfold is_u64, i64_max in *; lia).
  destruct (sequenced_message_ok km vk (Inbox.sequence ib) now ty payload)
    as (m & rc & c & sm & Hs & Hm & Hsq & _); [done..|].
  rewrite Hs. exists m, rc, sm. split; [|split_and!; [|done..]].
  - unfold Inbox.with_start_sequence, u64_add. do 2 f_equal. apply Z.mod_small. unfold i64_max in Hle. lia.
  - destruct (sign_sequenced_spec km (Inbox.sequence ib) now ty payload vk)
      as (m' & sg & c' & hb & _ & _ & Hs' & _); [done..|]. rewrite Hs in Hs'. by injection Hs' as _ ->.
Qed.

(** A handler that takes its number joins those that wait. *)
Lemma sequence_inv st added held ty payload ck :
  app_inv st added held -> Inbox.sequence (inbox st) <= i64_max -> is_u64 (now ck) ->
  exists st' h, sequence st ty payload ck = (st', Ok h) /\ app_inv st' added (held ++ [h.1]) /\
    Inbox.sequence (inbox st') = Inbox.sequence (inbox st) + 1 /\ SequenceReceipt.sequence h.2 = seq_of h.1.
Proof using HL CL GL KL ZL Hk Hav.
  intros [Hkm Hn Hb Hg Ha Hbase] Hle Hnow. unfold sequence.
  destruct (inbox_next (inbox st) ty payload (now ck)) as (m & rc & sm & -> & Hrc & Hm & Hsq); [done..|].
  eexists _, (m, rc). split; [reflexivity|]. cbn. rewrite Hrc, (message_ok_seq _ _ _ Hm), Hsq. split_and!; [|done..].
  split; cbn; rewrite ?app_assoc; auto with lia.
  - by eapply good_after_snoc; eauto.
  - apply Forall_app_2; [eapply Forall_impl; [exact Ha|]; cbn; lia|]. apply Forall_singleton.
    rewrite (message_ok_seq _ _ _ Hm). lia.
  - eapply Forall_impl; [exact Hbase|]. cbn. lia.
Qed.

(** The batcher takes the message of the first of those that wait. *)
Lemma to_batcher_inv st added held m ck :
  app_inv st added (m :: held) -> is_u64 (now ck) ->
  exists st', to_batcher st m ck = (st', None) /\ app_inv st' (added ++ [m]) held /\ inbox st' = inbox st.
Proof using HL CL GL KL ZL SL L Hk Hav.
  intros [Hkm Hn (h & Hb & Hrun & Hbi) Hg Ha Hbase] Hnow. rewrite cons_middle, app_assoc in Hg, Ha.
  unfold to_batcher. rewrite Hb. unfold BatcherHandle.add_message, BatcherHandle.call. rewrite Hrun.
  destruct (add_message_inv (L := L) bs0 km (BatcherHandle.task h) added vk m (now ck) (instant ck))
    as (b' & Hadd & Hb'); [done|by eapply good_after_app_l|done..|].
  cbn [Batcher.step]. rewrite Hadd. cbn. eexists. split; [reflexivity|]. split; [|done].
  split; cbn; auto. eexists. split; [reflexivity|]. by split.
Qed.

Lemma with_batcher_inv st added held h :
  app_inv st added held -> BatcherHandle.running h = true ->
  batcher_inv (log := log) bs0 km vk (BatcherHandle.task h) added -> app_inv (with_batcher st h) added held.
Proof. intros [] Hr Hb. split; cbn; eauto. Qed.

(** A command that adds nothing and does not stop the task. *)
Lemma command_inv {A} st added held h cmd ck (answer : BatcherResponse -> result BatcherError A) :
  app_inv st added held -> batcher st = Some h -> is_u64 (now ck) ->
  event_messages (Recv cmd (now ck) (instant ck)) = [] -> is_shutdown (Recv cmd (now ck) (instant ck)) = false ->
  (forall resp w, response_ok resp = true -> answer resp <> Panic w) ->
  app_inv (with_batcher st (fst (BatcherHandle.call h cmd (now ck) (instant ck) answer))) added held.
Proof using HL CL GL KL ZL SL L Hk Hav.
  intros Hinv Hb Hnow Hev Hsh Hans. pose proof Hinv as [_ _ (h0 & Hb0 & Hrun & Hbi) Hg _ _].
  apply good_after_app_l in Hg. rewrite Hb in Hb0. injection Hb0 as <-. unfold BatcherHandle.call. rewrite Hrun.
  destruct (step_inv (L := L) km vk Hk Hav bs0 (BatcherHandle.task h) added (Recv cmd (now ck) (instant ck)))
    as (b' & resp & -> & Hok & Hb' & _); [done | by rewrite Hev, app_nil_r | done |].
  rewrite Hev, app_nil_r in Hb'. rewrite Hsh. specialize (Hans resp).
  destruct (answer resp) as [a|e|w]; [| |by destruct (Hans w)]; by apply with_batcher_inv.
Qed.

Lemma timer_inv st added held ck :
  app_inv st added held -> is_u64 (now ck) -> app_inv (timer st ck) added held.
Proof using HL CL GL KL ZL SL L Hk Hav.
  intros Hinv Hnow. pose proof Hinv as [_ _ (h & Hb & Hrun & Hbi) Hg _ _]. apply good_after_app_l in Hg.
  unfold timer. rewrite Hb. unfold BatcherHandle.tick. rewrite Hrun.
  destruct (step_inv (L := L) km vk Hk Hav bs0 (BatcherHandle.task h) added (Tick (now ck) (instant ck)))
    as (b' & resp & -> & _ & Hb' & _); [done | by rewrite app_nil_r | done |].
  rewrite app_nil_r in Hb'. by apply with_batcher_inv.
Qed.

Lemma attest_inv st added held token ck :
  app_inv st added held ->
  exists st' r, check_attestation st token ck = (st', r) /\ app_inv st' added held /\ inbox st' = inbox st.
Proof.
  intros [H1 H2 H3 H4 H5 H6]. destruct (check_attestation st token ck) as [st' r] eqn:E.
  apply check_attestation_spec in E as (Hi & Hb & _). exists st', r. split; [done|]. split; [|done].
  split; rewrite ?Hi, ?Hb; auto.
Qed.

(** The process: each waiting handler holds its message's number. *)
Definition running_inv (p : Running) (added : list CborSignedMessage.t) : Prop :=
  app_inv (shared p) added (map held_message (waiting p)) /\
  Forall (fun w => held_number w = seq_of (held_message w)) (waiting p).

Abbreviation next p := (Inbox.sequence (inbox (shared p))).

(** What one event does: the reply carries a number exactly when a message was added,
    that message's number, without a warning. *)
Definition advances (p : Running) (p' : Running * list (Z * option string)) (added : list CborSignedMessage.t) : Prop :=
  exists ms, running_inv p'.1 (added ++ ms) /\ p'.2 = map (fun m => (seq_of m, None)) ms /\
    next p <= next p'.1 <= next p + 1.

Lemma advances_same p p' added :
  running_inv p' added -> next p <= next p' <= next p + 1 -> advances p (p', []) added.
Proof. intros. exists []. by rewrite app_nil_r. Qed.

Lemma map_delete {A B} (f : A -> B) (l : list A) : forall i, map f (delete i l) = delete i (map f l).
Proof. induction l as [|x l IH]; intros [|i]; cbn; [done..|]. by rewrite <- IH. Qed.

(** A request that fails in its first part, and one that gets its number. *)
Lemma wait_none {H} p added (wrap : H -> Waiting) first :
  running_inv p added -> is_ok first.2 = false -> app_inv first.1 added (map held_message (waiting p)) ->
  next p <= Inbox.sequence (inbox first.1) <= next p + 1 -> advances p (wait p wrap first, []) added.
Proof.
  intros [_ Hw] Hno Hinv Hs. apply advances_same; [|done]. destruct first as [st' [h|e|w]]; [done|..];
    (split; cbn; rewrite app_nil_r; done).
Qed.
Lemma wait_some {H} p added (wrap : H -> Waiting) st' h :
  running_inv p added -> app_inv st' added (map held_message (waiting p) ++ [held_message (wrap h)]) ->
  held_number (wrap h) = seq_of (held_message (wrap h)) ->
  Inbox.sequence (inbox st') = next p + 1 -> advances p (wait p wrap (st', Ok h), []) added.
Proof.
  intros [_ Hw] Hinv Hn Hs. apply advances_same; [|cbn; lia]. split; cbn.
  - by rewrite map_app.
  - apply Forall_app_2; [done|]. by apply Forall_singleton.
Qed.

Lemma changesets_inv p added r ck :
  running_inv p added -> next p <= i64_max -> is_u64 (now ck) ->
  advances p (arrive p (CallChangesets r) ck, []) added.
Proof using HL CL GL KL ZL Hk Hav.
  intros Hp Hle Hnow. cbn [arrive]. unfold begin_changesets.
  destruct (attest_inv _ _ _ (ChangesetBatchRequest.attestation_token r) ck (proj1 Hp)) as (st1 & a & -> & Hinv1 & Hi).
  rewrite <- Hi in Hle. destruct (result_bind _ _) as [payload|e|w].
  - destruct (sequence_inv st1 _ _ Changeset payload ck Hinv1 Hle Hnow) as (st2 & h & -> & Hinv2 & Hs & Hh).
    apply wait_some; [done..|by rewrite Hs, Hi].
  - apply wait_none; [done..|]. cbn. rewrite Hi. lia.
  - apply wait_none; [done..|]. cbn. rewrite Hi. lia.
Qed.

Lemma snapshot_inv p added r ck :
  running_inv p added -> next p <= i64_max -> is_u64 (now ck) ->
  advances p (arrive p (CallSnapshot r) ck, []) added.
Proof using HL CL GL KL ZL Hk Hav.
  intros Hp Hle Hnow. cbn [arrive]. unfold begin_snapshot.
  destruct (attest_inv _ _ _ (SnapshotRequest.attestation_token r) ck (proj1 Hp)) as (st1 & a & -> & Hinv1 & Hi).
  rewrite <- Hi in Hle. destruct (result_bind _ _) as [payload|e|w].
  - destruct (sequence_inv st1 _ _ Snapshot payload ck Hinv1 Hle Hnow) as (st2 & h & -> & Hinv2 & Hs & Hh).
    apply wait_some; [done..|by rewrite Hs, Hi].
  - apply wait_none; [done..|]. cbn. rewrite Hi. lia.
  - apply wait_none; [done..|]. cbn. rewrite Hi. lia.
Qed.

Lemma app_inv_sublist st added held held' : sublist held' held -> app_inv st added held -> app_inv st added held'.
Proof.
  intros Hsub [H1 H2 H3 H4 H5 H6]. assert (Hs : sublist (added ++ held') (added ++ held)) by (by apply sublist_app).
  split; [done..| | |done]; [by eapply good_after_sublist|].
  rewrite Forall_forall in H5 |- *. intros m Hm. apply H5. by eapply elem_of_sublist.
Qed.

Lemma withdrawal_inv p added r ck :
  running_inv p added -> next p <= i64_max -> is_u64 (now ck) ->
  advances p (arrive p (CallWithdrawal r) ck, []) added.
Proof using HL CL GL KL ZL Hk Hav.
  intros Hp Hle Hnow. cbn [arrive]. unfold begin_withdrawal. destruct (result_bind _ _) as [payload|e|w];
    [|apply wait_none; [done|done|apply Hp|cbn; lia]..].
  destruct (sequence_inv _ _ _ Withdrawal payload ck (proj1 Hp) Hle Hnow) as (st2 & h & -> & Hinv2 & Hs & Hh).
  cbn [result_bind]. destruct (Inbox.sign_bridge_withdrawal _ _ _ _ _) as [sig|e|w]; cbn [map_err result_bind].
  - by apply wait_some.
  - apply wait_none; [done..| |cbn; lia]. eapply app_inv_sublist; [|exact Hinv2]. by apply sublist_inserts_r.
  - apply wait_none; [done..| |cbn; lia]. eapply app_inv_sublist; [|exact Hinv2]. by apply sublist_inserts_r.
Qed.

Lemma finish_inv st added held w ck :
  app_inv st added (held_message w :: held) -> held_number w = seq_of (held_message w) -> is_u64 (now ck) ->
  exists st', finish st w ck = (st', (seq_of (held_message w), None)) /\
    app_inv st' (added ++ [held_message w]) held /\ inbox st' = inbox st.
Proof using HL CL GL KL ZL SL L Hk Hav.
  intros Hinv Hn Hnow. destruct (to_batcher_inv st added held (held_message w) ck Hinv Hnow) as (st' & Hto & Hinv' & Hi).
  exists st'. split; [|done]. rewrite <- Hn.
  destruct w as [[m rc]|[[m rc] sig]]; cbn in *; by rewrite Hto.
Qed.

Lemma process_event_inv p added e :
  running_inv p added -> next p <= i64_max -> clock_ok e -> in_order e -> advances p (process_event p e) added.
Proof using HL CL GL KL ZL SL L Hk Hav.
  intros Hp Hle Hnow Hord. pose proof Hp as [Hinv Hw]. pose proof Hinv as [_ _ (h & Hb & _) _ _ _].
  destruct e as [[r|r|r| | |] ck|i ck|i|ck]; cbn [process_event clock_ok in_order] in *.
  - by apply changesets_inv.
  - by apply withdrawal_inv.
  - by apply snapshot_inv.
  - apply advances_same; cbn; unfold readiness_check, batcher_check; rewrite Hb.
    + split; [|done]. pose proof (command_inv (shared p) added _ h GetStats ck
        (fun resp => match resp with RespStats s => Ok s | _ => Err ChannelClosed end) Hinv Hb Hnow) as Hc.
      unfold BatcherHandle.stats. destruct (BatcherHandle.call _ _ _ _ _) as [h' rr]. apply Hc; try done. by intros [].
    + by destruct (BatcherHandle.stats _ _ _); cbn; lia.
  - apply advances_same; cbn; unfold batch_stats; rewrite Hb.
    + split; [|done]. pose proof (command_inv (shared p) added _ h GetStats ck
        (fun resp => match resp with RespStats s => Ok s | _ => Err ChannelClosed end) Hinv Hb Hnow) as Hc.
      unfold BatcherHandle.stats. destruct (BatcherHandle.call _ _ _ _ _) as [h' rr]. apply Hc; try done. by intros [].
    + by destruct (BatcherHandle.stats _ _ _); cbn; lia.
  - apply advances_same; cbn; unfold batch_flush; rewrite Hb.
    + split; [|done]. pose proof (command_inv (shared p) added _ h Flush ck
        (fun resp => match resp with RespFlush r => r | _ => Err ChannelClosed end) Hinv Hb Hnow) as Hc.
      unfold BatcherHandle.flush. destruct (BatcherHandle.call _ _ _ _ _) as [h' rr]. apply Hc; try done.
      by intros [|[] | |].
    + by destruct (BatcherHandle.flush _ _ _); cbn; lia.
  - subst i. destruct (waiting p) as [|w ws] eqn:Ew; cbn; [apply advances_same; [done|lia]|].
    apply Forall_cons in Hw as [Hn Hw].
    destruct (finish_inv (shared p) added (map held_message ws) w ck Hinv Hn Hnow) as (st' & -> & Hinv' & Hi).
    exists [held_message w]. cbn. rewrite Hi. split; [by split|split; [done|lia]].
  - apply advances_same; [|cbn; lia]. split; cbn.
    + eapply app_inv_sublist; [|exact Hinv]. rewrite map_delete. apply sublist_delete.
    + by apply Forall_delete.
  - apply advances_same; [split; [by apply timer_inv|done]|]. cbn. unfold timer. rewrite Hb. cbn. lia.
Qed.

Lemma process_events_inv evs : forall p added,
  running_inv p added -> next p + Z.of_nat (length evs) <= i64_max + 1 ->
  Forall clock_ok evs -> Forall in_order evs ->
  exists p' ms, process_events p evs = (p', map (fun m => (seq_of m, None)) ms) /\ running_inv p' (added ++ ms) /\
    next p <= next p' <= next p + Z.of_nat (length evs).
Proof using HL CL GL KL ZL SL L Hk Hav.
  induction evs as [|e evs IH]; intros p added Hinv Hlen Hclk Hord; cbn [process_events length] in *.
  - exists p, []. rewrite app_nil_r. split; [done|split; [done|lia]].
  - apply Forall_cons in Hclk as [Hc Hclk]. apply Forall_cons in Hord as [Ho Hord].
    destruct (process_event_inv p added e) as (ms & Hinv1 & Hr & Hs); [done|lia|done|done|].
    destruct (process_event p e) as [p1 rs1]. cbn in Hinv1, Hr, Hs. subst rs1.
    destruct (IH _ _ Hinv1) as (p' & ms' & -> & Hinv' & Hs'); [lia|done|done|].
    exists p', (ms ++ ms'). rewrite map_app, app_assoc. split; [done|split; [done|lia]].
Qed.

(** How a process ends: the task may get to take the command. *)
Definition ended st (stopped : option Clock) : AppState.t T :=
  match stopped, batcher st with
  | Some ck, Some h => with_batcher st (BatcherHandle.take_shutdown h (now ck) (instant ck))
  | _, _ => st
  end.

(** What is stored when a process that started with [bs0] has ended. *)
Lemma ended_stores n st added held stopped :
  app_inv st added held -> numbered n bs0 -> n <= Inbox.sequence (inbox st) ->
  (forall ck, stopped = Some ck -> is_u64 (now ck)) ->
  exists h bs, batcher (ended st stopped) = Some h /\ log (Batcher.transport (BatcherHandle.task h)) (bs0 ++ bs) /\
    numbered (Inbox.sequence (inbox st)) (bs0 ++ bs) /\ published bs `prefix_of` added /\
    (is_Some stopped -> published bs = added).
Proof using HL CL GL KL ZL SL L Hk Hav.
  intros [_ _ (h & Hb & Hrun & Hbi) Hg Ha _] Hnum Hn Hck. apply good_after_app_l in Hg. apply Forall_app in Ha as [Ha _].
  unfold ended. rewrite Hb. destruct stopped as [ck|].
  - unfold BatcherHandle.take_shutdown, BatcherHandle.call. rewrite Hrun.
    destruct (step_inv (L := L) km vk Hk Hav bs0 (BatcherHandle.task h) added (Recv Shutdown (now ck) (instant ck)))
      as (b' & resp & -> & _ & (_ & bs & Hl & Hr & _ & Hadd) & Hp); [done | by rewrite app_nil_r | by apply Hck |].
    cbn in Hadd. rewrite app_nil_r in Hadd. unfold pending_messages in Hadd. rewrite Hp in Hadd by done. cbn in Hadd.
    rewrite app_nil_r in Hadd. eexists _, bs. cbn. split; [reflexivity|]. cbn. split_and!; [done| |by rewrite Hadd|done].
    eapply (numbered_grows vk bs0 n _ bs []); rewrite ?app_nil_r, ?Hadd; eauto.
  - destruct Hbi as (_ & bs & Hl & Hr & _ & Hadd). exists h, bs. split; [done|]. split_and!; [done| | |by intros []].
    + rewrite <- Hadd in Hg, Ha. by eapply numbered_grows.
    + rewrite <- Hadd. by eexists.
Qed.
End invariant.
End serving.

(** ** Processes that follow each other over one database file *)

(** One process: the key it draws, what it serves, and whether the batcher's task got
    to take the shutdown command before the process was gone. *)
Record Lifetime `{Crypto} `{!Signer} := {
  random : PrivateKeySigner;
  began : Z;
  served : list ProcessEvent;
  stopped : option Clock;
}.

Section lifetimes.
Context `{HX : Hex} `{CR : Crypto} `{SG : !Signer} `{CS : Cose} `{CC : !CoseCodec} `{ZS : Zstd}.
Context `{HN : HttpNet} `{JK : FromJson Jwks.t} `{JD : FromJson OidcDiscovery.t}.
Context `{JH : FromJson JwtHeader.t} `{JC : FromJson GcpCsClaims.t} `{JM : FromJson MinimalHeader.t}.
Context `{RS : Rsa}.
Context `{SC : Serde ChangesetBatchRequest.t} `{SN : Serde SnapshotRequest.t} `{SWd : Serde WithdrawalRequest.t}.
Context `{SW : Serde CborBatchWire.t} `{BT : BatchTable} `{OS : ObjectStore} `{JV : FromJson JsonValue.t} `{DB : AppDb}.
Context (tee : bool) (config : SequencerConfig.t) (st0 : Store).
Context (bootstrap : BootstrapConfig.t -> option (result BootstrapError EvmKeyManager.t)).

(** The file the process leaves behind and the numbers it replied with. *)
Definition live (file : Conn) (lt : Lifetime) : option (Conn * list (Z * option string)) :=
  match Process.start tee config bootstrap (random lt) file st0 (began lt) with
  | Ok p =>
      let '(s, rs) := process_events (mkRunning (Process.app p) []) (served lt) in
      match (fun h => Batcher.transport (BatcherHandle.task h)) <$> batcher (ended (shared s) (stopped lt)) with
      | Some (AnyPublisher.Local (Local.Sqlite file')) => Some (file', rs)
      | _ => None
      end
  | _ => None
  end.
Fixpoint lives (file : Conn) (lts : list Lifetime) : option (Conn * list (list (Z * option string))) :=
  match lts with
  | [] => Some (file, [])
  | lt :: lts =>
      '(file', rs) ← live file lt;
      '(file'', rss) ← lives file' lts;
      Some (file'', rs :: rss)
  end.

Context {HL : HexLaws} {CL : CryptoLaws} {GL : SignerLaws} {KL : CoseLaws} {ZL : ZstdLaws}.
Context {SL : SerdeLaws CborBatchWire.t CborBatchWire.valid}.
Context {rows : Conn -> BTreeMap.t StoredBatch.t} {TL : BatchTableLaws rows}.

(** The batches are kept in a file, and the start-up does not fail. *)
Definition keeps_file : Prop :=
  SequencerConfig.publisher_type config = PublisherType.Local /\
  (exists path, SequencerConfig.local_storage_path config = Some path /\ path <> ":memory:"%string) /\
  (SequencerConfig.verify_attestation config = true -> client_build = Ok tt).
Definition lifetime_ok (lt : Lifetime) : Prop :=
  (exists km, Process.signing_key tee config bootstrap (random lt) = Ok km /\ signer_available km) /\
  Forall clock_ok (served lt) /\ Forall in_order (served lt) /\
  (forall ck, stopped lt = Some ck -> is_u64 (now ck)).

Definition publisher_log (p : AnyPublisher.t) (bs : list CborBatch.t) : Prop :=
  match p with
  | AnyPublisher.Local (Local.Sqlite c) => local_log (rows := rows) (Local.Sqlite c) bs
  | _ => False
  end.

#[local] Instance publisher_laws : TransportLaws AnyPublisher.t publisher_log.
Proof using ZL SL TL.
  constructor; intros [[m|c]|g] bs; try done.
  - apply (log_wf (TransportLaws := local_transport_laws)).
  - intros b Hl Hp Hb. destruct (publish_local (rows := rows) (Local.Sqlite c) bs b Hl Hp Hb) as (t' & md & Hpub & Hl' & Hh).
    cbn. rewrite Hpub. eexists _, md. split; [reflexivity|]. split; [|done].
    cbn in Hpub. destruct t' as [m|c']; [|done]. exfalso. revert Hpub. unfold Local.publish.
    destruct (transport_of_cbor _); [|done..]. destruct (transport_of_cbor _); [|done..].
    by destruct (sql_insert _ _) as [? []].
  - apply (fetch_spec (TransportLaws := local_transport_laws)).
  - apply (list_spec (TransportLaws := local_transport_laws)).
  - apply (latest_spec (TransportLaws := local_transport_laws)).
  - apply (get_message_spec (TransportLaws := local_transport_laws)).
Qed.

(** The end of the last batch bounds the others. *)
Lemma log_bounded bs a : wf_log bs -> a ∈ bs ->
  exists l, last bs = Some l /\ CborBatch.end_sequence a <= CborBatch.end_sequence l.
Proof.
  intros [Hp Hs] Ha. destruct (last bs) as [l|] eqn:El; [|by apply last_None in El as ->; set_solver].
  exists l. split; [done|]. apply last_Some in El as [bs' ->]. apply elem_of_app in Ha as [Ha|Ha].
  - pose proof (StronglySorted_app_1_elem_of _ _ _ a l Hs Ha) as Hb. unfold before in Hb.
    apply Forall_app in Hp as [_ Hp]. apply Forall_singleton in Hp as [_ Hl]. specialize (Hb ltac:(set_solver)). lia.
  - apply list_elem_of_singleton in Ha as ->. lia.
Qed.

Lemma good_after_empty bs0 vk : good_after bs0 vk [].
Proof. split; [by split; constructor|]. by apply Forall_forall. Qed.

Lemma start_inv file bs0 n lt km vk :
  keeps_file -> publisher_log (AnyPublisher.Local (Local.Sqlite file)) bs0 -> numbered n bs0 -> 0 <= n <= i64_max ->
  Process.signing_key tee config bootstrap (random lt) = Ok km ->
  key_bytes vk (EvmKeyManager.public_key km) ->
  exists p, Process.start tee config bootstrap (random lt) file st0 (began lt) = Ok p /\
    app_inv (log := publisher_log) km vk bs0 (Process.app p) [] [] /\
    Inbox.sequence (inbox (Process.app p)) <= n /\
    Forall (fun b => CborBatch.end_sequence b < Inbox.sequence (inbox (Process.app p))) bs0.
Proof using HL CL GL KL ZL SL TL.
  intros (Hty & (path & Hpath & Hmem) & Hver) Hlog Hnum Hn Hkey Hvk.
  pose proof (latest_spec (TransportLaws := local_transport_laws (rows := rows)) _ _ Hlog) as Hlat.
  pose proof (log_wf (TransportLaws := local_transport_laws (rows := rows)) _ _ Hlog) as Hwf.
  assert (Hstart : let s := AnyPublisher.start_sequence (Some (AnyPublisher.Local (Local.Sqlite file))) in
    0 <= s <= n /\ Forall (fun b => CborBatch.end_sequence b < s) bs0).
  { cbn in Hlat |- *. injection Hlat as ->. destruct Hnum as [_ _ Hbel]. destruct (last bs0) as [l|] eqn:El; cbn.
    - apply last_Some_elem_of in El as Hin. rewrite Forall_forall in Hbel. specialize (Hbel l Hin).
      destruct Hwf as [Hp Hs]. pose proof (proj1 (Forall_forall _ _) Hp l Hin) as [Hbw _].
      destruct Hbw as (_ & _ & _ & _ & _ & He & _). cbn in He. unfold is_u64 in He.
      assert (u64_add (CborBatch.end_sequence l) 1 = CborBatch.end_sequence l + 1) as ->.
      { unfold u64_add. apply Z.mod_small. unfold i64_max in Hn. lia. }
      split; [lia|]. apply Forall_forall. intros a Ha. destruct (log_bounded bs0 a) as (l' & Hl' & Hle); [done..|].
      rewrite El in Hl'. injection Hl' as <-. lia.
    - apply last_None in El as ->. split; [lia|done]. }
  destruct Hstart as [Hs Hbase].
  unfold Process.start. rewrite Hkey. cbn [result_bind]. unfold AnyPublisher.create. rewrite Hty. cbn [result_bind].
  unfold AnyPublisher.open_local. rewrite Hpath, bool_decide_false by done.
  unfold Process.attestation_verifier, AttestationVerifier.new.
  destruct (SequencerConfig.verify_attestation config); [rewrite Hver by done|];
    (eexists; split; [reflexivity|]; cbn [Process.app inbox];
     split; [split; cbn [inbox batcher]; [done | apply Hs | | apply good_after_empty | done | exact Hbase]
            | split; [apply Hs | exact Hbase]];
     eexists; split; [reflexivity|]; split; [done|]; split; [done|]; exists []; rewrite app_nil_r; by split_and!).
Qed.

(** What a process stored of the numbers [rs] it replied with, none with a warning: a
    prefix, and all of them once its batcher took the shutdown command. *)
Definition stores (lt : Lifetime) (rs : list (Z * option string)) (stored : list Z) : Prop :=
  Forall (fun r => snd r = None) rs /\ stored `prefix_of` map fst rs /\
  (is_Some (stopped lt) -> stored = map fst rs).

Lemma receipts_numbers (ms : list CborSignedMessage.t) :
  map fst (map (fun m => (seq_of m, @None string)) ms) = map seq_of ms.
Proof. by rewrite map_map. Qed.

Lemma live_spec file bs0 n lt :
  keeps_file -> publisher_log (AnyPublisher.Local (Local.Sqlite file)) bs0 -> numbered n bs0 ->
  lifetime_ok lt -> 0 <= n -> n + Z.of_nat (length (served lt)) <= i64_max ->
  exists file' rs bs, live file lt = Some (file', rs) /\
    publisher_log (AnyPublisher.Local (Local.Sqlite file')) (bs0 ++ bs) /\
    numbered (n + Z.of_nat (length (served lt))) (bs0 ++ bs) /\
    stores lt rs (map seq_of (published bs)).
Proof using HL CL GL KL ZL SL TL.
  intros Hcfg Hlog Hnum ((km & Hkey & Hav) & Hclk & Hord & Hstop) Hn Hlen. destruct (manager_key km) as [vk Hvk].
  destruct (start_inv file bs0 n lt km vk) as (p & Hp & Hinv & Hle & Hbase); [done..|lia|done|done|].
  unfold live. rewrite Hp. assert (Hnum0 : numbered (Inbox.sequence (inbox (Process.app p))) bs0).
  { destruct Hnum. by split. }
  destruct (process_events_inv (L := publisher_laws) km vk Hvk Hav bs0 (served lt) (mkRunning (Process.app p) []) [])
    as (s & ms & -> & [Hinv' _] & Hs); [by split|cbn; lia|done|done|]. cbn [app shared] in Hinv', Hs.
  destruct (ended_stores (L := publisher_laws) km vk Hvk Hav bs0 (Inbox.sequence (inbox (Process.app p))) (shared s) ms (map held_message (waiting s)) (stopped lt))
    as (h & bs & -> & Hl & Hn' & Hpre & Hall); [done|done|lia|done|]. cbn.
  destruct (Batcher.transport (BatcherHandle.task h)) as [[m|file']|g]; try done.
  exists file', (map (fun m => (seq_of m, None)) ms), bs. split; [done|]. split; [done|]. split.
  - destruct Hn' as [H1 H2 H3]. split; [done|done|]. eapply Forall_impl; [exact H3|]. cbn. lia.
  - unfold stores. rewrite receipts_numbers. split_and!.
    + apply Forall_forall. intros r Hr. apply list_elem_of_fmap in Hr as (m & -> & _). done.
    + destruct Hpre as [k ->]. rewrite map_app. by eexists.
    + intros Hst. by rewrite Hall.
Qed.

Definition total_served (lts : list Lifetime) : Z := Z.of_nat (length (concat (map served lts))).

Lemma lives_spec lts : forall file bs0 n,
  keeps_file -> publisher_log (AnyPublisher.Local (Local.Sqlite file)) bs0 -> numbered n bs0 ->
  Forall lifetime_ok lts -> 0 <= n -> n + total_served lts <= i64_max ->
  exists file' rss bs stored, lives file lts = Some (file', rss) /\
    publisher_log (AnyPublisher.Local (Local.Sqlite file')) (bs0 ++ bs) /\
    numbered (n + total_served lts) (bs0 ++ bs) /\
    map seq_of (published bs) = concat stored /\ Forall3 stores lts rss stored.
Proof using HL CL GL KL ZL SL TL.
  unfold total_served.
  induction lts as [|lt lts IH]; intros file bs0 n Hcfg Hlog Hnum Hlts Hn Hlen; cbn [map concat lives] in *.
  - exists file, [], [], []. cbn. rewrite app_nil_r, Z.add_0_r. split_and!; [done..|constructor].
  - apply Forall_cons in Hlts as [Hlt Hlts]. rewrite length_app in *.
    destruct (live_spec file bs0 n lt) as (file1 & rs & bs1 & -> & Hlog1 & Hnum1 & Hst); [done..|lia|].
    destruct (IH file1 _ _ Hcfg Hlog1 Hnum1 Hlts) as (file' & rss & bs & stored & Heq & Hlog' & Hnum' & Hpub & Hall); [lia..|].
    exists file', (rs :: rss), (bs1 ++ bs), (map seq_of (published bs1) :: stored).
    cbn. rewrite Heq. cbn. rewrite app_assoc. split_and!; [done|done| | |by constructor].
    + replace (n + Z.of_nat _) with (n + Z.of_nat (length (served lt)) + Z.of_nat (length (concat (map served lts)))) by lia.
      done.
    + unfold published in *. by rewrite map_app, concat_app, map_app, Hpub.
Qed.


(** *** Messages that overtake each other *)

(** The state of a process that has just started, without a verifier. *)
Definition fresh (km : EvmKeyManager.t) (file : Conn) (instant : Z) : AppState.t AnyPublisher.t :=
  AppState.mk (Inbox.with_start_sequence km (AnyPublisher.start_sequence (Some (AnyPublisher.Local (Local.Sqlite file)))))
    None (Some (BatcherHandle.mk (Batcher.spawn (SequencerConfig.batch_config config)
                                    (AnyPublisher.Local (Local.Sqlite file)) km instant) true)).

Lemma start_fresh file lt km :
  keeps_file -> SequencerConfig.verify_attestation config = false ->
  Process.signing_key tee config bootstrap (random lt) = Ok km ->
  exists p, Process.start tee config bootstrap (random lt) file st0 (began lt) = Ok p /\
    Process.app p = fresh km file (began lt).
Proof.
  intros (Hty & (path & Hpath & Hmem) & _) Hver Hkey. unfold Process.start. rewrite Hkey. cbn [result_bind].
  unfold AnyPublisher.create. rewrite Hty. cbn [result_bind].
  unfold AnyPublisher.open_local. rewrite Hpath, bool_decide_false by done.
  unfold Process.attestation_verifier. rewrite Hver. cbn. eexists. split; [reflexivity|]. done.
Qed.

(** Two messages of this size stay below the byte threshold. *)
Definition fits (lt : Lifetime) (r : ChangesetBatchRequest.t) (n : Z) (ck : Clock) : Prop :=
  is_u64 (now ck) /\ is_ok (ser r) = true /\
  forall km payload m rc, Process.signing_key tee config bootstrap (random lt) = Ok km -> ser r = Ok payload ->
    Inbox.sign_sequenced km n (now ck) Changeset payload = Ok (m, rc) ->
    2 * size_of m < SequencerConfig.batch_max_bytes config.

(** The first part of a handler that no verifier stops. *)
Lemma begin_free (st : AppState.t AnyPublisher.t) lt km vk r ck :
  attestation_verifier st = None -> Inbox.key_manager (inbox st) = km -> 0 <= Inbox.sequence (inbox st) <= i64_max ->
  Process.signing_key tee config bootstrap (random lt) = Ok km -> key_bytes vk (EvmKeyManager.public_key km) ->
  signer_available km -> fits lt r (Inbox.sequence (inbox st)) ck ->
  exists m rc sm, begin_changesets st r ck =
      (with_inbox st (Inbox.with_start_sequence km (Inbox.sequence (inbox st) + 1)), Ok (m, rc)) /\
    SequenceReceipt.sequence rc = Inbox.sequence (inbox st) /\ message_ok vk m sm /\
    SignedMessage.sequence sm = Inbox.sequence (inbox st) /\
    2 * size_of m < SequencerConfig.batch_max_bytes config.
Proof using HL CL GL KL ZL.
  intros Hv Hkm Hn Hkey Hvk Hav (Hclk & Hser & Hfit). unfold begin_changesets, check_attestation. rewrite Hv.
  cbn [result_bind]. destruct (ser r) as [payload| |] eqn:Es; [|done..]. cbn [map_err]. unfold sequence.
  destruct (inbox_next km vk Hvk Hav (inbox st) Changeset payload (now ck)) as (m & rc & sm & Hm & Hrc & Hok & Hsq);
    [done..|]. rewrite Hm. exists m, rc, sm. split_and!; [done..|].
  apply (Hfit km payload m rc Hkey eq_refl). unfold Inbox.sequence_message in Hm. injection Hm as _ Hm.
  by rewrite <- Hkm.
Qed.

(** The batcher keeps a message that reaches no threshold, and the reply has no warning. *)
Lemma keep_pending (st : AppState.t AnyPublisher.t) h m ck :
  batcher st = Some h -> BatcherHandle.running h = true ->
  Batcher.config (BatcherHandle.task h) = SequencerConfig.batch_config config ->
  Z.of_nat (length (Batcher.pending (BatcherHandle.task h))) + 1 < SequencerConfig.batch_max_messages config ->
  0 <= Batcher.pending_bytes (BatcherHandle.task h) ->
  Batcher.pending_bytes (BatcherHandle.task h) + size_of m < SequencerConfig.batch_max_bytes config ->
  exists h', to_batcher st m ck = (with_batcher st h', None) /\ BatcherHandle.running h' = true /\
    BatcherHandle.task h' = Batcher.with_pending (BatcherHandle.task h)
      (Batcher.pending (BatcherHandle.task h) ++ [PendingMessage.mk m (size_of m)])
      (u64_add (Batcher.pending_bytes (BatcherHandle.task h)) (size_of m)).
Proof.
  intros Hb Hrun Hcfg Hlen H0 Hsz. unfold to_batcher. rewrite Hb.
  unfold BatcherHandle.add_message, BatcherHandle.call. rewrite Hrun. cbn [Batcher.step].
  unfold Batcher.handle_add_message. fold (size_of m). set (b1 := Batcher.with_pending _ _ _).
  assert (Batcher.should_flush b1 = false) as ->.
  { unfold Batcher.should_flush. cbn [b1 Batcher.config Batcher.pending Batcher.pending_bytes Batcher.with_pending].
    rewrite Hcfg. cbn [SequencerConfig.batch_config BatchConfig.max_messages BatchConfig.max_batch_bytes].
    apply orb_false_iff. rewrite !Z.leb_gt, length_app. cbn [length]. split; [lia|].
    unfold u64_add, as_u64. assert (0 <= size_of m) by (unfold size_of; lia).
    pose proof (Z.mod_le (Batcher.pending_bytes (BatcherHandle.task h) + size_of m) (2 ^ 64)). lia. }
  eexists. split; [reflexivity|]. by split.
Qed.

(** Flushing two messages the second of which carries the smaller number: the batch is
    taken, with its range turned round. *)
Lemma flush_overtaken b km vk m1 m0 sm1 sm0 ca inst :
  Batcher.key_manager b = km -> key_bytes vk (EvmKeyManager.public_key km) -> signer_available km ->
  pending_messages b = [m1; m0] -> Batcher.transport b = AnyPublisher.Local (Local.Sqlite sql_open) ->
  message_ok vk m1 sm1 -> message_ok vk m0 sm0 ->
  SignedMessage.sequence sm1 = 1 -> SignedMessage.sequence sm0 = 0 -> is_u64 ca ->
  exists b' md file row, Batcher.flush_batch b ca inst = (b', Ok (Some md)) /\
    Batcher.transport b' = AnyPublisher.Local (Local.Sqlite file) /\ rows file = [(1, row)] /\
    StoredBatch.start_sequence row = 1 /\ StoredBatch.end_sequence row = 0.
Proof using HL CL GL KL ZL SL TL.
  intros Hkm Hk Hav Hp Htr H1 H0 Hs1 Hs0 Hca. unfold Batcher.flush_batch.
  destruct (Batcher.pending b) as [|pm ps] eqn:Ep; [by unfold pending_messages in Hp; rewrite Ep in Hp|].
  rewrite <- Ep. fold (pending_messages b). rewrite Hp, Hkm.
  destruct (batch_path vk (EvmKeyManager.public_key km) (Batcher.sign_batch_data (Batcher.with_pending b [] 0)) ca [m1; m0] [sm1; sm0])
    as (batch & z & Hnew & _ & Hwf & _ & _ & _ & _ & _ & _ & Hst & Hen); [done|apply Forall2_cons; split; [done|apply Forall2_cons; split; [done|constructor]]|done| |done|].
  { unfold Batcher.sign_batch_data. cbn. rewrite Hkm. by apply (sign_cose_ok km). }
  rewrite Hnew. cbn [Batcher.transport Batcher.with_pending]. rewrite Htr.
  cbn in Hst, Hen. injection Hst as Hst. injection Hen as Hen.
  destruct (stored_roundtrip batch Hwf) as (u & zz & Hu & Hz & _).
  destruct (sql_insert_new sql_open (Local.stored_of batch u zz)) as (c' & Hins & Hrows);
    [cbn; unfold i64_max; lia..|by rewrite sql_open_empty|].
  cbn [publish AnyPublisher.transport Local.transport]. unfold Local.publish, transport_of_cbor. rewrite Hu, Hz.
  cbn [map_err]. rewrite Hins. eexists _, _, c', (Local.stored_of batch u zz). split; [reflexivity|]. split; [reflexivity|].
  rewrite Hrows, sql_open_empty. cbn. rewrite <- Hst, Hs1. by split_and!; [..|rewrite <- Hen].
Qed.

(** After such a batch alone, the next number is 1 again, and no message can be read. *)
Lemma overtaken_file file row :
  rows file = [(1, row)] -> StoredBatch.start_sequence row = 1 -> StoredBatch.end_sequence row = 0 ->
  AnyPublisher.start_sequence (Some (AnyPublisher.Local (Local.Sqlite file))) = 1 /\
  forall s, Local.get_message (Local.Sqlite file) s = Ok None.
Proof using TL.
  intros Hr Hs He. split.
  - cbn. by rewrite sql_max_end_spec, Hr; cbn; rewrite He.
  - intros s. unfold Local.get_message. cbn [Local.data_containing].
    assert (sql_data_containing file s = None) as ->; [|done].
    apply sql_data_containing_none. rewrite Hr. cbn. apply Forall_singleton. unfold StoredBatch.contains.
    rewrite Hs, He. lia.
Qed.

(** The first process: its two handlers' messages reach the batcher in the opposite
    order of their numbers, and are flushed together on shutdown. *)
Lemma overtaken_lifetime (lt : Lifetime) r0 r1 c0 c1 c2 c3 c4 km :
  keeps_file -> SequencerConfig.verify_attestation config = false ->
  Process.signing_key tee config bootstrap (random lt) = Ok km -> signer_available km ->
  2 < SequencerConfig.batch_max_messages config ->
  served lt = [Arrive (CallChangesets r0) c0; Arrive (CallChangesets r1) c1; Resume 1 c2; Resume 0 c3] ->
  stopped lt = Some c4 -> is_u64 (now c4) -> fits lt r0 0 c0 -> fits lt r1 1 c1 ->
  exists file row, live sql_open lt = Some (file, [(1, None); (0, None)]) /\ rows file = [(1, row)] /\
    StoredBatch.start_sequence row = 1 /\ StoredBatch.end_sequence row = 0.
Proof using HL CL GL KL ZL SL TL.
  intros Hcfg Hver Hkey Hav Hmax Hserved Hstop Hc4 Hf0 Hf1. destruct (manager_key km) as [vk Hvk].
  destruct (start_fresh sql_open lt km Hcfg Hver Hkey) as (p & Hp & Happ).
  assert (Hseq : Inbox.sequence (inbox (fresh km sql_open (began lt))) = 0).
  { cbn. by rewrite sql_max_end_spec, sql_open_empty. }
  unfold live. rewrite Hp, Happ, Hserved, Hstop. cbn [process_events process_event arrive shared waiting]. set (st := fresh _ _ _) in *.
  destruct (begin_free st lt km vk r0 c0) as (m0 & rc0 & sm0 & -> & Hrc0 & Hm0 & Hs0 & Hz0); rewrite ?Hseq; [done..|].
  rewrite Hseq in *. cbn [wait fst snd app waiting shared]. set (st1 := with_inbox st _).
  destruct (begin_free st1 lt km vk r1 c1) as (m1 & rc1 & sm1 & -> & Hrc1 & Hm1 & Hs1 & Hz1); [done..|].
  change (Inbox.sequence (inbox st1)) with 1 in *. cbn [wait fst snd app waiting shared]. set (st2 := with_inbox st1 _).
  cbn [lookup list_lookup finish finish_sequence].
  assert (Hsz : forall m, 0 <= size_of m) by (intros; unfold size_of; lia).
  pose proof (Hsz m0). pose proof (Hsz m1).
  destruct (keep_pending st2 (BatcherHandle.mk (Batcher.spawn (SequencerConfig.batch_config config)
    (AnyPublisher.Local (Local.Sqlite sql_open)) km (began lt)) true) m1 c2) as (h1 & -> & Hr1 & Ht1); [done..|cbn; lia|cbn; lia|cbn; lia|].
  cbn [SequenceResponse.from SequenceResponse.sequence SequenceResponse.batch_warning shared waiting delete list_delete
    lookup list_lookup finish finish_sequence].
  assert (Hpb : Batcher.pending_bytes (BatcherHandle.task h1) <= size_of m1 /\ 0 <= Batcher.pending_bytes (BatcherHandle.task h1)).
  { rewrite Ht1. cbn. pose proof (as_u64_range (size_of m1)) as Hu. unfold is_u64, u64_add, as_u64 in *.
    pose proof (Z.mod_le (size_of m1) (2 ^ 64)). rewrite Z.add_0_l. lia. }
  destruct (keep_pending (with_batcher st2 h1) h1 m0 c3) as (h2 & -> & Hr2 & Ht2); [done|done|by rewrite Ht1|by rewrite Ht1; cbn; lia|lia|lia|].
  cbn [SequenceResponse.from SequenceResponse.sequence SequenceResponse.batch_warning app ended shared batcher with_batcher].
  unfold BatcherHandle.take_shutdown, BatcherHandle.call. rewrite Hr2. cbn [Batcher.step].
  assert (Hpend : pending_messages (BatcherHandle.task h2) = [m1; m0]) by (rewrite Ht2, Ht1; done).
  destruct (flush_overtaken (BatcherHandle.task h2) km vk m1 m0 sm1 sm0 (now c4) (instant c4))
    as (b' & md & file & row & Hfl & Htr & Hrow); [by rewrite Ht2, Ht1|done|done|done|by rewrite Ht2, Ht1|done..|].
  destruct (Batcher.pending (BatcherHandle.task h2)) eqn:Ep; [by unfold pending_messages in Hpend; rewrite Ep in Hpend|].
  rewrite Hfl. cbn. rewrite Htr, Hrc0, Hrc1. eauto.
Qed.

(** C29. Numbers are reused when handlers overtake each other: a handler takes its number
    and then waits for the batcher, so the message with number 1 can reach the batcher
    before the one with number 0.  Both requests are acknowledged without a warning; the
    batch of the two is stored with a start of 1 and an end of 0, so neither message can
    be read back by its number; and the next process over the file starts at 1 and
    acknowledges 1 a second time. *)
Theorem overtaking_reuses_number (lt lt' : Lifetime) (r0 r1 r2 : ChangesetBatchRequest.t)
    (c0 c1 c2 c3 c4 d0 d1 : Clock) (km km' : EvmKeyManager.t) :
  keeps_file -> SequencerConfig.verify_attestation config = false ->
  2 < SequencerConfig.batch_max_messages config ->
  Process.signing_key tee config bootstrap (random lt) = Ok km -> signer_available km ->
  served lt = [Arrive (CallChangesets r0) c0; Arrive (CallChangesets r1) c1; Resume 1 c2; Resume 0 c3] ->
  stopped lt = Some c4 -> is_u64 (now c4) -> fits lt r0 0 c0 -> fits lt r1 1 c1 ->
  Process.signing_key tee config bootstrap (random lt') = Ok km' -> signer_available km' ->
  served lt' = [Arrive (CallChangesets r2) d0; Resume 0 d1] -> stopped lt' = None -> fits lt' r2 1 d0 ->
  exists file row, live sql_open lt = Some (file, [(1, None); (0, None)]) /\
    rows file = [(1, row)] /\ StoredBatch.start_sequence row = 1 /\ StoredBatch.end_sequence row = 0 /\
    (forall s, Local.get_message (Local.Sqlite file) s = Ok None) /\
    live file lt' = Some (file, [(1, None)]).
Proof using HL CL GL KL ZL SL TL.
  intros Hcfg Hver Hmax Hkey Hav Hserved Hstop Hc4 Hf0 Hf1 Hkey' Hav' Hserved' Hstop' Hf2.
  destruct (overtaken_lifetime lt r0 r1 c0 c1 c2 c3 c4 km) as (file & row & Hlive & Hrow & Hst & Hen); [done..|].
  destruct (overtaken_file file row Hrow Hst Hen) as [Hnext Hread]. exists file, row. split_and!; [done..|].
  destruct (manager_key km') as [vk Hvk]. destruct (start_fresh file lt' km' Hcfg Hver Hkey') as (p & Hp & Happ).
  unfold live. rewrite Hp, Happ, Hserved', Hstop'. cbn [process_events process_event arrive shared waiting].
  set (st := fresh _ _ _) in *. assert (Hseq : Inbox.sequence (inbox st) = 1) by exact Hnext.
  destruct (begin_free st lt' km' vk r2 d0) as (m & rc & sm & -> & Hrc & _ & _ & Hz); rewrite ?Hseq; [done..|].
  rewrite Hseq in *. cbn [wait fst snd app waiting shared lookup list_lookup finish finish_sequence].
  assert (0 <= size_of m) by (unfold size_of; lia).
  destruct (keep_pending (with_inbox st (Inbox.with_start_sequence km' (1 + 1)))
    (BatcherHandle.mk (Batcher.spawn (SequencerConfig.batch_config config)
      (AnyPublisher.Local (Local.Sqlite file)) km' (began lt')) true) m d1) as (h & -> & _ & Ht); [done..|cbn; lia|cbn; lia|cbn; lia|].
  cbn. by rewrite Ht, Hrc.
Qed.

(** An orderly shutdown can lose acknowledged messages: [shutdown_signal] reports
    that the batcher was shut down as soon as the command is in its channel, with every
    pending message still pending.  If the process is gone then, the next one starts at
    or below the number of each of those messages, all of them acknowledged, and gives
    their numbers to others. *)
Theorem shutdown_complete_loses_pending (km km' : EvmKeyManager.t) (vk : VerifyingKey) (bs0 : list CborBatch.t) (n : Z)
    (p : Process.t) (added held : list CborSignedMessage.t) (h : BatcherHandle.t AnyPublisher.t) (file : Conn)
    (m : CborSignedMessage.t) (next : Lifetime) :
  app_inv (log := publisher_log) km vk bs0 (Process.app p) added held -> numbered n bs0 ->
  batcher (Process.app p) = Some h ->
  Batcher.transport (BatcherHandle.task h) = AnyPublisher.Local (Local.Sqlite file) ->
  m ∈ pending_messages (BatcherHandle.task h) ->
  keeps_file -> Process.signing_key tee config bootstrap (random next) = Ok km' ->
  snd (Process.shutdown_signal p true) = Process.ShutdownComplete /\
  Process.app (fst (Process.shutdown_signal p true)) = Process.app p /\
  exists p', Process.start tee config bootstrap (random next) file st0 (began next) = Ok p' /\
    Inbox.sequence (inbox (Process.app p')) <= seq_of m.
Proof using HL CL GL KL ZL SL TL.
  intros [_ _ (h0 & Hb & Hrun & (_ & bs & Hl & Hr & _ & Hadd)) Hg Ha _] [Hs0 Hw0 _] Hh Htr Hm Hcfg Hkey.
  apply good_after_app_l in Hg. rewrite Hh in Hb. injection Hb as <-. split; [|split].
  - cbn. rewrite Hh. unfold BatcherHandle.shutdown. by rewrite Hrun.
  - done.
  - destruct (manager_key km') as [vk' Hvk']. rewrite Htr in Hl. rewrite <- Hadd in Hg.
    assert (Hmr : exists sm, message_ok vk m sm /\ SignedMessage.sequence sm <= i64_max).
    { destruct Hg as [[Hf _] _]. rewrite Forall_forall in Hf. apply Hf. set_solver. }
    destruct Hmr as (sm & Hok & Hle). rewrite <- (message_ok_seq _ _ _ Hok) in Hle.
    assert (Hge : 0 <= seq_of m).
    { rewrite (message_ok_seq _ _ _ Hok). destruct Hok as [Hu _]. unfold is_u64 in Hu. lia. }
    destruct (start_inv file (bs0 ++ bs) (seq_of m) next km' vk') as (p' & Hp & _ & Hn & _); [done|done| |lia|done|done|by exists p'].
    eapply (numbered_grows vk bs0 (seq_of m) (seq_of m) bs []); [split; [done|done|]| | done | |lia]; rewrite ?app_nil_r.
    + destruct Hg as [_ Hf]. eapply Forall_impl; [exact Hf|]. cbn. intros a Ha'. rewrite Forall_forall in Ha'.
      apply Ha'. set_solver.
    + by eapply good_after_app_l.
    + apply Forall_forall. intros m' Hm'. destruct Hg as [[_ Hs] _].
      by eapply (StronglySorted_app_1_elem_of _ _ _ _ _ Hs).
Qed.
End lifetimes.

(** ** A restart over a bucket *)
Section cloud_restart.
Context `{HX : Hex} `{CR : Crypto} `{SG : !Signer} `{CS : Cose} `{CC : !CoseCodec} `{ZS : Zstd}.
Context `{HN : HttpNet} `{JK : FromJson Jwks.t} `{JD : FromJson OidcDiscovery.t}.
Context `{JH : FromJson JwtHeader.t} `{JC : FromJson GcpCsClaims.t} `{JM : FromJson MinimalHeader.t}.
Context `{RS : Rsa}.
Context `{SC : Serde ChangesetBatchRequest.t} `{SN : Serde SnapshotRequest.t} `{SWd : Serde WithdrawalRequest.t}.
Context `{SW : Serde CborBatchWire.t} `{BT : BatchTable} `{OS : ObjectStore} `{JV : FromJson JsonValue.t} `{DB : AppDb}.
Context {ZL : ZstdLaws} {SL : SerdeLaws CborBatchWire.t CborBatchWire.valid}.
Context {bucket : string} {objects : Store -> gmap string bytes}.
Context {page : Store -> string -> option string -> list string * string}.
Context {OL : ObjectStoreLaws bucket objects page}.

Lemma acknowledged_number {T} `{TransportPublisher T} (st st' : AppState.t T) r ck status resp :
  receive_changesets st r ck = (st', Ok (status, resp)) ->
  SequenceResponse.sequence resp = Inbox.sequence (inbox st).
Proof.
  unfold receive_changesets, begin_changesets. intros E. destruct (check_attestation st _ ck) as [st1 a] eqn:Ea.
  apply check_attestation_spec in Ea as (Hi & _). destruct (result_bind _ _) as [p| |]; [|done..].
  destruct (sequence st1 Changeset p ck) as [st2 [held| |]] eqn:Ep; [|done..]. cbn [handle] in E.
  destruct (finish_sequence st2 held ck) as [st3 resp'] eqn:Ef. injection E as _ _ <-.
  apply sequence_spec in Ep as (_ & _ & _ & Hr & _). apply finish_sequence_spec in Ef as (-> & _). by rewrite Hr, Hi.
Qed.

(** A cloud publisher starts at zero and writes to the bucket it was given. *)
Lemma cloud_start tee config bootstrap random file st0 began p :
  SequencerConfig.publisher_type config = PublisherType.Gcs ->
  Process.start tee config bootstrap random file st0 began = Ok p ->
  Inbox.sequence (inbox (Process.app p)) = 0 /\
  exists h g name, batcher (Process.app p) = Some h /\ Batcher.transport (BatcherHandle.task h) = AnyPublisher.Gcs g /\
    SequencerConfig.gcs_bucket config = Some name /\ GcsTransport.store g = st0 /\
    StorageClient.bucket (GcsTransport.client g) = name /\
    StorageClient.prefix (GcsTransport.client g) = SequencerConfig.gcs_prefix config.
Proof.
  intros Hty H. unfold Process.start, AnyPublisher.create in H. rewrite Hty in H. ok_inv. simplify_eq.
  unfold GcsTransport.new, context, StorageClient.new, StorageClient.new_gcs in *. ok_inv. simplify_eq. cbn.
  split; [done|]. eexists _, _, _. split; [reflexivity|]. cbn. split; [reflexivity|]. split; [reflexivity|].
  by destruct (SequencerConfig.gcs_storage_emulator_host config).
Qed.

(** Publishing writes one object, whatever was there. *)
Lemma publish_writes (g : GcsTransport.t) b :
  StorageClient.bucket (GcsTransport.client g) = bucket -> batch_wf b ->
  exists g' md z, GcsTransport.publish g b = (g', Ok md) /\ CborBatch.from_cbor_zstd z = Ok b /\
    objects (GcsTransport.store g') =
      <[path_of (StorageClient.prefix (GcsTransport.client g)) b := z]> (objects (GcsTransport.store g)).
Proof using ZL SL OL.
  intros Hb Hwf. destruct (stored_roundtrip b Hwf) as (u & z & Hu & Hz & Hd).
  destruct (store_write (ObjectStoreLaws := OL) (GcsTransport.store g)
              (path_of (StorageClient.prefix (GcsTransport.client g)) b) z) as (st' & Hw & Ho).
  eexists _, _, z. split; [|split; [done|]].
  - unfold GcsTransport.publish, transport_of_cbor, GcsTransport.upload, GcsTransport.batch_path, StorageClient.write,
      StorageClient.bucket_path. rewrite Hu, Hz, Hb. cbn [map_err]. unfold path_of, batches_dir in Hw.
    rewrite string_app_assoc in Hw. rewrite Hw. cbn. reflexivity.
  - exact Ho.
Qed.

(** C40. With cloud storage the numbering does not survive a restart: whatever the bucket
    holds, a process that starts over it hands out 0 first, so a bucket whose first
    batch starts at 0 already holds the number of the first acknowledged changeset.  And
    a batch of the new process with the range of a stored one replaces it: the old batch
    can no longer be read from its path. *)
Theorem cloud_restart_reuses_numbers (tee : bool) (config : SequencerConfig.t)
    (bootstrap : BootstrapConfig.t -> option (result BootstrapError EvmKeyManager.t)) (random : PrivateKeySigner)
    (file : Conn) (st0 : Store) (began : Z) (p : Process.t) (bs : list CborBatch.t) (b0 : CborBatch.t) :
  SequencerConfig.publisher_type config = PublisherType.Gcs -> SequencerConfig.gcs_bucket config = Some bucket ->
  Process.start tee config bootstrap random file st0 began = Ok p ->
  bucket_log (objects := objects) (SequencerConfig.gcs_prefix config) st0 bs -> b0 ∈ bs ->
  CborBatch.start_sequence b0 = 0 ->
  (forall r ck st' status resp, receive_changesets (Process.app p) r ck = (st', Ok (status, resp)) ->
     batch_contains (SequenceResponse.sequence resp) b0 = true) /\
  exists h g, batcher (Process.app p) = Some h /\ Batcher.transport (BatcherHandle.task h) = AnyPublisher.Gcs g /\
    forall b, batch_wf b -> CborBatch.start_sequence b = 0 -> CborBatch.end_sequence b = CborBatch.end_sequence b0 ->
      exists g' md z, publish g b = (g', Ok md) /\ CborBatch.from_cbor_zstd z = Ok b /\
        objects (GcsTransport.store g') !! path_of (SequencerConfig.gcs_prefix config) b0 = Some z.
Proof using ZL SL OL.
  intros Hty Hbk Hp ((Hwf & _) & _) Hin H0.
  destruct (cloud_start _ _ _ _ _ _ _ _ Hty Hp) as (Hs & h & g & name & Hh & Hg & Hname & Hst & Hcb & Hpre).
  rewrite Hbk in Hname. injection Hname as <-. split.
  - intros r ck st' status resp Hr. rewrite (acknowledged_number _ _ _ _ _ _ Hr), Hs. unfold batch_contains.
    rewrite Forall_forall in Hwf. destruct (Hwf b0 Hin) as [_ Hrange]. lia.
  - exists h, g. split; [done|]. split; [done|]. intros b Hb Hb0 Hbe.
    destruct (publish_writes g b Hcb Hb) as (g' & md & z & Hpub & Hz & Ho). exists g', md, z.
    split; [exact Hpub|]. split; [done|]. rewrite Ho, Hpre. unfold path_of. rewrite Hb0, Hbe, H0.
    apply lookup_insert_eq.
Qed.
End cloud_restart.
