(* ===== verification/SequencerWitnesses.v ===== *)
(** * Concrete requests to the sequencer, and concrete processes

    An application state with an attestation verifier and a local batcher, to which the
    token of the attestation example is presented; then two processes over one database
    file, a shutdown with a message pending, and a restart over a bucket that already
    holds a batch. *)
From Stdlib Require Import Ascii Strings.Byte.
From S2P Require Import Prelude RustStd Base64 BTree Batches SyncIndex Extern Net Reference Cose CborBatches.
From S2P Require Import SignedTypes Inbox InboxProps WireProps Transport TransportProps Batcher BatcherProps.
From S2P Require Import MessageQueue Outbound StateStore Applier AuditTrail Validator HttpFetcher Cloud.
From S2P Require Import CloudProps RefStorage CloudWitnesses Jwt Stylus BootClients AttestWitnesses SeqApi.
From S2P Require Import MessageApi SequencerMain SeqApiProps SequencerProps.
Import AppState.

(** The discovery document and the key set, as served. *)
Definition ex_google_jwks : bytes :=
  json_text "{'kid':'k1','kty':'RSA','n':'" ++ base64url_encode ex_modulus ++ json_text "','e':'"
  ++ base64url_encode ex_exponent ++ json_text "'}".
#[local] Instance google_net : HttpNet := {|
  http_get url _ _ :=
    if decide (url = GOOGLE_OIDC_DISCOVERY_URL) then Response 200 (Ok (json_text "{'jwks_uri':'jwks'}"))
    else if decide (url = "jwks"%string) then Response 200 (Ok ex_google_jwks) else SendError no_route;
  http_post _ _ _ _ := SendError no_route;
  client_build := Ok tt;
  status_display := int_to_string;
  body_text := string_of_bytes;
|}.
#[export] Instance ref_json_google_jwks : FromJson Jwks.t := fun b =>
  of_option (k ← member b "kid"; t ← member b "kty"; n ← member b "n"; e ← member b "e";
    Some (Jwks.mk [JwkKey.mk None k t n e None])).
#[export] Instance ref_json_discovery : FromJson OidcDiscovery.t := fun b =>
  of_option (OidcDiscovery.mk <$> member b "jwks_uri").
#[export] Instance ref_json_minimal : FromJson MinimalHeader.t := fun b =>
  of_option (MinimalHeader.mk <$> member b "kid").

Definition ex_verifier (tee : bool) : AttestationVerifier.t :=
  AttestationVerifier.mk (AttestationConfig.mk "app" tee None) None None.
Definition ex_state (tee : bool) : AppState.t Local.t :=
  AppState.mk (Inbox.with_start_sequence demo_km 7) (Some (ex_verifier tee))
    (Some (BatcherHandle.mk demo_batcher true)).
Definition ex_clock : Clock := Build_Clock 1500 90 0.

Definition ex_changesets : ChangesetBatchRequest.t :=
  ChangesetBatchRequest.mk "b1" [ChangesetData.mk [x01] 1 1499] (Some ex_token).
Definition ex_served := receive_changesets (ex_state false) ex_changesets ex_clock.

Lemma pair_of {A B} (p q : A * B) : p = q -> p = (fst q, snd q).
Proof. intros ->. by destruct q. Defined.

Definition ex_response : SequenceResponse.t := Eval vm_compute in
  snd (get_ok (0, SequenceResponse.mk 0 0 EmptyString EmptyString EmptyString None) (snd ex_served)).

Lemma changesets_gated_witness :
  snd ex_served = Ok (CREATED, ex_response) /\ SequenceResponse.sequence ex_response = 7 /\
  admitted (ex_state false) (Some ex_token) ex_clock.
Proof.
  destruct (changesets_gated (ex_state false) (fst ex_served) ex_changesets ex_clock (snd ex_served)
    (pair_of (receive_changesets (ex_state false) ex_changesets ex_clock) ex_served eq_refl)) as [Hok _].
  assert (E : snd ex_served = Ok (CREATED, ex_response)) by (vm_compute; reflexivity).
  destruct (Hok CREATED ex_response E) as (Ha & _). split; [exact E|]. split; [reflexivity|exact Ha].
Defined.

Definition ex_key_set := AttestationVerifier.get_jwks (ex_verifier true) 90 0.
Definition ex_google_key : JwkKey.t :=
  JwkKey.mk None "k1" "RSA" (string_of_bytes (base64url_encode ex_modulus))
            (string_of_bytes (base64url_encode ex_exponent)) None.
Definition ex_validated : ValidationResult.t := Eval vm_compute in
  get_ok (ValidationResult.mk EmptyString 0 0 EmptyString false EmptyString None EmptyString EmptyString)
    (verify_attestation (as_bytes ex_token) ex_google_key (Some "app"%string) (Some 1500)).

Lemma production_token_rejected_witness :
  AttestationVerifier.verify (ex_verifier true) ex_token 1500 90 0 =
    (fst ex_key_set, Err AttestationError.DebugModeEnabled).
Proof.
  apply (production_token_rejected (ex_verifier true) (fst ex_key_set) ex_token 1500 90 0 "k1"
    (Jwks.mk [ex_google_key]) ex_google_key ex_validated); vm_compute; reflexivity.
Defined.

(** ** A withdrawal of 2^128 *)
Definition ex_large : WithdrawalRequest.t :=
  WithdrawalRequest.mk "0x01" (hex0x (replicate 20 x0c)) "340282366920938463463374607431768211456" [].
Definition ex_large_served := receive_withdrawal (ex_state false) ex_large ex_clock.
Definition ex_large_payload : bytes := get_ok [] (ser ex_large).
Definition ex_large_message :=
  get_ok (no_message, SequenceReceipt.mk 0 0 EmptyString EmptyString EmptyString)
    (snd (Inbox.sequence_message (inbox (ex_state false)) 1500 Withdrawal ex_large_payload)).

Lemma oversized_withdrawal_leaves_gap_witness :
  (exists body, snd ex_large_served = Err (INTERNAL_SERVER_ERROR, body)) /\
  Inbox.current_sequence (inbox (fst ex_large_served)) = 8 /\
  batcher (fst ex_large_served) = batcher (ex_state false).
Proof.
  destruct (oversized_withdrawal_leaves_gap (ex_state false) (fst ex_large_served) ex_large ex_clock
    ex_large_payload (fst ex_large_message) (snd ex_large_message)
    (match parse_u128 (WithdrawalRequest.amount ex_large) with Err e => e | _ => EmptyString end)
    (replicate 31 x00 ++ [x01]) (replicate 20 x0c) (snd ex_large_served)) as (Hr & _ & Hs & Hb).
  - vm_compute. reflexivity.
  - vm_compute. reflexivity.
  - vm_compute. reflexivity.
  - vm_compute. reflexivity.
  - vm_compute. reflexivity.
  - vm_compute. reflexivity.
  - exact (pair_of (receive_withdrawal (ex_state false) ex_large ex_clock) ex_large_served eq_refl).
  - split; [exact Hr|]. split; [|exact Hb]. rewrite Hs. reflexivity.
Defined.

#[local] Instance no_app_db : AppDb := {|
  AppConn := unit;
  app_open _ := Err "unable to open database file"%string;
  app_has_message_log _ := false;
  app_prepare _ := Ok tt;
  app_pending_after _ _ _ := Ok [];
|}.

(** The defaults, over a file. *)
Definition file_config : SequencerConfig.t :=
  SequencerConfig.mk "0.0.0.0:8433" 30000 10485760 false PublisherType.Local (Some "batches.db"%string) None
    "sequencer" None false false None None 30000 50 1048576 5000 None 1000 false None None None None None None None
    600 900.
Definition never (_ : BootstrapConfig.t) : option (result BootstrapError EvmKeyManager.t) := None.

Definition small_batch : ChangesetBatchRequest.t :=
  ChangesetBatchRequest.mk "b1" [ChangesetData.mk [x01] 1 1499] None.
Definition changeset (now : Z) : ProcessEvent := Arrive (CallChangesets small_batch) (Build_Clock now 10 0).
Definition replied (now : Z) : ProcessEvent := Resume 0 (Build_Clock now 15 0).
Definition run_one : Lifetime :=
  {| random := 5; began := 0;
     served := [changeset 1500; Arrive (CallWithdrawal ex_large) (Build_Clock 1503 20 0); replied 1503;
                FlushTimer (Build_Clock 1504 100 0)];
     stopped := Some (Build_Clock 1505 200 0) |}.
Definition run_two : Lifetime :=
  {| random := 6; began := 0; served := [changeset 1600; replied 1600]; stopped := None |}.

Abbreviation ex_lives := (lives false file_config (start_store : Store) never sql_open [run_one; run_two]).

Definition ex_numbers : list (list (Z * option string)) := [[(0, None)]; [(1, None)]].

Lemma file_config_keeps : keeps_file file_config.
Proof. split; [done|]. split; [by exists "batches.db"%string|done]. Qed.

Lemma ex_clock_ok z : (0 <=? z) && (z <? 10000) = true -> is_u64 z.
Proof. unfold is_u64. lia. Qed.

Lemma ex_lifetimes_ok : Forall (lifetime_ok false file_config never) [run_one; run_two].
Proof.
  repeat apply Forall_cons_2; [| |constructor];
    (split; [by eexists; split; [reflexivity|apply ref_signer_available]|split; [|split]]).
  - repeat (apply Forall_cons_2; [by apply ex_clock_ok|]). constructor.
  - repeat (apply Forall_cons_2; [done|]). constructor.
  - intros ck [= <-]. by apply ex_clock_ok.
  - repeat (apply Forall_cons_2; [by apply ex_clock_ok|]). constructor.
  - repeat (apply Forall_cons_2; [done|]). constructor.
  - done.
Qed.

Lemma ex_lives_numbers : snd <$> ex_lives = Some ex_numbers.
Proof. vm_compute. reflexivity. Qed.
Lemma ex_total : total_served [run_one; run_two] <= i64_max.
Proof. unfold i64_max, total_served. cbn. lia. Qed.

Lemma Forall3_two {A B C} (P : A -> B -> C -> Prop) a b x y l :
  Forall3 P [a; b] [x; y] l -> exists u v, l = [u; v] /\ P a x u /\ P b y v.
Proof.
  intros H. inversion H as [|? ? ? ? u l1 H1 Hr]; subst. inversion Hr as [|? ? ? ? v l2 H2 Hn]; subst.
  inversion Hn; subst. eauto.
Qed.


(** ** Two handlers that overtake each other *)
Definition run_overtaking : Lifetime :=
  {| random := 5; began := 0;
     served := [changeset 1500; changeset 1501; Resume 1 (Build_Clock 1502 20 0); Resume 0 (Build_Clock 1503 30 0)];
     stopped := Some (Build_Clock 1505 200 0) |}.

Lemma small_batch_fits n lt now :
  (if ser small_batch is Ok payload then
     match Inbox.sign_sequenced (EvmKeyManager.generate (random lt)) n now Changeset payload with
     | Ok (m, _) => 2 * size_of m <? 1048576
     | _ => false
     end
   else false) = true -> (0 <=? now) && (now <? 10000) = true ->
  fits false file_config never lt small_batch n (Build_Clock now 10 0).
Proof.
  intros H Hn. split; [by apply ex_clock_ok|]. destruct (ser small_batch) as [payload| |]; [|done..].
  split; [done|]. intros km p m rc [= <-] [= <-] Hm. cbn [AppState.now] in Hm. rewrite Hm in H. cbn. lia.
Qed.

Lemma overtaking_reuses_number_witness :
  exists file row, live false file_config (start_store : Store) never sql_open run_overtaking = Some (file, [(1, None); (0, None)]) /\
    ref_rows file = [(1, row)] /\ StoredBatch.start_sequence row = 1 /\ StoredBatch.end_sequence row = 0 /\
    live false file_config (start_store : Store) never file run_two = Some (file, [(1, None)]).
Proof.
  destruct (overtaking_reuses_number (rows := ref_rows) false file_config (start_store : Store) never
    run_overtaking run_two small_batch small_batch small_batch (Build_Clock 1500 10 0) (Build_Clock 1501 10 0)
    (Build_Clock 1502 20 0) (Build_Clock 1503 30 0) (Build_Clock 1505 200 0) (Build_Clock 1600 10 0) (Build_Clock 1600 15 0)
    (EvmKeyManager.generate (random run_overtaking)) (EvmKeyManager.generate (random run_two))) as (file & row & H1 & H2 & H3 & H4 & _ & H5).
  - exact file_config_keeps.
  - reflexivity.
  - reflexivity.
  - reflexivity.
  - apply ref_signer_available.
  - reflexivity.
  - reflexivity.
  - by apply ex_clock_ok.
  - apply small_batch_fits; vm_compute; reflexivity.
  - apply small_batch_fits; vm_compute; reflexivity.
  - reflexivity.
  - apply ref_signer_available.
  - reflexivity.
  - reflexivity.
  - apply small_batch_fits; vm_compute; reflexivity.
  - exists file, row. split; [exact H1|]. split; [exact H2|]. split; [exact H3|]. split; [exact H4|exact H5].
Defined.

(** ** A shutdown with a message pending *)
Definition first_process : Process.t := Eval vm_compute in
  match Process.start false file_config never (5 : PrivateKeySigner) sql_open (start_store : Store) 0 with
  | Ok p => p
  | _ => Process.mk (AppState.mk (Inbox.new demo_km) None None) MessageApiState.new None false
  end.
Definition busy_process : Process.t :=
  Process.mk (shared (fst (process_events (mkRunning (Process.app first_process) []) [changeset 1500; replied 1500])))
    (Process.messages first_process)
    (Process.monitor first_process) (Process.storage_routes first_process).
(** One message is pending and nothing is stored. *)
Definition busy_check : bool :=
  match batcher (Process.app busy_process) with
  | Some h =>
      match Batcher.transport (BatcherHandle.task h) with
      | AnyPublisher.Local (Local.Sqlite c) => Nat.eqb (length (ref_rows c)) 0 && Nat.eqb (length (pending_messages (BatcherHandle.task h))) 1
      | _ => false
      end
  | None => false
  end.
Lemma busy_checks : busy_check = true.
Proof. vm_compute. reflexivity. Qed.

Lemma first_process_starts :
  Process.start false file_config never (5 : PrivateKeySigner) sql_open (start_store : Store) 0 = Ok first_process.
Proof. reflexivity. Qed.

Lemma shutdown_complete_loses_pending_witness :
  snd (Process.shutdown_signal busy_process true) = Process.ShutdownComplete /\
  Process.app (fst (Process.shutdown_signal busy_process true)) = Process.app busy_process /\
  exists p' h m, batcher (Process.app busy_process) = Some h /\ m ∈ pending_messages (BatcherHandle.task h) /\
    Process.start false file_config never (6 : PrivateKeySigner) sql_open (start_store : Store) 0 = Ok p' /\
    Inbox.sequence (inbox (Process.app p')) <= seq_of m.
Proof.
  assert (Hempty : publisher_log (rows := ref_rows) (AnyPublisher.Local (Local.Sqlite sql_open)) []).
  { split; [by split; constructor|constructor]. }
  assert (Hnum : numbered 0 []) by (by repeat constructor).
  destruct (start_inv (rows := ref_rows) false file_config (start_store : Store) never sql_open [] 0 run_one demo_km demo_vk)
    as (p & Hp & Hinv & _); [exact file_config_keeps|exact Hempty|exact Hnum|unfold i64_max; lia|reflexivity|exact demo_key_bytes|].
  change (Process.start false file_config never (5 : PrivateKeySigner) sql_open (start_store : Store) 0 = Ok p) in Hp.
  rewrite first_process_starts in Hp. injection Hp as <-.
  destruct (process_events_inv (L := publisher_laws (rows := ref_rows)) demo_km demo_vk demo_key_bytes (ref_signer_available demo_km)
    [] [changeset 1500; replied 1500] (mkRunning (Process.app first_process) []) []) as (s & ms & Hev & [Hinv' _] & _).
  - split; [exact Hinv|constructor].
  - vm_compute. discriminate.
  - repeat (apply Forall_cons_2; [by apply ex_clock_ok|]). constructor.
  - repeat (apply Forall_cons_2; [done|]). constructor.
  - apply (f_equal (fun x => shared (fst x))) in Hev. cbn [fst] in Hev. rewrite <- Hev in Hinv'. pose proof busy_checks as Hb. unfold busy_check in Hb.
    destruct (batcher (Process.app busy_process)) as [h|] eqn:Eh; [|done].
    destruct (Batcher.transport (BatcherHandle.task h)) as [[mm|c]|g] eqn:Et; try done.
    apply andb_prop in Hb as [Hc Hpend]. destruct c as [|e c]; [|done].
    destruct (pending_messages (BatcherHandle.task h)) as [|m pend] eqn:Ep; [done|].
    destruct (shutdown_complete_loses_pending (rows := ref_rows) false file_config (start_store : Store) never demo_km
      (EvmKeyManager.generate (random run_two)) demo_vk [] 0 busy_process ms (map held_message (waiting s)) h sql_open m run_two
      Hinv' Hnum Eh Et) as (H1 & H2 & p' & H3 & H4);
      [rewrite Ep; apply list_elem_of_here|exact file_config_keeps|reflexivity|].
    split; [exact H1|]. split; [exact H2|]. exists p', h, m. split; [reflexivity|].
    rewrite Ep. split; [apply list_elem_of_here|]. split; [exact H3|exact H4].
Defined.

(** ** A restart over a bucket with one batch *)
Definition cloud_config : SequencerConfig.t :=
  SequencerConfig.mk "0.0.0.0:8433" 30000 10485760 false PublisherType.Gcs None (Some ref_bucket)
    "prod/v1" None false false None None 30000 50 1048576 5000 None 1000 false None None None None None None None
    600 900.

Lemma cloud_restart_reuses_numbers_witness :
  exists st0 p, bucket_log (objects := fun st : @Store ref_store => st) "prod/v1" st0 [toy_batch 0 0] /\
    Process.start false cloud_config never (random run_one) sql_open st0 0 = Ok p /\
    forall r ck st' status resp, receive_changesets (Process.app p) r ck = (st', Ok (status, resp)) ->
      batch_contains (SequenceResponse.sequence resp) (toy_batch 0 0) = true.
Proof.
  destruct (publish_cloud (OL := ref_store_laws) seq_client start_cloud [] (toy_batch 0 0) seq_client_reaches start_cloud_log)
    as (tr & md & _ & [_ Hlog] & _); [apply toy_batch_publishable; unfold i64_max; lia|constructor|].
  exists (GcsTransport.store tr).
  destruct (Process.start false cloud_config never (random run_one) sql_open (GcsTransport.store tr) 0)
    as [p|e|w] eqn:Ep; [|discriminate Ep|discriminate Ep].
  exists p. split; [exact Hlog|]. split; [reflexivity|].
  exact (proj1 (cloud_restart_reuses_numbers (OL := ref_store_laws) false cloud_config never (random run_one) sql_open
    (GcsTransport.store tr) 0 p [toy_batch 0 0] (toy_batch 0 0) eq_refl eq_refl Ep Hlog (list_elem_of_here _ _) eq_refl)).
Defined.
