(* ===== verification/ClientSender.v ===== *)
(** * The client's background senders
    (crates/synddb-client/src: config.rs, stats.rs, retry.rs, recovery.rs, sender.rs,
    snapshot_sender.rs)

    A sender is a thread that owns its state; [run] is the fold of [step] over what
    its [select!] receives.  A step returns, with the state, the requests the
    sequencer acknowledged.  A panic ends the thread.  [SystemTime] is in nanoseconds
    since the Unix epoch, [Instant] and [Duration] in milliseconds.  The recovery
    database is its two tables; whether a statement succeeds is an argument. *)
From Stdlib Require Import Ascii Strings.Byte.
From S2P Require Import Prelude RustStd Extern Net Outbound Applier BootClients Bootstrap.

(** ** config.rs *)
Module Config.
Record t := mk {
  sequencer_url : string;
  buffer_size : Z;
  push_interval : Z;
  max_batch_size : Z;
  max_retries : nat;
  snapshot_request_timeout : Z;
  snapshot_interval : Z;
  enable_recovery : bool;
  disable_attestation : bool;
  attestation_token_type : TokenType;
}.

(** The defaults of the command line. *)
Definition default : t :=
  mk "http://localhost:8433/" 100 1000 1048576 3 10000 100 false false Oidc.
End Config.

(** ** session.rs: the data that reaches the senders *)
Module Changeset.
Record t := mk { data : bytes; sequence : Z; timestamp : Z }.
End Changeset.
Module Snapshot.
Record t := mk { data : bytes; timestamp : Z; sequence : Z }.
End Snapshot.

Definition NANOS_PER_SEC : Z := 10 ^ 9.
(** [ts.duration_since(UNIX_EPOCH)?.as_secs()] *)
Definition unix_secs (ts : Z) : result string Z :=
  if ts <? 0 then Err "second time provided was later than self"%string else Ok (ts / NANOS_PER_SEC).
(** [.map(|d| d.as_secs()).unwrap_or(0)] *)
Definition unix_secs_or_0 (ts : Z) : Z := match unix_secs ts with Ok s => s | _ => 0 end.

Definition changeset_data_from (cs : Changeset.t) : ChangesetData.t :=
  ChangesetData.mk (Changeset.data cs) (Changeset.sequence cs) (unix_secs_or_0 (Changeset.timestamp cs)).
Definition snapshot_data_from (s : Snapshot.t) : SnapshotData.t :=
  SnapshotData.mk (Snapshot.data s) (unix_secs_or_0 (Snapshot.timestamp s)) (Snapshot.sequence s).

(** ** stats.rs *)
Module ReplicationStats.
Record t := mk {
  pending_changesets : Z;
  pushed_changesets : Z;
  failed_pushes : Z;
  last_health_check_ok : bool;
  last_push_time : option Z;
  last_health_check_time : option Z;
}.
Definition new : t := mk 0 0 0 false None None.
Definition pending_count (s : t) : Z := pending_changesets s.
Definition pushed_count (s : t) : Z := pushed_changesets s.
Definition failed_count (s : t) : Z := failed_pushes s.
Definition is_healthy (s : t) : bool := last_health_check_ok s.

Definition increment_pending (s : t) : t :=
  mk (u64_add (pending_changesets s) 1) (pushed_changesets s) (failed_pushes s)
     (last_health_check_ok s) (last_push_time s) (last_health_check_time s).
(** [fetch_sub] wraps. *)
Definition decrement_pending (s : t) (n : nat) : t :=
  mk (u64_sub (pending_changesets s) (Z.of_nat n)) (pushed_changesets s) (failed_pushes s)
     (last_health_check_ok s) (last_push_time s) (last_health_check_time s).
Definition record_push (s : t) (count : nat) (now : Z) : t :=
  let s := decrement_pending
             (mk (pending_changesets s) (u64_add (pushed_changesets s) (Z.of_nat count)) (failed_pushes s)
                 (last_health_check_ok s) (last_push_time s) (last_health_check_time s)) count in
  mk (pending_changesets s) (pushed_changesets s) (failed_pushes s)
     (last_health_check_ok s) (Some now) (last_health_check_time s).
Definition record_failure (s : t) : t :=
  mk (pending_changesets s) (pushed_changesets s) (u64_add (failed_pushes s) 1)
     (last_health_check_ok s) (last_push_time s) (last_health_check_time s).
Definition record_health_check (s : t) (ok : bool) (now : Z) : t :=
  mk (pending_changesets s) (pushed_changesets s) (failed_pushes s) ok (last_push_time s)
     (if ok then Some now else last_health_check_time s).
End ReplicationStats.

Module StatsSnapshot.
Record t := mk { pending_changesets : Z; pushed_changesets : Z; failed_pushes : Z; is_healthy : bool }.
Definition from_stats (s : ReplicationStats.t) : t :=
  mk (ReplicationStats.pending_count s) (ReplicationStats.pushed_count s)
     (ReplicationStats.failed_count s) (ReplicationStats.is_healthy s).
End StatsSnapshot.

(** ** retry.rs *)

(** The sleeps taken, in seconds, and the result.  [1 << attempt] shifts a 64-bit
    number. *)
Fixpoint retry_loop {E} (attempts attempt : nat) (operation : nat -> result E unit)
  : list Z * result E unit :=
  match attempts with
  | O => ([], Panic "internal error: entered unreachable code")
  | S rest =>
      match operation attempt with
      | Ok _ => ([], Ok tt)
      | Panic w => ([], Panic w)
      | Err e =>
          match rest with
          | O => ([], Err e)
          | S _ =>
              let '(slept, r) := retry_loop rest (S attempt) operation in
              (2 ^ (Z.of_nat attempt mod 64) :: slept, r)
          end
      end
  end.
Definition retry_with_backoff {E} (max_retries : nat) (operation : nat -> result E unit)
  : list Z * result E unit := retry_loop max_retries 0 operation.

(** ** recovery.rs *)
Module FailedRow.
Record t := mk {
  id : Z;
  sequence : Z;
  data : bytes;
  timestamp : Z;
  failed_at : Z;
  retry_count : Z;
  last_error : string;
}.
End FailedRow.

(** A table of failed items: the rows by id and the [AUTOINCREMENT] counter. *)
Module FailedTable.
Record t := mk { rows : list FailedRow.t; last_id : Z }.
Definition empty : t := mk [] 0.
Definition insert (tb : t) (sequence : Z) (data : bytes) (timestamp : Z) (error : string) (now : Z) : t :=
  mk (rows tb ++ [FailedRow.mk (last_id tb + 1) sequence data timestamp now 0 error]) (last_id tb + 1).
Definition delete (tb : t) (id : Z) : t :=
  mk (List.filter (fun r => negb (FailedRow.id r =? id)) (rows tb)) (last_id tb).
Definition bump (error : string) (r : FailedRow.t) : FailedRow.t :=
  FailedRow.mk (FailedRow.id r) (FailedRow.sequence r) (FailedRow.data r) (FailedRow.timestamp r)
    (FailedRow.failed_at r) (FailedRow.retry_count r + 1) error.
Definition increment_retry (tb : t) (id : Z) (error : string) : t :=
  mk (map (fun r => if FailedRow.id r =? id then bump error r else r) (rows tb)) (last_id tb).
Definition delete_before (tb : t) (cutoff : Z) : t * nat :=
  let kept := List.filter (fun r => negb (FailedRow.failed_at r <? cutoff)) (rows tb) in
  (mk kept (last_id tb), (length (rows tb) - length kept)%nat).

(** [ORDER BY sequence]; equal numbers come in the order of the index, which is the
    row id. *)
Fixpoint insert_by_sequence (r : FailedRow.t) (l : list FailedRow.t) : list FailedRow.t :=
  match l with
  | [] => [r]
  | r' :: l' => if FailedRow.sequence r <? FailedRow.sequence r' then r :: l
                else r' :: insert_by_sequence r l'
  end.
Definition order_by_sequence (l : list FailedRow.t) : list FailedRow.t :=
  fold_left (fun acc r => insert_by_sequence r acc) l [].
End FailedTable.

(** [UNIX_EPOCH + Duration::from_secs(secs as u64)] *)
Definition epoch_plus_secs (secs : Z) : result string Z :=
  if i64_max <? as_u64 secs then Panic "overflow when adding duration to instant"
  else Ok (as_u64 secs * NANOS_PER_SEC).

Module FailedBatchRecovery.
Record t := mk { failed_changesets : FailedTable.t; failed_snapshots : FailedTable.t }.
Definition with_changesets (r : t) (tb : FailedTable.t) : t := mk tb (failed_snapshots r).
Definition with_snapshots (r : t) (tb : FailedTable.t) : t := mk (failed_changesets r) tb.

(** [CREATE TABLE IF NOT EXISTS] leaves the tables of an earlier run as they are. *)
Definition new (opened : result string (option t)) : result string t :=
  match opened with
  | Ok (Some r) => Ok r
  | Ok None => Ok (mk FailedTable.empty FailedTable.empty)
  | Err _ => Err "Failed to open recovery database"%string
  | Panic w => Panic w
  end.

(** [io] is the outcome of the statement, [now] the default of [failed_at]. *)
Definition save_failed_changeset (r : t) (cs : Changeset.t) (error : string) (now : Z)
    (io : result string unit) : t * result string unit :=
  match (let? secs := unix_secs (Changeset.timestamp cs) in
         let? _ := map_err (fun _ => "Failed to save failed changeset"%string) io in Ok secs) with
  | Ok secs =>
      (with_changesets r (FailedTable.insert (failed_changesets r) (as_i64 (Changeset.sequence cs))
         (Changeset.data cs) (as_i64 secs) error now), Ok tt)
  | Err e => (r, Err e)
  | Panic w => (r, Panic w)
  end.

Definition save_failed_snapshot (r : t) (s : Snapshot.t) (error : string) (now : Z)
    (io : result string unit) : t * result string unit :=
  match (let? secs := unix_secs (Snapshot.timestamp s) in
         let? _ := map_err (fun _ => "Failed to save failed snapshot"%string) io in Ok secs) with
  | Ok secs =>
      (with_snapshots r (FailedTable.insert (failed_snapshots r) (as_i64 (Snapshot.sequence s))
         (Snapshot.data s) (as_i64 secs) error now), Ok tt)
  | Err e => (r, Err e)
  | Panic w => (r, Panic w)
  end.

Definition changeset_of_row (row : FailedRow.t) : result string (Z * Changeset.t) :=
  let? ts := epoch_plus_secs (FailedRow.timestamp row) in
  Ok (FailedRow.id row, Changeset.mk (FailedRow.data row) (as_u64 (FailedRow.sequence row)) ts).
Definition snapshot_of_row (row : FailedRow.t) : result string (Z * Snapshot.t) :=
  let? ts := epoch_plus_secs (FailedRow.timestamp row) in
  Ok (FailedRow.id row, Snapshot.mk (FailedRow.data row) ts (as_u64 (FailedRow.sequence row))).

Definition get_failed_changesets (r : t) (io : result string unit) : result string (list (Z * Changeset.t)) :=
  let? _ := io in
  map_result changeset_of_row (FailedTable.order_by_sequence (FailedTable.rows (failed_changesets r))).
Definition get_failed_snapshots (r : t) (io : result string unit) : result string (list (Z * Snapshot.t)) :=
  let? _ := io in
  map_result snapshot_of_row (FailedTable.order_by_sequence (FailedTable.rows (failed_snapshots r))).

Definition on_ok {A} (io : result string unit) (r r' : t) (a : A) : t * result string A :=
  match io with Ok _ => (r', Ok a) | Err e => (r, Err e) | Panic w => (r, Panic w) end.

Definition remove_changeset (r : t) (id : Z) (io : result string unit) : t * result string unit :=
  on_ok io r (with_changesets r (FailedTable.delete (failed_changesets r) id)) tt.
Definition remove_snapshot (r : t) (id : Z) (io : result string unit) : t * result string unit :=
  on_ok io r (with_snapshots r (FailedTable.delete (failed_snapshots r) id)) tt.
Definition increment_changeset_retry (r : t) (id : Z) (error : string) (io : result string unit)
  : t * result string unit :=
  on_ok io r (with_changesets r (FailedTable.increment_retry (failed_changesets r) id error)) tt.
Definition increment_snapshot_retry (r : t) (id : Z) (error : string) (io : result string unit)
  : t * result string unit :=
  on_ok io r (with_snapshots r (FailedTable.increment_retry (failed_snapshots r) id error)) tt.

Definition get_failed_counts (r : t) (io : result string unit) : result string (nat * nat) :=
  let? _ := io in
  Ok (length (FailedTable.rows (failed_changesets r)), length (FailedTable.rows (failed_snapshots r))).

(** The two deletions succeed or fail one by one. *)
Definition cleanup_old_failures (r : t) (days : Z) (now : Z) (io1 io2 : result string unit)
  : t * result string (nat * nat) :=
  match unix_secs (now - days * 24 * 60 * 60 * NANOS_PER_SEC) with
  | Ok cutoff =>
      let '(cs, n) := FailedTable.delete_before (failed_changesets r) (as_i64 cutoff) in
      let '(sn, m) := FailedTable.delete_before (failed_snapshots r) (as_i64 cutoff) in
      let r1 := with_changesets r cs in
      match io1 with
      | Ok _ => on_ok io2 r1 (with_snapshots r1 sn) (n, m)
      | Err e => (r, Err e)
      | Panic w => (r, Panic w)
      end
  | Err e => (r, Err e)
  | Panic w => (r, Panic w)
  end.
End FailedBatchRecovery.

(** ** sender.rs *)
Inductive SendError :=
| Http (e : string)
| Cbor (e : string)
| InvalidUrl (e : string).
Definition SendError_to_string (e : SendError) : string :=
  match e with
  | Http s => "HTTP error: " +:+ s
  | Cbor s => "CBOR serialization error: " +:+ s
  | InvalidUrl s => "Invalid URL: " +:+ s
  end.

(** [Url::join], and the text of the error [error_for_status] makes of a 4xx or 5xx. *)
Class ReqwestUrl := {
  url_join : string -> string -> result string string;
  status_error_text : string -> Z -> string;
}.
Definition is_error_status (status : Z) : bool := (400 <=? status) && (status <? 600).

Definition CBOR_HEADERS : list (string * string) := [("Content-Type", "application/cbor")]%string.

(** What a step of a sender meets: the clocks (the monotonic one at its start and when
    its request has ended), the numbers of its next request and
    token request, a fresh UUID and the outcomes of its statements. *)
Module Env.
Record t := mk {
  now : Z;
  finished : Z;
  wall : Z;
  request_no : nat;
  token_no : nat;
  uuid : string;
  disk : nat -> result string unit;
}.
(** [unixepoch()] *)
Definition unixepoch (e : t) : Z := wall e / NANOS_PER_SEC.
End Env.

Section post.
Context `{HN : HttpNet} `{UR : ReqwestUrl}.
(** [client.post(url)...send().await?.error_for_status()?] *)
Definition post_cbor (base path : string) (body : result string bytes) (n : nat) : result SendError unit :=
  let? url := map_err InvalidUrl (url_join base path) in
  let? cbor_bytes := map_err Cbor body in
  match http_post url CBOR_HEADERS cbor_bytes n with
  | Net.SendError e => Err (Http (NetError.text e))
  | Response status _ =>
      if is_error_status status then Err (Http (status_error_text url status)) else Ok tt
  end.

Context `{TS : TeeSocket} `{JQ : ToJson AttestationRequest.t} `{JR : FromJson AttestationResponse.t}.
(** A token if one can be had; a panic while reading the answer is one of the thread. *)
Definition obtain_token (attestation : option AttestationClient.t) (env : Env.t)
  : option AttestationClient.t * result unit (option string) :=
  match attestation with
  | None => (None, Ok None)
  | Some a =>
      let '(a', r) := AttestationClient.get_token a (Env.now env) (Env.token_no env) in
      (Some a', match r with Ok token => Ok (Some token) | Err _ => Ok None | Panic w => Panic w end)
  end.
End post.

Module ChangesetSender.
Record t := mk {
  config : Config.t;
  buffer : list Changeset.t;
  buffer_size : Z;
  last_flush : Z;
  recovery : option FailedBatchRecovery.t;
  attestation : option AttestationClient.t;
  stats : ReplicationStats.t;
}.
Definition with_recovery (s : t) (r : option FailedBatchRecovery.t) : t :=
  mk (config s) (buffer s) (buffer_size s) (last_flush s) r (attestation s) (stats s).
Definition with_attestation (s : t) (a : option AttestationClient.t) : t :=
  mk (config s) (buffer s) (buffer_size s) (last_flush s) (recovery s) a (stats s).
Definition with_stats (s : t) (st : ReplicationStats.t) : t :=
  mk (config s) (buffer s) (buffer_size s) (last_flush s) (recovery s) (attestation s) st.

(** [Ok(changeset)] from the channel, the channel closed, and the shutdown signal
    with what [try_recv] then drains. *)
Inductive Event :=
| Received (cs : Changeset.t) (env : Env.t)
| ChannelClosed
| Shutdown (drained : list Changeset.t) (env : Env.t).

Section ops.
Context `{HN : HttpNet} `{UR : ReqwestUrl} `{TS : TeeSocket}.
Context `{JQ : ToJson AttestationRequest.t} `{JR : FromJson AttestationResponse.t}.
Context `{SC : Serde ChangesetBatchRequest.t}.

Definition new (config : Config.t) (recovery : option FailedBatchRecovery.t)
    (attestation : option AttestationClient.t) (stats : ReplicationStats.t) (now : Z) : result SendError t :=
  let? _ := map_err Http client_build in
  Ok (mk config [] 0 now recovery attestation stats).

Definition should_flush (s : t) (now : Z) : bool :=
  (Config.buffer_size (config s) <=? Z.of_nat (length (buffer s)))
  || (Config.max_batch_size (config s) <=? buffer_size s)
  || (Config.push_interval (config s) <=? now - last_flush s).

Definition send_batch (s : t) (batch : ChangesetBatchRequest.t) (n : nat) : result SendError unit :=
  post_cbor (Config.sequencer_url (config s)) "changesets" (ser batch) n.

Definition send_with_retries (s : t) (batch : ChangesetBatchRequest.t) (env : Env.t) : result SendError unit :=
  snd (retry_with_backoff (Config.max_retries (config s))
         (fun attempt => send_batch s batch (Env.request_no env + attempt))).

(** Each changeset is saved on its own; a failure to save is only logged. *)
Fixpoint save_all (r : FailedBatchRecovery.t) (changesets : list Changeset.t) (i : nat) (env : Env.t)
  : FailedBatchRecovery.t :=
  match changesets with
  | [] => r
  | cs :: rest =>
      save_all (fst (FailedBatchRecovery.save_failed_changeset r cs "Max retries exceeded"
                       (Env.unixepoch env) (Env.disk env i))) rest (S i) env
  end.

Definition flush (s : t) (env : Env.t) : t * list ChangesetBatchRequest.t * result unit unit :=
  match buffer s with
  | [] => (s, [], Ok tt)
  | changesets_raw =>
      let '(a, token) := obtain_token (attestation s) env in
      let s := with_attestation s a in
      match token with
      | Panic w => (s, [], Panic w)
      | Err u => (s, [], Err u)
      | Ok attestation_token =>
          let s := mk (config s) [] (buffer_size s) (last_flush s) (recovery s) (attestation s) (stats s) in
          let batch := ChangesetBatchRequest.mk (Env.uuid env) (map changeset_data_from changesets_raw)
                         attestation_token in
          let batch_count := length (ChangesetBatchRequest.changesets batch) in
          match send_with_retries s batch env with
          | Ok _ =>
              (mk (config s) [] 0 (Env.finished env) (recovery s) (attestation s)
                 (ReplicationStats.record_push (stats s) batch_count (Env.finished env)), [batch], Ok tt)
          | Panic w => (s, [], Panic w)
          | Err _ =>
              let s := with_stats s (ReplicationStats.record_failure (stats s)) in
              let s := with_recovery s ((fun r => save_all r changesets_raw 0 env) <$> recovery s) in
              (with_stats s (ReplicationStats.decrement_pending (stats s) batch_count), [], Ok tt)
          end
      end
  end.

Definition accept (s : t) (cs : Changeset.t) : t :=
  mk (config s) (buffer s ++ [cs]) (u64_add (buffer_size s) (Z.of_nat (length (Changeset.data cs))))
     (last_flush s) (recovery s) (attestation s) (ReplicationStats.increment_pending (stats s)).

(** One turn of the loop: the state, what was acknowledged, and whether it goes on. *)
Definition step (s : t) (ev : Event) : t * list ChangesetBatchRequest.t * result unit bool :=
  match ev with
  | Received cs env =>
      let s := accept s cs in
      if should_flush s (Env.now env)
      then let '(s', acked, r) := flush s env in (s', acked, let? _ := r in Ok true)
      else (s, [], Ok true)
  | ChannelClosed => (s, [], Ok false)
  | Shutdown drained env =>
      let '(s', acked, r) := flush (fold_left accept drained s) env in
      (s', acked, let? _ := r in Ok false)
  end.

Fixpoint main_loop (s : t) (events : list Event) : t * list ChangesetBatchRequest.t * result unit bool :=
  match events with
  | [] => (s, [], Ok true)
  | ev :: events' =>
      let '(s1, acked1, r) := step s ev in
      match r with
      | Ok true => let '(s2, acked2, r2) := main_loop s1 events' in (s2, acked1 ++ acked2, r2)
      | _ => (s1, acked1, r)
      end
  end.

(** One row of the recovery table after the other, each with its own token, request
    and statement. *)
Fixpoint retry_rows (s : t) (failed : list (Z * Changeset.t)) (i : nat) (envs : nat -> Env.t)
  : t * list ChangesetBatchRequest.t * result unit unit :=
  match failed, recovery s with
  | (id, changeset) :: rest, Some r =>
      let env := envs i in
      let '(a, token) := obtain_token (attestation s) env in
      let s := with_attestation s a in
      match token with
      | Panic w => (s, [], Panic w)
      | Err u => (s, [], Err u)
      | Ok attestation_token =>
          let batch := ChangesetBatchRequest.mk (Env.uuid env) [changeset_data_from changeset] attestation_token in
          match send_with_retries s batch env with
          | Ok _ =>
              let r' := fst (FailedBatchRecovery.remove_changeset r id (Env.disk env 0)) in
              let '(s', acked, res) := retry_rows (with_recovery s (Some r')) rest (S i) envs in
              (s', batch :: acked, res)
          | Panic w => (s, [], Panic w)
          | Err e =>
              let r' := fst (FailedBatchRecovery.increment_changeset_retry r id (SendError_to_string e)
                               (Env.disk env 0)) in
              retry_rows (with_recovery s (Some r')) rest (S i) envs
          end
      end
  | _, _ => (s, [], Ok tt)
  end.

(** [disk 0] and [disk 1] of [env] are the clean-up's deletions, [disk 2] the query. *)
Definition retry_failed_changesets (s : t) (env : Env.t) (envs : nat -> Env.t)
  : t * list ChangesetBatchRequest.t * result unit unit :=
  match recovery s with
  | None => (s, [], Ok tt)
  | Some r =>
      let r := fst (FailedBatchRecovery.cleanup_old_failures r 7 (Env.wall env) (Env.disk env 0) (Env.disk env 1)) in
      let s := with_recovery s (Some r) in
      match FailedBatchRecovery.get_failed_changesets r (Env.disk env 2) with
      | Ok failed => retry_rows s failed 0 envs
      | Err _ => (s, [], Ok tt)
      | Panic w => (s, [], Panic w)
      end
  end.

Definition run (s : t) (env : Env.t) (envs : nat -> Env.t) (events : list Event)
  : t * list ChangesetBatchRequest.t * result unit bool :=
  let '(s1, acked1, r) := retry_failed_changesets s env envs in
  match r with
  | Ok _ => let '(s2, acked2, r2) := main_loop s1 events in (s2, acked1 ++ acked2, r2)
  | Err u => (s1, acked1, Err u)
  | Panic w => (s1, acked1, Panic w)
  end.
End ops.
End ChangesetSender.

(** ** snapshot_sender.rs *)
Module SnapshotSender.
Record t := mk {
  config : Config.t;
  recovery : option FailedBatchRecovery.t;
  attestation : option AttestationClient.t;
}.
Definition with_recovery (s : t) (r : option FailedBatchRecovery.t) : t := mk (config s) r (attestation s).
Definition with_attestation (s : t) (a : option AttestationClient.t) : t := mk (config s) (recovery s) a.

Inductive Event :=
| Received (snapshot : Snapshot.t) (env : Env.t)
| ChannelClosed
| Shutdown.

Section ops.
Context `{HN : HttpNet} `{UR : ReqwestUrl} `{TS : TeeSocket}.
Context `{JQ : ToJson AttestationRequest.t} `{JR : FromJson AttestationResponse.t}.
Context `{SS : Serde SnapshotRequest.t}.

Definition new (config : Config.t) (recovery : option FailedBatchRecovery.t)
    (attestation : option AttestationClient.t) : result SendError t :=
  let? _ := map_err Http client_build in Ok (mk config recovery attestation).

Definition send_snapshot_internal (s : t) (request : SnapshotRequest.t) (n : nat) : result SendError unit :=
  post_cbor (Config.sequencer_url (config s)) "snapshots" (ser request) n.

Definition send_with_retries (s : t) (request : SnapshotRequest.t) (env : Env.t) : result SendError unit :=
  snd (retry_with_backoff (Config.max_retries (config s))
         (fun attempt => send_snapshot_internal s request (Env.request_no env + attempt))).

Definition send_snapshot (s : t) (snapshot : Snapshot.t) (env : Env.t)
  : t * list SnapshotRequest.t * result unit unit :=
  let '(a, token) := obtain_token (attestation s) env in
  let s := with_attestation s a in
  match token with
  | Panic w => (s, [], Panic w)
  | Err u => (s, [], Err u)
  | Ok attestation_token =>
      let request := SnapshotRequest.mk (snapshot_data_from snapshot) (Env.uuid env) attestation_token in
      match send_with_retries s request env with
      | Ok _ => (s, [request], Ok tt)
      | Panic w => (s, [], Panic w)
      | Err _ =>
          (with_recovery s
             ((fun r => fst (FailedBatchRecovery.save_failed_snapshot r snapshot "Max retries exceeded"
                               (Env.unixepoch env) (Env.disk env 0))) <$> recovery s), [], Ok tt)
      end
  end.

Fixpoint main_loop (s : t) (events : list Event) : t * list SnapshotRequest.t * result unit bool :=
  match events with
  | [] => (s, [], Ok true)
  | Received snapshot env :: events' =>
      let '(s1, acked1, r) := send_snapshot s snapshot env in
      match r with
      | Ok _ => let '(s2, acked2, r2) := main_loop s1 events' in (s2, acked1 ++ acked2, r2)
      | Err u => (s1, acked1, Err u)
      | Panic w => (s1, acked1, Panic w)
      end
  | _ :: _ => (s, [], Ok false)
  end.

Fixpoint retry_rows (s : t) (failed : list (Z * Snapshot.t)) (i : nat) (envs : nat -> Env.t)
  : t * list SnapshotRequest.t * result unit unit :=
  match failed, recovery s with
  | (id, snapshot) :: rest, Some r =>
      let env := envs i in
      let '(a, token) := obtain_token (attestation s) env in
      let s := with_attestation s a in
      match token with
      | Panic w => (s, [], Panic w)
      | Err u => (s, [], Err u)
      | Ok attestation_token =>
          let request := SnapshotRequest.mk (snapshot_data_from snapshot) (Env.uuid env) attestation_token in
          match send_with_retries s request env with
          | Ok _ =>
              let r' := fst (FailedBatchRecovery.remove_snapshot r id (Env.disk env 0)) in
              let '(s', acked, res) := retry_rows (with_recovery s (Some r')) rest (S i) envs in
              (s', request :: acked, res)
          | Panic w => (s, [], Panic w)
          | Err e =>
              let r' := fst (FailedBatchRecovery.increment_snapshot_retry r id (SendError_to_string e)
                               (Env.disk env 0)) in
              retry_rows (with_recovery s (Some r')) rest (S i) envs
          end
      end
  | _, _ => (s, [], Ok tt)
  end.

Definition retry_failed_snapshots (s : t) (env : Env.t) (envs : nat -> Env.t)
  : t * list SnapshotRequest.t * result unit unit :=
  match recovery s with
  | None => (s, [], Ok tt)
  | Some r =>
      match FailedBatchRecovery.get_failed_snapshots r (Env.disk env 0) with
      | Ok failed => retry_rows s failed 0 envs
      | Err _ => (s, [], Ok tt)
      | Panic w => (s, [], Panic w)
      end
  end.

Definition run (s : t) (env : Env.t) (envs : nat -> Env.t) (events : list Event)
  : t * list SnapshotRequest.t * result unit bool :=
  let '(s1, acked1, r) := retry_failed_snapshots s env envs in
  match r with
  | Ok _ => let '(s2, acked2, r2) := main_loop s1 events in (s2, acked1 ++ acked2, r2)
  | Err u => (s1, acked1, Err u)
  | Panic w => (s1, acked1, Panic w)
  end.
End ops.
End SnapshotSender.
