(* ===== verification/ClientSession.v ===== *)
(** * Change capture and the client handle
    (crates/synddb-client/src: session.rs, ddl_recovery.rs, lib.rs)

    The session state lives on the application's thread; the application's own writes
    are events that change the database and, through the update hook, the
    [has_changes] flag.  [n] numbers the calls, so that SQLite and the file system may
    answer differently each time; [now] is the system time.  The DDL markers of the
    temporary directory are a set of database paths (the file name is a hash of the
    path).  [ClientHandle] puts the calls and the two sender threads of [ClientSender]
    together: their start, their turns, and how they are stopped. *)
From Stdlib Require Import Ascii Strings.Byte.
From S2P Require Import Prelude RustStd Extern Net Applier BootClients Bootstrap ClientSender.

(** [std::collections::hash_map::DefaultHasher] *)
Class Hasher := {
  HasherState : Type;
  hasher_new : HasherState;
  hash_str : HasherState -> string -> HasherState;
  hash_u64 : HasherState -> Z -> HasherState;
  hasher_finish : HasherState -> Z;
}.

(** rusqlite's session and backup interface on the application's connection. *)
Class Capture `{Session} := {
  CapSession : Type;
  is_autocommit : Db -> bool;
  (** type, name and sql of the objects whose name is not [sqlite_...], by type and name *)
  schema_items : Db -> nat -> result string (list (string * string * string));
  (** [Session::new] and [attach(None)] *)
  session_new : Db -> nat -> result string CapSession;
  session_attach : CapSession -> nat -> result string CapSession;
  (** [changeset_strm]: the changes since the session was created *)
  changeset_strm : CapSession -> Db -> nat -> result string bytes;
  (** backup into a temporary file and [fs::read], with the context of the step that fails *)
  backup_bytes : Db -> nat -> result string bytes;
}.

(** ** crossbeam channels: [bounded], [try_send] *)
Module Chan.
Record t (A : Type) := mk { queue : list A; capacity : nat; receiver_alive : bool }.
Arguments mk {A}. Arguments queue {A}. Arguments capacity {A}. Arguments receiver_alive {A}.
Definition bounded {A} (capacity : nat) : t A := mk [] capacity true.
Definition try_send {A} (c : t A) (a : A) : t A * result string unit :=
  if negb (receiver_alive c) then (c, Err "sending on a disconnected channel"%string)
  else if Nat.leb (capacity c) (length (queue c)) then (c, Err "sending on a full channel"%string)
  else (mk (queue c ++ [a]) (capacity c) true, Ok tt).
End Chan.

(** ** session.rs *)
Module SessionState.
Section ops.
Context `{SE : Session} `{HA : Hasher} `{CP : !Capture}.

Record t := mk {
  session : CapSession;
  changeset_tx : Chan.t Changeset.t;
  sequence : Z;
  conn : Db;
  snapshot_interval : Z;
  changesets_since_snapshot : Z;
  snapshot_tx : option (Chan.t Snapshot.t);
  has_changes : bool;
  last_schema_hash : Z;
}.
Definition with_session (s : t) (x : CapSession) : t :=
  mk x (changeset_tx s) (sequence s) (conn s) (snapshot_interval s) (changesets_since_snapshot s)
     (snapshot_tx s) (has_changes s) (last_schema_hash s).
Definition with_snapshot_tx (s : t) (c : option (Chan.t Snapshot.t)) : t :=
  mk (session s) (changeset_tx s) (sequence s) (conn s) (snapshot_interval s) (changesets_since_snapshot s)
     c (has_changes s) (last_schema_hash s).
Definition with_counters (s : t) (sequence since : Z) : t :=
  mk (session s) (changeset_tx s) sequence (conn s) (snapshot_interval s) since
     (snapshot_tx s) (has_changes s) (last_schema_hash s).
Definition with_flags (s : t) (has_changes : bool) (hash : Z) : t :=
  mk (session s) (changeset_tx s) (sequence s) (conn s) (snapshot_interval s) (changesets_since_snapshot s)
     (snapshot_tx s) has_changes hash.
Definition with_changeset_tx (s : t) (c : Chan.t Changeset.t) : t :=
  mk (session s) c (sequence s) (conn s) (snapshot_interval s) (changesets_since_snapshot s)
     (snapshot_tx s) (has_changes s) (last_schema_hash s).

Definition recreate_session (s : t) (n : nat) : t * result string unit :=
  match (let? x := map_err (fun _ => "Failed to create new SQLite session"%string) (session_new (conn s) n) in
         map_err (fun _ => "Failed to attach new session to tables"%string) (session_attach x n)) with
  | Ok x => (with_session s x, Ok tt)
  | Err e => (s, Err e)
  | Panic w => (s, Panic w)
  end.

Definition compute_schema_hash (c : Db) (n : nat) : Z :=
  hasher_finish
    match schema_items c n with
    | Ok items =>
        fold_left (fun h '(type_, name, sql) => hash_str (hash_str (hash_str h type_) name) sql) items hasher_new
    | _ => hash_u64 hasher_new 0
    end.
End ops.
End SessionState.
Arguments SessionState.t {SE CP}.

Module SessionMonitor.
Import SessionState.
Section ops.
Context `{SE : Session} `{HA : Hasher} `{CP : !Capture}.

(** [SessionMonitor::new] fills the thread-local state. *)
Definition new (conn : Db) (changeset_tx : Chan.t Changeset.t) (snapshot_interval : Z)
    (snapshot_tx : option (Chan.t Snapshot.t)) (n : nat) : result string SessionState.t :=
  let? x := map_err (fun _ => "Failed to create SQLite session"%string) (session_new conn n) in
  let? x := map_err (fun _ => "Failed to attach session to tables"%string) (session_attach x n) in
  Ok (SessionState.mk x changeset_tx 0 conn snapshot_interval 0 snapshot_tx false (compute_schema_hash conn n)).

(** The update hook of [start]. *)
Definition update_hook (s : SessionState.t) : SessionState.t := with_flags s true (last_schema_hash s).

(** The application writes: the database changes, and the hook runs if SQLite calls it. *)
Definition app_write (s : SessionState.t) (db : Db) (hooked : bool) : SessionState.t :=
  let s := SessionState.mk (session s) (changeset_tx s) (sequence s) db (snapshot_interval s)
             (changesets_since_snapshot s) (snapshot_tx s) (has_changes s) (last_schema_hash s) in
  if hooked then update_hook s else s.

Definition create_snapshot_internal (s : SessionState.t) (now : Z) (n : nat) : result string Snapshot.t :=
  if negb (is_autocommit (conn s)) then Err "Cannot create snapshot while a transaction is active"%string
  else
    let? snapshot_bytes := backup_bytes (conn s) n in
    Ok (Snapshot.mk snapshot_bytes now (sequence s)).

(** [snapshot_tx.as_ref().expect(...)] and [try_send]: [sent] says whether it was. *)
Definition send_snapshot (s : SessionState.t) (snapshot : Snapshot.t) : SessionState.t * result string bool :=
  match snapshot_tx s with
  | None => (s, Panic "snapshot_tx must be Some when snapshot_interval > 0")
  | Some tx =>
      let '(tx', r) := Chan.try_send tx snapshot in
      (with_snapshot_tx s (Some tx'), Ok (is_ok r))
  end.

(** The schema check before an extraction. *)
Definition schema_check (s : SessionState.t) (now : Z) (n : nat) : SessionState.t * result string unit :=
  let current_schema_hash := compute_schema_hash (conn s) n in
  if bool_decide (current_schema_hash = last_schema_hash s) then (s, Ok tt)
  else
    match create_snapshot_internal s now n with
    | Ok snapshot =>
        let '(s, r) := send_snapshot s snapshot in
        match r with
        | Ok sent =>
            let s := if sent : bool then with_counters s (u64_add (sequence s) 1) 0 else s in
            (with_flags s (has_changes s) current_schema_hash, Ok tt)
        | Err e => (s, Err e)
        | Panic w => (s, Panic w)
        end
    | Err _ => (with_flags s (has_changes s) current_schema_hash, Ok tt)
    | Panic w => (s, Panic w)
    end.

(** The snapshot every [snapshot_interval] changesets. *)
Definition interval_snapshot (s : SessionState.t) (now : Z) (n : nat) : SessionState.t * result string unit :=
  if (snapshot_interval s <=? changesets_since_snapshot s) && is_autocommit (conn s) then
    match create_snapshot_internal s now n with
    | Ok snapshot =>
        let '(s, r) := send_snapshot s snapshot in
        match r with
        | Ok sent => ((if sent : bool then with_counters s (sequence s) 0 else s), Ok tt)
        | Err e => (s, Err e)
        | Panic w => (s, Panic w)
        end
    | Err _ => (s, Ok tt)
    | Panic w => (s, Panic w)
    end
  else (s, Ok tt).

(** The changeset takes its number, whether or not the channel takes the changeset. *)
Definition send_changeset (s : SessionState.t) (data : bytes) (now : Z) : SessionState.t :=
  let changeset := Changeset.mk data (sequence s) now in
  let s := with_counters s (u64_add (sequence s) 1) (u64_add (changesets_since_snapshot s) 1) in
  with_changeset_tx s (fst (Chan.try_send (changeset_tx s) changeset)).

(** Everything after the schema check. *)
Definition extract (s : SessionState.t) (now : Z) (n : nat) : SessionState.t * result string unit :=
  match map_err (fun _ => "Failed to get changeset from session"%string) (changeset_strm (session s) (conn s) n) with
  | Ok [] => (with_flags s false (last_schema_hash s), Ok tt)
  | Ok changeset_data =>
      let s := send_changeset (with_flags s false (last_schema_hash s)) changeset_data now in
      let '(s, r) := interval_snapshot s now n in
      match r with
      | Ok _ => recreate_session s n
      | Err e => (s, Err e)
      | Panic w => (s, Panic w)
      end
  | Err e => (s, Err e)
  | Panic w => (s, Panic w)
  end.

Definition extract_and_send_changeset (s : SessionState.t) (now : Z) (n : nat)
  : SessionState.t * result string unit :=
  if negb (has_changes s) then (s, Ok tt)
  else if negb (is_autocommit (conn s)) then (s, Ok tt)
  else
    let '(s, r) := schema_check s now n in
    match r with
    | Ok _ => extract s now n
    | Err e => (s, Err e)
    | Panic w => (s, Panic w)
    end.

Definition NOT_INITIALIZED : string := "Session state not initialized - internal error".

(** The thread-local [Option<SessionState>]. *)
Definition push (st : option SessionState.t) (now : Z) (n : nat) : option SessionState.t * result string unit :=
  match st with
  | None => (None, Err NOT_INITIALIZED)
  | Some s => let '(s', r) := extract_and_send_changeset s now n in (Some s', r)
  end.
Definition snapshot (st : option SessionState.t) (now : Z) (n : nat) : result string Snapshot.t :=
  match st with
  | None => Err NOT_INITIALIZED
  | Some s => create_snapshot_internal s now n
  end.

(** [drop]: a last extraction, whose outcome is only logged; then the state, and with
    it the channels' senders, are gone.  What remains is what the channels hold. *)
Definition drop_monitor (s : SessionState.t) (now : Z) (n : nat)
  : result string (Chan.t Changeset.t * option (Chan.t Snapshot.t)) :=
  let '(s', r) := extract_and_send_changeset s now n in
  match r with Panic w => Panic w | _ => Ok (changeset_tx s', snapshot_tx s') end.
End ops.
End SessionMonitor.

(** ** ddl_recovery.rs: the marker files by database path *)
Module DdlRecovery.
Definition t : Type := gset string.
(** A marker that cannot be written or removed is only logged. *)
Definition write_marker (m : t) (db_path : string) (io : result string unit) : t :=
  match io with Ok _ => {[db_path]} ∪ m | _ => m end.
Definition check_marker (m : t) (db_path : string) : bool := bool_decide (db_path ∈ m).
Definition clear_marker (m : t) (db_path : string) (io : result string unit) : t :=
  if check_marker m db_path then match io with Ok _ => m ∖ {[db_path]} | _ => m end else m.
End DdlRecovery.

(** ** lib.rs *)

(** [to_uppercase] and [starts_with]; no character outside ASCII becomes a letter of
    these words.  Leading white space is ASCII white space. *)
Definition ascii_upper (c : ascii) : ascii :=
  let k := nat_of_ascii c in
  if Nat.leb 97 k && Nat.leb k 122 then ascii_of_nat (k - 32) else c.
Fixpoint to_ascii_uppercase (s : string) : string :=
  match s with EmptyString => EmptyString | String c s' => String (ascii_upper c) (to_ascii_uppercase s') end.
Definition is_ddl (sql : string) : bool :=
  let upper := to_ascii_uppercase (trim_start sql) in
  starts_with "CREATE " upper || starts_with "ALTER " upper || starts_with "DROP " upper.

Definition validate_config (c : Config.t) : result string unit :=
  if Config.snapshot_interval c =? 0
  then Err ("snapshot_interval must be greater than 0. "
            +:+ "Use a high value (e.g., u64::MAX) if you want infrequent snapshots.")
  else if Config.buffer_size c =? 0
  then Err ("buffer_size must be greater than 0. "
            +:+ "A zero-capacity channel causes blocking behavior.")
  else if Config.push_interval c =? 0
  then Err ("push_interval must be greater than 0. "
            +:+ "Use a small value (e.g., 1ms) if you want fast pushing.")
  else Ok tt.

Module RecoveryStats.
Record t := mk { failed_changesets : nat; failed_snapshots : nat }.
End RecoveryStats.

(** What a call on the handle meets. *)
Module CallEnv.
Record t := mk { wall : Z; n : nat; request_no : nat; uuid : string; io : result string unit }.
End CallEnv.

Module SyndDB.
Section ops.
Context `{SE : Session} `{HA : Hasher} `{CP : !Capture}.
Context `{HN : HttpNet} `{UR : ReqwestUrl} `{SS : Serde SnapshotRequest.t}.
(** [conn.execute_batch(sql)]: the database, whether the update hook ran, the result *)
Context (execute_batch : Db -> string -> nat -> Db * bool * result string unit).
(** [SELECT EXISTS(... sqlite_master ...)] *)
Context (existing_tables : Db -> nat -> result string bool).

(** The handle with what its calls reach: the thread-local session state ([None] once
    the monitor is gone) and the markers. *)
Record t := mk {
  sequencer_url : string;
  db_path : option string;
  monitor : option SessionState.t;
  markers : DdlRecovery.t;
}.
Definition with_monitor (d : t) (m : option SessionState.t) : t := mk (sequencer_url d) (db_path d) m (markers d).
Definition with_markers (d : t) (m : DdlRecovery.t) : t := mk (sequencer_url d) (db_path d) (monitor d) m.

Definition SHUT_DOWN : string := "Monitor already shut down".

Definition push (d : t) (env : CallEnv.t) : t * result string unit :=
  match monitor d with
  | None => (d, Err SHUT_DOWN)
  | Some s =>
      let '(s', r) := SessionMonitor.push (Some s) (CallEnv.wall env) (CallEnv.n env) in (with_monitor d s', r)
  end.

Definition create_snapshot (d : t) (env : CallEnv.t) : result string Snapshot.t :=
  match monitor d with
  | None => Err SHUT_DOWN
  | Some s => SessionMonitor.snapshot (Some s) (CallEnv.wall env) (CallEnv.n env)
  end.

(** [f] runs in a transaction: it leaves the database to commit, or an error and the
    database as it was.  The hook may have run in either case.  A handle has its monitor
    until it is dropped. *)
Definition transaction {A} (d : t) (f : Db -> result string (Db * A)) (hooked : bool)
    (commit : result string unit) (env : CallEnv.t) : t * result string A :=
  match monitor d with
  | None => (d, Err SHUT_DOWN)
  | Some s =>
      match (let? r := f (SessionState.conn s) in let? _ := commit in Ok r) with
      | Ok (db, a) =>
          let '(d', r) := push (with_monitor d (Some (SessionMonitor.app_write s db hooked))) env in
          (d', let? _ := r in Ok a)
      | Err e => (with_monitor d (Some (SessionMonitor.app_write s (SessionState.conn s) hooked)), Err e)
      | Panic w => (d, Panic w)
      end
  end.

(** The snapshot is sent at once and without a token; the marker goes before that. *)
Definition snapshot (d : t) (env : CallEnv.t) : t * result string Snapshot.t :=
  match create_snapshot d env with
  | Err e => (d, Err e)
  | Panic w => (d, Panic w)
  | Ok snap =>
      let d := match db_path d with
               | Some path => with_markers d (DdlRecovery.clear_marker (markers d) path (CallEnv.io env))
               | None => d
               end in
      let request := SnapshotRequest.mk (snapshot_data_from snap) (CallEnv.uuid env) None in
      (d, let? url := map_err (fun e => "Invalid URL: " +:+ e) (url_join (sequencer_url d) "snapshots") in
          let? cbor_bytes := map_err (fun e => "Failed to serialize snapshot: " +:+ e) (ser request) in
          match http_post url CBOR_HEADERS cbor_bytes (CallEnv.request_no env) with
          | Net.SendError e => Err ("Failed to send snapshot: " +:+ NetError.text e)
          | Response status _ =>
              if is_error_status status
              then Err ("Sequencer rejected snapshot: " +:+ status_error_text url status) else Ok snap
          end)
  end.

Definition execute_ddl (d : t) (sql : string) (env : CallEnv.t) : t * result string unit :=
  let d := match db_path d with
           | Some path =>
               if is_ddl sql then with_markers d (DdlRecovery.write_marker (markers d) path (CallEnv.io env)) else d
           | None => d
           end in
  match monitor d with
  | None => (d, Err SHUT_DOWN)
  | Some s =>
      let '(db, hooked, r) := execute_batch (SessionState.conn s) sql (CallEnv.n env) in
      let d := with_monitor d (Some (SessionMonitor.app_write s db hooked)) in
      match r with
      | Ok _ =>
          if is_ddl sql then let '(d', r') := snapshot d env in (d', let? _ := r' in Ok tt) else (d, Ok tt)
      | Err e => (d, Err e)
      | Panic w => (d, Panic w)
      end
  end.

Definition has_existing_tables (db : Db) (n : nat) : bool :=
  match existing_tables db n with Ok b => b | _ => false end.

Context `{TS : TeeSocket}.
(** The handle and what the sender threads start with.  [opened] is the recovery
    database as an earlier run left it; the environments are those of the two
    snapshots. *)
Definition attach_with_config (db : Db) (path : option string) (files : DdlRecovery.t) (config : Config.t)
    (opened : result string (option FailedBatchRecovery.t)) (env env' : CallEnv.t)
  : result string (t * option FailedBatchRecovery.t * option AttestationClient.t) :=
  let? _ := validate_config config in
  let needs_recovery_snapshot :=
    match path with Some p => DdlRecovery.check_marker files p | None => false end in
  let? s := SessionMonitor.new db (Chan.bounded (Z.to_nat (Config.buffer_size config)))
              (Config.snapshot_interval config) (Some (Chan.bounded 10)) (CallEnv.n env) in
  let recovery :=
    if Config.enable_recovery config
    then match FailedBatchRecovery.new opened with Ok r => Some r | _ => None end else None in
  let attestation :=
    if Config.disable_attestation config then None
    else match AttestationClient.new (Config.sequencer_url config) (Config.attestation_token_type config) with
         | Ok a => Some a | _ => None end in
  let d := mk (Config.sequencer_url config) path (Some s) files in
  let d := if needs_recovery_snapshot then fst (snapshot d env) else d in
  let d := if has_existing_tables db (CallEnv.n env') then fst (snapshot d env') else d in
  Ok (d, recovery, attestation).

Definition recovery_stats (recovery : option FailedBatchRecovery.t) (io : result string unit)
  : result string (option RecoveryStats.t) :=
  match recovery with
  | None => Ok None
  | Some r => let? '(c, s) := FailedBatchRecovery.get_failed_counts r io in Ok (Some (RecoveryStats.mk c s))
  end.
End ops.
End SyndDB.

(** ** lib.rs: the handle with its sender threads

    A thread is the state of its loop until the loop ends.  The two senders share the
    recovery database and, with the handle, the counters; a turn of a thread takes one
    item from its channel.  When a thread ends its receiver is dropped, and with it what
    the channel holds. *)
Inductive Thread (S : Type) :=
| Running (s : S)
| Stopped
| Panicked (why : string).
Arguments Running {S}. Arguments Stopped {S}. Arguments Panicked {S}.

(** How a thread that is told to stop meets its [select!]: the items it still takes
    before, what it then picks when the channel is closed as well, and its last turn. *)
Module Ending.
Record t := mk { turns : list Env.t; sees_closed : bool; last : Env.t }.
End Ending.

Module ClientHandle.
Section ops.
Context `{SE : Session} `{HA : Hasher} `{CP : !Capture}.
Context `{HN : HttpNet} `{UR : ReqwestUrl} `{SS : Serde SnapshotRequest.t} `{SC : Serde ChangesetBatchRequest.t}.
Context `{TS : TeeSocket} `{JQ : ToJson AttestationRequest.t} `{JR : FromJson AttestationResponse.t}.

Record t := mk {
  db : SyndDB.t;
  changeset_handle : option (Thread ChangesetSender.t);
  snapshot_handle : option (Thread SnapshotSender.t);
  recovery : option FailedBatchRecovery.t;
  stats : ReplicationStats.t;
}.
Definition with_db (h : t) (d : SyndDB.t) : t :=
  mk d (changeset_handle h) (snapshot_handle h) (recovery h) (stats h).
Definition with_changeset_handle (h : t) (x : option (Thread ChangesetSender.t)) : t :=
  mk (db h) x (snapshot_handle h) (recovery h) (stats h).
Definition with_snapshot_handle (h : t) (x : option (Thread SnapshotSender.t)) : t :=
  mk (db h) (changeset_handle h) x (recovery h) (stats h).
Definition with_session (h : t) (m : option SessionState.t) : t := with_db h (SyndDB.with_monitor (db h) m).

(** What a thread becomes after some turns, from what its loop returned. *)
Definition after {S} (s : S) (r : result unit bool) : Thread S :=
  match r with Ok true => Running s | Panic w => Panicked w | _ => Stopped end.
Definition alive {S} (x : Thread S) : bool := match x with Running _ => true | _ => false end.

Definition changeset_run (h : t) (s : ChangesetSender.t) (events : list ChangesetSender.Event)
  : t * list ChangesetBatchRequest.t :=
  let s := ChangesetSender.with_stats (ChangesetSender.with_recovery s (recovery h)) (stats h) in
  let '(s', acked, r) := ChangesetSender.main_loop s events in
  (mk (db h) (Some (after s' r)) (snapshot_handle h) (ChangesetSender.recovery s') (ChangesetSender.stats s'), acked).
Definition snapshot_run (h : t) (s : SnapshotSender.t) (events : list SnapshotSender.Event)
  : t * list SnapshotRequest.t :=
  let '(s', acked, r) := SnapshotSender.main_loop (SnapshotSender.with_recovery s (recovery h)) events in
  (mk (db h) (changeset_handle h) (Some (after s' r)) (SnapshotSender.recovery s') (stats h), acked).

(** The channel after the receiver took all but [rest], or was dropped. *)
Definition left_over {A} (c : Chan.t A) (rest : list A) (alive : bool) : Chan.t A :=
  if alive then Chan.mk rest (Chan.capacity c) (Chan.receiver_alive c) else Chan.mk [] (Chan.capacity c) false.

(** One turn of a sender thread while the application runs. *)
Definition changeset_turn (h : t) (env : Env.t) : t * list ChangesetBatchRequest.t :=
  match changeset_handle h, SyndDB.monitor (db h) with
  | Some (Running s), Some m =>
      match Chan.queue (SessionState.changeset_tx m) with
      | [] => (h, [])
      | cs :: rest =>
          let '(h', acked) := changeset_run h s [ChangesetSender.Received cs env] in
          let up := match changeset_handle h' with Some x => alive x | None => false end in
          (with_session h' (Some (SessionState.with_changeset_tx m (left_over (SessionState.changeset_tx m) rest up))), acked)
      end
  | _, _ => (h, [])
  end.
Definition snapshot_turn (h : t) (env : Env.t) : t * list SnapshotRequest.t :=
  match snapshot_handle h, SyndDB.monitor (db h) with
  | Some (Running s), Some m =>
      match SessionState.snapshot_tx m with
      | Some tx =>
          match Chan.queue tx with
          | [] => (h, [])
          | sn :: rest =>
              let '(h', acked) := snapshot_run h s [SnapshotSender.Received sn env] in
              let up := match snapshot_handle h' with Some x => alive x | None => false end in
              (with_session h' (Some (SessionState.with_snapshot_tx m (Some (left_over tx rest up)))), acked)
          end
      | None => (h, [])
      end
  | _, _ => (h, [])
  end.

(** The end of a thread's loop: a closed channel is seen only once it is empty, and the
    changeset sender drains its channel when it sees the signal first. *)
Definition changeset_events (queue : list Changeset.t) (closed : bool) (e : Ending.t) : list ChangesetSender.Event :=
  zip_with ChangesetSender.Received queue (Ending.turns e) ++
  [if closed && Ending.sees_closed e && Nat.leb (length queue) (length (Ending.turns e))
   then ChangesetSender.ChannelClosed
   else ChangesetSender.Shutdown (drop (length (Ending.turns e)) queue) (Ending.last e)].
Definition snapshot_events (queue : list Snapshot.t) (closed : bool) (e : Ending.t) : list SnapshotSender.Event :=
  zip_with SnapshotSender.Received queue (Ending.turns e) ++
  [if closed && Ending.sees_closed e && Nat.leb (length queue) (length (Ending.turns e))
   then SnapshotSender.ChannelClosed else SnapshotSender.Shutdown].

(** [handle.take()] and [join]: the panic of a thread comes out as an error. *)
Definition joined {S} (x : option (Thread S)) : result string unit :=
  match x with Some (Panicked w) => Err w | _ => Ok tt end.
Definition join_changesets (h : t) (queue : list Changeset.t) (closed : bool) (e : Ending.t)
  : t * list ChangesetBatchRequest.t * result string unit :=
  let '(h', acked) :=
    match changeset_handle h with
    | Some (Running s) => changeset_run h s (changeset_events queue closed e)
    | _ => (h, [])
    end in
  (with_changeset_handle h' None, acked, joined (changeset_handle h')).
Definition join_snapshots (h : t) (queue : list Snapshot.t) (closed : bool) (e : Ending.t)
  : t * list SnapshotRequest.t * result string unit :=
  let '(h', acked) :=
    match snapshot_handle h with
    | Some (Running s) => snapshot_run h s (snapshot_events queue closed e)
    | _ => (h, [])
    end in
  (with_snapshot_handle h' None, acked, joined (snapshot_handle h')).

Definition changeset_queue (h : t) : list Changeset.t :=
  match SyndDB.monitor (db h) with Some m => Chan.queue (SessionState.changeset_tx m) | None => [] end.
Definition queue_of (tx : option (Chan.t Snapshot.t)) : list Snapshot.t :=
  match tx with Some c => Chan.queue c | None => [] end.
Definition snapshot_queue (h : t) : list Snapshot.t :=
  match SyndDB.monitor (db h) with Some m => queue_of (SessionState.snapshot_tx m) | None => [] end.

(** The receivers of joined threads are gone. *)
Definition disconnect (h : t) : t :=
  with_session h
    ((fun m => SessionState.with_snapshot_tx
                 (SessionState.with_changeset_tx m (left_over (SessionState.changeset_tx m) [] false))
                 ((fun c => left_over c [] false) <$> SessionState.snapshot_tx m)) <$> SyndDB.monitor (db h)).

(** [Drop]: the monitor with its last extraction first, then the signals and the joins,
    whose panics are only logged. *)
Definition drop_handle (h : t) (ec es : Ending.t) (now : Z) (n : nat)
  : t * list ChangesetBatchRequest.t * list SnapshotRequest.t * result string unit :=
  match (match SyndDB.monitor (db h) with
         | Some m => let? '(tx, stx) := SessionMonitor.drop_monitor m now n in Ok (Chan.queue tx, queue_of stx)
         | None => Ok ([], [])
         end) with
  | Ok (queue, squeue) =>
      let '(h1, acked, _) := join_changesets (with_session h None) queue true ec in
      let '(h2, snaps, _) := join_snapshots h1 squeue true es in
      (h2, acked, snaps, Ok tt)
  | Err e => (with_session h None, [], [], Err e)
  | Panic w => (with_session h None, [], [], Panic w)
  end.

(** [shutdown]: the signals and the joins first; the handle is dropped at its end, also
    when a join panics. *)
Definition shutdown (h : t) (ec es : Ending.t) (now : Z) (n : nat)
  : t * list ChangesetBatchRequest.t * list SnapshotRequest.t * result string unit :=
  let '(h1, acked, r) := join_changesets h (changeset_queue h) false ec in
  match r with
  | Ok _ =>
      let '(h2, snaps, r) := join_snapshots h1 (snapshot_queue h) false es in
      let '(h3, acked', snaps', dropped) := drop_handle (disconnect h2) ec es now n in
      (h3, acked ++ acked', snaps ++ snaps',
       match r with Ok _ => dropped | _ => Panic "Snapshot sender thread panicked" end)
  | _ =>
      let m := (fun m => SessionState.with_changeset_tx m (left_over (SessionState.changeset_tx m) [] false))
                 <$> SyndDB.monitor (db h1) in
      let '(h3, acked', snaps', _) := drop_handle (with_session h1 m) ec es now n in
      (h3, acked ++ acked', snaps', Panic "Changeset sender thread panicked")
  end.

(** *** Construction *)

(** The threads at their start: the rows of earlier runs are sent again, then the loops
    begin.  A sender that cannot be built only logs it. *)
Definition start_changesets (config : Config.t) (recovery : option FailedBatchRecovery.t)
    (attestation : option AttestationClient.t) (env : Env.t) (envs : nat -> Env.t)
  : Thread ChangesetSender.t * option FailedBatchRecovery.t * ReplicationStats.t * list ChangesetBatchRequest.t :=
  match ChangesetSender.new config recovery attestation ReplicationStats.new (Env.now env) with
  | Ok s =>
      let '(s', acked, r) := ChangesetSender.run s env envs [] in
      (after s' r, ChangesetSender.recovery s', ChangesetSender.stats s', acked)
  | Err _ => (Stopped, recovery, ReplicationStats.new, [])
  | Panic w => (Panicked w, recovery, ReplicationStats.new, [])
  end.
Definition start_snapshots (config : Config.t) (recovery : option FailedBatchRecovery.t)
    (attestation : option AttestationClient.t) (env : Env.t) (envs : nat -> Env.t)
  : Thread SnapshotSender.t * option FailedBatchRecovery.t * list SnapshotRequest.t :=
  match SnapshotSender.new config recovery attestation with
  | Ok s => let '(s', acked, r) := SnapshotSender.run s env envs [] in (after s' r, SnapshotSender.recovery s', acked)
  | Err _ => (Stopped, recovery, [])
  | Panic w => (Panicked w, recovery, [])
  end.

(** The SQLite query, [Connection::open] with the path SQLite reports, and [Url::parse]. *)
Context (existing_tables : Db -> nat -> result string bool).
Context (connection_open : string -> result string (Db * option string)).
Context (connection_open_in_memory : result string (Db * option string)).
Context (url_parse : string -> result string string).

(** What attaching meets: the markers, the recovery database, and the environments of
    the two snapshots and of the threads. *)
Record AttachEnv := mk_env {
  files : DdlRecovery.t;
  opened : result string (option FailedBatchRecovery.t);
  first_snapshot : CallEnv.t;
  second_snapshot : CallEnv.t;
  thread_env : Env.t;
  thread_envs : nat -> Env.t;
}.

Definition attach_with_config (db : Db) (path : option string) (config : Config.t) (e : AttachEnv)
  : result string (t * list ChangesetBatchRequest.t * list SnapshotRequest.t) :=
  let? '(d, recovery, attestation) :=
    SyndDB.attach_with_config existing_tables db path (files e) config (opened e)
      (first_snapshot e) (second_snapshot e) in
  let '(sn, recovery, snaps) := start_snapshots config recovery attestation (thread_env e) (thread_envs e) in
  let '(cs, recovery, st, acked) := start_changesets config recovery attestation (thread_env e) (thread_envs e) in
  let m := (fun m => SessionState.with_snapshot_tx
                       (SessionState.with_changeset_tx m
                          (let c := SessionState.changeset_tx m in left_over c (Chan.queue c) (alive cs)))
                       ((fun c => left_over c (Chan.queue c) (alive sn)) <$> SessionState.snapshot_tx m))
             <$> SyndDB.monitor d in
  Ok (mk (SyndDB.with_monitor d m) (Some cs) (Some sn) recovery st, acked, snaps).

(** [Config { sequencer_url: url, ..Default::default() }] *)
Definition config_for (url : string) : Config.t :=
  let d := Config.default in
  Config.mk url (Config.buffer_size d) (Config.push_interval d) (Config.max_batch_size d) (Config.max_retries d)
    (Config.snapshot_request_timeout d) (Config.snapshot_interval d) (Config.enable_recovery d)
    (Config.disable_attestation d) (Config.attestation_token_type d).
Definition parsed (sequencer_url : string) : result string string :=
  map_err (fun e => "Invalid URL: " +:+ e) (url_parse sequencer_url).

Definition attach (db : Db) (path : option string) (sequencer_url : string) (e : AttachEnv) :=
  let? url := parsed sequencer_url in attach_with_config db path (config_for url) e.
Definition open_with_config (path : string) (config : Config.t) (e : AttachEnv) :=
  let? '(db, p) := connection_open path in attach_with_config db p config e.
Definition open (path sequencer_url : string) (e : AttachEnv) :=
  let? url := parsed sequencer_url in open_with_config path (config_for url) e.
Definition open_in_memory (sequencer_url : string) (e : AttachEnv) :=
  let? url := parsed sequencer_url in
  let? '(db, p) := connection_open_in_memory in attach_with_config db p (config_for url) e.

(** *** Replication status *)
Definition stats_snapshot (h : t) : StatsSnapshot.t := StatsSnapshot.from_stats (stats h).
Definition is_healthy (h : t) : bool := ReplicationStats.is_healthy (stats h).
Definition pending_count (h : t) : Z := ReplicationStats.pending_count (stats h).
Definition pushed_count (h : t) : Z := ReplicationStats.pushed_count (stats h).
Definition recovery_stats (h : t) (io : result string unit) : result string (option RecoveryStats.t) :=
  SyndDB.recovery_stats (recovery h) io.
End ops.
End ClientHandle.
