(* ===== verification/ClientProps.v ===== *)
(** * Properties of the client's senders and of its recovery storage

    Retrying; what becomes of every changeset a sender takes; the recovery tables; and
    what can be lost when the client is dropped. *)
From Stdlib Require Import Ascii Strings.Byte.
From S2P Require Import Prelude RustStd Extern Net Outbound Applier BootClients Bootstrap ClientSender.

(** ** Retrying *)
Definition is_err {E A} (r : result E A) : Prop := exists e, r = Err e.

Lemma retry_loop_ok {E} (op : nat -> result E unit) attempts : forall attempt,
  snd (retry_loop attempts attempt op) = Ok tt <->
  exists k, (k < attempts)%nat /\ op (attempt + k)%nat = Ok tt /\
            forall j, (j < k)%nat -> is_err (op (attempt + j)%nat).
Proof.
  induction attempts as [|rest IH]; intros attempt; cbn.
  { split; [done|]. intros (k & Hk & _). lia. }
  destruct (op attempt) as [[]|e|w] eqn:Ho.
  - split; [|done]. intros _. exists 0%nat. rewrite Nat.add_0_r. split_and!; [lia|done|lia].
  - assert (Hs : snd (retry_loop rest (S attempt) op) = Ok tt <->
                 exists k, (k < S rest)%nat /\ op (attempt + k)%nat = Ok tt /\
                           forall j, (j < k)%nat -> is_err (op (attempt + j)%nat)).
    { rewrite IH. split.
      - intros (k & Hk & Ha & Hj). exists (S k). rewrite <-plus_n_Sm. split_and!; [lia|done|].
        intros [|j] Hlt; [rewrite Nat.add_0_r; by exists e|]. rewrite <-plus_n_Sm. apply Hj. lia.
      - intros ([|k] & Hk & Ha & Hj); [rewrite Nat.add_0_r, Ho in Ha; done|].
        exists k. rewrite <-plus_n_Sm in Ha. split_and!; [lia|done|].
        intros j Hlt. specialize (Hj (S j)). rewrite <-plus_n_Sm in Hj. apply Hj. lia. }
    rewrite <-Hs. destruct rest; [cbn; split; done|]. by destruct (retry_loop (S rest) (S attempt) op).
  - split; [done|]. intros ([|k] & Hk & Ha & Hj); [by rewrite Nat.add_0_r, Ho in Ha|].
    destruct (Hj 0%nat) as [e He]; [lia|]. by rewrite Nat.add_0_r, Ho in He.
Qed.

Lemma retry_loop_err {E} (op : nat -> result E unit) attempts : forall attempt e,
  snd (retry_loop attempts attempt op) = Err e <->
  (0 < attempts)%nat /\ op (attempt + pred attempts)%nat = Err e /\
  forall j, (j < attempts)%nat -> is_err (op (attempt + j)%nat).
Proof.
  induction attempts as [|rest IH]; intros attempt e; cbn.
  { split; [done|]. intros [? _]. lia. }
  destruct (op attempt) as [[]|e'|w] eqn:Ho.
  - split; [done|]. intros (_ & _ & Hj). destruct (Hj 0%nat) as [x Hx]; [lia|]. by rewrite Nat.add_0_r, Ho in Hx.
  - destruct rest as [|rest].
    + cbn. rewrite Nat.add_0_r, Ho. split.
      * intros [= ->]. split_and!; [lia|done|]. intros j Hj. replace j with 0%nat by lia.
        rewrite Nat.add_0_r. by exists e.
      * intros (_ & [= ->] & _). done.
    + specialize (IH (S attempt) e). destruct (retry_loop (S rest) (S attempt) op) as [sl r]. cbn in *.
      rewrite IH. rewrite <-plus_n_Sm. split.
      * intros (_ & Ha & Hj). split_and!; [lia|done|].
        intros [|j] Hlt; [rewrite Nat.add_0_r; by exists e'|]. rewrite <-plus_n_Sm. apply Hj. lia.
      * intros (_ & Ha & Hj). split_and!; [lia|done|]. intros j Hlt.
        specialize (Hj (S j)). rewrite <-plus_n_Sm in Hj. apply Hj. lia.
  - split; [done|]. intros (_ & _ & Hj). destruct (Hj 0%nat) as [x Hx]; [lia|]. by rewrite Nat.add_0_r, Ho in Hx.
Qed.

Lemma retry_loop_sleeps {E} (op : nat -> result E unit) attempts : forall attempt,
  exists k, (k <= pred attempts)%nat /\
    fst (retry_loop attempts attempt op) = map (fun i => 2 ^ (Z.of_nat i mod 64)) (seq attempt k).
Proof.
  induction attempts as [|rest IH]; intros attempt; [by exists 0%nat|]. cbn [retry_loop].
  destruct (op attempt) as [u|e|w]; [by exists 0%nat; cbn; split; [lia|]| |by exists 0%nat; cbn; split; [lia|]].
  destruct rest as [|rest]; [by exists 0%nat|].
  destruct (IH (S attempt)) as (k & Hk & Hs). destruct (retry_loop (S rest) (S attempt) op) as [sl r].
  cbn in Hs. exists (S k). split; [cbn in *; lia|]. cbn. by rewrite Hs.
Qed.

(** [retry_with_backoff] returns the first success among its attempts, or the last
    error when all fail, and doubles its waits (1 s, 2 s, 4 s ...), fewer than there
    are attempts.  With no attempts allowed it panics. *)
Theorem retry_with_backoff_exact {E} (n : nat) (op : nat -> result E unit) :
  let '(slept, r) := retry_with_backoff n op in
  (r = Ok tt <-> exists k, (k < n)%nat /\ op k = Ok tt /\ forall j, (j < k)%nat -> is_err (op j)) /\
  (forall e, r = Err e <-> (0 < n)%nat /\ op (pred n) = Err e /\ forall j, (j < n)%nat -> is_err (op j)) /\
  (exists k, (k <= pred n)%nat /\ slept = map (fun i => 2 ^ (Z.of_nat i mod 64)) (seq 0 k)) /\
  (n = 0%nat -> exists w, r = Panic w).
Proof.
  unfold retry_with_backoff. pose proof (retry_loop_ok op n 0) as H1.
  pose proof (retry_loop_err op n 0) as H2. pose proof (retry_loop_sleeps op n 0) as H3.
  destruct (retry_loop n 0 op) as [sl r] eqn:Hr. cbn in *. split_and!; [done..|].
  intros ->. cbn in Hr. injection Hr as _ <-. eauto.
Qed.

(** ** The recovery tables *)
Lemma insert_by_sequence_perm r l : FailedTable.insert_by_sequence r l ≡ₚ r :: l.
Proof. induction l as [|x l IH]; cbn; [done|]. case_match; [done|]. rewrite IH. apply Permutation_swap. Qed.

Lemma order_by_sequence_perm l : FailedTable.order_by_sequence l ≡ₚ l.
Proof.
  unfold FailedTable.order_by_sequence.
  enough (forall acc, fold_left (fun a r => FailedTable.insert_by_sequence r a) l acc ≡ₚ acc ++ l) by auto.
  induction l as [|c l IH]; intros acc; cbn; [by rewrite app_nil_r|].
  rewrite IH, insert_by_sequence_perm. cbn. by rewrite Permutation_middle.
Qed.

Definition seq_le (a b : FailedRow.t) : Prop := FailedRow.sequence a <= FailedRow.sequence b.
#[local] Instance seq_le_trans : Transitive seq_le.
Proof. unfold seq_le. intros a b c ??. lia. Qed.

Lemma insert_by_sequence_sorted r l :
  StronglySorted seq_le l -> StronglySorted seq_le (FailedTable.insert_by_sequence r l).
Proof.
  induction 1 as [|x l Hs IH Hf]; cbn; [by repeat constructor|]. destruct (Z.ltb_spec (FailedRow.sequence r) (FailedRow.sequence x)) as [Hlt|Hge].
  - constructor; [by constructor|]. constructor; [unfold seq_le; lia|].
    eapply Forall_impl; [exact Hf|]. unfold seq_le. intros y Hy. cbn in Hy. lia.
  - constructor; [done|]. rewrite insert_by_sequence_perm. constructor; [unfold seq_le; lia|done].
Qed.

Lemma order_by_sequence_sorted l : StronglySorted seq_le (FailedTable.order_by_sequence l).
Proof.
  unfold FailedTable.order_by_sequence.
  enough (forall acc, StronglySorted seq_le acc ->
    StronglySorted seq_le (fold_left (fun a r => FailedTable.insert_by_sequence r a) l acc)) as HG
    by (apply HG; constructor).
  induction l as [|c l IH]; intros acc Ha; cbn; [done|]. apply IH. by apply insert_by_sequence_sorted.
Qed.

(** A row holds a changeset: the number as a signed column, the time in seconds. *)
Definition row_of (cs : Changeset.t) (row : FailedRow.t) : Prop :=
  FailedRow.sequence row = as_i64 (Changeset.sequence cs) /\ FailedRow.data row = Changeset.data cs /\
  exists secs, unix_secs (Changeset.timestamp cs) = Ok secs /\ FailedRow.timestamp row = as_i64 secs.

(** What a stored changeset is read back as: its time is cut to whole seconds. *)
Definition whole_seconds (cs : Changeset.t) : Changeset.t :=
  Changeset.mk (Changeset.data cs) (Changeset.sequence cs)
    (Changeset.timestamp cs / NANOS_PER_SEC * NANOS_PER_SEC).

(** A changeset as the client makes them: a 64-bit number, a time since the epoch that
    [SystemTime] can hold. *)
Definition storable (cs : Changeset.t) : Prop :=
  0 <= Changeset.sequence cs < 2 ^ 63 /\ (0 <= Changeset.timestamp cs < 2 ^ 63 * NANOS_PER_SEC)%Z.

Lemma as_i64_small z : 0 <= z < 2 ^ 63 -> as_i64 z = z.
Proof. intros Hz. unfold as_i64, as_u64. rewrite Z.mod_small by lia. case_match; lia. Qed.

Lemma secs_range ts : (0 <= ts < 2 ^ 63 * NANOS_PER_SEC)%Z -> (0 <= ts / NANOS_PER_SEC < 2 ^ 63)%Z.
Proof.
  unfold NANOS_PER_SEC. intros H. split; [apply Z.div_pos; lia|]. apply Z.div_lt_upper_bound; lia.
Qed.

Lemma changeset_of_stored_row cs row :
  storable cs -> row_of cs row ->
  FailedBatchRecovery.changeset_of_row row = Ok (FailedRow.id row, whole_seconds cs).
Proof.
  intros [Hs Ht] (H1 & H2 & secs & H3 & H4). unfold unix_secs in H3. case_match; [done|]. simplify_eq.
  pose proof (secs_range _ Ht) as Hr. unfold FailedBatchRecovery.changeset_of_row, epoch_plus_secs.
  rewrite H4, H1, H2, !as_i64_small by done. rewrite !as_u64_id by (unfold is_u64; lia).
  assert ((i64_max <? Changeset.timestamp cs / NANOS_PER_SEC) = false) as -> by (unfold i64_max; lia).
  done.
Qed.

Lemma stored_rows_read css rows :
  Forall storable css -> Forall2 row_of css rows ->
  map_result FailedBatchRecovery.changeset_of_row rows =
    Ok (zip_with (fun cs row => (FailedRow.id row, whole_seconds cs)) css rows).
Proof.
  intros HF H. induction H as [|cs row css rows Hr _ IH]; [done|]. apply Forall_cons in HF as [Hc HF].
  cbn. by rewrite (changeset_of_stored_row cs row), IH.
Qed.

Lemma row_of_sequence cs row : storable cs -> row_of cs row -> FailedRow.sequence row = Changeset.sequence cs.
Proof. intros [Hs _] [-> _]. by apply as_i64_small. Qed.

Lemma zip_pairs {A B C D} (f : A -> C) (g : B -> D) l k :
  length l = length k ->
  (zip_with (fun a b => (g b, f a)) l k).*1 = map g k /\ (zip_with (fun a b => (g b, f a)) l k).*2 = map f l.
Proof. revert k. induction l as [|a l IH]; intros [|b k]; try done. intros [= H]. cbn. by destruct (IH k H) as [-> ->]. Qed.

(** Everything in the table is read back: the query returns each stored changeset once,
    its time cut to whole seconds, in the order of the sequence numbers. *)
Theorem recovery_roundtrip (r : FailedBatchRecovery.t) (css : list Changeset.t) :
  Forall storable css ->
  Forall2 row_of css (FailedTable.rows (FailedBatchRecovery.failed_changesets r)) ->
  exists l, FailedBatchRecovery.get_failed_changesets r (Ok tt) = Ok l /\
    l.*2 ≡ₚ map whole_seconds css /\
    l.*1 ≡ₚ map FailedRow.id (FailedTable.rows (FailedBatchRecovery.failed_changesets r)) /\
    StronglySorted Z.le (map Changeset.sequence (l.*2)).
Proof.
  intros HF H2. set (rows := FailedTable.rows _) in *.
  pose proof (order_by_sequence_perm rows) as Hp. pose proof (order_by_sequence_sorted rows) as Hs.
  apply Forall2_flip in H2. destruct (Permutation_Forall2 (symmetry Hp) H2) as (css' & Hpc & H2'). apply Forall2_flip in H2'.
  destruct (zip_pairs whole_seconds FailedRow.id css' _ (Forall2_length _ _ _ H2')) as [Hz1 Hz2].
  assert (HF' : Forall storable css') by (by rewrite <-Hpc).
  exists (zip_with (fun cs row => (FailedRow.id row, whole_seconds cs)) css' (FailedTable.order_by_sequence rows)).
  split_and!.
  - unfold FailedBatchRecovery.get_failed_changesets. cbn [result_bind]. fold rows. by apply stored_rows_read.
  - rewrite Hz2. by apply Permutation_map.
  - rewrite Hz1. by apply Permutation_map.
  - rewrite Hz2. clear -Hs H2' HF'. revert HF' Hs. induction H2' as [|cs row css' rows' Hr H2 IH]; intros HF Hs; cbn; [constructor|].
    apply Forall_cons in HF as [Hc HF]. apply StronglySorted_inv in Hs as [Hs Hle].
    constructor; [by apply IH|]. rewrite Forall_map, Forall_map.
    clear IH Hs. induction H2 as [|cs' row' ?? Hr' H2 IH2]; [done|].
    apply Forall_cons in HF as [Hc' HF]. apply Forall_cons in Hle as [Hl Hle].
    constructor; [|by apply IH2]. cbn. unfold seq_le in Hl.
    rewrite (row_of_sequence cs row), (row_of_sequence cs' row') in Hl by done. done.
Qed.

(** ** What becomes of a changeset *)
Module SenderFate.
Import ChangesetSender.

(** The changesets a run takes from the channel: up to the event that ends it. *)
Fixpoint taken (events : list Event) : list Changeset.t :=
  match events with
  | [] => []
  | Received cs _ :: events' => cs :: taken events'
  | ChannelClosed :: _ => []
  | Shutdown drained _ :: _ => drained
  end.

Fixpoint stopped_by_shutdown (events : list Event) : bool :=
  match events with
  | Received _ _ :: events' => stopped_by_shutdown events'
  | Shutdown _ _ :: _ => true
  | _ => false
  end.

(** Every statement of the recovery database succeeds. *)
Definition disk_ok (env : Env.t) : Prop := forall i, Env.disk env i = Ok tt.
Definition event_ok (ev : Event) : Prop :=
  match ev with Received _ env | Shutdown _ env => disk_ok env | ChannelClosed => True end.

(** A flushed group: acknowledged by the sequencer, or failed with the changesets that
    were written to the recovery table. *)
Inductive Fate := Acked | Failed (kept : list Changeset.t).
Definition acked_groups (groups : list (list Changeset.t * Fate)) : list (list Changeset.t) :=
  concat (map (fun g => match g.2 with Acked => [g.1] | Failed _ => [] end) groups).
Definition kept_in (groups : list (list Changeset.t * Fate)) : list Changeset.t :=
  concat (map (fun g => match g.2 with Acked => [] | Failed kept => kept end) groups).

Definition table_grows (r r' : option FailedBatchRecovery.t) (kept : list Changeset.t) : Prop :=
  match r, r' with
  | None, None => kept = []
  | Some rc, Some rc' =>
      FailedBatchRecovery.failed_snapshots rc' = FailedBatchRecovery.failed_snapshots rc /\
      exists new, FailedTable.rows (FailedBatchRecovery.failed_changesets rc') =
                  FailedTable.rows (FailedBatchRecovery.failed_changesets rc) ++ new /\
                  Forall2 row_of kept new
  | _, _ => False
  end.

Lemma table_grows_trans r r1 r2 k1 k2 : table_grows r r1 k1 -> table_grows r1 r2 k2 -> table_grows r r2 (k1 ++ k2).
Proof.
  destruct r as [rc|], r1 as [rc1|], r2 as [rc2|]; cbn; try done.
  - intros (Hs1 & n1 & Hr1 & HF1) (Hs2 & n2 & Hr2 & HF2). split; [congruence|].
    exists (n1 ++ n2). rewrite Hr2, Hr1, <-app_assoc. split; [done|]. by apply Forall2_app.
  - by intros -> ->.
Qed.

Section conserve.
Context `{HN : HttpNet} `{UR : ReqwestUrl} `{TS : TeeSocket}.
Context `{JQ : ToJson AttestationRequest.t} `{JR : FromJson AttestationResponse.t}.
Context `{SC : Serde ChangesetBatchRequest.t}.

(** A batch was acknowledged: one of its requests was answered without an error. *)
Definition acknowledged (c : Config.t) (batch : ChangesetBatchRequest.t) : Prop :=
  exists n, post_cbor (Config.sequencer_url c) "changesets" (ser batch) n = Ok tt.

(** From [s] to [s'] with the changesets [css] taken and the batches [acked]
    acknowledged; [reliable] says that no statement failed on the way, [G] how the
    recovery database takes the changesets kept. *)
Definition conserves_by (G : option FailedBatchRecovery.t -> option FailedBatchRecovery.t -> list Changeset.t -> Prop)
    (reliable : Prop) (s : t) (css : list Changeset.t) (s' : t) (acked : list ChangesetBatchRequest.t) : Prop :=
  config s' = config s /\ Forall (acknowledged (config s)) acked /\
  exists groups,
    buffer s ++ css = concat groups.*1 ++ buffer s' /\
    map ChangesetBatchRequest.changesets acked = map (map changeset_data_from) (acked_groups groups) /\
    G (recovery s) (recovery s') (kept_in groups) /\
    Forall (fun g => match g.2 with
                     | Acked => True
                     | Failed kept =>
                         kept `sublist_of` g.1 /\
                         (reliable -> recovery s <> None -> Forall storable g.1 -> kept = g.1)
                     end) groups.
Definition conserves := conserves_by table_grows.

Lemma table_grows_some r r' k : table_grows r r' k -> (r = None <-> r' = None).
Proof. destruct r, r'; cbn; naive_solver. Qed.

Lemma conserves_by_trans G (R1 R2 R : Prop) s s1 s2 c1 c2 a1 a2 :
  (forall r r1 r2 k1 k2, G r r1 k1 -> G r1 r2 k2 -> G r r2 (k1 ++ k2)) ->
  (forall r r' k, G r r' k -> (r = None <-> r' = None)) ->
  (R -> R1) -> (R -> R2) ->
  conserves_by G R1 s c1 s1 a1 -> conserves_by G R2 s1 c2 s2 a2 -> conserves_by G R s (c1 ++ c2) s2 (a1 ++ a2).
Proof.
  intros HG HNn HR1 HR2 (Hc1 & Ha1 & g1 & Hb1 & Hm1 & Ht1 & HF1) (Hc2 & Ha2 & g2 & Hb2 & Hm2 & Ht2 & HF2).
  split; [congruence|]. split; [apply Forall_app; split; [done|by rewrite <-Hc1]|]. exists (g1 ++ g2). split_and!.
  - rewrite fmap_app, concat_app, <-app_assoc, <-Hb2, app_assoc, Hb1. by rewrite <-!app_assoc.
  - unfold acked_groups. rewrite !map_app, concat_app, map_app. fold (acked_groups g1) (acked_groups g2).
    by rewrite Hm1, Hm2.
  - unfold kept_in. rewrite map_app, concat_app. by eapply HG.
  - apply Forall_app. pose proof (HNn _ _ _ Ht1) as Hn. split.
    + eapply Forall_impl; [exact HF1|]. intros [g [|k]]; cbn; [done|]. intros [H1 H2]. split; [done|]. auto.
    + eapply Forall_impl; [exact HF2|]. intros [g [|k]]; cbn; [done|]. intros [H1 H2]. split; [done|].
      intros HR Hr. apply H2; [auto|]. by rewrite <-Hn.
Qed.

Lemma conserves_trans (R1 R2 R : Prop) s s1 s2 c1 c2 a1 a2 :
  (R -> R1) -> (R -> R2) ->
  conserves R1 s c1 s1 a1 -> conserves R2 s1 c2 s2 a2 -> conserves R s (c1 ++ c2) s2 (a1 ++ a2).
Proof. apply conserves_by_trans; [apply table_grows_trans|apply table_grows_some]. Qed.

Lemma conserves_quiet R s s' css :
  config s' = config s -> buffer s' = buffer s ++ css -> recovery s' = recovery s ->
  conserves R s css s' [].
Proof.
  intros Hc Hb Hr. split; [done|]. split; [done|]. exists []. cbn. split_and!; try done.
  rewrite Hr. destruct (recovery s) as [rc|]; cbn; [|done]. split; [done|]. exists []. by rewrite app_nil_r.
Qed.

Lemma save_one_grows rc cs now io :
  exists kept, kept `sublist_of` [cs] /\
    table_grows (Some rc) (Some (fst (FailedBatchRecovery.save_failed_changeset rc cs "Max retries exceeded" now io))) kept /\
    (io = Ok tt -> storable cs -> kept = [cs]).
Proof.
  unfold FailedBatchRecovery.save_failed_changeset.
  destruct (unix_secs (Changeset.timestamp cs)) as [secs| |] eqn:Hu.
  2,3: exists []; (split_and!; [by apply sublist_nil_l| |]); [split; [done|]; exists []; by rewrite app_nil_r|].
  2,3: intros _ [_ Ht]; unfold unix_secs in Hu; case_match; [lia|done].
  destruct io as [[]| |]; cbn [result_bind map_err fst].
  2,3: exists []; (split_and!; [by apply sublist_nil_l| |done]); (split; [done|]; exists []; by rewrite app_nil_r).
  exists [cs]. split_and!; [done| |done]. split; [done|].
  eexists [_]. split; [reflexivity|]. constructor; [|done].
  split_and!; [done|done|]. exists secs. done.
Qed.

Lemma save_all_grows env css : forall rc i,
  exists kept, kept `sublist_of` css /\
    table_grows (Some rc) (Some (save_all rc css i env)) kept /\
    (disk_ok env -> Forall storable css -> kept = css).
Proof.
  induction css as [|cs css IH]; intros rc i; cbn [save_all].
  { exists []. split_and!; [done| |done]. split; [done|]. exists []. by rewrite app_nil_r. }
  destruct (save_one_grows rc cs (Env.unixepoch env) (Env.disk env i)) as (k1 & Hs1 & Ht1 & He1).
  edestruct IH as (k2 & Hs2 & Ht2 & He2). exists (k1 ++ k2). split_and!.
  - change (cs :: css) with ([cs] ++ css). by apply sublist_app.
  - eapply table_grows_trans; [exact Ht1|exact Ht2].
  - intros Hd HF. apply Forall_cons in HF as [Hc HF]. rewrite He1, He2 by done. done.
Qed.

Lemma obtain_token_not_err a env a' u : obtain_token a env = (a', Err u) -> False.
Proof. unfold obtain_token. destruct a as [a|]; [|done]. by destruct (AttestationClient.get_token _ _ _) as [? []]. Qed.

Lemma flush_conserves s env s' acked r :
  flush s env = (s', acked, r) -> (forall w, r <> Panic w) ->
  r = Ok tt /\ buffer s' = [] /\ conserves (disk_ok env) s [] s' acked.
Proof.
  unfold flush. intros H Hp. destruct (buffer s) as [|cs css] eqn:Hb.
  { simplify_eq. split_and!; [done|done|]. apply conserves_quiet; [done| |done]. by rewrite Hb. }
  destruct (obtain_token (attestation s) env) as [a token] eqn:Ht.
  destruct token as [tk|u|w]; [|by apply obtain_token_not_err in Ht|by simplify_eq; edestruct Hp].
  remember (cs :: css) as b eqn:Eb. clear Eb Ht cs css.
  match type of H with context [send_with_retries ?x ?y env] =>
    set (s1 := x) in H; set (batch := y) in H end.
  assert (Hcfg : config s1 = config s) by done.
  destruct (send_with_retries s1 batch env) as [[]|e|w] eqn:Hs; [| |by simplify_eq; edestruct Hp].
  - simplify_eq. split_and!; [done|done|]. split; [done|]. split.
    { apply Forall_singleton. apply retry_loop_ok in Hs as (k & _ & Hk & _). cbn in Hk. by eexists. }
    exists [(buffer s, Acked)]. cbn. rewrite !app_nil_r. split_and!; [done|done| |by repeat constructor].
    destruct (recovery s); [|done]. split; [done|]. exists []. by rewrite app_nil_r.
  - simplify_eq. split_and!; [done|done|]. split; [done|]. split; [done|].
    assert (exists kept, kept `sublist_of` buffer s /\
      table_grows (recovery s) ((fun r => save_all r (buffer s) 0 env) <$> recovery s) kept /\
      (disk_ok env -> recovery s <> None -> Forall storable (buffer s) -> kept = buffer s)) as (kept & Hk1 & Hk2 & Hk3).
    { destruct (recovery s) as [rc|]; cbn.
      - destruct (save_all_grows env (buffer s) rc 0) as (k & Ha & Hb & Hc). exists k.
        split; [exact Ha|]. split; [exact Hb|]. intros Hd _. by apply Hc.
      - exists []. split_and!; [by apply sublist_nil_l|done|done]. }
    exists [(buffer s, Failed kept)]. cbn. rewrite !app_nil_r.
    split; [done|]. split; [done|]. split; [exact Hk2|]. repeat constructor; cbn; auto.
Qed.

Lemma accept_conserves R s cs : conserves R s [cs] (accept s cs) [].
Proof. by apply conserves_quiet. Qed.

Lemma accept_all_conserves R css : forall s, conserves R s css (fold_left accept css s) [].
Proof.
  induction css as [|cs css IH]; intros s; cbn [fold_left]; [apply conserves_quiet; [done| |done]; by rewrite app_nil_r|].
  change (cs :: css) with ([cs] ++ css). change (@nil ChangesetBatchRequest.t) with (@nil ChangesetBatchRequest.t ++ []).
  eapply (conserves_trans R R R); eauto using accept_conserves.
Qed.

Lemma step_conserves s ev s' acked r :
  step s ev = (s', acked, r) -> (forall w, r <> Panic w) ->
  conserves (event_ok ev) s (taken [ev]) s' acked /\
  match ev with
  | Received _ _ => r = Ok true
  | ChannelClosed => r = Ok false /\ s' = s /\ acked = []
  | Shutdown _ _ => r = Ok false /\ buffer s' = []
  end.
Proof.
  destruct ev as [cs env| |drained env]; cbn [step taken event_ok]; intros H Hp.
  - destruct (should_flush _ _) eqn:Hf.
    + destruct (flush (accept s cs) env) as [[s1 a1] r1] eqn:E. simplify_eq.
      apply flush_conserves in E as (-> & _ & Hc).
      2: { intros w ->. by apply (Hp w). }
      split; [|done]. change [cs] with ([cs] ++ []). change acked with ([] ++ acked).
      eapply (conserves_trans True _ _); [done|done|apply accept_conserves|exact Hc].
    + simplify_eq. split; [apply accept_conserves|done].
  - simplify_eq. split; [|done]. apply conserves_quiet; [done| |done]. by rewrite app_nil_r.
  - destruct (flush (fold_left accept drained s) env) as [[s1 a1] r1] eqn:E. simplify_eq.
    apply flush_conserves in E as (-> & Hb & Hc).
    2: { intros w ->. by apply (Hp w). }
    split; [|done]. rewrite <-(app_nil_r drained) at 1. change acked with ([] ++ acked).
    eapply (conserves_trans True _ _); [done|done|apply accept_all_conserves|exact Hc].
Qed.

Lemma taken_cons_received cs env events : taken (Received cs env :: events) = taken [Received cs env] ++ taken events.
Proof. done. Qed.

Lemma main_loop_conserves events : forall s s' acked r,
  main_loop s events = (s', acked, r) -> (forall w, r <> Panic w) ->
  conserves (Forall event_ok events) s (taken events) s' acked /\
  (stopped_by_shutdown events = true -> buffer s' = []).
Proof.
  induction events as [|ev events IH]; intros s s' acked r H Hp; cbn [main_loop] in H.
  { simplify_eq. split; [|done]. apply conserves_quiet; [done| |done]. by rewrite app_nil_r. }
  destruct (step s ev) as [[s1 a1] r1] eqn:Es.
  assert (Hp1 : forall w, r1 <> Panic w).
  { intros w ->. simplify_eq. by apply (Hp w). }
  destruct (step_conserves _ _ _ _ _ Es Hp1) as [Hc Hev].
  assert (Hw : forall tl, Forall event_ok (ev :: tl) -> event_ok ev) by (intros tl HF; by apply Forall_cons in HF as [? _]).
  destruct ev as [cs env| |drained env].
  - subst r1. destruct (main_loop s1 events) as [[s2 a2] r2] eqn:Em. simplify_eq.
    destruct (IH _ _ _ _ Em Hp) as [Hc2 Hb]. split; [|done]. rewrite taken_cons_received.
    eapply conserves_trans; [apply Hw| |exact Hc|exact Hc2]. intros HF. by apply Forall_cons in HF as [_ ?].
  - destruct Hev as (-> & -> & ->). simplify_eq. split; [|done].
    destruct Hc as (? & ? & g & ? & ? & ? & HF). split; [done|]. split; [done|]. exists g. split_and!; try done.
    eapply Forall_impl; [exact HF|]. intros [? [|]]; cbn; [done|]. intros [? ?]. split; [done|]. intros Ho. auto.
  - destruct Hev as (-> & Hb). simplify_eq. split; [|done].
    destruct Hc as (? & ? & g & ? & ? & ? & HF). split; [done|]. split; [done|]. exists g. split_and!; try done.
    eapply Forall_impl; [exact HF|]. intros [? [|]]; cbn; [done|]. intros [? ?]. split; [done|].
    intros Ho%Hw. auto.
Qed.

(** C17. No changeset disappears silently or is sent twice: in a run of the sender that
    does not panic, everything taken from the channel is, in order, a sequence of
    flushed groups followed by what is still buffered.  Each group was acknowledged by
    the sequencer as one batch of exactly its changesets, or its send failed and the
    recovery table grew by exactly the rows that could be saved: all of them when
    recovery is enabled, its statements succeed and the changesets are storable.  After
    a shutdown signal the buffer is empty. *)
Theorem sender_conserves (s s' : t) (events : list Event) (acked : list ChangesetBatchRequest.t)
    (r : result unit bool) :
  main_loop s events = (s', acked, r) -> (forall w, r <> Panic w) ->
  exists groups,
    buffer s ++ taken events = concat groups.*1 ++ buffer s' /\
    map ChangesetBatchRequest.changesets acked = map (map changeset_data_from) (acked_groups groups) /\
    Forall (acknowledged (config s)) acked /\
    table_grows (recovery s) (recovery s') (kept_in groups) /\
    (Forall event_ok events -> recovery s <> None -> Forall storable (buffer s ++ taken events) ->
     concat groups.*1 ≡ₚ concat (acked_groups groups) ++ kept_in groups) /\
    (stopped_by_shutdown events = true -> buffer s' = []).
Proof.
  intros H Hp. destruct (main_loop_conserves events s s' acked r H Hp) as [(_ & Ha & g & Hb & Hm & Ht & HF) Hs].
  exists g. split_and!; [done..| |done]. intros Ho Hr Hst. rewrite Hb in Hst. apply Forall_app in Hst as [Hst _].
  clear -HF Ho Hr Hst. induction HF as [|[c f] g Hg HF IH]; [done|]. cbn in Hst. apply Forall_app in Hst as [Hc Hst].
  specialize (IH Hst). cbn. rewrite IH. unfold acked_groups, kept_in. destruct f as [|kept]; cbn in *.
  - by rewrite app_assoc.
  - destruct Hg as [_ Hk]. rewrite (Hk Ho Hr Hc).
    rewrite !app_assoc. apply Permutation_app_tail. apply Permutation_app_comm.
Qed.

(** Below the thresholds a received changeset is only buffered. *)
Definition quiet (s : t) (css : list Changeset.t) (now : nat -> Z) : Prop :=
  forall i, (i < length css)%nat -> should_flush (fold_left accept (take (S i) css) s) (now i) = false.

Lemma quiet_run (css : list Changeset.t) : forall s (envs : nat -> Env.t) tl,
  quiet s css (fun i => Env.now (envs i)) ->
  main_loop s (imap (fun i cs => Received cs (envs i)) css ++ tl) = main_loop (fold_left accept css s) tl.
Proof.
  induction css as [|cs css IH]; intros s envs tl Hq; [done|]. cbn [imap app main_loop step fold_left].
  pose proof (Hq 0%nat ltac:(cbn; lia)) as H0. cbn in H0. rewrite take_0 in H0. cbn in H0. rewrite H0.
  specialize (IH (accept s cs) (fun i => envs (S i)) tl).
  change (imap _ css) with (imap (fun i cs0 => Received cs0 (envs (S i))) css). rewrite IH.
  - destruct (main_loop _ tl) as [[s2 a2] r2]. reflexivity.
  - intros i Hi. apply (Hq (S i)). cbn. lia.
Qed.

(** Dropping the client can lose what the sender has buffered: [Drop] closes the
    changeset channel before it signals the shutdown, and a sender that sees the closed
    channel first stops with its buffer as it is, having sent nothing and saved nothing
    to recovery; had it seen the signal first, the same buffer would have been flushed. *)
Theorem closed_channel_loses_buffer (s : t) (css : list Changeset.t) (envs : nat -> Env.t) (env : Env.t) :
  quiet s css (fun i => Env.now (envs i)) ->
  let taken_events := imap (fun i cs => Received cs (envs i)) css in
  (exists s', main_loop s (taken_events ++ [ChannelClosed]) = (s', [], Ok false) /\
     buffer s' = buffer s ++ css /\ recovery s' = recovery s) /\
  (forall s' acked, main_loop s (taken_events ++ [Shutdown [] env]) = (s', acked, Ok false) -> buffer s' = []).
Proof.
  intros Hq. cbv zeta. rewrite !quiet_run by done. split.
  - exists (fold_left accept css s). split; [done|]. clear. revert s.
    induction css as [|cs css IH]; intros s; cbn; [by rewrite app_nil_r|].
    destruct (IH (accept s cs)) as [-> ->]. cbn. by rewrite <-app_assoc.
  - intros s' acked H. by apply main_loop_conserves in H as [_ Hb]; [apply Hb|].
Qed.

(** With [max_retries = 0], which the configuration check accepts, the first flush
    panics: the sender's thread dies with its changesets neither sent nor saved, also
    when recovery is enabled. *)
Theorem zero_retries_panics (s : t) (env : Env.t) :
  Config.max_retries (config s) = 0%nat -> buffer s <> [] -> attestation s = None ->
  exists w s', flush s env = (s', [], Panic w) /\ buffer s' = [] /\ recovery s' = recovery s.
Proof.
  intros Hm Hb Ha. unfold flush. destruct (buffer s) as [|cs css]; [done|]. rewrite Ha. cbn [obtain_token].
  unfold send_with_retries. cbn [config with_attestation]. rewrite Hm. cbn. eauto.
Qed.

(** The size of a failed batch stays in [buffer_size] and the time of the last flush is
    not renewed: until a send succeeds, further changesets are flushed one by one. *)
Lemma failed_flush_keeps_size (s s' : t) (env : Env.t) :
  flush s env = (s', [], Ok tt) -> buffer s <> [] ->
  buffer s' = [] /\ buffer_size s' = buffer_size s /\ last_flush s' = last_flush s.
Proof.
  unfold flush. destruct (buffer s) as [|cs css]; [done|]. intros H _.
  destruct (obtain_token _ _) as [a [tk|u|w]]; [|done..].
  destruct (send_with_retries _ _ _); [done| |done]. by simplify_eq.
Qed.
End conserve.
End SenderFate.
