(* ===== verification/ClientCapture.v ===== *)
(** * Properties of change capture

    With what SQLite documents of sessions, the changesets the client captures and
    queues, applied in order by the validator's applier, rebuild the application's
    database, also when the application and the sender threads of its handle interleave;
    and what happens when a changeset finds no room, was not pushed before a shutdown, or
    a snapshot is taken while changes are pending. *)
From Stdlib Require Import Ascii Strings.Byte.
From S2P Require Import Prelude RustStd Extern Net Outbound StateStore Applier BootClients Bootstrap.
From S2P Require Import ClientSender ClientSession ClientProps.

(** ** SQLite sessions, as documented

    [base x] is the database the session was created on.  [tracked a b]: from [a] to
    [b] only rows of tables with a primary key have changed, not the schema; these are
    the changes a session records. *)
Class CaptureLaws `{SE : Session} `{CP : !Capture} : Type := {
  base : CapSession -> Db;
  tracked : Db -> Db -> Prop;
  tracked_refl a : tracked a a;
  tracked_trans a b c : tracked a b -> tracked b c -> tracked a c;
  session_base c n x y : session_new c n = Ok x -> session_attach x n = Ok y -> base y = c;
  (** an empty changeset: nothing has changed *)
  no_changes x b n : tracked (base x) b -> changeset_strm x b n = Ok [] -> b = base x;
  (** a changeset names tables of the database with their number of columns, and
      applies to it without conflict *)
  changes_apply x b n d :
    tracked (base x) b -> changeset_strm x b n = Ok d -> d <> [] ->
    (exists items, start_strm d = Ok items /\
       Forall (fun it => exists t k, it = Item (Ok (t, k)) /\ table_info (base x) t = Some k /\ k <> 0) items) /\
    forall h, apply_strm (base x) d h = Ok b;
}.

Section capture.
Context `{SE : Session} `{HA : Hasher} `{CP : !Capture} `{CL : !CaptureLaws}.
Import SessionState.

Lemma table_columns_fit (db : Db) items : forall m,
  Forall (fun it => exists t k, it = Item (Ok (t, k)) /\ table_info db t = Some k /\ k <> 0) items ->
  map_Forall (fun t k => table_info db t = Some k /\ k <> 0) m ->
  exists m', ChangesetApplier.table_columns_loop m items = Ok m' /\
    map_Forall (fun t k => table_info db t = Some k /\ k <> 0) m'.
Proof.
  induction items as [|it items IH]; intros m HF Hm; [eauto|].
  apply Forall_cons in HF as [(t & k & -> & Ht & Hk) HF]. cbn. apply IH; [done|]. by apply map_Forall_insert_2.
Qed.

Lemma check_tables_fit (db : Db) l :
  Forall (fun p => table_info db p.1 = Some p.2 /\ p.2 <> 0) l -> ChangesetApplier.check_tables db l = ([], []).
Proof.
  induction 1 as [|[t k] l [Ht Hk] _ IH]; [done|]. cbn in *. rewrite IH, Ht.
  destruct k; [done|..]; by rewrite Z.eqb_refl.
Qed.

Lemma apply_captured x b n d :
  tracked (base x) b -> changeset_strm x b n = Ok d -> d <> [] ->
  ChangesetApplier.apply_single_changeset (base x) d = Ok b.
Proof.
  intros Ht Hc Hd. destruct (changes_apply x b n d Ht Hc Hd) as [(items & Hi & HF) Ha].
  unfold ChangesetApplier.apply_single_changeset, ChangesetApplier.validate_changeset_schema.
  rewrite Hi. cbn [map_err result_bind].
  destruct (table_columns_fit (base x) items ∅ HF) as (m & -> & Hm); [apply map_Forall_empty|]. cbn [result_bind].
  rewrite check_tables_fit; [cbn [result_bind]; by rewrite Ha|].
  apply Forall_forall. intros [t k] Hin%elem_of_map_to_list. by apply Hm in Hin.
Qed.

Lemma apply_changesets_app sequence batch_id l1 l2 : forall i db,
  ChangesetApplier.apply_changesets sequence batch_id i db (l1 ++ l2) =
  let? db' := ChangesetApplier.apply_changesets sequence batch_id i db l1 in
  ChangesetApplier.apply_changesets sequence batch_id (i + length l1) db' l2.
Proof.
  induction l1 as [|c l1 IH]; intros i db; cbn; [by rewrite Nat.add_0_r|].
  destruct (ChangesetData.data c) as [|x d]; [rewrite IH; cbn; by rewrite <-plus_n_Sm|].
  destruct (map_err _ _) as [db'|e|w]; cbn; [|done..]. rewrite IH. by rewrite <-plus_n_Sm.
Qed.

(** The replica's side: the changesets applied one after the other, as the validator
    applies those of a batch. *)
Definition replays (db : Db) (css : list Changeset.t) (db' : Db) : Prop :=
  forall sequence batch_id i,
    ChangesetApplier.apply_changesets sequence batch_id i db (map changeset_data_from css) = Ok db'.

Lemma replays_snoc db css db1 cs db2 :
  replays db css db1 -> Changeset.data cs <> [] ->
  ChangesetApplier.apply_single_changeset db1 (Changeset.data cs) = Ok db2 -> replays db (css ++ [cs]) db2.
Proof.
  intros H Hd Ha sequence batch_id i. rewrite map_app, apply_changesets_app, H. cbn.
  destruct (Changeset.data cs) as [|x d] eqn:E; [done|]. by rewrite Ha.
Qed.

(** ** One push *)

(** The state keeps what the changesets sent into the channel so far, applied to [c0],
    have rebuilt as the base of its session; when no change is flagged, that is the
    database itself.  [past] are those already taken from the channel. *)
Definition sent_so_far (past : list Changeset.t) (s : t) : list Changeset.t := past ++ Chan.queue (changeset_tx s).
Record captured_after (past : list Changeset.t) (c0 : Db) (s : t) : Prop := {
  cap_replays : replays c0 (sent_so_far past s) (base (session s));
  cap_tracked : tracked (base (session s)) (conn s);
  cap_clean : has_changes s = false -> conn s = base (session s);
  cap_order : StronglySorted Z.lt (map Changeset.sequence (sent_so_far past s));
  cap_below : Forall (fun cs => Changeset.sequence cs < sequence s) (sent_so_far past s);
}.
Definition captured : Db -> t -> Prop := captured_after [].

Definition room (s : t) : Prop :=
  Chan.receiver_alive (changeset_tx s) = true /\
  (length (Chan.queue (changeset_tx s)) < Chan.capacity (changeset_tx s))%nat.

(** The schema check touches neither queue nor session nor database; the number can
    only grow. *)
Lemma schema_check_frame s now n s' r :
  SessionMonitor.schema_check s now n = (s', r) -> is_u64 (sequence s + 1) -> 0 <= sequence s ->
  changeset_tx s' = changeset_tx s /\ session s' = session s /\ conn s' = conn s /\
  has_changes s' = has_changes s /\ sequence s <= sequence s' <= sequence s + 1 /\
  snapshot_interval s' = snapshot_interval s.
Proof.
  unfold SessionMonitor.schema_check. intros H Hu Hs. case_bool_decide; [simplify_eq; split_and!; (done || lia)|].
  destruct (SessionMonitor.create_snapshot_internal s now n) as [sn|e|w]; cycle 1.
  1,2: simplify_eq; cbn; split_and!; (done || lia).
  unfold SessionMonitor.send_snapshot in H. destruct (snapshot_tx s) as [tx|]; [|simplify_eq; split_and!; (done || lia)].
  destruct (Chan.try_send tx sn) as [tx' r']. destruct (is_ok r'); simplify_eq; cbn;
    rewrite ?u64_add_small by done; split_and!; (done || lia).
Qed.

Lemma interval_snapshot_frame s now n s' r :
  SessionMonitor.interval_snapshot s now n = (s', r) ->
  changeset_tx s' = changeset_tx s /\ session s' = session s /\ conn s' = conn s /\
  has_changes s' = has_changes s /\ sequence s' = sequence s.
Proof.
  unfold SessionMonitor.interval_snapshot, SessionMonitor.send_snapshot. intros H.
  repeat (case_match; simplify_eq); done.
Qed.

Lemma recreate_base s n s' :
  recreate_session s n = (s', Ok tt) ->
  base (session s') = conn s /\ conn s' = conn s /\ changeset_tx s' = changeset_tx s /\
  has_changes s' = has_changes s /\ sequence s' = sequence s.
Proof.
  unfold recreate_session. intros H. destruct (session_new (conn s) n) as [x| |] eqn:Hx; [|done..].
  cbn in H. destruct (session_attach x n) as [y| |] eqn:Hy; [|done..]. cbn in H. simplify_eq. cbn.
  split_and!; [by eapply session_base|done..].
Qed.

Lemma recreate_snapshot_tx s n s' r : recreate_session s n = (s', r) -> snapshot_tx s' = snapshot_tx s.
Proof. unfold recreate_session. intros H. destruct (result_bind _ _); by simplify_eq. Qed.

Lemma sorted_snoc l z : StronglySorted Z.lt l -> Forall (fun x => x < z) l -> StronglySorted Z.lt (l ++ [z]).
Proof.
  induction 1 as [|x l Hs IH Hx]; intros HF; cbn; [by repeat constructor|].
  apply Forall_cons in HF as [Hz HF]. constructor; [by apply IH|]. apply Forall_app. by split; [|constructor].
Qed.

Lemma captured_frame past c0 s s' :
  captured_after past c0 s -> changeset_tx s' = changeset_tx s -> session s' = session s -> conn s' = conn s ->
  has_changes s' = has_changes s -> sequence s <= sequence s' -> captured_after past c0 s'.
Proof.
  intros [H1 H2 H3 H4 H5] Ht Hx Hc Hh Hq. split; unfold sent_so_far in *; rewrite ?Ht, ?Hx, ?Hc, ?Hh; try done.
  eapply Forall_impl; [exact H5|]. cbn. intros; lia.
Qed.

Lemma send_changeset_spec s data now :
  room s -> is_u64 (sequence s + 1) ->
  let s' := SessionMonitor.send_changeset s data now in
  Chan.queue (changeset_tx s') = Chan.queue (changeset_tx s) ++ [Changeset.mk data (sequence s) now] /\
  sequence s' = sequence s + 1 /\ session s' = session s /\ conn s' = conn s /\ has_changes s' = has_changes s.
Proof.
  intros [Hr Hl] Hu. cbv zeta. unfold SessionMonitor.send_changeset, Chan.try_send. cbn. rewrite Hr. cbn.
  apply Nat.leb_gt in Hl. rewrite Hl. cbn. rewrite u64_add_small by done. done.
Qed.

Lemma extract_captured past c0 s now n s' :
  captured_after past c0 s -> room s -> 0 <= sequence s -> is_u64 (sequence s + 1) ->
  SessionMonitor.extract s now n = (s', Ok tt) ->
  captured_after past c0 s' /\ conn s' = conn s /\ base (session s') = conn s.
Proof.
  intros [C1 C2 C3 C4 C5] Hroom Hs Hu H. unfold SessionMonitor.extract in H.
  destruct (changeset_strm (session s) (conn s) n) as [d| |] eqn:Hd; [|done..]. cbn [map_err] in H.
  destruct d as [|x d].
  { simplify_eq. cbn. pose proof (no_changes _ _ _ C2 Hd) as Hc. split; [|done]. by split. }
  set (s0 := with_flags s false (last_schema_hash s)) in H. set (data := x :: d) in *.
  destruct (send_changeset_spec s0 data now Hroom Hu) as (Q & Sq & Se & Co & Hc).
  set (s1 := SessionMonitor.send_changeset s0 data now) in *.
  destruct (SessionMonitor.interval_snapshot s1 now n) as [s2 r] eqn:Hi.
  destruct (interval_snapshot_frame _ _ _ _ _ Hi) as (I1 & I2 & I3 & I4 & I5).
  destruct r as [[]| |]; [|done..]. apply recreate_base in H as (B1 & B2 & B3 & B4 & B5).
  assert (Hcn : conn s' = conn s) by (rewrite B2, I3, Co; done).
  assert (Hb : base (session s') = conn s) by (rewrite B1, I3, Co; done).
  assert (Hq : sent_so_far past s' = sent_so_far past s ++ [Changeset.mk data (sequence s) now])
    by (unfold sent_so_far; rewrite B3, I1, Q; apply app_assoc).
  split; [|done]. split; rewrite ?Hq, ?Hb, ?Hcn.
  - eapply replays_snoc; [exact C1|done|]. cbn. by eapply apply_captured.
  - apply tracked_refl.
  - done.
  - rewrite map_app. apply sorted_snoc; [done|]. rewrite Forall_map. exact C5.
  - apply Forall_app. split; [|constructor; [|done]]; cbn; rewrite B5, I5, Sq; cbn; [|lia].
    eapply Forall_impl; [exact C5|]. cbn. intros; lia.
Qed.

(** A push that succeeds keeps the invariant; outside a transaction it brings the
    session's base, and so the replica, to the current database. *)
Lemma push_captured past c0 s now n s' :
  captured_after past c0 s -> room s -> 0 <= sequence s -> is_u64 (sequence s + 2) ->
  SessionMonitor.extract_and_send_changeset s now n = (s', Ok tt) ->
  captured_after past c0 s' /\ conn s' = conn s /\ (is_autocommit (conn s) = true -> base (session s') = conn s).
Proof.
  intros C Hroom Hs Hu H. unfold SessionMonitor.extract_and_send_changeset in H.
  destruct (has_changes s) eqn:Hh; cbn in H.
  2: { simplify_eq. split_and!; [done|done|]. intros _. symmetry. by apply (cap_clean _ _ _ C). }
  destruct (is_autocommit (conn s)) eqn:Ha; cbn in H; [|by simplify_eq].
  destruct (SessionMonitor.schema_check s now n) as [s1 r] eqn:Hc.
  assert (is_u64 (sequence s + 1)) by (unfold is_u64 in *; lia).
  destruct (schema_check_frame _ _ _ _ _ Hc) as (F1 & F2 & F3 & F4 & F5 & _); [done..|].
  destruct r as [[]| |]; [|done..].
  destruct (extract_captured past c0 s1 now n s') as (E1 & E2 & E3); try done.
  - eapply captured_frame; eauto. lia.
  - unfold room in *. by rewrite F1.
  - lia.
  - unfold is_u64 in *. lia.
  - rewrite F3 in *. done.
Qed.

(** What a push can add to the channel and to the number. *)
Definition grows (s s' : t) (k : Z) : Prop :=
  Chan.receiver_alive (changeset_tx s') = Chan.receiver_alive (changeset_tx s) /\
  Chan.capacity (changeset_tx s') = Chan.capacity (changeset_tx s) /\
  (length (Chan.queue (changeset_tx s')) <= S (length (Chan.queue (changeset_tx s))))%nat /\
  sequence s <= sequence s' <= sequence s + k.

Lemma try_send_grows {A} (c : Chan.t A) a :
  let c' := fst (Chan.try_send c a) in
  Chan.receiver_alive c' = Chan.receiver_alive c /\ Chan.capacity c' = Chan.capacity c /\
  (length (Chan.queue c') <= S (length (Chan.queue c)))%nat.
Proof.
  cbv zeta. unfold Chan.try_send. destruct (Chan.receiver_alive c) eqn:Ha; cbn; [|by rewrite Ha; split_and!; [..|lia]].
  destruct (Nat.leb _ _); cbn; rewrite ?length_app; cbn; split_and!; (done || lia).
Qed.

Lemma extract_grows s now n s' :
  0 <= sequence s -> is_u64 (sequence s + 1) -> SessionMonitor.extract s now n = (s', Ok tt) -> grows s s' 1.
Proof.
  intros Hs Hu H. unfold SessionMonitor.extract in H.
  destruct (changeset_strm (session s) (conn s) n) as [[|x d]| |]; [| |done..]; cbn [map_err] in H.
  { simplify_eq. unfold grows. cbn. split_and!; (done || lia). }
  match type of H with context [SessionMonitor.send_changeset ?a ?b ?c] =>
    set (s1 := SessionMonitor.send_changeset a b c) in H end.
  destruct (SessionMonitor.interval_snapshot s1 now n) as [s2 r] eqn:Hi.
  destruct (interval_snapshot_frame _ _ _ _ _ Hi) as (I1 & _ & _ & _ & I5).
  destruct r as [[]| |]; [|done..]. apply recreate_base in H as (_ & _ & B3 & _ & B5).
  unfold grows. rewrite B3, B5, I1, I5. unfold s1, SessionMonitor.send_changeset. cbn.
  rewrite u64_add_small by done. pose proof (try_send_grows (changeset_tx s) (Changeset.mk (x :: d) (sequence s) now)).
  split_and!; (naive_solver || lia).
Qed.

Lemma push_grows s now n s' :
  0 <= sequence s -> is_u64 (sequence s + 2) ->
  SessionMonitor.extract_and_send_changeset s now n = (s', Ok tt) -> grows s s' 2.
Proof.
  intros Hs Hu H. unfold SessionMonitor.extract_and_send_changeset in H.
  destruct (negb (has_changes s)); [simplify_eq; unfold grows; split_and!; (done || lia)|].
  destruct (negb (is_autocommit (conn s))); [simplify_eq; unfold grows; split_and!; (done || lia)|].
  destruct (SessionMonitor.schema_check s now n) as [s1 r] eqn:Hc. unfold is_u64 in Hu.
  destruct (schema_check_frame _ _ _ _ _ Hc) as (F1 & _ & _ & _ & F5 & _); [unfold is_u64; lia|done|].
  destruct r as [[]| |]; [|done..].
  apply extract_grows in H; [|lia|unfold is_u64; lia]. unfold grows in *. rewrite F1 in H.
  split_and!; (naive_solver || lia).
Qed.

(** ** The application's run: writes and pushes *)
Inductive AppEvent :=
| Write (db : Db)
| Push (now : Z) (n : nat).

(** [None] once a push reports an error. *)
Fixpoint app_run (s : t) (events : list AppEvent) : option t :=
  match events with
  | [] => Some s
  | Write db :: events' => app_run (SessionMonitor.app_write s db true) events'
  | Push now n :: events' =>
      match SessionMonitor.extract_and_send_changeset s now n with
      | (s', Ok _) => app_run s' events'
      | _ => None
      end
  end.

Fixpoint tracked_writes (c : Db) (events : list AppEvent) : Prop :=
  match events with
  | [] => True
  | Write db :: events' => tracked c db /\ tracked_writes db events'
  | Push _ _ :: events' => tracked_writes c events'
  end.

Fixpoint pushes (events : list AppEvent) : nat :=
  match events with
  | [] => 0
  | Write _ :: events' => pushes events'
  | Push _ _ :: events' => S (pushes events')
  end.

(** The channel has room for, and the counter numbers for, [k] more pushes. *)
Definition headroom (s : t) (k : nat) : Prop :=
  Chan.receiver_alive (changeset_tx s) = true /\
  (length (Chan.queue (changeset_tx s)) + k <= Chan.capacity (changeset_tx s))%nat /\
  0 <= sequence s /\ sequence s + 2 * Z.of_nat k < 2 ^ 64.

Lemma headroom_push s s' k : headroom s (S k) -> grows s s' 2 -> headroom s' k.
Proof. unfold headroom, grows. intros (H1 & H2 & H3 & H4) (G1 & G2 & G3 & G4). rewrite G1, G2. split_and!; (done || lia). Qed.

Lemma write_captured past c0 s db :
  captured_after past c0 s -> tracked (conn s) db -> captured_after past c0 (SessionMonitor.app_write s db true).
Proof. intros [H1 H2 H3 H4 H5] Ht. split; cbn; try done. by eapply tracked_trans. Qed.

Lemma app_run_captured c0 k events : forall s s',
  captured c0 s -> tracked_writes (conn s) events -> headroom s (pushes events + k) ->
  app_run s events = Some s' -> captured c0 s' /\ headroom s' k.
Proof.
  induction events as [|[db|now n] events IH]; intros s s' C Ht Hh H.
  - by simplify_eq/=.
  - destruct Ht as [Ht Hts]. apply (IH (SessionMonitor.app_write s db true)); [by apply write_captured|done..].
  - cbn in H, Ht, Hh. destruct (SessionMonitor.extract_and_send_changeset s now n) as [s1 [[]| |]] eqn:E; [|done..].
    pose proof Hh as (R1 & R2 & R3 & R4).
    assert (is_u64 (sequence s + 2)) by (unfold is_u64; lia).
    destruct (push_captured [] c0 s now n s1) as (C1 & Hc & _); try done; [by split; [|lia]|].
    apply (IH s1); [done|by rewrite Hc| |done]. eapply headroom_push; [exact Hh|]. by eapply push_grows.
Qed.

Lemma app_run_app e1 : forall s e2, app_run s (e1 ++ e2) = app_run s e1 ≫= fun s' => app_run s' e2.
Proof.
  induction e1 as [|[db|now n] e1 IH]; intros s e2; [done|apply IH|]. cbn.
  destruct (SessionMonitor.extract_and_send_changeset s now n) as [s1 [u| |]]; [apply IH|done..].
Qed.

Lemma new_captured c0 tx interval stx n s :
  SessionMonitor.new c0 tx interval stx n = Ok s -> Chan.queue tx = [] -> captured c0 s /\ conn s = c0 /\ changeset_tx s = tx /\ sequence s = 0.
Proof.
  unfold SessionMonitor.new. intros H Hq. destruct (session_new c0 n) as [x| |] eqn:Hx; [|done..]. cbn [map_err result_bind] in H.
  destruct (session_attach x n) as [y| |] eqn:Hy; [|done..]. cbn [map_err result_bind] in H.
  simplify_eq. cbn. split; [|done]. pose proof (session_base _ _ _ _ Hx Hy) as Hb.
  split; cbn; rewrite ?Hq, ?Hb; try done; [apply tracked_refl|constructor].
Qed.

(** A run that ends with a push outside a transaction leaves the database in the queue. *)
Lemma capture_replays c0 tx interval stx n0 s0 events now n s :
  SessionMonitor.new c0 tx interval stx n0 = Ok s0 -> Chan.queue tx = [] -> Chan.receiver_alive tx = true ->
  tracked_writes c0 events -> (S (pushes events) <= Chan.capacity tx)%nat -> 2 * Z.of_nat (S (pushes events)) < 2 ^ 64 ->
  app_run s0 (events ++ [Push now n]) = Some s -> is_autocommit (conn s) = true ->
  replays c0 (Chan.queue (changeset_tx s)) (conn s) /\
  StronglySorted Z.lt (map Changeset.sequence (Chan.queue (changeset_tx s))).
Proof.
  intros Hn Hq Ha Ht Hc Hs H Hau. destruct (new_captured _ _ _ _ _ _ Hn Hq) as (C0 & Hcn & Htx & Hsq).
  rewrite app_run_app in H. destruct (app_run s0 events) as [s1|] eqn:H1; [|done]. cbn in H.
  destruct (SessionMonitor.extract_and_send_changeset s1 now n) as [s2 [[]| |]] eqn:H2; [|done..].
  injection H as ->. destruct (app_run_captured c0 1 events s0 s1) as [C1 (R1 & R2 & R3 & R4)]; try done.
  { by rewrite Hcn. }
  { unfold headroom. rewrite Htx, Hsq, Hq, Ha. cbn. split_and!; (done || lia). }
  destruct (push_captured [] c0 s1 now n s) as (C & Hcs & Hb); try done; [by split; [|lia]|unfold is_u64; lia|].
  rewrite <-Hcs in Hb. specialize (Hb Hau). split; [rewrite <-Hb; apply C|apply C].
Qed.
End capture.

(** ** From the application to the replica *)
Section end_to_end.
Context `{SE : Session} `{HA : Hasher} `{CP : !Capture} `{CL : !CaptureLaws}.
Context `{HN : HttpNet} `{UR : ReqwestUrl} `{TS : TeeSocket}.
Context `{JQ : ToJson AttestationRequest.t} `{JR : FromJson AttestationResponse.t}.
Context `{SC : Serde ChangesetBatchRequest.t}.
Import SessionState SenderFate.

(** The validator applies batch after batch. *)
Fixpoint apply_batches (sequence : Z) (db : Db) (batches : list ChangesetBatchRequest.t) : result AnyError Db :=
  match batches with
  | [] => Ok db
  | b :: batches' =>
      let? db' := ChangesetApplier.apply_changesets sequence (ChangesetBatchRequest.batch_id b) 0 db
                    (ChangesetBatchRequest.changesets b) in
      apply_batches (sequence + 1) db' batches'
  end.

(** Number, batch id and index only matter for error texts. *)
Lemma apply_changesets_labels sq id sq' id' l : forall i i' db db',
  ChangesetApplier.apply_changesets sq id i db l = Ok db' ->
  ChangesetApplier.apply_changesets sq' id' i' db l = Ok db'.
Proof.
  induction l as [|c l IH]; intros i i' db db' H; cbn in *; [done|].
  destruct (ChangesetData.data c) as [|x d]; [by eapply IH|].
  destruct (ChangesetApplier.apply_single_changeset db (x :: d)) as [db1| |]; [|done..]. cbn in *. by eapply IH.
Qed.

Lemma replays_batches groups : forall db db' acked sequence,
  replays db (concat groups) db' ->
  map ChangesetBatchRequest.changesets acked = map (map changeset_data_from) groups ->
  apply_batches sequence db acked = Ok db'.
Proof.
  induction groups as [|g groups IH]; intros db db' [|b acked] sequence Hr Hm; try done.
  { specialize (Hr 0 EmptyString 0%nat). by simplify_eq/=. }
  injection Hm as Hb Hm. cbn. rewrite Hb.
  pose proof (Hr 0 EmptyString 0%nat) as H. cbn in H. rewrite map_app, apply_changesets_app in H.
  destruct (ChangesetApplier.apply_changesets 0 EmptyString 0 db (map changeset_data_from g)) as [db1| |] eqn:E; [|done..].
  rewrite (apply_changesets_labels _ _ _ _ _ _ _ _ _ E). cbn in *. apply IH; [|done].
  intros sq id i. by eapply apply_changesets_labels.
Qed.

(** The changesets of the recovery database, whatever becomes of the snapshots. *)
Definition rows_grow (r r' : option FailedBatchRecovery.t) (kept : list Changeset.t) : Prop :=
  match r, r' with
  | None, None => kept = []
  | Some rc, Some rc' =>
      exists new, FailedTable.rows (FailedBatchRecovery.failed_changesets rc') =
                  FailedTable.rows (FailedBatchRecovery.failed_changesets rc) ++ new /\ Forall2 row_of kept new
  | _, _ => False
  end.

Lemma table_rows_grow r r' kept : table_grows r r' kept -> rows_grow r r' kept.
Proof. destruct r, r'; cbn; naive_solver. Qed.

Lemma nothing_kept rc rc' groups :
  rows_grow (Some rc) (Some rc') (kept_in groups) ->
  FailedBatchRecovery.failed_changesets rc' = FailedBatchRecovery.failed_changesets rc -> kept_in groups = [].
Proof.
  intros (new & Hn & HF) He. rewrite He, <-(app_nil_r (FailedTable.rows _)) in Hn at 1.
  apply app_inv_head in Hn as <-. by apply Forall2_nil_inv_r in HF.
Qed.

Lemma all_acked groups :
  kept_in groups = [] ->
  Forall (fun g => match g.2 with Acked => True | Failed kept => kept = g.1 end) groups ->
  concat groups.*1 = concat (acked_groups groups).
Proof.
  induction groups as [|[g [|kept]] groups IH]; intros Hk HF; [done|..]; apply Forall_cons in HF as [Hg HF]; cbn in *.
  - unfold acked_groups. cbn. f_equal. by apply IH.
  - subst kept. unfold kept_in in Hk. cbn in Hk. apply app_eq_nil in Hk as [-> Hk]. by apply IH.
Qed.

(** With reliable recovery and nothing kept, the batches acknowledged hold everything
    that was flushed. *)
Lemma all_flushed_acked G (R : Prop) sd sd' css acked rc rc' :
  conserves_by G R sd css sd' acked -> R -> (forall r r' k, G r r' k -> rows_grow r r' k) ->
  ChangesetSender.buffer sd = [] -> ChangesetSender.buffer sd' = [] -> Forall storable css ->
  ChangesetSender.recovery sd = Some rc -> ChangesetSender.recovery sd' = Some rc' ->
  FailedBatchRecovery.failed_changesets rc' = FailedBatchRecovery.failed_changesets rc ->
  exists batches, css = concat batches /\
    map ChangesetBatchRequest.changesets acked = map (map changeset_data_from) batches.
Proof.
  intros (_ & _ & g & Hbuf & Hmap & Htb & HF) HR HG Hb Hb' Hsto Hrc Hrc' He. exists (acked_groups g). split; [|done].
  rewrite Hb, Hb', app_nil_r in Hbuf. cbn in Hbuf. apply HG in Htb. rewrite Hrc, Hrc' in Htb.
  rewrite <-all_acked; [done|by eapply nothing_kept|].
  rewrite Hbuf in Hsto. clear -HF Hsto HR Hrc. induction HF as [|[c [|k]] g Hg _ IH]; [done|..];
    cbn in Hsto; apply Forall_app in Hsto as [Hc Hsto]; (constructor; [|by apply IH]); [done|].
  destruct Hg as [_ Hg]. apply Hg; [done|by rewrite Hrc|done].
Qed.

(** What the application commits reaches the replica: after any tracked writes and
    successful pushes, the last one outside a transaction, and a sender that takes what
    was queued and is shut down with nothing new in its recovery table, the batches the
    sequencer acknowledged, applied one after the other by the validator to the database
    the session started on, give exactly the application's database; the changesets'
    numbers increase strictly. *)
Theorem application_reaches_replica (c0 : Db) (tx : Chan.t Changeset.t) (interval : Z)
    (stx : option (Chan.t Snapshot.t)) (n0 n : nat) (now : Z) (s0 s : SessionState.t) (events : list AppEvent)
    (sd sd' : ChangesetSender.t) (evs : list ChangesetSender.Event) (acked : list ChangesetBatchRequest.t)
    (rc : FailedBatchRecovery.t) (sequence : Z) :
  SessionMonitor.new c0 tx interval stx n0 = Ok s0 -> Chan.queue tx = [] -> Chan.receiver_alive tx = true ->
  tracked_writes c0 events -> (S (pushes events) <= Chan.capacity tx)%nat -> 2 * Z.of_nat (S (pushes events)) < 2 ^ 64 ->
  app_run s0 (events ++ [Push now n]) = Some s -> is_autocommit (conn s) = true ->
  ChangesetSender.buffer sd = [] -> ChangesetSender.main_loop sd evs = (sd', acked, Ok false) ->
  taken evs = Chan.queue (changeset_tx s) -> stopped_by_shutdown evs = true ->
  Forall event_ok evs -> Forall storable (taken evs) ->
  ChangesetSender.recovery sd = Some rc -> ChangesetSender.recovery sd' = Some rc ->
  apply_batches sequence c0 acked = Ok (conn s) /\
  StronglySorted Z.lt (map Changeset.sequence (taken evs)).
Proof.
  intros Hn Hq Ha Ht Hc Hs Hr Hau Hb Hm Htk Hst Hev Hsto Hrc Hrc'.
  destruct (capture_replays c0 tx interval stx n0 s0 events now n s) as [Hrep Hso]; try done.
  destruct (main_loop_conserves evs sd sd' acked _ Hm) as [Hcons Hend]; [done|].
  destruct (all_flushed_acked _ _ _ _ _ _ _ _ Hcons Hev table_rows_grow Hb (Hend Hst) Hsto Hrc Hrc' eq_refl)
    as (batches & Hcat & Hmap).
  split; [|by rewrite Htk]. eapply replays_batches; [|exact Hmap]. by rewrite <-Hcat, Htk.
Qed.
End end_to_end.

(** ** The handle and its threads, interleaved *)
Section lifecycle.
Context `{SE : Session} `{HA : Hasher} `{CP : !Capture} `{CL : !CaptureLaws}.
Context `{HN : HttpNet} `{UR : ReqwestUrl} `{TS : TeeSocket}.
Context `{JQ : ToJson AttestationRequest.t} `{JR : FromJson AttestationResponse.t}.
Context `{SS : Serde SnapshotRequest.t} `{SC : Serde ChangesetBatchRequest.t}.
Import SessionState SenderFate ClientHandle.

(** What happens while the client runs, in any order: the application writes and
    pushes, a sender takes an item. *)
Inductive Act :=
| AppWrite (db : Db)
| AppPush (env : CallEnv.t)
| ChangesetTurn (env : Env.t)
| SnapshotTurn (env : Env.t).

Definition app_write (h : ClientHandle.t) (db : Db) (hooked : bool) : ClientHandle.t :=
  ClientHandle.with_session h ((fun m => SessionMonitor.app_write m db hooked) <$> SyndDB.monitor (ClientHandle.db h)).

(** The handle and the batches acknowledged; [None] once a push reports an error. *)
Fixpoint client_run (h : ClientHandle.t) (acts : list Act) : option (ClientHandle.t * list ChangesetBatchRequest.t) :=
  match acts with
  | [] => Some (h, [])
  | AppWrite db :: acts' => client_run (app_write h db true) acts'
  | AppPush env :: acts' =>
      match SyndDB.push (ClientHandle.db h) env with
      | (d, Ok _) => client_run (ClientHandle.with_db h d) acts'
      | _ => None
      end
  | ChangesetTurn env :: acts' =>
      let '(h', acked) := changeset_turn h env in
      '(h'', acked') ← client_run h' acts'; Some (h'', acked ++ acked')
  | SnapshotTurn env :: acts' => client_run (snapshot_turn h env).1 acts'
  end.

(** Every push of the run finds room in the channel. *)
Definition has_room (h : ClientHandle.t) : bool :=
  match SyndDB.monitor (ClientHandle.db h) with
  | Some m => Nat.ltb (length (Chan.queue (changeset_tx m))) (Chan.capacity (changeset_tx m))
  | None => false
  end.
Fixpoint never_full (h : ClientHandle.t) (acts : list Act) : bool :=
  match acts with
  | [] => true
  | AppWrite db :: acts' => never_full (app_write h db true) acts'
  | AppPush env :: acts' => has_room h && never_full (ClientHandle.with_db h (SyndDB.push (ClientHandle.db h) env).1) acts'
  | ChangesetTurn env :: acts' => never_full (changeset_turn h env).1 acts'
  | SnapshotTurn env :: acts' => never_full (snapshot_turn h env).1 acts'
  end.

Fixpoint writes_tracked (c : Db) (acts : list Act) : Prop :=
  match acts with
  | [] => True
  | AppWrite db :: acts' => tracked c db /\ writes_tracked db acts'
  | _ :: acts' => writes_tracked c acts'
  end.
Definition is_push (a : Act) : bool := match a with AppPush _ => true | _ => false end.
Definition pushes_in (acts : list Act) : nat := length (List.filter is_push acts).
(** The system clock is after 1970 and the recovery database works. *)
Definition time_fits (now : Z) : Prop := 0 <= now < 2 ^ 63 * NANOS_PER_SEC.
Definition act_ok (a : Act) : Prop :=
  match a with
  | AppPush env => time_fits (CallEnv.wall env)
  | ChangesetTurn env => disk_ok env
  | _ => True
  end.

Lemma rows_grow_trans r r1 r2 k1 k2 : rows_grow r r1 k1 -> rows_grow r1 r2 k2 -> rows_grow r r2 (k1 ++ k2).
Proof.
  destruct r as [rc|], r1 as [rc1|], r2 as [rc2|]; cbn; try done.
  - intros (n1 & Hr1 & HF1) (n2 & Hr2 & HF2). exists (n1 ++ n2). rewrite Hr2, Hr1, <-app_assoc.
    split; [done|]. by apply Forall2_app.
  - by intros -> ->.
Qed.
Lemma rows_grow_some r r' k : rows_grow r r' k -> (r = None <-> r' = None).
Proof. destruct r, r'; cbn; naive_solver. Qed.

Lemma rows_conserves R s css s' acked : conserves R s css s' acked -> conserves_by rows_grow R s css s' acked.
Proof.
  intros (H1 & H2 & g & H3 & H4 & H5 & H6). split; [done|]. split; [done|]. exists g.
  split_and!; [done|done|by apply table_rows_grow|done].
Qed.

(** Snapshots leave the changesets of the recovery database alone. *)
Definition same_changesets (r r' : option FailedBatchRecovery.t) : Prop :=
  FailedBatchRecovery.failed_changesets <$> r' = FailedBatchRecovery.failed_changesets <$> r.

Lemma rows_grow_same r r1 r2 k : rows_grow r r1 k -> same_changesets r1 r2 -> rows_grow r r2 k.
Proof.
  unfold same_changesets. destruct r as [rc|], r1 as [rc1|], r2 as [rc2|]; cbn; try done.
  intros (new & Hn & HF) [= ->]. eauto.
Qed.

Lemma conserves_same R s css s' acked r :
  conserves_by rows_grow R s css s' acked -> same_changesets (ChangesetSender.recovery s') r ->
  conserves_by rows_grow R s css (ChangesetSender.with_recovery s' r) acked.
Proof.
  intros (H1 & H2 & g & H3 & H4 & H5 & H6) Hr. split; [done|]. split; [done|]. exists g.
  split_and!; [done|done|by eapply rows_grow_same|done].
Qed.

Lemma send_snapshot_changesets s sn env s' acked r :
  SnapshotSender.send_snapshot s sn env = (s', acked, r) ->
  same_changesets (SnapshotSender.recovery s) (SnapshotSender.recovery s').
Proof.
  unfold SnapshotSender.send_snapshot, same_changesets. destruct (obtain_token _ _) as [a [tk|u|w]]; intros H;
    [|by simplify_eq..].
  destruct (SnapshotSender.send_with_retries _ _ _); simplify_eq; [done| |done]. cbn.
  destruct (SnapshotSender.recovery s) as [rc|]; [|done]. cbn.
  unfold FailedBatchRecovery.save_failed_snapshot. by destruct (result_bind _ _).
Qed.

Lemma snapshot_loop_changesets events : forall s s' acked r,
  SnapshotSender.main_loop s events = (s', acked, r) ->
  same_changesets (SnapshotSender.recovery s) (SnapshotSender.recovery s').
Proof.
  induction events as [|[sn env| |] events IH]; intros s s' acked r H; cbn in H; [by simplify_eq| |by simplify_eq..].
  destruct (SnapshotSender.send_snapshot s sn env) as [[s1 a1] r1] eqn:E. apply send_snapshot_changesets in E.
  destruct r1 as [[]| |]; [|by simplify_eq..].
  destruct (SnapshotSender.main_loop s1 events) as [[s2 a2] r2] eqn:E2. apply IH in E2. simplify_eq.
  unfold same_changesets in *. congruence.
Qed.

Lemma snapshot_run_frame h s events h' acked :
  snapshot_run h s events = (h', acked) ->
  ClientHandle.db h' = ClientHandle.db h /\ changeset_handle h' = changeset_handle h /\
  same_changesets (ClientHandle.recovery h) (ClientHandle.recovery h').
Proof.
  unfold snapshot_run. destruct (SnapshotSender.main_loop _ _) as [[s1 a1] r1] eqn:E. intros [= <- <-].
  split_and!; [done|done|]. by apply snapshot_loop_changesets in E.
Qed.

(** A push adds at most one changeset, with its time and a number not below the
    session's. *)
Lemma extract_adds s now n s' :
  room s -> 0 <= sequence s -> is_u64 (sequence s + 1) -> SessionMonitor.extract s now n = (s', Ok tt) ->
  exists added, Chan.queue (changeset_tx s') = Chan.queue (changeset_tx s) ++ added /\
    Forall (fun cs => sequence s <= Changeset.sequence cs /\ Changeset.timestamp cs = now) added.
Proof.
  intros Hroom Hs Hu H. unfold SessionMonitor.extract in H.
  destruct (changeset_strm (session s) (conn s) n) as [[|x d]| |]; [| |done..]; cbn [map_err] in H.
  { simplify_eq. exists []. by rewrite app_nil_r. }
  destruct (send_changeset_spec (with_flags s false (last_schema_hash s)) (x :: d) now Hroom Hu) as (Q & _).
  set (s1 := SessionMonitor.send_changeset _ _ _) in *.
  destruct (SessionMonitor.interval_snapshot s1 now n) as [s2 r] eqn:Hi.
  apply interval_snapshot_frame in Hi as (I1 & _). destruct r as [[]| |]; [|done..].
  apply recreate_base in H as (_ & _ & B3 & _). exists [Changeset.mk (x :: d) (sequence s) now].
  split; [rewrite B3, I1, Q; done|]. constructor; [|done]. cbn. split; [lia|done].
Qed.

Lemma push_adds s now n s' :
  room s -> 0 <= sequence s -> is_u64 (sequence s + 2) ->
  SessionMonitor.extract_and_send_changeset s now n = (s', Ok tt) ->
  exists added, Chan.queue (changeset_tx s') = Chan.queue (changeset_tx s) ++ added /\
    Forall (fun cs => 0 <= Changeset.sequence cs /\ Changeset.timestamp cs = now) added.
Proof.
  intros Hroom Hs Hu H. unfold SessionMonitor.extract_and_send_changeset in H. unfold is_u64 in Hu.
  destruct (negb (has_changes s)); [simplify_eq; exists []; by rewrite app_nil_r|].
  destruct (negb (is_autocommit (conn s))); [simplify_eq; exists []; by rewrite app_nil_r|].
  destruct (SessionMonitor.schema_check s now n) as [s1 r] eqn:Hc.
  destruct (schema_check_frame _ _ _ _ _ Hc) as (F1 & _ & _ & _ & F5 & _); [unfold is_u64; lia|done|].
  destruct r as [[]| |]; [|done..].
  apply extract_adds in H as (added & Hq & HF); [|by unfold room in *; rewrite F1|lia|unfold is_u64; lia].
  exists added. rewrite Hq, F1. split; [done|]. eapply Forall_impl; [exact HF|]. cbn. intros cs [? ?]. split; [lia|done].
Qed.

(** ** The invariant: nothing sent into the channel is lost

    While its thread runs, what the sender has taken from the channel is accounted for,
    and with what is queued it rebuilds the session's base. *)
Definition stampable (cs : Changeset.t) : Prop := 0 <= Changeset.sequence cs /\ time_fits (Changeset.timestamp cs).
Record flowing (c0 : Db) (s0 s : ChangesetSender.t) (h : ClientHandle.t) (m : SessionState.t)
    (past : list Changeset.t) (acked : list ChangesetBatchRequest.t) : Prop := {
  flow_open : Chan.receiver_alive (changeset_tx m) = true;
  flow_captured : captured_after past c0 m;
  flow_stamps : Forall stampable (sent_so_far past m);
  flow_conserves :
    conserves_by rows_grow True s0 past (ChangesetSender.with_recovery s (ClientHandle.recovery h)) acked;
  flow_sequence : 0 <= sequence m;
}.
Definition live (c0 : Db) (s0 : ChangesetSender.t) (h : ClientHandle.t) (bound : Z)
    (acked : list ChangesetBatchRequest.t) : Prop :=
  match changeset_handle h with
  | Some (Running s) => exists m past, SyndDB.monitor (ClientHandle.db h) = Some m /\
      flowing c0 s0 s h m past acked /\ sequence m <= bound
  | Some (Panicked _) => True
  | _ => False
  end.

Lemma flowing_monitor c0 s0 s h h' m m' past acked :
  flowing c0 s0 s h m past acked -> changeset_tx m' = changeset_tx m -> session m' = session m ->
  conn m' = conn m -> has_changes m' = has_changes m -> sequence m' = sequence m ->
  same_changesets (ClientHandle.recovery h) (ClientHandle.recovery h') -> flowing c0 s0 s h' m' past acked.
Proof.
  intros [F1 F2 F3 F4 F5] Ht Hx Hc Hh Hq Hr. split; [by rewrite Ht| |by unfold sent_so_far; rewrite Ht| |by rewrite Hq].
  - eapply captured_frame; eauto. lia.
  - by apply (conserves_same _ _ _ _ _ _ F4).
Qed.

Lemma live_write c0 s0 h db bound acked :
  live c0 s0 h bound acked ->
  (forall m, SyndDB.monitor (ClientHandle.db h) = Some m -> tracked (conn m) db) ->
  live c0 s0 (app_write h db true) bound acked.
Proof.
  unfold live. cbn. destruct (changeset_handle h) as [[s| |w]|]; try done.
  intros (m & past & Hm & [F1 F2 F3 F4 F5] & Hb) Ht. rewrite Hm. cbn.
  exists (SessionMonitor.app_write m db true), past. split; [done|]. split; [|done].
  split; [done| |done|done|done]. apply write_captured; auto.
Qed.

Lemma live_push c0 s0 h env d bound acked :
  live c0 s0 h bound acked -> SyndDB.push (ClientHandle.db h) env = (d, Ok tt) -> has_room h = true ->
  time_fits (CallEnv.wall env) -> bound + 2 < 2 ^ 63 ->
  live c0 s0 (ClientHandle.with_db h d) (bound + 2) acked /\
  (forall s, changeset_handle h = Some (Running s) -> exists m m', SyndDB.monitor (ClientHandle.db h) = Some m /\
     SyndDB.monitor d = Some m' /\ conn m' = conn m /\
     (is_autocommit (conn m) = true -> base (session m') = conn m)).
Proof.
  unfold live, SyndDB.push, has_room. cbn. intros HL H Hroom Ht Hb.
  destruct (changeset_handle h) as [[s| |w]|]; [|done|by split|done].
  destruct HL as (m & past & Hm & [F1 F2 F3 F4 F5] & Hs). rewrite Hm in *. cbn in H. apply Nat.ltb_lt in Hroom.
  destruct (SessionMonitor.extract_and_send_changeset m (CallEnv.wall env) (CallEnv.n env)) as [m' r] eqn:E.
  injection H as <- ->. cbn.
  assert (is_u64 (sequence m + 2)) by (unfold is_u64; lia).
  destruct (push_captured past c0 m (CallEnv.wall env) (CallEnv.n env) m') as (C & Hc & Hbase); try done.
  destruct (push_grows m (CallEnv.wall env) (CallEnv.n env) m') as (G1 & G2 & G3 & G4); try done.
  destruct (push_adds m (CallEnv.wall env) (CallEnv.n env) m') as (added & Hq & HF); try done.
  split; [|intros ? _; exists m, m'; by split_and!].
  exists m', past. split; [done|]. split; [|lia]. split; [by rewrite G1|done| |done|lia].
  unfold sent_so_far in *. rewrite Hq, app_assoc. apply Forall_app. split; [done|].
  eapply Forall_impl; [exact HF|]. cbn. intros cs [? He]. split; [done|by rewrite He].
Qed.

Lemma live_snapshot_turn c0 s0 h env bound acked :
  live c0 s0 h bound acked -> live c0 s0 (snapshot_turn h env).1 bound acked.
Proof.
  unfold snapshot_turn. destruct (snapshot_handle h) as [[x| |w]|]; try done.
  destruct (SyndDB.monitor (ClientHandle.db h)) as [m|] eqn:Hm; [|done].
  destruct (snapshot_tx m) as [tx|] eqn:Htx; [|done]. destruct (Chan.queue tx) as [|sn rest]; [done|].
  destruct (snapshot_run h x _) as [h' a] eqn:E. apply snapshot_run_frame in E as (_ & Hc & Hr). cbn.
  unfold live. cbn. rewrite Hc. destruct (changeset_handle h) as [[s| |w]|]; try done.
  intros (m0 & past & Hm0 & F & Hb). simplify_eq. eexists _, past. split; [done|]. split; [|done].
  by apply (flowing_monitor _ _ _ _ _ _ _ _ _ F).
Qed.

Lemma live_changeset_turn c0 s0 h env bound acked h' acked' :
  live c0 s0 h bound acked -> disk_ok env -> changeset_turn h env = (h', acked') ->
  live c0 s0 h' bound (acked ++ acked').
Proof.
  unfold live at 1. intros HL Hd H. unfold changeset_turn in H.
  destruct (changeset_handle h) as [[s| |w]|] eqn:Hh; [|done| |done].
  2: { simplify_eq. unfold live. by rewrite Hh. }
  destruct HL as (m & past & Hm & F & Hb). rewrite Hm in H.
  destruct (Chan.queue (changeset_tx m)) as [|cs rest] eqn:Hq.
  { simplify_eq. unfold live. rewrite Hh, app_nil_r. eauto. }
  unfold changeset_run in H. set (s1 := ChangesetSender.with_stats _ _) in H.
  destruct (ChangesetSender.main_loop s1 [ChangesetSender.Received cs env]) as [[s' a] r] eqn:E.
  injection H as <- <-. unfold live. cbn [changeset_handle ClientHandle.with_session ClientHandle.with_db].
  destruct F as [F1 F2 F3 F4 F5].
  assert (Hr : (forall w, r <> Panic w) -> r = Ok true).
  { intros Hp. cbn [ChangesetSender.main_loop] in E.
    destruct (ChangesetSender.step s1 _) as [[s2 a2] r2] eqn:Es.
    assert (Hp2 : forall w, r2 <> Panic w) by (intros w ->; simplify_eq; by apply (Hp w)).
    destruct (step_conserves _ _ _ _ _ Es Hp2) as [_ Hev]. cbn in Hev. subst r2. by simplify_eq. }
  destruct r as [b|u|w]; [rewrite (Hr ltac:(done)) in *|by discriminate (Hr ltac:(done))|done].
  apply main_loop_conserves in E as [Hc _]; [|done]. cbn [after taken] in *.
  exists (with_changeset_tx m (left_over (changeset_tx m) rest true)), (past ++ [cs]).
  split; [reflexivity|]. split; [|exact Hb].
  assert (Hsent : sent_so_far (past ++ [cs])
            (with_changeset_tx m (left_over (changeset_tx m) rest true)) = sent_so_far past m).
  { unfold sent_so_far. cbn. by rewrite Hq, <-app_assoc. }
  split; [done| |by rewrite Hsent| |done].
  - destruct F2 as [C1 C2 C3 C4 C5]. by split; rewrite ?Hsent.
  - eapply (conserves_by_trans _ True _ True); [apply rows_grow_trans|apply rows_grow_some|done| |exact F4|].
    2: { apply rows_conserves in Hc. exact Hc. }
    intros _. by constructor.
Qed.

(** The database the application has, as long as the changeset sender runs. *)
Definition at_db (h : ClientHandle.t) (c : Db) : Prop :=
  forall s m, changeset_handle h = Some (Running s) -> SyndDB.monitor (ClientHandle.db h) = Some m -> conn m = c.

Lemma changeset_turn_at_db h env c : at_db h c -> at_db (changeset_turn h env).1 c.
Proof.
  unfold changeset_turn. destruct (changeset_handle h) as [[s| |w]|] eqn:Hh; try done.
  destruct (SyndDB.monitor (ClientHandle.db h)) as [m|] eqn:Hm; [|done].
  destruct (Chan.queue (changeset_tx m)) as [|cs rest]; [done|]. intros Ha.
  destruct (changeset_run h s _) as [h' a]. intros x y _ [= <-]. cbn. by eapply Ha.
Qed.
Lemma snapshot_turn_at_db h env c : at_db h c -> at_db (snapshot_turn h env).1 c.
Proof.
  unfold snapshot_turn. destruct (snapshot_handle h) as [[s| |w]|] eqn:Hh; try done.
  destruct (SyndDB.monitor (ClientHandle.db h)) as [m|] eqn:Hm; [|done].
  destruct (snapshot_tx m) as [tx|]; [|done]. destruct (Chan.queue tx) as [|sn rest]; [done|]. intros Ha.
  destruct (snapshot_run h s _) as [h' a] eqn:E. apply snapshot_run_frame in E as (_ & Hc & _).
  intros x y Hx [= <-]. cbn in Hx |- *. rewrite Hc in Hx. by eapply Ha.
Qed.
Lemma push_at_db h env d c bound acked c0 s0 :
  at_db h c -> live c0 s0 h bound acked -> SyndDB.push (ClientHandle.db h) env = (d, Ok tt) -> has_room h = true ->
  time_fits (CallEnv.wall env) -> bound + 2 < 2 ^ 63 -> at_db (ClientHandle.with_db h d) c.
Proof.
  intros Ha HL Hp Hr Ht Hb s m Hs Hm. cbn in Hs, Hm.
  destruct (live_push _ _ _ _ _ _ _ HL Hp Hr Ht Hb) as [_ Hx].
  destruct (Hx _ Hs) as (m0 & m1 & Hm0 & Hm1 & Hc & _). simplify_eq. rewrite Hc. by eapply Ha.
Qed.

Lemma client_run_live c0 s0 acts : forall h c bound acked h' acked',
  live c0 s0 h bound acked -> at_db h c -> writes_tracked c acts -> Forall act_ok acts ->
  never_full h acts = true -> bound + 2 * Z.of_nat (pushes_in acts) < 2 ^ 63 ->
  client_run h acts = Some (h', acked') ->
  live c0 s0 h' (bound + 2 * Z.of_nat (pushes_in acts)) (acked ++ acked').
Proof.
  induction acts as [|[db|env|env|env] acts IH]; intros h c bound acked h' acked' HL Hat Hw Hok Hf Hb H;
    cbn in Hw, Hf, H; (try (apply Forall_cons in Hok as [Ho Hok])).
  - simplify_eq. unfold pushes_in. cbn. by rewrite app_nil_r, Z.add_0_r.
  - destruct Hw as [Htr Hw]. eapply IH; [|..|exact H]; try done.
    + unfold live in HL |- *. destruct (changeset_handle h) as [[s| |w]|] eqn:Hh; try (by cbn; rewrite Hh).
      assert (HL' : live c0 s0 h bound acked) by (unfold live; by rewrite Hh).
      apply (live_write _ _ _ db) in HL'; [exact HL'|]. intros m Hm. by rewrite (Hat _ _ Hh Hm).
    + intros s m _. cbn. destruct (SyndDB.monitor (ClientHandle.db h)); intros [= <-]. done.
  - apply andb_prop in Hf as [Hroom Hf]. unfold pushes_in in *. cbn [List.filter is_push length] in *.
    destruct (SyndDB.push (ClientHandle.db h) env) as [d [[]| |]] eqn:Hp; [|done..].
    destruct (live_push _ _ _ _ _ _ _ HL Hp Hroom Ho) as [HL2 _]; [lia|].
    replace (bound + 2 * _) with (bound + 2 + 2 * Z.of_nat (length (List.filter is_push acts))) by lia.
    eapply IH; [exact HL2| |exact Hw|done|exact Hf|lia|exact H].
    eapply push_at_db; eauto. lia.
  - destruct (changeset_turn h env) as [h1 a1] eqn:E. destruct (client_run h1 acts) as [[h2 a2]|] eqn:E2; [|done].
    cbn in H. simplify_eq. rewrite app_assoc. eapply IH; [| |exact Hw|done| |exact Hb|exact E2].
    + by eapply live_changeset_turn.
    + pose proof (changeset_turn_at_db h env c Hat) as Hx. by rewrite E in Hx.
    + done.
  - eapply IH; [| |exact Hw|done|exact Hf|exact Hb|exact H]; [by apply live_snapshot_turn|by apply snapshot_turn_at_db].
Qed.

(** ** The end of the client *)
Lemma ending_taken e (q : list Changeset.t) : forall turns,
  taken (zip_with ChangesetSender.Received q turns ++ [ChangesetSender.Shutdown (drop (length turns) q) e]) = q /\
  stopped_by_shutdown (zip_with ChangesetSender.Received q turns ++ [ChangesetSender.Shutdown (drop (length turns) q) e]) = true.
Proof.
  induction q as [|cs q IH]; intros [|t turns]; cbn; [done..|]. destruct (IH turns) as [-> ->]. done.
Qed.

Definition ending_ok (e : Ending.t) : Prop := Forall disk_ok (Ending.turns e) /\ disk_ok (Ending.last e).
Lemma ending_events_ok q closed e : ending_ok e -> Forall event_ok (changeset_events q closed e).
Proof.
  intros [Ht Hl]. unfold changeset_events. apply Forall_app. split.
  - revert q. induction Ht as [|t turns Ho _ IH]; intros [|cs q]; cbn; constructor; done || apply IH.
  - constructor; [|done]. by case_match.
Qed.

(** Joining a running changeset sender that does not see a closed channel flushes all
    it holds and all that is queued. *)
Lemma join_flushes h s queue closed e h' acked :
  join_changesets h queue closed e = (h', acked, Ok tt) -> changeset_handle h = Some (Running s) ->
  closed && Ending.sees_closed e = false ->
  changeset_handle h' = None /\ snapshot_handle h' = snapshot_handle h /\ ClientHandle.db h' = ClientHandle.db h /\
  exists s', conserves (Forall event_ok (changeset_events queue closed e))
               (ChangesetSender.with_recovery s (ClientHandle.recovery h)) queue s' acked /\
    ChangesetSender.buffer s' = [] /\ ChangesetSender.recovery s' = ClientHandle.recovery h'.
Proof.
  unfold join_changesets, changeset_run. intros H Hh Hcl. rewrite Hh in H.
  destruct (ChangesetSender.main_loop _ _) as [[s' a] r] eqn:E. injection H as <- <- Hj. cbn. split_and!; [done..|].
  exists s'. destruct (main_loop_conserves _ _ _ _ _ E) as [Hc Hb].
  { intros w ->. done. }
  unfold changeset_events in Hc, Hb |- *. rewrite Hcl in *. cbn [andb] in *.
  destruct (ending_taken (Ending.last e) queue (Ending.turns e)) as [Ht Hs]. rewrite Ht in Hc.
  split; [exact Hc|]. split; [by apply Hb|done].
Qed.

Lemma join_snapshots_frame h queue closed e h' snaps r :
  join_snapshots h queue closed e = (h', snaps, r) ->
  snapshot_handle h' = None /\ changeset_handle h' = changeset_handle h /\ ClientHandle.db h' = ClientHandle.db h /\
  same_changesets (ClientHandle.recovery h) (ClientHandle.recovery h').
Proof.
  unfold join_snapshots. destruct (snapshot_handle h) as [[s| |w]|]; [|by intros [= <- <- <-]..].
  destruct (snapshot_run h s _) as [h1 a] eqn:E. apply snapshot_run_frame in E as (? & ? & ?). by intros [= <- <- <-].
Qed.

(** Once both threads are joined, dropping the handle sends nothing. *)
Lemma drop_joined h ec es now n h' acked snaps r :
  changeset_handle h = None -> snapshot_handle h = None -> drop_handle h ec es now n = (h', acked, snaps, r) ->
  acked = [] /\ snaps = [] /\ ClientHandle.recovery h' = ClientHandle.recovery h.
Proof.
  unfold drop_handle, join_changesets, join_snapshots. intros Hc Hs H.
  match type of H with (match ?x with _ => _ end) = _ => destruct x as [[q sq]| |] end; cbn in H; [|by simplify_eq..].
  rewrite Hc in H. cbn in H. rewrite Hs in H. by simplify_eq.
Qed.

Lemma joined_handle h queue closed e h' acked r :
  join_changesets h queue closed e = (h', acked, r) -> changeset_handle h' = None /\ (forall w, r <> Panic w).
Proof.
  unfold join_changesets. intros H. match type of H with (let '(_, _) := ?x in _) = _ => destruct x as [g a] end.
  injection H as <- <- <-.
  split; [done|]. intros w. by destruct (changeset_handle g) as [[]|].
Qed.

(** A shutdown that returns sends what its two joins send, and nothing after. *)
Lemma shutdown_sends h ec es now n h' acked snaps :
  shutdown h ec es now n = (h', acked, snaps, Ok tt) ->
  exists h1 h2 r, join_changesets h (changeset_queue h) false ec = (h1, acked, Ok tt) /\
    join_snapshots h1 (snapshot_queue h) false es = (h2, snaps, r) /\ ClientHandle.recovery h' = ClientHandle.recovery h2.
Proof.
  unfold shutdown. intros H. destruct (join_changesets h _ false ec) as [[h1 a1] r1] eqn:E1.
  destruct r1 as [[]| |]; cycle 1.
  1,2: destruct (drop_handle _ _ _ _ _) as [[[? ?] ?] ?]; by simplify_eq.
  destruct (joined_handle _ _ _ _ _ _ _ E1) as [Hn _].
  destruct (join_snapshots h1 _ false es) as [[h2 sn] r2] eqn:E2.
  destruct (join_snapshots_frame _ _ _ _ _ _ _ E2) as (J1 & J2 & _).
  destruct (drop_handle _ _ _ _ _) as [[[h3 a3] sn3] r3] eqn:E3. injection H as <- <- <- _.
  apply drop_joined in E3 as (-> & -> & Hrec); [|by cbn; rewrite J2|done].
  exists h1, h2, r2. by rewrite !app_nil_r.
Qed.

Lemma shutdown_flushes h s ec es now n h' acked snaps :
  shutdown h ec es now n = (h', acked, snaps, Ok tt) -> changeset_handle h = Some (Running s) ->
  exists s', conserves (Forall event_ok (changeset_events (changeset_queue h) false ec))
               (ChangesetSender.with_recovery s (ClientHandle.recovery h)) (changeset_queue h) s' acked /\
    ChangesetSender.buffer s' = [] /\ same_changesets (ChangesetSender.recovery s') (ClientHandle.recovery h').
Proof.
  intros (h1 & h2 & r & E1 & E2 & Hrec)%shutdown_sends Hh.
  apply (join_flushes h s) in E1 as (_ & _ & _ & s' & Hc & Hb & Hr); [|done..].
  apply join_snapshots_frame in E2 as (_ & _ & _ & J4).
  exists s'. split; [done|]. split; [done|]. by rewrite Hr, Hrec.
Qed.

Lemma shutdown_panicked h w ec es now n h' acked snaps :
  changeset_handle h = Some (Panicked w) -> shutdown h ec es now n <> (h', acked, snaps, Ok tt).
Proof.
  intros Hh (h1 & h2 & r & E1 & _)%shutdown_sends. unfold join_changesets in E1. rewrite Hh, Hh in E1. done.
Qed.

(** ** From attaching to the end *)
Lemma retry_rows_buffer failed : forall s i envs s' acked r,
  ChangesetSender.retry_rows s failed i envs = (s', acked, r) -> ChangesetSender.buffer s' = ChangesetSender.buffer s.
Proof.
  induction failed as [|[id cs] failed IH]; intros s i envs s' acked r H; cbn [ChangesetSender.retry_rows] in H; [by simplify_eq|].
  destruct (ChangesetSender.recovery s) as [rc|]; [|by simplify_eq].
  destruct (obtain_token _ _) as [a [tk|u|w]]; [|by simplify_eq..].
  destruct (ChangesetSender.send_with_retries _ _ _) as [[]| |]; [| |by simplify_eq].
  - match type of H with context [ChangesetSender.retry_rows ?x ?y ?z ?v] =>
      destruct (ChangesetSender.retry_rows x y z v) as [[s1 a1] r1] eqn:E end.
    simplify_eq. by apply IH in E.
  - by apply IH in H.
Qed.
Lemma run_start_buffer s env envs s' acked r :
  ChangesetSender.run s env envs [] = (s', acked, r) -> ChangesetSender.buffer s' = ChangesetSender.buffer s.
Proof.
  unfold ChangesetSender.run, ChangesetSender.retry_failed_changesets. intros H.
  destruct (ChangesetSender.recovery s) as [rc|]; [|by simplify_eq/=].
  destruct (FailedBatchRecovery.get_failed_changesets _ _) as [failed|e|w]; [|by simplify_eq/=..].
  destruct (ChangesetSender.retry_rows _ _ _ _) as [[s1 a1] r1] eqn:E. apply retry_rows_buffer in E.
  destruct r1; by simplify_eq/=.
Qed.

Lemma snapshot_monitor d env : SyndDB.monitor (SyndDB.snapshot d env).1 = SyndDB.monitor d.
Proof.
  unfold SyndDB.snapshot. destruct (SyndDB.create_snapshot d env); [|done..]. by destruct (SyndDB.db_path d).
Qed.

Lemma attach_live existing c0 path config e h0 acked snaps s0 :
  ClientHandle.attach_with_config existing c0 path config e = Ok (h0, acked, snaps) ->
  changeset_handle h0 = Some (Running s0) ->
  live c0 s0 h0 0 [] /\ at_db h0 c0 /\ ChangesetSender.buffer s0 = [] /\
  ChangesetSender.recovery s0 = ClientHandle.recovery h0.
Proof.
  unfold ClientHandle.attach_with_config, SyndDB.attach_with_config. intros H Hr.
  destruct (validate_config config); [|done..]. cbn [result_bind] in H.
  destruct (SessionMonitor.new c0 _ _ _ _) as [m0| |] eqn:Hm; [|done..]. cbn [result_bind] in H.
  match type of H with context [start_snapshots ?a ?b ?c ?d ?e] =>
    destruct (start_snapshots a b c d e) as [[sn rec] sns] end.
  destruct (start_changesets _ _ _ _ _) as [[[cs rec'] st] ack] eqn:Hst.
  injection H as <- <- <-. cbn in Hr. injection Hr as ->.
  apply new_captured in Hm as (C & Hc & Htx & Hs); [|done].
  assert (Hb : ChangesetSender.buffer s0 = [] /\ ChangesetSender.recovery s0 = rec').
  { unfold start_changesets in Hst. destruct (ChangesetSender.new _ _ _ _ _) as [x| |] eqn:Hn; [|done..].
    unfold ChangesetSender.new in Hn. destruct (map_err Http client_build); [|done..]. cbn in Hn. injection Hn as <-.
    destruct (ChangesetSender.run _ _ _ _) as [[s1 a1] r1] eqn:E. apply run_start_buffer in E.
    destruct r1 as [[]| |]; cbn in Hst; by simplify_eq. }
  destruct Hb as [Hb Hrec].
  match goal with |- live _ _ (ClientHandle.mk (SyndDB.with_monitor ?d _) _ _ _ _) _ _ /\ _ =>
    assert (Hd : SyndDB.monitor d = Some m0) by (repeat (case_match; rewrite ?snapshot_monitor); done) end.
  rewrite Hd. cbn [fmap option_fmap option_map alive]. split_and!; [|by intros s m _ [= <-]|done|done].
  eexists _, []. split; [reflexivity|]. split; [|cbn; lia]. split; [by rewrite Htx| |by cbn; rewrite Htx| |by cbn; lia].
  - eapply captured_frame; [exact C|..]; try done. by rewrite Htx.
  - apply rows_conserves, conserves_quiet; cbn; [done|by rewrite Hb|done].
Qed.

(** C14. The client delivers what the application commits to the rows of its keyed tables,
    whatever the order in which the application and the sender threads run.  From
    attaching with the recovery database enabled and the sender thread running, after any
    interleaving of tracked writes (rows of tables with a primary key; schema changes are
    not captured in changesets and are excluded), pushes that find room in the channel and
    turns of both senders, a last push outside a transaction that succeeds and finds room,
    and a shutdown that returns without error and with no new row in the recovery
    database, while the system clock is after 1970 and the recovery database can be
    written: the batches the sequencer acknowledged, applied one after the other by the
    validator to the database the client was attached to, give the application's
    database. *)
Theorem client_reaches_replica existing (c0 : Db) (path : option string) (config : Config.t) (e : AttachEnv)
    (h0 h1 h' : ClientHandle.t) acked0 snaps0 (s0 : ChangesetSender.t) (acts : list Act) acked1 (env : CallEnv.t)
    (d : SyndDB.t) (m : SessionState.t) (ec es : Ending.t) (now : Z) (n : nat) acked2 snaps2 (sequence : Z) :
  ClientHandle.attach_with_config existing c0 path config e = Ok (h0, acked0, snaps0) ->
  changeset_handle h0 = Some (Running s0) -> ClientHandle.recovery h0 <> None ->
  writes_tracked c0 acts -> Forall act_ok acts -> never_full h0 acts = true ->
  2 * Z.of_nat (S (pushes_in acts)) < 2 ^ 63 -> client_run h0 acts = Some (h1, acked1) ->
  SyndDB.push (ClientHandle.db h1) env = (d, Ok tt) -> has_room h1 = true -> time_fits (CallEnv.wall env) ->
  SyndDB.monitor d = Some m -> is_autocommit (conn m) = true ->
  shutdown (ClientHandle.with_db h1 d) ec es now n = (h', acked2, snaps2, Ok tt) -> ending_ok ec ->
  same_changesets (ClientHandle.recovery h0) (ClientHandle.recovery h') ->
  apply_batches sequence c0 (acked1 ++ acked2) = Ok (conn m).
Proof.
  intros Hat Hr0 Hrec Hw Hok Hf Hn Hrun Hp Hroom Ht Hm Hau Hs He Hsame.
  destruct (attach_live _ _ _ _ _ _ _ _ _ Hat Hr0) as (L0 & A0 & B0 & R0).
  eapply client_run_live in Hrun as L1; [|exact L0|exact A0|exact Hw|done|done|lia].
  destruct (live_push _ _ _ _ _ _ _ L1 Hp Hroom Ht) as [L2 Hx]; [lia|].
  unfold live in L2. cbn in L2, Hx. destruct (changeset_handle h1) as [[s| |w]|] eqn:Hh; [|done| |done].
  2: { by eapply shutdown_panicked in Hs. }
  destruct L2 as (m2 & past & Hm2 & F & Hb). rewrite Hm in Hm2. injection Hm2 as <-.
  destruct (Hx s eq_refl) as (m1 & m2 & Hm1 & Hm2 & Hcn & Hbase). rewrite Hm in Hm2. injection Hm2 as <-.
  destruct (shutdown_flushes _ s _ _ _ _ _ _ _ Hs) as (s' & Hc & Hb' & Hr'); [by cbn|].
  cbn in Hc. unfold changeset_queue in Hc. cbn in Hc. rewrite Hm in Hc.
  destruct F as [F1 F2 F3 F4 F5]. cbn in F4.
  assert (Hall : conserves_by rows_grow True s0 (sent_so_far past m) s' (acked1 ++ acked2)).
  { eapply (conserves_by_trans _ True _ True); [apply rows_grow_trans|apply rows_grow_some|done| |exact F4|].
    2: { apply rows_conserves in Hc. exact Hc. }
    intros _. by apply ending_events_ok. }
  destruct (ClientHandle.recovery h0) as [rc|] eqn:Hrc; [|done].
  unfold same_changesets in Hsame, Hr'. rewrite Hsame in Hr'.
  destruct (ChangesetSender.recovery s') as [rc'|] eqn:Hrc'; [|done]. injection Hr' as Hr'.
  edestruct (all_flushed_acked rows_grow True s0 s') as (batches & Hcat & Hmap); [exact Hall|done|done|done|done| |done|done|done|].
  { pose proof (cap_below _ _ _ F2) as Hbl. rewrite Forall_forall in F3, Hbl |- *. intros cs Hin.
    destruct (F3 _ Hin) as [? ?]. specialize (Hbl _ Hin). cbn in Hbl. split; [lia|done]. }
  eapply replays_batches; [|exact Hmap]. rewrite <-Hcat, Hcn. rewrite <-Hbase by (by rewrite <-Hcn). apply F2.
Qed.

(** ** What has not been pushed *)
Lemma join_changesets_db h d queue closed e :
  join_changesets (ClientHandle.with_db h d) queue closed e =
  let '(h', acked, r) := join_changesets h queue closed e in (ClientHandle.with_db h' d, acked, r).
Proof.
  unfold join_changesets, changeset_run. cbn. destruct (changeset_handle h) as [[s| |w]|]; [|done..].
  by destruct (ChangesetSender.main_loop _ _) as [[s' a] r].
Qed.
Lemma join_snapshots_db h d queue closed e :
  join_snapshots (ClientHandle.with_db h d) queue closed e =
  let '(h', acked, r) := join_snapshots h queue closed e in (ClientHandle.with_db h' d, acked, r).
Proof.
  unfold join_snapshots, snapshot_run. cbn. destruct (snapshot_handle h) as [[s| |w]|]; [|done..].
  by destruct (SnapshotSender.main_loop _ _) as [[s' a] r].
Qed.

(** [shutdown] sends what was pushed and forgets what was not: a write after the last
    push changes nothing of what a shutdown sends to the sequencer or keeps for
    recovery, because the senders have ended when the monitor makes its last
    extraction. *)
Theorem shutdown_forgets_unpushed (h h1 h2 : ClientHandle.t) (db : Db) (hooked : bool) (ec es : Ending.t)
    (now : Z) (n : nat) acked1 snaps1 acked2 snaps2 :
  shutdown h ec es now n = (h1, acked1, snaps1, Ok tt) ->
  shutdown (app_write h db hooked) ec es now n = (h2, acked2, snaps2, Ok tt) ->
  acked2 = acked1 /\ snaps2 = snaps1 /\ ClientHandle.recovery h2 = ClientHandle.recovery h1.
Proof.
  intros (g1 & g2 & r & E1 & E2 & R1)%shutdown_sends (k1 & k2 & r' & D1 & D2 & R2)%shutdown_sends.
  assert (changeset_queue (app_write h db hooked) = changeset_queue h /\
          snapshot_queue (app_write h db hooked) = snapshot_queue h) as [Hq1 Hq2].
  { unfold changeset_queue, snapshot_queue, app_write. cbn.
    destruct (SyndDB.monitor (ClientHandle.db h)); [|done]. by destruct hooked. }
  rewrite Hq1 in D1. rewrite Hq2 in D2. unfold app_write, ClientHandle.with_session in D1.
  rewrite join_changesets_db, E1 in D1. injection D1 as <- <-. rewrite join_snapshots_db, E2 in D2.
  injection D2 as <- <- <-. rewrite R1, R2. done.
Qed.

(** Dropping the handle without [shutdown] makes the extraction first: a changeset
    sender that sees the signal before the closed channel, and does not panic, flushes
    what the extraction queued as well. *)
Theorem drop_delivers_unpushed (h h' : ClientHandle.t) (s : ChangesetSender.t) (m : SessionState.t) (ec es : Ending.t)
    (now : Z) (n : nat) acked snaps :
  changeset_handle h = Some (Running s) -> SyndDB.monitor (ClientHandle.db h) = Some m ->
  Ending.sees_closed ec = false -> drop_handle h ec es now n = (h', acked, snaps, Ok tt) ->
  let queue := Chan.queue (changeset_tx (SessionMonitor.extract_and_send_changeset m now n).1) in
  (exists w, (join_changesets (ClientHandle.with_session h None) queue true ec).2 = Err w) \/
  exists s', conserves (Forall event_ok (changeset_events queue true ec))
               (ChangesetSender.with_recovery s (ClientHandle.recovery h)) queue s' acked /\
    ChangesetSender.buffer s' = [].
Proof.
  intros Hh Hm Hsc H. cbv zeta. unfold drop_handle, SessionMonitor.drop_monitor in H. rewrite Hm in H.
  destruct (SessionMonitor.extract_and_send_changeset m now n) as [m' r]. cbn [fst].
  assert (exists g1 r1, join_changesets (ClientHandle.with_session h None) (Chan.queue (changeset_tx m')) true ec
            = (g1, acked, r1)) as (g1 & r1 & E1).
  { destruct r as [u|e|w]; [| |done]; cbn [result_bind] in H;
      destruct (join_changesets _ (Chan.queue (changeset_tx m')) true ec) as [[g1 b1] r1];
      destruct (join_snapshots g1 _ true es) as [[g2 c2] r2]; injection H as <- <- <-; eauto. }
  rewrite E1. destruct r1 as [[]|w|w]; [right|by left; exists w|].
  - apply (join_flushes _ s) in E1 as (_ & _ & _ & s' & Hc & Hb & _); [by exists s'|done|done].
  - apply joined_handle in E1 as [_ Hp]. by destruct (Hp w).
Qed.
End lifecycle.


(** ** What is lost or repeated *)
Section losses.
Context `{SE : Session} `{HA : Hasher} `{CP : !Capture} `{CL : !CaptureLaws}.
Import SessionState.

(** A push that finds the channel full, or its receiver gone (as after
    [shutdown]), loses its changes for good: it reports success, the number is used
    up, the channel is as before, and the session starts afresh at the current
    database, so that no later push carries the changes. *)
Theorem full_channel_loses_changeset (s s' : SessionState.t) (now : Z) (n : nat) (d : bytes) :
  has_changes s = true -> is_autocommit (conn s) = true ->
  (Chan.capacity (changeset_tx s) <= length (Chan.queue (changeset_tx s)))%nat ->
  compute_schema_hash (conn s) n = last_schema_hash s ->
  changeset_strm (session s) (conn s) n = Ok d -> d <> [] ->
  SessionMonitor.extract_and_send_changeset s now n = (s', Ok tt) ->
  Chan.queue (changeset_tx s') = Chan.queue (changeset_tx s) /\ has_changes s' = false /\
  sequence s' = u64_add (sequence s) 1 /\ base (session s') = conn s /\ conn s' = conn s.
Proof.
  intros Hh Ha Hf Hsc Hd Hne H. unfold SessionMonitor.extract_and_send_changeset in H. rewrite Hh, Ha in H. cbn [negb] in H.
  unfold SessionMonitor.schema_check in H. rewrite Hsc, bool_decide_true in H by done.
  unfold SessionMonitor.extract in H. rewrite Hd in H. cbn [map_err] in H. destruct d as [|x d]; [done|].
  match type of H with context [SessionMonitor.send_changeset ?a ?b ?c] =>
    set (s1 := SessionMonitor.send_changeset a b c) in H end.
  assert (Hq : Chan.queue (changeset_tx s1) = Chan.queue (changeset_tx s)).
  { unfold s1, SessionMonitor.send_changeset, Chan.try_send. cbn. apply Nat.leb_le in Hf. rewrite Hf.
    by destruct (negb _). }
  destruct (SessionMonitor.interval_snapshot s1 now n) as [s2 r] eqn:Hi.
  destruct (interval_snapshot_frame _ _ _ _ _ Hi) as (I1 & I2 & I3 & I4 & I5).
  destruct r as [[]| |]; [|done..]. apply recreate_base in H as (B1 & B2 & B3 & B4 & B5).
  rewrite B3, I1, B4, I4, B5, I5, B1, B2, I3. split_and!; [exact Hq|done..].
Qed.

(** A snapshot repeats what is pending: after a schema change the client sends a
    snapshot of the current database and then, under a later number, the changeset of
    all changes since the session's base, which the snapshot already contains.  A
    replica that restores the snapshot applies it to the database it leads to, not to
    the one it was taken from. *)
Theorem schema_snapshot_overlaps (s s' : SessionState.t) (stx : Chan.t Snapshot.t) (now : Z) (n : nat)
    (d backup : bytes) :
  has_changes s = true -> is_autocommit (conn s) = true -> room s -> is_u64 (sequence s) -> is_u64 (sequence s + 2) ->
  compute_schema_hash (conn s) n <> last_schema_hash s -> 1 < snapshot_interval s ->
  snapshot_tx s = Some stx -> Chan.queue stx = [] -> (0 < Chan.capacity stx)%nat -> Chan.receiver_alive stx = true ->
  backup_bytes (conn s) n = Ok backup -> changeset_strm (session s) (conn s) n = Ok d -> d <> [] ->
  SessionMonitor.extract_and_send_changeset s now n = (s', Ok tt) ->
  (exists stx', snapshot_tx s' = Some stx' /\ Chan.queue stx' = [Snapshot.mk backup now (sequence s)]) /\
  Chan.queue (changeset_tx s') = Chan.queue (changeset_tx s) ++ [Changeset.mk d (sequence s + 1) now] /\
  (tracked (base (session s)) (conn s) ->
   ChangesetApplier.apply_single_changeset (base (session s)) d = Ok (conn s)).
Proof.
  intros Hh Ha Hroom Hu0 Hu2 Hsc Hiv Hst Hsq Hcap Hal Hbk Hd Hne H.
  assert (Hadd : u64_add (sequence s) 1 = sequence s + 1) by (apply u64_add_small; unfold is_u64 in *; lia).
  unfold SessionMonitor.extract_and_send_changeset in H. rewrite Hh, Ha in H. cbn [negb] in H.
  unfold SessionMonitor.schema_check in H. rewrite bool_decide_false in H by done.
  unfold SessionMonitor.create_snapshot_internal in H. rewrite Ha, Hbk in H. cbn [negb result_bind] in H.
  unfold SessionMonitor.send_snapshot, Chan.try_send in H. rewrite Hst, Hal, Hsq in H. cbn [negb length app] in H.
  assert (Nat.leb (Chan.capacity stx) 0 = false) as Hl by (apply Nat.leb_gt; lia). rewrite Hl in H. cbn in H.
  unfold SessionMonitor.extract in H. cbn [session conn with_flags with_counters with_snapshot_tx] in H.
  rewrite Hd in H. cbn [map_err] in H. destruct d as [|x d]; [done|].
  match type of H with context [SessionMonitor.send_changeset ?a ?b ?c] =>
    destruct (send_changeset_spec a b c) as (Q & Sq & Se & Co & _);
    [exact Hroom|cbn; rewrite Hadd; unfold is_u64 in *; lia|];
    set (s1 := SessionMonitor.send_changeset a b c) in * end.
  assert (Hi : SessionMonitor.interval_snapshot s1 now n = (s1, Ok tt)).
  { unfold SessionMonitor.interval_snapshot.
    assert ((snapshot_interval s1 <=? changesets_since_snapshot s1) = false) as ->; [|done].
    unfold s1. cbn. unfold u64_add, as_u64. apply Z.leb_gt. rewrite Z.mod_small; lia. }
  rewrite Hi in H. pose proof H as H'. apply recreate_base in H as (_ & _ & B3 & _ & _).
  split_and!.
  - rewrite (recreate_snapshot_tx _ _ _ _ H'). eexists. split; reflexivity.
  - rewrite B3, Q. cbn. by rewrite Hadd.
  - intros Ht. by eapply apply_captured.
Qed.
End losses.
