(* ===== verification/ClientFfi.v ===== *)
(** * The client's C interface (crates/synddb-client/src/ffi.rs)

    The calls of one thread.  Handles and connections are addresses; what belongs to the
    thread is shared by all its handles: the last error and [SESSION_STATE], the session
    of the handle that was attached last.  A pointer argument is an option ([None] is the
    null pointer), a C string its bytes. *)
From Stdlib Require Import Ascii Strings.Byte.
From S2P Require Import Prelude RustStd Extern Net Outbound StateStore Applier BootClients Bootstrap.
From S2P Require Import ClientSender ClientSession.

Inductive SyndDBError :=
| Success
| InvalidPointer
| InvalidUtf8
| DatabaseError
| AttachError
| PublishError
| SnapshotError
| InvalidUrl.
#[export] Instance SyndDBError_eq_dec : EqDecision SyndDBError.
Proof. solve_decision. Defined.

(** The value on the C side. *)
Definition error_code (e : SyndDBError) : Z :=
  match e with
  | Success => 0 | InvalidPointer => 1 | InvalidUtf8 => 2 | DatabaseError => 3
  | AttachError => 4 | PublishError => 5 | SnapshotError => 6 | InvalidUrl => 7
  end.

(** How a call ends: it returns, a panic aborts the process at the [extern] boundary,
    or it was given a pointer that is no handle. *)
Inductive Outcome (A : Type) := Returns (a : A) | Aborts (w : string) | Undefined.
Arguments Returns {A}. Arguments Aborts {A}. Arguments Undefined {A}.

(** SQLite and url behind the calls: [Connection::open] and [path], [execute] and
    [execute_batch] (the database after it and whether the update hook is called),
    [sqlite_master], and [Url::parse]. *)
Class FfiLibs `{Session} := {
  db_open : string -> nat -> result string Db;
  db_path_of : string -> option string;
  sql_execute : Db -> string -> nat -> Db * bool * result string Z;
  sql_execute_batch : Db -> string -> nat -> Db * bool * result string unit;
  has_tables : Db -> nat -> result string bool;
  url_parse : string -> result string string;
}.

Module Ffi.
Section ops.
Context `{SE : Session} `{HA : Hasher} `{CP : !Capture} `{FL : !FfiLibs}.
Context `{HN : HttpNet} `{UR : ReqwestUrl} `{SS : Serde SnapshotRequest.t} `{TS : TeeSocket}.

(** A boxed [SyndDB]: the address of its connection and what its calls read. *)
Record Handle := mk_handle { conn : Z; sequencer_url : string; db_path : option string }.

(** [slot] is [SESSION_STATE] with the address of its connection; [hooks] are the
    connections with an update hook.  Connections are leaked: none is ever removed. *)
Record t := mk {
  last_error : option string;
  slot : option (Z * SessionState.t);
  hooks : gset Z;
  conns : gmap Z Db;
  handles : gmap Z Handle;
  markers : DdlRecovery.t;
  next_address : Z;
}.
Definition init : t := mk None None ∅ ∅ ∅ ∅ 1.

Definition with_error (st : t) (e : option string) : t :=
  mk e (slot st) (hooks st) (conns st) (handles st) (markers st) (next_address st).
Definition with_slot (st : t) (s : option (Z * SessionState.t)) : t :=
  mk (last_error st) s (hooks st) (conns st) (handles st) (markers st) (next_address st).
Definition with_markers (st : t) (m : DdlRecovery.t) : t :=
  mk (last_error st) (slot st) (hooks st) (conns st) (handles st) m (next_address st).

Definition clear_last_error (st : t) : t := with_error st None.
(** [CString::new] refuses a text with a NUL in it. *)
Definition set_last_error (st : t) (err : string) : t :=
  with_error st (Some (if contains (String "000" EmptyString) err then "Failed to format error message"%string else err)).

(** An error to report: the message is kept, the code returned. *)
Definition fail {A} (st : t) (msg : string) (a : A) : t * Outcome A := (set_last_error st msg, Returns a).

(** [Box::leak] *)
Definition leak_conn (st : t) (db : Db) : t * Z :=
  (mk (last_error st) (slot st) (hooks st) (<[next_address st := db]> (conns st)) (handles st) (markers st)
      (next_address st + 1), next_address st).

(** [SyndDB::attach_with_config] on the leaked connection and [Box::into_raw].  The new
    session takes the place of whatever [SESSION_STATE] held. *)
Definition attach_on (st : t) (c : Z) (db : Db) (path : option string) (config : Config.t)
    (opened : result string (option FailedBatchRecovery.t)) (env env' : CallEnv.t) : t * result string Z :=
  match SyndDB.attach_with_config has_tables db path (markers st) config opened env env' with
  | Ok (d, _, _) =>
      let h := next_address st in
      (mk (last_error st) (pair c <$> SyndDB.monitor d) ({[c]} ∪ hooks st) (conns st)
          (<[h := mk_handle c (SyndDB.sequencer_url d) (SyndDB.db_path d)]> (handles st)) (SyndDB.markers d) (h + 1),
       Ok h)
  | Err e => (st, Err e)
  | Panic w => (st, Panic w)
  end.

Definition config_with (url : string) (push_interval_ms snapshot_interval : Z) : Config.t :=
  let d := Config.default in
  Config.mk url (Config.buffer_size d) push_interval_ms (Config.max_batch_size d) (Config.max_retries d)
    (Config.snapshot_request_timeout d) snapshot_interval (Config.enable_recovery d)
    (Config.disable_attestation d) (Config.attestation_token_type d).

(** The end of both attach calls: the handle written to [out_handle]. *)
Definition attached (r : t * result string Z) : t * Outcome (SyndDBError * option Z) :=
  match r with
  | (st, Ok h) => (st, Returns (Success, Some h))
  | (st, Err e) => fail st ("Failed to attach SyndDB: " +:+ e) (AttachError, None)
  | (st, Panic w) => (st, Aborts w)
  end.

(** The checks of the arguments and [Connection::open], common to both. *)
Definition open_args (st : t) (db_path sequencer_url : option bytes) (out_handle : bool) (env : CallEnv.t)
    (k : t -> Z -> Db -> option string -> string -> t * Outcome (SyndDBError * option Z))
  : t * Outcome (SyndDBError * option Z) :=
  let st := clear_last_error st in
  match db_path, sequencer_url, out_handle with
  | Some db_path, Some sequencer_url, true =>
      match from_utf8 db_path with
      | Ok db_path_str =>
          match from_utf8 sequencer_url with
          | Ok url_str =>
              match db_open db_path_str (CallEnv.n env) with
              | Ok db => let '(st, c) := leak_conn st db in k st c db (db_path_of db_path_str) url_str
              | Err e => fail st ("Failed to open database: " +:+ e) (DatabaseError, None)
              | Panic w => (st, Aborts w)
              end
          | Err e => fail st ("Invalid UTF-8 in sequencer_url: " +:+ e) (InvalidUtf8, None)
          | Panic w => (st, Aborts w)
          end
      | Err e => fail st ("Invalid UTF-8 in db_path: " +:+ e) (InvalidUtf8, None)
      | Panic w => (st, Aborts w)
      end
  | _, _, _ => fail st "Null pointer provided" (InvalidPointer, None)
  end.

Definition synddb_attach (st : t) (db_path sequencer_url : option bytes) (out_handle : bool)
    (opened : result string (option FailedBatchRecovery.t)) (env env' : CallEnv.t)
  : t * Outcome (SyndDBError * option Z) :=
  open_args st db_path sequencer_url out_handle env (fun st c db path url_str =>
    attached (match map_err (fun e => "Invalid URL: " +:+ e) (url_parse url_str) with
              | Ok url => attach_on st c db path (ClientHandle.config_for url) opened env env'
              | Err e => (st, Err e)
              | Panic w => (st, Panic w)
              end)).

Definition synddb_attach_with_config (st : t) (db_path sequencer_url : option bytes)
    (push_interval_ms snapshot_interval : Z) (out_handle : bool)
    (opened : result string (option FailedBatchRecovery.t)) (env env' : CallEnv.t)
  : t * Outcome (SyndDBError * option Z) :=
  open_args st db_path sequencer_url out_handle env (fun st c db path url_str =>
    match url_parse url_str with
    | Ok url => attached (attach_on st c db path (config_with url push_interval_ms snapshot_interval) opened env env')
    | Err e => fail st ("Invalid sequencer URL: " +:+ e) (InvalidUrl, None)
    | Panic w => (st, Aborts w)
    end).

(** The null check; the pointer itself is not checked. *)
Definition with_handle {A} (st : t) (handle : option Z) (null : A) (k : t -> Z -> t * Outcome A) : t * Outcome A :=
  let st := clear_last_error st in
  match handle with None => fail st "Null handle provided" null | Some h => k st h end.
(** [&*(handle as *const SyndDB)] *)
Definition deref {A} (st : t) (h : Z) (k : Handle -> t * Outcome A) : t * Outcome A :=
  match handles st !! h with Some hd => k hd | None => (st, Undefined) end.

(** [SessionMonitor::push]: the handle is not looked at, only the thread's session. *)
Definition push_slot (st : t) (env : CallEnv.t) : t * result string unit :=
  let '(s, r) := SessionMonitor.push (snd <$> slot st) (CallEnv.wall env) (CallEnv.n env) in
  (with_slot st (match slot st, s with Some (c, _), Some s => Some (c, s) | _, _ => None end), r).

Definition synddb_push (st : t) (handle : option Z) (env : CallEnv.t) : t * Outcome SyndDBError :=
  with_handle st handle InvalidPointer (fun st h => deref st h (fun _ =>
    match push_slot st env with
    | (st, Ok _) => (st, Returns Success)
    | (st, Err e) => fail st ("Failed to push changeset: " +:+ e) PublishError
    | (st, Panic w) => (st, Aborts w)
    end)).

(** [SyndDB::snapshot]: the thread's session is backed up, the handle's sequencer gets it. *)
Definition snapshot_slot (st : t) (hd : Handle) (env : CallEnv.t) : t * result string Snapshot.t :=
  match slot st with
  | None => (st, Err SessionMonitor.NOT_INITIALIZED)
  | Some (_, s) =>
      let '(d, r) := SyndDB.snapshot (SyndDB.mk (sequencer_url hd) (db_path hd) (Some s) (markers st)) env in
      (with_markers st (SyndDB.markers d), r)
  end.

(** The size is written to [out_size] if it is not null. *)
Definition synddb_snapshot (st : t) (handle : option Z) (out_size : bool) (env : CallEnv.t)
  : t * Outcome (SyndDBError * option Z) :=
  with_handle st handle (InvalidPointer, None) (fun st h => deref st h (fun hd =>
    match snapshot_slot st hd env with
    | (st, Ok snapshot) =>
        (st, Returns (Success, if out_size then Some (Z.of_nat (length (Snapshot.data snapshot))) else None))
    | (st, Err e) => fail st ("Failed to create snapshot: " +:+ e) (SnapshotError, None)
    | (st, Panic w) => (st, Aborts w)
    end)).

(** [Box::from_raw] and [drop]: the hook of the handle's connection goes, what is
    pending in the thread's session is extracted, and the session is gone.  The result
    is what is left in the channels of that session for the senders. *)
Definition synddb_detach (st : t) (handle : option Z) (env : CallEnv.t)
  : t * Outcome (option (Chan.t Changeset.t * option (Chan.t Snapshot.t))) :=
  match handle with
  | None => (st, Returns None)
  | Some h =>
      match handles st !! h with
      | None => (st, Undefined)
      | Some hd =>
          let st := mk (last_error st) (slot st) (hooks st ∖ {[conn hd]}) (conns st) (delete h (handles st))
                      (markers st) (next_address st) in
          match slot st with
          | None => (st, Returns None)
          | Some (_, s) =>
              match SessionMonitor.drop_monitor s (CallEnv.wall env) (CallEnv.n env) with
              | Ok chans => (with_slot st None, Returns (Some chans))
              | Err _ => (with_slot st None, Returns None)
              | Panic w => (st, Aborts w)
              end
          end
      end
  end.

Definition synddb_last_error (st : t) : option string := last_error st.
Definition synddb_version : string := "0.1.0".

(** A write through connection [c]: its update hook, if SQLite calls it, marks the
    thread's session, whichever connection that watches. *)
Definition write_conn (st : t) (c : Z) (db : Db) (hooked : bool) : t :=
  let hooked := hooked && bool_decide (c ∈ hooks st) in
  mk (last_error st)
     (match slot st with
      | Some (c', s) =>
          Some (c', if decide (c' = c) then SessionMonitor.app_write s db hooked
                    else if hooked then SessionMonitor.update_hook s else s)
      | None => None
      end)
     (hooks st) (<[c := db]> (conns st)) (handles st) (markers st) (next_address st).

(** [conn.execute(sql, [])] on the connection of a handle. *)
Definition execute_on (st : t) (hd : Handle) (sql : string) (env : CallEnv.t) : option (t * result string Z) :=
  db ← conns st !! conn hd;
  let '(db', hooked, r) := sql_execute db sql (CallEnv.n env) in
  Some (write_conn st (conn hd) db' hooked, r).

(** The null check and the conversion of an SQL argument. *)
Definition with_sql {A} (st : t) (sql : option bytes) (null invalid : A) (k : string -> t * Outcome A) : t * Outcome A :=
  match sql with
  | None => fail st "Null SQL string provided" null
  | Some sql =>
      match from_utf8 sql with
      | Ok sql_str => k sql_str
      | Err e => fail st ("Invalid UTF-8 in SQL: " +:+ e) invalid
      | Panic w => (st, Aborts w)
      end
  end.

(** The pointers are checked and the string converted before the handle is read. *)
Definition synddb_execute (st : t) (handle : option Z) (sql : option bytes) (env : CallEnv.t) : t * Outcome Z :=
  with_handle st handle (-1) (fun st h =>
    with_sql st sql (-1) (-1) (fun sql_str => deref st h (fun hd =>
      match execute_on st hd sql_str env with
      | Some (st, Ok rows) => (st, Returns (as_i64 rows))
      | Some (st, Err e) => fail st ("SQL execution failed: " +:+ e) (-1)
      | Some (st, Panic w) => (st, Aborts w)
      | None => (st, Undefined)
      end))).

(** A failed snapshot after DDL is only logged. *)
Definition synddb_execute_batch (st : t) (handle : option Z) (sql : option bytes) (env : CallEnv.t)
  : t * Outcome SyndDBError :=
  with_handle st handle InvalidPointer (fun st h =>
    with_sql st sql InvalidPointer InvalidUtf8 (fun sql_str => deref st h (fun hd =>
      match conns st !! conn hd with
      | None => (st, Undefined)
      | Some db =>
          let '(db', hooked, r) := sql_execute_batch db sql_str (CallEnv.n env) in
          let st := write_conn st (conn hd) db' hooked in
          match r with
          | Err e => fail st ("SQL batch execution failed: " +:+ e) DatabaseError
          | Panic w => (st, Aborts w)
          | Ok _ =>
              if is_ddl sql_str then
                match snapshot_slot st hd env with
                | (st, Panic w) => (st, Aborts w)
                | (st, _) => (st, Returns Success)
                end
              else (st, Returns Success)
          end
      end))).

(** [synddb_begin], [synddb_commit] and [synddb_rollback] differ in two strings. *)
Definition transaction_call (sql what : string) (st : t) (handle : option Z) (env : CallEnv.t) : t * Outcome SyndDBError :=
  with_handle st handle InvalidPointer (fun st h => deref st h (fun hd =>
    match execute_on st hd sql env with
    | Some (st, Ok _) => (st, Returns Success)
    | Some (st, Err e) => fail st ("Failed to " +:+ what +:+ " transaction: " +:+ e) DatabaseError
    | Some (st, Panic w) => (st, Aborts w)
    | None => (st, Undefined)
    end)).
Definition synddb_begin := transaction_call "BEGIN" "begin".
Definition synddb_commit := transaction_call "COMMIT" "commit".
Definition synddb_rollback := transaction_call "ROLLBACK" "rollback".
End ops.
End Ffi.
