(* ===== verification/ClientFfiProps.v ===== *)
(** * Properties of the C interface (crates/synddb-client/src/ffi.rs) *)
From Stdlib Require Import Ascii Strings.Byte.
From S2P Require Import Prelude RustStd Extern Net Outbound StateStore Applier BootClients Bootstrap.
From S2P Require Import ClientSender ClientSession ClientFfi.
Import Ffi.

(** ** Every call that reports an error code *)
Inductive FfiCall :=
| CAttach (db_path sequencer_url : option bytes) (out_handle : bool)
| CAttachWithConfig (db_path sequencer_url : option bytes) (push_interval_ms snapshot_interval : Z) (out_handle : bool)
| CPush (handle : option Z)
| CSnapshot (handle : option Z) (out_size : bool)
| CExecute (handle : option Z) (sql : option bytes)
| CExecuteBatch (handle : option Z) (sql : option bytes)
| CBegin (handle : option Z)
| CCommit (handle : option Z)
| CRollback (handle : option Z).

Definition outcome_map {A B} (f : A -> B) (o : Outcome A) : Outcome B :=
  match o with Returns a => Returns (f a) | Aborts w => Aborts w | Undefined => Undefined end.
Definition fst_code (r : SyndDBError * option Z) : Z := error_code (fst r).

Section calls.
Context `{SE : Session} `{HA : Hasher} `{CP : !Capture} `{FL : !FfiLibs}.
Context `{HN : HttpNet} `{UR : ReqwestUrl} `{SS : Serde SnapshotRequest.t} `{TS : TeeSocket}.
Implicit Types (st : Ffi.t).

Definition coded {A} (f : A -> Z) (r : Ffi.t * Outcome A) : Ffi.t * Outcome Z := (fst r, outcome_map f (snd r)).

(** What the caller gets back as a number. *)
Definition ffi_call st (c : FfiCall) (opened : result string (option FailedBatchRecovery.t)) (env env' : CallEnv.t)
  : Ffi.t * Outcome Z :=
  match c with
  | CAttach p u o => coded fst_code (synddb_attach st p u o opened env env')
  | CAttachWithConfig p u i k o => coded fst_code (synddb_attach_with_config st p u i k o opened env env')
  | CPush h => coded error_code (synddb_push st h env)
  | CSnapshot h o => coded fst_code (synddb_snapshot st h o env)
  | CExecute h sql => synddb_execute st h sql env
  | CExecuteBatch h sql => coded error_code (synddb_execute_batch st h sql env)
  | CBegin h => coded error_code (synddb_begin st h env)
  | CCommit h => coded error_code (synddb_commit st h env)
  | CRollback h => coded error_code (synddb_rollback st h env)
  end.

(** How a caller tells a failure: -1 rows, or a code that is not zero. *)
Definition failed (c : FfiCall) (code : Z) : bool :=
  match c with CExecute _ _ => code <? 0 | _ => negb (code =? 0) end.

(** [st] has a message exactly when the outcome is a failure. *)
Definition tells {A} (bad : A -> bool) (r : Ffi.t * Outcome A) : Prop :=
  forall a, snd r = Returns a -> (is_Some (last_error (fst r)) <-> bad a = true).

Lemma tells_fail {A} (bad : A -> bool) st msg a : bad a = true -> tells bad (fail st msg a).
Proof. intros H b [= <-]. by split; [|intros _; eexists]. Qed.
Lemma tells_ok {A} (bad : A -> bool) st a : last_error st = None -> bad a = false -> tells bad (st, Returns a).
Proof. intros H Hb b [= <-]. cbn. rewrite H, Hb. split; [by intros []|done]. Qed.
Lemma tells_aborts {A} (bad : A -> bool) st w : tells bad (st, Aborts w).
Proof. by intros a. Qed.
Lemma tells_undefined {A} (bad : A -> bool) st : tells bad (st, Undefined).
Proof. by intros a. Qed.
Lemma tells_coded {A} (f : A -> Z) (bad : Z -> bool) r : tells (fun a => bad (f a)) r -> tells bad (coded f r).
Proof. intros H a Ha. destruct r as [st [a0|w|]]; cbn in *; [|done..]. injection Ha as <-. by apply H. Qed.
End calls.

Section errors.
Context `{SE : Session} `{HA : Hasher} `{CP : !Capture} `{FL : !FfiLibs}.
Context `{HN : HttpNet} `{UR : ReqwestUrl} `{SS : Serde SnapshotRequest.t} `{TS : TeeSocket}.
Implicit Types (st : Ffi.t).

Lemma tells_handle {A} (bad : A -> bool) st h null k :
  bad null = true -> (forall st' h', last_error st' = None -> tells bad (k st' h')) -> tells bad (with_handle st h null k).
Proof. intros Hn Hk. unfold with_handle. destruct h; [by apply Hk|by apply tells_fail]. Qed.
Lemma tells_deref {A} (bad : A -> bool) st h k : (forall hd, tells bad (k hd)) -> tells bad (deref st h k).
Proof. intros Hk. unfold deref. destruct (handles st !! h); [apply Hk|apply tells_undefined]. Qed.
Lemma tells_sql {A} (bad : A -> bool) st sql null invalid k :
  bad null = true -> bad invalid = true -> (forall s, tells bad (k s)) -> tells bad (with_sql st sql null invalid k).
Proof.
  intros Hn Hi Hk. unfold with_sql. destruct sql; [|by apply tells_fail].
  destruct (from_utf8 _); [apply Hk|by apply tells_fail|apply tells_aborts].
Qed.
Lemma tells_open (bad : SyndDBError * option Z -> bool) st p u o env k :
  (forall e, e <> Success -> bad (e, None) = true) ->
  (forall st' c db path url, last_error st' = None -> tells bad (k st' c db path url)) ->
  tells bad (open_args st p u o env k).
Proof.
  intros Hb Hk. unfold open_args.
  destruct p as [p|]; [|by apply tells_fail, Hb]. destruct u as [u|]; [|by apply tells_fail, Hb].
  destruct o; [|by apply tells_fail, Hb].
  destruct (from_utf8 p); [|by apply tells_fail, Hb|apply tells_aborts].
  destruct (from_utf8 u); [|by apply tells_fail, Hb|apply tells_aborts].
  destruct (db_open _ _); [by apply Hk|by apply tells_fail, Hb|apply tells_aborts].
Qed.

Lemma attach_on_error st c db path config opened env env' :
  last_error (fst (attach_on st c db path config opened env env')) = last_error st.
Proof. unfold attach_on. by destruct (SyndDB.attach_with_config _ _ _ _ _ _ _ _) as [[[]]| |]. Qed.
Lemma tells_attached (bad : SyndDBError * option Z -> bool) r :
  bad (AttachError, None) = true -> (forall h, bad (Success, Some h) = false) ->
  last_error (fst r) = None -> tells bad (attached r).
Proof.
  intros Hb Hs He. destruct r as [st [h|e|w]]; cbn in *; [by apply tells_ok|by apply tells_fail|apply tells_aborts].
Qed.

Lemma snapshot_slot_error st hd env : last_error (fst (snapshot_slot st hd env)) = last_error st.
Proof. unfold snapshot_slot. destruct (slot st) as [[c s]|]; [|done]. by destruct (SyndDB.snapshot _ _). Qed.
Lemma execute_on_error st hd sql env st' r : execute_on st hd sql env = Some (st', r) -> last_error st' = last_error st.
Proof.
  unfold execute_on. intros H. apply bind_Some in H as (db & _ & H).
  destruct (sql_execute db sql _) as [[db' hk] r']. by injection H as <- <-.
Qed.

Lemma push_tells st h env : tells (fun e => negb (error_code e =? 0)) (synddb_push st h env).
Proof.
  unfold synddb_push. apply tells_handle; [done|]. intros st' h' He. apply tells_deref. intros hd.
  unfold push_slot. destruct (SessionMonitor.push _ _ _) as [s [u|e|w]];
    [by apply tells_ok|by apply tells_fail|apply tells_aborts].
Qed.
Lemma snapshot_tells st h o env : tells (fun r => negb (fst_code r =? 0)) (synddb_snapshot st h o env).
Proof.
  unfold synddb_snapshot. apply tells_handle; [done|]. intros st' h' He. apply tells_deref. intros hd.
  pose proof (snapshot_slot_error st' hd env) as Hs. rewrite He in Hs.
  destruct (snapshot_slot st' hd env) as [st1 [u|e|w]]; [by apply tells_ok|by apply tells_fail|apply tells_aborts].
Qed.
Lemma batch_tells st h sql env : tells (fun e => negb (error_code e =? 0)) (synddb_execute_batch st h sql env).
Proof.
  unfold synddb_execute_batch. apply tells_handle; [done|]. intros st' h' He. apply tells_sql; [done..|]. intros s.
  apply tells_deref. intros hd. destruct (conns st' !! conn hd) as [db|]; [|apply tells_undefined].
  destruct (sql_execute_batch db s _) as [[db' hk] [u|e|w]]; [|by apply tells_fail|apply tells_aborts].
  destruct (is_ddl s); [|by apply tells_ok].
  pose proof (snapshot_slot_error (write_conn st' (conn hd) db' hk) hd env) as Hs. cbn [write_conn last_error] in Hs.
  rewrite He in Hs. destruct (snapshot_slot _ hd env) as [st1 [u'|e|w]]; [by apply tells_ok|by apply tells_ok|apply tells_aborts].
Qed.
Lemma transaction_tells sql what st h env : tells (fun e => negb (error_code e =? 0)) (transaction_call sql what st h env).
Proof.
  unfold transaction_call. apply tells_handle; [done|]. intros st' h' He. apply tells_deref. intros hd.
  destruct (execute_on st' hd sql env) as [[st1 [u|e|w]]|] eqn:E; [|by apply tells_fail|apply tells_aborts|apply tells_undefined].
  apply execute_on_error in E. rewrite He in E. by apply tells_ok.
Qed.

(** SQLite counts the rows it changed in an [int]. *)
Definition rows_counted : Prop :=
  forall db sql n db' hk rows, sql_execute db sql n = (db', hk, Ok rows) -> 0 <= rows < 2 ^ 31.

Lemma execute_tells st h sql env : rows_counted -> tells (fun rows => rows <? 0) (synddb_execute st h sql env).
Proof.
  intros Hrows. unfold synddb_execute. apply tells_handle; [done|]. intros st' h' He. apply tells_sql; [done..|]. intros s.
  apply tells_deref. intros hd. destruct (execute_on st' hd s env) as [[st1 [rows|e|w]]|] eqn:E;
    [|by apply tells_fail|apply tells_aborts|apply tells_undefined].
  pose proof (execute_on_error _ _ _ _ _ _ E) as Hs. rewrite He in Hs. apply tells_ok; [done|].
  unfold execute_on in E. apply bind_Some in E as (db & _ & E).
  destruct (sql_execute db s (CallEnv.n env)) as [[db' hk] r'] eqn:Ex. injection E as _ ->.
  apply Hrows in Ex. unfold as_i64, as_u64. rewrite Z.mod_small by lia.
  replace (rows <? 2 ^ 63) with true by lia. lia.
Qed.

(** C35. The error protocol of the C interface: whatever a call is given, null pointers
    and strings that are not UTF-8 included, if it returns then there is a last error
    exactly when the value it returns says that it failed; a call that succeeds leaves
    no message of an earlier one behind. *)
Theorem last_error_iff_failed st (c : FfiCall) (opened : result string (option FailedBatchRecovery.t))
    (env env' : CallEnv.t) (st' : Ffi.t) (code : Z) :
  rows_counted -> ffi_call st c opened env env' = (st', Returns code) ->
  (is_Some (synddb_last_error st') <-> failed c code = true).
Proof.
  intros Hrows Hc.
  assert (Ht : tells (failed c) (ffi_call st c opened env env')).
  { destruct c; cbn [ffi_call].
    - apply tells_coded, tells_open; [by intros []|]. intros. apply tells_attached; [done|done|].
      destruct (map_err _ _); cbn; [by rewrite attach_on_error|done..].
    - apply tells_coded, tells_open; [by intros []|]. intros. destruct (url_parse _); [|by apply tells_fail|apply tells_aborts].
      apply tells_attached; [done|done|by rewrite attach_on_error].
    - apply tells_coded, push_tells.
    - apply tells_coded, snapshot_tells.
    - by apply execute_tells.
    - apply tells_coded, batch_tells.
    - apply tells_coded, transaction_tells.
    - apply tells_coded, transaction_tells.
    - apply tells_coded, transaction_tells. }
  specialize (Ht code). rewrite Hc in Ht. by apply Ht.
Qed.
End errors.

(** ** One session per thread *)
Section handles.
Context `{SE : Session} `{HA : Hasher} `{CP : !Capture} `{FL : !FfiLibs}.
Context `{HN : HttpNet} `{UR : ReqwestUrl} `{SS : Serde SnapshotRequest.t} `{TS : TeeSocket}.
Implicit Types (st : Ffi.t).

(** The thread's session watches connection [c]. *)
Definition watches st (c : Z) : Prop := exists s, slot st = Some (c, s).
(** Handles, connections and the session are at addresses already used. *)
Definition ffi_wf st : Prop :=
  map_Forall (fun h hd => h < next_address st /\ is_Some (conns st !! conn hd)) (handles st) /\
  map_Forall (fun c _ => c < next_address st) (conns st).

Lemma attach_monitor db path files config opened env env' d rc at_ :
  SyndDB.attach_with_config has_tables db path files config opened env env' = Ok (d, rc, at_) ->
  is_Some (SyndDB.monitor d).
Proof.
  unfold SyndDB.attach_with_config. intros H. destruct (validate_config config); [|done..]. cbn [result_bind] in H.
  destruct (SessionMonitor.new _ _ _ _ _) as [s| |]; [|done..]. cbn [result_bind] in H. apply Ok_inj in H. injection H as <- _ _.
  assert (Hm : forall d e, SyndDB.monitor (fst (SyndDB.snapshot d e)) = SyndDB.monitor d).
  { intros d0 e. unfold SyndDB.snapshot. destruct (SyndDB.create_snapshot d0 e); [|done..]. cbn. by destruct (SyndDB.db_path d0). }
  destruct (SyndDB.has_existing_tables _ _ _); destruct (match path with Some p => _ | None => _ end);
    rewrite ?Hm; by eexists.
Qed.

(** Whatever was attached before, the thread's session now is the new handle's. *)
Lemma attach_takes_session st p u o opened env env' st' h :
  ffi_wf st -> synddb_attach st p u o opened env env' = (st', Returns (Success, Some h)) ->
  ffi_wf st' /\ handles st !! h = None /\
  exists hd, handles st' = <[h := hd]> (handles st) /\ conns st !! conn hd = None /\ watches st' (conn hd).
Proof.
  intros [Hh Hc] H. unfold synddb_attach, open_args in H.
  destruct p as [p|]; [|done]. destruct u as [u|]; [|done]. destruct o; [|done].
  destruct (from_utf8 p) as [ps| |]; [|done..]. destruct (from_utf8 u) as [us| |]; [|done..].
  destruct (db_open ps _) as [db| |]; [|done..]. cbn [leak_conn clear_last_error with_error next_address] in H.
  destruct (map_err _ _) as [url| |]; [|done..]. unfold attach_on in H.
  destruct (SyndDB.attach_with_config _ _ _ _ _ _ _ _) as [[[d rc] at_]| |] eqn:Ea; [|done..].
  apply attach_monitor in Ea as [s Hs]. cbn in H. injection H as <- <-. set (a := next_address st) in *.
  assert (Hfresh : conns st !! a = None).
  { apply eq_None_not_Some. intros [db0 Hdb]. apply Hc in Hdb. unfold a in Hdb. lia. }
  assert (Hfh : handles st !! (a + 1) = None).
  { apply eq_None_not_Some. intros [hd0 Hhd]. apply Hh in Hhd. unfold a in Hhd. lia. }
  split; [|split; [done|]].
  - split; cbn.
    + apply map_Forall_insert_2; [cbn; split; [lia|by rewrite lookup_insert_eq]|].
      eapply map_Forall_impl; [exact Hh|]. cbn. intros h0 hd0 [H1 H2]. split; [unfold a; lia|].
      destruct (decide (a = conn hd0)) as [<-|Hne]; [by rewrite lookup_insert_eq|by rewrite lookup_insert_ne].
    + apply map_Forall_insert_2; [lia|]. eapply map_Forall_impl; [exact Hc|]. cbn. unfold a. lia.
  - eexists. split; [reflexivity|]. cbn. split; [done|]. rewrite Hs. by eexists.
Qed.

Lemma push_ignores_handle st h1 h2 env :
  is_Some (handles st !! h1) -> is_Some (handles st !! h2) -> synddb_push st (Some h1) env = synddb_push st (Some h2) env.
Proof. intros [x H1] [y H2]. unfold synddb_push, with_handle, deref. cbn. by rewrite H1, H2. Qed.

(** What a write through another connection leaves of the session. *)
Definition same_source (s s' : SessionState.t) : Prop :=
  SessionState.conn s' = SessionState.conn s /\ SessionState.session s' = SessionState.session s.

Lemma execute_elsewhere st h hd c s sql env :
  handles st !! h = Some hd -> slot st = Some (c, s) -> conn hd <> c ->
  exists s', slot (fst (synddb_execute st (Some h) sql env)) = Some (c, s') /\ same_source s s'.
Proof.
  intros Hh Hs Hne. unfold synddb_execute, with_handle, with_sql, deref, execute_on.
  assert (Hstay : exists s', slot st = Some (c, s') /\ same_source s s') by (exists s; done).
  destruct sql as [sql|]; [|exact Hstay]. destruct (from_utf8 sql); [|exact Hstay..].
  cbn [clear_last_error with_error handles conns]. rewrite Hh.
  destruct (conns st !! conn hd) as [db|]; [|exact Hstay]. cbn.
  destruct (sql_execute db _ _) as [[db' hk] r].
  assert (Hw : exists s', slot (write_conn (clear_last_error st) (conn hd) db' hk) = Some (c, s') /\ same_source s s').
  { unfold write_conn. cbn [slot clear_last_error with_error]. rewrite Hs, decide_False by done. eexists. split; [reflexivity|]. by destruct (hk && _). }
  destruct r; exact Hw.
Qed.

Lemma snapshot_elsewhere st h hd c s env size st' :
  handles st !! h = Some hd -> slot st = Some (c, s) ->
  synddb_snapshot st (Some h) true env = (st', Returns (Success, Some size)) ->
  exists data, backup_bytes (SessionState.conn s) (CallEnv.n env) = Ok data /\ size = Z.of_nat (length data).
Proof.
  intros Hh Hs. unfold synddb_snapshot, with_handle, deref, snapshot_slot.
  cbn [clear_last_error with_error handles slot]. rewrite Hh, Hs.
  unfold SyndDB.snapshot. destruct (SyndDB.create_snapshot _ env) as [snap| |] eqn:Ec; [|done..]. intros H.
  cbn in Ec. unfold SessionMonitor.create_snapshot_internal in Ec. destruct (is_autocommit _); [|done]. cbn [negb] in Ec.
  destruct (backup_bytes _ _) as [data| |]; [|done..]. apply Ok_inj in Ec. subst snap. exists data. split; [done|].
  destruct (result_bind _ _) as [snap| |] eqn:Er; [|done..]. injection H as _ <-.
  repeat match type of Er with
  | result_bind ?x _ = _ => destruct x; [|done..]; cbn [result_bind] in Er
  | match ?x with _ => _ end = _ => destruct x; [done|]
  | (if ?b then _ else _) = _ => destruct b; [done|]
  end. apply Ok_inj in Er. by subst snap.
Qed.

Lemma detach_ends_session st h1 h2 env env' st' o :
  h1 <> h2 -> is_Some (handles st !! h2) -> synddb_detach st (Some h1) env = (st', Returns o) ->
  snd (synddb_push st' (Some h2) env') = Returns PublishError.
Proof.
  intros Hne [hd2 Hh2] H. unfold synddb_detach in H. destruct (handles st !! h1) as [hd|]; [|done]. cbn [slot] in H.
  assert (Hno : slot st' = None /\ handles st' !! h2 = Some hd2).
  { destruct (slot st) as [[c s]|] eqn:Es.
    - destruct (SessionMonitor.drop_monitor _ _ _); [..|done]; injection H as <- _; cbn; by rewrite lookup_delete_ne.
    - injection H as <- _. cbn. by rewrite lookup_delete_ne. }
  destruct Hno as [Hn Hh]. unfold synddb_push, with_handle, deref, push_slot. cbn. rewrite Hh, Hn. done.
Qed.

(** C39. A thread has one capture session, whatever it attaches: after a second attach
    both handles push the second one's session, what is written through the first is in
    no changeset, a snapshot asked of the first is of the second's database, and once
    the first is detached a push through the second fails. *)
Theorem second_attach_takes_session st st' (p u : option bytes) (o : bool)
    (opened : result string (option FailedBatchRecovery.t)) (env env' : CallEnv.t) (h1 h2 : Z) (hd1 : Handle) :
  ffi_wf st -> handles st !! h1 = Some hd1 ->
  synddb_attach st p u o opened env env' = (st', Returns (Success, Some h2)) ->
  exists c2 s2, slot st' = Some (c2, s2) /\ conn hd1 <> c2 /\
    (forall e, synddb_push st' (Some h1) e = synddb_push st' (Some h2) e) /\
    (forall sql e, exists s, slot (fst (synddb_execute st' (Some h1) sql e)) = Some (c2, s) /\ same_source s2 s) /\
    (forall e size st1, synddb_snapshot st' (Some h1) true e = (st1, Returns (Success, Some size)) ->
       exists data, backup_bytes (SessionState.conn s2) (CallEnv.n e) = Ok data /\ size = Z.of_nat (length data)) /\
    (forall e e' st1 r, synddb_detach st' (Some h1) e = (st1, Returns r) ->
       snd (synddb_push st1 (Some h2) e') = Returns PublishError).
Proof.
  intros Hwf Hh1 Ha. pose proof Hwf as [Hh _]. pose proof (Hh _ _ Hh1) as [_ [db1 Hdb1]].
  destruct (attach_takes_session _ _ _ _ _ _ _ _ _ Hwf Ha) as (_ & Hnew & hd & Hhs & Hfresh & (s & Hs)).
  assert (Hne : h1 <> h2) by (intros ->; by rewrite Hh1 in Hnew).
  assert (Hc : conn hd1 <> conn hd) by (intros E; rewrite <- E, Hdb1 in Hfresh; done).
  assert (Hl1 : handles st' !! h1 = Some hd1) by (by rewrite Hhs, lookup_insert_ne).
  assert (Hl2 : handles st' !! h2 = Some hd) by (by rewrite Hhs, lookup_insert_eq).
  exists (conn hd), s. split; [done|]. split; [done|]. split_and!.
  - intros e. apply push_ignores_handle; by eexists.
  - intros sql e. by eapply execute_elsewhere.
  - intros e size st1. by eapply snapshot_elsewhere.
  - intros e e' st1 r Hd. eapply detach_ends_session; [exact Hne|by eexists|exact Hd].
Qed.
End handles.
