(* ===== verification/ClientWitnesses.v ===== *)
(** * Concrete runs of the client

    An executable SQLite (a schema version and a balance, a changeset being the pair of
    the balances it leads between), a hasher and a network, with their laws, and the
    client's theorems at concrete inputs. *)
From Stdlib Require Import Ascii Strings.Byte.
From S2P Require Import Prelude RustStd Extern Net Reference Outbound StateStore Applier RefStorage.
From S2P Require Import BootClients Bootstrap ClientSender ClientSession ClientProps ClientCapture.
From S2P Require Import ClientFfi ClientFfiProps.

(** An equation by evaluation of both sides. *)
Ltac by_vm := lazymatch goal with |- ?a = _ => vm_cast_no_check (@eq_refl _ a) end.

(** ** The database *)
Definition bank_codec : codec (Z * Z * (Z * Z)) := countable_codec.
Definition bank_apply (db : Z * Z) (d : bytes) (h : ConflictType -> ConflictAction) : result string (Z * Z) :=
  match d with
  | x01 :: d' =>
      match dec bank_codec d' with
      | Some ((a, b), []) =>
          if decide (db = a) then Ok b
          else match h CONFLICT_DATA with ABORT => Err "callback requested query abort"%string | OMIT => Ok db | REPLACE => Ok b end
      | _ => Err "database disk image is malformed"%string
      end
  | _ => Err "database disk image is malformed"%string
  end.

#[local] Instance bank : Session := {|
  Db := Z * Z;
  start_strm _ := Ok [Item (Ok ("balances"%string, 2))];
  table_info _ _ := Some 2;
  apply_strm := bank_apply;
  invert_strm := Ok;
  begin_tx _ := Ok tt;
  commit_tx _ := Ok tt;
  restore_backup _ b := match dec countable_codec b with Some (db, _) => Ok db | None => Err "not a database"%string end;
  set_pragmas _ := Ok tt;
|}.

#[local] Instance bank_capture : Capture := {|
  CapSession := (Z * Z)%type;
  is_autocommit _ := true;
  schema_items db _ := Ok [("table", "balances", int_to_string db.1)]%string;
  session_new db _ := Ok db;
  session_attach x _ := Ok x;
  changeset_strm x b _ := Ok (if decide (x = b) then [] else x01 :: enc bank_codec (x, b));
  backup_bytes db _ := Ok (enc countable_codec db);
|}.

#[local] Instance text_hasher : Hasher := {|
  HasherState := Z;
  hasher_new := 7;
  hash_str h s := fold_left (fun h b => (h * 131 + Z_of_byte b) mod 2 ^ 64) (as_bytes s) h;
  hash_u64 h z := (h * 131 + z) mod 2 ^ 64;
  hasher_finish h := h;
|}.

Lemma bank_changes (x b : Z * Z) (d : bytes) :
  (if decide (x = b) then [] else x01 :: enc bank_codec (x, b)) = d -> d <> [] ->
  forall h, bank_apply x d h = Ok b.
Proof.
  intros <- Hd h. case_decide; [done|]. unfold bank_apply.
  pose proof (dec_enc bank_codec (x, b) []) as E. rewrite app_nil_r in E. rewrite E. by rewrite decide_True.
Qed.

#[local] Instance bank_laws : CaptureLaws.
Proof.
  refine {| base := fun x : @CapSession bank bank_capture => (x : @Db bank);
            tracked := fun a b : @Db bank => fst a = fst b |}.
  - done.
  - intros a b c -> ->. done.
  - intros c n x y H H'. cbn in H, H'. congruence.
  - intros x b n _ H. cbn in H. apply Ok_inj in H. case_decide as E; [by symmetry|done].
  - intros x b n d _ H Hd. cbn in H. apply Ok_inj in H. split.
    + eexists. split; [reflexivity|]. constructor; [|done]. exists "balances"%string, 2. split_and!; [done|done|lia].
    + intros h. by apply (bank_changes x b).
Defined.

(** ** The network: a sequencer that accepts everything, and one that refuses *)
#[local] Instance up_net : HttpNet := {|
  http_get _ _ _ := Response 200 (Ok []);
  http_post _ _ _ _ := Response 201 (Ok []);
  client_build := Ok tt;
  status_display := int_to_string;
  body_text := string_of_bytes;
|}.
Definition down_net : HttpNet := {|
  http_get _ _ _ := Response 503 (Ok []);
  http_post _ _ _ _ := Response 503 (Ok []);
  client_build := Ok tt;
  status_display := int_to_string;
  body_text := string_of_bytes;
|}.
#[local] Instance plain_urls : ReqwestUrl := {|
  url_join b p := Ok (b +:+ p);
  status_error_text u s := "HTTP status " +:+ int_to_string s +:+ " for url " +:+ u;
|}.
#[local] Instance no_socket : TeeSocket := {| socket_exists := false; socket_post _ _ := Err "no socket"%string |}.
#[local] Instance token_response : FromJson AttestationResponse.t := fun b => Ok (AttestationResponse.mk (string_of_bytes b)).
#[local] Instance token_request : ToJson AttestationRequest.t := fun r => as_bytes (AttestationRequest.audience r).

Definition env0 (now : Z) : Env.t := Env.mk now now (1700000000 * NANOS_PER_SEC) 0 0 "batch-1" (fun _ => Ok tt).
Definition fresh_recovery : FailedBatchRecovery.t := FailedBatchRecovery.mk FailedTable.empty FailedTable.empty.
Definition sender0 (c : Config.t) : ChangesetSender.t :=
  ChangesetSender.mk c [] 0 0 (Some fresh_recovery) None ReplicationStats.new.
Definition cs0 (sequence : Z) : Changeset.t :=
  Changeset.mk [x01; x02] sequence (1700000000 * NANOS_PER_SEC + 5).

(** ** The senders *)
Definition two_received : list ChangesetSender.Event :=
  [ChangesetSender.Received (cs0 0) (env0 10); ChangesetSender.Shutdown [cs0 1] (env0 20)].

Lemma sender_conserves_witness :
  exists s' acked, @ChangesetSender.main_loop down_net _ _ _ _ _ (sender0 Config.default) two_received = (s', acked, Ok false) /\
    acked = [] /\ ChangesetSender.buffer s' = [] /\
    exists groups, concat groups.*1 = [cs0 0; cs0 1] /\ SenderFate.kept_in groups ≡ₚ [cs0 0; cs0 1].
Proof.
  destruct (@ChangesetSender.main_loop down_net _ _ _ _ _ (sender0 Config.default) two_received)
    as [[s' acked] r] eqn:E.
  assert (Er : r = Ok false /\ acked = []) by (vm_compute in E; injection E; intros; subst; done).
  destruct Er as [-> ->]. exists s', []. split; [done|]. split; [done|].
  destruct (SenderFate.sender_conserves (HN := down_net) (sender0 Config.default) s' two_received [] (Ok false) E)
    as (groups & Hb & Hm & _ & _ & Hp & He); [done|].
  rewrite (He eq_refl), app_nil_r in Hb. split; [by apply He|]. exists groups. split; [by symmetry|].
  destruct (SenderFate.acked_groups groups) as [|g gs] eqn:Eg; [|done].
  cbn in Hb. specialize (Hp ltac:(by repeat constructor) ltac:(done) ltac:(by repeat constructor)).
  rewrite <-Hb in Hp. by rewrite Hp.
Defined.

Lemma closed_channel_loses_buffer_witness :
  exists s', ChangesetSender.main_loop (sender0 Config.default)
               [ChangesetSender.Received (cs0 0) (env0 10); ChangesetSender.ChannelClosed] = (s', [], Ok false) /\
    ChangesetSender.buffer s' = [cs0 0] /\ ChangesetSender.recovery s' = Some fresh_recovery.
Proof.
  apply (SenderFate.closed_channel_loses_buffer (sender0 Config.default) [cs0 0] (fun _ => env0 10) (env0 20)).
  intros [|i] Hi; [reflexivity|cbn in Hi; lia].
Defined.

Definition no_retries : Config.t :=
  Config.mk "http://localhost:8433/" 100 1000 1048576 0 10000 100 true true Oidc.

Lemma zero_retries_panics_witness :
  validate_config no_retries = Ok tt /\
  exists w s', ChangesetSender.flush (ChangesetSender.accept (sender0 no_retries) (cs0 0)) (env0 10) = (s', [], Panic w) /\
    ChangesetSender.buffer s' = [] /\ ChangesetSender.recovery s' = Some fresh_recovery.
Proof.
  split; [reflexivity|].
  apply (SenderFate.zero_retries_panics (ChangesetSender.accept (sender0 no_retries) (cs0 0)) (env0 10)); done.
Defined.

(** ** Capture *)
Definition wall0 : Z := 1700000000 * NANOS_PER_SEC.
Definition session0 : SessionState.t :=
  SessionState.mk (1, 50) (Chan.bounded 4) 0 (1, 50) 100 0 (Some (Chan.bounded 10)) false
    (SessionState.compute_schema_hash (1, 50) 0).
Definition app_events : list AppEvent := [Write (1, 40); Write (1, 30); Push wall0 1; Write (1, 90)].
Definition session1 : SessionState.t :=
  Eval vm_compute in default session0 (app_run session0 (app_events ++ [Push wall0 2])).
Definition queued1 : list Changeset.t := Eval vm_compute in Chan.queue (SessionState.changeset_tx session1).
Definition sender_events : list ChangesetSender.Event :=
  [ChangesetSender.Received (default (cs0 0) (queued1 !! 0%nat)) (env0 1500);
   ChangesetSender.Shutdown (drop 1 queued1) (env0 1600)].
Definition e2e_sender : ChangesetSender.t :=
  Eval vm_compute in (ChangesetSender.main_loop (sender0 Config.default) sender_events).1.1.
Definition e2e_acked : list ChangesetBatchRequest.t :=
  Eval vm_compute in (ChangesetSender.main_loop (sender0 Config.default) sender_events).1.2.

Lemma queued1_storable : Forall storable (SenderFate.taken sender_events).
Proof. repeat (constructor; [by vm_compute|]). constructor. Qed.

Lemma application_reaches_replica_witness :
  length e2e_acked = 2%nat /\
  apply_batches (SE := bank) 0 (1, 50) e2e_acked = Ok (SessionState.conn session1) /\
  SessionState.conn session1 = (1, 90).
Proof.
  split; [reflexivity|]. split; [|reflexivity].
  eapply (application_reaches_replica (SE := bank) (1, 50) (Chan.bounded 4) 100 (Some (Chan.bounded 10)) 0 2 wall0
           session0 session1 app_events (sender0 Config.default) e2e_sender sender_events e2e_acked
           fresh_recovery 0).
  - by_vm.
  - by_vm.
  - by_vm.
  - by repeat constructor.
  - cbn. lia.
  - cbn. lia.
  - by_vm.
  - by_vm.
  - by_vm.
  - by_vm.
  - by_vm.
  - by_vm.
  - by repeat constructor.
  - exact queued1_storable.
  - by_vm.
  - by_vm.
Defined.

(** A push into a full channel: the change from 50 to 30 is gone. *)
Definition full_session : SessionState.t :=
  SessionState.mk (1, 50) (Chan.mk [cs0 0] 1 true) 1 (1, 30) 100 1 (Some (Chan.bounded 10)) true
    (SessionState.compute_schema_hash (1, 50) 0).
Definition full_pushed : SessionState.t :=
  Eval vm_compute in (SessionMonitor.extract_and_send_changeset full_session wall0 1).1.

Lemma full_channel_loses_changeset_witness :
  Chan.queue (SessionState.changeset_tx full_pushed) = Chan.queue (SessionState.changeset_tx full_session) /\
  SessionState.has_changes full_pushed = false /\
  SessionState.sequence full_pushed = u64_add 1 1 /\
  base (CaptureLaws := bank_laws) (SessionState.session full_pushed) = SessionState.conn full_session /\
  SessionState.conn full_pushed = SessionState.conn full_session.
Proof.
  apply (full_channel_loses_changeset (SE := bank) full_session full_pushed wall0 1
           (x01 :: enc bank_codec ((1, 50), (1, 30)))).
  - reflexivity.
  - reflexivity.
  - cbn. lia.
  - by_vm.
  - by_vm.
  - done.
  - by_vm.
Defined.

(** An update to 30 and a new schema, then a push. *)
Definition altered_session : SessionState.t :=
  SessionState.mk (2, 50) (Chan.bounded 4) 3 (2, 30) 100 1 (Some (Chan.bounded 10)) true
    (SessionState.compute_schema_hash (1, 50) 0).
Definition altered_pushed : SessionState.t :=
  Eval vm_compute in (SessionMonitor.extract_and_send_changeset altered_session wall0 1).1.

Definition altered_changes : bytes := x01 :: enc bank_codec ((2, 50), (2, 30)).
Definition altered_backup : bytes := enc countable_codec ((2, 30) : @Db bank).

Lemma schema_snapshot_overlaps_witness :
  (exists stx', SessionState.snapshot_tx altered_pushed = Some stx' /\
     Chan.queue stx' = [Snapshot.mk altered_backup wall0 (SessionState.sequence altered_session)]) /\
  Chan.queue (SessionState.changeset_tx altered_pushed) =
    Chan.queue (SessionState.changeset_tx altered_session)
    ++ [Changeset.mk altered_changes (SessionState.sequence altered_session + 1) wall0] /\
  (tracked (CaptureLaws := bank_laws) (base (SessionState.session altered_session)) (SessionState.conn altered_session) ->
   ChangesetApplier.apply_single_changeset (base (CaptureLaws := bank_laws) (SessionState.session altered_session))
     altered_changes = Ok (SessionState.conn altered_session)).
Proof.
  apply (schema_snapshot_overlaps (SE := bank) altered_session altered_pushed (Chan.bounded 10) wall0 1
           altered_changes altered_backup).
  - reflexivity.
  - reflexivity.
  - by split; [|cbn; lia].
  - done.
  - done.
  - apply Z.eqb_neq. by_vm.
  - cbn. lia.
  - reflexivity.
  - reflexivity.
  - cbn. lia.
  - reflexivity.
  - reflexivity.
  - by_vm.
  - done.
  - by_vm.
Defined.

(** Restored from that snapshot, a replica refuses the changeset that follows. *)
Lemma overlapping_changeset_refused :
  ChangesetApplier.apply_single_changeset (SE := bank) (2, 30) altered_changes =
    Err (Msg "Failed to apply changeset: callback requested query abort").
Proof. by_vm. Qed.

(** ** The handle: application and senders interleaved *)

(** A channel of two, so that a third push needs a turn of the sender before it. *)
Definition small_config : Config.t := Config.mk "http://localhost:8433/" 2 1000 1048576 3 10000 100 true true Oidc.
Definition attach_env : ClientHandle.AttachEnv :=
  ClientHandle.mk_env ∅ (Ok None) (CallEnv.mk wall0 0 0 "uuid" (Ok tt)) (CallEnv.mk wall0 0 0 "uuid" (Ok tt))
    (env0 0) (fun _ => env0 0).
Definition no_tables (_ : @Db bank) (_ : nat) : result string bool := Ok false.
Definition handle_start : ClientHandle.t * list ChangesetBatchRequest.t * list SnapshotRequest.t :=
  Eval vm_compute in
    match ClientHandle.attach_with_config no_tables (1, 50) (Some "app.db"%string) small_config attach_env with
    | Ok x => x
    | _ => (ClientHandle.mk (SyndDB.mk EmptyString None None ∅) None None None ReplicationStats.new, [], [])
    end.
Definition handle0 : ClientHandle.t := handle_start.1.1.
Definition handle_sender : ChangesetSender.t :=
  Eval vm_compute in
    match ClientHandle.changeset_handle handle0 with Some (Running s) => s | _ => sender0 small_config end.
Definition push_env (n : nat) : CallEnv.t := CallEnv.mk wall0 n 0 "uuid" (Ok tt).
Definition client_acts : list Act :=
  [AppWrite (1, 40); AppPush (push_env 1); AppWrite (1, 30); AppPush (push_env 2); ChangesetTurn (env0 1500);
   SnapshotTurn (env0 1500); AppWrite (1, 90)].
Definition handle_run : ClientHandle.t * list ChangesetBatchRequest.t :=
  Eval vm_compute in default (handle0, []) (client_run handle0 client_acts).
Definition handle_pushed : SyndDB.t := Eval vm_compute in (SyndDB.push (ClientHandle.db handle_run.1) (push_env 3)).1.
Definition handle_session : SessionState.t := Eval vm_compute in default session0 (SyndDB.monitor handle_pushed).
Definition ending : Ending.t := Ending.mk [env0 1600] false (env0 1700).
Definition handle_end : ClientHandle.t * list ChangesetBatchRequest.t * list SnapshotRequest.t * result string unit :=
  Eval vm_compute in ClientHandle.shutdown (ClientHandle.with_db handle_run.1 handle_pushed) ending ending wall0 9.

Lemma client_reaches_replica_witness :
  length handle_run.2 = 1%nat /\ length (concat (map ChangesetBatchRequest.changesets handle_end.1.1.2)) = 2%nat /\ SessionState.conn handle_session = (1, 90) /\
  apply_batches (SE := bank) 0 (1, 50) (handle_run.2 ++ handle_end.1.1.2) = Ok (SessionState.conn handle_session).
Proof.
  split; [reflexivity|]. split; [reflexivity|]. split; [reflexivity|].
  apply (client_reaches_replica (SE := bank) no_tables (1, 50) (Some "app.db"%string) small_config attach_env
           handle0 handle_run.1 handle_end.1.1.1 handle_start.1.2 handle_start.2 handle_sender client_acts handle_run.2
           (push_env 3) handle_pushed handle_session ending ending wall0 9 handle_end.1.1.2 handle_end.1.2 0).
  - by_vm.
  - by_vm.
  - discriminate.
  - by repeat constructor.
  - by repeat constructor.
  - by_vm.
  - cbn. lia.
  - by_vm.
  - by_vm.
  - by_vm.
  - by split.
  - by_vm.
  - by_vm.
  - by_vm.
  - by repeat constructor.
  - unfold same_changesets. by_vm.
Defined.

(** The balance written after the last push is in no batch. *)
Definition unpushed_end : ClientHandle.t * list ChangesetBatchRequest.t * list SnapshotRequest.t * result string unit :=
  Eval vm_compute in
    ClientHandle.shutdown (app_write (ClientHandle.with_db handle_run.1 handle_pushed) (1, 10) true) ending ending wall0 9.
Lemma shutdown_forgets_unpushed_witness :
  unpushed_end.1.1.2 = handle_end.1.1.2 /\ unpushed_end.1.2 = handle_end.1.2 /\
  ClientHandle.recovery unpushed_end.1.1.1 = ClientHandle.recovery handle_end.1.1.1.
Proof.
  apply (shutdown_forgets_unpushed (SE := bank) (ClientHandle.with_db handle_run.1 handle_pushed)
           handle_end.1.1.1 unpushed_end.1.1.1 (1, 10) true ending ending wall0 9
           handle_end.1.1.2 handle_end.1.2 unpushed_end.1.1.2 unpushed_end.1.2); by_vm.
Defined.

(** Dropped instead before the last push, the handle sends the balance of 90. *)
Definition dropped_end : ClientHandle.t * list ChangesetBatchRequest.t * list SnapshotRequest.t * result string unit :=
  Eval vm_compute in
    ClientHandle.drop_handle handle_run.1 ending ending wall0 9.
Lemma drop_delivers_unpushed_witness :
  length (concat (map ChangesetBatchRequest.changesets dropped_end.1.1.2)) = 2%nat /\
  exists groups : list (list Changeset.t * SenderFate.Fate), length (concat groups.*1) = 2%nat.
Proof.
  split; [reflexivity|].
  destruct (drop_delivers_unpushed (SE := bank) handle_run.1
              dropped_end.1.1.1
              (match ClientHandle.changeset_handle handle_run.1 with Some (Running s) => s | _ => handle_sender end)
              (default session0 (SyndDB.monitor (ClientHandle.db handle_run.1)))
              ending ending wall0 9 dropped_end.1.1.2 dropped_end.1.2) as [[w Hw]|(s' & Hc & Hb)]; [by_vm..| |].
  - exfalso. vm_compute in Hw. discriminate Hw.
  - destruct Hc as (_ & _ & groups & Hg & _). exists groups. rewrite Hb, app_nil_r in Hg. rewrite <-Hg. reflexivity.
Defined.

(** ** The C interface: two databases attached on one thread *)
#[local] Instance bank_libs : FfiLibs := {|
  db_open p _ := Ok (1, Z.of_nat (String.length p));
  db_path_of p := Some p;
  sql_execute db sql _ := ((db.1, db.2 + 1), true, if decide (sql = "bad"%string) then Err "syntax error"%string else Ok 1);
  sql_execute_batch db _ _ := ((db.1 + 1, db.2), false, Ok tt);
  has_tables _ _ := Ok true;
  url_parse u := Ok (u +:+ "/");
|}.
Definition ffi_env : CallEnv.t := CallEnv.mk wall0 0 0 "uuid" (Ok tt).
Definition attach_call (st : Ffi.t) (path : string) :=
  Ffi.synddb_attach st (Some (as_bytes path)) (Some (as_bytes "http://sequencer")) true (Ok None) ffi_env ffi_env.
Definition one_attached : Ffi.t := Eval vm_compute in fst (attach_call Ffi.init "one.db").
Definition two_attached : Ffi.t := Eval vm_compute in fst (attach_call one_attached "second.db").

Lemma bank_rows : rows_counted.
Proof. intros db sql n db' hk rows H. cbn in H. injection H as _ _ H. case_decide; [done|]. apply Ok_inj in H. lia. Qed.

Lemma last_error_iff_failed_witness :
  is_Some (Ffi.synddb_last_error (Ffi.set_last_error (Ffi.clear_last_error one_attached) "SQL execution failed: syntax error")) <->
  failed (CExecute (Some 2) (Some (as_bytes "bad"))) (-1) = true.
Proof.
  pose proof (last_error_iff_failed one_attached (CExecute (Some 2) (Some (as_bytes "bad"))) (Ok None) ffi_env ffi_env
    (fst (Ffi.synddb_execute one_attached (Some 2) (Some (as_bytes "bad")) ffi_env)) (-1) bank_rows) as H.
  assert (E : ffi_call one_attached (CExecute (Some 2) (Some (as_bytes "bad"))) (Ok None) ffi_env ffi_env =
              (fst (Ffi.synddb_execute one_attached (Some 2) (Some (as_bytes "bad")) ffi_env), Returns (-1))) by by_vm.
  specialize (H E). exact H.
Defined.

Lemma second_attach_takes_session_witness :
  exists c2 s2, Ffi.slot two_attached = Some (c2, s2) /\
    Ffi.synddb_push two_attached (Some 2) ffi_env = Ffi.synddb_push two_attached (Some 4) ffi_env.
Proof.
  destruct (second_attach_takes_session one_attached two_attached (Some (as_bytes "second.db"))
    (Some (as_bytes "http://sequencer")) true (Ok None) ffi_env ffi_env 2 4
    (Ffi.mk_handle 1 "http://sequencer/" (Some "one.db"%string))) as (c2 & s2 & Hs & _ & Hp & _).
  - apply (attach_takes_session Ffi.init (Some (as_bytes "one.db")) (Some (as_bytes "http://sequencer")) true (Ok None)
      ffi_env ffi_env one_attached 2); [split; apply map_Forall_empty|by_vm].
  - reflexivity.
  - by_vm.
  - exists c2, s2. split; [exact Hs|]. exact (Hp ffi_env).
Defined.
