(* ===== verification/Harness.v ===== *)
(** * The in-memory fetcher (crates/synddb-validator/src/sync/providers/mock.rs) and the
    end-to-end harness (crates/synddb-e2e-fuzzer/src/harness.rs, invariants.rs, faults.rs)

    The fetcher is what tests and the end-to-end fuzzer fill and tamper with.  Its maps
    are [HashMap]s behind mutexes; what is read in iteration order is read in the order
    of [map_to_list].  The fuzzer runs source database, sequencer and validator in one
    process over it.  Here are the harness, the invariants it checks and the faults it
    injects.  An [anyhow] error is the chain of its contexts, outermost first. *)
From Stdlib Require Import Ascii Strings.Byte.
From S2P Require Import Prelude RustStd BTree Batches SyncIndex Extern Net Cose CborBatches SignedTypes.
From S2P Require Import Inbox StateStore Applier AuditTrail Validator BootClients Bootstrap SeqApi.
From S2P Require Import ClientSender ClientSession.

(** ** mock.rs *)
Module MockFetcher.
Record t := mk {
  messages : gmap Z SignedMessage.t;
  batches : gmap Z SignedBatch.t;
  batch_mode : bool;
  fail_latest : option string;
  fail_get : gmap Z string;
}.
Definition with_messages (f : t) (m : gmap Z SignedMessage.t) : t :=
  mk m (batches f) (batch_mode f) (fail_latest f) (fail_get f).
Definition with_batches (f : t) (b : gmap Z SignedBatch.t) : t :=
  mk (messages f) b (batch_mode f) (fail_latest f) (fail_get f).

Definition new : t := mk ∅ ∅ false None ∅.
Definition set_batch_mode (f : t) (enabled : bool) : t :=
  mk (messages f) (batches f) enabled (fail_latest f) (fail_get f).
Definition new_batch_mode : t := set_batch_mode new true.

Definition add_message (f : t) (message : SignedMessage.t) : t :=
  with_messages f (<[SignedMessage.sequence message := message]> (messages f)).
Definition add_messages (f : t) (ms : list SignedMessage.t) : t := foldl add_message f ms.
Definition add_batch (f : t) (batch : SignedBatch.t) : t :=
  with_batches f (<[SignedBatch.start_sequence batch := batch]> (batches f)).
Definition add_batches (f : t) (bs : list SignedBatch.t) : t := foldl add_batch f bs.

Definition clear (f : t) : t := mk ∅ ∅ (batch_mode f) (fail_latest f) (fail_get f).
Definition len (f : t) : nat := size (messages f).
Definition batch_count (f : t) : nat := size (batches f).
Definition is_empty (f : t) : bool := bool_decide (messages f = ∅) && bool_decide (batches f = ∅).

Definition set_fail_latest (f : t) (error : string) : t :=
  mk (messages f) (batches f) (batch_mode f) (Some error) (fail_get f).
Definition set_fail_get (f : t) (sequence : Z) (error : string) : t :=
  mk (messages f) (batches f) (batch_mode f) (fail_latest f) (<[sequence := error]> (fail_get f)).
Definition clear_failures (f : t) : t := mk (messages f) (batches f) (batch_mode f) None ∅.

Definition batch_values (f : t) : list SignedBatch.t := (map_to_list (batches f)).*2.

(** Only the first batch whose range contains the number is searched. *)
Definition find_message_in_batches (f : t) (sequence : Z) : option SignedMessage.t :=
  match list_find (fun b => SignedBatch.start_sequence b <= sequence /\ sequence <= SignedBatch.end_sequence b)
          (batch_values f) with
  | Some (_, batch) => List.find (fun m => SignedMessage.sequence m =? sequence) (SignedBatch.messages batch)
  | None => None
  end.

Definition get (f : t) (sequence : Z) : result AnyError (option SignedMessage.t) :=
  match fail_get f !! sequence with
  | Some error => Err (Msg error)
  | None =>
      match messages f !! sequence with
      | Some msg => Ok (Some msg)
      | None => Ok (find_message_in_batches f sequence)
      end
  end.

(** [Iterator::max] *)
Fixpoint max_of (l : list Z) : option Z :=
  match l with
  | [] => None
  | x :: l' => match max_of l' with Some y => Some (Z.max x y) | None => Some x end
  end.

Definition get_latest_sequence (f : t) : result AnyError (option Z) :=
  match fail_latest f with
  | Some error => Err (Msg error)
  | None =>
      let msg_max := max_of (map_to_list (messages f)).*1 in
      let batch_max := max_of (map SignedBatch.end_sequence (batch_values f)) in
      Ok match msg_max, batch_max with
         | Some m, Some b => Some (Z.max m b)
         | Some m, None => Some m
         | None, Some b => Some b
         | None, None => None
         end
  end.

Definition info_of (b : SignedBatch.t) : BatchInfo.t :=
  BatchInfo.new (SignedBatch.start_sequence b) (SignedBatch.end_sequence b)
    (int_to_string (SignedBatch.start_sequence b)).
Definition list_batches (f : t) : result AnyError (list BatchInfo.t) :=
  Ok (sort_by_key BatchInfo.start_sequence (map info_of (batch_values f))).
Definition get_batch (f : t) (start_sequence : Z) : result AnyError (option SignedBatch.t) :=
  Ok (batches f !! start_sequence).
Definition get_batch_by_path (f : t) (path : string) : result AnyError (option SignedBatch.t) :=
  let? start_sequence := map_err (fun e => Msg ("Invalid batch path: " +:+ e)) (parse_uint u64_max path) in
  get_batch f start_sequence.
End MockFetcher.

#[export] Instance mock_storage_fetcher : StorageFetcher MockFetcher.t := {|
  supports_batches := MockFetcher.batch_mode;
  fetch_message := MockFetcher.get;
  fetch_latest := MockFetcher.get_latest_sequence;
  fetch_list := MockFetcher.list_batches;
  fetch_batch := MockFetcher.get_batch;
  fetch_batch_by_path := MockFetcher.get_batch_by_path;
|}.

(** *** Lemmas *)
Section lemmas.
Implicit Types (f : MockFetcher.t).

Lemma max_of_spec l : match MockFetcher.max_of l with Some x => x ∈ l /\ Forall (fun y => y <= x) l | None => l = [] end.
Proof.
  induction l as [|x l IH]; cbn; [done|]. destruct (MockFetcher.max_of l) as [y|].
  - destruct IH as [Hy Hl]. split; [destruct (Z.max_spec x y) as [[_ ->]|[_ ->]]; set_solver|].
    constructor; [lia|]. eapply Forall_impl; [exact Hl|]. cbn. lia.
  - subst l. split; [set_solver|]. by repeat constructor.
Qed.

Lemma get_add_message f m s :
  MockFetcher.fail_get f !! s = None ->
  MockFetcher.get (MockFetcher.add_message f m) s =
    if decide (SignedMessage.sequence m = s) then Ok (Some m) else MockFetcher.get f s.
Proof.
  intros Hf. unfold MockFetcher.get. cbn. rewrite Hf. case_decide as E.
  - by rewrite E, lookup_insert_eq.
  - by rewrite lookup_insert_ne.
Qed.

Lemma find_in_no_batches f s : MockFetcher.batches f = ∅ -> MockFetcher.find_message_in_batches f s = None.
Proof. intros H. unfold MockFetcher.find_message_in_batches, MockFetcher.batch_values. by rewrite H, map_to_list_empty. Qed.

(** Without batches and failures the fetcher is its map of messages. *)
Lemma get_plain f s :
  MockFetcher.batches f = ∅ -> MockFetcher.fail_get f = ∅ -> MockFetcher.get f s = Ok (MockFetcher.messages f !! s).
Proof.
  intros Hb Hf. unfold MockFetcher.get. rewrite Hf, lookup_empty, (find_in_no_batches f s Hb).
  by destruct (MockFetcher.messages f !! s).
Qed.
End lemmas.

(** ** The harness *)

Definition Chain : Type := list string.
(** [.context(msg)] *)
Definition ctx {A} (msg : string) (r : result Chain A) : result Chain A := map_err (cons msg) r.
Definition ctx_of {E A} (text : E -> string) (msg : string) (r : result E A) : result Chain A :=
  map_err (fun e => [msg; text e]) r.
Definition ctx_str {A} (msg : string) (r : result string A) : result Chain A := ctx_of id msg r.
(** [{:#}] *)
Definition chain_text (e : Chain) : string := join ": " e.

(** rusqlite on a connection.  Statements of a batch before one that fails have their
    effect. *)
Class Sql `{Session} := {
  open_in_memory : Db;
  execute_batch : Db -> string -> Db * result string unit;
  (** the user tables, as [sqlite_master] lists them *)
  user_tables : Db -> result string (list string);
  (** a query, each value as its [{:?}] text *)
  select_rows : Db -> string -> result string (list (list string));
}.

(** ** harness.rs: database snapshots *)

(** [BTreeMap<String, V>], by its sorted entries. *)
Fixpoint sorted_insert {V} (k : string) (v : V) (m : list (string * V)) : list (string * V) :=
  match m with
  | [] => [(k, v)]
  | (k', v') :: m' =>
      match String.compare k k' with
      | Lt => (k, v) :: m
      | Eq => (k, v) :: m'
      | Gt => (k', v') :: sorted_insert k v m'
      end
  end.
Fixpoint sorted_get {V} (k : string) (m : list (string * V)) : option V :=
  match m with [] => None | (k', v) :: m' => if decide (k = k') then Some v else sorted_get k m' end.

(** A double quote in the table's name is doubled. *)
Fixpoint double_quotes (s : string) : string :=
  match s with
  | EmptyString => EmptyString
  | String c s' => if decide (c = "034"%char) then String c (String c (double_quotes s')) else String c (double_quotes s')
  end.
Definition rows_query (table : string) : string :=
  "SELECT * FROM " +:+ String "034" (double_quotes table +:+ String "034" " ORDER BY rowid").

Module DatabaseSnapshot.
Record t := mk { tables : list (string * list string) }.
#[global] Instance t_eq_dec : EqDecision t.
Proof. solve_decision. Defined.

Section ops.
Context `{SE : Session} `{SQ : !Sql}.

Fixpoint collect (conn : Db) (names : list string) (acc : list (string * list string)) : result Chain t :=
  match names with
  | [] => Ok (mk acc)
  | name :: names' =>
      let? rows := map_err (fun e => [e]) (select_rows conn (rows_query name)) in
      collect conn names' (sorted_insert name (map (join ", ") rows) acc)
  end.
Definition from_connection (conn : Db) : result Chain t :=
  let? names := map_err (fun e => [e]) (user_tables conn) in collect conn names [].

Definition is_equivalent (a b : t) : bool := bool_decide (a = b).

Definition missing_text (table where_ : string) : string := "Table '" +:+ table +:+ "' missing in " +:+ where_.
Definition rows_text (table : string) (rows other_rows : list string) : string :=
  "Table '" +:+ table +:+ "': " +:+ int_to_string (Z.of_nat (length rows)) +:+ " rows vs "
  +:+ int_to_string (Z.of_nat (length other_rows)) +:+ " rows".
Definition diff (a b : t) : string :=
  let missing_in_other := omap (fun e => match sorted_get e.1 (tables b) with
                                         | None => Some (missing_text e.1 "other") | Some _ => None end) (tables a) in
  let missing_in_self := omap (fun e => match sorted_get e.1 (tables a) with
                                        | None => Some (missing_text e.1 "self") | Some _ => None end) (tables b) in
  let rows_differ := omap (fun e => match sorted_get e.1 (tables b) with
                                    | Some other_rows => if decide (e.2 = other_rows) then None
                                                         else Some (rows_text e.1 e.2 other_rows)
                                    | None => None end) (tables a) in
  join (String "010" EmptyString) (missing_in_other ++ missing_in_self ++ rows_differ).
End ops.
End DatabaseSnapshot.

(** ** harness.rs: the harness *)
Module E2EHarness.
Section ops.
Context `{HX : Hex} `{CR : Crypto} `{SG : !Signer} `{CS : Cose} `{CC : !CoseCodec} `{ZS : Zstd} `{SE : Session}.
Context `{SC : Serde ChangesetBatchRequest.t} `{SN : Serde SnapshotRequest.t} `{SWd : Serde WithdrawalRequest.t}.
Context `{CP : !Capture} `{SQ : !Sql}.

Record t := mk {
  source_conn : Db;
  inbox : Inbox.t;
  fetcher : MockFetcher.t;
  validator : Validator.t;
  pubkey : bytes;
}.
Definition with_source (h : t) (db : Db) : t := mk db (inbox h) (fetcher h) (validator h) (pubkey h).
Definition with_inbox (h : t) (ib : Inbox.t) : t := mk (source_conn h) ib (fetcher h) (validator h) (pubkey h).
Definition with_fetcher (h : t) (f : MockFetcher.t) : t := mk (source_conn h) (inbox h) f (validator h) (pubkey h).
Definition with_validator (h : t) (v : Validator.t) : t := mk (source_conn h) (inbox h) (fetcher h) v (pubkey h).

Definition replica (h : t) : Db := ChangesetApplier.conn (Validator.applier (validator h)).
Definition with_replica (h : t) (db : Db) : t :=
  with_validator h (Validator.with_applier (validator h)
                      (ChangesetApplier.with_conn (Validator.applier (validator h)) db)).

(** [random] is the key drawn by [EvmKeyManager::generate]. *)
Definition new (random : PrivateKeySigner) : t :=
  let key_manager := EvmKeyManager.generate random in
  let pubkey := EvmKeyManager.public_key key_manager in
  mk open_in_memory (Inbox.new key_manager) MockFetcher.new (Validator.in_memory pubkey open_in_memory) pubkey.

Definition current_sequence (h : t) : Z := Inbox.current_sequence (inbox h).

(** Numbers the fetcher does not have, or fails on, are left out. *)
Definition messages (h : t) : list SignedMessage.t :=
  omap (fun seq => match MockFetcher.get (fetcher h) seq with Ok (Some msg) => Some msg | _ => None end)
       (seqZ 0 (current_sequence h)).

Definition execute_ddl (h : t) (sql : string) : t * result Chain unit :=
  let '(db, r) := execute_batch (source_conn h) sql in
  (with_source h db, ctx_str "Failed to execute DDL on source" r).

Definition execute_dml (h : t) (sql : string) (n : nat) : t * result Chain bytes :=
  match (let? session := ctx_str "Failed to create session" (session_new (source_conn h) n) in
         ctx_str "Failed to attach session" (session_attach session n)) with
  | Ok session =>
      let '(db, r) := execute_batch (source_conn h) sql in
      (with_source h db,
       let? _ := ctx_str "Failed to execute DML on source" r in
       ctx_str "Failed to extract changeset" (changeset_strm session db n))
  | Err e => (h, Err e)
  | Panic w => (h, Panic w)
  end.

(** From the serialised request: number and sign it, and hand it to the fetcher. *)
Definition sequence_cbor (h : t) (now : Z) (ty : CborMessageType) (what : string) (cbor : bytes) : t * result Chain Z :=
  let '(ib, r) := Inbox.sequence_message (inbox h) now ty cbor in
  let h := with_inbox h ib in
  match (let? '(cbor_msg, receipt) := ctx_of InboxError_to_string ("Failed to sequence " +:+ what) r in
         let? vk := ctx_of CborError_to_string "Failed to parse public key" (verifying_key_from_bytes (pubkey h)) in
         let? signed_msg := ctx_of CborError_to_string "Failed to convert to SignedMessage" (to_signed_message cbor_msg vk) in
         Ok (signed_msg, SequenceReceipt.sequence receipt)) with
  | Ok (signed_msg, sequence) => (with_fetcher h (MockFetcher.add_message (fetcher h) signed_msg), Ok sequence)
  | Err e => (h, Err e)
  | Panic w => (h, Panic w)
  end.

Definition changeset_request (sequence now : Z) (changeset : bytes) : ChangesetBatchRequest.t :=
  ChangesetBatchRequest.mk ("test-batch-" +:+ int_to_string sequence) [ChangesetData.mk changeset sequence now] None.
Definition sequence_changeset (h : t) (now : Z) (changeset : bytes) : t * result Chain Z :=
  match ctx_str "Failed to serialize batch to CBOR" (ser (changeset_request (current_sequence h) now changeset)) with
  | Ok cbor => sequence_cbor h now Changeset "message" cbor
  | Err e => (h, Err e)
  | Panic w => (h, Panic w)
  end.

Definition execute_and_sequence (h : t) (now : Z) (sql : string) (n : nat) : t * result Chain Z :=
  match execute_dml h sql n with
  | (h1, Ok changeset) => sequence_changeset h1 now changeset
  | (h1, Err e) => (h1, Err e)
  | (h1, Panic w) => (h1, Panic w)
  end.

Definition snapshot_request (sequence now : Z) (snapshot_bytes : bytes) : SnapshotRequest.t :=
  SnapshotRequest.mk (SnapshotData.mk snapshot_bytes now sequence) ("snapshot-" +:+ int_to_string sequence) None.
Definition create_and_sequence_snapshot (h : t) (now : Z) (n : nat) : t * result Chain Z :=
  match (let? snapshot_bytes := map_err (fun e => [e]) (backup_bytes (source_conn h) n) in
         ctx_str "Failed to serialize snapshot to CBOR" (ser (snapshot_request (current_sequence h) now snapshot_bytes))) with
  | Ok cbor => sequence_cbor h now Snapshot "snapshot" cbor
  | Err e => (h, Err e)
  | Panic w => (h, Panic w)
  end.

(** Every turn of [sync_to_head] takes a number the fetcher has, so the fetcher's size
    is enough fuel. *)
Definition sync_fuel (h : t) : nat :=
  S (MockFetcher.len (fetcher h) + length (concat (map SignedBatch.messages (MockFetcher.batch_values (fetcher h))))).
Definition sync_validator (h : t) (now : Z) : t * option (result AnyError Z) :=
  let '(v, r) := Validator.sync_to_head (sync_fuel h) (validator h) (fetcher h) now in (with_validator h v, r).
Definition sync_validator_to (h : t) (now sequence : Z) : t * result AnyError bool :=
  let '(v, r) := Validator.sync_one (validator h) (fetcher h) now sequence in (with_validator h v, r).
Definition validator_last_sequence (h : t) : result AnyError (option Z) := Validator.last_sequence (validator h).
Definition pending_changeset_count (h : t) : Z := Validator.pending_changeset_count (validator h).

Definition snapshot_source_state (h : t) : result Chain DatabaseSnapshot.t := DatabaseSnapshot.from_connection (source_conn h).
Definition snapshot_replica_state (h : t) : result Chain DatabaseSnapshot.t := DatabaseSnapshot.from_connection (replica h).

(** The table names of the error text are left out. *)
Definition verify_consistency (h : t) : result Chain unit :=
  let? source := snapshot_source_state h in
  let? replica := snapshot_replica_state h in
  if bool_decide (source = replica) then Ok tt else Err ["State mismatch!"%string].

(** One batch of statements on both databases, with the contexts of its caller. *)
Definition execute_on_both (h : t) (sql on_source on_replica : string) : t * result Chain unit :=
  let '(db, r) := execute_batch (source_conn h) sql in
  let h := with_source h db in
  match ctx_str on_source r with
  | Ok _ => let '(db', r') := execute_batch (replica h) sql in (with_replica h db', ctx_str on_replica r')
  | e => (h, e)
  end.
Definition setup_schema (h : t) (sql : string) : t * result Chain unit :=
  execute_on_both h sql "Failed to setup schema on source" "Failed to setup schema on replica".
End ops.
Arguments t {_ _ _}.
End E2EHarness.

(** ** invariants.rs *)
Inductive InvariantViolation :=
| SequenceNotMonotonic (prev_sequence curr_sequence : Z)
| SequenceGapViolation (expected actual : Z)
| InvalidSignatureAt (sequence : Z) (error : string)
| SignerMismatchAt (sequence : Z) (expected actual : string)
| StateInconsistent (diff : string)
| ChangesetNotInvertible (sequence : Z) (error : string).

Definition violation_to_string (v : InvariantViolation) : string :=
  match v with
  | SequenceNotMonotonic prev curr => "Sequence not monotonic: " +:+ int_to_string prev +:+ " -> " +:+ int_to_string curr
  | SequenceGapViolation expected actual =>
      "Sequence gap: expected " +:+ int_to_string expected +:+ ", got " +:+ int_to_string actual
  | InvalidSignatureAt sequence error => "Invalid signature at sequence " +:+ int_to_string sequence +:+ ": " +:+ error
  | SignerMismatchAt sequence expected actual =>
      "Signer mismatch at sequence " +:+ int_to_string sequence +:+ ": expected " +:+ expected +:+ ", got " +:+ actual
  | StateInconsistent diff => "State inconsistent: " +:+ diff
  | ChangesetNotInvertible sequence error =>
      "Changeset at sequence " +:+ int_to_string sequence +:+ " not invertible: " +:+ error
  end.

(** [messages.windows(2)] *)
Fixpoint check_windows (prev : Z) (sequences : list Z) : list InvariantViolation :=
  match sequences with
  | [] => []
  | curr :: sequences' =>
      (if curr <=? prev then [SequenceNotMonotonic prev curr] else [])
      ++ (if curr =? u64_add prev 1 then [] else [SequenceGapViolation (u64_add prev 1) curr])
      ++ check_windows curr sequences'
  end.

Section invariants.
Context `{HX : Hex} `{CR : Crypto} `{SG : !Signer} `{CS : Cose} `{CC : !CoseCodec} `{ZS : Zstd} `{SE : Session}.
Context `{SC : Serde ChangesetBatchRequest.t} `{SN : Serde SnapshotRequest.t} `{SWd : Serde WithdrawalRequest.t}.
Context `{CP : !Capture} `{SQ : !Sql}.

Definition sequence_invariants (h : E2EHarness.t) : list InvariantViolation :=
  match map SignedMessage.sequence (E2EHarness.messages h) with
  | [] => []
  | first :: sequences =>
      (if first =? 0 then [] else [SequenceGapViolation 0 first]) ++ check_windows first sequences
  end.

Definition signature_invariants (h : E2EHarness.t) : list InvariantViolation :=
  let expected_pubkey := hex0x (E2EHarness.pubkey h) in
  omap (fun m => if decide (SignedMessage.signer m = expected_pubkey) then None
                 else Some (SignerMismatchAt (SignedMessage.sequence m) expected_pubkey (SignedMessage.signer m)))
       (E2EHarness.messages h).

Definition consistency_invariants (h : E2EHarness.t) : list InvariantViolation :=
  match E2EHarness.snapshot_source_state h, E2EHarness.snapshot_replica_state h with
  | Ok source, Ok replica =>
      if DatabaseSnapshot.is_equivalent source replica then []
      else [StateInconsistent (DatabaseSnapshot.diff source replica)]
  | Err e, _ => [StateInconsistent ("Failed to snapshot source: " +:+ default EmptyString (head e))]
  | _, Err e => [StateInconsistent ("Failed to snapshot replica: " +:+ default EmptyString (head e))]
  | _, _ => []
  end.

(** Only decompression is checked. *)
Definition can_invert_changeset (data : bytes) : result string unit :=
  match zstd_decode data with Ok _ => Ok tt | Err e => Err ("Failed to decompress: " +:+ e) | Panic w => Panic w end.
Definition chain_invariants (h : E2EHarness.t) : list InvariantViolation :=
  omap (fun m => match SignedMessage.message_type m with
                 | MessageType.Changeset =>
                     match can_invert_changeset (SignedMessage.payload m) with
                     | Err e => Some (ChangesetNotInvertible (SignedMessage.sequence m) e)
                     | _ => None
                     end
                 | _ => None
                 end) (E2EHarness.messages h).

Definition check_all_invariants (h : E2EHarness.t) : list InvariantViolation :=
  sequence_invariants h ++ signature_invariants h ++ consistency_invariants h ++ chain_invariants h.
End invariants.

(** ** faults.rs *)
Inductive CorruptionType := BitFlip | Truncate (keep_bytes : nat) | CorruptCbor | ZeroOut.
Inductive Fault :=
| MessageFetchFailure (sequence : Z) (error_message : string)
| LatestSequenceFailure (error_message : string)
| ClearFailures
| CorruptPayload (sequence : Z) (corruption_type : CorruptionType)
| SwapMessages (sequence1 sequence2 : Z)
| DuplicateMessage (source_sequence target_sequence : Z)
| WrongSigner (sequence : Z) (fake_signer : string)
| CreateSequenceGap (gap_at : Z).

Definition flip_byte (b : byte) : byte := byte_of_Z (255 - Z_of_byte b).
Definition corrupt_payload (payload : bytes) (c : CorruptionType) : bytes :=
  match c with
  | BitFlip => match payload with [] => [] | b :: payload' => flip_byte b :: payload' end
  | Truncate keep_bytes => take keep_bytes payload
  | CorruptCbor => [xff; xff] ++ payload
  | ZeroOut => replicate (length payload) x00
  end.

Definition set_payload (m : SignedMessage.t) (payload : bytes) : SignedMessage.t :=
  SignedMessage.mk (SignedMessage.sequence m) (SignedMessage.timestamp m) (SignedMessage.message_type m) payload
    (SignedMessage.message_hash m) (SignedMessage.signature m) (SignedMessage.signer m) (SignedMessage.cose_protected_header m).
Definition set_sequence (m : SignedMessage.t) (sequence : Z) : SignedMessage.t :=
  SignedMessage.mk sequence (SignedMessage.timestamp m) (SignedMessage.message_type m) (SignedMessage.payload m)
    (SignedMessage.message_hash m) (SignedMessage.signature m) (SignedMessage.signer m) (SignedMessage.cose_protected_header m).
Definition set_signer (m : SignedMessage.t) (signer : string) : SignedMessage.t :=
  SignedMessage.mk (SignedMessage.sequence m) (SignedMessage.timestamp m) (SignedMessage.message_type m) (SignedMessage.payload m)
    (SignedMessage.message_hash m) (SignedMessage.signature m) signer (SignedMessage.cose_protected_header m).
Definition tamper_sequence := set_sequence.

Definition tamper_signature `{Hex} (signature : string) : string :=
  match strip_prefix "0x" signature with
  | Some hex_str =>
      match hex_decode hex_str with
      | Ok bytes => hex0x (match rev bytes with [] => [] | b :: r => rev (flip_byte b :: r) end)
      | _ => signature
      end
  | None => signature
  end.

(** The messages from 0 up to the first one missing; at most all of them. *)
Fixpoint collect_messages (fuel : nat) (f : MockFetcher.t) (seq : Z) : list SignedMessage.t :=
  match fuel with
  | O => []
  | S fuel' =>
      match MockFetcher.get f seq with
      | Ok (Some msg) => msg :: collect_messages fuel' f (u64_add seq 1)
      | _ => []
      end
  end.
Definition collect_fuel (f : MockFetcher.t) : nat :=
  S (MockFetcher.len f + length (concat (map SignedBatch.messages (MockFetcher.batch_values f)))).

Definition inject_into (f : MockFetcher.t) (fault : Fault) : MockFetcher.t :=
  match fault with
  | MessageFetchFailure sequence error_message => MockFetcher.set_fail_get f sequence error_message
  | LatestSequenceFailure error_message => MockFetcher.set_fail_latest f error_message
  | ClearFailures => MockFetcher.clear_failures f
  | CorruptPayload sequence corruption =>
      match MockFetcher.get f sequence with
      | Ok (Some msg) =>
          MockFetcher.add_message (MockFetcher.clear f) (set_payload msg (corrupt_payload (SignedMessage.payload msg) corruption))
      | _ => f
      end
  | SwapMessages sequence1 sequence2 =>
      match MockFetcher.get f sequence1, MockFetcher.get f sequence2 with
      | Ok (Some m1), Ok (Some m2) =>
          MockFetcher.add_message
            (MockFetcher.add_message (MockFetcher.clear f) (set_sequence m1 (SignedMessage.sequence m2)))
            (set_sequence m2 (SignedMessage.sequence m1))
      | _, _ => f
      end
  | DuplicateMessage source_sequence target_sequence =>
      match MockFetcher.get f source_sequence with
      | Ok (Some msg) => MockFetcher.add_message f (set_sequence msg target_sequence)
      | _ => f
      end
  | WrongSigner sequence fake_signer =>
      match MockFetcher.get f sequence with
      | Ok (Some msg) => MockFetcher.add_message (MockFetcher.clear f) (set_signer msg fake_signer)
      | _ => f
      end
  | CreateSequenceGap gap_at =>
      let ms := collect_messages (collect_fuel f) f 0 in
      MockFetcher.add_messages (MockFetcher.clear f)
        (map (fun m => if gap_at <=? SignedMessage.sequence m
                       then set_sequence m (u64_add (SignedMessage.sequence m) 1) else m) ms)
  end.
Definition inject_fault `{Crypto} `{!Signer} `{Session} (h : E2EHarness.t) (fault : Fault) : E2EHarness.t :=
  E2EHarness.with_fetcher h (inject_into (E2EHarness.fetcher h) fault).
