(* ===== verification/Scenarios.v ===== *)
(** * Generated SQL and scenarios (crates/synddb-fuzzer/src/operations.rs,
    crates/synddb-e2e-fuzzer/src/scenarios.rs, replay.rs)

    The operations the fuzzers generate and the text they become, with a scanner for
    SQL literals against which the text is proved to be read back; what a scenario is,
    how the strategies put one together from what they draw, how it runs on the harness,
    and the seeded test.  The random generator is a class. *)
From Stdlib Require Import Ascii Strings.Byte Floats.SpecFloat.
From S2P Require Import Prelude RustStd Extern Cose SignedTypes Inbox StateStore Applier Validator.
From S2P Require Import ClientSession Harness.

(** ** Numbers as text *)

(** All decimal digits of a natural number. *)
Definition nat_digits (n : Z) : string := dec_digits (S (Z.to_nat (Z.log2 n))) n EmptyString.

(** The integer nearest to [a / b], ties to even. *)
Definition div_round_even (a b : Z) : Z :=
  let q := a / b in
  let r := a mod b in
  if 2 * r <? b then q else if b <? 2 * r then q + 1 else if Z.even q then q else q + 1.

(** [format!("{:.15}", f)] of a finite [f64], whose value is [m * 2^e]. *)
Definition fixed15 (negative : bool) (m : Z) (e : Z) : string :=
  let scaled := if 0 <=? e then m * 2 ^ e * 10 ^ 15 else div_round_even (m * 10 ^ 15) (2 ^ (- e)) in
  (if negative then "-" else "") +:+ nat_digits (scaled / 10 ^ 15) +:+ "."
  +:+ pad_zeros 15 (int_to_string (scaled mod 10 ^ 15)).

(** ** Values *)
Inductive SqlValue :=
| SqlNull
| SqlInteger (i : Z)
| SqlReal (f : spec_float)
| SqlText (s : string)
| SqlBlob (b : bytes).

(** [s.replace('\'', "''")] *)
Fixpoint escape_text (s : string) : string :=
  match s with
  | EmptyString => EmptyString
  | String c s' => if decide (c = "'"%char) then String c (String c (escape_text s')) else String c (escape_text s')
  end.

Definition to_sql_literal `{Hex} (v : SqlValue) : string :=
  match v with
  | SqlNull => "NULL"
  | SqlInteger i => int_to_string i
  | SqlReal S754_nan | SqlReal (S754_infinity _) => "NULL"
  | SqlReal (S754_zero negative) => fixed15 negative 0 0
  | SqlReal (S754_finite negative m e) => fixed15 negative (Zpos m) e
  | SqlText s => "'" +:+ escape_text s +:+ "'"
  | SqlBlob b => "X'" +:+ hex_encode b +:+ "'"
  end.

(** ** Definitions *)
Inductive ColumnType := ColInteger | ColReal | ColText | ColBlob | ColAny.
Definition column_type_to_sql (t : ColumnType) : string :=
  match t with
  | ColInteger => "INTEGER" | ColReal => "REAL" | ColText => "TEXT" | ColBlob => "BLOB" | ColAny => ""
  end.

Module ColumnDef.
Record t := mk { name : string; col_type : ColumnType; nullable : bool; primary_key : bool }.
Definition to_sql (c : t) : string :=
  let type_str := column_type_to_sql (col_type c) in
  join " " ([name c] ++ (if decide (type_str = EmptyString) then [] else [type_str])
            ++ (if primary_key c then ["PRIMARY KEY"%string] else [])
            ++ (if negb (nullable c) && negb (primary_key c) then ["NOT NULL"%string] else [])).
End ColumnDef.

Inductive DdlOperation :=
| CreateTable (table_name : string) (columns : list ColumnDef.t) (if_not_exists : bool)
| DropTable (table_name : string) (if_exists : bool)
| CreateIndex (index_name table_name : string) (columns : list string) (unique : bool)
| DropIndex (index_name : string) (if_exists : bool).
Definition ddl_to_sql (op : DdlOperation) : string :=
  match op with
  | CreateTable table_name columns if_not_exists =>
      "CREATE TABLE" +:+ (if if_not_exists then " IF NOT EXISTS" else "") +:+ " " +:+ table_name +:+ " ("
      +:+ join ", " (map ColumnDef.to_sql columns) +:+ ")"
  | DropTable table_name if_exists => "DROP TABLE" +:+ (if if_exists then " IF EXISTS" else "") +:+ " " +:+ table_name
  | CreateIndex index_name table_name columns unique =>
      "CREATE" +:+ (if unique then " UNIQUE" else "") +:+ " INDEX " +:+ index_name +:+ " ON " +:+ table_name +:+ " ("
      +:+ join ", " columns +:+ ")"
  | DropIndex index_name if_exists => "DROP INDEX" +:+ (if if_exists then " IF EXISTS" else "") +:+ " " +:+ index_name
  end.

Inductive DmlOperation :=
| InsertOp (table_name : string) (columns : list string) (values : list SqlValue)
| UpdateOp (table_name set_column : string) (set_value : SqlValue) (where_column : string) (where_value : SqlValue)
| DeleteOp (table_name where_column : string) (where_value : SqlValue).
Definition dml_to_sql `{Hex} (op : DmlOperation) : string :=
  match op with
  | InsertOp table_name columns values =>
      "INSERT INTO " +:+ table_name +:+ " (" +:+ join ", " columns +:+ ") VALUES ("
      +:+ join ", " (map to_sql_literal values) +:+ ")"
  | UpdateOp table_name set_column set_value where_column where_value =>
      "UPDATE " +:+ table_name +:+ " SET " +:+ set_column +:+ " = " +:+ to_sql_literal set_value +:+ " WHERE "
      +:+ where_column +:+ " = " +:+ to_sql_literal where_value
  | DeleteOp table_name where_column where_value =>
      "DELETE FROM " +:+ table_name +:+ " WHERE " +:+ where_column +:+ " = " +:+ to_sql_literal where_value
  end.

Inductive SqlOperation := Ddl (op : DdlOperation) | Dml (op : DmlOperation) | BeginTransaction | CommitOp | RollbackOp.
Definition sql_to_sql `{Hex} (op : SqlOperation) : string :=
  match op with
  | Ddl op => ddl_to_sql op
  | Dml op => dml_to_sql op
  | BeginTransaction => "BEGIN"
  | CommitOp => "COMMIT"
  | RollbackOp => "ROLLBACK"
  end.

Module OperationSequence.
Definition t : Type := list SqlOperation.
Definition new : t := [].
Definition push (s : t) (op : SqlOperation) : t := s ++ [op].
End OperationSequence.

(** ** Reading literals back *)

(** A text literal as SQLite reads it, after the opening quote: up to a quote that is
    not doubled. *)
Fixpoint scan_text (s : string) : option (string * string) :=
  match s with
  | EmptyString => None
  | String c s' =>
      if decide (c = "'"%char) then
        match s' with
        | String c' s'' =>
            if decide (c' = "'"%char) then '(text, rest) ← scan_text s''; Some (String c' text, rest)
            else Some (EmptyString, s')
        | EmptyString => Some (EmptyString, EmptyString)
        end
      else '(text, rest) ← scan_text s'; Some (String c text, rest)
  end.
Definition scan_literal (s : string) : option (string * string) :=
  match s with String c s' => if decide (c = "'"%char) then scan_text s' else None | EmptyString => None end.

(** Whatever text a generated statement carries, its literal is read back as that text,
    and what follows it in the statement stays outside: no value ends its literal
    early. *)
Theorem text_literal_read_back `{Hex} (s rest : string) :
  starts_with "'" rest = false -> scan_literal (to_sql_literal (SqlText s) +:+ rest) = Some (s, rest).
Proof.
  intros Hr. cbn [to_sql_literal]. rewrite !string_app_assoc.
  change (scan_text (escape_text s +:+ String "'" rest) = Some (s, rest)).
  induction s as [|c s IH].
  - change (scan_text (String "'" rest) = Some (EmptyString, rest)). cbn. rewrite decide_True by done.
    destruct rest as [|c' rest]; [done|]. rewrite decide_False; [done|]. intros ->.
    unfold starts_with in Hr. cbn in Hr. by rewrite decide_True in Hr.
  - cbn [escape_text]. case_decide as Hc.
    + subst c. rewrite !string_app_cons. cbn [scan_text]. rewrite !decide_True by done. by rewrite IH.
    + rewrite string_app_cons. cbn [scan_text]. rewrite decide_False by done. by rewrite IH.
Qed.

(** ** Scenarios *)

Inductive E2EAction := ExecuteDml (op : DmlOperation) | SyncValidator | ExecuteDdl (sql : string).
Module E2EScenario.
Record t := mk { schema : string; initial_data : list string; actions : list E2EAction }.

Definition single_table (table_name : string) (operations : list DmlOperation) : t :=
  mk ("CREATE TABLE " +:+ table_name +:+ " (id INTEGER PRIMARY KEY, value INTEGER, name TEXT)")
     ["INSERT INTO " +:+ table_name +:+ " VALUES (1, 0, 'initial')"]
     (map ExecuteDml operations).
End E2EScenario.

(** ** The strategies' [prop_map] closures, on the values drawn *)
Definition test_schema : string := "CREATE TABLE test_table (id INTEGER PRIMARY KEY, value INTEGER, name TEXT)".
Definition insert_row (i : Z) (name : string) : string :=
  "INSERT INTO test_table VALUES (" +:+ int_to_string i +:+ ", 0, '" +:+ name +:+ "')".
Definition user_rows (n : Z) : list string := map (fun i => insert_row i ("user" +:+ int_to_string i)) (seqZ 1 n).

Definition update_operation (table : string) (id : Z) (value : SqlValue) : DmlOperation :=
  UpdateOp table "value" value "id" (SqlInteger id).
Definition insert_operation (table : string) (id : Z) (value : SqlValue) (name : string) : DmlOperation :=
  let value_int := match value with SqlInteger i => i | _ => 0 end in
  InsertOp table ["id"; "value"; "name"]%string [SqlInteger id; SqlInteger value_int; SqlText name].
Definition delete_operation (table : string) (id : Z) : DmlOperation := DeleteOp table "id" (SqlInteger id).

Definition simple_scenario (actions : list E2EAction) : E2EScenario.t :=
  E2EScenario.mk test_schema [insert_row 1 "alice"; insert_row 2 "bob"; insert_row 3 "charlie"] actions.

(** The operations from number [i] on, with a sync after those [sync_at] picks. *)
Fixpoint interleave (sync_at : Z -> bool) (i : Z) (ops : list DmlOperation) : list E2EAction :=
  match ops with
  | [] => [SyncValidator]
  | op :: ops' => ExecuteDml op :: (if sync_at i then [SyncValidator] else []) ++ interleave sync_at (i + 1) ops'
  end.
Definition multi_sync_scenario (ops : list DmlOperation) : E2EScenario.t :=
  E2EScenario.mk test_schema [insert_row 1 "alice"; insert_row 2 "bob"]
    (interleave (fun i => (i + 1) mod 3 =? 0) 0 ops).
Definition high_volume_scenario (ops : list DmlOperation) : E2EScenario.t :=
  E2EScenario.mk test_schema (user_rows 50) (map ExecuteDml ops ++ [SyncValidator]).
Definition stress_scenario (ops : list DmlOperation) : E2EScenario.t :=
  E2EScenario.mk test_schema (user_rows 100) (interleave (fun i => (i mod 17 =? 0) || (i mod 23 =? 0)) 0 ops).
Definition large_payload_scenario (drawn : list (Z * string)) : E2EScenario.t :=
  E2EScenario.mk test_schema (user_rows 50)
    (map (fun '(id, large_text) => ExecuteDml (UpdateOp "test_table" "name" (SqlText large_text) "id" (SqlInteger id))) drawn
     ++ [SyncValidator]).
Definition churn_scenario (ids : list Z) : E2EScenario.t :=
  E2EScenario.mk test_schema [insert_row 1 "anchor"]
    (concat (map (fun id =>
       [ExecuteDml (InsertOp "test_table" ["id"; "value"; "name"]%string [SqlInteger id; SqlInteger 0; SqlText "temp"]);
        ExecuteDml (DeleteOp "test_table" "id" (SqlInteger id))]) ids)
     ++ [SyncValidator]).

(** ** Running a scenario *)
Definition expected_failure (err_str : string) : bool :=
  contains "UNIQUE constraint" err_str || contains "NOT NULL constraint" err_str
  || contains "FOREIGN KEY constraint" err_str || contains "no such table" err_str
  || contains "changeset is empty" err_str.

Section run.
Context `{HX : Hex} `{CR : Crypto} `{SG : !Signer} `{CS : Cose} `{CC : !CoseCodec} `{ZS : Zstd} `{SE : Session}.
Context `{SC : Serde ChangesetBatchRequest.t} `{SN : Serde SnapshotRequest.t} `{SWd : Serde WithdrawalRequest.t}.
Context `{CP : !Capture} `{SQ : !Sql}.

Fixpoint insert_initial (h : E2EHarness.t) (statements : list string) : E2EHarness.t * result Chain unit :=
  match statements with
  | [] => (h, Ok tt)
  | sql :: statements' =>
      match E2EHarness.execute_on_both h sql "Failed to insert initial data on source"
              "Failed to insert initial data on replica" with
      | (h1, Ok _) => insert_initial h1 statements'
      | e => e
      end
  end.

(** One action, at time [now]; [n] numbers it.  [None] from the sync would mean that its
    fuel ran out. *)
Definition run_action (h : E2EHarness.t) (now : Z) (n : nat) (action : E2EAction) : E2EHarness.t * result Chain unit :=
  match action with
  | ExecuteDml op =>
      match E2EHarness.execute_and_sequence h now (dml_to_sql op) n with
      | (h1, Ok _) => (h1, Ok tt)
      | (h1, Err e) => (h1, if expected_failure (chain_text e) then Ok tt else Err e)
      | (h1, Panic w) => (h1, Panic w)
      end
  | SyncValidator =>
      match E2EHarness.sync_validator h now with
      | (h1, Some (Ok _)) => (h1, Ok tt)
      | (h1, Some (Err e)) => (h1, Err ["Failed to sync validator"; AnyError_to_string e]%string)
      | (h1, Some (Panic w)) => (h1, Panic w)
      | (h1, None) => (h1, Panic "out of fuel")
      end
  | ExecuteDdl sql =>
      let '(h1, r) := E2EHarness.execute_ddl h sql in (h1, ctx "Failed to execute DDL" r)
  end.
Fixpoint run_actions (h : E2EHarness.t) (clock : nat -> Z) (n : nat) (actions : list E2EAction)
  : E2EHarness.t * result Chain unit :=
  match actions with
  | [] => (h, Ok tt)
  | action :: actions' =>
      match run_action h (clock n) n action with
      | (h1, Ok _) => run_actions h1 clock (S n) actions'
      | e => e
      end
  end.

Definition execute_scenario (h : E2EHarness.t) (scenario : E2EScenario.t) (clock : nat -> Z)
  : E2EHarness.t * result Chain unit :=
  match E2EHarness.setup_schema h (E2EScenario.schema scenario) with
  | (h1, Ok _) =>
      match insert_initial h1 (E2EScenario.initial_data scenario) with
      | (h2, Ok _) => run_actions h2 clock 0 (E2EScenario.actions scenario)
      | e => e
      end
  | (h1, r) => (h1, ctx "Failed to setup schema" r)
  end.
End run.

(** ** replay.rs: seeded scenarios *)
Class Rng := {
  RngState : Type;
  seed_from_u64 : Z -> RngState;
  (** [random_range(lo..hi)] *)
  random_range : Z -> Z -> RngState -> Z * RngState;
  sample_alphanumeric : RngState -> ascii * RngState;
}.

Section seeded.
Context `{RG : Rng}.

Fixpoint sample_name (n : nat) (rng : RngState) : string * RngState :=
  match n with
  | O => (EmptyString, rng)
  | S n' =>
      let '(c, rng) := sample_alphanumeric rng in
      let '(s, rng) := sample_name n' rng in (String c s, rng)
  end.

Definition seeded_action (rng : RngState) : E2EAction * RngState :=
  let '(action_type, rng) := random_range 0 10 rng in
  if action_type <? 4 then
    let '(id, rng) := random_range 1 50 rng in
    let '(value, rng) := random_range (-1000) 1000 rng in
    (ExecuteDml (UpdateOp "test_table" "value" (SqlInteger value) "id" (SqlInteger id)), rng)
  else if action_type <? 7 then
    let '(id, rng) := random_range 100 1000 rng in
    let '(value, rng) := random_range 0 1000 rng in
    let '(name, rng) := sample_name 8 rng in
    (ExecuteDml (InsertOp "test_table" ["id"; "value"; "name"]%string [SqlInteger id; SqlInteger value; SqlText name]), rng)
  else if action_type <? 8 then
    let '(id, rng) := random_range 1 50 rng in
    (ExecuteDml (DeleteOp "test_table" "id" (SqlInteger id)), rng)
  else (SyncValidator, rng).
Fixpoint seeded_actions (n : nat) (rng : RngState) : list E2EAction :=
  match n with
  | O => []
  | S n' => let '(a, rng) := seeded_action rng in a :: seeded_actions n' rng
  end.

Definition scenario_from_seed (seed : Z) : E2EScenario.t :=
  let '(num_ops, rng) := random_range 5 30 (seed_from_u64 seed) in
  let actions := seeded_actions (Z.to_nat num_ops) rng in
  let actions := match last actions with Some SyncValidator => actions | _ => actions ++ [SyncValidator] end in
  E2EScenario.mk test_schema (user_rows 10) actions.

Context `{HX : Hex} `{CR : Crypto} `{SG : !Signer} `{CS : Cose} `{CC : !CoseCodec} `{ZS : Zstd} `{SE : Session}.
Context `{SC : Serde ChangesetBatchRequest.t} `{SN : Serde SnapshotRequest.t} `{SWd : Serde WithdrawalRequest.t}.
Context `{CP : !Capture} `{SQ : !Sql}.

(** In the error, a violation stands as its [Display] text where the source prints its
    [Debug] form; what is printed to the terminal is left out. *)
Definition run_seeded_test (random : PrivateKeySigner) (clock : nat -> Z) (seed : Z) : result Chain unit :=
  let '(h, r) := execute_scenario (E2EHarness.new random) (scenario_from_seed seed) clock in
  let? _ := r in
  match check_all_invariants h with
  | [] => Ok tt
  | violations => Err ["Invariant violations with seed " +:+ int_to_string seed +:+ ": "
                        +:+ join ", " (map violation_to_string violations)]
  end.
End seeded.
