(* ===== verification/HarnessProps.v ===== *)
(** * Properties of the end-to-end harness

    The parts of the system composed as the fuzzer composes them: statements recorded by
    a session, numbered and signed by the inbox, kept by the fetcher, verified and
    applied by the validator.  Without faults a scenario that ends in a sync leaves
    source and replica equal and no invariant violated; with faults injected, the
    replica is always the source's database at the number recorded last, unless a
    corrupted payload comes with a signature that fits it. *)
From Stdlib Require Import Ascii Strings.Byte.
From S2P Require Import Prelude RustStd BTree Batches Extern Cose CborBatches SignedTypes WireProps Inbox SyncIndex.
From S2P Require Import StateStore Applier AuditTrail Validator ValidatorProps Replay Net Outbound.
From S2P Require Import BootClients Bootstrap ClientSender ClientSession ClientProps ClientCapture SeqApi Harness Scenarios.

(** ** What is assumed of SQLite *)

(** A name that ends neither the statement nor a literal. *)
Definition identifier_char (c : ascii) : bool :=
  let n := nat_of_ascii c in
  ((48 <=? n) && (n <=? 57) || (65 <=? n) && (n <=? 90) || (97 <=? n) && (n <=? 122))%nat || bool_decide (c = "_"%char).
Definition identifier (s : string) : bool := string_all identifier_char s && negb (bool_decide (s = EmptyString)).
Definition plain_dml (op : DmlOperation) : bool :=
  match op with
  | InsertOp table columns _ => identifier table && forallb identifier columns
  | UpdateOp table set_column _ where_column _ => identifier table && identifier set_column && identifier where_column
  | DeleteOp table where_column _ => identifier table && identifier where_column
  end.

(** [keyed]: every table has an INTEGER PRIMARY KEY.  A generated statement is one
    statement: it takes effect or it does not, and it changes rows only. *)
Class HarnessLaws `{HX : Hex} `{SE : Session} `{CP : !Capture} `{SQ : !Sql} `{CL : !CaptureLaws} := {
  keyed : Db -> Prop;
  dml_tracked op db db' :
    plain_dml op = true -> keyed db -> execute_batch db (dml_to_sql op) = (db', Ok tt) -> tracked db db' /\ keyed db';
  dml_atomic op db db' r :
    plain_dml op = true -> execute_batch db (dml_to_sql op) = (db', r) -> is_ok r = false -> db' = db;
  (** the changes recorded can be read *)
  changes_read x b n : tracked (base x) b -> exists d, changeset_strm x b n = Ok d;
  (** a backup restored over any database is the database backed up *)
  backup_restores db n b db' : backup_bytes db n = Ok b -> restore_backup db' b = Ok db;
  tx_begins db : begin_tx db = Ok tt;
  tx_commits db : commit_tx db = Ok tt;
}.

(** Their integers are [u64]s. *)
Definition batch_u64 (r : ChangesetBatchRequest.t) : Prop :=
  Forall (fun c => is_u64 (ChangesetData.sequence c) /\ is_u64 (ChangesetData.timestamp c)) (ChangesetBatchRequest.changesets r).
Definition snapshot_u64 (r : SnapshotRequest.t) : Prop :=
  is_u64 (SnapshotData.sequence (SnapshotRequest.snapshot r)) /\ is_u64 (SnapshotData.timestamp (SnapshotRequest.snapshot r)).

Section harness.
Context `{HX : Hex} `{CR : Crypto} `{SG : !Signer} `{CS : Cose} `{CC : !CoseCodec} `{ZS : Zstd} `{SE : Session}.
Context `{SC : Serde ChangesetBatchRequest.t} `{SN : Serde SnapshotRequest.t} `{SWd : Serde WithdrawalRequest.t}.
Context `{CP : !Capture} `{SQ : !Sql}.
Context {HL : HexLaws} {YL : CryptoLaws} {GL : SignerLaws} {KL : CoseLaws} {ZL : ZstdLaws}.
Context {SCL : SerdeLaws ChangesetBatchRequest.t batch_u64} {SNL : SerdeLaws SnapshotRequest.t snapshot_u64}.
Context `{CPL : !CaptureLaws} `{WL : !HarnessLaws}.
Import E2EHarness.

(** ** Messages and what they do *)

(** A payload of this type takes the database [a] to [b]. *)
Definition reads (ty : MessageType.t) (p : bytes) (a b : Db) : Prop :=
  match ty with
  | MessageType.Changeset => exists batch, de p = Ok batch /\ forall sequence batch_id i,
      ChangesetApplier.apply_changesets sequence batch_id i a (ChangesetBatchRequest.changesets batch) = Ok b
  | MessageType.Snapshot => exists request, de p = Ok request /\
      forall db, restore_backup db (SnapshotData.data (SnapshotRequest.snapshot request)) = Ok b
  | MessageType.Withdrawal => False
  end.
Definition carries (m : SignedMessage.t) (a b : Db) : Prop :=
  exists p, zstd_decode (SignedMessage.payload m) = Ok p /\ reads (SignedMessage.message_type m) p a b.

(** The harness's validator: no rules, nothing pending, its replica in memory. *)
Record plain (v : Validator.t) (d : Db) : Prop := {
  plain_conn : ChangesetApplier.conn (Validator.applier v) = d;
  plain_type : ChangesetApplier.db_type (Validator.applier v) = InMemoryDb;
  plain_rules : Validator.rules v = None;
  plain_pending : PendingChangesetStore.count (Validator.pending_store v) = 0;
}.

Lemma carries_apply v now m a b :
  carries m a b -> plain v a ->
  exists v', Validator.apply_and_record v now m = (v', Ok tt) /\ plain v' b /\
    Validator.verifier v' = Validator.verifier v /\
    Validator.state v' = StateStore.record_sync (Validator.state v) now (SignedMessage.sequence m).
Proof using WL.
  intros (p & Hp & Hr) [Hc Ht Hru Hpe].
  assert (exists v', Validator.apply_message_with_audit v m = (v', Ok Applied) /\ plain v' b /\
    Validator.verifier v' = Validator.verifier v /\ Validator.state v' = Validator.state v) as (v' & E & P & Hv & Hs).
  { unfold Validator.apply_message_with_audit, ChangesetApplier.apply_message_with_rules. rewrite Hru.
    destruct (SignedMessage.message_type m); [| done |]; destruct Hr as (r & Hd & Hr).
    - unfold ChangesetApplier.apply_changeset_message_with_rules, ChangesetApplier.decompress_and_parse,
        ChangesetApplier.decompress, context. rewrite Hp. cbn [map_err result_bind]. rewrite Hd. cbn [map_err result_bind].
      rewrite tx_begins. cbn [map_err result_bind]. rewrite Hc, Hr. cbn [map_err result_bind].
      rewrite tx_commits. cbn [map_err result_bind]. eexists. split; [reflexivity|]. by split_and!.
    - unfold ChangesetApplier.apply_snapshot_message, ChangesetApplier.restore_snapshot,
        ChangesetApplier.decompress_and_parse, ChangesetApplier.decompress, context.
      rewrite Hp. cbn [map_err result_bind]. rewrite Hd. cbn [map_err result_bind]. rewrite Hr, Ht.
      unfold Validator.verify_pending_changesets_after_snapshot. cbn [Validator.pending_store Validator.with_applier].
      rewrite Hpe. cbn. eexists. split; [reflexivity|]. by split_and!. }
  unfold Validator.apply_and_record. rewrite E. eexists. split; [reflexivity|].
  split; [by destruct P|]. cbn. by rewrite Hs.
Qed.

(** ** The log: messages sequenced, each with the source's database then *)
#[local] Abbreviation Log := (list (SignedMessage.t * Db)).
Definition versions (d0 : Db) (log : Log) : list Db := d0 :: log.*2.

Record genuine (pk : bytes) (i : nat) (m : SignedMessage.t) : Prop := {
  gen_sequence : SignedMessage.sequence m = Z.of_nat i;
  gen_signer : SignedMessage.signer m = hex0x pk;
  gen_verify : SignatureVerifier.verify (SignatureVerifier.new pk) m = Ok tt;
}.

(** The sequencer's side. *)
Record sequenced (d0 : Db) (km : EvmKeyManager.t) (log : Log) (h : t) : Prop := {
  seq_pubkey : pubkey h = EvmKeyManager.public_key km;
  seq_inbox : inbox h = Inbox.mk (Z.of_nat (length log)) km;
  seq_genuine : forall i e, log !! i = Some e -> genuine (pubkey h) i e.1;
  seq_carries : forall i e a, log !! i = Some e -> versions d0 log !! i = Some a -> carries e.1 a e.2;
}.

Lemma sequence_cbor_spec d0 km log h now ty what cbor d :
  signer_available km -> sequenced d0 km log h -> Z.of_nat (length log) < u64_max -> is_u64 now ->
  (forall a, versions d0 log !! length log = Some a -> reads (MessageType.from_cbor ty) cbor a d) ->
  exists m, sequenced d0 km (log ++ [(m, d)])
              (with_fetcher (with_inbox h (Inbox.mk (Z.of_nat (length (log ++ [(m, d)]))) km)) (MockFetcher.add_message (fetcher h) m)) /\
    sequence_cbor h now ty what cbor =
      (with_fetcher (with_inbox h (Inbox.mk (Z.of_nat (length (log ++ [(m, d)]))) km)) (MockFetcher.add_message (fetcher h) m),
       Ok (Z.of_nat (length log))) /\
    SignedMessage.sequence m = Z.of_nat (length log).
Proof using HL YL GL KL ZL.
  intros Hav [Hpk Hib Hg Hc] Hl Hnow Hr. unfold u64_max in Hl. destruct (manager_key km) as [vk Hk].
  destruct (sign_sequenced_spec km (Z.of_nat (length log)) now ty cbor vk)
    as (cm & sg & c & hb & _ & Hd & Hm & _ & _ & Hv & Hh & Hs); [unfold is_u64; lia|done..|].
  set (sm := signed_message_of _ hb) in Hs. exists sm.
  assert (Hgen : genuine (pubkey h) (length log) sm).
  { split; [done|by rewrite Hpk|]. apply verifier_complete; [done| |by rewrite Hpk; apply Hk].
    rewrite Hpk. cbn. rewrite hex0x_strip. by rewrite hex_decode_encode. }
  split; [|split; [|done]].
  - split; cbn [pubkey inbox with_fetcher with_inbox]; [done|done| |].
    + intros i e Hi. apply lookup_snoc_Some in Hi as [[_ Hi]|[-> <-]]; [by apply Hg|done].
    + intros i e a Hi Ha. apply lookup_snoc_Some in Hi as [[Hlt Hi]|[-> <-]].
      * apply (Hc i); [done|]. unfold versions in *. rewrite fmap_app in Ha.
        rewrite app_comm_cons, lookup_app_l in Ha; [done|]. cbn. rewrite length_fmap. lia.
      * exists cbor. split; [done|]. apply Hr. unfold versions in *. rewrite fmap_app, app_comm_cons, lookup_app_l in Ha; [done|].
        cbn. rewrite length_fmap. lia.
  - unfold sequence_cbor, Inbox.sequence_message. rewrite Hib. cbn [Inbox.sequence Inbox.key_manager]. rewrite Hm.
    unfold ctx_of. cbn [map_err result_bind pubkey with_inbox]. rewrite Hpk, (proj2 Hk). cbn [map_err result_bind].
    unfold to_signed_message. rewrite Hv. cbn [result_bind]. rewrite Hh. cbn.
    rewrite u64_add_small by (unfold is_u64; lia). rewrite length_app, Nat2Z.inj_add. done.
Qed.

Lemma sequenced_current d0 km log h : sequenced d0 km log h -> current_sequence h = Z.of_nat (length log).
Proof. intros [_ Hib _ _]. unfold current_sequence. by rewrite Hib. Qed.

(** ** Operations on the source *)

(** The source is the log's last version. *)
Record logged (d0 : Db) (km : EvmKeyManager.t) (log : Log) (h : t) : Prop := {
  log_sequenced : sequenced d0 km log h;
  log_source : versions d0 log !! length log = Some (source_conn h);
  log_keyed : keyed (source_conn h);
}.

(** One more message in log and fetcher, the validator untouched. *)
Definition appends (d0 : Db) (km : EvmKeyManager.t) (log : Log) (h h' : t) (r : result Chain Z) : Prop :=
  exists m, r = Ok (Z.of_nat (length log)) /\ logged d0 km (log ++ [(m, source_conn h')]) h' /\
    SignedMessage.sequence m = Z.of_nat (length log) /\
    fetcher h' = MockFetcher.add_message (fetcher h) m /\ validator h' = validator h.

Lemma versions_snoc d0 log m d : versions d0 (log ++ [(m, d)]) !! length (log ++ [(m, d)]) = Some d.
Proof.
  unfold versions. rewrite fmap_app, length_app. cbn [length].
  replace (length log + 1)%nat with (S (length log.*2)) by (rewrite length_fmap; lia).
  change ((log.*2 ++ [d]) !! length log.*2 = Some d). by apply list_lookup_middle.
Qed.

Lemma sequence_cbor_appends d0 km log h now ty what cbor :
  signer_available km -> sequenced d0 km log h -> keyed (source_conn h) ->
  Z.of_nat (length log) < u64_max -> is_u64 now ->
  (forall a, versions d0 log !! length log = Some a -> reads (MessageType.from_cbor ty) cbor a (source_conn h)) ->
  appends d0 km log h (fst (sequence_cbor h now ty what cbor)) (snd (sequence_cbor h now ty what cbor)).
Proof using HL YL GL KL ZL.
  intros Hav Hs Hk Hl Hnow Hr.
  destruct (sequence_cbor_spec d0 km log h now ty what cbor (source_conn h)) as (m & Hs' & E & Hm); [done..|].
  rewrite E. exists m. cbn [fst snd]. split_and!; try done. split; [exact Hs'|apply versions_snoc|done].
Qed.

Lemma sequence_changeset_appends d0 km log h now n x d :
  signer_available km -> sequenced d0 km log h -> keyed (source_conn h) ->
  Z.of_nat (length log) < u64_max -> is_u64 now ->
  versions d0 log !! length log = Some (base x) -> tracked (base x) (source_conn h) ->
  changeset_strm x (source_conn h) n = Ok d ->
  appends d0 km log h (fst (sequence_changeset h now d)) (snd (sequence_changeset h now d)).
Proof using HL YL GL KL ZL SCL CPL WL.
  intros Hav Hs Hk Hl Hnow Hb Ht Hd. unfold sequence_changeset, current_sequence.
  rewrite (seq_inbox _ _ _ _ Hs). cbn [Inbox.current_sequence Inbox.sequence].
  set (rq := changeset_request _ now d). unfold u64_max in Hl.
  destruct (ser_total rq) as [cbor Hc].
  { constructor; [|done]. cbn. unfold Inbox.current_sequence, is_u64 in *. cbn. lia. }
  rewrite Hc. unfold ctx_str, ctx_of. cbn [map_err]. apply sequence_cbor_appends; try done.
  intros a Ha. exists rq. split; [by apply de_ser|]. intros sequence batch_id i. cbn.
  assert (a = base x) as -> by congruence. destruct d as [|y d].
  - by rewrite (no_changes _ _ _ Ht Hd).
  - by rewrite (apply_captured _ _ _ _ Ht Hd).
Qed.

(** A generated statement either leaves the harness as it was, or is one message more. *)
Lemma execute_and_sequence_appends d0 km log h now op n h' r :
  signer_available km -> logged d0 km log h -> plain_dml op = true ->
  Z.of_nat (length log) < u64_max -> is_u64 now ->
  execute_and_sequence h now (dml_to_sql op) n = (h', r) ->
  (is_ok r = false /\ h' = h) \/ appends d0 km log h h' r.
Proof using HL YL GL KL ZL SCL CPL WL.
  intros Hav [Hs Hv Hk] Hp Hl Hnow. unfold execute_and_sequence, execute_dml, ctx_str, ctx_of.
  destruct (session_new (source_conn h) n) as [x| |] eqn:Ex; cbn [map_err result_bind]; [|by intros; simplify_eq; left..].
  destruct (session_attach x n) as [y| |] eqn:Ey; cbn [map_err result_bind]; [|by intros; simplify_eq; left..].
  pose proof (session_base _ _ _ _ Ex Ey) as Hb.
  destruct (execute_batch (source_conn h) (dml_to_sql op)) as [db [[]|e|w]] eqn:Ee; cbn [map_err result_bind].
  2,3: apply dml_atomic in Ee as ->; [|done..]; intros; simplify_eq; left; split; [done|by destruct h].
  destruct (dml_tracked _ _ _ Hp Hk Ee) as [Ht Hk']. rewrite <- Hb in Ht, Hv.
  destruct (changes_read y db n Ht) as [d Hd]. rewrite Hd. cbn [map_err]. intros E. right.
  destruct (sequence_changeset_appends d0 km log (with_source h db) now n y d) as (m & Hr & Hlog & Hm & Hf & Hva);
    try done; [by destruct Hs|]. rewrite E in *. by exists m.
Qed.

Lemma snapshot_appends d0 km log h now n h' r :
  signer_available km -> sequenced d0 km log h -> keyed (source_conn h) ->
  Z.of_nat (length log) < u64_max -> is_u64 now ->
  create_and_sequence_snapshot h now n = (h', r) ->
  (is_ok r = false /\ h' = h) \/ appends d0 km log h h' r.
Proof using HL YL GL KL ZL SNL CPL WL.
  intros Hav Hs Hk Hl Hnow. unfold create_and_sequence_snapshot, current_sequence.
  destruct (backup_bytes (source_conn h) n) as [b| |] eqn:Eb; cbn [map_err result_bind]; [|by intros; simplify_eq; left..].
  rewrite (seq_inbox _ _ _ _ Hs). unfold Inbox.current_sequence. cbn [Inbox.sequence]. set (rq := snapshot_request _ now b). unfold u64_max in Hl.
  destruct (ser_total rq) as [cbor Hc].
  { split; cbn; unfold is_u64 in *; lia. }
  rewrite Hc. unfold ctx_str, ctx_of. cbn [map_err]. intros E. right.
  destruct (sequence_cbor_appends d0 km log h now Snapshot "snapshot" cbor) as (m & Hap); try done.
  - intros a Ha. exists rq. split; [by apply de_ser|]. intros db. by apply (backup_restores _ n).
  - rewrite E in Hap. by exists m.
Qed.

(** ** The validator's side *)

(** The validator has replayed the first [k] messages of the log. *)
Record follows (d0 : Db) (log : Log) (pk : bytes) (v : Validator.t) (k : nat) : Prop := {
  fol_version : exists d, versions d0 log !! k = Some d /\ plain v d;
  fol_next : StateStore.next_sequence (Validator.state v) = Ok (Z.of_nat k);
  fol_verifier : Validator.verifier v = SignatureVerifier.new pk;
}.

Lemma versions_next d0 log k e : log !! k = Some e -> versions d0 log !! S k = Some e.2.
Proof. intros H. unfold versions. change (log.*2 !! k = Some e.2). by rewrite list_lookup_fmap, H. Qed.

Lemma versions_app d0 log log' k d : versions d0 log !! k = Some d -> versions d0 (log ++ log') !! k = Some d.
Proof. intros H. unfold versions in *. rewrite fmap_app, app_comm_cons. by apply lookup_app_l_Some. Qed.

Lemma follows_app d0 log log' pk v k : follows d0 log pk v k -> follows d0 (log ++ log') pk v k.
Proof. intros [(d & Hd & Hp) Hn Hv]. split; [|done..]. exists d. split; [by apply versions_app|done]. Qed.

(** What the log says of number [k], whatever the message that brings it. *)
Lemma follow_message d0 km log h v now k e m :
  sequenced d0 km log h -> follows d0 log (pubkey h) v k -> log !! k = Some e -> Z.of_nat k < u64_max ->
  SignedMessage.sequence m = Z.of_nat k ->
  SignedMessage.message_type m = SignedMessage.message_type e.1 -> SignedMessage.payload m = SignedMessage.payload e.1 ->
  exists v', Validator.apply_and_record v now m = (v', Ok tt) /\ follows d0 log (pubkey h) v' (S k).
Proof using WL.
  intros Hs [(d & Hd & Hp) Hn Hv] He Hk Hm Hty Hpay. unfold u64_max in Hk.
  assert (Hc : carries m d e.2).
  { unfold carries. rewrite Hty, Hpay. by apply (seq_carries _ _ _ _ Hs k e). }
  destruct (carries_apply v now m d e.2 Hc Hp) as (v' & Ha & Hp' & Hv' & Hst). exists v'. split; [done|].
  split; [exists e.2; split; [by apply versions_next|done]| |by rewrite Hv'].
  rewrite Hst, Hm. rewrite (next_of_synced _ (Z.of_nat k)) by (apply record_sync_last; unfold is_u64; lia).
  rewrite u64_add_small by (unfold is_u64; lia). f_equal. lia.
Qed.

Lemma carries_no_withdrawal m a b : carries m a b -> ChangesetApplier.extract_withdrawal m = Ok None.
Proof. intros (p & _ & Hr). unfold ChangesetApplier.extract_withdrawal. by destruct (SignedMessage.message_type m). Qed.

(** Every message of the log has a version before it. *)
Lemma logged_carries d0 km log h k e :
  sequenced d0 km log h -> log !! k = Some e -> exists a, versions d0 log !! k = Some a /\ carries e.1 a e.2.
Proof.
  intros Hs He. destruct (versions d0 log !! k) as [a|] eqn:Ea; [exists a; split; [done|by apply (seq_carries _ _ _ _ Hs k)]|].
  apply lookup_ge_None in Ea. apply lookup_lt_Some in He. unfold versions in Ea. cbn in Ea. rewrite length_fmap in Ea. lia.
Qed.

Lemma follow_log d0 km log h now rest : forall dn v,
  sequenced d0 km log h -> log = dn ++ rest -> Z.of_nat (length log) <= u64_max ->
  follows d0 log (pubkey h) v (length dn) ->
  exists v', process v now rest.*1 = Some v' /\ follows d0 log (pubkey h) v' (length log).
Proof using WL.
  induction rest as [|e rest IH]; intros dn v Hs E Hl Hf.
  - exists v. rewrite E, app_nil_r in *. done.
  - assert (He : log !! length dn = Some e) by (rewrite E; by apply list_lookup_middle).
    assert (length log = length dn + S (length rest))%nat by (rewrite E, length_app; done).
    destruct (follow_message d0 km log h v now (length dn) e e.1) as (v' & Ha & Hf'); try done.
    { lia. }
    { apply (seq_genuine _ _ _ _ Hs _ _ He). }
    destruct (IH (dn ++ [e]) v') as (v'' & Hp & Hf''); try done.
    { by rewrite <- app_assoc. }
    { rewrite length_app, Nat.add_comm. exact Hf'. }
    exists v''. split; [|done]. cbn [fmap list_fmap process]. by rewrite Ha.
Qed.

(** *** Without faults: the fetcher is the log *)
Record stored (log : Log) (f : MockFetcher.t) : Prop := {
  st_batches : MockFetcher.batches f = ∅;
  st_failures : MockFetcher.fail_get f = ∅;
  st_message : forall i e, log !! i = Some e -> MockFetcher.messages f !! Z.of_nat i = Some e.1;
  st_beyond : forall z, Z.of_nat (length log) <= z -> MockFetcher.messages f !! z = None;
  st_size : MockFetcher.len f = length log;
}.

Lemma stored_new : stored [] MockFetcher.new.
Proof. by split. Qed.

Lemma stored_add log f m d :
  stored log f -> SignedMessage.sequence m = Z.of_nat (length log) ->
  stored (log ++ [(m, d)]) (MockFetcher.add_message f m).
Proof.
  intros [Hb Hf Hm Hn Hs] Hq. split; cbn; [done|done| | |]; rewrite ?Hq.
  - intros i e Hi. apply lookup_snoc_Some in Hi as [[Hlt Hi]|[-> <-]]; [|by rewrite lookup_insert_eq].
    rewrite lookup_insert_ne by lia. by apply Hm.
  - intros z. rewrite length_app. cbn. intros Hz. rewrite lookup_insert_ne by lia. apply Hn. lia.
  - unfold MockFetcher.len in *. cbn. rewrite map_size_insert_None by (by apply Hn). rewrite length_app. cbn. lia.
Qed.

(** A sync brings the validator to the end of the log. *)
Lemma sync_catches_up d0 km log h k now :
  sequenced d0 km log h -> stored log (fetcher h) -> follows d0 log (pubkey h) (validator h) k ->
  Z.of_nat (length log) < u64_max ->
  exists v, sync_validator h now = (with_validator h v, Some (Ok (Z.of_nat (length log - k)))) /\
    follows d0 log (pubkey h) v (length log).
Proof using HL WL.
  intros Hs [Hb Hfa Hm Hn Hz] Hf Hl. pose proof Hf as [(d & Hd & _) Hnx Hv]. unfold u64_max in Hl.
  assert (Hk : (k <= length log)%nat).
  { apply lookup_lt_Some in Hd. unfold versions in Hd. cbn in Hd. rewrite length_fmap in Hd. lia. }
  destruct (follow_log d0 km log h now (drop k log) (take k log) (validator h)) as (v & Hp & Hfv);
    try done; [by rewrite take_drop|unfold u64_max; lia|by rewrite length_take_le|].
  exists v. split; [|done]. unfold sync_validator, Validator.sync_to_head. rewrite Hnx.
  rewrite (sync_loop_complete _ now (drop k log).*1 _ _ v).
  - by rewrite length_fmap, length_drop.
  - unfold sync_fuel. rewrite Hz, length_fmap, length_drop. lia.
  - lia.
  - rewrite length_fmap, length_drop. lia.
  - apply Forall_fmap, Forall_forall. intros e He. cbn. apply list_elem_of_lookup in He as [i He].
    rewrite lookup_drop in He. destruct (seq_genuine _ _ _ _ Hs _ _ He) as [G1 G2 G3].
    destruct (logged_carries _ _ _ _ _ _ Hs He) as (a & _ & Hca). apply lookup_lt_Some in He.
    split_and!; [by rewrite Hv|by rewrite (carries_no_withdrawal _ _ _ Hca)|lia|unfold u64_max; lia].
  - intros i m. rewrite list_lookup_fmap, lookup_drop. destruct (log !! (k + i)%nat) as [e|] eqn:He; [|done]. cbn. intros [= <-].
    replace (Z.of_nat k + Z.of_nat i) with (Z.of_nat (k + i)) by lia.
    split; [apply (seq_genuine _ _ _ _ Hs _ _ He)|]. cbn. rewrite get_plain by done. by rewrite (Hm _ _ He).
  - rewrite length_fmap, length_drop. cbn. rewrite get_plain by done. by rewrite Hn by lia.
  - done.
Qed.

(** ** Scenarios *)

(** The harness after both databases were set up to the same [d]. *)
Definition started (random : PrivateKeySigner) (d : Db) : t := with_replica (with_source (new random) d) d.

Lemma both_started random d sql c1 c2 h :
  execute_on_both (started random d) sql c1 c2 = (h, Ok tt) -> exists d', h = started random d'.
Proof.
  unfold execute_on_both. cbn. destruct (execute_batch d sql) as [d' [[]| |]] eqn:E; cbn; [|done..].
  intros [= <-]. by exists d'.
Qed.

Lemma initial_started random statements : forall d h,
  insert_initial (started random d) statements = (h, Ok tt) -> exists d', h = started random d'.
Proof.
  induction statements as [|sql statements IH]; intros d h H; cbn in H; [simplify_eq; by exists d|].
  destruct (execute_on_both _ _ _ _) as [h1 [[]| |]] eqn:E; [|done..].
  apply both_started in E as [d1 ->]. by apply IH in H.
Qed.

Record in_step (d0 : Db) (km : EvmKeyManager.t) (log : Log) (h : t) (k : nat) : Prop := {
  is_logged : logged d0 km log h;
  is_stored : stored log (fetcher h);
  is_follows : follows d0 log (pubkey h) (validator h) k;
}.

Lemma started_follows random d :
  keyed d -> logged d (EvmKeyManager.generate random) [] (started random d) /\
    follows d [] (pubkey (started random d)) (validator (started random d)) 0.
Proof. intros Hk. split; [by split|]. split; [|done..]. exists d. by split. Qed.

Lemma started_in_step random d : keyed d -> in_step d (EvmKeyManager.generate random) [] (started random d) 0.
Proof. intros Hk. destruct (started_follows random d Hk). split; [done|apply stored_new|done]. Qed.

Lemma appends_in_step d0 km log h h' r k :
  in_step d0 km log h k -> appends d0 km log h h' r ->
  exists m, in_step d0 km (log ++ [(m, source_conn h')]) h' k.
Proof.
  intros [Hl Hs Hf] (m & _ & Hlog & Hm & Hfe & Hv). exists m. split; [done|rewrite Hfe; by apply stored_add|].
  rewrite Hv. apply follows_app. destruct Hl as [[Hp _ _ _] _ _], Hlog as [[Hp' _ _ _] _ _]. by rewrite Hp', <- Hp.
Qed.

(** The scenario's statements are generated ones, and the schema stays. *)
Definition fixed_schema (action : E2EAction) : bool :=
  match action with ExecuteDml op => plain_dml op | SyncValidator => true | ExecuteDdl _ => false end.

Lemma run_action_in_step d0 km log h k now n action h' :
  signer_available km -> in_step d0 km log h k -> fixed_schema action = true ->
  Z.of_nat (length log) < u64_max -> is_u64 now -> run_action h now n action = (h', Ok tt) ->
  exists log' k', in_step d0 km log' h' k' /\ (length log' <= S (length log))%nat /\
    (action = SyncValidator -> k' = length log').
Proof using HL YL GL KL ZL SCL CPL WL.
  intros Hav Hi Ha Hl Hnow H. destruct action as [op| |sql]; cbn in Ha, H; [| |done].
  - destruct (execute_and_sequence h now (dml_to_sql op) n) as [h1 r] eqn:E.
    assert (h1 = h') as -> by (destruct r; [|destruct (expected_failure _)|]; by simplify_eq).
    apply (execute_and_sequence_appends d0 km log) in E as [[_ ->]|Hap]; [| |done|apply Hi|done..].
    + exists log, k. split_and!; [done|lia|done].
    + destruct (appends_in_step _ _ _ _ _ _ _ Hi Hap) as [m Hi']. eexists _, k. split_and!; [exact Hi'| |done].
      rewrite length_app. cbn. lia.
  - destruct Hi as [[Hs Hv Hk] Hst Hf]. destruct (sync_catches_up d0 km log h k now) as (v & E & Hf'); try done.
    rewrite E in H. simplify_eq. exists log, (length log). split_and!; [|lia|done].
    split; [split; [by destruct Hs|done..]|done|done].
Qed.

Lemma run_actions_in_step d0 km clock actions : forall log h k n h',
  signer_available km -> (forall i, is_u64 (clock i)) -> forallb fixed_schema actions = true ->
  Z.of_nat (length log + length actions) < u64_max -> in_step d0 km log h k ->
  run_actions h clock n actions = (h', Ok tt) ->
  exists log' k', in_step d0 km log' h' k' /\ (length log' <= length log + length actions)%nat /\
    (last actions = Some SyncValidator -> k' = length log').
Proof using HL YL GL KL ZL SCL CPL WL.
  induction actions as [|action actions IH]; intros log h k n h' Hav Hc Hfs Hl Hi H; cbn in H.
  { simplify_eq. exists log, k. split_and!; [done|cbn; lia|done]. }
  cbn in Hfs, Hl. apply andb_true_iff in Hfs as [Ha Hfs].
  destruct (run_action h (clock n) n action) as [h1 [[]| |]] eqn:E; [|done..].
  apply (run_action_in_step d0 km log h k) in E as (log1 & k1 & Hi1 & Hl1 & Hk1); try done; [|lia].
  destruct (IH log1 h1 k1 (S n) h') as (log2 & k2 & Hi2 & Hl2 & Hk2); try done; [lia|].
  destruct actions as [|action' actions].
  - cbn in H. simplify_eq. exists log1, k1. split_and!; [done|cbn; lia|]. intros [= ->]. by apply Hk1.
  - exists log2, k2. split_and!; [done|cbn in *; lia|]. rewrite last_cons_cons. done.
Qed.

(** *** The invariants the fuzzer checks *)
Lemma stored_messages d0 km log h :
  sequenced d0 km log h -> stored log (fetcher h) -> messages h = log.*1.
Proof.
  intros Hs [Hb Hf Hm _ _]. unfold messages, current_sequence. rewrite (seq_inbox _ _ _ _ Hs).
  unfold Inbox.current_sequence. cbn [Inbox.sequence]. rewrite <- (firstn_all log) at 2.
  generalize (le_n (length log)). generalize (length log) at 1 3 4. intros n. induction n as [|n IH]; intros Hn; [done|].
  rewrite seqZ_S, omap_app, IH by lia. destruct (lookup_lt_is_Some_2 log n) as [e He]; [lia|].
  rewrite (take_S_r _ _ _ He), fmap_app. f_equal. cbn [omap list_omap]. rewrite get_plain, Z.add_0_l, (Hm _ _ He) by done. done.
Qed.

Lemma logged_numbers d0 km log h :
  sequenced d0 km log h -> map SignedMessage.sequence log.*1 = seqZ 0 (Z.of_nat (length log)).
Proof.
  intros Hs. apply list_eq. intros i. change (map ?f ?l) with (f <$> l). rewrite !list_lookup_fmap.
  destruct (log !! i) as [e|] eqn:He; cbn.
  - rewrite (gen_sequence _ _ _ (seq_genuine _ _ _ _ Hs _ _ He)). apply lookup_lt_Some in He.
    symmetry. apply lookup_seqZ. lia.
  - symmetry. apply lookup_ge_None in He. apply lookup_seqZ_ge. lia.
Qed.

Lemma windows_consecutive n : forall prev,
  0 <= prev -> prev + Z.of_nat n < 2 ^ 64 -> check_windows prev (seqZ (prev + 1) (Z.of_nat n)) = [].
Proof.
  induction n as [|n IH]; intros prev H0 Hb; [done|]. rewrite seqZ_cons by lia. cbn [check_windows].
  rewrite (proj2 (Z.leb_gt _ _)) by lia. rewrite u64_add_small by (unfold is_u64; lia). rewrite Z.eqb_refl. cbn.
  replace (Z.pred (Z.of_nat (S n))) with (Z.of_nat n) by lia. replace (Z.succ (prev + 1)) with (prev + 1 + 1) by lia.
  apply IH; lia.
Qed.

Lemma omap_nil {A B} (f : A -> option B) l : Forall (fun x => f x = None) l -> omap f l = [].
Proof. induction 1 as [|x l Hx _ IH]; [done|]. cbn. by rewrite Hx. Qed.

Lemma log_forall d0 km log h (P : SignedMessage.t -> Prop) :
  sequenced d0 km log h ->
  (forall i m a b, genuine (pubkey h) i m -> carries m a b -> P m) -> Forall P log.*1.
Proof.
  intros Hs HP. apply Forall_fmap, Forall_forall. intros e He. apply list_elem_of_lookup in He as [i He]. cbn.
  destruct (logged_carries _ _ _ _ _ _ Hs He) as (a & _ & Hc). eapply HP; [by eapply seq_genuine|exact Hc].
Qed.

Lemma invariants_hold d0 km log h :
  sequenced d0 km log h -> stored log (fetcher h) -> Z.of_nat (length log) < u64_max ->
  sequence_invariants h = [] /\ signature_invariants h = [] /\ chain_invariants h = [].
Proof.
  intros Hs Hst Hl. unfold u64_max in Hl. unfold sequence_invariants, signature_invariants, chain_invariants.
  rewrite (stored_messages d0 km log h Hs Hst). split_and!.
  - rewrite (logged_numbers d0 km log h Hs). destruct (length log) as [|n] eqn:E; [done|].
    rewrite seqZ_cons by lia. replace (Z.pred (Z.of_nat (S n))) with (Z.of_nat n) by lia.
    pose proof (windows_consecutive n 0) as Hw. cbn in Hw |- *. apply Hw; lia.
  - apply omap_nil. eapply log_forall; [exact Hs|]. intros i m a b G _. by rewrite decide_True by apply G.
  - apply omap_nil. eapply log_forall; [exact Hs|]. intros i m a b _ (p & Hp & _).
    destruct (SignedMessage.message_type m); [|done..]. unfold can_invert_changeset. by rewrite Hp.
Qed.

(** A validator at the end of the log has the source's database, and nothing is
    violated. *)
Lemma in_step_consistent d0 km log h :
  in_step d0 km log h (length log) -> Z.of_nat (length log) < u64_max ->
  replica h = source_conn h /\ (is_ok (snapshot_source_state h) = true -> check_all_invariants h = []).
Proof.
  intros [[Hs Hv _] Hst Hf] Hl.
  destruct (fol_version _ _ _ _ _ Hf) as (d' & Hd & Hp). rewrite Hv in Hd. injection Hd as <-.
  assert (Hr : replica h = source_conn h) by apply Hp. split; [done|]. intros Hok.
  destruct (invariants_hold d0 km log h) as (I1 & I2 & I3); [done..|].
  unfold check_all_invariants. rewrite I1, I2, I3, app_nil_r. unfold consistency_invariants, snapshot_replica_state.
  rewrite Hr. fold (snapshot_source_state h). destruct (snapshot_source_state h) as [s| |]; [|done..].
  unfold DatabaseSnapshot.is_equivalent. by rewrite bool_decide_true.
Qed.

(** The schema and the initial rows, as the scenario sets them up on both databases. *)
Definition set_up_keyed (random : PrivateKeySigner) (schema : string) (initial_data : list string) : Prop :=
  forall h1 h2, setup_schema (new random) schema = (h1, Ok tt) -> insert_initial h1 initial_data = (h2, Ok tt) ->
    keyed (source_conn h2).

Lemma scenario_in_step (random : PrivateKeySigner) scenario clock h :
  signer_available (EvmKeyManager.generate random) -> (forall i, is_u64 (clock i)) ->
  forallb fixed_schema (E2EScenario.actions scenario) = true ->
  last (E2EScenario.actions scenario) = Some SyncValidator ->
  Z.of_nat (length (E2EScenario.actions scenario)) < u64_max ->
  set_up_keyed random (E2EScenario.schema scenario) (E2EScenario.initial_data scenario) ->
  execute_scenario (new random) scenario clock = (h, Ok tt) ->
  exists d log, in_step d (EvmKeyManager.generate random) log h (length log) /\ Z.of_nat (length log) < u64_max.
Proof using HL YL GL KL ZL SCL CPL WL.
  intros Hav Hc Hfs Hlast Hl Hk H. unfold execute_scenario in H.
  destruct (setup_schema _ _) as [h1 [[]| |]] eqn:E1; [|done..].
  destruct (insert_initial _ _) as [h2 [[]| |]] eqn:E2; [|done..].
  specialize (Hk _ _ E1 E2). apply (both_started random open_in_memory) in E1 as [d1 ->].
  apply initial_started in E2 as [d ->].
  destruct (run_actions_in_step d (EvmKeyManager.generate random) clock _ [] _ 0 0 h Hav Hc Hfs Hl
              (started_in_step random d Hk) H) as (log & k & Hi & Hlen & Hend).
  rewrite (Hend Hlast) in Hi. exists d, log. split; [done|]. cbn in Hlen. lia.
Qed.

(** C16. A scenario without faults ends with nothing to report.  A scenario of generated
    statements and syncs that sets its schema up once, ends in a sync and runs to its
    end (statements refused by a constraint included) leaves the replica's database equal
    to the source's; and when that database can be read, the checker finds the
    sequence numbers consecutive from 0, every message signed by the sequencer, source
    and replica equivalent and every changeset readable. *)
Theorem scenario_ends_consistent (random : PrivateKeySigner) scenario clock h :
  signer_available (EvmKeyManager.generate random) ->
  (forall i, is_u64 (clock i)) ->
  forallb fixed_schema (E2EScenario.actions scenario) = true ->
  last (E2EScenario.actions scenario) = Some SyncValidator ->
  Z.of_nat (length (E2EScenario.actions scenario)) < u64_max ->
  set_up_keyed random (E2EScenario.schema scenario) (E2EScenario.initial_data scenario) ->
  execute_scenario (new random) scenario clock = (h, Ok tt) ->
  replica h = source_conn h /\ (is_ok (snapshot_source_state h) = true -> check_all_invariants h = []).
Proof using HL YL GL KL ZL SCL CPL WL.
  intros Hav Hc Hfs Hlast Hl Hk H.
  destruct (scenario_in_step random scenario clock h) as (d & log & Hi & Hlen); [done..|]. by eapply in_step_consistent.
Qed.

(** *** The seeded test *)
Section seeded.
Context `{RG : Rng}.

Lemma seeded_action_fixed rng : fixed_schema (seeded_action rng).1 = true.
Proof.
  unfold seeded_action. destruct (random_range 0 10 rng) as [ty r0]. destruct (ty <? 4).
  { destruct (random_range 1 50 r0) as [id r1]. by destruct (random_range (-1000) 1000 r1). }
  destruct (ty <? 7).
  { destruct (random_range 100 1000 r0) as [id r1]. destruct (random_range 0 1000 r1) as [v r2].
    by destruct (sample_name 8 r2). }
  destruct (ty <? 8); [|done]. by destruct (random_range 1 50 r0).
Qed.

Lemma seeded_actions_fixed n : forall rng,
  forallb fixed_schema (seeded_actions n rng) = true /\ length (seeded_actions n rng) = n.
Proof.
  induction n as [|n IH]; intros rng; [done|]. cbn. pose proof (seeded_action_fixed rng) as H.
  destruct (seeded_action rng) as [a r]. cbn in *. destruct (IH r) as [H1 H2]. by rewrite H, H1, H2.
Qed.

(** A seeded scenario keeps its schema and ends in a sync. *)
Lemma seeded_scenario_fixed seed :
  (forall lo hi r, lo <= (random_range lo hi r).1 < hi) ->
  let actions := E2EScenario.actions (scenario_from_seed seed) in
  forallb fixed_schema actions = true /\ last actions = Some SyncValidator /\ (length actions <= 30)%nat.
Proof.
  intros Hr. cbv zeta. unfold scenario_from_seed. pose proof (Hr 5 30 (seed_from_u64 seed)) as Hn.
  destruct (random_range 5 30 (seed_from_u64 seed)) as [n r]. cbn in Hn |- *.
  destruct (seeded_actions_fixed (Z.to_nat n) r) as [H1 H2]. destruct (last _) as [[]|] eqn:E.
  all: try (split_and!; [done|done|lia]).
  all: split_and!; [by rewrite forallb_app, H1|by rewrite last_snoc|rewrite length_app; cbn; lia].
Qed.

(** The seeded test never reports a violation: it fails only if the scenario itself
    cannot be run. *)
Theorem seeded_test_finds_nothing random clock seed :
  signer_available (EvmKeyManager.generate random) -> (forall i, is_u64 (clock i)) ->
  (forall lo hi r, lo <= (random_range lo hi r).1 < hi) ->
  set_up_keyed random test_schema (user_rows 10) ->
  (forall db, is_ok (DatabaseSnapshot.from_connection db) = true) ->
  run_seeded_test random clock seed = snd (execute_scenario (new random) (scenario_from_seed seed) clock).
Proof using HL YL GL KL ZL SCL CPL WL.
  intros Hav Hc Hr Hk Hok. unfold run_seeded_test.
  destruct (execute_scenario _ _ _) as [h [[]| |]] eqn:E; [|done..]. cbn.
  destruct (seeded_scenario_fixed seed Hr) as (H1 & H2 & H3).
  assert (Z.of_nat (length (E2EScenario.actions (scenario_from_seed seed))) < u64_max) by (unfold u64_max; lia).
  assert (Hs : E2EScenario.schema (scenario_from_seed seed) = test_schema /\
    E2EScenario.initial_data (scenario_from_seed seed) = user_rows 10)
    by (unfold scenario_from_seed; by destruct (random_range 5 30 _)).
  destruct (scenario_in_step random (scenario_from_seed seed) clock h) as (d & log & Hi & Hlen); try done.
  - by destruct Hs as [-> ->].
  - destruct (in_step_consistent _ _ _ _ Hi Hlen) as [_ ->]; [done|apply Hok].
Qed.
End seeded.

(** ** Faults *)

(** The signature of [g] also fits this payload: its bytes are a secp256k1 signature,
    under the key [pk], of the hash of the structure of [g]'s header and the payload. *)
Definition signature_fits (pk : bytes) (g : SignedMessage.t) (payload : bytes) : Prop :=
  exists tbs sgb s vk,
    cbor_write (sig_structure (SignedMessage.cose_protected_header g) payload) = Ok tbs /\
    hex_decode (strip_prefix_or_self "0x" (SignedMessage.signature g)) = Ok sgb /\
    sig_from_slice sgb = Ok s /\ key_bytes vk pk /\ verify_prehash vk (keccak256 tbs) s = true.

(** A message in the fetcher is one the sequencer signed, in all that a fault leaves
    alone; and where its payload was changed, the signature does not fit it. *)
Record variant (pk : bytes) (g m : SignedMessage.t) : Prop := {
  var_type : SignedMessage.message_type m = SignedMessage.message_type g;
  var_timestamp : SignedMessage.timestamp m = SignedMessage.timestamp g;
  var_header : SignedMessage.cose_protected_header m = SignedMessage.cose_protected_header g;
  var_signature : SignedMessage.signature m = SignedMessage.signature g;
  var_payload : signature_fits pk g (SignedMessage.payload m) -> SignedMessage.payload m = SignedMessage.payload g;
}.

Definition derived (pk : bytes) (log : Log) (m : SignedMessage.t) : Prop := exists e, e ∈ log /\ variant pk e.1 m.

(** Everything the fetcher holds is a variant of a message of the log. *)
Record tampered (pk : bytes) (log : Log) (f : MockFetcher.t) : Prop := {
  tam_batches : MockFetcher.batches f = ∅;
  tam_messages : map_Forall (fun _ m => derived pk log m) (MockFetcher.messages f);
}.

(** A variant the validator accepts under number [k] is message [k], unchanged where it
    matters. *)
Lemma variant_accepted (d0 : Db) km log h v k e m :
  sequenced d0 km log h -> Validator.verifier v = SignatureVerifier.new (pubkey h) ->
  e ∈ log -> variant (pubkey h) e.1 m -> authentic v m -> SignedMessage.sequence m = Z.of_nat k ->
  log !! k = Some e /\ SignedMessage.payload m = SignedMessage.payload e.1.
Proof using HL GL.
  intros Hs Hv He [V1 V2 V3 V4 V5] [Hsig Hkey] Hm. rewrite Hv in Hkey. apply list_elem_of_lookup in He as [i He].
  destruct (seq_genuine _ _ _ _ Hs _ _ He) as [G1 G2 G3].
  apply verifier_ok in G3 as [Gsig Gkey]. cbn in Hkey, Gkey.
  destruct (verify_signature_binds _ Hsig) as (B & (tbs & sgb & pkb & sg & vk & F1 & F2 & F3 & F4 & F5 & F6) & _).
  destruct (verify_signature_binds _ Gsig) as (B' & _ & _).
  rewrite V3, B' in B. injection B as B _.
  split; [by assert (i = k) as <- by lia|]. apply V5. rewrite Hkey in F3. apply Ok_inj in F3 as <-.
  exists tbs, sgb, sg, vk. by rewrite <- V3, <- V4.
Qed.

Lemma get_tampered pk log f s m :
  tampered pk log f -> MockFetcher.get f s = Ok (Some m) -> derived pk log m.
Proof.
  intros [Hb Hm] H. unfold MockFetcher.get in H. destruct (MockFetcher.fail_get f !! s); [done|].
  rewrite find_in_no_batches in H by done. destruct (MockFetcher.messages f !! s) eqn:E; [|done].
  simplify_eq. by apply Hm in E.
Qed.

Lemma clear_tampered pk log f : tampered pk log (MockFetcher.clear f).
Proof. split; [done|apply map_Forall_empty]. Qed.

Lemma add_tampered pk log f m :
  tampered pk log f -> derived pk log m -> tampered pk log (MockFetcher.add_message f m).
Proof. intros [Hb Hm] He. split; [done|]. by apply map_Forall_insert_2. Qed.

Lemma adds_tampered pk log ms : forall f,
  tampered pk log f -> Forall (derived pk log) ms ->
  tampered pk log (MockFetcher.add_messages f ms).
Proof.
  induction ms as [|m ms IH]; intros f Hf HF; [done|]. apply Forall_cons in HF as [Hm HF].
  apply IH; [by apply add_tampered|done].
Qed.

Lemma collect_tampered pk log f fuel : forall s,
  tampered pk log f -> Forall (derived pk log) (collect_messages fuel f s).
Proof.
  induction fuel as [|fuel IH]; intros s Hf; cbn; [done|].
  destruct (MockFetcher.get f s) as [[m|]| |] eqn:E; [|done..]. constructor; [by eapply get_tampered|by apply IH].
Qed.

Lemma variant_sequence pk log m z :
  derived pk log m -> derived pk log (set_sequence m z).
Proof. intros (e & He & [V1 V2 V3 V4 V5]). exists e. split; [done|]. by split. Qed.
Lemma variant_signer pk log m s :
  derived pk log m -> derived pk log (set_signer m s).
Proof. intros (e & He & [V1 V2 V3 V4 V5]). exists e. split; [done|]. by split. Qed.

(** A corruption of a payload is no forgery: what it leaves is no payload that a signature
    of the log fits, other than the one signed.  (A condition on secp256k1 and Keccak-256,
    not on the code that checks signatures.) *)
Definition detectable (log : Log) (h : t) (fault : Fault) : Prop :=
  match fault with
  | CorruptPayload sequence corruption => forall m e,
      MockFetcher.get (fetcher h) sequence = Ok (Some m) -> e ∈ log ->
      signature_fits (pubkey h) e.1 (corrupt_payload (SignedMessage.payload m) corruption) ->
      corrupt_payload (SignedMessage.payload m) corruption = SignedMessage.payload e.1
  | _ => True
  end.

Lemma inject_tampered log h fault :
  detectable log h fault -> tampered (pubkey h) log (fetcher h) ->
  tampered (pubkey h) log (inject_into (fetcher h) fault).
Proof.
  intros Hd Hf. pose proof Hf as [Hb Hm]. destruct fault as [? ?|?| |s c|s1 s2|s1 s2|s x|g]; cbn [inject_into]; try by split.
  - destruct (MockFetcher.get (fetcher h) s) as [[m|]| |] eqn:E; [|done..].
    apply add_tampered; [apply clear_tampered|].
    destruct (get_tampered _ _ _ _ _ Hf E) as (e & He & [V1 V2 V3 V4 V5]). exists e. split; [done|].
    split; [done..|]. by apply Hd.
  - destruct (MockFetcher.get (fetcher h) s1) as [[m1|]| |] eqn:E1; [|done..].
    destruct (MockFetcher.get (fetcher h) s2) as [[m2|]| |] eqn:E2; [|done..].
    repeat apply add_tampered; [apply clear_tampered|..]; apply variant_sequence; by eapply get_tampered.
  - destruct (MockFetcher.get (fetcher h) s1) as [[m1|]| |] eqn:E1; [|done..].
    apply add_tampered; [done|]. apply variant_sequence. by eapply get_tampered.
  - destruct (MockFetcher.get (fetcher h) s) as [[m1|]| |] eqn:E1; [|done..].
    apply add_tampered; [apply clear_tampered|]. apply variant_signer. by eapply get_tampered.
  - apply adds_tampered; [apply clear_tampered|]. rewrite Forall_map.
    eapply Forall_impl; [by apply collect_tampered|]. intros m He. cbn. case_match; [by apply variant_sequence|done].
Qed.

Lemma sync_loop_follows d0 km log h now fuel : forall v k n v' r,
  sequenced d0 km log h -> tampered (pubkey h) log (fetcher h) -> Z.of_nat (length log) <= u64_max ->
  follows d0 log (pubkey h) v k -> Validator.sync_loop fuel v (fetcher h) now (Z.of_nat k) n = (v', r) ->
  exists k', follows d0 log (pubkey h) v' k'.
Proof using HL GL WL.
  induction fuel as [|fuel IH]; intros v k n v' r Hs Ht Hl Hf H; cbn [Validator.sync_loop] in H; [simplify_eq; by exists k|].
  unfold Validator.sync_one, Validator.sync_one_with_callback in H. cbn [fetch_message mock_storage_fetcher] in H.
  destruct (MockFetcher.get (fetcher h) (Z.of_nat k)) as [[m|]| |] eqn:E; [|simplify_eq; by exists k..].
  destruct (Validator.check_message v m (Z.of_nat k)) as [w| |] eqn:Ec; [|simplify_eq; by exists k..].
  apply check_message_ok in Ec as (Hm & Ha & _).
  destruct (get_tampered _ _ _ _ _ Ht E) as (e & He & Hvar).
  destruct (variant_accepted d0 km log h v k e m) as [Hk Hp]; [done|apply Hf|done..|].
  pose proof (lookup_lt_Some _ _ _ Hk) as Hlt.
  destruct (follow_message d0 km log h v now k e m) as (v1 & Hap & Hf1); [done..|lia|done|apply Hvar|done|].
  rewrite Hap in H. unfold u64_max in Hl. rewrite u64_add_small in H by (unfold is_u64; lia).
  apply (IH v1 (S k) (n + 1) v' r); try done. by replace (Z.of_nat (S k)) with (Z.of_nat k + 1) by lia.
Qed.

(** The log entry of an operation that sequenced a message. *)
Definition sent (h : t) (r : result Chain Z) : Log :=
  match r with
  | Ok s => match MockFetcher.messages (fetcher h) !! s with Some m => [(m, source_conn h)] | None => [] end
  | _ => []
  end.

(** Any sequence of generated statements, snapshots, schema changes that are followed by
    their snapshot, syncs and faults, each with any outcome. *)
Inductive run (h0 : t) : Log -> t -> Prop :=
| run_start : run h0 [] h0
| run_dml log h op now n h' r :
    run h0 log h -> plain_dml op = true -> is_u64 now -> current_sequence h < u64_max ->
    execute_and_sequence h now (dml_to_sql op) n = (h', r) -> run h0 (log ++ sent h' r) h'
| run_snapshot log h now n h' r :
    run h0 log h -> is_u64 now -> current_sequence h < u64_max ->
    create_and_sequence_snapshot h now n = (h', r) -> run h0 (log ++ sent h' r) h'
| run_migrate log h sql h1 r1 now n h' s :
    run h0 log h -> is_u64 now -> current_sequence h < u64_max ->
    execute_ddl h sql = (h1, r1) -> keyed (source_conn h1) ->
    create_and_sequence_snapshot h1 now n = (h', Ok s) -> run h0 (log ++ sent h' (Ok s)) h'
| run_sync log h now h' r :
    run h0 log h -> sync_validator h now = (h', r) -> run h0 log h'
| run_fault log h fault :
    run h0 log h -> detectable log h fault -> run h0 log (inject_fault h fault).

Record under_faults (d0 : Db) (km : EvmKeyManager.t) (log : Log) (h : t) : Prop := {
  uf_logged : logged d0 km log h;
  uf_tampered : tampered (pubkey h) log (fetcher h);
  uf_length : Z.of_nat (length log) <= u64_max;
  uf_follows : exists k, follows d0 log (pubkey h) (validator h) k;
}.

Lemma tampered_snoc pk log f m d :
  tampered pk log f -> tampered pk (log ++ [(m, d)]) (MockFetcher.add_message f m).
Proof.
  intros [Hb Hm]. apply add_tampered.
  - split; [done|]. eapply map_Forall_impl; [exact Hm|]. intros z x (e & He & Hv). exists e. split; [set_solver|done].
  - exists (m, d). split; [set_solver|done].
Qed.

Lemma under_faults_appends d0 km log h h' r :
  Z.of_nat (length log) < u64_max -> pubkey h = EvmKeyManager.public_key km ->
  tampered (pubkey h) log (fetcher h) -> (exists k, follows d0 log (pubkey h) (validator h) k) ->
  appends d0 km log h h' r -> under_faults d0 km (log ++ sent h' r) h'.
Proof.
  intros Hl Hpk Ht [k Hf] (m & -> & Hlog & Hm & Hfe & Hv). unfold sent. rewrite Hfe. cbn. rewrite Hm, lookup_insert_eq.
  assert (Hp : pubkey h' = pubkey h) by (rewrite Hpk; apply Hlog).
  split; [done|rewrite Hp, Hfe; by apply tampered_snoc|rewrite length_app; cbn; lia|].
  exists k. rewrite Hp, Hv. by apply follows_app.
Qed.

Lemma run_under_faults (random : PrivateKeySigner) d log h :
  signer_available (EvmKeyManager.generate random) -> keyed d -> run (started random d) log h ->
  under_faults d (EvmKeyManager.generate random) log h.
Proof using HL YL GL KL ZL SCL SNL CPL WL.
  intros Hav Hk. induction 1 as [|log h op now n h' r _ IH Hp Hnow Hc E|log h now n h' r _ IH Hnow Hc E
      |log h sql h1 r1 now n h' s _ IH Hnow Hc Ed Hk1 E|log h now h' r _ IH E|log h fault _ IH Hd].
  - destruct (started_follows random d Hk). split; [done|split; [done|apply map_Forall_empty]|done|by eexists].
  - destruct IH as [Hlog Ht Hl Hf]. pose proof Hlog as [[Hpk _ _ _] _ _].
    rewrite (sequenced_current d (EvmKeyManager.generate random) log) in Hc by apply Hlog.
    apply (execute_and_sequence_appends d (EvmKeyManager.generate random) log) in E as [[Hr ->]|Hap]; try done.
    + destruct r; [done|..]; cbn; by rewrite app_nil_r.
    + by eapply under_faults_appends.
  - destruct IH as [Hlog Ht Hl Hf]. pose proof Hlog as [[Hpk _ _ _] _ Hks].
    rewrite (sequenced_current d (EvmKeyManager.generate random) log) in Hc by apply Hlog.
    apply (snapshot_appends d (EvmKeyManager.generate random) log) in E as [[Hr ->]|Hap]; try done.
    + destruct r; [done|..]; cbn; by rewrite app_nil_r.
    + by eapply under_faults_appends.
    + by destruct Hlog.
  - destruct IH as [[Hs _ _] Ht Hl Hf]. pose proof (seq_pubkey _ _ _ _ Hs) as Hpk.
    rewrite (sequenced_current d (EvmKeyManager.generate random) log) in Hc by done.
    unfold execute_ddl in Ed. destruct (execute_batch (source_conn h) sql) as [db rd]. simplify_eq.
    apply (snapshot_appends d (EvmKeyManager.generate random) log) in E as [[Hr _]|Hap]; try done.
    + by eapply (under_faults_appends _ _ _ (with_source h db)).
    + by destruct Hs.
  - destruct IH as [[Hs Hv Hks] Ht Hl [k Hf]]. unfold sync_validator, Validator.sync_to_head in E.
    rewrite (fol_next _ _ _ _ _ Hf) in E.
    destruct (Validator.sync_loop _ _ _ _ _ _) as [v r'] eqn:El. simplify_eq.
    destruct (sync_loop_follows _ _ _ _ _ _ _ _ _ _ _ Hs Ht Hl Hf El) as [k' Hf'].
    split; [split; [by destruct Hs|done..]|done|done|by exists k'].
  - destruct IH as [[Hs Hv Hks] Ht Hl Hf].
    split; [split; [by destruct Hs|done..]|exact (inject_tampered log h fault Hd Ht)|done|done].
Qed.

(** C15. Faults never corrupt the replica.  Through any run of statements, snapshots,
    schema changes with their snapshots, syncs and injected faults (fetch failures,
    corrupted payloads, swapped, duplicated, shifted or re-signed messages), in any
    order and whatever each returned, from a keyed database and a signer that answers, as
    long as no corruption hits on a payload that a signature of the log happens to fit
    ([detectable]): the replica's database is exactly the database
    the source had when the validator's next number was about to be assigned, and the
    last entry of the log is the source itself. *)
Theorem faults_never_corrupt (random : PrivateKeySigner) d log h :
  signer_available (EvmKeyManager.generate random) -> keyed d -> run (started random d) log h ->
  (exists k, StateStore.next_sequence (Validator.state (validator h)) = Ok (Z.of_nat k) /\
     (d :: log.*2) !! k = Some (replica h)) /\
  current_sequence h = Z.of_nat (length log) /\ (d :: log.*2) !! length log = Some (source_conn h).
Proof using HL YL GL KL ZL SCL SNL CPL WL.
  intros Hav Hk H. destruct (run_under_faults random d log h Hav Hk H) as [[Hs Hv _] _ _ [k [(d' & Hd & Hp) Hn _]]].
  split_and!; [|by eapply sequenced_current|done].
  exists k. split; [done|]. unfold replica. by rewrite (plain_conn _ _ Hp).
Qed.
End harness.
