(* ===== verification/Grammar.v ===== *)
(** * Random SQL (crates/synddb-fuzzer/src/grammar.rs, generators.rs)

    The generator that expands a grammar with a random source, and what the strategies
    make of the values they draw.  A draw takes the generator's state and returns the
    new one; it panics on an empty range or a probability outside the unit interval.
    The scenarios generated are proved to fit their own schema. *)
From Stdlib Require Import Ascii Strings.Byte Floats.SpecFloat.
From S2P Require Import Prelude RustStd Extern SignedTypes Harness Scenarios HarnessProps.

(** ** The random source *)
Class GrammarRng `{Rng} := {
  (** [random_bool(p)], for [p] between 0 and 1 *)
  bernoulli : spec_float -> RngState -> bool * RngState;
  random_i64 : RngState -> Z * RngState;
  random_u8 : RngState -> byte * RngState;
  (** [random_range(lo..hi)] on [f64] *)
  random_real : spec_float -> spec_float -> RngState -> spec_float * RngState;
}.

(** The [f64] constants of the source. *)
Definition f64_0_2 : spec_float := S754_finite false 7205759403792794 (-55).
Definition f64_0_5 : spec_float := S754_finite false 4503599627370496 (-53).
Definition f64_0_7 : spec_float := S754_finite false 6305039478318694 (-53).
Definition f64_1 : spec_float := S754_finite false 4503599627370496 (-52).
Definition f64_1e10 (negative : bool) : spec_float := S754_finite negative 5242880000000000 (-19).
Definition f64_1e308 : spec_float := S754_finite false 5010420900022432 971.
Definition f64_max : spec_float := S754_finite false 9007199254740991 971.
Definition f64_min_positive : spec_float := S754_finite false 4503599627370496 (-1074).
Definition in_unit (p : spec_float) : bool := SFleb (S754_zero false) p && SFleb p f64_1.

Definition u32_add (a b : Z) : Z := (a + b) mod 2 ^ 32.

(** ** grammar.rs *)
Module GrammarConfig.
Record t := mk {
  max_depth : Z;
  max_columns : Z;
  max_operations : Z;
  edge_case_probability : spec_float;
  seed : option Z;
}.
Definition default : t := mk 3 5 20 f64_0_2 None.
End GrammarConfig.

Module GrammarScenario.
Record t := mk { schema : list DdlOperation; operations : list DmlOperation }.
Definition schema_sql (s : t) : list string := map ddl_to_sql (schema s).
Definition operation_sql `{Hex} (s : t) : list string := map dml_to_sql (operations s).
End GrammarScenario.

Inductive EdgeCasePattern :=
| EmptyValues | BoundaryIntegers | SpecialFloats | ManyNulls | UnicodeStrings | LargeBlobs | ManyUpdatesToOneRow
| InsertThenDelete.

Module SqlGrammar.
Section ops.
Context `{RG : Rng} `{GR : !GrammarRng}.

Record t := mk { config : GrammarConfig.t; rng : RngState; table_counter : Z; column_counter : Z }.
Definition with_rng (g : t) (r : RngState) : t := mk (config g) r (table_counter g) (column_counter g).
Definition with_seed (config : GrammarConfig.t) (seed : Z) : t := mk config (seed_from_u64 seed) 0 0.

(** What a generator returns: a value and the next state, or a panic. *)
Definition drawn (A : Type) : Type := result Empty_set (A * t).
Definition unreachable {A} : drawn A := Panic "internal error: entered unreachable code".

Definition random_range (lo hi : Z) (g : t) : drawn Z :=
  if hi <=? lo then Panic "cannot sample empty range"
  else let '(z, r) := Scenarios.random_range lo hi (rng g) in Ok (z, with_rng g r).
Definition random_bool (p : spec_float) (g : t) : drawn bool :=
  if in_unit p then let '(b, r) := bernoulli p (rng g) in Ok (b, with_rng g r)
  else Panic "p is outside range [0.0, 1.0]".
Definition random_integer (g : t) : drawn SqlValue :=
  let '(i, r) := random_i64 (rng g) in Ok (SqlInteger i, with_rng g r).
Definition random_float (g : t) : drawn SqlValue :=
  let '(f, r) := random_real (f64_1e10 true) (f64_1e10 false) (rng g) in Ok (SqlReal f, with_rng g r).

Definition gen_table_name (g : t) : drawn string :=
  let n := u32_add (table_counter g) 1 in
  Ok ("tbl_" +:+ int_to_string n, mk (config g) (rng g) n (column_counter g)).
Definition gen_column_name (g : t) : drawn string :=
  let n := u32_add (column_counter g) 1 in
  Ok ("col_" +:+ int_to_string n, mk (config g) (rng g) (table_counter g) n).

Definition gen_column_type (g : t) : drawn ColumnType :=
  let? '(k, g) := random_range 0 5 g in
  match k with
  | 0 => Ok (ColInteger, g)
  | 1 => Ok (ColReal, g)
  | 2 => Ok (ColText, g)
  | 3 => Ok (ColBlob, g)
  | 4 => Ok (ColAny, g)
  | _ => unreachable
  end.

Fixpoint gen_letters (n : nat) (g : t) : drawn string :=
  match n with
  | O => Ok (EmptyString, g)
  | S n' =>
      let? '(c, g) := random_range 97 123 g in
      let? '(s, g) := gen_letters n' g in
      Ok (String (ascii_of_nat (Z.to_nat c)) s, g)
  end.
Fixpoint gen_bytes (n : nat) (g : t) : drawn bytes :=
  match n with
  | O => Ok ([], g)
  | S n' =>
      let '(b, r) := random_u8 (rng g) in
      let? '(l, g) := gen_bytes n' (with_rng g r) in
      Ok (b :: l, g)
  end.
Definition gen_text (least : Z) (g : t) : drawn SqlValue :=
  let? '(len, g) := random_range least 50 g in
  let? '(text, g) := gen_letters (Z.to_nat len) g in
  Ok (SqlText text, g).
Definition gen_blob (least : Z) (g : t) : drawn SqlValue :=
  let? '(len, g) := random_range least 50 g in
  let? '(blob, g) := gen_bytes (Z.to_nat len) g in
  Ok (SqlBlob blob, g).

Definition gen_value (favor_edge_cases : bool) (g : t) : drawn SqlValue :=
  let? '(is_edge_case, g) :=
    if favor_edge_cases then random_bool (GrammarConfig.edge_case_probability (config g)) g else Ok (false, g) in
  if is_edge_case then
    let? '(k, g) := random_range 0 12 g in
    match k with
    | 0 => Ok (SqlNull, g)
    | 1 => Ok (SqlInteger 0, g)
    | 2 => Ok (SqlInteger (-1), g)
    | 3 => Ok (SqlInteger i64_max, g)
    | 4 => Ok (SqlInteger (- 2 ^ 63), g)
    | 5 => Ok (SqlReal (S754_zero false), g)
    | 6 => Ok (SqlReal (S754_zero true), g)
    | 7 => Ok (SqlReal f64_min_positive, g)
    | 8 => Ok (SqlReal f64_max, g)
    | 9 => Ok (SqlText EmptyString, g)
    | 10 => Ok (SqlBlob [], g)
    | 11 => Ok (SqlText " ", g)
    | _ => unreachable
    end
  else
    let? '(k, g) := random_range 0 5 g in
    match k with
    | 0 => Ok (SqlNull, g)
    | 1 => random_integer g
    | 2 => random_float g
    | 3 => gen_text 0 g
    | 4 => gen_blob 0 g
    | _ => unreachable
    end.

Definition gen_non_null_value (g : t) : drawn SqlValue :=
  let? '(k, g) := random_range 0 4 g in
  match k with
  | 0 => random_integer g
  | 1 => random_float g
  | 2 => gen_text 1 g
  | 3 => gen_blob 1 g
  | _ => unreachable
  end.

Definition gen_column_def (is_primary_key : bool) (g : t) : drawn ColumnDef.t :=
  let? '(name, g) := gen_column_name g in
  let? '(col_type, g) := if is_primary_key then Ok (ColInteger, g) else gen_column_type g in
  let? '(nullable, g) := if is_primary_key then Ok (false, g) else random_bool f64_0_7 g in
  Ok (ColumnDef.mk name col_type nullable is_primary_key, g).

Fixpoint gen_column_defs (n : nat) (g : t) : drawn (list ColumnDef.t) :=
  match n with
  | O => Ok ([], g)
  | S n' =>
      let? '(c, g) := gen_column_def false g in
      let? '(cs, g) := gen_column_defs n' g in
      Ok (c :: cs, g)
  end.

(** The name and the columns of the table, and whether [IF NOT EXISTS] is said. *)
Definition gen_table (g : t) : drawn (string * list ColumnDef.t * bool) :=
  let? '(table_name, g) := gen_table_name g in
  let? '(num_columns, g) := random_range 1 (GrammarConfig.max_columns (config g) + 1) g in
  let? '(key, g) := gen_column_def true g in
  let? '(others, g) := gen_column_defs (Z.to_nat (num_columns - 1)) g in
  let? '(if_not_exists, g) := random_bool f64_0_5 g in
  Ok ((table_name, key :: others, if_not_exists), g).
Definition gen_create_table (g : t) : drawn DdlOperation :=
  let? '((table_name, columns, if_not_exists), g) := gen_table g in
  Ok (CreateTable table_name columns if_not_exists, g).

Definition gen_column_value (col : ColumnDef.t) (g : t) : drawn SqlValue :=
  if ColumnDef.primary_key col || negb (ColumnDef.nullable col) then
    if ColumnDef.primary_key col then random_integer g else gen_non_null_value g
  else gen_value true g.
Fixpoint gen_values (columns : list ColumnDef.t) (g : t) : drawn (list SqlValue) :=
  match columns with
  | [] => Ok ([], g)
  | col :: columns' =>
      let? '(v, g) := gen_column_value col g in
      let? '(vs, g) := gen_values columns' g in
      Ok (v :: vs, g)
  end.
Definition gen_insert (table_name : string) (columns : list ColumnDef.t) (g : t) : drawn DmlOperation :=
  let? '(values, g) := gen_values columns g in
  Ok (InsertOp table_name (map ColumnDef.name columns) values, g).

(** [&l[rng.random_range(0..l.len())]] *)
Definition pick {A} (l : list A) (g : t) : drawn A :=
  let? '(i, g) := random_range 0 (Z.of_nat (length l)) g in
  match l !! Z.to_nat i with Some a => Ok (a, g) | None => Panic "index out of bounds" end.

Definition gen_update (table_name : string) (columns : list ColumnDef.t) (g : t) : drawn DmlOperation :=
  let? '(set_col, g) := pick columns g in
  let? '(where_col, g) := pick columns g in
  let? '(set_value, g) := gen_value true g in
  let? '(where_value, g) := gen_value true g in
  Ok (UpdateOp table_name (ColumnDef.name set_col) set_value (ColumnDef.name where_col) where_value, g).

Definition gen_delete (table_name : string) (columns : list ColumnDef.t) (g : t) : drawn DmlOperation :=
  let? '(where_col, g) := pick columns g in
  let? '(where_value, g) := gen_value true g in
  Ok (DeleteOp table_name (ColumnDef.name where_col) where_value, g).

Definition gen_dml_operation (table_name : string) (columns : list ColumnDef.t) (g : t) : drawn DmlOperation :=
  let? '(k, g) := random_range 0 10 g in
  if (0 <=? k) && (k <=? 5) then gen_insert table_name columns g
  else if (6 <=? k) && (k <=? 7) then gen_update table_name columns g
  else if (8 <=? k) && (k <=? 9) then gen_delete table_name columns g
  else unreachable.

(** Operations, each on a table picked among [tables]. *)
Fixpoint gen_operations (n : nat) (tables : list (string * list ColumnDef.t)) (g : t) : drawn (list DmlOperation) :=
  match n with
  | O => Ok ([], g)
  | S n' =>
      let? '((table_name, columns), g) := pick tables g in
      let? '(op, g) := gen_dml_operation table_name columns g in
      let? '(ops, g) := gen_operations n' tables g in
      Ok (op :: ops, g)
  end.
(** All on one table: nothing is drawn to pick it. *)
Fixpoint gen_table_operations (n : nat) (table_name : string) (columns : list ColumnDef.t) (g : t)
  : drawn (list DmlOperation) :=
  match n with
  | O => Ok ([], g)
  | S n' =>
      let? '(op, g) := gen_dml_operation table_name columns g in
      let? '(ops, g) := gen_table_operations n' table_name columns g in
      Ok (op :: ops, g)
  end.

Definition gen_single_table_scenario (g : t) : drawn GrammarScenario.t :=
  let? '((table_name, columns, if_not_exists), g) := gen_table g in
  let? '(num_ops, g) := random_range 0 (GrammarConfig.max_operations (config g) + 1) g in
  let? '(operations, g) := gen_table_operations (Z.to_nat num_ops) table_name columns g in
  Ok (GrammarScenario.mk [CreateTable table_name columns if_not_exists] operations, g).

Fixpoint gen_tables (n : nat) (g : t) : drawn (list (string * list ColumnDef.t * bool)) :=
  match n with
  | O => Ok ([], g)
  | S n' =>
      let? '(tb, g) := gen_table g in
      let? '(tbs, g) := gen_tables n' g in
      Ok (tb :: tbs, g)
  end.
Definition gen_multi_table_scenario (num_tables : nat) (g : t) : drawn GrammarScenario.t :=
  let? '(tables, g) := gen_tables num_tables g in
  let? '(num_ops, g) := random_range 0 (GrammarConfig.max_operations (config g) + 1) g in
  let? '(operations, g) := gen_operations (Z.to_nat num_ops) (map fst tables) g in
  Ok (GrammarScenario.mk (map (fun '(name, columns, if_not_exists) => CreateTable name columns if_not_exists) tables)
        operations, g).

(** *** Edge cases: a fresh table name, all else fixed *)
Definition id_column : ColumnDef.t := ColumnDef.mk "id" ColInteger false true.
Definition value_column (name : string) (ty : ColumnType) : ColumnDef.t := ColumnDef.mk name ty true false.
Definition edge_scenario (columns : list ColumnDef.t) (operations : string -> list DmlOperation) (g : t)
  : drawn GrammarScenario.t :=
  let? '(table_name, g) := gen_table_name g in
  Ok (GrammarScenario.mk [CreateTable table_name columns true] (operations table_name), g).

Definition gen_empty_values_scenario : t -> drawn GrammarScenario.t :=
  edge_scenario [id_column; value_column "text_col" ColText; value_column "blob_col" ColBlob] (fun table =>
    [InsertOp table ["id"; "text_col"; "blob_col"]%string [SqlInteger 1; SqlText EmptyString; SqlBlob []];
     InsertOp table ["id"; "text_col"; "blob_col"]%string [SqlInteger 2; SqlText " "; SqlBlob [x00]]]).
Definition gen_boundary_integers_scenario : t -> drawn GrammarScenario.t :=
  edge_scenario [id_column; value_column "value" ColInteger] (fun table =>
    [InsertOp table ["id"; "value"]%string [SqlInteger 1; SqlInteger 0];
     InsertOp table ["id"; "value"]%string [SqlInteger 2; SqlInteger (-1)];
     InsertOp table ["id"; "value"]%string [SqlInteger 3; SqlInteger i64_max];
     InsertOp table ["id"; "value"]%string [SqlInteger 4; SqlInteger (- 2 ^ 63)]]).
Definition gen_special_floats_scenario : t -> drawn GrammarScenario.t :=
  edge_scenario [id_column; value_column "value" ColReal] (fun table =>
    [InsertOp table ["id"; "value"]%string [SqlInteger 1; SqlReal (S754_zero false)];
     InsertOp table ["id"; "value"]%string [SqlInteger 2; SqlReal (S754_zero true)];
     InsertOp table ["id"; "value"]%string [SqlInteger 3; SqlReal f64_min_positive];
     InsertOp table ["id"; "value"]%string [SqlInteger 4; SqlReal f64_1e308]]).
Definition gen_many_nulls_scenario : t -> drawn GrammarScenario.t :=
  edge_scenario [id_column; value_column "a" ColText; value_column "b" ColInteger; value_column "c" ColReal] (fun table =>
    [InsertOp table ["id"; "a"; "b"; "c"]%string [SqlInteger 1; SqlNull; SqlNull; SqlNull];
     InsertOp table ["id"; "a"; "b"; "c"]%string [SqlInteger 2; SqlText "x"; SqlNull; SqlNull]]).
Definition gen_unicode_strings_scenario : t -> drawn GrammarScenario.t :=
  edge_scenario [id_column; value_column "text" ColText] (fun table =>
    [InsertOp table ["id"; "text"]%string [SqlInteger 1; SqlText "Hello World"];
     InsertOp table ["id"; "text"]%string
       [SqlInteger 2; SqlText ("Line1" +:+ String "010" ("Line2" +:+ String "009" "Tab"))];
     InsertOp table ["id"; "text"]%string
       [SqlInteger 3; SqlText ("Quote's " +:+ String "034" ("test" +:+ String "034" EmptyString))]]).
Definition large_blob : bytes := map (fun i => byte_of_Z (i mod 256)) (seqZ 0 1000).
Definition gen_large_blobs_scenario : t -> drawn GrammarScenario.t :=
  edge_scenario [id_column; value_column "data" ColBlob] (fun table =>
    [InsertOp table ["id"; "data"]%string [SqlInteger 1; SqlBlob large_blob];
     InsertOp table ["id"; "data"]%string [SqlInteger 2; SqlBlob (replicate 500 xff)]]).
Definition gen_many_updates_scenario : t -> drawn GrammarScenario.t :=
  edge_scenario [id_column; ColumnDef.mk "counter" ColInteger false false] (fun table =>
    InsertOp table ["id"; "counter"]%string [SqlInteger 1; SqlInteger 0]
    :: map (fun i => UpdateOp table "counter" (SqlInteger i) "id" (SqlInteger 1)) (seqZ 1 10)).
Definition gen_insert_delete_scenario : t -> drawn GrammarScenario.t :=
  edge_scenario [id_column; value_column "value" ColText] (fun table =>
    [InsertOp table ["id"; "value"]%string [SqlInteger 1; SqlText "temporary"];
     DeleteOp table "id" (SqlInteger 1);
     InsertOp table ["id"; "value"]%string [SqlInteger 1; SqlText "permanent"]]).
Definition gen_edge_case_scenario (pattern : EdgeCasePattern) : t -> drawn GrammarScenario.t :=
  match pattern with
  | EmptyValues => gen_empty_values_scenario
  | BoundaryIntegers => gen_boundary_integers_scenario
  | SpecialFloats => gen_special_floats_scenario
  | ManyNulls => gen_many_nulls_scenario
  | UnicodeStrings => gen_unicode_strings_scenario
  | LargeBlobs => gen_large_blobs_scenario
  | ManyUpdatesToOneRow => gen_many_updates_scenario
  | InsertThenDelete => gen_insert_delete_scenario
  end.
End ops.
End SqlGrammar.

(** ** generators.rs: the strategies' closures, on the values drawn *)
Module Generators.

(** [retain_mut]: a column whose name was seen is dropped; the first primary key becomes
    an INTEGER, a later one no key. *)
Fixpoint retain_columns (seen : gset string) (has_pk : bool) (columns : list ColumnDef.t)
  : list ColumnDef.t * gset string * bool :=
  match columns with
  | [] => ([], seen, has_pk)
  | col :: columns' =>
      if bool_decide (ColumnDef.name col ∈ seen) then retain_columns seen has_pk columns'
      else
        let seen := {[ColumnDef.name col]} ∪ seen in
        let '(col, has_pk) :=
          if ColumnDef.primary_key col then
            if has_pk then (ColumnDef.mk (ColumnDef.name col) (ColumnDef.col_type col) (ColumnDef.nullable col) false, has_pk)
            else (ColumnDef.mk (ColumnDef.name col) ColInteger (ColumnDef.nullable col) true, true)
          else (col, has_pk) in
        let '(kept, seen, has_pk) := retain_columns seen has_pk columns' in
        (col :: kept, seen, has_pk)
  end.

(** [None]: out of fuel. *)
Fixpoint free_pk_name (fuel : nat) (i : Z) (seen : gset string) : option string :=
  match fuel with
  | O => None
  | S fuel' =>
      let name := ("pk_" +:+ int_to_string i)%string in
      if bool_decide (name ∈ seen) then free_pk_name fuel' (i + 1) seen else Some name
  end.

Definition key_column (name : string) : ColumnDef.t := ColumnDef.mk name ColInteger false true.
Definition create_table_columns (columns : list ColumnDef.t) : option (list ColumnDef.t) :=
  let '(columns, seen, has_pk) := retain_columns ∅ false columns in
  let '(columns, has_pk) := match columns with [] => ([key_column "id"], true) | _ => (columns, has_pk) end in
  if has_pk then Some columns
  else
    pk_name ← (if bool_decide ("id"%string ∈ seen) then free_pk_name (S (size seen)) 0 seen else Some "id"%string);
    Some (key_column pk_name :: columns).

(** A NULL where there must be a value becomes the number of the column. *)
Definition fix_value (i : nat) (col : ColumnDef.t) (v : SqlValue) : SqlValue :=
  match v with
  | SqlNull => if ColumnDef.primary_key col || negb (ColumnDef.nullable col) then SqlInteger (Z.of_nat i + 1) else SqlNull
  | _ => v
  end.
Fixpoint fix_values (i : nat) (columns : list ColumnDef.t) (values : list SqlValue) : list SqlValue :=
  match columns, values with
  | col :: columns', v :: values' => fix_value i col v :: fix_values (S i) columns' values'
  | _, _ => []
  end.
Definition insert_with_schema (table_name : string) (columns : list ColumnDef.t) (values : list SqlValue) : DmlOperation :=
  InsertOp table_name (map ColumnDef.name columns) (fix_values 0 columns values).
End Generators.

(** ** The scenarios fit their schema *)

(** One INTEGER PRIMARY KEY, first; the columns' names are different identifiers. *)
Record table_fits (columns : list ColumnDef.t) : Prop := {
  tf_key : exists key others, columns = key :: others /\ ColumnDef.primary_key key = true /\
             ColumnDef.col_type key = ColInteger /\ Forall (fun c => ColumnDef.primary_key c = false) others;
  tf_distinct : NoDup (map ColumnDef.name columns);
  tf_names : Forall (fun s => identifier s = true) (map ColumnDef.name columns);
}.
(** No NULL in a column that refuses it, and an integer in the primary key. *)
Definition value_fits (col : ColumnDef.t) (v : SqlValue) : Prop :=
  (v = SqlNull -> ColumnDef.primary_key col = false /\ ColumnDef.nullable col = true) /\
  (ColumnDef.primary_key col = true -> exists i, v = SqlInteger i).
(** A statement about a table of the schema and columns it has. *)
Definition op_fits (table : string) (columns : list ColumnDef.t) (op : DmlOperation) : Prop :=
  match op with
  | InsertOp name names values => name = table /\ names = map ColumnDef.name columns /\ Forall2 value_fits columns values
  | UpdateOp name set_column _ where_column _ =>
      name = table /\ set_column ∈ map ColumnDef.name columns /\ where_column ∈ map ColumnDef.name columns
  | DeleteOp name where_column _ => name = table /\ where_column ∈ map ColumnDef.name columns
  end.
Definition created (op : DdlOperation) : option (string * list ColumnDef.t) :=
  match op with CreateTable name columns _ => Some (name, columns) | _ => None end.

Record scenario_fits (s : GrammarScenario.t) (tables : list (string * list ColumnDef.t)) : Prop := {
  sf_schema : map created (GrammarScenario.schema s) = map Some tables;
  sf_distinct : NoDup tables.*1;
  sf_names : Forall (fun tb => identifier tb.1 = true /\ table_fits tb.2) tables;
  sf_operations : Forall (fun op => exists tb, tb ∈ tables /\ op_fits tb.1 tb.2 op) (GrammarScenario.operations s);
}.

(** Such statements are what the harness's theorems ask for. *)
Lemma fitting_is_plain s tables :
  scenario_fits s tables -> forallb plain_dml (GrammarScenario.operations s) = true.
Proof.
  intros [_ _ Ht Ho]. apply forallb_forall. intros op Hin%list_elem_of_In. rewrite Forall_forall in Ho. rewrite Forall_forall in Ht.
  destruct (Ho op Hin) as ([name columns] & Htb & Hop). destruct (Ht _ Htb) as [Hn [_ _ Hc]]. cbn in *.
  rewrite Forall_forall in Hc. destruct op as [n names vs|n sc sv wc wv|n wc wv]; cbn in *.
  - destruct Hop as (-> & -> & _). rewrite Hn. cbn. apply forallb_forall. intros c Hx%list_elem_of_In. by apply Hc.
  - destruct Hop as (-> & H1 & H2). by rewrite Hn, (Hc _ H1), (Hc _ H2).
  - destruct Hop as (-> & H1). by rewrite Hn, (Hc _ H1).
Qed.

Lemma digit_identifier c : is_digit c -> identifier_char c = true.
Proof. destruct c as [[] [] [] [] [] [] [] []]; intros [d Hd]; (reflexivity || discriminate Hd). Qed.

Lemma counted_identifier p n : identifier p = true -> 0 <= n -> identifier (p +:+ int_to_string n) = true.
Proof.
  unfold identifier. intros Hp Hn. apply andb_true_iff in Hp as [Hp Hne]. apply andb_true_iff. split.
  - clear Hne. induction p as [|c p IH].
    + pose proof (int_to_string_digits n Hn) as Hd. change ("" +:+ int_to_string n)%string with (int_to_string n).
      induction Hd as [|c s Hc _ IHs]; [done|]. cbn. by rewrite (digit_identifier c Hc).
    + cbn in Hp. apply andb_true_iff in Hp as [H1 H2]. rewrite string_app_cons. cbn. by rewrite H1, IH.
  - destruct p; [done|]. by rewrite string_app_cons.
Qed.

Lemma counted_inj p n m : 0 <= n < 2 ^ 32 -> 0 <= m < 2 ^ 32 -> (p +:+ int_to_string n = p +:+ int_to_string m)%string -> n = m.
Proof.
  intros Hn Hm H. assert (int_to_string n = int_to_string m) as E.
  { induction p as [|c p IH]; [done|]. apply IH. rewrite !string_app_cons in H. by injection H. }
  assert (Hp : parse_uint u64_max (int_to_string n) = parse_uint u64_max (int_to_string m)) by (by rewrite E).
  rewrite !parse_int_to_string in Hp by (unfold u64_max; lia). by apply Ok_inj in Hp.
Qed.

Section generated.
Context `{RG : Rng} `{GR : !GrammarRng}.
(** The random source keeps to its range. *)
Context (Hrange : forall lo hi r, lo < hi -> lo <= (Scenarios.random_range lo hi r).1 < hi).
Import SqlGrammar.

Definition yields {A} (m : drawn A) (P : A -> t -> Prop) : Prop := exists a g, m = Ok (a, g) /\ P a g.

Lemma yields_bind {A B} (m : drawn A) (k : A * t -> drawn B) P Q :
  yields m P -> (forall a g, P a g -> yields (k (a, g)) Q) -> yields (result_bind m k) Q.
Proof. intros (a & g & -> & HP) H. by apply H. Qed.
Lemma yields_ok {A} (a : A) g (P : A -> t -> Prop) : P a g -> yields (Ok (a, g)) P.
Proof. intros H. by exists a, g. Qed.
Lemma yields_impl {A} (m : drawn A) (P Q : A -> t -> Prop) : yields m P -> (forall a g, P a g -> Q a g) -> yields m Q.
Proof. intros (a & g & -> & HP) H. exists a, g. split; [done|by apply H]. Qed.

(** Only the random source has moved. *)
Definition calm (g g' : t) : Prop :=
  config g' = config g /\ table_counter g' = table_counter g /\ column_counter g' = column_counter g.
Lemma calm_refl g : calm g g.
Proof. by split_and!. Qed.
Lemma calm_rng g r : calm g (with_rng g r).
Proof. by split_and!. Qed.
#[local] Hint Resolve calm_refl calm_rng : core.
Lemma calm_trans g1 g2 g3 : calm g1 g2 -> calm g2 g3 -> calm g1 g3.
Proof. unfold calm. intuition congruence. Qed.
Definition usable (g : t) : Prop :=
  in_unit (GrammarConfig.edge_case_probability (config g)) = true /\
  1 <= GrammarConfig.max_columns (config g) /\ 0 <= GrammarConfig.max_operations (config g).
Lemma calm_usable g g' : calm g g' -> usable g -> usable g'.
Proof. intros [Hc _]. unfold usable. by rewrite Hc. Qed.

Lemma range_yields lo hi g : lo < hi -> yields (random_range lo hi g) (fun z g' => lo <= z < hi /\ calm g g').
Proof using Hrange.
  intros H. unfold random_range. rewrite (proj2 (Z.leb_gt _ _)) by done.
  pose proof (Hrange lo hi (rng g) H) as Hz. destruct (Scenarios.random_range lo hi (rng g)) as [z r]. by apply yields_ok.
Qed.
Lemma bool_yields p g : in_unit p = true -> yields (random_bool p g) (fun _ g' => calm g g').
Proof. intros H. unfold random_bool. rewrite H. destruct (bernoulli p (rng g)). by apply yields_ok. Qed.
Lemma integer_yields g : yields (random_integer g) (fun v g' => (exists i, v = SqlInteger i) /\ calm g g').
Proof. unfold random_integer. destruct (random_i64 (rng g)). apply yields_ok. by eauto. Qed.
Lemma float_yields g : yields (random_float g) (fun v g' => v <> SqlNull /\ calm g g').
Proof. unfold random_float. destruct (random_real _ _ (rng g)). by apply yields_ok. Qed.

(** A number drawn below [n] is one of the first [n]. *)
Ltac each_of k H :=
  let p := fresh "p" in
  destruct k as [|p|p]; [|repeat (destruct p as [p|p|]; try (exfalso; lia))|exfalso; lia].

Lemma column_type_yields g : yields (gen_column_type g) (fun _ g' => calm g g').
Proof using Hrange.
  eapply yields_bind; [by apply range_yields|]. intros k g' [Hk Hc]. each_of k Hk; by apply yields_ok.
Qed.
Lemma letters_yields n : forall g, yields (gen_letters n g) (fun _ g' => calm g g').
Proof using Hrange.
  induction n as [|n IH]; intros g; [by apply yields_ok|].
  eapply yields_bind; [by apply range_yields|]. intros c g1 [_ H1].
  eapply yields_bind; [apply IH|]. intros s g2 H2. apply yields_ok. by eapply calm_trans.
Qed.
Lemma bytes_yields n : forall g, yields (gen_bytes n g) (fun _ g' => calm g g').
Proof.
  induction n as [|n IH]; intros g; [by apply yields_ok|]. cbn [gen_bytes]. destruct (random_u8 (rng g)) as [b r].
  eapply yields_bind; [apply IH|]. intros l g2 H2. by apply yields_ok.
Qed.
Lemma text_yields least g : least < 50 -> yields (gen_text least g) (fun v g' => v <> SqlNull /\ calm g g').
Proof using Hrange.
  intros H. eapply yields_bind; [by apply range_yields|]. intros len g1 [_ H1].
  eapply yields_bind; [apply letters_yields|]. intros s g2 H2. apply yields_ok. split; [done|by eapply calm_trans].
Qed.
Lemma blob_yields least g : least < 50 -> yields (gen_blob least g) (fun v g' => v <> SqlNull /\ calm g g').
Proof using Hrange.
  intros H. eapply yields_bind; [by apply range_yields|]. intros len g1 [_ H1].
  eapply yields_bind; [apply bytes_yields|]. intros s g2 H2. apply yields_ok. split; [done|by eapply calm_trans].
Qed.
Lemma integer_not_null g : yields (random_integer g) (fun v g' => v <> SqlNull /\ calm g g').
Proof. eapply yields_impl; [apply integer_yields|]. intros v g' [[i ->] Hc]. done. Qed.

(** From a state that a draw has left calm. *)
Lemma yields_after {A} (m : drawn A) g0 g (P : A -> Prop) :
  calm g0 g -> yields m (fun a g' => P a /\ calm g g') -> yields m (fun a g' => P a /\ calm g0 g').
Proof. intros Hc H. eapply yields_impl; [exact H|]. intros a g' [HP Hc']. split; [done|by eapply calm_trans]. Qed.

Lemma value_yields b g : usable g -> yields (gen_value b g) (fun _ g' => True /\ calm g g').
Proof using Hrange.
  intros Hu. unfold gen_value. eapply (yields_bind _ _ (fun _ g' => calm g g')).
  { destruct b; [by apply bool_yields, Hu|by apply yields_ok]. }
  intros [] g1 H1; (eapply yields_bind; [by apply range_yields|]); intros k g2 [Hk H2];
    pose proof (calm_trans _ _ _ H1 H2) as H3; each_of k Hk; try by apply yields_ok.
  all: apply (yields_after _ g g2 (fun _ => True) H3); eapply yields_impl;
    [first [apply integer_not_null|apply float_yields|by apply text_yields|by apply blob_yields]|]; by intros v g' [_ ?].
Qed.

Lemma non_null_yields g : yields (gen_non_null_value g) (fun v g' => v <> SqlNull /\ calm g g').
Proof using Hrange.
  eapply yields_bind; [by apply range_yields|]. intros k g1 [Hk H1].
  each_of k Hk; apply (yields_after _ g g1); try done;
    first [apply integer_not_null|apply float_yields|by apply text_yields|by apply blob_yields].
Qed.

(** *** Tables *)

(** The names [prefix]a, [prefix](a+1), ... *)
Definition counted (prefix : string) (a : Z) (n : nat) : list string :=
  map (fun i => (prefix +:+ int_to_string i)%string) (seqZ a (Z.of_nat n)).

Lemma counted_distinct p a n : 0 <= a -> a + Z.of_nat n <= 2 ^ 32 -> NoDup (counted p a n).
Proof.
  intros Ha Hn. apply NoDup_fmap_2_strong; [|apply NoDup_seqZ].
  intros x y Hx%elem_of_seqZ Hy%elem_of_seqZ. apply counted_inj; lia.
Qed.
Lemma counted_identifiers p a n : identifier p = true -> 0 <= a -> Forall (fun s => identifier s = true) (counted p a n).
Proof.
  intros Hp Ha. apply Forall_fmap, Forall_forall. intros i Hi%elem_of_seqZ. cbn. apply counted_identifier; [done|lia].
Qed.
Lemma counted_S p a n : counted p a (S n) = (p +:+ int_to_string a)%string :: counted p (a + 1) n.
Proof.
  unfold counted. rewrite seqZ_cons by lia. cbn [map]. do 2 f_equal. f_equal; lia.
Qed.

(** The counters have moved by so much. *)
Record grown (g g' : t) (tables columns : Z) : Prop := {
  gr_config : config g' = config g;
  gr_tables : table_counter g' = table_counter g + tables;
  gr_columns : column_counter g' = column_counter g + columns;
}.
Lemma grown_calm g g1 g2 a b : grown g g1 a b -> calm g1 g2 -> grown g g2 a b.
Proof. intros [H1 H2 H3] (C1 & C2 & C3). split; congruence. Qed.
Lemma grown_usable g g' a b : grown g g' a b -> usable g -> usable g'.
Proof. intros [Hc _ _]. unfold usable. by rewrite Hc. Qed.

Lemma u32_add_small a b : 0 <= a + b < 2 ^ 32 -> u32_add a b = a + b.
Proof. intros H. by apply Z.mod_small. Qed.

Lemma column_def_yields pk g :
  0 <= column_counter g < 2 ^ 32 - 1 ->
  yields (gen_column_def pk g) (fun c g' =>
    ColumnDef.name c = ("col_" +:+ int_to_string (column_counter g + 1))%string /\ ColumnDef.primary_key c = pk /\
    (pk = true -> ColumnDef.col_type c = ColInteger) /\ grown g g' 0 1).
Proof using Hrange.
  intros Hc. unfold gen_column_def, gen_column_name. cbn [result_bind]. rewrite u32_add_small by lia.
  set (g1 := mk _ _ _ _). assert (H1 : grown g g1 0 1) by (split; cbn; lia || done).
  eapply (yields_bind _ _ (fun ty g' => (pk = true -> ty = ColInteger) /\ calm g1 g')).
  { destruct pk; [by apply yields_ok|]. eapply yields_impl; [apply column_type_yields|]. by intros. }
  intros ty g2 [Hty H2]. eapply (yields_bind _ _ (fun _ g' => calm g2 g')).
  { destruct pk; [by apply yields_ok|]. by apply bool_yields. }
  intros nl g3 H3. apply yields_ok. split_and!; [done|done|done|]. by eapply grown_calm, calm_trans.
Qed.

Lemma column_defs_yield n : forall g,
  0 <= column_counter g -> column_counter g + Z.of_nat n < 2 ^ 32 ->
  yields (gen_column_defs n g) (fun cs g' =>
    map ColumnDef.name cs = counted "col_" (column_counter g + 1) n /\
    Forall (fun c => ColumnDef.primary_key c = false) cs /\ grown g g' 0 (Z.of_nat n)).
Proof using Hrange.
  induction n as [|n IH]; intros g Hc Hn; cbn [gen_column_defs].
  { apply yields_ok. split_and!; [done|done|]. split; [done|lia|cbn; lia]. }
  eapply yields_bind; [apply column_def_yields; lia|]. intros c g1 (Hnm & Hpk & _ & [G1 G2 G3]).
  eapply yields_bind; [apply IH; lia|]. intros cs g2 (Hnms & Hpks & [G4 G5 G6]). apply yields_ok.
  split_and!; [|by constructor|split; [congruence|lia|lia]].
  cbn [map]. rewrite counted_S, Hnm, Hnms, G3. done.
Qed.

(** A table, its columns within the limit. *)
Lemma table_yields g :
  usable g -> 0 <= table_counter g -> table_counter g + 1 < 2 ^ 32 -> 0 <= column_counter g ->
  column_counter g + GrammarConfig.max_columns (config g) < 2 ^ 32 ->
  yields (gen_table g) (fun tb g' =>
    tb.1.1 = ("tbl_" +:+ int_to_string (table_counter g + 1))%string /\ table_fits tb.1.2 /\
    exists k, grown g g' 1 k /\ 0 <= k <= GrammarConfig.max_columns (config g)).
Proof using Hrange.
  intros Hu Ht0 Ht Hc0 Hc. unfold gen_table, gen_table_name. cbn [result_bind]. rewrite u32_add_small by lia.
  set (g1 := mk _ _ _ _). assert (H1 : grown g g1 1 0) by (split; cbn; lia || done).
  change (config g1) with (config g). destruct Hu as (Hp & Hmc & Hmo).
  eapply yields_bind; [apply range_yields; lia|]. intros k g2 [Hk H2]. pose proof (grown_calm _ _ _ _ _ H1 H2) as [G1 G2 G3].
  eapply yields_bind; [apply column_def_yields; lia|]. intros key g3 (Hnm & Hpk & Hty & [G4 G5 G6]).
  eapply yields_bind; [apply column_defs_yield; lia|]. intros cs g4 (Hnms & Hpks & [G7 G8 G9]).
  eapply yields_bind; [by apply bool_yields|]. intros ine g5 (C1 & C2 & C3). apply yields_ok. cbn [fst snd].
  assert (Hns : map ColumnDef.name (key :: cs) = counted "col_" (column_counter g + 1) (S (Z.to_nat (k - 1)))).
  { rewrite counted_S. cbn [map]. rewrite Hnm, Hnms, G6, G3, Z.add_0_r. done. }
  split_and!; [done| |exists k; split; [split; [congruence|lia|lia]|lia]].
  split; [exists key, cs; split_and!; by try apply Hty| |]; rewrite Hns.
  - apply counted_distinct; lia.
  - apply counted_identifiers; [reflexivity|lia].
Qed.

(** *** Operations *)
Lemma pick_yields {A} (l : list A) g : l <> [] -> yields (pick l g) (fun a g' => a ∈ l /\ calm g g').
Proof using Hrange.
  intros Hl. unfold pick. assert (0 < Z.of_nat (length l)) by (destruct l; [done|cbn; lia]).
  eapply yields_bind; [by apply range_yields|]. intros i g1 [Hi H1].
  destruct (lookup_lt_is_Some_2 l (Z.to_nat i)) as [a Ha]; [lia|]. rewrite Ha. apply yields_ok.
  split; [by eapply list_elem_of_lookup_2|done].
Qed.

Lemma column_value_yields col g :
  usable g -> yields (gen_column_value col g) (fun v g' => value_fits col v /\ calm g g').
Proof using Hrange.
  intros Hu. unfold gen_column_value. destruct (ColumnDef.primary_key col) eqn:Hpk; cbn [orb].
  { eapply yields_impl; [apply integer_yields|]. intros v g' [[i ->] Hc]. split; [|done]. split; [done|]. by eauto. }
  destruct (ColumnDef.nullable col) eqn:Hn; cbn [negb].
  - eapply yields_impl; [by apply value_yields|]. intros v g' [_ Hc]. split; [|done]. split; [done|by rewrite Hpk].
  - eapply yields_impl; [apply non_null_yields|]. intros v g' [Hv Hc]. split; [|done]. split; [done|by rewrite Hpk].
Qed.

Lemma values_yield columns : forall g,
  usable g -> yields (gen_values columns g) (fun vs g' => Forall2 value_fits columns vs /\ calm g g').
Proof using Hrange.
  induction columns as [|col columns IH]; intros g Hu; cbn [gen_values]; [by apply yields_ok|].
  eapply yields_bind; [by apply column_value_yields|]. intros v g1 [Hv H1].
  eapply yields_bind; [apply IH; by eapply calm_usable|]. intros vs g2 [Hvs H2]. apply yields_ok.
  split; [by constructor|by eapply calm_trans].
Qed.

Lemma insert_yields table columns g :
  usable g -> yields (gen_insert table columns g) (fun op g' => op_fits table columns op /\ calm g g').
Proof using Hrange.
  intros Hu. eapply yields_bind; [by apply values_yield|]. intros vs g1 [Hvs H1]. by apply yields_ok.
Qed.

Lemma picked_name columns g :
  columns <> [] ->
  yields (pick columns g) (fun c g' => ColumnDef.name c ∈ map ColumnDef.name columns /\ calm g g').
Proof using Hrange.
  intros Hne. eapply yields_impl; [by apply pick_yields|]. intros c g' [Hc H]. split; [by apply list_elem_of_fmap_2|done].
Qed.

Lemma update_yields table columns g :
  usable g -> columns <> [] ->
  yields (gen_update table columns g) (fun op g' => op_fits table columns op /\ calm g g').
Proof using Hrange.
  intros Hu Hne. eapply yields_bind; [by apply picked_name|]. intros c1 g1 [Hc1 H1].
  eapply yields_bind; [by apply picked_name|]. intros c2 g2 [Hc2 H2]. pose proof (calm_trans _ _ _ H1 H2) as H12.
  eapply yields_bind; [apply value_yields; by eapply calm_usable|]. intros v1 g3 [_ H3].
  pose proof (calm_trans _ _ _ H12 H3) as H13.
  eapply yields_bind; [apply value_yields; by eapply calm_usable|]. intros v2 g4 [_ H4]. apply yields_ok.
  split; [done|by eapply calm_trans].
Qed.

Lemma delete_yields table columns g :
  usable g -> columns <> [] ->
  yields (gen_delete table columns g) (fun op g' => op_fits table columns op /\ calm g g').
Proof using Hrange.
  intros Hu Hne. eapply yields_bind; [by apply picked_name|]. intros c1 g1 [Hc1 H1].
  eapply yields_bind; [apply value_yields; by eapply calm_usable|]. intros v1 g2 [_ H2]. apply yields_ok.
  split; [done|by eapply calm_trans].
Qed.

Lemma dml_yields table columns g :
  usable g -> columns <> [] ->
  yields (gen_dml_operation table columns g) (fun op g' => op_fits table columns op /\ calm g g').
Proof using Hrange.
  intros Hu Hne. unfold gen_dml_operation. eapply yields_bind; [by apply range_yields|]. intros k g0 [Hk H0].
  apply (yields_after _ g g0); [done|]. pose proof (calm_usable _ _ H0 Hu) as Hu0.
  destruct (Z.leb_spec 0 k); [|lia]. destruct (Z.leb_spec k 5); cbn [andb]; [by apply insert_yields|].
  destruct (Z.leb_spec 6 k); [|lia]. destruct (Z.leb_spec k 7); cbn [andb]; [by apply update_yields|].
  destruct (Z.leb_spec 8 k); [|lia]. destruct (Z.leb_spec k 9); cbn [andb]; [by apply delete_yields|lia].
Qed.

Lemma table_operations_yield table columns n : forall g,
  usable g -> columns <> [] ->
  yields (gen_table_operations n table columns g) (fun ops g' => Forall (op_fits table columns) ops /\ calm g g').
Proof using Hrange.
  induction n as [|n IH]; intros g Hu Hne; cbn [gen_table_operations]; [by apply yields_ok|].
  eapply yields_bind; [by apply dml_yields|]. intros op g1 [Ho H1].
  eapply yields_bind; [apply IH; [by eapply calm_usable|done]|]. intros ops g2 [Hos H2]. apply yields_ok.
  split; [by constructor|by eapply calm_trans].
Qed.

Lemma operations_yield tables n : forall g,
  usable g -> tables <> [] -> Forall (fun tb => tb.2 <> []) tables ->
  yields (gen_operations n tables g) (fun ops g' =>
    Forall (fun op => exists tb, tb ∈ tables /\ op_fits tb.1 tb.2 op) ops /\ calm g g').
Proof using Hrange.
  intros g Hu Hne Hcs. revert g Hu. induction n as [|n IH]; intros g Hu; cbn [gen_operations]; [by apply yields_ok|].
  eapply yields_bind; [by apply pick_yields|]. intros [name columns] g1 [Htb H1]. cbn.
  pose proof (proj1 (Forall_forall _ _) Hcs _ Htb) as Hc. cbn in Hc.
  eapply yields_bind; [apply dml_yields; [by eapply calm_usable|done]|]. intros op g2 [Ho H2].
  pose proof (calm_trans _ _ _ H1 H2) as H12.
  eapply yields_bind; [apply IH; by eapply calm_usable|]. intros ops g3 [Hos H3]. apply yields_ok.
  split; [constructor; [by exists (name, columns)|done]|by eapply calm_trans].
Qed.

Lemma table_fits_nonempty columns : table_fits columns -> columns <> [].
Proof. by intros [(key & others & -> & _) _ _]. Qed.

(** *** Scenarios *)
Lemma single_table_yields g :
  usable g -> 0 <= table_counter g -> table_counter g + 1 < 2 ^ 32 -> 0 <= column_counter g ->
  column_counter g + GrammarConfig.max_columns (config g) < 2 ^ 32 ->
  yields (gen_single_table_scenario g) (fun s _ => exists tables, scenario_fits s tables).
Proof using Hrange.
  intros Hu Ht0 Ht Hc0 Hc. eapply yields_bind; [by apply table_yields|].
  intros [[name columns] ine] g1 (Hn & Hf & k & Hg & _). cbn in Hn, Hf. pose proof (grown_usable _ _ _ _ Hg Hu) as Hu1.
  eapply yields_bind; [apply range_yields; destruct Hu1 as (_ & _ & ?); lia|]. intros m g2 [_ H2].
  eapply yields_bind; [apply table_operations_yield; [by eapply calm_usable|by apply table_fits_nonempty]|].
  intros ops g3 [Hops _]. apply yields_ok. exists [(name, columns)]. split; cbn.
  - done.
  - apply NoDup_singleton.
  - constructor; [|done]. split; [|done]. cbn. rewrite Hn. apply counted_identifier; [reflexivity|lia].
  - eapply Forall_impl; [exact Hops|]. intros op Hop. exists (name, columns). split; [set_solver|done].
Qed.

Lemma tables_yield n : forall g,
  usable g -> 0 <= table_counter g -> table_counter g + Z.of_nat n < 2 ^ 32 -> 0 <= column_counter g ->
  column_counter g + Z.of_nat n * GrammarConfig.max_columns (config g) < 2 ^ 32 ->
  yields (gen_tables n g) (fun tbs g' => usable g' /\
    (map fst tbs).*1 = counted "tbl_" (table_counter g + 1) n /\ Forall (fun tb => table_fits tb.1.2) tbs).
Proof using Hrange.
  induction n as [|n IH]; intros g Hu Ht0 Ht Hc0 Hc; cbn [gen_tables]; [by apply yields_ok|].
  pose proof Hu as (_ & Hmc & _).
  eapply yields_bind; [apply table_yields; (done || nia)|].
  intros [[name columns] ine] g1 (Hn & Hf & k & Hg & Hk). cbn in Hn, Hf.
  pose proof (grown_usable _ _ _ _ Hg Hu) as Hu1. destruct Hg as [G1 G2 G3].
  eapply yields_bind; [apply IH; rewrite ?G1; (done || nia)|]. intros tbs g2 (Hu2 & Hns & Hfs). apply yields_ok.
  split_and!; [done| |by constructor]. cbn. rewrite counted_S, Hn. f_equal. rewrite G2 in Hns. exact Hns.
Qed.

Lemma multi_table_yields n g :
  (0 < n)%nat -> usable g -> 0 <= table_counter g -> table_counter g + Z.of_nat n < 2 ^ 32 -> 0 <= column_counter g ->
  column_counter g + Z.of_nat n * GrammarConfig.max_columns (config g) < 2 ^ 32 ->
  yields (gen_multi_table_scenario n g) (fun s _ => exists tables, scenario_fits s tables /\ length tables = n).
Proof using Hrange.
  intros Hn0 Hu Ht0 Ht Hc0 Hc. eapply yields_bind; [by apply tables_yield|]. intros tbs g1 (Hu1 & Hns & Hfs).
  eapply yields_bind; [apply range_yields; destruct Hu1 as (_ & _ & ?); lia|]. intros m g2 [_ H2].
  assert (Hlen : length tbs = n).
  { apply (f_equal length) in Hns. unfold counted in Hns. rewrite length_fmap, !length_map, length_seqZ in Hns. lia. }
  eapply yields_bind; [apply operations_yield; [by eapply calm_usable|by destruct tbs; [cbn in Hlen; lia|]|]|].
  { apply Forall_fmap. eapply Forall_impl; [exact Hfs|]. intros tb Htb. by apply table_fits_nonempty. }
  intros ops g3 [Hops _]. apply yields_ok. exists (map fst tbs). split; [|by rewrite length_map]. split; cbn.
  - rewrite !map_map. apply map_ext. by intros [[name columns] ine].
  - rewrite Hns. apply counted_distinct; lia.
  - pose proof (counted_identifiers "tbl_" (table_counter g + 1) n eq_refl) as Hids. rewrite <- Hns in Hids.
    rewrite Forall_fmap in Hids. specialize (Hids ltac:(lia)). apply Forall_fmap. rewrite Forall_fmap in Hids.
    apply Forall_and. by split.
  - exact Hops.
Qed.

Lemma edge_yields columns operations g :
  0 <= table_counter g -> table_counter g + 1 < 2 ^ 32 -> table_fits columns ->
  (forall table, Forall (op_fits table columns) (operations table)) ->
  yields (edge_scenario columns operations g) (fun s _ => exists tables, scenario_fits s tables).
Proof.
  intros Ht0 Ht Hf Ho. unfold edge_scenario, gen_table_name. cbn [result_bind]. rewrite u32_add_small by lia.
  set (name := _ +:+ _). apply yields_ok. exists [(name, columns)]. split; cbn.
  - done.
  - apply NoDup_singleton.
  - constructor; [|done]. split; [|done]. apply counted_identifier; [reflexivity|lia].
  - eapply Forall_impl; [apply Ho|]. intros op Hop. exists (name, columns). split; [set_solver|done].
Qed.

(** The fixed tables and statements. *)
Ltac fixed_table :=
  split; [eexists _, _; split_and!; [reflexivity..|by repeat constructor]
         |cbn; repeat constructor; set_solver|by repeat constructor].
Ltac fixed_value := split; intros H; [first [discriminate H|by split]|first [discriminate H|by eexists]].
Ltac fixed_op :=
  lazymatch goal with
  | |- op_fits _ _ (InsertOp _ _ _) => split_and!; [done|done|repeat (constructor; [fixed_value|]); constructor]
  | |- _ => cbn; split_and!; [done|set_solver..]
  end.

Lemma edge_case_yields pattern g :
  0 <= table_counter g -> table_counter g + 1 < 2 ^ 32 ->
  yields (gen_edge_case_scenario pattern g) (fun s _ => exists tables, scenario_fits s tables).
Proof.
  intros Ht0 Ht. destruct pattern; apply edge_yields; try done; try fixed_table.
  all: intros table; repeat (constructor; [fixed_op|]); constructor.
Qed.

(** What the grammar generates fits its own schema, and generating it does not panic: for
    a usable configuration and counters that do not wrap, every scenario with one table,
    with [n] tables or for an edge case consists of tables with different names, each
    with one INTEGER PRIMARY KEY and different column names, and of statements that name
    a table of the scenario and columns of that table, insert one value per column, no
    NULL where it is refused and an integer as the key. *)
Theorem grammar_scenarios_fit g n pattern :
  usable g -> (0 < n)%nat -> 0 <= table_counter g -> table_counter g + Z.of_nat n < 2 ^ 32 -> 0 <= column_counter g ->
  column_counter g + Z.of_nat n * GrammarConfig.max_columns (config g) < 2 ^ 32 ->
  yields (gen_single_table_scenario g) (fun s _ => exists tables, scenario_fits s tables) /\
  yields (gen_multi_table_scenario n g) (fun s _ => exists tables, scenario_fits s tables /\ length tables = n) /\
  yields (gen_edge_case_scenario pattern g) (fun s _ => exists tables, scenario_fits s tables).
Proof using Hrange.
  intros Hu Hn Ht0 Ht Hc0 Hc. pose proof Hu as (_ & Hmc & _).
  split_and!; [apply single_table_yields; (done || nia)|by apply multi_table_yields|apply edge_case_yields; lia].
Qed.
End generated.

(** ** The closures of the strategies *)
Section closures.
Import Generators.

Lemma free_name_fresh fuel : forall i seen name, free_pk_name fuel i seen = Some name -> name ∉ seen.
Proof.
  induction fuel as [|fuel IH]; intros i seen name H; [done|]. cbn in H. case_bool_decide; [by eapply IH|by simplify_eq].
Qed.
Lemma free_name_none fuel : forall i (seen : gset string),
  free_pk_name fuel i seen = None -> Forall (fun s => s ∈ seen) (counted "pk_" i fuel).
Proof.
  induction fuel as [|fuel IH]; intros i seen H; [done|]. cbn in H. rewrite counted_S.
  case_bool_decide; [|done]. constructor; [done|by apply IH].
Qed.

(** Among more names than were seen one is free, so the loop ends. *)
Lemma free_name_exists (seen : gset string) :
  Z.of_nat (size seen) + 1 <= 2 ^ 32 -> exists name, free_pk_name (S (size seen)) 0 seen = Some name /\ name ∉ seen.
Proof.
  intros Hb. destruct (free_pk_name (S (size seen)) 0 seen) as [name|] eqn:E.
  { exists name. split; [done|by eapply free_name_fresh]. }
  apply free_name_none in E. exfalso.
  assert (Hsub : (list_to_set (counted "pk_" 0 (S (size seen))) : gset string) ⊆ seen).
  { intros x Hx%elem_of_list_to_set. rewrite Forall_forall in E. by apply E. }
  apply subseteq_size in Hsub. rewrite size_list_to_set in Hsub by (apply counted_distinct; lia).
  unfold counted in Hsub. rewrite length_map, length_seqZ in Hsub. lia.
Qed.

Definition keys (columns : list ColumnDef.t) : list ColumnDef.t := List.filter ColumnDef.primary_key columns.

Lemma retain_spec columns : forall seen has_pk kept seen' has_pk',
  retain_columns seen has_pk columns = (kept, seen', has_pk') ->
  NoDup (map ColumnDef.name kept) /\ Forall (fun s => s ∉ seen) (map ColumnDef.name kept) /\
  seen' = seen ∪ list_to_set (map ColumnDef.name kept) /\ (length kept <= length columns)%nat /\
  (if has_pk then keys kept = [] /\ has_pk' = true
   else if has_pk' then exists key, keys kept = [key] /\ ColumnDef.col_type key = ColInteger else keys kept = []).
Proof.
  induction columns as [|col columns IH]; intros seen has_pk kept seen' has_pk' H; cbn [retain_columns] in H.
  { simplify_eq. split_and!; [apply NoDup_nil_2|done|set_solver|done|by destruct has_pk']. }
  case_bool_decide as Hs; [destruct (IH _ _ _ _ _ H) as (I1 & I2 & I3 & I4 & I5); split_and!; [done..|cbn; lia|done]|].
  set (seen1 := {[ColumnDef.name col]} ∪ seen) in *.
  destruct (if ColumnDef.primary_key col then _ else _) as [col' pk1] eqn:Ec in H.
  destruct (retain_columns seen1 pk1 columns) as [[kept1 seen2] pk2] eqn:Er. simplify_eq.
  destruct (IH _ _ _ _ _ Er) as (I1 & I2 & I3 & I4 & I5). clear IH Er.
  assert (Hn : ColumnDef.name col' = ColumnDef.name col)
    by (destruct (ColumnDef.primary_key col), has_pk; by simplify_eq).
  cbn [map]. rewrite Hn. rewrite Forall_forall in I2. split_and!.
  - constructor; [|done]. intros Hin. apply I2 in Hin. set_solver.
  - constructor; [done|]. apply Forall_forall. intros x Hx. apply I2 in Hx. set_solver.
  - cbn. set_solver.
  - cbn. lia.
  - unfold keys in *. cbn [List.filter].
    destruct (ColumnDef.primary_key col) eqn:Hp, has_pk; simplify_eq; cbn [ColumnDef.primary_key] in *; rewrite ?Hp; try done.
    destruct I5 as [-> ->]. by eexists.
Qed.

(** Whatever columns are drawn, the table has columns with different names, and exactly
    one of them is the primary key, an INTEGER; the search for its name ends. *)
Theorem drawn_table_has_one_key columns :
  Z.of_nat (length columns) + 1 <= 2 ^ 32 ->
  exists out key, create_table_columns columns = Some out /\ NoDup (map ColumnDef.name out) /\
    keys out = [key] /\ ColumnDef.col_type key = ColInteger.
Proof.
  intros Hb. unfold create_table_columns.
  destruct (retain_columns ∅ false columns) as [[kept seen] has_pk] eqn:E.
  destruct (retain_spec _ _ _ _ _ _ E) as (H1 & _ & H3 & H4 & H5).
  destruct kept as [|c kept].
  { eexists _, _. split_and!; [done|apply NoDup_singleton|done|done]. }
  destruct has_pk; [destruct H5 as (key & Hk & Hty); by exists (c :: kept), key|].
  assert (exists name, (if bool_decide ("id"%string ∈ seen) then free_pk_name (S (size seen)) 0 seen else Some "id"%string)
            = Some name /\ name ∉ seen) as (name & -> & Hname).
  { case_bool_decide; [|by eexists]. apply free_name_exists.
    assert (size seen = length (c :: kept)).
    { rewrite H3, union_empty_l_L, size_list_to_set by done. by rewrite length_map. }
    lia. }
  exists (key_column name :: c :: kept), (key_column name). cbn. split_and!; [done| | |done].
  - constructor; [|done]. intros Hin. apply Hname. rewrite H3. apply elem_of_union_r, elem_of_list_to_set. exact Hin.
  - unfold keys in *. cbn in *. by rewrite H5.
Qed.

(** An insertion for such a schema has no NULL where it is refused. *)
Lemma fixed_values_fit columns : forall i values,
  length values = length columns ->
  Forall2 (fun col v => v = SqlNull -> ColumnDef.primary_key col = false /\ ColumnDef.nullable col = true)
    columns (fix_values i columns values).
Proof.
  induction columns as [|col columns IH]; intros i [|v values] H; try done. cbn. constructor; [|apply IH; by injection H].
  unfold fix_value. destruct v; try done. destruct (ColumnDef.primary_key col), (ColumnDef.nullable col); done.
Qed.
End closures.
