(* ===== verification/HarnessWitnesses.v ===== *)
(** * A concrete run of the end-to-end harness

    SQL over the executable database of [ClientWitnesses] (a schema version and a
    balance), with the laws of [HarnessProps], and its theorems at concrete runs. *)
From Stdlib Require Import Ascii Strings.Byte.
From S2P Require Import Prelude RustStd Extern Cose CborBatches SignedTypes Reference Inbox StateStore Applier Validator.
From S2P Require Import InboxProps RefStorage ClientSession ClientCapture ClientWitnesses Harness Scenarios HarnessProps Grammar.

#[local] Existing Instances bank bank_capture bank_laws.

(** A definition is a new schema version, an insertion adds one to the balance, an
    update the length of its text; nothing is ever there to be deleted. *)
Definition bank_execute (db : Z * Z) (sql : string) : (Z * Z) * result string unit :=
  match sql with
  | String "C" _ => ((db.1 + 1, db.2), Ok tt)
  | String "I" _ => ((db.1, db.2 + 1), Ok tt)
  | String "U" _ => ((db.1, db.2 + Z.of_nat (String.length sql)), Ok tt)
  | _ => (db, Err "no such table"%string)
  end.

#[local] Instance bank_sql : Sql := {|
  open_in_memory := (0, 0) : @Db bank;
  execute_batch := bank_execute;
  user_tables db := Ok (if decide (db.1 = 0) then [] else ["balances"%string]);
  select_rows db _ := Ok [[int_to_string db.2]];
|}.

#[local] Instance bank_harness_laws : HarnessLaws.
Proof.
  refine {| keyed := fun _ : @Db bank => True |}.
  - intros op db db' _ _ H. split; [|done]. destruct op; unfold dml_to_sql in H; rewrite string_app_cons in H; cbn in H; by simplify_eq.
  - intros op db db' r _ H Hr. destruct op; unfold dml_to_sql in H; rewrite string_app_cons in H; cbn in H; by simplify_eq.
  - intros x b n _. by eexists.
  - intros db n b db' H. cbn [backup_bytes bank_capture] in H. apply Ok_inj in H as <-. cbn [restore_backup bank].
    by rewrite dec_enc_nil.
  - done.
  - done.
Defined.

#[local] Instance batch_laws : SerdeLaws ChangesetBatchRequest.t batch_u64.
Proof. constructor; [intros a b H; apply Ok_inj in H as <-; apply codec_de_ser|intros a _; by eexists]. Qed.
#[local] Instance snapshot_laws : SerdeLaws SnapshotRequest.t snapshot_u64.
Proof. constructor; [intros a b H; apply Ok_inj in H as <-; apply codec_de_ser|intros a _; by eexists]. Qed.

Definition bank_key : @PrivateKeySigner ref_crypto ref_signer := 5.
Definition bank_scenario : E2EScenario.t :=
  E2EScenario.mk "CREATE TABLE balances (id INTEGER PRIMARY KEY)" ["INSERT INTO balances VALUES (1)"]%string
    [ExecuteDml (insert_operation "balances" 2 (SqlInteger 5) "bob"); SyncValidator;
     ExecuteDml (delete_operation "balances" 7); SyncValidator].

(** [scenario_ends_consistent] on a run with a statement that is refused. *)
Lemma scenario_ends_consistent_witness :
  exists h, execute_scenario (E2EHarness.new bank_key) bank_scenario (fun _ => 1700) = (h, Ok tt) /\
    E2EHarness.current_sequence h = 1 /\ E2EHarness.replica h = ((1, 2) : @Db bank) /\
    E2EHarness.replica h = E2EHarness.source_conn h /\ check_all_invariants h = [].
Proof.
  set (h := fst (execute_scenario (E2EHarness.new bank_key) bank_scenario (fun _ => 1700))).
  assert (E : execute_scenario (E2EHarness.new bank_key) bank_scenario (fun _ => 1700) = (h, Ok tt)).
  { assert (H : snd (execute_scenario (E2EHarness.new bank_key) bank_scenario (fun _ => 1700)) = Ok tt) by by_vm.
    unfold h. destruct (execute_scenario _ _ _) as [h' r]. cbn in H |- *. by subst r. }
  exists h. destruct (scenario_ends_consistent bank_key bank_scenario (fun _ => 1700) h) as [H1 H2];
    [apply ref_signer_available|intros _; unfold is_u64; lia|reflexivity|reflexivity|reflexivity|intros ? ? _ _; exact I|exact E|].
  split; [exact E|]. split; [unfold h; by_vm|]. split; [unfold h; by_vm|]. split; [exact H1|]. apply H2. unfold h. by_vm.
Defined.

(** ** A run with a fault *)

(** The corrupted message is refused and the replica stays at version 0. *)
Definition bank_start : @E2EHarness.t _ _ bank := started bank_key ((1, 1) : @Db bank).
Definition bank_op : DmlOperation := insert_operation "balances" 2 (SqlInteger 5) "bob".
#[local] Abbreviation bank_sent := (E2EHarness.execute_and_sequence bank_start 1700 (dml_to_sql bank_op) 0).
#[local] Abbreviation bank_log := ([] ++ sent (fst bank_sent) (snd bank_sent)).
Definition bank_fault : Fault := CorruptPayload 0 BitFlip.
#[local] Abbreviation bank_faulty := (inject_fault (fst bank_sent) bank_fault).
#[local] Abbreviation bank_synced := (E2EHarness.sync_validator bank_faulty 1701).

(** Whether a signature fits, computed. *)
Definition fits_check (pk : bytes) (g : SignedMessage.t) (payload : bytes) : bool :=
  match cbor_write (sig_structure (SignedMessage.cose_protected_header g) payload),
        hex_decode (strip_prefix_or_self "0x" (SignedMessage.signature g)), verifying_key_from_bytes pk with
  | Ok tbs, Ok sgb, Ok vk => match sig_from_slice sgb with Ok s => verify_prehash vk (keccak256 tbs) s | _ => false end
  | _, _, _ => false
  end.
Lemma fits_checked pk g payload : signature_fits pk g payload -> fits_check pk g payload = true.
Proof. intros (tbs & sgb & s & vk & H1 & H2 & H3 & [_ H4] & H5). unfold fits_check. by rewrite H1, H2, H4, H3. Qed.

Lemma bank_detectable : detectable bank_log (fst bank_sent) bank_fault.
Proof.
  intros m e Hm He Hv%fits_checked. exfalso.
  assert (H : forallb (fun e => match MockFetcher.get (E2EHarness.fetcher (fst bank_sent)) 0 with
    | Ok (Some m) => negb (fits_check (E2EHarness.pubkey (fst bank_sent)) e.1 (corrupt_payload (SignedMessage.payload m) BitFlip))
    | _ => true end) bank_log = true) by by_vm.
  rewrite Hm in H. rewrite forallb_forall in H. apply list_elem_of_In, H in He. by rewrite Hv in He.
Qed.

Lemma bank_sent_run : run bank_start bank_log (fst bank_sent).
Proof.
  pose proof (surjective_pairing bank_sent) as E.
  refine (run_dml bank_start [] bank_start bank_op 1700 0 (fst bank_sent) (snd bank_sent) (run_start bank_start) _ _ _ E);
    [reflexivity|unfold is_u64; lia|reflexivity].
Qed.

Lemma bank_run : run bank_start bank_log (fst bank_synced).
Proof.
  pose proof (surjective_pairing bank_synced) as E.
  exact (run_sync bank_start bank_log bank_faulty 1701 (fst bank_synced) (snd bank_synced)
           (run_fault bank_start bank_log (fst bank_sent) bank_fault bank_sent_run bank_detectable) E).
Qed.

(** [faults_never_corrupt] on it. *)
Lemma faults_never_corrupt_witness :
  run bank_start bank_log (fst bank_synced) /\
  E2EHarness.replica (fst bank_synced) = ((1, 1) : @Db bank) /\ E2EHarness.source_conn (fst bank_synced) = ((1, 2) : @Db bank) /\
  (exists k, StateStore.next_sequence (Validator.state (E2EHarness.validator (fst bank_synced))) = Ok (Z.of_nat k) /\
     (((1, 1) : @Db bank) :: bank_log.*2) !! k = Some (E2EHarness.replica (fst bank_synced))) /\
  E2EHarness.current_sequence (fst bank_synced) = 1.
Proof.
  destruct (faults_never_corrupt bank_key ((1, 1) : @Db bank) bank_log (fst bank_synced)) as (H1 & H2 & _);
    [apply ref_signer_available|exact I|exact bank_run|].
  split; [exact bank_run|]. split; [by_vm|]. split; [by_vm|]. split; [exact H1|].
  rewrite H2. by_vm.
Defined.

(** [text_literal_read_back] on a text with a quote. *)
Lemma text_literal_read_back_witness :
  scan_literal (to_sql_literal (SqlText "it's") +:+ ", 7)") = Some ("it's", ", 7)")%string.
Proof. apply text_literal_read_back. reflexivity. Defined.

(** ** A random source, and [grammar_scenarios_fit] on it *)
#[local] Instance counting_rng : Rng := {|
  RngState := Z;
  seed_from_u64 seed := seed;
  random_range lo hi r := (lo + r mod (hi - lo), r + 1);
  sample_alphanumeric r := ("x"%char, r + 1);
|}.
#[local] Instance counting_grammar_rng : GrammarRng := {|
  bernoulli _ r := (Z.even r, r + 1);
  random_i64 r := (r, r + 1);
  random_u8 r := (byte_of_Z r, r + 1);
  random_real lo _ r := (lo, r + 1);
|}.
Lemma grammar_scenarios_fit_witness :
  let g := SqlGrammar.with_seed GrammarConfig.default 42 in
  yields (SqlGrammar.gen_single_table_scenario g) (fun s _ => exists tables, scenario_fits s tables) /\
  yields (SqlGrammar.gen_multi_table_scenario 3 g) (fun s _ => exists tables, scenario_fits s tables /\ length tables = 3%nat) /\
  yields (SqlGrammar.gen_edge_case_scenario UnicodeStrings g) (fun s _ => exists tables, scenario_fits s tables).
Proof.
  apply grammar_scenarios_fit; [|split; [reflexivity|cbn; lia]|lia|cbn; lia..].
  intros lo hi r H. cbn. pose proof (Z.mod_pos_bound r (hi - lo)). lia.
Defined.
